(* ===== verification/_CoqProject ===== *)
-Q . S2P
Prelude.v
Machine.v
Riscv.v
Hart.v
KString.v
Kalloc.v
Vm.v
PageTable.v
Asm.v
AsmSpec.v
Start.v
Uvm.v
FreeWalk.v
UserCopy.v
Block.v
SleepLock.v
Bio.v
BioSpec.v
Cache.v
Log.v
LogSpec.v
Grep.v
Sh.v
ShPrint.v
UPrintf.v
KPrintf.v
Ulib.v
Wc.v
Umalloc.v
Pipe.v
Spinlock.v
Uart.v
Console.v
Virtio.v
Proc.v
Exec.v
Syscall.v
Trap.v
ProcMem.v
Trampoline.v
ExecMem.v
ExecSpec.v
ProcSpec.v
ProcCalls.v
ProcFork.v
ProcLife.v
TrapSpec.v
TrapRun.v
ExecRun.v
Wakeup.v
Fs.v
FsTx.v
FsAlloc.v
FsInode.v
FsOp.v
FsFile.v
FsWrite.v
FsTrunc.v
FsDir.v
FsTable.v
FsPath.v
FsSound.v
FsTree.v
File.v
FileWrite.v
FileLayer.v
SysFile.v
SysLink.v
Kernel.v
