(* ===== verification/Prelude.v ===== *)
(** * Verification of the xv6 kernel and user programs

    The program is xv6-riscv: a kernel (kernel/) with virtual memory, processes, a
    file system with a write-ahead log and device drivers, and user programs with
    their library (user/).  This library translates it into Rocq functions and
    proves that they do what they are for.

    ** How the code is modelled

    A C function over a state [S] is a value of [M S A] (this file): it returns
    ([OK]), panics, goes to sleep on a channel ([BLOCK]) or lacks fuel.  [wp m Q s]
    is total correctness: [m] returns from [s], and [Q] holds.  C integers are [Z]
    with the wrap-around of their width written out.  Memory is bytes at addresses
    (Machine.v); pointers into tables are 0 for null and [i + 1] for entry [i].
    Loops that C bounds by data are [for_loop]; the others are [loop] with fuel,
    and every theorem about them shows that the fuel is enough, because [wp] is
    false of a run without fuel.  The fuel is written in the definition: the
    number of bytes or blocks to copy, of entries of a table, of characters of a
    path, or of the addresses of the heap; for the parser of the shell, four times
    the length of the line.  A spinlock is the bit one CPU sees, except in
    Spinlock.v and Wakeup.v, where several CPUs run one memory access at a time.  A
    call that sleeps ends there: in Pipe.v, Console.v, Virtio.v and Proc.v its
    pieces between two sleeps are steps of their own, and theorems are about all
    sequences of steps of all callers.  Assembly is a list of instructions that
    [run] of Asm.v executes on a hart and memory; a call of a C function from it is a
    parameter of [run].

    ** The parts, from the machine up

    - Machine.v: memory; Riscv.v: page tables of riscv.h, and memlayout.h; Hart.v:
      the registers of riscv.h, with traps and returns from traps (the functions and
      masks that no code uses are left out); KString.v:
      string.c, with [memmove_correct], [strncpy_strncmp],
      [safestrcpy_terminates].
    - Kalloc.v: kalloc.c is a stack of pages ([kalloc_refines_stack]) that holds all
      of RAM after boot ([kinit_frees_all_ram]).
    - Vm.v, PageTable.v, Uvm.v, FreeWalk.v, UserCopy.v: vm.c.  The invariant of page
      tables in byte memory, and for each operation what it does to the address
      space, to physical memory and to the free pages, on success and on failure,
      [uvmalloc] and [uvmdealloc] at sizes that need not be multiples of a page
      ([uvmcopy_correct], [uvmalloc_correct], [uvmdealloc_correct],
      [uvmfree_no_leak]); the copies between kernel and user touch user pages only
      ([copyout_correct], [copyin_correct], [copyinstr_correct]).
    - Asm.v: instructions, address translation, and the code of entry.S, swtch.S,
      trampoline.S and kernelvec.S; AsmSpec.v: a thread resumes where it called
      swtch ([swtch_resumes]), traps in the kernel and the timer are invisible to
      the code they interrupt ([kernelvec_transparent], [timer_tick]).  Start.v:
      start.c, from the first instruction to main ([boot_reaches_main]).
    - Block.v, SleepLock.v, Bio.v, BioSpec.v, Cache.v: fs.h blocks, sleeplock.c and
      bio.c.  The cache refines a plain disk ([bcache_refines_disk]).
    - Log.v, LogSpec.v: log.c.  Transactions are atomic and durable across crashes,
      also crashes during recovery ([log_crash_atomic]); the reservation of
      [begin_op] is one block too generous ([log_reservation_panics]).
    - Fs.v: fs.c.  FsTx.v (blocks inside a transaction), FsAlloc.v ([balloc],
      [bfree]), FsInode.v ([iget], [ilock], [iput], [iupdate]), FsOp.v (system calls
      as transactions), FsFile.v ([bmap], [readi], [writei]), FsWrite.v (a whole
      write), FsTrunc.v ([itrunc]), FsDir.v ([dirlookup], [dirlink]), FsTable.v
      (references to inodes), FsPath.v ([namex]), FsSound.v (sound files), FsTree.v
      (a sound tree of directories, with link counts).  A write is atomic and durable and touches
      nothing else ([file_write_atomic]); the last reference to a file without
      links frees exactly its blocks ([iput_reclaims]); path lookup refines the
      resolution of the path on disk ([namex_resolves]); a linked name is found
      ([dirlink_found]).
    - Pipe.v: pipe.c is a bounded queue ([pipe_refines_queue]).
    - File.v, FileWrite.v, FileLayer.v: file.c.  A long write is a sequence of
      transactions of which a crash leaves a prefix ([filewrite_durable]).
    - SysFile.v: sysfile.c but [sys_exec], and the arguments of syscall.c, over the
      state of File.v.  SysLink.v: [sys_link] is atomic and keeps the tree sound
      ([sys_link_tree]).
    - Spinlock.v: spinlock.c, mutual exclusion under every schedule of the CPUs
      ([spinlock_mutual_exclusion], [push_pop_off_nest]).
    - Proc.v, ProcMem.v, ProcSpec.v, ProcCalls.v, ProcFork.v, ProcLife.v: proc.c over
      an interface of open files ([FileLayer]).  Every sequence of process events
      keeps the process table, the memory and the counts in order
      ([process_lifecycle]); [fork_copies_process]; [kill_finds_process].
      Wakeup.v: no wakeup is lost, one memory access at a time ([no_lost_wakeup]).
    - Exec.v: exec.c and elf.h over an interface of the file system ([ProgFiles]).
      ExecMem.v (pages of the new address space), ExecSpec.v (the memory that a
      program file and its arguments describe), ExecRun.v: [exec] fails and changes
      nothing, or the process has that memory ([exec_all_or_nothing]).
    - Syscall.v: syscall.c, sysproc.c and [sys_exec] over the state of Proc.v and
      the clock.  Trap.v: trap.c and plic.c, with the hart and the interrupt
      controller.  Trampoline.v (what [uservec] and [userret] save and restore),
      TrapSpec.v (the hart and the kernel between the two), TrapRun.v: from a
      process in user space through the kernel and back ([syscall_round_trip],
      [device_interrupt_transparent]).
    - Kernel.v: the open files of file.c and the file system of fs.c satisfy the
      interface of the processes, so the whole runs ([kernel_lifecycle]).
    - Uart.v, Console.v, Virtio.v, KPrintf.v: the drivers and printf.c
      ([uart_transmits_in_order], [console_line_discipline], [virtio_disk_safe],
      [kernel_user_printf_agree]).
    - Sh.v, ShPrint.v: the parser of user/sh.c always ends ([parsecmd_ends]) and
      understands every command line of its syntax ([parsecmd_print]).
      Umalloc.v: user/umalloc.c hands out blocks that are apart ([malloc_blocks]).
      UPrintf.v, Ulib.v, Grep.v, Wc.v: user/printf.c, ulib.c, grep.c and wc.c
      ([atoi_printint], [gets_bounded], [match_decides_language],
      [grep_prints_matching_lines], [wc_counts]).

    ** What stands for the outside

    The disk, the UART and the virtio device are parameters or environments of the
    steps: the status bits and the input the UART shows, completions in any order,
    and for the disk the contents of its blocks, with a crash possible after every
    write.  The end of the kernel image and other addresses the linker chooses are
    the classes [Layout], [ProcLayout], [CallLayout], [TrapLayout] and
    [StartLayout], with what the code relies on in [LayoutOk], [ProcLayoutOk],
    [TrapLayoutOk] and [StartLayoutOk]; the examples instantiate them.  The
    functions of devices that file.c calls through [devsw] are arguments of its
    definitions.  So are, in Trap.v and Syscall.v, the interrupt handlers of the
    devices and the system calls of SysFile.v, which are modelled over other states:
    what the theorems of TrapRun.v assume of them is that they keep the processes in
    order.  For [exec] the file system is [ProgFiles], with its behaviour in
    [ProgFilesOk]: namei finds a file or nothing, and readi returns its bytes.  The
    registers that C code may leave changed are arbitrary.  The hart is one of RV64
    with three modes; its interrupts arrive only where a theorem says so.

    ** Not modelled

    main.c (the order of the initialisation calls), [kvminit] and [kvminithart] of
    vm.c, initcode.S, the linker script.  mkfs.c, ramdisk.c (an alternative to the
    disk driver that is not linked), [runcmd], [getcmd] and [main] of the shell, and
    user programs that are sequences of system calls (init, cat, echo, ls, ln,
    mkdir, rm, kill, zombie, and the tests usertests, grind, forktest, stressfs).

    Modelled without a theorem of their own: the calls of SysFile.v other than
    [sys_link], the calls of sysproc.c (their theorems are those of [fork], [exit],
    [wait], [growproc] and [kill], which they call), [sys_exec] around [exec],
    [sys_sleep], and the preemption of a process by the clock. *)

From stdpp Require Import base gmap list strings numbers.

#[global] Open Scope Z_scope.

(** ** Machine integers

    C integers are [Z] with the wrap-around of their width written out:
    [uint64], [uint], [ushort] and [uchar] are reduced modulo a power of two,
    [int] and [short] are the two's complement representatives. *)

Definition u64 (z : Z) : Z := z mod 18446744073709551616.
Definition u32 (z : Z) : Z := z mod 4294967296.
Definition u16 (z : Z) : Z := z mod 65536.
Definition u8 (z : Z) : Z := z mod 256.
Definition i32 (z : Z) : Z :=
  if u32 z <? 2147483648 then u32 z else u32 z - 4294967296.
Definition i16 (z : Z) : Z :=
  if u16 z <? 32768 then u16 z else u16 z - 65536.
Definition i8 (z : Z) : Z :=
  if u8 z <? 128 then u8 z else u8 z - 256.

(** A C condition: an integer is true when it is not zero. *)
Definition truthy (z : Z) : bool := negb (z =? 0).

(** The string in an array of characters. *)
Fixpoint cstr (l : list Z) : list Z :=
  match l with c :: l' => if c =? 0 then [] else c :: cstr l' | [] => [] end.

(** ** Limits and flags that several parts use: kernel/param.h, kernel/fcntl.h *)

Definition NOFILE : Z := 16.
Definition MAXPATH : Z := 128.
Definition O_RDONLY : Z := 0.
Definition O_WRONLY : Z := 1.
Definition O_RDWR : Z := 2.
Definition O_CREATE : Z := 512.
Definition O_TRUNC : Z := 1024.

(** ** Outcomes of kernel code

    A C function that reads and writes a state of type [S] is a function of
    that state.  It returns a value ([OK]), calls [panic] and never returns
    ([PANIC], with the message), goes to sleep on a channel ([BLOCK], with the
    state it sleeps in), or, for loops whose bound is not structural, exhausts
    the fuel of the model ([FUEL]); theorems show the last one does not occur. *)

Inductive outcome (S A : Type) : Type :=
| OK (a : A) (s : S)
| PANIC (msg : string)
| BLOCK (chan : Z) (s : S)
| FUEL.
Arguments OK {S A} a s.
Arguments PANIC {S A} msg.
Arguments BLOCK {S A} chan s.
Arguments FUEL {S A}.

Definition M (S A : Type) : Type := S → outcome S A.

Definition ret {S A} (a : A) : M S A := λ s, OK a s.
Definition bind {S A B} (m : M S A) (k : A → M S B) : M S B :=
  λ s, match m s with
       | OK a s' => k a s'
       | PANIC msg => PANIC msg
       | BLOCK c s' => BLOCK c s'
       | FUEL => FUEL
       end.
Definition panic {S A} (msg : string) : M S A := λ _, PANIC msg.
Definition get {S} : M S S := λ s, OK s s.
Definition gets {S A} (f : S → A) : M S A := λ s, OK (f s) s.
Definition modify {S} (f : S → S) : M S unit := λ s, OK tt (f s).
Definition sleep_on {S A} (chan : Z) : M S A := λ s, BLOCK chan s.
(** [wakeup(chan)] in code whose state does not include the process table: a
    sleeper is the [BLOCK] outcome of its own call, so the state of the caller
    does not change.  The call on the process table is modelled with it. *)
Definition wakes {S} (chan : Z) : M S unit := ret tt.
(** An access outside an array, for which C gives no meaning. *)
Definition undefined {S A} : M S A := λ _, PANIC "undefined behaviour".
Definition out_of_fuel {S A} : M S A := λ _, FUEL.

(** Run code of a component on its part of a larger state. *)
Definition zoom {S T A} (view : S → T) (set : T → S → S) (m : M T A) : M S A :=
  λ s, match m (view s) with
       | OK a t => OK a (set t s)
       | PANIC msg => PANIC msg
       | BLOCK c t => BLOCK c (set t s)
       | FUEL => FUEL
       end.

Declare Scope c_scope.
Delimit Scope c_scope with c.
Notation "x <- m ;; k" := (bind m (λ x, k))
  (at level 20, m at level 99, k at level 200, right associativity) : c_scope.
Notation "' p <- m ;; k" := (bind m (λ x, match x with p => k end))
  (at level 20, p pattern, m at level 99, k at level 200, right associativity)
  : c_scope.
Notation "m ;; k" := (bind m (λ _, k))
  (at level 100, k at level 200, right associativity) : c_scope.
#[global] Open Scope c_scope.

(** [for(i = lo; n times; i++) body(i)]. *)
Fixpoint for_loop {S} (n : nat) (i : Z) (body : Z → M S unit) : M S unit :=
  match n with
  | O => ret tt
  | Datatypes.S n' => body i ;; for_loop n' (i + 1) body
  end.

(** A loop over the local variables [a]: the body either goes round again
    with new values ([inl]) or leaves the loop with a result ([inr]). *)
Fixpoint loop {S A B} (fuel : nat) (body : A → M S (A + B)) (a : A) : M S B :=
  match fuel with
  | O => out_of_fuel
  | Datatypes.S f =>
      r <- body a ;;
      match r with
      | inl a' => loop f body a'
      | inr b => ret b
      end
  end.

(** A spinlock as one CPU sees it: [acquire] of a lock this CPU already holds
    panics, and so does [release] of a lock it does not hold. *)
Definition acquire {S} (locked : S → bool) (set : bool → S → S) : M S unit :=
  λ s, if locked s then PANIC "acquire" else OK tt (set true s).
Definition release {S} (locked : S → bool) (set : bool → S → S) : M S unit :=
  λ s, if locked s then OK tt (set false s) else PANIC "release".

(** ** Total correctness

    [wp m Q s]: [m] started in [s] returns (no panic, no sleep, no lack of
    fuel), and the value and the state it returns satisfy [Q]. *)

Definition wp {S A} (m : M S A) (Q : A → S → Prop) (s : S) : Prop :=
  match m s with OK a s' => Q a s' | _ => False end.

Section wp_rules.
Context {S : Type}.

Lemma wp_OK {A} (m : M S A) Q s :
  wp m Q s ↔ ∃ a s', m s = OK a s' ∧ Q a s'.
Proof. unfold wp. destruct (m s); naive_solver. Qed.

Lemma wp_run_OK {A} (m : M S A) Q s : wp m Q s → ∃ a s', m s = OK a s' ∧ Q a s'.
Proof. apply wp_OK. Qed.

Lemma wp_intro {A} (m : M S A) Q s a s' : m s = OK a s' → Q a s' → wp m Q s.
Proof. unfold wp. by intros ->. Qed.

Lemma wp_ret {A} (a : A) Q (s : S) : Q a s → wp (ret a) Q s.
Proof. done. Qed.

Lemma wp_bind {A B} (m : M S A) (k : A → M S B) Q s :
  wp m (λ a s', wp (k a) Q s') s → wp (bind m k) Q s.
Proof. unfold wp, bind. by destruct (m s). Qed.

Lemma wp_bind_inv {A B} (m : M S A) (k : A → M S B) Q s :
  wp (bind m k) Q s → wp m (λ a s', wp (k a) Q s') s.
Proof. unfold wp, bind. by destruct (m s). Qed.

Lemma wp_mono {A} (m : M S A) (Q R : A → S → Prop) s :
  wp m Q s → (∀ a s', Q a s' → R a s') → wp m R s.
Proof. unfold wp. destruct (m s); naive_solver. Qed.

Lemma wp_seq {A B} (m : M S A) (k : A → M S B) Q R s :
  wp m Q s → (∀ a s', Q a s' → wp (k a) R s') → wp (bind m k) R s.
Proof. intros Hm Hk. apply wp_bind. by eapply wp_mono. Qed.

(** Regroup the first two calls. *)
Lemma wp_assoc {A B C} (m : M S A) (f : A → M S B) (g : B → M S C) Q s :
  wp (bind (bind m f) g) Q s → wp (bind m (λ a, bind (f a) g)) Q s.
Proof. unfold wp, bind. by destruct (m s). Qed.

Lemma wp_get (Q : S → S → Prop) s : Q s s → wp get Q s.
Proof. done. Qed.

Lemma wp_gets {A} (f : S → A) Q s : Q (f s) s → wp (gets f) Q s.
Proof. done. Qed.

Lemma wp_modify (f : S → S) Q s : Q tt (f s) → wp (modify f) Q s.
Proof. done. Qed.

Lemma wp_zoom {T A} (view : S → T) (set : T → S → S) (m : M T A) Q s :
  wp m (λ a t, Q a (set t s)) (view s) → wp (zoom view set m) Q s.
Proof. unfold wp, zoom. by destruct (m (view s)). Qed.

Lemma wp_acquire locked set Q (s : S) :
  locked s = false → Q tt (set true s) → wp (acquire locked set) Q s.
Proof. unfold wp, acquire. by intros ->. Qed.

Lemma wp_release locked set Q (s : S) :
  locked s = true → Q tt (set false s) → wp (release locked set) Q s.
Proof. unfold wp, release. by intros ->. Qed.

(** The loop rule for counted loops: the invariant is indexed by the counter. *)
Lemma wp_for_loop (I : Z → S → Prop) (Q : unit → S → Prop) n lo body s :
  I lo s →
  (∀ i s, lo ≤ i < lo + Z.of_nat n → I i s → wp (body i) (λ _, I (i + 1)) s) →
  (∀ s, I (lo + Z.of_nat n) s → Q tt s) →
  wp (for_loop n lo body) Q s.
Proof.
  revert lo s. induction n as [|n IH]; intros lo s HI Hbody HQ; cbn [for_loop].
  - apply wp_ret, HQ. by rewrite Z.add_0_r.
  - eapply wp_seq; [apply Hbody; [lia|done]|].
    intros ? s' HI'. apply IH; [done| |].
    + intros i s'' Hi. apply Hbody. lia.
    + intros s'' HI''. apply HQ.
      by replace (lo + Z.of_nat (Datatypes.S n))
        with (lo + 1 + Z.of_nat n) by lia.
Qed.

(** One turn of a loop. *)
Lemma wp_loop_unroll {A B} (Q : B → S → Prop) fuel (body : A → M S (A + B)) a s :
  wp (body a) (λ r s', match r with inl a' => wp (loop fuel body a') Q s' | inr b => Q b s' end) s →
  wp (loop (Datatypes.S fuel) body a) Q s.
Proof. intros H. eapply wp_seq; [exact H|]. by intros [a'|b] s' H'. Qed.

(** The loop rule for [loop]: a variant that strictly decreases and is
    smaller than the fuel gives termination. *)
Lemma wp_loop {A B} (I : A → S → Prop) (variant : A → S → nat)
    (Q : B → S → Prop) fuel (body : A → M S (A + B)) a s :
  (variant a s < fuel)%nat →
  I a s →
  (∀ a s, I a s →
     wp (body a) (λ r s', match r with
                          | inl a' => I a' s' ∧ (variant a' s' < variant a s)%nat
                          | inr b => Q b s'
                          end) s) →
  wp (loop fuel body a) Q s.
Proof.
  intros Hv HI Hbody. revert a s Hv HI.
  induction fuel as [|f IH]; intros a s Hv HI; [lia|]. cbn [loop].
  eapply wp_seq; [by apply Hbody|].
  intros [a'|b] s' H; [|by apply wp_ret].
  destruct H as [HI' Hv']. apply IH; [lia|done].
Qed.

(** The same with the number of turns left as an index of the invariant. *)
Lemma wp_loop_turns {A B} (I : nat → A → S → Prop) k
    (Q : B → S → Prop) fuel (body : A → M S (A + B)) a s :
  (k < fuel)%nat →
  I k a s →
  (∀ k a s, I k a s →
     wp (body a) (λ r s', match r with
                          | inl a' => ∃ k', (k' < k)%nat ∧ I k' a' s'
                          | inr b => Q b s'
                          end) s) →
  wp (loop fuel body a) Q s.
Proof.
  intros Hk HI Hbody. revert k a s Hk HI.
  induction fuel as [|f IH]; intros k a s Hk HI; [lia|]. cbn [loop].
  eapply wp_seq; [by apply (Hbody k)|].
  intros [a'|b] s' H; [|by apply wp_ret].
  destruct H as (k' & Hk' & HI'). apply (IH k'); [lia|done].
Qed.

End wp_rules.

(** ** Tactics *)

(** Linear arithmetic with [/] and [mod]. *)
Ltac zlia := unfold u64, u32, u16, u8 in *; Z.to_euclidean_division_equations; lia.

(** Run the code of a [wp] goal up to the next call that needs a lemma. *)
Ltac wp_hook := fail.
Ltac wp_step :=
  lazymatch goal with
  | |- wp (bind _ _) _ _ => apply wp_bind
  | |- wp (ret _) _ _ => apply wp_ret
  | |- wp (wakes _) _ _ => apply wp_ret
  | |- wp (gets _) _ _ => apply wp_gets
  | |- wp get _ _ => apply wp_get
  | |- wp (modify _) _ _ => apply wp_modify
  | |- wp _ _ _ => wp_hook
  end; cbv beta.
Ltac wp_run := repeat wp_step.
(** Use the lemma [H] for the next call. *)
Ltac wp_use H := wp_run; eapply wp_mono; [eapply H|].

(** Turn the boolean tests of the code into propositions. *)
Ltac bool_to_prop :=
  repeat match goal with
  | H : (_ <? _) = true |- _ => apply Z.ltb_lt in H
  | H : (_ <? _) = false |- _ => apply Z.ltb_ge in H
  | H : (_ <=? _) = true |- _ => apply Z.leb_le in H
  | H : (_ <=? _) = false |- _ => apply Z.leb_gt in H
  | H : (_ =? _) = true |- _ => apply Z.eqb_eq in H
  | H : (_ =? _) = false |- _ => apply Z.eqb_neq in H
  | H : (_ && _) = true |- _ => apply andb_true_iff in H as [? ?]
  | H : (_ || _) = false |- _ => apply orb_false_iff in H as [? ?]
  | H : negb _ = true |- _ => apply negb_true_iff in H
  | H : negb _ = false |- _ => apply negb_false_iff in H
  end.

(** Decide a test of the code whose value [lia] knows. *)
Ltac ztest :=
  repeat match goal with
  | |- context [?a <? ?b] =>
      first [ rewrite (proj2 (Z.ltb_lt a b)) by lia
            | rewrite (proj2 (Z.ltb_ge a b)) by lia ]
  | |- context [?a <=? ?b] =>
      first [ rewrite (proj2 (Z.leb_le a b)) by lia
            | rewrite (proj2 (Z.leb_gt a b)) by lia ]
  | |- context [?a =? ?b] =>
      first [ rewrite (proj2 (Z.eqb_eq a b)) by lia
            | rewrite (proj2 (Z.eqb_neq a b)) by lia ]
  end; cbn [negb andb orb].

(** Split on a test of the code. *)
Ltac zcase :=
  match goal with
  | |- context [?a <? ?b] => destruct (Z.ltb_spec a b)
  | |- context [?a <=? ?b] => destruct (Z.leb_spec a b)
  | |- context [?a =? ?b] => destruct (Z.eqb_spec a b)
  end.

(** ** Integer lemmas *)

Create HintDb cint.

Lemma u64_small z : 0 ≤ z < 18446744073709551616 → u64 z = z.
Proof. apply Z.mod_small. Qed.
Lemma u32_small z : 0 ≤ z < 4294967296 → u32 z = z.
Proof. apply Z.mod_small. Qed.
Lemma u8_small z : 0 ≤ z < 256 → u8 z = z.
Proof. apply Z.mod_small. Qed.
Lemma u64_range z : 0 ≤ u64 z < 18446744073709551616.
Proof. by apply Z.mod_pos_bound. Qed.
Lemma u32_range z : 0 ≤ u32 z < 4294967296.
Proof. by apply Z.mod_pos_bound. Qed.
Lemma u8_range z : 0 ≤ u8 z < 256.
Proof. by apply Z.mod_pos_bound. Qed.
Lemma i32_small z : -2147483648 ≤ z < 2147483648 → i32 z = z.
Proof.
  intros H. unfold i32.
  destruct (Z.ltb_spec (u32 z) 2147483648); zlia.
Qed.
#[export] Hint Resolve u64_range u32_range u8_range : cint.

(** Disjoint bit patterns add up. *)
Lemma lor_low_high k a b :
  0 ≤ k → 0 ≤ b < 2 ^ k → Z.lor (a * 2 ^ k) b = a * 2 ^ k + b.
Proof.
  intros Hk Hb. symmetry. apply Z.add_nocarry_lor.
  apply Z.bits_inj'. intros n Hn. rewrite Z.land_spec, Z.bits_0.
  destruct (Z.lt_ge_cases n k).
  - by rewrite Z.mul_pow2_bits_low.
  - rewrite <-(Z.mod_small b (2 ^ k)), Z.mod_pow2_bits_high by lia.
    by rewrite andb_false_r.
Qed.

Lemma lor_bound k a b :
  0 ≤ k → 0 ≤ a < 2 ^ k → 0 ≤ b < 2 ^ k → 0 ≤ Z.lor a b < 2 ^ k.
Proof.
  intros Hk Ha Hb.
  assert (Z.lor a b mod 2 ^ k = Z.lor a b) as <-; [|apply Z.mod_pos_bound; lia].
  apply Z.bits_inj'. intros n Hn. destruct (Z.lt_ge_cases n k).
  - by rewrite Z.mod_pow2_bits_low.
  - rewrite Z.mod_pow2_bits_high, Z.lor_spec by lia.
    rewrite <-(Z.mod_small a (2 ^ k)), <-(Z.mod_small b (2 ^ k)) by lia.
    by rewrite !Z.mod_pow2_bits_high by lia.
Qed.

(** Clearing the low [k] bits rounds down to a multiple of [2^k]. *)
Lemma land_lnot_ones k a :
  0 ≤ k → Z.land a (Z.lnot (Z.ones k)) = a - a mod 2 ^ k.
Proof.
  intros Hk. rewrite <-Z.ldiff_land, Z.ldiff_ones_r by done.
  rewrite Z.shiftl_mul_pow2, Z.shiftr_div_pow2 by done.
  pose proof (Z.div_mod a (2 ^ k)) as E.
  specialize (E (Z.pow_nonzero 2 k ltac:(lia) Hk)). lia.
Qed.

(** The same mask at 64 bits. *)
Lemma land_u64_mask k a :
  0 ≤ k ≤ 64 → 0 ≤ a < 2 ^ 64 →
  Z.land a (u64 (Z.lnot (Z.ones k))) = a - a mod 2 ^ k.
Proof.
  intros Hk Ha. rewrite <-land_lnot_ones by lia.
  apply Z.bits_inj'. intros n Hn. rewrite !Z.land_spec.
  destruct (Z.lt_ge_cases n 64).
  - f_equal. unfold u64. change 18446744073709551616 with (2 ^ 64).
    by rewrite Z.mod_pow2_bits_low.
  - rewrite <-(Z.mod_small a (2 ^ 64)), Z.mod_pow2_bits_high by lia. done.
Qed.

(** ** List lemmas *)

Lemma bind_ext_in {A B} (f g : A → list B) (l : list A) :
  (∀ j, j ∈ l → g j = f j) → l ≫= g = l ≫= f.
Proof.
  induction l as [|j l IH]; intros H; [done|]. cbn.
  rewrite H by set_solver. f_equal. apply IH. set_solver.
Qed.

(** Updating one piece of a concatenation: the pieces at other indices are
    unchanged and the piece at [i] gains the elements [xs]. *)
Lemma bind_update_perm {A B} (f g : A → list B) (l : list A) i xs :
  NoDup l → i ∈ l →
  (∀ j, j ∈ l → j ≠ i → g j = f j) →
  g i ≡ₚ xs ++ f i →
  l ≫= g ≡ₚ xs ++ (l ≫= f).
Proof.
  intros Hnd Hi Hne Heq. induction l as [|j l IH]; [by apply elem_of_nil in Hi|].
  apply list.NoDup_cons in Hnd as [Hj Hnd]. cbn.
  apply elem_of_cons in Hi as [->|Hi].
  - rewrite Heq, <-app_assoc. f_equiv. f_equiv.
    assert (l ≫= g = l ≫= f) as ->; [|done].
    apply bind_ext_in. intros k Hk. apply Hne; set_solver.
  - assert (j ≠ i) by set_solver.
    rewrite Hne by set_solver. rewrite IH; [|done|done|set_solver].
    rewrite !app_assoc. f_equiv. apply Permutation_app_comm.
Qed.

(** Two different pieces of a duplicate-free concatenation are disjoint. *)
Lemma NoDup_bind_disj {A B} (f : A → list B) (l : list A) i j x :
  NoDup (l ≫= f) → i ∈ l → j ∈ l → x ∈ f i → x ∈ f j → i ≠ j → False.
Proof.
  induction l as [|k l IH]; intros Hnd Hi Hj Hx Hy Hij; [by apply elem_of_nil in Hi|].
  cbn in Hnd. apply list.NoDup_app in Hnd as (_ & Hdisj & Hnd).
  assert (∀ y a, y ∈ f a → a ∈ l → y ∈ l ≫= f) as Hin.
  { intros y a ??. apply list_elem_of_bind. eauto. }
  apply elem_of_cons in Hi as [->|Hi]; apply elem_of_cons in Hj as [->|Hj];
    naive_solver.
Qed.

Lemma NoDup_bind_piece {A B} (f : A → list B) (l : list A) i :
  NoDup (l ≫= f) → i ∈ l → NoDup (f i).
Proof.
  induction l as [|k l IH]; intros Hnd Hi; [by apply elem_of_nil in Hi|].
  cbn in Hnd. apply list.NoDup_app in Hnd as (Hk & _ & Hnd).
  apply elem_of_cons in Hi as [->|Hi]; eauto.
Qed.
