(* ===== verification/Machine.v ===== *)
(** * Byte-addressed memory

    The physical memory of the machine, as the kernel reads and writes it
    (the kernel runs with a direct map, so a kernel pointer is a physical
    address).  Loads and stores of 1, 2, 4 and 8 bytes are little-endian, as
    on RISC-V.  Every component that goes through C pointers is built on the
    loads and stores of this file. *)

From stdpp Require Import base gmap list strings numbers.
From S2P Require Import Prelude.

(** A cell that was never written reads as zero; a cell holds one byte, so a
    read keeps the eight low bits. *)
Abbreviation mem := (gmap Z Z).

Definition load8 (m : mem) (a : Z) : Z := u8 (default 0 (m !! a)).
Definition store8 (m : mem) (a v : Z) : mem := <[a := u8 v]> m.

Fixpoint load_le (n : nat) (m : mem) (a : Z) : Z :=
  match n with
  | O => 0
  | S n' => load8 m a + 256 * load_le n' m (a + 1)
  end.
Fixpoint store_le (n : nat) (m : mem) (a v : Z) : mem :=
  match n with
  | O => m
  | S n' => store_le n' (store8 m a v) (a + 1) (v / 256)
  end.

Definition load16 := load_le 2.
Definition load32 := load_le 4.
Definition load64 := load_le 8.
Definition store16 := store_le 2.
Definition store32 := store_le 4.
Definition store64 := store_le 8.

(** The bytes [a, a+n) as a list. *)
Fixpoint load_bytes (n : nat) (m : mem) (a : Z) : list Z :=
  match n with
  | O => []
  | S n' => load8 m a :: load_bytes n' m (a + 1)
  end.

(** Two memories agree on the bytes [a, a+n). *)
Definition agree (m m' : mem) (a n : Z) : Prop :=
  ∀ x, a ≤ x < a + n → load8 m' x = load8 m x.

(** ** Loads and stores *)

Create HintDb mem.

Lemma load8_range m a : 0 ≤ load8 m a < 256.
Proof. apply u8_range. Qed.

Lemma load8_store8 m a v x :
  load8 (store8 m a v) x = if x =? a then u8 v else load8 m x.
Proof.
  unfold load8, store8. destruct (Z.eqb_spec x a) as [->|].
  - rewrite lookup_insert_eq. cbn. zlia.
  - by rewrite lookup_insert_ne.
Qed.

Lemma load8_store_le_out n m a v x :
  x < a ∨ a + Z.of_nat n ≤ x → load8 (store_le n m a v) x = load8 m x.
Proof.
  revert m a v. induction n as [|n IH]; intros m a v H; cbn [store_le]; [done|].
  rewrite IH by lia. rewrite load8_store8. by ztest.
Qed.

Lemma load_le_ext n m m' a :
  (∀ x, a ≤ x < a + Z.of_nat n → load8 m' x = load8 m x) →
  load_le n m' a = load_le n m a.
Proof.
  revert a. induction n as [|n IH]; intros a H; cbn [load_le]; [done|].
  rewrite H, IH by (intros; apply H; lia) || lia. done.
Qed.

Lemma load_le_range n m a : 0 ≤ load_le n m a < 256 ^ Z.of_nat n.
Proof.
  revert a. induction n as [|n IH]; intros a; cbn [load_le]; [done|].
  pose proof (load8_range m a). specialize (IH (a + 1)).
  rewrite Nat2Z.inj_succ, Z.pow_succ_r by lia. lia.
Qed.

Lemma load_le_store_le n m a v :
  load_le n (store_le n m a v) a = v mod 256 ^ Z.of_nat n.
Proof.
  revert m a v. induction n as [|n IH]; intros m a v; cbn [load_le store_le].
  - by rewrite Z.mod_1_r.
  - rewrite IH, load8_store_le_out, load8_store8 by lia. ztest.
    rewrite Nat2Z.inj_succ, Z.pow_succ_r by lia.
    rewrite Z.rem_mul_r; [unfold u8; lia|lia|].
    apply Z.pow_pos_nonneg; lia.
Qed.

Lemma load_le_store_le_out n k m a b v :
  b + Z.of_nat n ≤ a ∨ a + Z.of_nat k ≤ b →
  load_le n (store_le k m a v) b = load_le n m b.
Proof.
  intros H. apply load_le_ext. intros x Hx. apply load8_store_le_out. lia.
Qed.

Lemma load64_store64 m a v : load64 (store64 m a v) a = u64 v.
Proof. unfold load64, store64. by rewrite load_le_store_le. Qed.

Lemma load64_store64_out m a b v :
  b + 8 ≤ a ∨ a + 8 ≤ b → load64 (store64 m a v) b = load64 m b.
Proof. intros H. apply load_le_store_le_out. lia. Qed.

Lemma load8_store64_out m a v x :
  x < a ∨ a + 8 ≤ x → load8 (store64 m a v) x = load8 m x.
Proof. intros H. apply load8_store_le_out. lia. Qed.

Lemma load64_range m a : 0 ≤ load64 m a < 18446744073709551616.
Proof. apply (load_le_range 8). Qed.

Lemma load64_ext m m' a : agree m m' a 8 → load64 m' a = load64 m a.
Proof. intros H. apply load_le_ext. intros x Hx. apply H. lia. Qed.

(** A word of zero bytes is zero. *)
Lemma load64_zero m a : (∀ x, a ≤ x < a + 8 → load8 m x = 0) → load64 m a = 0.
Proof.
  intros H. unfold load64. cbn [load_le]. rewrite !H by lia. done.
Qed.

Lemma length_load_bytes n m a : length (load_bytes n m a) = n.
Proof. revert a. induction n as [|n IH]; intros a; cbn; [done|]. by rewrite IH. Qed.

Lemma load_bytes_ext n m m' a :
  agree m m' a (Z.of_nat n) → load_bytes n m' a = load_bytes n m a.
Proof.
  unfold agree. revert a.
  induction n as [|n IH]; intros a H; cbn [load_bytes]; [done|].
  rewrite H, IH by (intros; apply H; lia) || lia. done.
Qed.

Lemma load_bytes_app n k m a :
  load_bytes (n + k) m a = load_bytes n m a ++ load_bytes k m (a + Z.of_nat n).
Proof.
  revert a. induction n as [|n IH]; intros a; cbn [load_bytes Nat.add app].
  - by rewrite Z.add_0_r.
  - rewrite IH. do 3 f_equal. lia.
Qed.

Lemma load_bytes_lookup n m a i :
  (i < n)%nat → load_bytes n m a !! i = Some (load8 m (a + Z.of_nat i)).
Proof.
  revert a i. induction n as [|n IH]; intros a [|i] H; cbn [load_bytes]; try lia.
  - by rewrite Z.add_0_r.
  - cbn. rewrite IH by lia. do 2 f_equal. lia.
Qed.

(** ** Agreement *)

Lemma agree_refl m a n : agree m m a n.
Proof. done. Qed.

Lemma agree_trans m1 m2 m3 a n :
  agree m1 m2 a n → agree m2 m3 a n → agree m1 m3 a n.
Proof. intros H1 H2 x Hx. by rewrite H2, H1. Qed.

Lemma agree_sym m1 m2 a n : agree m1 m2 a n → agree m2 m1 a n.
Proof. intros H x Hx. by rewrite H. Qed.

Lemma agree_store64 m a v b n :
  b + n ≤ a ∨ a + 8 ≤ b → agree m (store64 m a v) b n.
Proof. intros H x Hx. apply load8_store64_out. lia. Qed.

#[export] Hint Resolve agree_refl load8_range load64_range : mem.

#[global] Arguments load_le : simpl never.
#[global] Arguments store_le : simpl never.
#[global] Arguments load16 : simpl never.
#[global] Arguments load32 : simpl never.
#[global] Arguments load64 : simpl never.
#[global] Arguments store16 : simpl never.
#[global] Arguments store32 : simpl never.
#[global] Arguments store64 : simpl never.
#[global] Arguments load8 : simpl never.
#[global] Arguments store8 : simpl never.
