(* ===== verification/Riscv.v ===== *)
(** * Constants and macros of riscv.h and memlayout.h

    The address arithmetic of the Sv39 page tables (kernel/riscv.h) and the
    memory map (kernel/memlayout.h), with the bit operations of the macros. *)

From stdpp Require Import base gmap list strings numbers.
From S2P Require Import Prelude.

Definition PGSIZE : Z := 4096.
Definition PGSHIFT : Z := 12.

(** [~(PGSIZE-1)] is an [int], sign-extended to 64 bits. *)
Definition PGROUNDUP (sz : Z) : Z :=
  Z.land (u64 (sz + PGSIZE - 1)) (u64 (Z.lnot (PGSIZE - 1))).
Definition PGROUNDDOWN (a : Z) : Z := Z.land a (u64 (Z.lnot (PGSIZE - 1))).

Definition PTE_V : Z := 1.
Definition PTE_R : Z := 2.
Definition PTE_W : Z := 4.
Definition PTE_X : Z := 8.
Definition PTE_U : Z := 16.

Definition PA2PTE (pa : Z) : Z := u64 (Z.shiftl (Z.shiftr pa 12) 10).
Definition PTE2PA (pte : Z) : Z := u64 (Z.shiftl (Z.shiftr pte 10) 12).
Definition PTE_FLAGS (pte : Z) : Z := Z.land pte 1023.

Definition PXMASK : Z := 511.
Definition PXSHIFT (level : Z) : Z := PGSHIFT + 9 * level.
Definition PX (level va : Z) : Z := Z.land (Z.shiftr va (PXSHIFT level)) PXMASK.

Definition MAXVA : Z := Z.shiftl 1 (9 + 9 + 9 + 12 - 1).

(** The addresses that three levels of indices tell apart; the kernel uses
    those below MAXVA. *)
Definition SV39 : Z := 549755813888.

Definition UART0 : Z := 268435456.
Definition VIRTIO0 : Z := 268439552.
Definition PLIC : Z := 201326592.
Definition KERNBASE : Z := 2147483648.
Definition PHYSTOP : Z := KERNBASE + 128 * 1024 * 1024.
Definition TRAMPOLINE : Z := MAXVA - PGSIZE.
Definition KSTACK (p : Z) : Z := TRAMPOLINE - (p + 1) * 2 * PGSIZE.
Definition TRAPFRAME : Z := TRAMPOLINE - PGSIZE.

(** Arithmetic on page addresses. *)
Ltac pglia := unfold PGSIZE in *; zlia.

(** ** Rounding *)

Lemma PGROUNDDOWN_eq a :
  0 ≤ a < 18446744073709551616 → PGROUNDDOWN a = a - a mod PGSIZE.
Proof.
  intros H. unfold PGROUNDDOWN. change (PGSIZE - 1) with (Z.ones 12).
  rewrite land_u64_mask by lia. done.
Qed.

Lemma PGROUNDUP_eq sz :
  0 ≤ sz < 18446744073709551616 - PGSIZE →
  PGROUNDUP sz = (sz + PGSIZE - 1) - (sz + PGSIZE - 1) mod PGSIZE.
Proof.
  unfold PGSIZE. intros H. unfold PGROUNDUP, PGSIZE.
  rewrite u64_small by lia.
  replace (u64 (Z.lnot (4096 - 1))) with (u64 (Z.lnot (Z.ones 12))) by done.
  rewrite land_u64_mask by lia. done.
Qed.

Lemma PGROUNDUP_aligned sz :
  0 ≤ sz → sz mod PGSIZE = 0 → sz < 18446744073709551616 - PGSIZE →
  PGROUNDUP sz = sz.
Proof. intros. rewrite PGROUNDUP_eq by lia. unfold PGSIZE in *. zlia. Qed.

Lemma PGROUNDUP_bounds sz :
  0 ≤ sz < 18446744073709551616 - PGSIZE →
  sz ≤ PGROUNDUP sz < sz + PGSIZE ∧ PGROUNDUP sz mod PGSIZE = 0.
Proof. intros. rewrite PGROUNDUP_eq by lia. unfold PGSIZE in *. zlia. Qed.

(** ** Page-table entries *)

Lemma PA2PTE_eq pa : 0 ≤ pa < 2 ^ 56 → PA2PTE pa = pa / 4096 * 1024.
Proof.
  intros H. unfold PA2PTE. rewrite Z.shiftl_mul_pow2, Z.shiftr_div_pow2 by lia.
  apply u64_small. change (2 ^ 12) with 4096. change (2 ^ 10) with 1024. zlia.
Qed.

Lemma PTE2PA_eq pte :
  0 ≤ pte < 2 ^ 62 → PTE2PA pte = pte / 1024 * 4096.
Proof.
  intros H. unfold PTE2PA. rewrite Z.shiftl_mul_pow2, Z.shiftr_div_pow2 by lia.
  apply u64_small. change (2 ^ 12) with 4096. change (2 ^ 10) with 1024. zlia.
Qed.

Lemma PTE_FLAGS_eq pte : PTE_FLAGS pte = pte mod 1024.
Proof. unfold PTE_FLAGS. change 1023 with (Z.ones 10). by rewrite Z.land_ones. Qed.

(** An entry built from a page address and flags. *)
Lemma mkpte_eq pa fl :
  0 ≤ pa < 2 ^ 56 → 0 ≤ fl < 1024 →
  Z.lor (PA2PTE pa) fl = pa / 4096 * 1024 + fl.
Proof.
  intros Hpa Hfl. rewrite PA2PTE_eq by done.
  change 1024 with (2 ^ 10). by rewrite lor_low_high.
Qed.

Lemma mkpte_PA pa fl :
  0 ≤ pa < 2 ^ 56 → pa mod PGSIZE = 0 → 0 ≤ fl < 1024 →
  PTE2PA (Z.lor (PA2PTE pa) fl) = pa.
Proof.
  intros Hpa Hal Hfl. rewrite mkpte_eq by done. unfold PGSIZE in *.
  rewrite PTE2PA_eq by zlia. zlia.
Qed.

Lemma mkpte_FLAGS pa fl :
  0 ≤ pa < 2 ^ 56 → 0 ≤ fl < 1024 → PTE_FLAGS (Z.lor (PA2PTE pa) fl) = fl.
Proof. intros. rewrite PTE_FLAGS_eq, mkpte_eq by done. zlia. Qed.

(** Flag tests look only at the flag bits. *)
Lemma land_low_flags pte fl :
  0 ≤ fl < 1024 → Z.land pte fl = Z.land (PTE_FLAGS pte) fl.
Proof.
  intros H. unfold PTE_FLAGS. rewrite <-Z.land_assoc. f_equal.
  rewrite Z.land_comm. symmetry. change 1023 with (Z.ones 10).
  rewrite Z.land_ones by lia. apply Z.mod_small. lia.
Qed.

(** ** Virtual addresses *)

Lemma PX_range level va : 0 ≤ PX level va < 512.
Proof.
  unfold PX, PXMASK. change 511 with (Z.ones 9). rewrite Z.land_ones by lia.
  by apply Z.mod_pos_bound.
Qed.

Lemma PX_eq level va :
  0 ≤ level → PX level va = (va / 2 ^ (12 + 9 * level)) mod 512.
Proof.
  intros H. unfold PX, PXSHIFT, PGSHIFT, PXMASK. change 511 with (Z.ones 9).
  rewrite Z.land_ones, Z.shiftr_div_pow2 by lia. done.
Qed.

(** The three indices and the page offset determine the address. *)
Lemma PX_split va :
  0 ≤ va < SV39 →
  va = PX 2 va * 2 ^ 30 + PX 1 va * 2 ^ 21 + PX 0 va * 2 ^ 12 + va mod PGSIZE.
Proof.
  intros H. change SV39 with 549755813888 in H. rewrite !PX_eq by lia.
  unfold PGSIZE. cbn -[Z.div Z.modulo Z.mul Z.add]. zlia.
Qed.

Lemma PX_inj va va' :
  0 ≤ va < SV39 → 0 ≤ va' < SV39 →
  PX 2 va = PX 2 va' → PX 1 va = PX 1 va' → PX 0 va = PX 0 va' →
  va - va mod PGSIZE = va' - va' mod PGSIZE.
Proof.
  intros H H' E2 E1 E0. rewrite (PX_split va), (PX_split va') by done.
  rewrite E2, E1, E0. unfold PGSIZE. zlia.
Qed.
