(* ===== verification/Hart.v ===== *)
(** * A hart: the control registers of kernel/riscv.h

    The registers of one RISC-V hart and its memory, with the accessors of
    kernel/riscv.h.  Some control registers are views of others, as on the
    hardware: [sstatus] of [mstatus], [sie] and [sip] of [mie] and [mip].
    What the hardware does at a trap, at [sret] and at [mret] is here too. *)

From stdpp Require Import base gmap list strings numbers.
From S2P Require Import Prelude Machine Riscv.

(** ** Registers *)

Inductive reg :=
| RA | SP | GP | TP
| T0 | T1 | T2 | T3 | T4 | T5 | T6
| S0 | S1 | S2 | S3 | S4 | S5 | S6 | S7 | S8 | S9 | S10 | S11
| A0 | A1 | A2 | A3 | A4 | A5 | A6 | A7.
#[global] Instance reg_eq_dec : EqDecision reg.
Proof. solve_decision. Defined.

Inductive csr :=
| MHARTID | MSTATUS | MEPC | MIP | MIE | MEDELEG | MIDELEG | MTVEC | MSCRATCH | MCOUNTEREN
| PMPCFG0 | PMPADDR0 | TIME
| SSTATUS | SIP | SIE | SEPC | STVEC | SATP | SSCRATCH | SCAUSE | STVAL.
#[global] Instance csr_eq_dec : EqDecision csr.
Proof. solve_decision. Defined.

Inductive mode := User | Supervisor | Machine.
#[global] Instance mode_eq_dec : EqDecision mode.
Proof. solve_decision. Defined.

Record hart := mkHart {
  h_mode : mode;
  h_pc : Z;
  h_reg : reg → Z;
  h_csr : csr → Z;
}.
Definition set_mode (x : mode) (h : hart) : hart := mkHart x (h_pc h) (h_reg h) (h_csr h).
Definition set_pc (x : Z) (h : hart) : hart := mkHart (h_mode h) x (h_reg h) (h_csr h).
Definition set_reg (r : reg) (x : Z) (h : hart) : hart :=
  mkHart (h_mode h) (h_pc h) (λ r', if decide (r' = r) then u64 x else h_reg h r') (h_csr h).
Definition set_csr (c : csr) (x : Z) (h : hart) : hart :=
  mkHart (h_mode h) (h_pc h) (h_reg h) (λ c', if decide (c' = c) then u64 x else h_csr h c').

(** The bits of [mstatus] that [sstatus] shows. *)
Definition SSTATUS_MASK : Z := 9223372049740588898.

(** The bits of [mask] from [x], the others from [old]. *)
Definition masked (mask old x : Z) : Z := Z.lor (Z.ldiff old mask) (Z.land x mask).

Definition csr_read (c : csr) (h : hart) : Z :=
  match c with
  | SSTATUS => Z.land (h_csr h MSTATUS) SSTATUS_MASK
  | SIE => Z.land (h_csr h MIE) (h_csr h MIDELEG)
  | SIP => Z.land (h_csr h MIP) (h_csr h MIDELEG)
  | _ => h_csr h c
  end.
(** Of [sip] only SSIP is writable. *)
Definition csr_write (c : csr) (x : Z) (h : hart) : hart :=
  match c with
  | SSTATUS => set_csr MSTATUS (masked SSTATUS_MASK (h_csr h MSTATUS) x) h
  | SIE => set_csr MIE (masked (h_csr h MIDELEG) (h_csr h MIE) x) h
  | SIP => set_csr MIP (masked (Z.land 2 (h_csr h MIDELEG)) (h_csr h MIP) x) h
  | MHARTID => h
  | _ => set_csr c x h
  end.

(** ** kernel/riscv.h *)

Definition MSTATUS_MPP_MASK : Z := Z.shiftl 3 11.
Definition MSTATUS_MPP_S : Z := Z.shiftl 1 11.
Definition MSTATUS_MIE : Z := Z.shiftl 1 3.

Definition SSTATUS_SPP : Z := Z.shiftl 1 8.
Definition SSTATUS_SPIE : Z := Z.shiftl 1 5.
Definition SSTATUS_SIE : Z := Z.shiftl 1 1.

Definition SIE_SEIE : Z := Z.shiftl 1 9.
Definition SIE_STIE : Z := Z.shiftl 1 5.
Definition SIE_SSIE : Z := Z.shiftl 1 1.

Definition MIE_MTIE : Z := Z.shiftl 1 7.

Definition SATP_SV39 : Z := Z.shiftl 8 60.
Definition MAKE_SATP (pagetable : Z) : Z := Z.lor SATP_SV39 (Z.shiftr pagetable 12).

Definition r_mhartid : M hart Z := gets (csr_read MHARTID).
Definition r_mstatus : M hart Z := gets (csr_read MSTATUS).
Definition w_mstatus (x : Z) : M hart unit := modify (csr_write MSTATUS x).
Definition w_mepc (x : Z) : M hart unit := modify (csr_write MEPC x).
Definition r_sstatus : M hart Z := gets (csr_read SSTATUS).
Definition w_sstatus (x : Z) : M hart unit := modify (csr_write SSTATUS x).
Definition r_sip : M hart Z := gets (csr_read SIP).
Definition w_sip (x : Z) : M hart unit := modify (csr_write SIP x).
Definition r_sie : M hart Z := gets (csr_read SIE).
Definition w_sie (x : Z) : M hart unit := modify (csr_write SIE x).
Definition r_mie : M hart Z := gets (csr_read MIE).
Definition w_mie (x : Z) : M hart unit := modify (csr_write MIE x).
Definition w_sepc (x : Z) : M hart unit := modify (csr_write SEPC x).
Definition r_sepc : M hart Z := gets (csr_read SEPC).
Definition w_medeleg (x : Z) : M hart unit := modify (csr_write MEDELEG x).
Definition w_mideleg (x : Z) : M hart unit := modify (csr_write MIDELEG x).
Definition w_stvec (x : Z) : M hart unit := modify (csr_write STVEC x).
Definition w_mtvec (x : Z) : M hart unit := modify (csr_write MTVEC x).
Definition w_pmpcfg0 (x : Z) : M hart unit := modify (csr_write PMPCFG0 x).
Definition w_pmpaddr0 (x : Z) : M hart unit := modify (csr_write PMPADDR0 x).
Definition w_satp (x : Z) : M hart unit := modify (csr_write SATP x).
Definition r_satp : M hart Z := gets (csr_read SATP).
Definition w_mscratch (x : Z) : M hart unit := modify (csr_write MSCRATCH x).
Definition r_scause : M hart Z := gets (csr_read SCAUSE).
Definition r_stval : M hart Z := gets (csr_read STVAL).
Definition intr_on : M hart unit := x <- r_sstatus ;; w_sstatus (Z.lor x SSTATUS_SIE).
Definition intr_off : M hart unit := x <- r_sstatus ;; w_sstatus (Z.ldiff x SSTATUS_SIE).
Definition intr_get : M hart bool := x <- r_sstatus ;; ret (negb (Z.land x SSTATUS_SIE =? 0)).
Definition r_sp : M hart Z := gets (λ h, h_reg h SP).
Definition r_tp : M hart Z := gets (λ h, h_reg h TP).
Definition w_tp (x : Z) : M hart unit := modify (set_reg TP x).

(** ** What the hardware does *)

Definition bit (b : bool) (n : Z) : Z := if b then Z.shiftl 1 n else 0.
(** [mstatus] with the bits at [l] replaced. *)
Definition status (l : list (Z * bool)) (x : Z) : Z :=
  foldl (λ x '(n, b), Z.lor (Z.ldiff x (Z.shiftl 1 n)) (bit b n)) x l.
Definition mode_bits (m : mode) : Z := match m with User => 0 | Supervisor => 1 | Machine => 3 end.

(** A trap to supervisor mode: SPP and SPIE remember the mode and SIE. *)
Definition strap (cause tval : Z) (h : hart) : hart :=
  let x := h_csr h MSTATUS in
  set_pc (h_csr h STVEC) (set_mode Supervisor
    (set_csr MSTATUS (status [(8, bool_decide (h_mode h = Supervisor)); (5, Z.testbit x 1); (1, false)] x)
    (set_csr STVAL tval (set_csr SCAUSE cause (set_csr SEPC (h_pc h) h))))).
Definition sret (h : hart) : hart :=
  let x := h_csr h MSTATUS in
  set_pc (h_csr h SEPC) (set_mode (if Z.testbit x 8 then Supervisor else User)
    (set_csr MSTATUS (status [(1, Z.testbit x 5); (5, true); (8, false)] x) h)).

(** A trap to machine mode: MPP and MPIE remember the mode and MIE. *)
Definition mtrap (h : hart) : hart :=
  let x := h_csr h MSTATUS in
  set_pc (h_csr h MTVEC) (set_mode Machine
    (set_csr MSTATUS (status [(11, Z.testbit (mode_bits (h_mode h)) 0); (12, Z.testbit (mode_bits (h_mode h)) 1); (7, Z.testbit x 3); (3, false)] x)
    (set_csr MEPC (h_pc h) h))).
Definition mret (h : hart) : hart :=
  let x := h_csr h MSTATUS in
  set_pc (h_csr h MEPC)
    (set_mode (if Z.testbit x 12 then Machine else if Z.testbit x 11 then Supervisor else User)
    (set_csr MSTATUS (status [(3, Z.testbit x 7); (7, true); (11, false); (12, false)] x) h)).

(** ** Bits *)

Lemma testbit_shiftl1 n k : 0 ≤ n → Z.testbit (Z.shiftl 1 n) k = bool_decide (k = n).
Proof.
  intros Hn. rewrite Z.shiftl_1_l. case_bool_decide as E.
  - subst. by apply Z.pow2_bits_true.
  - by apply Z.pow2_bits_false.
Qed.

Lemma status_testbit l x k :
  Forall (λ '(n, _), 0 ≤ n) l → 0 ≤ k →
  Z.testbit (status l x) k = foldl (λ b0 '(n, b), if bool_decide (k = n) then b else b0) (Z.testbit x k) l.
Proof.
  revert x. induction l as [|[n b] l IH]; intros x Hl Hk; [done|]. apply Forall_cons_1 in Hl as [Hn Hl].
  change (status ((n, b) :: l) x) with (status l (Z.lor (Z.ldiff x (Z.shiftl 1 n)) (bit b n))). rewrite IH by done. cbn [foldl]. f_equal. rewrite Z.lor_spec, Z.ldiff_spec, testbit_shiftl1 by done.
  unfold bit. destruct b; [rewrite testbit_shiftl1 by done|rewrite Z.testbit_0_l]; case_bool_decide; destruct (Z.testbit x k); done.
Qed.

Lemma masked_testbit mask old x k : Z.testbit (masked mask old x) k = if Z.testbit mask k then Z.testbit x k else Z.testbit old k.
Proof. unfold masked. rewrite Z.lor_spec, Z.ldiff_spec, Z.land_spec. destruct (Z.testbit mask k), (Z.testbit x k), (Z.testbit old k); done. Qed.

Lemma u64_testbit x k : 0 ≤ k < 64 → Z.testbit (u64 x) k = Z.testbit x k.
Proof. intros Hk. unfold u64. change 18446744073709551616 with (2 ^ 64). apply Z.mod_pow2_bits_low. lia. Qed.

(** [mstatus] after a trap, and after a return. *)
Lemma strap_mstatus cause tval h k :
  0 ≤ k < 64 → Z.testbit (h_csr (strap cause tval h) MSTATUS) k =
    if bool_decide (k = 1) then false else if bool_decide (k = 5) then Z.testbit (h_csr h MSTATUS) 1
    else if bool_decide (k = 8) then bool_decide (h_mode h = Supervisor) else Z.testbit (h_csr h MSTATUS) k.
Proof.
  intros Hk. unfold strap. cbn [set_pc set_mode h_csr set_csr]. rewrite decide_True by done.
  rewrite u64_testbit, status_testbit by (lia || (repeat constructor; done)). reflexivity.
Qed.

Lemma sret_mstatus h k :
  0 ≤ k < 64 → Z.testbit (h_csr (sret h) MSTATUS) k =
    if bool_decide (k = 8) then false else if bool_decide (k = 5) then true
    else if bool_decide (k = 1) then Z.testbit (h_csr h MSTATUS) 5 else Z.testbit (h_csr h MSTATUS) k.
Proof.
  intros Hk. unfold sret. cbn [set_pc set_mode h_csr set_csr]. rewrite decide_True by done.
  rewrite u64_testbit, status_testbit by (lia || (repeat constructor; done)). reflexivity.
Qed.
