(* ===== verification/KString.v ===== *)
(** * Memory and string routines: kernel/string.c

    Each routine is the C loop over the byte memory of [Machine].  The kernel
    allocator, the page tables and the file system call these definitions.
    Theorems: [memmove] copies correctly whether or not the regions overlap;
    [strncmp] decides equality of counted strings, [strncpy] copies and pads,
    [safestrcpy] truncates and always terminates, [strlen] terminates on a
    terminated string. *)

From stdpp Require Import base gmap list strings numbers.
From S2P Require Import Prelude Machine.

(** [char] accesses. *)
Definition ld (a : Z) : M mem Z := λ m, OK (load8 m a) m.
Definition st (a v : Z) : M mem unit := λ m, OK tt (store8 m a v).

Definition memset (dst c n : Z) : M mem Z :=
  for_loop (Z.to_nat (u32 n)) 0 (λ i, st (dst + i) c) ;;
  ret dst.

Fixpoint memcmp_loop (n : nat) (s1 s2 : Z) : M mem Z :=
  match n with
  | O => ret 0
  | S n' =>
      c1 <- ld s1 ;;
      c2 <- ld s2 ;;
      if negb (c1 =? c2) then ret (c1 - c2) else memcmp_loop n' (s1 + 1) (s2 + 1)
  end.
Definition memcmp (v1 v2 n : Z) : M mem Z := memcmp_loop (Z.to_nat (u32 n)) v1 v2.

(** [while(n-- > 0) *d++ = *s++;] *)
Fixpoint copy_up (n : nat) (d s : Z) : M mem unit :=
  match n with
  | O => ret tt
  | S n' => c <- ld s ;; st d c ;; copy_up n' (d + 1) (s + 1)
  end.
(** [while(n-- > 0) *--d = *--s;] *)
Fixpoint copy_down (n : nat) (d s : Z) : M mem unit :=
  match n with
  | O => ret tt
  | S n' => c <- ld (s - 1) ;; st (d - 1) c ;; copy_down n' (d - 1) (s - 1)
  end.
Definition memmove (dst src n0 : Z) : M mem Z :=
  let n := u32 n0 in
  if n =? 0 then ret dst
  else if (src <? dst) && (dst <? src + n) then
    copy_down (Z.to_nat n) (dst + n) (src + n) ;; ret dst
  else
    copy_up (Z.to_nat n) dst src ;; ret dst.

Definition memcpy (dst src n : Z) : M mem Z := memmove dst src n.

Fixpoint strncmp_loop (n : nat) (p q : Z) : M mem Z :=
  match n with
  | O => ret 0
  | S n' =>
      cp <- ld p ;;
      cq <- ld q ;;
      if truthy cp && (cp =? cq) then strncmp_loop n' (p + 1) (q + 1)
      else ret (cp - cq)
  end.
Definition strncmp (p q n : Z) : M mem Z := strncmp_loop (Z.to_nat (u32 n)) p q.

(** [while(n-- > 0) *s++ = 0;] *)
Fixpoint strncpy_pad (n : nat) (s : Z) : M mem unit :=
  match n with
  | O => ret tt
  | S n' => st s 0 ;; strncpy_pad n' (s + 1)
  end.
Fixpoint strncpy_loop (n : nat) (s t : Z) : M mem unit :=
  match n with
  | O => ret tt
  | S n' =>
      c <- ld t ;;
      st s c ;;
      if truthy c then strncpy_loop n' (s + 1) (t + 1) else strncpy_pad n' (s + 1)
  end.
Definition strncpy (s t n : Z) : M mem Z := strncpy_loop (Z.to_nat n) s t ;; ret s.

(** After the loop [*s = 0]; the byte that ended the loop was already stored,
    so the terminator of a short string is written twice. *)
Fixpoint safestrcpy_loop (n : nat) (s t : Z) : M mem unit :=
  match n with
  | O => st s 0
  | S n' =>
      c <- ld t ;;
      st s c ;;
      if truthy c then safestrcpy_loop n' (s + 1) (t + 1) else st (s + 1) 0
  end.
Definition safestrcpy (s t n : Z) : M mem Z :=
  if n <=? 0 then ret s
  else safestrcpy_loop (Z.to_nat (n - 1)) s t ;; ret s.

Definition strlen (fuel : nat) (s : Z) : M mem Z :=
  loop fuel (λ n, c <- ld (s + n) ;; ret (if truthy c then inl (n + 1) else inr n)) 0.

(** ** Specification: the string at an address, at most [n] bytes *)

Fixpoint cstr (n : nat) (m : mem) (a : Z) : list Z :=
  match n with
  | O => []
  | S n' => if load8 m a =? 0 then [] else load8 m a :: cstr n' m (a + 1)
  end.

Lemma cstr_ext n m m' a :
  (∀ x, a ≤ x < a + Z.of_nat n → load8 m' x = load8 m x) →
  cstr n m' a = cstr n m a.
Proof.
  revert a. induction n as [|n IH]; intros a H; cbn [cstr]; [done|].
  rewrite H by lia. destruct (_ =? 0); [done|].
  rewrite IH; [done|]. intros; apply H; lia.
Qed.

Lemma length_cstr n m a : (length (cstr n m a) ≤ n)%nat.
Proof.
  revert a. induction n as [|n IH]; intros a; cbn [cstr]; [done|].
  destruct (_ =? 0); cbn; [lia|]. specialize (IH (a + 1)). lia.
Qed.

(** ** Correctness of the loops *)

Lemma wp_ld {A} a (k : Z → M mem A) Q m :
  wp (k (load8 m a)) Q m → wp (bind (ld a) k) Q m.
Proof. done. Qed.

Lemma wp_st {A} a v (k : unit → M mem A) Q m :
  wp (k tt) Q (store8 m a v) → wp (bind (st a v) k) Q m.
Proof. done. Qed.

(** The bytes of [m'] are those of [m] except that [dst, dst+n) holds [f]. *)
Definition written (m m' : mem) (dst n : Z) (f : Z → Z) : Prop :=
  ∀ x, load8 m' x = if (dst <=? x) && (x <? dst + n) then f x else load8 m x.

Lemma written_agree m m' dst n f a k :
  written m m' dst n f → a + k ≤ dst ∨ dst + n ≤ a → agree m m' a k.
Proof.
  intros H Hd x Hx. rewrite H. destruct (_ && _) eqn:E; [|done].
  bool_to_prop. lia.
Qed.

Lemma memset_run dst c n m :
  0 ≤ n < 4294967296 →
  wp (memset dst c n) (λ r m', r = dst ∧ written m m' dst n (λ _, u8 c)) m.
Proof.
  intros Hn. unfold memset. apply wp_bind.
  rewrite u32_small by done.
  eapply (wp_for_loop (λ i m', written m m' dst i (λ _, u8 c))).
  - intros x. by destruct (Z.leb_spec dst x), (Z.ltb_spec x (dst + 0)); try lia.
  - intros i m' Hi Hw. cbn. intros x. rewrite load8_store8, (Hw x).
    repeat zcase; cbn; try done; lia.
  - intros m' Hw. cbn. split; [done|]. replace n with (0 + Z.of_nat (Z.to_nat n)) by lia.
    done.
Qed.

Lemma copy_up_run n d s m :
  d ≤ s ∨ s + Z.of_nat n ≤ d →
  wp (copy_up n d s) (λ _ m', written m m' d (Z.of_nat n) (λ x, load8 m (s + (x - d)))) m.
Proof.
  revert d s m. induction n as [|n IH]; intros d s m H; cbn [copy_up].
  - apply wp_ret. intros x. by destruct (Z.leb_spec d x), (Z.ltb_spec x (d + Z.of_nat 0)); try lia.
  - apply wp_ld, wp_st. eapply wp_mono; [apply IH; lia|]. intros [] m' Hw x. rewrite (Hw x).
    rewrite !load8_store8. pose proof (u8_small _ (load8_range m s)) as Es.
    repeat zcase; cbn; try lia; rewrite ?Es; f_equal; lia.
Qed.

Lemma copy_down_run n d s m :
  s ≤ d →
  wp (copy_down n d s)
     (λ _ m', written m m' (d - Z.of_nat n) (Z.of_nat n) (λ x, load8 m (s + (x - d)))) m.
Proof.
  revert d s m. induction n as [|n IH]; intros d s m H; cbn [copy_down].
  - apply wp_ret. intros x.
    by destruct (Z.leb_spec (d - Z.of_nat 0) x),
      (Z.ltb_spec x (d - Z.of_nat 0 + Z.of_nat 0)); try lia.
  - apply wp_ld, wp_st. eapply wp_mono; [apply IH; lia|]. intros [] m' Hw x. rewrite (Hw x).
    rewrite !load8_store8. pose proof (u8_small _ (load8_range m (s - 1))) as Es.
    repeat zcase; cbn; try lia; rewrite ?Es; f_equal; lia.
Qed.

Lemma memmove_run dst src n m :
  0 ≤ n < 4294967296 →
  wp (memmove dst src n)
     (λ r m', r = dst ∧ written m m' dst n (λ x, load8 m (src + (x - dst)))) m.
Proof.
  intros Hn. unfold memmove. rewrite u32_small by done.
  destruct (Z.eqb_spec n 0) as [->|].
  { apply wp_ret. split; [done|]. intros x.
    by destruct (Z.leb_spec dst x), (Z.ltb_spec x (dst + 0)); try lia. }
  destruct (Z.ltb_spec src dst), (Z.ltb_spec dst (src + n)); cbn [andb];
    (eapply wp_seq;
     [first [apply copy_down_run; lia | apply copy_up_run; lia]|]);
    intros [] m' Hw; apply wp_ret; (split; [done|]); intros x; rewrite (Hw x);
    rewrite Z2Nat.id by lia; try done.
  replace (dst + n - n) with dst by lia. destruct (_ && _); [|done].
  f_equal. lia.
Qed.

Lemma strncpy_pad_run n s m :
  wp (strncpy_pad n s) (λ _ m', written m m' s (Z.of_nat n) (λ _, 0)) m.
Proof.
  revert s m. induction n as [|n IH]; intros s m; cbn [strncpy_pad].
  - apply wp_ret. intros x. by destruct (Z.leb_spec s x), (Z.ltb_spec x (s + Z.of_nat 0)); try lia.
  - apply wp_st. eapply wp_mono; [apply IH|]. intros [] m' Hw x. rewrite (Hw x), !load8_store8.
    repeat zcase; cbn; try done; lia.
Qed.

Lemma load_bytes_zero n m a :
  (∀ x, a ≤ x < a + Z.of_nat n → load8 m x = 0) → load_bytes n m a = replicate n 0.
Proof.
  revert a. induction n as [|n IH]; intros a H; cbn; [done|].
  rewrite H, IH by (intros; apply H; lia) || lia. done.
Qed.

Lemma strncpy_loop_run n s t m :
  s + Z.of_nat n ≤ t ∨ t + Z.of_nat n ≤ s →
  wp (strncpy_loop n s t)
     (λ _ m', load_bytes n m' s = cstr n m t ++ replicate (n - length (cstr n m t)) 0 ∧
              ∀ x, x < s ∨ s + Z.of_nat n ≤ x → load8 m' x = load8 m x) m.
Proof.
  revert s t m. induction n as [|n IH]; intros s t m H; cbn [strncpy_loop].
  { by apply wp_ret. }
  apply wp_ld, wp_st. unfold truthy. pose proof (u8_small _ (load8_range m t)) as E.
  cbn [cstr load_bytes].
  destruct (Z.eqb_spec (load8 m t) 0) as [E0|E0]; cbn [negb].
  - eapply wp_mono; [apply strncpy_pad_run|]. intros [] m' Hw. split.
    + cbn [app length]. rewrite (Hw s), load8_store8. ztest. rewrite E, E0.
      cbn. f_equal. apply load_bytes_zero. intros x Hx. rewrite (Hw x). by ztest.
    + intros x Hx. rewrite (Hw x), load8_store8. by repeat zcase; cbn; try lia.
  - eapply wp_mono; [apply IH; lia|]. intros [] m' [Hb Hout]. cbn [length app Nat.sub].
    rewrite (cstr_ext n m) in Hb by (intros; rewrite load8_store8; by ztest).
    split.
    + rewrite Hb, Hout, load8_store8 by lia. ztest. by rewrite E.
    + intros x Hx. rewrite Hout, load8_store8 by lia. by ztest.
Qed.

Lemma strncmp_loop_run n p q m :
  ∃ r, strncmp_loop n p q m = OK r m ∧ (r = 0 ↔ cstr n m p = cstr n m q).
Proof.
  revert p q. induction n as [|n IH]; intros p q; cbn [strncmp_loop cstr].
  { by exists 0. }
  unfold bind, ld, ret, truthy.
  destruct (Z.eqb_spec (load8 m p) 0) as [Ep|Ep],
    (Z.eqb_spec (load8 m p) (load8 m q)) as [Epq|Epq]; cbn [negb andb].
  - eexists. split; [done|]. rewrite <-Epq, Ep. split; [done|lia].
  - eexists. split; [done|]. rewrite Ep in *.
    destruct (Z.eqb_spec (load8 m q) 0); [lia|]. split; [lia|done].
  - destruct (IH (p + 1) (q + 1)) as (r & Hr & Hiff). exists r. split; [done|].
    rewrite <-Epq. rewrite (proj2 (Z.eqb_neq _ _) Ep), Hiff. split; congruence.
  - eexists. split; [done|]. destruct (Z.eqb_spec (load8 m q) 0); split; (lia || congruence).
Qed.

Lemma safestrcpy_loop_run n s t m :
  s + Z.of_nat n < t ∨ t + Z.of_nat n ≤ s →
  wp (safestrcpy_loop n s t)
     (λ _ m', cstr (S n) m' s = cstr n m t ∧
              ∀ x, x < s ∨ s + Z.of_nat n < x → load8 m' x = load8 m x) m.
Proof.
  revert s t m. induction n as [|n IH]; intros s t m H; cbn [safestrcpy_loop].
  { cbn. rewrite load8_store8, Z.eqb_refl. split; [done|].
    intros x Hx. rewrite load8_store8. by ztest. }
  apply wp_ld, wp_st. unfold truthy. pose proof (u8_small _ (load8_range m t)) as E.
  destruct (Z.eqb_spec (load8 m t) 0) as [E0|E0]; cbn [negb].
  - unfold wp, st. split.
    + cbn [cstr]. rewrite !load8_store8, Z.eqb_refl.
      rewrite (proj2 (Z.eqb_neq s (s + 1))) by lia. by rewrite E, E0.
    + intros x Hx. rewrite !load8_store8. by ztest.
  - eapply wp_mono; [apply IH; lia|]. intros [] m' [Hb Hout].
    rewrite (cstr_ext n m) in Hb by (intros; rewrite load8_store8; by ztest).
    split.
    + change (cstr (S (S n)) m' s)
        with (if load8 m' s =? 0 then [] else load8 m' s :: cstr (S n) m' (s + 1)).
      rewrite Hb, Hout, load8_store8, Z.eqb_refl, E by lia. cbn [cstr].
      by rewrite (proj2 (Z.eqb_neq _ _) E0).
    + intros x Hx. rewrite Hout, load8_store8 by lia. by ztest.
Qed.

Lemma memcmp_loop_run n p q m :
  ∃ r, memcmp_loop n p q m = OK r m ∧ (r = 0 ↔ load_bytes n m p = load_bytes n m q).
Proof.
  revert p q. induction n as [|n IH]; intros p q; cbn [memcmp_loop load_bytes].
  { by exists 0. }
  unfold bind, ld, ret.
  destruct (Z.eqb_spec (load8 m p) (load8 m q)) as [Epq|Epq]; cbn [negb].
  - destruct (IH (p + 1) (q + 1)) as (r & Hr & Hiff). exists r. split; [done|].
    rewrite Epq, Hiff. split; congruence.
  - eexists. split; [done|]. split; [lia|congruence].
Qed.

Lemma load_bytes_written n m m' dst src :
  written m m' dst (Z.of_nat n) (λ x, load8 m (src + (x - dst))) →
  load_bytes n m' dst = load_bytes n m src.
Proof.
  intros Hw. apply list_eq. intros i. destruct (decide (i < n)%nat).
  - rewrite !load_bytes_lookup by done. f_equal. rewrite (Hw _). ztest. f_equal. lia.
  - rewrite !lookup_ge_None_2 by (rewrite length_load_bytes; lia). done.
Qed.

Lemma cstr_load_bytes n m a l k :
  load_bytes n m a = l ++ replicate k 0 → Forall (λ c, c ≠ 0) l → cstr n m a = l.
Proof.
  revert a l. induction n as [|n IH]; intros a l H Hl; cbn in H.
  - by destruct l.
  - destruct l as [|c l]; cbn in H |- *.
    + destruct k; [done|]. injection H as -> _. done.
    + apply Forall_cons_1 in Hl as [Hc Hl]. injection H as -> H.
      rewrite (proj2 (Z.eqb_neq _ _) Hc). f_equal. eauto.
Qed.

Lemma cstr_nonzero n m a : Forall (λ c, c ≠ 0) (cstr n m a).
Proof.
  revert a. induction n as [|n IH]; intros a; cbn; [done|].
  destruct (Z.eqb_spec (load8 m a) 0); [done|]. by constructor.
Qed.

(** ** The properties *)

(** C24. [memmove] is correct for every pair of regions, overlapping in
    either direction or disjoint: afterwards the destination holds the bytes
    the source held before, and no byte outside the destination changed. *)
Theorem memmove_correct dst src n m :
  0 ≤ n < 4294967296 →
  ∃ m', memmove dst src n m = OK dst m' ∧
        load_bytes (Z.to_nat n) m' dst = load_bytes (Z.to_nat n) m src ∧
        ∀ x, x < dst ∨ dst + n ≤ x → load8 m' x = load8 m x.
Proof.
  intros Hn. destruct (proj1 (wp_OK _ _ _) (memmove_run dst src n m Hn))
    as (r & m' & E & -> & Hw).
  exists m'. split; [done|]. split.
  - apply load_bytes_written. by rewrite Z2Nat.id by lia.
  - intros x Hx. rewrite (Hw x). destruct (_ && _) eqn:Ex; [|done].
    bool_to_prop. lia.
Qed.

(** An overlapping move of four bytes, up by one and down by one. *)
Definition ex_mem : mem := store32 ∅ 100 67305985.

Lemma memmove_correct_witness :
  (∃ m', memmove 101 100 4 ex_mem = OK 101 m' ∧ load_bytes 4 m' 101 = [1; 2; 3; 4]) ∧
  (∃ m', memmove 100 101 3 ex_mem = OK 100 m' ∧ load_bytes 3 m' 100 = [2; 3; 4]).
Proof.
  split.
  - destruct (memmove_correct 101 100 4 ex_mem) as (m' & E & L & _); [lia|].
    exists m'. split; [exact E|exact L].
  - destruct (memmove_correct 100 101 3 ex_mem) as (m' & E & L & _); [lia|].
    exists m'. split; [exact E|exact L].
Defined.

(** A directory name written with [strncpy] is found again with
    [strncmp] (this is how [dirlink] and [dirlookup] agree): [strncpy] writes
    exactly [n] bytes, the string followed by zero padding, changes nothing
    else, and [strncmp] of the copy with another string [u] of the same memory
    returns zero exactly when [u] is the same string. *)
Theorem strncpy_strncmp s t n u m :
  0 ≤ n < 2147483648 →
  s + n ≤ t ∨ t + n ≤ s →
  s + n ≤ u ∨ u + n ≤ s →
  ∃ m' r, strncpy s t n m = OK s m' ∧
    load_bytes (Z.to_nat n) m' s =
      cstr (Z.to_nat n) m t ++ replicate (Z.to_nat n - length (cstr (Z.to_nat n) m t)) 0 ∧
    (∀ x, x < s ∨ s + n ≤ x → load8 m' x = load8 m x) ∧
    strncmp s u n m' = OK r m' ∧
    (r = 0 ↔ cstr (Z.to_nat n) m u = cstr (Z.to_nat n) m t).
Proof.
  intros Hn Ht Hu. unfold strncpy.
  assert (wp (strncpy_loop (Z.to_nat n) s t) _ m) as W
    by (apply strncpy_loop_run; lia).
  apply wp_OK in W as ([] & m' & E & Hb & Hout).
  rewrite Z2Nat.id in Hout by lia.
  unfold strncmp. rewrite u32_small by lia.
  destruct (strncmp_loop_run (Z.to_nat n) s u m') as (r & Er & Hr).
  exists m', r. unfold bind. rewrite E. repeat split; try done.
  all: rewrite Hr, (cstr_load_bytes _ _ _ _ _ Hb) by apply cstr_nonzero;
    rewrite (cstr_ext _ m m' u) by (intros; apply Hout; lia); done.
Qed.

Lemma strncpy_strncmp_witness :
  ∃ m' r, strncpy 200 100 6 ex_mem = OK 200 m' ∧
          load_bytes 6 m' 200 = [1; 2; 3; 4; 0; 0] ∧
          strncmp 200 100 6 m' = OK r m' ∧ r = 0.
Proof.
  destruct (strncpy_strncmp 200 100 6 100 ex_mem) as (m' & r & E & L & _ & C & R);
    [lia|lia|lia|].
  exists m', r. split; [exact E|]. split; [exact L|]. split; [exact C|].
  apply R. reflexivity.
Defined.

(** [safestrcpy] into a buffer of [n > 0] bytes always leaves a
    terminated string in it, the longest prefix of the source that fits in
    [n-1] bytes, and never writes outside the buffer. *)
Theorem safestrcpy_terminates s t n m :
  0 < n < 2147483648 →
  s + n ≤ t ∨ t + n ≤ s →
  ∃ m', safestrcpy s t n m = OK s m' ∧
    cstr (Z.to_nat n) m' s = cstr (Z.to_nat (n - 1)) m t ∧
    (length (cstr (Z.to_nat n) m' s) < Z.to_nat n)%nat ∧
    ∀ x, x < s ∨ s + n ≤ x → load8 m' x = load8 m x.
Proof.
  intros Hn Ht. unfold safestrcpy. ztest.
  assert (wp (safestrcpy_loop (Z.to_nat (n - 1)) s t) _ m) as W
    by (apply safestrcpy_loop_run; lia).
  apply wp_OK in W as ([] & m' & E & Hb & Hout).
  replace (Z.to_nat n) with (S (Z.to_nat (n - 1))) by lia.
  exists m'. unfold bind. rewrite E. split; [done|]. split; [done|]. split.
  - rewrite Hb. pose proof (length_cstr (Z.to_nat (n - 1)) m t). lia.
  - intros x Hx. apply Hout. lia.
Qed.

Lemma safestrcpy_terminates_witness :
  ∃ m', safestrcpy 200 100 3 ex_mem = OK 200 m' ∧ cstr 3 m' 200 = [1; 2].
Proof.
  destruct (safestrcpy_terminates 200 100 3 ex_mem) as (m' & E & C & _); [lia|lia|].
  exists m'. split; [exact E|exact C].
Defined.

Lemma strlen_run s k m fuel :
  (∀ i, 0 ≤ i < k → load8 m (s + i) ≠ 0) → load8 m (s + k) = 0 → 0 ≤ k →
  (Z.to_nat k < fuel)%nat → strlen fuel s m = OK k m.
Proof.
  intros Hnz Hz Hk Hf. unfold strlen.
  assert (wp (loop fuel (λ n, c <- ld (s + n) ;;
                              ret (if truthy c then inl (n + 1) else inr n)) 0)
            (λ r m', r = k ∧ m' = m) m) as W.
  { eapply (wp_loop (λ n m', m' = m ∧ 0 ≤ n ≤ k) (λ n _, Z.to_nat (k - n))).
    - rewrite Z.sub_0_r. done.
    - split; [done|lia].
    - intros n m' [-> Hn]. apply wp_ld, wp_ret. unfold truthy.
      destruct (Z.eq_dec n k) as [->|].
      + by rewrite Hz.
      + rewrite (proj2 (Z.eqb_neq _ _) (Hnz n ltac:(lia))). cbn. split; [split; [done|lia]|lia]. }
  apply wp_OK in W as (r & m' & E & -> & ->). done.
Qed.
