(* ===== verification/Kalloc.v ===== *)
(** * Physical page allocator: kernel/kalloc.c

    The free list is threaded through the free pages themselves: the first
    eight bytes of a free page hold the address of the next one.  The state is
    the allocator's lock and list head ([struct kmem]) together with the byte
    memory the list lives in.

    The theorems relate this list to an abstract stack of free pages: [kinit]
    makes it all the pages of RAM after the kernel, [kalloc] pops, [kfree]
    pushes, and neither touches a byte outside the page it hands over. *)

From stdpp Require Import base gmap list strings numbers.
From S2P Require Import Prelude Machine Riscv KString.

(** Symbols the linker script defines (kernel.ld, trampoline.S). *)
Class Layout := {
  kend : Z;        (* end: first address after the kernel *)
  etext : Z;       (* end of kernel code *)
  trampoline : Z;  (* the trampoline page *)
}.

(** What kernel.ld promises: the kernel is loaded at KERNBASE, below [end],
    text first, and text and trampoline are page-aligned. *)
Class LayoutOk `{Layout} : Prop := {
  etext_ok : KERNBASE < etext ≤ kend;
  kend_ok : kend ≤ PHYSTOP;
  etext_aligned : etext mod PGSIZE = 0;
  trampoline_ok : KERNBASE ≤ trampoline < etext;
  trampoline_aligned : trampoline mod PGSIZE = 0;
}.

Record kst := mkK {
  kmem_locked : bool;  (* kmem.lock *)
  freelist : Z;        (* kmem.freelist *)
  mm : mem;            (* physical memory *)
}.
Definition set_kmem_locked (b : bool) (s : kst) : kst := mkK b (freelist s) (mm s).
Definition set_freelist (r : Z) (s : kst) : kst := mkK (kmem_locked s) r (mm s).
Definition set_mm (m : mem) (s : kst) : kst := mkK (kmem_locked s) (freelist s) m.

(** Memory accesses of kernel code that runs with the allocator state. *)
Definition kmemset (dst c n : Z) : M kst Z := zoom mm set_mm (memset dst c n).
Definition kmemmove (dst src n : Z) : M kst Z := zoom mm set_mm (memmove dst src n).
Definition kload64 (a : Z) : M kst Z := λ s, OK (load64 (mm s) a) s.
Definition kstore64 (a v : Z) : M kst unit := λ s, OK tt (set_mm (store64 (mm s) a v) s).

Section kalloc.
Context `{Layout}.

Definition kfree (pa : Z) : M kst unit :=
  if negb (pa mod PGSIZE =? 0) || (pa <? kend) || (PHYSTOP <=? pa) then panic "kfree"
  else
    (* Fill with junk to catch dangling refs. *)
    kmemset pa 1 PGSIZE ;;
    acquire kmem_locked set_kmem_locked ;;
    next <- gets freelist ;;
    kstore64 pa next ;;
    modify (set_freelist pa) ;;
    release kmem_locked set_kmem_locked.

Definition kalloc : M kst Z :=
  acquire kmem_locked set_kmem_locked ;;
  r <- gets freelist ;;
  (if truthy r then next <- kload64 r ;; modify (set_freelist next) else ret tt) ;;
  release kmem_locked set_kmem_locked ;;
  (if truthy r then kmemset r 5 PGSIZE ;; ret tt else ret tt) ;;
  ret r.

(** The fuel is the number of pages of the range plus one, see
    [freerange_run]. *)
Definition freerange (pa_start pa_end : Z) : M kst unit :=
  let p0 := PGROUNDUP pa_start in
  loop (S (Z.to_nat ((pa_end - p0) / PGSIZE)))
    (λ p, if p + PGSIZE <=? pa_end then kfree p ;; ret (inl (p + PGSIZE))
          else ret (inr tt))
    p0.

Definition kinit : M kst unit :=
  modify (set_kmem_locked false) ;;
  freerange kend PHYSTOP.

(** ** Specification *)

(** A page the allocator manages. *)
Definition page_ok (p : Z) : Prop := p mod PGSIZE = 0 ∧ kend ≤ p < PHYSTOP.

(** The list that starts at [h] visits exactly the pages [l]. *)
Fixpoint chain (m : mem) (h : Z) (l : list Z) : Prop :=
  match l with
  | [] => h = 0
  | p :: l' => h = p ∧ chain m (load64 m p) l'
  end.

(** The allocator's invariant, with the abstract stack of free pages. *)
Definition kmem_inv (s : kst) (l : list Z) : Prop :=
  kmem_locked s = false ∧ chain (mm s) (freelist s) l ∧ NoDup l ∧ Forall page_ok l.

(** No byte outside page [p] changed. *)
Definition only_page (m m' : mem) (p : Z) : Prop :=
  ∀ x, x < p ∨ p + PGSIZE ≤ x → load8 m' x = load8 m x.

(** The first [n] pages from address [p] on. *)
Definition pages_from (p : Z) (n : nat) : list Z := (λ i, p + PGSIZE * i) <$> seqZ 0 (Z.of_nat n).

End kalloc.

(** ** Lemmas *)

Lemma mm_set_mm m s : mm (set_mm m s) = m.
Proof. done. Qed.
Lemma wp_kload64 a Q s : Q (load64 (mm s) a) s → wp (kload64 a) Q s.
Proof. done. Qed.
Lemma wp_kstore64 a v Q s :
  Q tt (set_mm (store64 (mm s) a v) s) → wp (kstore64 a v) Q s.
Proof. done. Qed.
Ltac wp_hook ::=
  lazymatch goal with
  | |- wp (kload64 _) _ _ => apply wp_kload64
  | |- wp (kstore64 _ _) _ _ => apply wp_kstore64
  end.

Section proofs.
Context `{LO : LayoutOk}.

#[local] Instance page_ok_dec p : Decision (page_ok p).
Proof. unfold page_ok. apply _. Defined.

Lemma page_ok_pos p : page_ok p → 0 < p.
Proof. intros [_ ?]. pose proof etext_ok. unfold KERNBASE in *. lia. Qed.

Lemma page_ok_bound p : page_ok p → p < 2 ^ 56.
Proof. intros [_ ?]. unfold PHYSTOP, KERNBASE in *. lia. Qed.

(** Aligned pages are equal or disjoint. *)
Lemma pages_disjoint p q :
  p mod PGSIZE = 0 → q mod PGSIZE = 0 → p ≠ q → p + PGSIZE ≤ q ∨ q + PGSIZE ≤ p.
Proof. unfold PGSIZE. zlia. Qed.

Lemma chain_ext m m' h l :
  (∀ p, p ∈ l → load64 m' p = load64 m p) → chain m h l → chain m' h l.
Proof.
  revert h. induction l as [|p l IH]; intros h Hext Hc; [done|].
  destruct Hc as [-> Hc]. split; [done|]. rewrite Hext by set_solver.
  apply IH; [set_solver|done].
Qed.

Lemma chain_agree m m' h l :
  (∀ p, p ∈ l → agree m m' p PGSIZE) → chain m h l → chain m' h l.
Proof.
  intros Ha. apply chain_ext. intros p Hp. apply load64_ext. intros x Hx.
  apply (Ha p Hp). unfold PGSIZE. lia.
Qed.

Lemma chain_head m h l : chain m h l → h = default 0 (head l).
Proof. destruct l; cbn; [done|]. by intros [-> _]. Qed.

Lemma only_page_agree m m' p q :
  page_ok p → page_ok q → p ≠ q → only_page m m' p → agree m m' q PGSIZE.
Proof.
  intros [Hp _] [Hq _] Hne Ho x Hx. apply Ho.
  pose proof (pages_disjoint p q Hp Hq Hne). lia.
Qed.

Lemma kmem_inv_frame s s' l :
  kmem_locked s' = kmem_locked s → freelist s' = freelist s →
  (∀ p, p ∈ l → agree (mm s) (mm s') p PGSIZE) →
  kmem_inv s l → kmem_inv s' l.
Proof.
  intros E1 E2 Ha (Hl & Hc & Hn & Ho). split_and!; [congruence| |done|done].
  rewrite E2. by eapply chain_agree.
Qed.

Lemma kmemset_run dst c n s :
  0 ≤ n < 4294967296 →
  wp (kmemset dst c n)
     (λ r s', ∃ m', r = dst ∧ s' = set_mm m' s ∧ written (mm s) m' dst n (λ _, u8 c)) s.
Proof.
  intros Hn. apply wp_zoom. eapply wp_mono; [by apply memset_run|].
  intros r m' [-> Hw]. by exists m'.
Qed.

Lemma kmemmove_run dst src n s :
  0 ≤ n < 4294967296 →
  wp (kmemmove dst src n)
     (λ r s', ∃ m', r = dst ∧ s' = set_mm m' s ∧
              written (mm s) m' dst n (λ x, load8 (mm s) (src + (x - dst)))) s.
Proof.
  intros Hn. apply wp_zoom. eapply wp_mono; [by apply memmove_run|].
  intros r m' [-> Hw]. by exists m'.
Qed.

Lemma kfree_run p s l :
  kmem_inv s l → page_ok p → p ∉ l →
  wp (kfree p) (λ _ s', kmem_inv s' (p :: l) ∧ only_page (mm s) (mm s') p) s.
Proof.
  intros (Hl & Hc & Hn & Ho) [Hal Hr] Hnl. unfold kfree. ztest.
  eapply wp_seq; [by apply kmemset_run|].
  intros r s1 (m1 & -> & -> & Hw).
  wp_run. apply wp_acquire; [done|]. wp_run. apply wp_release; [done|].
  assert (only_page (mm s) (store64 m1 p (freelist s)) p) as Hout.
  { intros x Hx. rewrite load8_store64_out by (unfold PGSIZE in *; lia).
    eapply (written_agree _ _ _ _ _ x 1); [done| |]; unfold PGSIZE in *; lia. }
  split; [|done]. split_and!; [done| |by constructor|by constructor].
  cbn. split; [done|]. rewrite load64_store64.
  assert (freelist s = default 0 (head l)) as Eh by by eapply chain_head.
  rewrite u64_small.
  - eapply chain_agree; [|done]. intros q Hq. rewrite Forall_forall in Ho.
    eapply only_page_agree; [by split| |set_solver|done].
    apply Ho. by apply list_elem_of_In.
  - rewrite Eh. destruct l as [|q l]; cbn; [lia|].
    apply Forall_cons_1 in Ho as [[_ Hq] _]. pose proof etext_ok. unfold PHYSTOP, KERNBASE in *. lia.
Qed.

Lemma kfree_panic p s : ¬ page_ok p → kfree p s = PANIC "kfree".
Proof.
  intros Hp. unfold kfree, page_ok in *.
  destruct (Z.eqb_spec (p mod PGSIZE) 0), (Z.ltb_spec p kend), (Z.leb_spec PHYSTOP p);
    cbn; try done; lia.
Qed.

Lemma kalloc_run s l :
  kmem_inv s l →
  wp kalloc
     (λ r s', match l with
              | [] => r = 0 ∧ s' = s
              | p :: l' => r = p ∧ kmem_inv s' l' ∧
                           written (mm s) (mm s') p PGSIZE (λ _, 5)
              end) s.
Proof.
  intros (Hl & Hc & Hn & Ho). unfold kalloc.
  wp_run. apply wp_acquire; [done|]. wp_run. cbn.
  destruct l as [|p l]; cbn in Hc.
  - rewrite Hc. cbn. destruct s; cbn in *. subst. done.
  - destruct Hc as [-> Hc]. apply Forall_cons_1 in Ho as [Hp Ho].
    pose proof (page_ok_pos p Hp). apply list.NoDup_cons in Hn as [Hpl Hn].
    unfold truthy. rewrite (proj2 (Z.eqb_neq p 0)) by lia. cbn [negb].
    wp_run. apply wp_release; [done|]. wp_use kmemset_run; [done|].
    intros r s' (m' & -> & -> & Hw). wp_run.
    split; [done|]. split; [|done]. split_and!; [done| |done|done].
    cbn. eapply chain_agree; [|done]. intros q Hq.
    rewrite Forall_forall in Ho. apply list_elem_of_In in Hq as Hq'.
    eapply written_agree; [done|].
    destruct (pages_disjoint p q); [apply Hp|by apply Ho|set_solver|lia|lia].
Qed.

(** A written page leaves the other pages alone. *)
Lemma written_only_page m m' p f : written m m' p PGSIZE f → only_page m m' p.
Proof. intros Hw x Hx. eapply (written_agree _ _ _ _ _ x 1); [done| |]; lia. Qed.

Lemma pages_from_snoc p n :
  pages_from p (S n) = pages_from p n ++ [p + PGSIZE * Z.of_nat n].
Proof.
  unfold pages_from. rewrite Nat2Z.inj_succ, <-Z.add_1_r, seqZ_app by lia.
  by rewrite fmap_app.
Qed.

Lemma pages_from_elem p n q :
  q ∈ pages_from p n ↔ ∃ i, q = p + PGSIZE * i ∧ 0 ≤ i < Z.of_nat n.
Proof.
  unfold pages_from. rewrite list_elem_of_fmap.
  split; intros (i & -> & Hi); exists i; (split; [done|]);
    apply elem_of_seqZ || apply elem_of_seqZ in Hi; lia.
Qed.

Lemma freerange_run s lo hi l :
  kmem_inv s l →
  kend ≤ lo → hi ≤ PHYSTOP → 0 ≤ lo < 2 ^ 56 → PGROUNDUP lo ≤ hi →
  (∀ q, q ∈ l → q < PGROUNDUP lo) →
  wp (freerange lo hi)
     (λ _ s', kmem_inv s'
        (reverse (pages_from (PGROUNDUP lo)
                    (Z.to_nat ((hi - PGROUNDUP lo) / PGSIZE))) ++ l)) s.
Proof.
  intros Hinv Hlo Hhi Hr Hle Hl. unfold freerange.
  destruct (PGROUNDUP_bounds lo) as [Hb Ha]; [unfold PGSIZE; lia|].
  set (p0 := PGROUNDUP lo) in *. set (N := Z.to_nat ((hi - p0) / PGSIZE)).
  eapply (wp_loop
    (λ p s', ∃ k, (k ≤ N)%nat ∧ p = p0 + PGSIZE * Z.of_nat k ∧
                  kmem_inv s' (reverse (pages_from p0 k) ++ l))
    (λ p _, Z.to_nat ((hi - p) / PGSIZE))).
  - lia.
  - exists 0%nat. split; [lia|]. split; [lia|done].
  - intros p s' (k & Hk & -> & Hs').
    destruct (Z.leb_spec (p0 + PGSIZE * Z.of_nat k + PGSIZE) hi).
    + eapply wp_seq.
      { apply kfree_run; [done| |].
        - split; [unfold PGSIZE in *; zlia|]. unfold PGSIZE in *. lia.
        - rewrite elem_of_app, elem_of_reverse, pages_from_elem. unfold PGSIZE.
          intros [(i & Hi & ?)|Hq]; [lia|]. apply Hl in Hq. unfold PGSIZE in *. lia. }
      intros [] s'' [Hinv' _]. apply wp_ret. split.
      * exists (S k). split; [unfold N, PGSIZE in *; zlia|].
        split; [lia|]. rewrite pages_from_snoc, reverse_snoc. done.
      * unfold PGSIZE in *. zlia.
    + apply wp_ret. assert (k = N) as -> by (unfold N, PGSIZE in *; zlia). done.
Qed.

End proofs.

(** ** The allocator refines a stack of pages *)

(** A client's calls, and what it observes of them. *)
Inductive aop := Alloc | Free (p : Z).

Section refinement.
Context `{Layout}.

Definition run_aop (o : aop) : M kst Z :=
  match o with
  | Alloc => kalloc
  | Free p => kfree p ;; ret 0
  end.
Fixpoint run_aops (ops : list aop) : M kst (list Z) :=
  match ops with
  | [] => ret []
  | o :: ops' => r <- run_aop o ;; rs <- run_aops ops' ;; ret (r :: rs)
  end.

(** The specification: a stack of free pages.  [kfree] may be called on a
    managed page that is not free; other calls are outside the contract. *)
Definition spec_aop (l : list Z) (o : aop) : option (Z * list Z) :=
  match o, l with
  | Alloc, [] => Some (0, [])
  | Alloc, p :: l' => Some (p, l')
  | Free p, _ =>
      if (p mod PGSIZE =? 0) && (kend <=? p) && (p <? PHYSTOP) &&
         negb (bool_decide (p ∈ l))
      then Some (0, p :: l) else None
  end.
Fixpoint spec_aops (l : list Z) (ops : list aop) : option (list Z * list Z) :=
  match ops with
  | [] => Some ([], l)
  | o :: ops' =>
      match spec_aop l o with
      | None => None
      | Some (r, l1) =>
          match spec_aops l1 ops' with
          | None => None
          | Some (rs, l2) => Some (r :: rs, l2)
          end
      end
  end.

End refinement.

Section refinement_proofs.
Context `{LO : LayoutOk}.

Lemma run_aop_run o s l r l1 :
  kmem_inv s l → spec_aop l o = Some (r, l1) →
  wp (run_aop o)
     (λ r' s', r' = r ∧ kmem_inv s' l1 ∧
        (∀ q, page_ok q → q ∉ l → o ≠ Free q → agree (mm s) (mm s') q PGSIZE)) s.
Proof.
  intros Hinv Hs. destruct o as [|p]; cbn in Hs |- *.
  - eapply wp_mono; [by apply kalloc_run|]. intros r' s'.
    destruct l as [|p l].
    + injection Hs as <- <-. intros [-> ->]. done.
    + injection Hs as <- <-. intros (-> & Hinv' & Hw). split_and!; [done..|].
      intros q Hq Hql _. destruct Hinv as (_ & _ & _ & Ho).
      apply Forall_cons_1 in Ho as [Hp _].
      eapply only_page_agree; [exact Hp|done|set_solver|].
      by eapply written_only_page.
  - destruct (_ && negb _) eqn:E; [|done]. injection Hs as <- <-.
    bool_to_prop. apply bool_decide_eq_false in H1.
    eapply wp_seq; [apply kfree_run; [done|by split|done]|].
    intros [] s' [Hinv' Ho]. apply wp_ret. split_and!; [done..|].
    intros q Hq _ Hne. eapply only_page_agree; [|done| |done]; [by split|congruence].
Qed.

Lemma run_aops_run ops s l rs l' :
  kmem_inv s l →
  spec_aops l ops = Some (rs, l') →
  wp (run_aops ops)
     (λ rs' s', rs' = rs ∧ kmem_inv s' l' ∧
        ∀ q, page_ok q → q ∉ l → Free q ∉ ops → agree (mm s) (mm s') q PGSIZE) s.
Proof.
  revert s l rs l'. induction ops as [|o ops IH]; intros s l rs l' Hinv Hs; cbn in Hs |- *.
  - injection Hs as <- <-. by apply wp_ret.
  - destruct (spec_aop l o) as [[r l1]|] eqn:E1; [|done].
    destruct (spec_aops l1 ops) as [[rs2 l2]|] eqn:E2; [|done].
    injection Hs as <- <-.
    eapply wp_seq; [by eapply run_aop_run|]. intros r' s1 (-> & Hinv1 & Ha1).
    eapply wp_seq; [by eapply IH|]. intros rs' s2 (-> & Hinv2 & Ha2).
    apply wp_ret. split_and!; [done..|]. intros q Hq Hql Hqf.
    apply not_elem_of_cons in Hqf as [Hqo Hqf].
    eapply agree_trans; [apply Ha1; [done|done|congruence]|apply Ha2; [done| |done]].
    destruct o as [|p]; cbn in E1.
    + destruct l; injection E1 as <- <-; set_solver.
    + destruct (_ && negb _); [|done]. injection E1 as <- <-.
      apply not_elem_of_cons. split; [congruence|done].
Qed.

(** C19. The allocator implements a stack of pages: for every sequence
    of [kalloc] and [kfree] calls that stays within the contract, the calls
    return (no panic, no deadlock on the allocator's lock), [kalloc] returns
    the most recently freed page, and 0 exactly when no page is free; and a
    page that is in use, i.e. neither free at the start nor freed by the
    sequence, keeps its contents. *)
Theorem kalloc_refines_stack ops s l rs l' :
  kmem_inv s l →
  spec_aops l ops = Some (rs, l') →
  ∃ s', run_aops ops s = OK rs s' ∧ kmem_inv s' l' ∧
    ∀ q, page_ok q → q ∉ l → Free q ∉ ops → agree (mm s) (mm s') q PGSIZE.
Proof.
  intros Hinv Hs. eapply run_aops_run in Hs; [|done].
  apply wp_OK in Hs as (r & s' & E & -> & H2 & H3). eauto.
Qed.

(** After [kinit] the free list holds every whole page of RAM
    between the end of the kernel and PHYSTOP, each once, and nothing else;
    the allocator's lock is free. *)
Theorem kinit_frees_all_ram s :
  freelist s = 0 →
  ∃ s' l, kinit s = OK tt s' ∧ kmem_inv s' l ∧
    (∀ p, p ∈ l ↔ page_ok p) ∧
    Z.of_nat (length l) = (PHYSTOP - PGROUNDUP kend) / PGSIZE.
Proof.
  intros Hf. pose proof etext_ok as He. pose proof kend_ok as Hk.
  unfold PHYSTOP, KERNBASE in *.
  destruct (PGROUNDUP_bounds kend) as [Hb Ha]; [unfold PGSIZE; lia|].
  assert (PGROUNDUP kend ≤ 2281701376) as Hle by (unfold PGSIZE in *; zlia).
  eassert (wp kinit _ s) as W.
  { unfold kinit. wp_run. eapply (freerange_run _ _ _ []); unfold PHYSTOP, KERNBASE.
    - split_and!; [done|by cbn|constructor|constructor].
    - lia.
    - lia.
    - lia.
    - lia.
    - by intros q ?%elem_of_nil. }
  apply wp_OK in W as ([] & s' & E & Hinv). rewrite app_nil_r in Hinv.
  eexists s', _. split; [done|]. split; [done|]. split.
  - intros p. rewrite elem_of_reverse, pages_from_elem.
    unfold page_ok, PHYSTOP, KERNBASE, PGSIZE in *. split.
    + intros (i & -> & Hi). zlia.
    + intros [Hp1 Hp2]. exists ((p - PGROUNDUP kend) / 4096). zlia.
  - rewrite length_reverse. unfold pages_from. rewrite length_fmap, length_seqZ.
    unfold PHYSTOP, KERNBASE, PGSIZE in *. zlia.
Qed.

End refinement_proofs.

(** ** A concrete machine, for witnesses: two pages of RAM after the kernel *)

Definition ex_layout : Layout :=
  {| kend := PHYSTOP - 2 * PGSIZE - 100; etext := KERNBASE + 2 * PGSIZE;
     trampoline := KERNBASE + PGSIZE |}.
Lemma ex_layout_ok : @LayoutOk ex_layout.
Proof.
  split; vm_compute; repeat split; discriminate || reflexivity.
Qed.

Definition ex_boot : kst := mkK false 0 ∅.

Lemma kinit_frees_all_ram_witness :
  ∃ s' l, @kinit ex_layout ex_boot = OK tt s' ∧ length l = 2%nat ∧
          @kmem_inv ex_layout s' l.
Proof.
  destruct (@kinit_frees_all_ram ex_layout ex_layout_ok ex_boot eq_refl)
    as (s' & l & E & I & _ & L).
  exists s', l. split; [exact E|]. split; [|exact I].
  change ((PHYSTOP - PGROUNDUP (@kend ex_layout)) / PGSIZE) with 2 in L. lia.
Defined.

(** Allocate both pages, find the memory exhausted, free one, get it back. *)
Definition ex_pages : list Z := [PHYSTOP - PGSIZE; PHYSTOP - 2 * PGSIZE].
Definition ex_kst : kst :=
  match @kinit ex_layout ex_boot with OK _ s => s | _ => ex_boot end.

Lemma kalloc_refines_stack_witness :
  let p := PHYSTOP - PGSIZE in let q := PHYSTOP - 2 * PGSIZE in
  ∃ s', @run_aops ex_layout [Alloc; Alloc; Alloc; Free p; Alloc] ex_kst
        = OK [p; q; 0; 0; p] s' ∧ @kmem_inv ex_layout s' [].
Proof.
  intros p q.
  destruct (@kalloc_refines_stack ex_layout ex_layout_ok
    [Alloc; Alloc; Alloc; Free p; Alloc] ex_kst ex_pages [p; q; 0; 0; p] [])
    as (s' & E & I & _).
  - split_and!; [vm_compute; reflexivity|vm_compute; repeat split| |].
    + apply (bool_decide_unpack _). vm_compute. exact I.
    + repeat constructor; discriminate.
  - vm_compute. reflexivity.
  - exists s'. split; [exact E|exact I].
Defined.
