(* ===== verification/Vm.v ===== *)
(** * Page tables and user memory: kernel/vm.c

    The Sv39 page tables live in the byte memory of [Machine]: a page-table
    page is 512 little-endian 64-bit entries.  Each function of vm.c is one
    definition, with its early returns and panics; [kalloc], [kfree], [memset]
    and [memmove] are those of [Kalloc] and [KString].  Addresses of entries
    are returned as in C, 0 standing for the null pointer. *)

From stdpp Require Import base gmap list strings numbers.
From S2P Require Import Prelude Machine Riscv KString Kalloc.

Definition kload8 (a : Z) : M kst Z := λ s, OK (load8 (mm s) a) s.
Definition kstore8 (a v : Z) : M kst unit := λ s, OK tt (set_mm (store8 (mm s) a v) s).

(** Tests of the bits of an entry against a flag mask. *)
Definition has (fl pte : Z) : bool := truthy (Z.land pte fl).

Section vm.
Context `{Layout}.

(** The loop [for(int level = 2; level > 0; level--)] of [walk]. *)
Fixpoint walk_loop (level : nat) (pagetable va : Z) (alloc : bool) : M kst Z :=
  match level with
  | O => ret (pagetable + 8 * PX 0 va)
  | S level' =>
      let pte := pagetable + 8 * PX (Z.of_nat level) va in
      e <- kload64 pte ;;
      if has PTE_V e then walk_loop level' (PTE2PA e) va alloc
      else if negb alloc then ret 0
      else
        pt <- kalloc ;;
        if pt =? 0 then ret 0
        else
          kmemset pt 0 PGSIZE ;;
          kstore64 pte (Z.lor (PA2PTE pt) PTE_V) ;;
          walk_loop level' pt va alloc
  end.

Definition walk (pagetable va : Z) (alloc : bool) : M kst Z :=
  if MAXVA <=? va then panic "walk" else walk_loop 2 pagetable va alloc.

Definition walkaddr (pagetable va : Z) : M kst Z :=
  if MAXVA <=? va then ret 0
  else
    pte <- walk pagetable va false ;;
    if pte =? 0 then ret 0
    else
      e <- kload64 pte ;;
      if negb (has PTE_V e) then ret 0
      else if negb (has PTE_U e) then ret 0
      else ret (PTE2PA e).

(** One turn of the loop of [mappages], with the locals [a] and [pa]. *)
Definition mappages_turn (pagetable last perm : Z) (l : Z * Z) : M kst (Z * Z + Z) :=
  let '(a, pa) := l in
  pte <- walk pagetable a true ;;
  if pte =? 0 then ret (inr (-1))
  else
    e <- kload64 pte ;;
    if has PTE_V e then panic "mappages: remap"
    else
      kstore64 pte (Z.lor (Z.lor (PA2PTE pa) perm) PTE_V) ;;
      if a =? last then ret (inr 0)
      else ret (inl (u64 (a + PGSIZE), u64 (pa + PGSIZE))).

(** The fuel is the number of pages between [a] and [last], modulo 2^64. *)
Definition mappages (pagetable va size pa perm : Z) : M kst Z :=
  if size =? 0 then panic "mappages: size"
  else
    let a := PGROUNDDOWN va in
    let last := PGROUNDDOWN (u64 (va + size - 1)) in
    loop (S (Z.to_nat (u64 (last - a) / PGSIZE)))
      (mappages_turn pagetable last perm) (a, pa).

Definition kvmmap (kpgtbl va pa sz perm : Z) : M kst unit :=
  r <- mappages kpgtbl va sz pa perm ;;
  if negb (r =? 0) then panic "kvmmap" else ret tt.

(** One turn of the loop of [uvmunmap]; [stop] is [va + npages*PGSIZE]. *)
Definition uvmunmap_turn (pagetable stop : Z) (do_free : bool) (a : Z) : M kst (Z + unit) :=
  if a <? stop then
    pte <- walk pagetable a false ;;
    if pte =? 0 then panic "uvmunmap: walk"
    else
      e <- kload64 pte ;;
      if negb (has PTE_V e) then panic "uvmunmap: not mapped"
      else if PTE_FLAGS e =? PTE_V then panic "uvmunmap: not a leaf"
      else
        (if do_free then kfree (PTE2PA e) else ret tt) ;;
        kstore64 pte 0 ;;
        ret (inl (u64 (a + PGSIZE)))
  else ret (inr tt).

Definition uvmunmap (pagetable va npages : Z) (do_free : bool) : M kst unit :=
  if negb (va mod PGSIZE =? 0) then panic "uvmunmap: not aligned"
  else
    loop (S (Z.to_nat npages))
      (uvmunmap_turn pagetable (u64 (va + npages * PGSIZE)) do_free) va.

Definition uvmcreate : M kst Z :=
  pagetable <- kalloc ;;
  if pagetable =? 0 then ret 0
  else kmemset pagetable 0 PGSIZE ;; ret pagetable.

(** [src] is the address of the init code in kernel memory. *)
Definition uvminit (pagetable src sz : Z) : M kst unit :=
  if PGSIZE <=? sz then panic "inituvm: more than a page"
  else
    mem <- kalloc ;;
    kmemset mem 0 PGSIZE ;;
    mappages pagetable 0 PGSIZE mem
      (Z.lor (Z.lor (Z.lor PTE_W PTE_R) PTE_X) PTE_U) ;;
    kmemmove mem src sz ;;
    ret tt.

Definition uvmdealloc (pagetable oldsz newsz : Z) : M kst Z :=
  if oldsz <=? newsz then ret oldsz
  else
    (if PGROUNDUP newsz <? PGROUNDUP oldsz then
       let npages := i32 ((PGROUNDUP oldsz - PGROUNDUP newsz) / PGSIZE) in
       uvmunmap pagetable (PGROUNDUP newsz) (u64 npages) true
     else ret tt) ;;
    ret newsz.

(** One turn of the loop of [uvmalloc]; [oldsz] is rounded up. *)
Definition uvmalloc_turn (pagetable oldsz newsz a : Z) : M kst (Z + Z) :=
  if a <? newsz then
    mem <- kalloc ;;
    if mem =? 0 then
      uvmdealloc pagetable a oldsz ;; ret (inr 0)
    else
      kmemset mem 0 PGSIZE ;;
      r <- mappages pagetable a PGSIZE mem
             (Z.lor (Z.lor (Z.lor PTE_W PTE_X) PTE_R) PTE_U) ;;
      if negb (r =? 0) then
        kfree mem ;; uvmdealloc pagetable a oldsz ;; ret (inr 0)
      else ret (inl (u64 (a + PGSIZE)))
  else ret (inr newsz).

Definition uvmalloc (pagetable oldsz newsz : Z) : M kst Z :=
  if newsz <? oldsz then ret oldsz
  else
    let oldsz := PGROUNDUP oldsz in
    loop (S (S (Z.to_nat ((newsz - oldsz) / PGSIZE))))
      (uvmalloc_turn pagetable oldsz newsz) oldsz.

(** C recursion has no level; the table has three, so the depth of the model
    is bounded by 3 ([uvmfree]). *)
Fixpoint freewalk (depth : nat) (pagetable : Z) : M kst unit :=
  match depth with
  | O => out_of_fuel
  | S depth' =>
      for_loop 512 0 (λ i,
        pte <- kload64 (pagetable + 8 * i) ;;
        if has PTE_V pte && (Z.land pte (Z.lor (Z.lor PTE_R PTE_W) PTE_X) =? 0) then
          freewalk depth' (PTE2PA pte) ;;
          kstore64 (pagetable + 8 * i) 0
        else if has PTE_V pte then panic "freewalk: leaf"
        else ret tt) ;;
      kfree pagetable
  end.

Definition uvmfree (pagetable sz : Z) : M kst unit :=
  (if 0 <? sz then uvmunmap pagetable 0 (PGROUNDUP sz / PGSIZE) true else ret tt) ;;
  freewalk 3 pagetable.

(** The code at the label [err] of [uvmcopy]. *)
Definition uvmcopy_err (new i : Z) : M kst (Z + Z) :=
  uvmunmap new 0 (i / PGSIZE) true ;; ret (inr (-1)).

(** One turn of the loop of [uvmcopy]. *)
Definition uvmcopy_turn (old new sz i : Z) : M kst (Z + Z) :=
  if i <? sz then
    pte <- walk old i false ;;
    if pte =? 0 then panic "uvmcopy: pte should exist"
    else
      e <- kload64 pte ;;
      if negb (has PTE_V e) then panic "uvmcopy: page not present"
      else
        let pa := PTE2PA e in
        let flags := PTE_FLAGS e in
        mem <- kalloc ;;
        if mem =? 0 then uvmcopy_err new i
        else
          kmemmove mem pa PGSIZE ;;
          r <- mappages new i PGSIZE mem flags ;;
          if negb (r =? 0) then kfree mem ;; uvmcopy_err new i
          else ret (inl (u64 (i + PGSIZE)))
  else ret (inr 0).

Definition uvmcopy (old new sz : Z) : M kst Z :=
  loop (S (S (Z.to_nat (sz / PGSIZE)))) (uvmcopy_turn old new sz) 0.

Definition uvmclear (pagetable va : Z) : M kst unit :=
  pte <- walk pagetable va false ;;
  if pte =? 0 then panic "uvmclear"
  else
    e <- kload64 pte ;;
    kstore64 pte (Z.land e (u64 (Z.lnot PTE_U))).

(** One turn of the loop of [copyout], with the locals [dstva], [src], [len]. *)
Definition copyout_turn (pagetable : Z) (l : Z * Z * Z) : M kst (Z * Z * Z + Z) :=
  let '(dstva, src, len) := l in
  if 0 <? len then
    let va0 := PGROUNDDOWN dstva in
    pa0 <- walkaddr pagetable va0 ;;
    if pa0 =? 0 then ret (inr (-1))
    else
      let n := PGSIZE - (dstva - va0) in
      let n := if len <? n then len else n in
      kmemmove (pa0 + (dstva - va0)) src n ;;
      ret (inl (u64 (va0 + PGSIZE), src + n, len - n))
  else ret (inr 0).

Definition copyout (pagetable dstva src len : Z) : M kst Z :=
  loop (3 + Z.to_nat (len / PGSIZE)) (copyout_turn pagetable) (dstva, src, len).

(** One turn of the loop of [copyin], with the locals [dst], [srcva], [len]. *)
Definition copyin_turn (pagetable : Z) (l : Z * Z * Z) : M kst (Z * Z * Z + Z) :=
  let '(dst, srcva, len) := l in
  if 0 <? len then
    let va0 := PGROUNDDOWN srcva in
    pa0 <- walkaddr pagetable va0 ;;
    if pa0 =? 0 then ret (inr (-1))
    else
      let n := PGSIZE - (srcva - va0) in
      let n := if len <? n then len else n in
      kmemmove dst (pa0 + (srcva - va0)) n ;;
      ret (inl (dst + n, u64 (va0 + PGSIZE), len - n))
  else ret (inr 0).

Definition copyin (pagetable dst srcva len : Z) : M kst Z :=
  loop (3 + Z.to_nat (len / PGSIZE)) (copyin_turn pagetable) (dst, srcva, len).

(** The inner loop of [copyinstr]: returns [got_null], [max] and [dst]. *)
Fixpoint copyinstr_chunk (n : nat) (p dst max : Z) : M kst (bool * Z * Z) :=
  match n with
  | O => ret (false, max, dst)
  | S n' =>
      c <- kload8 p ;;
      if c =? 0 then kstore8 dst 0 ;; ret (true, max, dst)
      else
        kstore8 dst c ;;
        copyinstr_chunk n' (p + 1) (dst + 1) (max - 1)
  end.

(** One turn of the outer loop of [copyinstr], with the locals [dst],
    [srcva], [max] and [got_null]. *)
Definition copyinstr_turn (pagetable : Z) (l : Z * Z * Z * bool)
    : M kst (Z * Z * Z * bool + Z) :=
  let '(dst, srcva, max, got_null) := l in
  if negb got_null && (0 <? max) then
    let va0 := PGROUNDDOWN srcva in
    pa0 <- walkaddr pagetable va0 ;;
    if pa0 =? 0 then ret (inr (-1))
    else
      let n := PGSIZE - (srcva - va0) in
      let n := if max <? n then max else n in
      '(got, max', dst') <-
        copyinstr_chunk (Z.to_nat n) (pa0 + (srcva - va0)) dst max ;;
      ret (inl (dst', u64 (va0 + PGSIZE), max', got))
  else if got_null then ret (inr 0) else ret (inr (-1)).

Definition copyinstr (pagetable dst srcva max : Z) : M kst Z :=
  loop (3 + Z.to_nat (max / PGSIZE)) (copyinstr_turn pagetable)
    (dst, srcva, max, false).

(** [proc_mapstacks] of proc.c: a kernel stack for each of the [nproc]
    processes, high in the kernel's address space. *)
Definition NPROC : Z := 64.
Definition proc_mapstacks (kpgtbl : Z) : M kst unit :=
  for_loop (Z.to_nat NPROC) 0 (λ p,
    pa <- kalloc ;;
    if pa =? 0 then panic "kalloc"
    else kvmmap kpgtbl (KSTACK p) pa PGSIZE (Z.lor PTE_R PTE_W)).

Definition kvmmake : M kst Z :=
  kpgtbl <- kalloc ;;
  kmemset kpgtbl 0 PGSIZE ;;
  (* uart registers *)
  kvmmap kpgtbl UART0 UART0 PGSIZE (Z.lor PTE_R PTE_W) ;;
  (* virtio mmio disk interface *)
  kvmmap kpgtbl VIRTIO0 VIRTIO0 PGSIZE (Z.lor PTE_R PTE_W) ;;
  (* PLIC *)
  kvmmap kpgtbl PLIC PLIC 4194304 (Z.lor PTE_R PTE_W) ;;
  (* kernel text, executable and read-only *)
  kvmmap kpgtbl KERNBASE KERNBASE (etext - KERNBASE) (Z.lor PTE_R PTE_X) ;;
  (* kernel data and the physical RAM *)
  kvmmap kpgtbl etext etext (PHYSTOP - etext) (Z.lor PTE_R PTE_W) ;;
  (* the trampoline, at the highest virtual address *)
  kvmmap kpgtbl TRAMPOLINE trampoline PGSIZE (Z.lor PTE_R PTE_X) ;;
  (* kernel stacks *)
  proc_mapstacks kpgtbl ;;
  ret kpgtbl.

End vm.
