(* ===== verification/PageTable.v ===== *)
(** * Theory of page tables

    The tree of page-table pages reachable from a root, the entry that a
    virtual address selects in it, and how the two change under [walk],
    [mappages] and [uvmunmap] of vm.c.  The abstract view of a page table is
    the function [pteval] from virtual addresses to entries (0 where no table
    exists); the theorems show that [mappages] updates it at exactly the
    mapped range and [uvmunmap] clears it at exactly the unmapped range, and
    account for every page taken from and returned to the allocator. *)

From stdpp Require Import base gmap list strings numbers.
From S2P Require Import Prelude Machine Riscv KString Kalloc Vm.

(** ** The tree *)

(** The indices of the entries of a table. *)
Definition indices : list Z := seqZ 0 512.
Lemma indices_eq : indices = seqZ 0 512.
Proof. done. Qed.
Lemma elem_of_indices i : i ∈ indices ↔ 0 ≤ i < 512.
Proof. unfold indices. rewrite elem_of_seqZ. lia. Qed.
Lemma NoDup_indices : NoDup indices.
Proof. apply NoDup_seqZ. Qed.
#[global] Opaque indices.

(** The page-table pages of the table [pt] at level [lvl]: itself and, above
    level 0, the tables its valid entries point to. *)
Fixpoint ptpages (lvl : nat) (m : mem) (pt : Z) : list Z :=
  match lvl with
  | O => [pt]
  | S l => pt :: (indices ≫= λ i,
                    if has PTE_V (load64 m (pt + 8 * i))
                    then ptpages l m (PTE2PA (load64 m (pt + 8 * i))) else [])
  end.

(** The address of the level-0 entry for [va]. *)
Fixpoint leaf_addr (lvl : nat) (m : mem) (pt va : Z) : option Z :=
  match lvl with
  | O => Some (pt + 8 * PX 0 va)
  | S l =>
      let e := load64 m (pt + 8 * PX (Z.of_nat (S l)) va) in
      if has PTE_V e then leaf_addr l m (PTE2PA e) va else None
  end.

(** The entry for [va], 0 when its table does not exist. *)
Definition pteval (lvl : nat) (m : mem) (pt va : Z) : Z :=
  match leaf_addr lvl m pt va with Some a => load64 m a | None => 0 end.

(** Valid entries above level 0 refer to tables: of the flags only PTE_V is
    set in them. *)
Fixpoint inner_ok (lvl : nat) (m : mem) (pt : Z) : Prop :=
  match lvl with
  | O => True
  | S l => ∀ i, 0 ≤ i < 512 →
      let e := load64 m (pt + 8 * i) in
      has PTE_V e = true → PTE_FLAGS e = PTE_V ∧ inner_ok l m (PTE2PA e)
  end.

(** ** Memory changed only in the pages [ps] *)

Definition frame (ps : list Z) (m m' : mem) : Prop :=
  ∀ x, (∀ q, q ∈ ps → x < q ∨ q + PGSIZE ≤ x) → load8 m' x = load8 m x.

Definition aligned (p : Z) : Prop := p mod PGSIZE = 0.

Lemma frame_refl ps m : frame ps m m.
Proof. done. Qed.

Lemma frame_mono ps ps' m m' : (∀ q, q ∈ ps → q ∈ ps') → frame ps m m' → frame ps' m m'.
Proof. intros Hs Hf x Hx. apply Hf. intros q Hq. apply Hx. by apply Hs. Qed.

(** The order of the pages does not matter. *)
#[export] Instance frame_Proper : Proper (Permutation ==> eq ==> eq ==> iff) frame.
Proof. intros l l' E m1 m2 -> m3 m4 ->. by split; apply frame_mono; intros q; rewrite E. Qed.

Lemma frame_trans ps m1 m2 m3 : frame ps m1 m2 → frame ps m2 m3 → frame ps m1 m3.
Proof. intros H1 H2 x Hx. by rewrite (H2 x Hx), (H1 x Hx). Qed.

Lemma frame_agree ps m m' q :
  Forall aligned ps → aligned q → q ∉ ps → frame ps m m' → agree m m' q PGSIZE.
Proof.
  intros Hps Hq Hn Hf x Hx. apply Hf. intros r Hr.
  rewrite Forall_forall in Hps. apply list_elem_of_In in Hr as Hr'.
  destruct (pages_disjoint q r); [done|by apply Hps| |lia|lia]. congruence.
Qed.

Lemma frame_only_page m m' p : only_page m m' p → frame [p] m m'.
Proof. intros Ho x Hx. apply Ho. apply Hx. set_solver. Qed.

Lemma frame_written m m' p f : written m m' p PGSIZE f → frame [p] m m'.
Proof. intros Hw. by eapply frame_only_page, written_only_page. Qed.

Lemma frame_store64 m p i v :
  0 ≤ i < 512 → frame [p] m (store64 m (p + 8 * i) v).
Proof.
  intros Hi x Hx. apply load8_store64_out.
  destruct (Hx p); [set_solver| |]; unfold PGSIZE in *; lia.
Qed.

Lemma agree_entry m m' pt i :
  0 ≤ i < 512 → agree m m' pt PGSIZE → load64 m' (pt + 8 * i) = load64 m (pt + 8 * i).
Proof. intros Hi Ha. apply load64_ext. intros x Hx. apply Ha. unfold PGSIZE. lia. Qed.

(** ** Flag tests *)

Lemma has_0 f : has f 0 = false.
Proof. unfold has. by rewrite Z.land_0_l. Qed.

Lemma has_flags f e : 0 ≤ f < 1024 → has f e = has f (PTE_FLAGS e).
Proof. intros Hf. unfold has. by rewrite land_low_flags. Qed.

Lemma has_mkpte f pa fl :
  0 ≤ pa < 2 ^ 56 → 0 ≤ fl < 1024 → 0 ≤ f < 1024 →
  has f (Z.lor (PA2PTE pa) fl) = has f fl.
Proof.
  intros. rewrite (has_flags f (Z.lor _ _)) by done. by rewrite mkpte_FLAGS.
Qed.

Lemma mkpte_range pa fl :
  0 ≤ pa < 2 ^ 56 → 0 ≤ fl < 1024 → 0 ≤ Z.lor (PA2PTE pa) fl < 2 ^ 54.
Proof. intros. rewrite mkpte_eq by done. zlia. Qed.

(** ** Basic facts about the tree *)

Lemma ptpages_head lvl m pt : pt ∈ ptpages lvl m pt.
Proof. destruct lvl; cbn; set_solver. Qed.

Lemma ptpages_child lvl m pt i q :
  0 ≤ i < 512 → has PTE_V (load64 m (pt + 8 * i)) = true →
  q ∈ ptpages lvl m (PTE2PA (load64 m (pt + 8 * i))) → q ∈ ptpages (S lvl) m pt.
Proof.
  intros Hi Hv Hq. cbn [ptpages]. apply elem_of_cons. right.
  apply list_elem_of_bind. exists i. rewrite Hv. split; [done|].
  by apply elem_of_indices.
Qed.

(** The child table under index [i], when the table has no duplicates. *)
Lemma ptpages_child_NoDup lvl m pt i :
  0 ≤ i < 512 → has PTE_V (load64 m (pt + 8 * i)) = true →
  NoDup (ptpages (S lvl) m pt) →
  NoDup (ptpages lvl m (PTE2PA (load64 m (pt + 8 * i)))) ∧
  pt ∉ ptpages lvl m (PTE2PA (load64 m (pt + 8 * i))).
Proof.
  intros Hi Hv Hn. cbn [ptpages] in Hn. apply list.NoDup_cons in Hn as [Hpt Hn].
  apply (NoDup_bind_piece _ _ i) in Hn; [|by apply elem_of_indices].
  cbv beta in Hn. rewrite Hv in Hn. split; [done|]. intros Hin. apply Hpt.
  apply list_elem_of_bind. exists i. rewrite Hv. split; [done|].
  by apply elem_of_indices.
Qed.

(** Different children share no page. *)
Lemma ptpages_children_disj lvl m pt i j q :
  0 ≤ i < 512 → 0 ≤ j < 512 → i ≠ j →
  has PTE_V (load64 m (pt + 8 * i)) = true →
  has PTE_V (load64 m (pt + 8 * j)) = true →
  NoDup (ptpages (S lvl) m pt) →
  q ∈ ptpages lvl m (PTE2PA (load64 m (pt + 8 * i))) →
  q ∉ ptpages lvl m (PTE2PA (load64 m (pt + 8 * j))).
Proof.
  intros Hi Hj Hij Hvi Hvj Hn Hqi Hqj. cbn [ptpages] in Hn.
  apply list.NoDup_cons in Hn as [_ Hn].
  eapply (NoDup_bind_disj _ _ i j q); [exact Hn| | | | |exact Hij].
  - by apply elem_of_indices.
  - by apply elem_of_indices.
  - cbv beta. by rewrite Hvi.
  - cbv beta. by rewrite Hvj.
Qed.

(** Framing: the tree depends only on its own pages. *)
Lemma ptpages_agree lvl m m' pt :
  (∀ q, q ∈ ptpages lvl m pt → agree m m' q PGSIZE) →
  ptpages lvl m' pt = ptpages lvl m pt.
Proof.
  revert pt. induction lvl as [|l IH]; intros pt Ha; cbn [ptpages]; [done|].
  f_equal. apply bind_ext_in. intros i Hi. apply elem_of_indices in Hi.
  rewrite (agree_entry m m') by (done || apply Ha, ptpages_head).
  destruct (has _ _) eqn:Hv; [|done]. apply IH. intros q Hq.
  apply Ha. by eapply ptpages_child.
Qed.

Lemma leaf_addr_agree lvl m m' pt va :
  (∀ q, q ∈ ptpages lvl m pt → agree m m' q PGSIZE) →
  leaf_addr lvl m' pt va = leaf_addr lvl m pt va.
Proof.
  revert pt. induction lvl as [|l IH]; intros pt Ha; cbn [leaf_addr]; [done|].
  rewrite (agree_entry m m') by (apply PX_range || apply Ha, ptpages_head).
  destruct (has _ _) eqn:Hv; [|done]. apply IH. intros q Hq.
  apply Ha. eapply ptpages_child; [apply PX_range|done|done].
Qed.

Lemma inner_ok_agree lvl m m' pt :
  (∀ q, q ∈ ptpages lvl m pt → agree m m' q PGSIZE) →
  inner_ok lvl m pt → inner_ok lvl m' pt.
Proof.
  revert pt. induction lvl as [|l IH]; intros pt Ha Hok; [done|].
  intros i Hi. cbv zeta. rewrite (agree_entry m m') by (done || apply Ha, ptpages_head).
  intros Hv. destruct (Hok i Hi Hv) as [Hfl Hc]. split; [done|]. apply IH; [|done].
  intros q Hq. apply Ha. by eapply ptpages_child.
Qed.

Lemma leaf_addr_page lvl m pt va a :
  leaf_addr lvl m pt va = Some a → ∃ p, p ∈ ptpages lvl m pt ∧ a = p + 8 * PX 0 va.
Proof.
  revert pt. induction lvl as [|l IH]; intros pt E; cbn [leaf_addr] in E.
  - injection E as <-. exists pt. split; [apply ptpages_head|done].
  - destruct (has _ _) eqn:Hv; [|done]. apply IH in E as (p & Hp & ->).
    exists p. split; [|done]. eapply ptpages_child; [apply PX_range|done|done].
Qed.

Lemma pteval_agree lvl m m' pt va :
  (∀ q, q ∈ ptpages lvl m pt → agree m m' q PGSIZE) →
  pteval lvl m' pt va = pteval lvl m pt va.
Proof.
  intros Ha. unfold pteval. rewrite (leaf_addr_agree lvl m m') by done.
  destruct (leaf_addr _ _ _ _) as [a|] eqn:E; [|done].
  apply leaf_addr_page in E as (p & Hp & ->).
  apply agree_entry; [apply PX_range|]. by apply Ha.
Qed.

(** A zeroed table has no children and maps nothing. *)
Lemma zero_entry m pt i :
  0 ≤ i < 512 → (∀ x, pt ≤ x < pt + PGSIZE → load8 m x = 0) → load64 m (pt + 8 * i) = 0.
Proof. intros Hi Hz. apply load64_zero. intros x Hx. apply Hz. unfold PGSIZE. lia. Qed.

Lemma ptpages_zero lvl m pt :
  (∀ x, pt ≤ x < pt + PGSIZE → load8 m x = 0) → ptpages lvl m pt = [pt].
Proof.
  intros Hz. destruct lvl as [|l]; [done|]. cbn [ptpages]. f_equal.
  rewrite (bind_ext_in (λ _, [])); [by induction indices|].
  intros i Hi. apply elem_of_indices in Hi. by rewrite zero_entry, has_0.
Qed.

Lemma pteval_zero lvl m pt va :
  (∀ x, pt ≤ x < pt + PGSIZE → load8 m x = 0) → pteval lvl m pt va = 0.
Proof.
  intros Hz. destruct lvl as [|l]; unfold pteval; cbn [leaf_addr].
  - apply zero_entry; [apply PX_range|done].
  - rewrite zero_entry, has_0 by (done || apply PX_range). done.
Qed.

Lemma inner_ok_zero lvl m pt :
  (∀ x, pt ≤ x < pt + PGSIZE → load8 m x = 0) → inner_ok lvl m pt.
Proof.
  intros Hz. destruct lvl as [|l]; [done|]. intros i Hi. cbv zeta.
  by rewrite zero_entry, has_0.
Qed.

(** ** Local changes of the tree *)

Lemma aligned_of_page_ok `{Layout} ps : Forall page_ok ps → Forall aligned ps.
Proof. intros Hf. eapply Forall_impl; [|exact Hf]. by intros q [? _]. Qed.

Lemma Forall_elem {A} (P : A → Prop) l x : Forall P l → x ∈ l → P x.
Proof. intros Hf Hx. rewrite Forall_forall in Hf. by apply Hf, list_elem_of_In. Qed.

(** Only the child under index [i] changed, and it gained the pages [xs]. *)
Lemma ptpages_update lvl m m' pt i xs :
  0 ≤ i < 512 → has PTE_V (load64 m (pt + 8 * i)) = true →
  agree m m' pt PGSIZE →
  (∀ j q, 0 ≤ j < 512 → j ≠ i → has PTE_V (load64 m (pt + 8 * j)) = true →
     q ∈ ptpages lvl m (PTE2PA (load64 m (pt + 8 * j))) → agree m m' q PGSIZE) →
  ptpages lvl m' (PTE2PA (load64 m (pt + 8 * i))) ≡ₚ
    xs ++ ptpages lvl m (PTE2PA (load64 m (pt + 8 * i))) →
  ptpages (S lvl) m' pt ≡ₚ xs ++ ptpages (S lvl) m pt.
Proof.
  intros Hi Hv Hpt Hj Hp. cbn [ptpages].
  rewrite (bind_update_perm
    (λ i, if has PTE_V (load64 m (pt + 8 * i))
          then ptpages lvl m (PTE2PA (load64 m (pt + 8 * i))) else []) _ indices i xs).
  - apply Permutation_middle.
  - apply NoDup_indices.
  - by apply elem_of_indices.
  - intros j Hjr Hne. apply elem_of_indices in Hjr.
    rewrite (agree_entry m m') by done.
    destruct (has PTE_V (load64 m (pt + 8 * j))) eqn:Hvj; [|done].
    apply ptpages_agree. intros q Hq. by eapply Hj.
  - cbv beta. rewrite (agree_entry m m'), Hv by done. done.
Qed.

(** The level-0 table on the path of [va]. *)
Fixpoint leaf_page (lvl : nat) (m : mem) (pt va : Z) : option Z :=
  match lvl with
  | O => Some pt
  | S l =>
      let e := load64 m (pt + 8 * PX (Z.of_nat (S l)) va) in
      if has PTE_V e then leaf_page l m (PTE2PA e) va else None
  end.

Lemma leaf_addr_leaf_page lvl m pt va :
  leaf_addr lvl m pt va = (λ p, p + 8 * PX 0 va) <$> leaf_page lvl m pt va.
Proof.
  revert pt. induction lvl as [|l IH]; intros pt; cbn [leaf_addr leaf_page]; [done|].
  destruct (has _ _); [apply IH|done].
Qed.

Lemma leaf_page_elem lvl m pt va p :
  leaf_page lvl m pt va = Some p → p ∈ ptpages lvl m pt.
Proof.
  revert pt. induction lvl as [|l IH]; intros pt E; cbn [leaf_page] in E.
  - injection E as <-. apply ptpages_head.
  - destruct (has _ _) eqn:Hv; [|done]. apply IH in E.
    eapply ptpages_child; [apply PX_range|done|done].
Qed.

(** Writing in a level-0 table does not change the tree. *)
Lemma leaf_frame lvl m m' pt va p :
  NoDup (ptpages lvl m pt) → Forall aligned (ptpages lvl m pt) →
  leaf_page lvl m pt va = Some p → frame [p] m m' →
  ptpages lvl m' pt = ptpages lvl m pt ∧
  (∀ va', leaf_addr lvl m' pt va' = leaf_addr lvl m pt va') ∧
  (inner_ok lvl m pt → inner_ok lvl m' pt).
Proof.
  revert pt. induction lvl as [|l IH]; intros pt Hn Ha E Hf; [done|].
  cbn [leaf_page] in E. set (i := PX (Z.of_nat (S l)) va) in *.
  assert (0 ≤ i < 512) as Hi by apply PX_range.
  destruct (has PTE_V (load64 m (pt + 8 * i))) eqn:Hv; [|done].
  set (c := PTE2PA (load64 m (pt + 8 * i))) in *.
  destruct (ptpages_child_NoDup l m pt i Hi Hv Hn) as [Hnc Hptc].
  pose proof (leaf_page_elem _ _ _ _ _ E) as Hpc.
  assert (p ∈ ptpages (S l) m pt) as Hp by by eapply ptpages_child.
  assert (∀ q, q ∈ ptpages (S l) m pt → q ≠ p → agree m m' q PGSIZE) as Hag.
  { intros q Hq Hne. eapply frame_agree; [| | |exact Hf].
    - constructor; [by eapply Forall_elem|done].
    - by eapply Forall_elem.
    - by apply not_elem_of_cons; split; [congruence|apply not_elem_of_nil]. }
  assert (agree m m' pt PGSIZE) as Hpt.
  { apply Hag; [apply ptpages_head|]. intros ->. done. }
  assert (Forall aligned (ptpages l m c)) as Hac.
  { apply Forall_forall. intros q Hq. apply list_elem_of_In in Hq.
    eapply Forall_elem; [exact Ha|]. by eapply ptpages_child. }
  assert (∀ j, 0 ≤ j < 512 → has PTE_V (load64 m (pt + 8 * j)) = true → j ≠ i →
    ∀ q, q ∈ ptpages l m (PTE2PA (load64 m (pt + 8 * j))) → agree m m' q PGSIZE) as Hsib.
  { intros j Hj Hvj Hne q Hq. apply Hag; [by eapply ptpages_child|]. intros ->.
    eapply (ptpages_children_disj l m pt i j p); done. }
  destruct (IH c Hnc Hac E Hf) as (IH1 & IH2 & IH3). split_and!.
  - cbn [ptpages]. f_equal. apply bind_ext_in. intros j Hj. apply elem_of_indices in Hj.
    rewrite (agree_entry m m') by done.
    destruct (has PTE_V (load64 m (pt + 8 * j))) eqn:Hvj; [|done].
    destruct (decide (j = i)) as [->|Hne]; [done|].
    apply ptpages_agree. intros q. by apply Hsib.
  - intros va'. cbn [leaf_addr]. pose proof (PX_range (Z.of_nat (S l)) va') as Hj.
    rewrite (agree_entry m m') by done.
    destruct (has PTE_V (load64 m (pt + 8 * PX (Z.of_nat (S l)) va'))) eqn:Hvj; [|done].
    destruct (decide (PX (Z.of_nat (S l)) va' = i)) as [Ej|Hne].
    + rewrite Ej. apply IH2.
    + apply leaf_addr_agree. intros q. by apply Hsib.
  - intros Hok j Hj. cbv zeta. rewrite (agree_entry m m') by done. intros Hvj.
    destruct (Hok j Hj Hvj) as [Hfl Hc]. split; [done|].
    destruct (decide (j = i)) as [->|Hne]; [by apply IH3|].
    eapply inner_ok_agree; [|done]. intros q. by apply Hsib.
Qed.

(** Two addresses with the same entry have the same indices. *)
Lemma leaf_addr_inj lvl m pt va va' a :
  NoDup (ptpages lvl m pt) → Forall aligned (ptpages lvl m pt) →
  leaf_addr lvl m pt va = Some a → leaf_addr lvl m pt va' = Some a →
  ∀ k, 0 ≤ k ≤ Z.of_nat lvl → PX k va = PX k va'.
Proof.
  revert pt. induction lvl as [|l IH]; intros pt Hn Ha E E' k Hk.
  - assert (k = 0) as -> by lia. cbn in E, E'. simplify_eq. lia.
  - cbn [leaf_addr] in E, E'.
    pose proof (PX_range (Z.of_nat (S l)) va) as Hi.
    pose proof (PX_range (Z.of_nat (S l)) va') as Hj.
    set (i := PX (Z.of_nat (S l)) va) in *. set (j := PX (Z.of_nat (S l)) va') in *.
    destruct (has PTE_V (load64 m (pt + 8 * i))) eqn:Hvi; [|done].
    destruct (has PTE_V (load64 m (pt + 8 * j))) eqn:Hvj; [|done].
    destruct (decide (i = j)) as [Hij|Hij].
    + rewrite <-Hij in E'. destruct (decide (k = Z.of_nat (S l))) as [->|]; [done|].
      destruct (ptpages_child_NoDup l m pt i Hi Hvi Hn) as [Hnc _].
      eapply (IH _ Hnc); [|done|done|lia]. apply Forall_forall. intros q Hq.
      apply list_elem_of_In in Hq. eapply Forall_elem; [exact Ha|].
      by apply (ptpages_child l m pt i).
    + exfalso. apply leaf_addr_page in E as (p & Hp & ->).
      apply leaf_addr_page in E' as (p' & Hp' & Ep).
      assert (aligned p) by (eapply Forall_elem; [exact Ha|by apply (ptpages_child l m pt i)]).
      assert (aligned p') by (eapply Forall_elem; [exact Ha|by apply (ptpages_child l m pt j)]).
      pose proof (PX_range 0 va). pose proof (PX_range 0 va').
      assert (p = p') as <- by (unfold aligned, PGSIZE in *; zlia).
      eapply (ptpages_children_disj l m pt i j p); done.
Qed.

Lemma leaf_addr_PX lvl m pt va va' :
  (∀ k, 0 ≤ k ≤ Z.of_nat lvl → PX k va = PX k va') →
  leaf_addr lvl m pt va = leaf_addr lvl m pt va'.
Proof.
  revert pt. induction lvl as [|l IH]; intros pt E; cbn [leaf_addr].
  - by rewrite (E 0) by lia.
  - rewrite (E (Z.of_nat (S l))) by lia. destruct (has _ _); [|done].
    apply IH. intros k Hk. apply E. lia.
Qed.

(** Storing an entry changes what exactly the addresses of its page map to. *)
Lemma pteval_store lvl m pt va a v va' :
  NoDup (ptpages lvl m pt) → Forall aligned (ptpages lvl m pt) →
  leaf_addr lvl m pt va = Some a →
  let m' := store64 m a v in
  ptpages lvl m' pt = ptpages lvl m pt ∧
  (∀ va', leaf_addr lvl m' pt va' = leaf_addr lvl m pt va') ∧
  ((∀ k, 0 ≤ k ≤ Z.of_nat lvl → PX k va = PX k va') → pteval lvl m' pt va' = u64 v) ∧
  (¬ (∀ k, 0 ≤ k ≤ Z.of_nat lvl → PX k va = PX k va') →
     pteval lvl m' pt va' = pteval lvl m pt va') ∧
  (inner_ok lvl m pt → inner_ok lvl m' pt).
Proof.
  intros Hn Ha E. cbv zeta. rewrite leaf_addr_leaf_page in E.
  destruct (leaf_page lvl m pt va) as [p|] eqn:Ep; [|done]. injection E as <-.
  pose proof (PX_range 0 va) as Hi.
  destruct (leaf_frame lvl m (store64 m (p + 8 * PX 0 va) v) pt va p Hn Ha Ep)
    as (Hpp & Hla & Hio); [by apply frame_store64|].
  split_and!; [done|done| | |done].
  - intros Hk. unfold pteval. rewrite Hla, <-(leaf_addr_PX _ _ _ va va') by done.
    rewrite leaf_addr_leaf_page, Ep. cbn. apply load64_store64.
  - intros Hne. unfold pteval. rewrite Hla.
    destruct (leaf_addr lvl m pt va') as [a'|] eqn:E'; [|done].
    apply load64_store64_out. pose proof E' as E''.
    apply leaf_addr_page in E'' as (p' & Hp' & ->).
    assert (aligned p) by (eapply Forall_elem; [exact Ha|by eapply leaf_page_elem]).
    assert (aligned p') by (eapply Forall_elem; [exact Ha|done]).
    pose proof (PX_range 0 va').
    destruct (decide (p + 8 * PX 0 va = p' + 8 * PX 0 va')) as [Heq|];
      [|unfold aligned, PGSIZE in *; zlia].
    exfalso. apply Hne. eapply leaf_addr_inj; [done|done| |exact E'].
    rewrite leaf_addr_leaf_page, Ep. cbn. by rewrite Heq.
Qed.

(** A new, empty table [p] appears under the invalid entry [i]. *)
Lemma install_tree lvl m m' pt p i :
  0 ≤ i < 512 → has PTE_V (load64 m (pt + 8 * i)) = false →
  has PTE_V (load64 m' (pt + 8 * i)) = true → PTE2PA (load64 m' (pt + 8 * i)) = p →
  (∀ j, 0 ≤ j < 512 → j ≠ i → load64 m' (pt + 8 * j) = load64 m (pt + 8 * j)) →
  (∀ j q, 0 ≤ j < 512 → has PTE_V (load64 m (pt + 8 * j)) = true →
     q ∈ ptpages lvl m (PTE2PA (load64 m (pt + 8 * j))) → agree m m' q PGSIZE) →
  (∀ x, p ≤ x < p + PGSIZE → load8 m' x = 0) →
  PTE_FLAGS (load64 m' (pt + 8 * i)) = PTE_V →
  ptpages (S lvl) m' pt ≡ₚ p :: ptpages (S lvl) m pt ∧
  (∀ va, pteval (S lvl) m' pt va = pteval (S lvl) m pt va) ∧
  (inner_ok (S lvl) m pt → inner_ok (S lvl) m' pt).
Proof.
  intros Hi Hv Hv' Hp Hent Hsib Hz Hfl'. split_and!.
  - cbn [ptpages].
    rewrite (bind_update_perm
      (λ i, if has PTE_V (load64 m (pt + 8 * i))
            then ptpages lvl m (PTE2PA (load64 m (pt + 8 * i))) else []) _ indices i [p]).
    + apply (Permutation_middle [p]).
    + apply NoDup_indices.
    + by apply elem_of_indices.
    + intros j Hj Hne. apply elem_of_indices in Hj. rewrite Hent by done.
      destruct (has PTE_V (load64 m (pt + 8 * j))) eqn:Hvj; [|done].
      apply ptpages_agree. intros q. by apply Hsib.
    + cbv beta. by rewrite Hv, Hv', Hp, ptpages_zero.
  - intros va. unfold pteval. cbn [leaf_addr].
    pose proof (PX_range (Z.of_nat (S lvl)) va) as Hj.
    destruct (decide (PX (Z.of_nat (S lvl)) va = i)) as [Ej|Hne].
    + rewrite Ej, Hv, Hv', Hp. by apply (pteval_zero lvl).
    + rewrite Hent by done.
      destruct (has PTE_V (load64 m (pt + 8 * PX (Z.of_nat (S lvl)) va))) eqn:Hvj; [|done].
      apply pteval_agree. intros q. by apply Hsib.
  - intros Hok j Hj. cbv zeta. destruct (decide (j = i)) as [->|Hne].
    + intros _. rewrite Hp. split; [done|by apply inner_ok_zero].
    + rewrite Hent by done. intros Hvj. destruct (Hok j Hj Hvj) as [Hfl Hc].
      split; [done|]. eapply inner_ok_agree; [|done]. intros q. by apply Hsib.
Qed.

(** ** [walk] *)

(** A well-formed table and the free pages: all distinct, all managed by the
    allocator. *)
Definition pt_wf `{Layout} (lvl : nat) (s : kst) (pt : Z) (F : list Z) : Prop :=
  kmem_inv s F ∧ NoDup (ptpages lvl (mm s) pt ++ F) ∧
  Forall page_ok (ptpages lvl (mm s) pt).

(** From [s] with free pages [F] to [s'] with free pages [F'], the table grew
    by the pages taken from the allocator; it maps what it mapped before, and
    only its own pages were written. *)
Definition grown `{Layout} (lvl : nat) (pt : Z) (s : kst) (F : list Z)
    (s' : kst) (F' : list Z) : Prop :=
  ∃ news, F = news ++ F' ∧ kmem_inv s' F' ∧
    ptpages lvl (mm s') pt ≡ₚ news ++ ptpages lvl (mm s) pt ∧
    frame (ptpages lvl (mm s') pt) (mm s) (mm s') ∧
    (inner_ok lvl (mm s) pt → inner_ok lvl (mm s') pt) ∧
    ∀ va, pteval lvl (mm s') pt va = pteval lvl (mm s) pt va.

Section walk.
Context `{LO : LayoutOk}.

Lemma grown_refl lvl pt s F : kmem_inv s F → grown lvl pt s F s F.
Proof. intros Hk. exists []. by split_and!. Qed.

Lemma grown_trans lvl pt s1 F1 s2 F2 s3 F3 :
  grown lvl pt s1 F1 s2 F2 → grown lvl pt s2 F2 s3 F3 → grown lvl pt s1 F1 s3 F3.
Proof.
  intros (n1 & -> & _ & Hp1 & Hf1 & Hi1 & Hv1) (n2 & -> & Hk & Hp2 & Hf2 & Hi2 & Hv2).
  exists (n1 ++ n2). split_and!.
  - by rewrite app_assoc.
  - done.
  - rewrite Hp2, Hp1, !app_assoc. f_equiv. apply Permutation_app_comm.
  - eapply frame_trans; [|exact Hf2]. eapply frame_mono; [|exact Hf1].
    intros q Hq. rewrite Hp2. apply elem_of_app. by right.
  - auto.
  - intros va. by rewrite Hv2, Hv1.
Qed.

Lemma grown_wf lvl pt s F s' F' :
  pt_wf lvl s pt F → grown lvl pt s F s' F' → pt_wf lvl s' pt F'.
Proof.
  intros (Hk & Hn & Hok) (news & -> & Hk' & Hp & _ & _). split_and!; [done| |].
  - rewrite Hp, (Permutation_app_comm news), <-app_assoc. done.
  - rewrite Hp. apply Forall_app. split; [|done].
    destruct Hk as (_ & _ & _ & HF). by apply Forall_app in HF as [? _].
Qed.

Lemma pt_wf_NoDup lvl s pt F : pt_wf lvl s pt F → NoDup (ptpages lvl (mm s) pt).
Proof. intros (_ & Hn & _). by apply list.NoDup_app in Hn as [? _]. Qed.

Lemma pt_wf_aligned lvl s pt F :
  pt_wf lvl s pt F → Forall aligned (ptpages lvl (mm s) pt).
Proof. intros (_ & _ & Hok). by apply aligned_of_page_ok. Qed.

(** The child table of a well-formed table is well-formed. *)
Lemma pt_wf_child lvl s pt F i :
  0 ≤ i < 512 → has PTE_V (load64 (mm s) (pt + 8 * i)) = true →
  pt_wf (S lvl) s pt F → pt_wf lvl s (PTE2PA (load64 (mm s) (pt + 8 * i))) F.
Proof.
  intros Hi Hv Hwf. pose proof (pt_wf_NoDup _ _ _ _ Hwf) as Hnd.
  destruct Hwf as (Hk & Hn & Hok).
  destruct (ptpages_child_NoDup lvl (mm s) pt i Hi Hv Hnd) as [Hnc _].
  apply list.NoDup_app in Hn as (_ & Hd & HnF). split_and!; [done| |].
  - apply list.NoDup_app. split_and!; [done| |done]. intros q Hq. apply Hd.
    by apply (ptpages_child lvl _ pt i).
  - apply Forall_forall. intros q Hq. apply list_elem_of_In in Hq.
    eapply Forall_elem; [exact Hok|]. by apply (ptpages_child lvl _ pt i).
Qed.

(** Growth of a child is growth of the parent. *)
Lemma grown_lift lvl pt s F s' F' i :
  0 ≤ i < 512 → has PTE_V (load64 (mm s) (pt + 8 * i)) = true →
  pt_wf (S lvl) s pt F →
  grown lvl (PTE2PA (load64 (mm s) (pt + 8 * i))) s F s' F' →
  grown (S lvl) pt s F s' F' ∧
  load64 (mm s') (pt + 8 * i) = load64 (mm s) (pt + 8 * i).
Proof.
  intros Hi Hv Hwf (news & -> & Hk' & Hp & Hf & Hin & Hpv).
  pose proof (pt_wf_NoDup _ _ _ _ Hwf) as Hnd.
  pose proof (pt_wf_aligned _ _ _ _ Hwf) as Hal.
  destruct Hwf as (Hk & Hn & Hok).
  set (c := PTE2PA (load64 (mm s) (pt + 8 * i))) in *.
  destruct (ptpages_child_NoDup lvl (mm s) pt i Hi Hv Hnd) as [Hnc Hptc].
  apply list.NoDup_app in Hn as (_ & Hd & HnF).
  (* the pages the child owns afterwards are aligned *)
  assert (Forall aligned (ptpages lvl (mm s') c)) as Halc.
  { rewrite Hp. apply Forall_app. split.
    - destruct Hk as (_ & _ & _ & HF). apply Forall_app in HF as [HF _].
      by apply aligned_of_page_ok.
    - apply Forall_forall. intros q Hq. apply list_elem_of_In in Hq.
      eapply Forall_elem; [exact Hal|]. by apply (ptpages_child lvl _ pt i). }
  (* every other page of the parent is unchanged *)
  assert (∀ q, q ∈ ptpages (S lvl) (mm s) pt → q ∉ ptpages lvl (mm s) c →
               agree (mm s) (mm s') q PGSIZE) as Hag.
  { intros q Hq Hqc. eapply frame_agree; [exact Halc|by apply (Forall_elem _ _ q Hal)| |exact Hf].
    rewrite Hp, elem_of_app. intros [Hqn|Hqc']; [|done].
    apply (Hd q Hq). apply elem_of_app. by left. }
  assert (agree (mm s) (mm s') pt PGSIZE) as Hpt by (apply Hag; [apply ptpages_head|done]).
  assert (∀ j q, 0 ≤ j < 512 → j ≠ i →
    has PTE_V (load64 (mm s) (pt + 8 * j)) = true →
    q ∈ ptpages lvl (mm s) (PTE2PA (load64 (mm s) (pt + 8 * j))) →
    agree (mm s) (mm s') q PGSIZE) as Hsib.
  { intros j q Hj Hne Hvj Hq. apply Hag; [by apply (ptpages_child lvl _ pt j)|].
    by eapply ptpages_children_disj. }
  split; [|by apply agree_entry].
  exists news. split_and!; [done|done| | | |].
  - by eapply ptpages_update.
  - eapply frame_mono; [|exact Hf]. intros q Hq.
    apply (ptpages_child lvl _ pt i q Hi); rewrite (agree_entry (mm s)) by done; done.
  - intros Hio j Hj. cbv zeta. rewrite (agree_entry (mm s)) by done. intros Hvj.
    destruct (Hio j Hj Hvj) as [Hfl Hc]. split; [done|].
    destruct (decide (j = i)) as [->|Hne]; [by apply Hin|].
    eapply inner_ok_agree; [|done]. intros q. by apply Hsib.
  - intros va. unfold pteval. cbn [leaf_addr].
    pose proof (PX_range (Z.of_nat (S lvl)) va) as Hj.
    rewrite (agree_entry (mm s) (mm s')) by done.
    destruct (has PTE_V (load64 (mm s) (pt + 8 * PX (Z.of_nat (S lvl)) va))) eqn:Hvj; [|done].
    destruct (decide (PX (Z.of_nat (S lvl)) va = i)) as [Ej|Hne].
    + rewrite Ej. apply Hpv.
    + apply pteval_agree. intros q. by apply Hsib.
Qed.

(** An entry that points to a page of the allocator. *)
Lemma entry_of_page p fl :
  page_ok p → 0 ≤ fl < 1024 →
  u64 (Z.lor (PA2PTE p) fl) = Z.lor (PA2PTE p) fl ∧
  PTE2PA (Z.lor (PA2PTE p) fl) = p ∧ PTE_FLAGS (Z.lor (PA2PTE p) fl) = fl.
Proof.
  intros Hp Hfl. pose proof (page_ok_bound p Hp). pose proof (page_ok_pos p Hp).
  pose proof (mkpte_range p fl ltac:(lia) Hfl). split_and!.
  - apply u64_small. lia.
  - apply mkpte_PA; [lia|apply Hp|done].
  - apply mkpte_FLAGS; lia.
Qed.

(** Installing a zeroed page [p] under an invalid entry. *)
Lemma grown_install lvl pt s p F s1 i :
  0 ≤ i < 512 → has PTE_V (load64 (mm s) (pt + 8 * i)) = false →
  pt_wf (S lvl) s pt (p :: F) →
  frame [p] (mm s) (mm s1) →
  (∀ x, p ≤ x < p + PGSIZE → load8 (mm s1) x = 0) →
  kmem_inv s1 F →
  let s' := set_mm (store64 (mm s1) (pt + 8 * i) (Z.lor (PA2PTE p) PTE_V)) s1 in
  grown (S lvl) pt s (p :: F) s' F ∧
  PTE2PA (load64 (mm s') (pt + 8 * i)) = p ∧
  has PTE_V (load64 (mm s') (pt + 8 * i)) = true.
Proof.
  intros Hi Hv Hwf Hf1 Hz Hk1 s'. pose proof (pt_wf_aligned _ _ _ _ Hwf) as Hal.
  pose proof (pt_wf_NoDup _ _ _ _ Hwf) as Hnd.
  destruct Hwf as (Hk & Hn & Hok). apply list.NoDup_app in Hn as (_ & Hd & HnF).
  assert (page_ok p) as Hp by (destruct Hk as (_ & _ & _ & HF); by apply Forall_cons_1 in HF as [? _]).
  assert (aligned p) as Hpal by apply Hp.
  assert (∀ q, q ∈ ptpages (S lvl) (mm s) pt → q ≠ p) as Hne.
  { intros q Hq ->. apply (Hd p Hq). by apply elem_of_cons; left. }
  pose proof (ptpages_head (S lvl) (mm s) pt) as Hpt.
  pose proof (Forall_elem _ _ _ Hal Hpt) as Hptal.
  destruct (entry_of_page p PTE_V Hp ltac:(done)) as (Eu & Epa & Efl).
  assert (load64 (mm s') (pt + 8 * i) = Z.lor (PA2PTE p) PTE_V) as Ei
    by (cbn; by rewrite load64_store64).
  assert (has PTE_V (load64 (mm s') (pt + 8 * i)) = true) as Ev
    by (rewrite Ei, has_flags, Efl by done; done).
  assert (frame [pt] (mm s1) (mm s')) as Hf2 by by apply frame_store64.
  assert (∀ q, aligned q → q ≠ p → q ≠ pt → agree (mm s) (mm s') q PGSIZE) as Hag.
  { intros q Hq Hqp Hqpt. eapply agree_trans;
      [eapply frame_agree; [| | |exact Hf1]|eapply frame_agree; [| | |exact Hf2]];
      first [by repeat constructor|done|set_solver]. }
  destruct (install_tree lvl (mm s) (mm s') pt p i) as (Hperm & Hpv & Hio);
    [done|done|done|by rewrite Ei| | | |by rewrite Ei|].
  - intros j Hj Hji. cbn. rewrite load64_store64_out by lia.
    apply agree_entry; [done|]. eapply frame_agree; [| | |exact Hf1];
      [by repeat constructor|done|set_solver].
  - intros j q Hj Hvj Hq. destruct (ptpages_child_NoDup lvl (mm s) pt j Hj Hvj Hnd) as [_ Hptj].
    assert (q ∈ ptpages (S lvl) (mm s) pt) as Hq' by by apply (ptpages_child lvl _ pt j).
    apply Hag; [by apply (Forall_elem _ _ q Hal)|by apply Hne|congruence].
  - intros x Hx. cbn. rewrite load8_store64_out; [by apply Hz|].
    destruct (pages_disjoint p pt Hpal Hptal); [|unfold PGSIZE in *; lia..].
    intros ->. by eapply Hne.
  - split; [|split; [by rewrite Ei|done]]. exists [p]. split_and!; [done| |done| |done|done].
    + eapply (kmem_inv_frame s1); [done|done| |done]. intros q Hq.
      eapply frame_agree; [| | |exact Hf2]; [by repeat constructor| |].
      * destruct Hk1 as (_ & _ & _ & HF). by apply (Forall_elem _ _ q HF).
      * intros ->%list_elem_of_singleton. apply (Hd pt Hpt). by apply elem_of_cons; right.
    + eapply frame_trans; [eapply frame_mono; [|exact Hf1]|eapply frame_mono; [|exact Hf2]].
      * intros q ->%list_elem_of_singleton. rewrite Hperm. by apply elem_of_cons; left.
      * intros q ->%list_elem_of_singleton. apply ptpages_head.
Qed.

(** [walk] without allocation only looks. *)
Lemma walk_loop_find lvl pt va s :
  walk_loop lvl pt va false s = OK (default 0 (leaf_addr lvl (mm s) pt va)) s.
Proof.
  revert pt. induction lvl as [|l IH]; intros pt; [done|].
  cbn [walk_loop leaf_addr]. unfold bind, kload64. cbv zeta.
  destruct (has _ _); [apply IH|done].
Qed.

(** [walk] with allocation grows the table until it has an entry for [va],
    unless the allocator runs out of pages. *)
Lemma walk_loop_alloc lvl pt va s F :
  pt_wf lvl s pt F →
  wp (walk_loop lvl pt va true)
     (λ r s', ∃ F', grown lvl pt s F s' F' ∧
        (r = 0 → F' = []) ∧
        (r ≠ 0 → leaf_addr lvl (mm s') pt va = Some r) ∧
        (length F ≤ length F' + lvl)%nat) s.
Proof.
  revert pt s F. induction lvl as [|l IH]; intros pt s F Hwf; cbn [walk_loop].
  - wp_run. exists F. split; [apply grown_refl, Hwf|]. split; [|split; [done|lia]]. intros Hr.
    destruct Hwf as (_ & _ & Hok). apply Forall_cons_1 in Hok as [Hok _].
    pose proof (page_ok_pos pt Hok). pose proof (PX_range 0 va). lia.
  - set (i := PX (Z.of_nat (S l)) va). assert (0 ≤ i < 512) as Hi by apply PX_range.
    wp_run. destruct (has PTE_V (load64 (mm s) (pt + 8 * i))) eqn:Hv.
    + eapply wp_mono; [by apply IH, pt_wf_child|].
      intros r s' (F' & Hg & Hr0 & Hr & Hlen).
      destruct (grown_lift l pt s F s' F' i Hi Hv Hwf Hg) as [Hg' Ee].
      exists F'. split_and!; [done|done| |lia]. intros Hnz. cbn [leaf_addr].
      fold i. rewrite Ee, Hv. by apply Hr.
    + cbn [negb]. wp_use kalloc_run; [apply Hwf|]. intros r s1 Hr.
      destruct F as [|p F].
      { destruct Hr as [-> ->]. rewrite Z.eqb_refl. wp_run. exists [].
        split; [apply grown_refl, Hwf|]. split; [done|]. split; [done|cbn; lia]. }
      destruct Hr as (-> & Hk1 & Hw1).
      assert (page_ok p) as Hp by (destruct Hwf as ((_ & _ & _ & HF) & _);
        by apply Forall_cons_1 in HF as [? _]).
      pose proof (page_ok_pos p Hp). rewrite (proj2 (Z.eqb_neq p 0)) by lia.
      wp_use kmemset_run; [done|]. intros r s2 (m2 & -> & -> & Hw2). wp_run.
      destruct (grown_install l pt s p F (set_mm m2 s1) i) as (Hg1 & Epa & Ev); try done.
      { eapply frame_trans; [by eapply frame_written|]. by eapply frame_written. }
      { intros x Hx. cbn. rewrite (Hw2 x). by ztest. }
      { eapply (kmem_inv_frame s1); [done|done| |done]. intros q Hq.
        eapply frame_agree; [| | |by eapply frame_written].
        - repeat constructor. apply Hp.
        - destruct Hk1 as (_ & _ & _ & HF). by apply (Forall_elem _ _ q HF).
        - destruct Hwf as ((_ & _ & HF & _) & _). apply list.NoDup_cons in HF as [HF _].
          set_solver. }
      set (s3 := set_mm _ _) in *. pose proof (grown_wf _ _ _ _ _ _ Hwf Hg1) as Hwf1.
      rewrite <-Epa at 1.
      eapply wp_mono; [by apply IH, pt_wf_child|].
      intros r s' (F' & Hg & Hr0 & Hr & Hlen).
      destruct (grown_lift l pt s3 F s' F' i Hi Ev Hwf1 Hg) as [Hg' Ee].
      exists F'. split_and!; [by eapply grown_trans|done| |cbn; lia]. intros Hnz. cbn [leaf_addr].
      fold i. rewrite Ee, Ev. by apply Hr.
Qed.

End walk.

(** ** [mappages] and [uvmunmap] on the abstract map *)

(** Addresses of one page have the same indices, and conversely. *)
Lemma same_page_PX va va' :
  0 ≤ va < SV39 → 0 ≤ va' < SV39 →
  va / PGSIZE = va' / PGSIZE ↔ ∀ k, 0 ≤ k ≤ 2 → PX k va = PX k va'.
Proof.
  intros Hv Hv'. split.
  - intros E k Hk. rewrite !PX_eq by lia.
    rewrite Z.pow_add_r, <-!Z.div_div by lia.
    change (2 ^ 12) with PGSIZE. by rewrite E.
  - intros E. pose proof (PX_inj va va' Hv Hv' (E 2 ltac:(lia)) (E 1 ltac:(lia)) (E 0 ltac:(lia))).
    unfold PGSIZE in *. zlia.
Qed.

(** The map [f] with [k] pages from [a] on sent to the pages from [pa] on. *)
Definition map_range (f : Z → Z) (a k pa fl : Z) (va : Z) : Z :=
  if (a <=? va) && (va <? a + k * PGSIZE)
  then Z.lor (PA2PTE (pa + (va - va mod PGSIZE - a))) fl else f va.

(** The map [f] with [k] pages from [a] on removed. *)
Definition unmap_range (f : Z → Z) (a k : Z) (va : Z) : Z :=
  if (a <=? va) && (va <? a + k * PGSIZE) then 0 else f va.

(** [s'] results from [s] by changes to the table [pt] alone, which now maps
    as [g]; the free pages went from [F] to [F']. *)
Definition remapped `{Layout} (pt : Z) (s : kst) (F : list Z) (s' : kst) (F' : list Z)
    (g : Z → Z) : Prop :=
  ∃ news, F = news ++ F' ∧ kmem_inv s' F' ∧
    ptpages 2 (mm s') pt ≡ₚ news ++ ptpages 2 (mm s) pt ∧
    frame (ptpages 2 (mm s') pt) (mm s) (mm s') ∧
    (inner_ok 2 (mm s) pt → inner_ok 2 (mm s') pt) ∧
    ∀ va, 0 ≤ va < SV39 → pteval 2 (mm s') pt va = g va.

Section mappages.
Context `{LO : LayoutOk}.

Lemma remapped_wf pt s F s' F' g :
  pt_wf 2 s pt F → remapped pt s F s' F' g → pt_wf 2 s' pt F'.
Proof.
  intros Hwf (news & -> & Hk & Hp & Hf & _). destruct Hwf as (Hk0 & Hn & Hok).
  split_and!; [done| |].
  - rewrite Hp, (Permutation_app_comm news), <-app_assoc. done.
  - rewrite Hp. apply Forall_app. split; [|done].
    destruct Hk0 as (_ & _ & _ & HF). by apply Forall_app in HF as [? _].
Qed.

Lemma remapped_trans pt s1 F1 s2 F2 s3 F3 g h :
  remapped pt s1 F1 s2 F2 g → remapped pt s2 F2 s3 F3 h → remapped pt s1 F1 s3 F3 h.
Proof.
  intros (n1 & -> & _ & Hp1 & Hf1 & Hi1 & _) (n2 & -> & Hk & Hp2 & Hf2 & Hi2 & Hv2).
  exists (n1 ++ n2). split_and!; [by rewrite app_assoc|done| | |auto|done].
  - rewrite Hp2, Hp1, !app_assoc. f_equiv. apply Permutation_app_comm.
  - eapply frame_trans; [|exact Hf2]. eapply frame_mono; [|exact Hf1].
    intros q Hq. rewrite Hp2. apply elem_of_app. by right.
Qed.

Lemma remapped_ext pt s F s' F' g h :
  remapped pt s F s' F' g → (∀ va, 0 ≤ va < SV39 → g va = h va) →
  remapped pt s F s' F' h.
Proof.
  intros (n & H1 & H2 & H3 & H4 & H5 & H6) E. exists n. split_and!; [done..|].
  intros va Hva. rewrite <-E by done. by apply H6.
Qed.

Lemma remapped_refl pt s F :
  kmem_inv s F → remapped pt s F s F (pteval 2 (mm s) pt).
Proof. intros Hk. exists []. by split_and!. Qed.

Lemma grown_remapped pt s F s' F' :
  grown 2 pt s F s' F' → remapped pt s F s' F' (pteval 2 (mm s) pt).
Proof. intros (n & H1 & H2 & H3 & H4 & H5 & H6). exists n. by split_and!. Qed.

(** Pages outside a well-formed table keep the allocator's invariant. *)
Lemma pt_wf_store s pt F r v va :
  pt_wf 2 s pt F → leaf_addr 2 (mm s) pt va = Some r →
  kmem_inv (set_mm (store64 (mm s) r v) s) F ∧
  frame (ptpages 2 (mm s) pt) (mm s) (store64 (mm s) r v).
Proof.
  intros Hwf E. pose proof (pt_wf_aligned _ _ _ _ Hwf) as Hal.
  destruct Hwf as (Hk & Hn & Hok).
  apply list.NoDup_app in Hn as (_ & Hd & _).
  apply leaf_addr_page in E as (p & Hp & ->).
  assert (frame [p] (mm s) (store64 (mm s) (p + 8 * PX 0 va) v)) as Hf
    by apply frame_store64, PX_range.
  split.
  - eapply (kmem_inv_frame s); [done|done| |done]. intros q Hq.
    eapply frame_agree; [| | |exact Hf].
    + constructor; [by apply (Forall_elem _ _ p Hal)|constructor].
    + destruct Hk as (_ & _ & _ & HF). by apply (Forall_elem _ _ q HF).
    + intros ->%list_elem_of_singleton. by eapply Hd.
  - eapply frame_mono; [|exact Hf]. by intros q ->%list_elem_of_singleton.
Qed.

(** Storing an entry for the page of [a]. *)
Lemma remapped_store s pt F r v a :
  pt_wf 2 s pt F → 0 ≤ a < SV39 → leaf_addr 2 (mm s) pt a = Some r → u64 v = v →
  remapped pt s F (set_mm (store64 (mm s) r v) s) F
    (λ va, if va / PGSIZE =? a / PGSIZE then v else pteval 2 (mm s) pt va).
Proof.
  intros Hwf Ha E Ev. destruct (pt_wf_store s pt F r v a Hwf E) as [Hk Hf].
  pose proof (λ va', pteval_store 2 (mm s) pt a r v va'
    (pt_wf_NoDup _ _ _ _ Hwf) (pt_wf_aligned _ _ _ _ Hwf) E) as Hs.
  cbv zeta in Hs. destruct (Hs 0) as (Hpp & _ & _ & _ & Hio).
  exists []. rewrite mm_set_mm, Hpp. split_and!; [done..|].
  intros va Hva. destruct (Hs va) as (_ & _ & Hy & Hn & _).
  destruct (Z.eqb_spec (va / PGSIZE) (a / PGSIZE)) as [Eq|Hne].
  - rewrite Hy; [done|]. by apply same_page_PX.
  - rewrite Hn; [done|]. intros Hk'. apply Hne. symmetry. by apply same_page_PX.
Qed.

Lemma walk_alloc pt va s F :
  pt_wf 2 s pt F → 0 ≤ va < MAXVA →
  wp (walk pt va true)
     (λ r s', ∃ F', remapped pt s F s' F' (pteval 2 (mm s) pt) ∧
        (r = 0 → F' = []) ∧ (r ≠ 0 → leaf_addr 2 (mm s') pt va = Some r) ∧
        (length F ≤ length F' + 2)%nat) s.
Proof.
  intros Hwf Hva. unfold walk. ztest.
  eapply wp_mono; [by apply walk_loop_alloc|].
  intros r s' (F' & Hg & Hr). exists F'. split; [by apply grown_remapped|done].
Qed.

Lemma walk_find pt va s :
  0 ≤ va < MAXVA → walk pt va false s = OK (default 0 (leaf_addr 2 (mm s) pt va)) s.
Proof. intros Hva. unfold walk. ztest. apply walk_loop_find. Qed.

(** The entry of a mapped address is read at a non-null address. *)
Lemma walk_find_valid pt va s F :
  pt_wf 2 s pt F → 0 ≤ va < MAXVA → pteval 2 (mm s) pt va ≠ 0 →
  ∃ r, walk pt va false s = OK r s ∧ r ≠ 0 ∧ leaf_addr 2 (mm s) pt va = Some r ∧
       load64 (mm s) r = pteval 2 (mm s) pt va.
Proof.
  intros Hwf Hva Hv. rewrite walk_find by done. unfold pteval in *.
  destruct (leaf_addr 2 (mm s) pt va) as [r|] eqn:E; [|done].
  exists r. split_and!; [done| |done|done].
  apply leaf_addr_page in E as (p & Hp & ->). destruct Hwf as (_ & _ & Hok).
  pose proof (page_ok_pos p (Forall_elem _ _ p Hok Hp)). pose proof (PX_range 0 va). lia.
Qed.

(** One turn of the loop of [mappages]. *)
Lemma map_step pt s F r v a :
  pt_wf 2 s pt F → 0 ≤ a < SV39 → a mod PGSIZE = 0 →
  leaf_addr 2 (mm s) pt a = Some r → u64 v = v →
  remapped pt s F (set_mm (store64 (mm s) r v) s) F
    (λ va, if (a <=? va) && (va <? a + PGSIZE) then v else pteval 2 (mm s) pt va).
Proof.
  intros Hwf Ha Hal E Ev. eapply remapped_ext; [by eapply remapped_store|].
  intros va Hva. cbv beta.
  replace (va / PGSIZE =? a / PGSIZE) with ((a <=? va) && (va <? a + PGSIZE)); [done|].
  apply eq_true_iff_eq. rewrite andb_true_iff, Z.leb_le, Z.ltb_lt, Z.eqb_eq.
  unfold PGSIZE in *. zlia.
Qed.

(** A turn of [mappages] after [k] of the [n] pages: either the page is
    mapped, or the allocator is out of pages. *)
Lemma mappages_turn_run pt s0 F0 s F a k n pa perm f :
  pt_wf 2 s0 pt F0 → remapped pt s0 F0 s F (map_range f a k pa (Z.lor perm PTE_V)) →
  a mod PGSIZE = 0 → 0 ≤ a → 0 ≤ k < n → a + n * PGSIZE ≤ MAXVA →
  0 ≤ pa → pa + n * PGSIZE ≤ 2 ^ 56 → 0 ≤ perm < 1024 →
  has PTE_V (f (a + k * PGSIZE)) = false →
  wp (mappages_turn pt (a + (n - 1) * PGSIZE) perm (a + k * PGSIZE, pa + k * PGSIZE))
     (λ r s', ∃ F', (length F ≤ length F' + 2)%nat ∧
        match r with
        | inr z => z = -1 ∧ F' = [] ∧
            remapped pt s0 F0 s' F' (map_range f a k pa (Z.lor perm PTE_V)) ∨
            z = 0 ∧ k = n - 1 ∧
            remapped pt s0 F0 s' F' (map_range f a n pa (Z.lor perm PTE_V))
        | inl l => l = (a + (k + 1) * PGSIZE, pa + (k + 1) * PGSIZE) ∧ k + 1 < n ∧
            remapped pt s0 F0 s' F' (map_range f a (k + 1) pa (Z.lor perm PTE_V))
        end) s.
Proof.
  intros Hwf0 Hr Hal Ha Hk Hmax Hpa Hpb Hperm Hfree.
  assert (MAXVA = 274877906944) as EM by done. assert (SV39 = 549755813888) as ES by done.
  pose proof (remapped_wf _ _ _ _ _ _ Hwf0 Hr) as Hwf.
  assert (0 ≤ a + k * PGSIZE < MAXVA) as Hak by (unfold PGSIZE in *; lia).
  unfold mappages_turn. wp_use walk_alloc; [done|done|].
  intros r s2 (F2 & Hr2 & Hr0 & Hleaf & Hlen).
  pose proof (remapped_wf _ _ _ _ _ _ Hwf Hr2) as Hwf2.
  assert (∀ x, 0 ≤ x < SV39 → pteval 2 (mm s2) pt x =
                 map_range f a k pa (Z.lor perm PTE_V) x) as Hpv.
  { intros x Hx. destruct Hr2 as (_ & _ & _ & _ & _ & _ & ->); [|done].
    by destruct Hr as (_ & _ & _ & _ & _ & _ & ->). }
  destruct (Z.eqb_spec r 0) as [->|Hnz].
  { wp_run. exists F2. split; [done|]. left. split_and!; [done|auto|].
    eapply remapped_trans; [exact Hr|]. eapply remapped_ext; [exact Hr2|].
    intros x Hx. by destruct Hr as (_ & _ & _ & _ & _ & _ & ->). }
  specialize (Hleaf Hnz). wp_run.
  assert (load64 (mm s2) r = f (a + k * PGSIZE)) as ->.
  { transitivity (pteval 2 (mm s2) pt (a + k * PGSIZE)); [by unfold pteval; rewrite Hleaf|].
    rewrite Hpv by lia. unfold map_range, PGSIZE in *. by ztest. }
  rewrite Hfree. wp_run. rewrite <-Z.lor_assoc.
  assert (0 ≤ Z.lor perm PTE_V < 1024) as Hfl by (apply (lor_bound 10); unfold PTE_V; lia).
  set (v := Z.lor (PA2PTE (pa + k * PGSIZE)) (Z.lor perm PTE_V)).
  assert (0 ≤ v < 2 ^ 54) as Hv by (apply mkpte_range; unfold PGSIZE in *; lia).
  assert (remapped pt s0 F0 (set_mm (store64 (mm s2) r v) s2) F2
    (map_range f a (k + 1) pa (Z.lor perm PTE_V))) as Hr3.
  { eapply remapped_trans; [exact Hr|]. eapply remapped_trans; [exact Hr2|].
    eapply remapped_ext; [apply (map_step pt s2 F2 r v (a + k * PGSIZE)); [done|lia|unfold PGSIZE in *; zlia|done|]|].
    - apply u64_small. lia.
    - intros x Hx. cbv beta. rewrite Hpv by done. unfold map_range.
      repeat zcase; cbn; try done; try (unfold PGSIZE in *; lia).
      unfold v. do 2 f_equal. unfold PGSIZE in *. zlia. }
  destruct (Z.eqb_spec (a + k * PGSIZE) (a + (n - 1) * PGSIZE)).
  - wp_run. assert (k + 1 = n) as Ek by (unfold PGSIZE in *; lia).
    rewrite Ek in Hr3. exists F2. split; [done|]. right. split_and!; [done|lia|done].
  - wp_run. rewrite !u64_small by (unfold PGSIZE in *; lia). exists F2. split; [done|].
    split_and!; [f_equal; lia|unfold PGSIZE in *; lia|done].
Qed.

Lemma mappages_run pt va size pa perm s F :
  let a := va - va mod PGSIZE in
  let n := (va + size - 1) / PGSIZE - va / PGSIZE + 1 in
  let f := pteval 2 (mm s) pt in
  pt_wf 2 s pt F → 0 ≤ va → 0 < size → va + size ≤ MAXVA →
  0 ≤ pa → pa + n * PGSIZE ≤ 2 ^ 56 → 0 ≤ perm < 1024 →
  (∀ x, a ≤ x < a + n * PGSIZE → has PTE_V (f x) = false) →
  wp (mappages pt va size pa perm)
     (λ r s', ∃ k F',
        remapped pt s F s' F' (map_range f a k pa (Z.lor perm PTE_V)) ∧
        ((r = 0 ∧ k = n) ∨ (r = -1 ∧ 0 ≤ k < n ∧ F' = [])) ∧
        Z.of_nat (length F) ≤ Z.of_nat (length F') + 2 * n) s.
Proof.
  intros a n f Hwf Hva Hsz Hmax Hpa Hpb Hperm Hfree.
  assert (MAXVA = 274877906944) as EM by done. assert (SV39 = 549755813888) as ES by done.
  assert (1 ≤ n ∧ a + n * PGSIZE ≤ MAXVA ∧ a mod PGSIZE = 0 ∧ 0 ≤ a) as (Hn & Han & Hal & Ha0)
    by (unfold n, a, PGSIZE in *; zlia).
  unfold mappages. rewrite (proj2 (Z.eqb_neq size 0)) by lia.
  rewrite (u64_small (va + size - 1)), !PGROUNDDOWN_eq by lia. fold a.
  replace (va + size - 1 - (va + size - 1) mod PGSIZE) with (a + (n - 1) * PGSIZE)
    by (unfold n, a, PGSIZE; zlia).
  rewrite u64_small by (unfold PGSIZE in *; lia).
  eapply (wp_loop
    (λ l s', ∃ k F', 0 ≤ k < n ∧ l = (a + k * PGSIZE, pa + k * PGSIZE) ∧
       remapped pt s F s' F' (map_range f a k pa (Z.lor perm PTE_V)) ∧
       Z.of_nat (length F) ≤ Z.of_nat (length F') + 2 * k)
    (λ l _, Z.to_nat ((a + (n - 1) * PGSIZE - l.1) / PGSIZE))).
  - cbn. unfold PGSIZE in *. zlia.
  - exists 0, F. split_and!; [lia|lia|f_equal; lia| |lia].
    eapply remapped_ext; [apply remapped_refl, Hwf|]. intros x Hx. unfold map_range.
    destruct (Z.leb_spec a x), (Z.ltb_spec x (a + 0 * PGSIZE)); try done. lia.
  - intros l s1 (k & F1 & Hk & -> & Hr1 & Hl1).
    eapply wp_mono; [eapply mappages_turn_run; try done;
      apply Hfree; unfold PGSIZE in *; lia|].
    intros [l'|z] s2 (F2 & Hl2 & H2); cbn -[Z.mul].
    + destruct H2 as (-> & Hk1 & Hr2). cbn -[Z.mul]. split; [|unfold PGSIZE; zlia].
      exists (k + 1), F2. split_and!; [lia|lia|done|done|lia].
    + destruct H2 as [(-> & -> & Hr2)|(-> & -> & Hr2)]; (do 2 eexists; split; [exact Hr2|]; split; [auto|lia]).
Qed.

End mappages.

(** The physical pages that [n] pages of virtual memory from [va] on are
    mapped to, by the map [f]. *)
Definition phys_pages (f : Z → Z) (va : Z) (n : nat) : list Z :=
  (λ i, PTE2PA (f (va + i * PGSIZE))) <$> seqZ 0 (Z.of_nat n).

(** [s'] results from [s] by removing mappings of [pt], which now maps as [g];
    the pages [frees] went to the allocator. *)
Definition unmapped `{Layout} (pt : Z) (s : kst) (F : list Z) (s' : kst) (frees : list Z)
    (g : Z → Z) : Prop :=
  pt_wf 2 s' pt (frees ++ F) ∧
  ptpages 2 (mm s') pt = ptpages 2 (mm s) pt ∧
  frame (frees ++ ptpages 2 (mm s) pt) (mm s) (mm s') ∧
  (inner_ok 2 (mm s) pt → inner_ok 2 (mm s') pt) ∧
  ∀ va, 0 ≤ va < SV39 → pteval 2 (mm s') pt va = g va.

Section uvmunmap.
Context `{LO : LayoutOk}.

Lemma phys_pages_snoc f va n :
  phys_pages f va (S n) = phys_pages f va n ++ [PTE2PA (f (va + Z.of_nat n * PGSIZE))].
Proof.
  unfold phys_pages. rewrite Nat2Z.inj_succ, <-Z.add_1_r, seqZ_app by lia.
  by rewrite fmap_app.
Qed.

Lemma phys_pages_split f va n k :
  (k < n)%nat →
  ∃ l, phys_pages f va n =
       phys_pages f va k ++ PTE2PA (f (va + Z.of_nat k * PGSIZE)) :: l.
Proof.
  intros Hk. exists (phys_pages f (va + Z.of_nat (S k) * PGSIZE) (n - S k)).
  replace n with (S k + (n - S k))%nat at 1 by lia.
  rewrite cons_middle, app_assoc, <-phys_pages_snoc.
  unfold phys_pages at 1. rewrite Nat2Z.inj_add, seqZ_app, fmap_app by lia. f_equal.
  unfold phys_pages. rewrite Z.add_0_l.
  replace (seqZ (Z.of_nat (S k)) (Z.of_nat (n - S k)))
    with (Z.add (Z.of_nat (S k)) <$> seqZ 0 (Z.of_nat (n - S k)))
    by (rewrite fmap_add_seqZ; f_equal; lia).
  rewrite <-list_fmap_compose. apply list_fmap_ext. intros _ x _. cbn.
  do 2 f_equal. lia.
Qed.

Lemma phys_pages_elem f va n q :
  q ∈ phys_pages f va n ↔
  ∃ i, q = PTE2PA (f (va + i * PGSIZE)) ∧ 0 ≤ i < Z.of_nat n.
Proof.
  unfold phys_pages. rewrite list_elem_of_fmap.
  split; intros (i & -> & Hi); exists i; (split; [done|]);
    apply elem_of_seqZ || apply elem_of_seqZ in Hi; lia.
Qed.

Lemma unmapped_refl pt s F :
  pt_wf 2 s pt F → unmapped pt s F s [] (pteval 2 (mm s) pt).
Proof. intros Hwf. by split_and!. Qed.

(** Pages outside the table may change freely. *)
Lemma pt_wf_frame pt s F s' F' ps :
  pt_wf 2 s pt F → kmem_inv s' F' → Forall aligned ps →
  (∀ q, q ∈ ps → q ∉ ptpages 2 (mm s) pt) →
  frame ps (mm s) (mm s') → NoDup (ptpages 2 (mm s) pt ++ F') →
  pt_wf 2 s' pt F' ∧ ptpages 2 (mm s') pt = ptpages 2 (mm s) pt ∧
  (∀ va, leaf_addr 2 (mm s') pt va = leaf_addr 2 (mm s) pt va) ∧
  (∀ va, pteval 2 (mm s') pt va = pteval 2 (mm s) pt va) ∧
  (inner_ok 2 (mm s) pt → inner_ok 2 (mm s') pt).
Proof.
  intros Hwf Hk' Hal Hps Hf Hn'. pose proof (pt_wf_aligned _ _ _ _ Hwf) as Hal'.
  assert (∀ q, q ∈ ptpages 2 (mm s) pt → agree (mm s) (mm s') q PGSIZE) as Hag.
  { intros q Hq. eapply frame_agree; [exact Hal|by apply (Forall_elem _ _ q Hal')| |exact Hf].
    intros Hq'. by eapply Hps. }
  assert (ptpages 2 (mm s') pt = ptpages 2 (mm s) pt) as E by by apply ptpages_agree.
  split_and!; [|done| | |].
  - destruct Hwf as (_ & _ & Hok). split_and!; [done|by rewrite E|by rewrite E].
  - intros va. by apply leaf_addr_agree.
  - intros va. by apply pteval_agree.
  - by apply inner_ok_agree.
Qed.

Lemma kfree_unmapped pt s F d :
  pt_wf 2 s pt F → page_ok d → d ∉ ptpages 2 (mm s) pt → d ∉ F →
  wp (kfree d)
     (λ _ s', pt_wf 2 s' pt (d :: F) ∧
        ptpages 2 (mm s') pt = ptpages 2 (mm s) pt ∧
        frame [d] (mm s) (mm s') ∧
        (∀ va, leaf_addr 2 (mm s') pt va = leaf_addr 2 (mm s) pt va) ∧
        (∀ va, pteval 2 (mm s') pt va = pteval 2 (mm s) pt va) ∧
        (inner_ok 2 (mm s) pt → inner_ok 2 (mm s') pt)) s.
Proof.
  intros Hwf Hd Hdp HdF. eapply wp_mono; [by apply kfree_run; [apply Hwf|..]|].
  intros [] s' [Hk Ho]. apply frame_only_page in Ho.
  destruct (pt_wf_frame pt s F s' (d :: F) [d] Hwf Hk) as (H1 & H2 & H3 & H4 & H5); try done.
  - repeat constructor. apply Hd.
  - by intros q ->%list_elem_of_singleton.
  - destruct Hwf as (_ & Hn & _).
    rewrite <-Permutation_middle. apply list.NoDup_cons. split; [|done].
    rewrite elem_of_app. naive_solver.
Qed.

(** One turn of the loop of [uvmunmap]. *)
Lemma unmap_step pt s F a (do_free : bool) r :
  let e := pteval 2 (mm s) pt a in
  let d := PTE2PA e in
  pt_wf 2 s pt F → 0 ≤ a < SV39 → a mod PGSIZE = 0 →
  leaf_addr 2 (mm s) pt a = Some r →
  (do_free = true → page_ok d ∧ d ∉ ptpages 2 (mm s) pt ∧ d ∉ F) →
  wp ((if do_free then kfree d else ret tt) ;; kstore64 r 0)
     (λ _ s', unmapped pt s F s' (if do_free then [d] else [])
                (unmap_range (pteval 2 (mm s) pt) a 1)) s.
Proof.
  intros e d Hwf Ha Hal E Hfree.
  assert (∀ s1 F1, pt_wf 2 s1 pt F1 → leaf_addr 2 (mm s1) pt a = Some r →
    remapped pt s1 F1 (set_mm (store64 (mm s1) r 0) s1) F1
      (unmap_range (pteval 2 (mm s1) pt) a 1)) as Hstore.
  { intros s1 F1 Hwf1 E1. eapply remapped_ext; [by apply map_step|].
    intros va Hva. unfold unmap_range. by rewrite Z.mul_1_l. }
  destruct do_free.
  - destruct (Hfree eq_refl) as (Hd & Hdp & HdF).
    wp_use kfree_unmapped; [done..|]. intros [] s1 (Hwf1 & Ep & Hf1 & El & Ev & Hio). wp_run.
    specialize (Hstore s1 (d :: F) Hwf1 ltac:(by rewrite El)).
    pose proof (remapped_wf _ _ _ _ _ _ Hwf1 Hstore) as Hwf2.
    pose proof (pteval_store 2 (mm s1) pt a r 0 0 (pt_wf_NoDup _ _ _ _ Hwf1)
      (pt_wf_aligned _ _ _ _ Hwf1) ltac:(by rewrite El)) as (Ep2 & _).
    destruct Hstore as (_ & _ & _ & _ & Hf2 & Hio2 & Hv2). rewrite mm_set_mm, Ep2, Ep in *.
    split_and!; [done|by rewrite mm_set_mm, Ep2| |auto|].
    + eapply frame_trans; [eapply frame_mono; [|exact Hf1]|eapply frame_mono; [|exact Hf2]].
      * intros q Hq. apply elem_of_app. by left.
      * intros q Hq. apply elem_of_app. by right.
    + intros va Hva. rewrite mm_set_mm, Hv2 by done. unfold unmap_range. by rewrite Ev.
  - wp_run. specialize (Hstore s F Hwf E).
    pose proof (remapped_wf _ _ _ _ _ _ Hwf Hstore) as Hwf2.
    pose proof (pteval_store 2 (mm s) pt a r 0 0 (pt_wf_NoDup _ _ _ _ Hwf)
      (pt_wf_aligned _ _ _ _ Hwf) E) as (Ep2 & _).
    destruct Hstore as (_ & _ & _ & _ & Hf2 & Hio2 & Hv2). rewrite mm_set_mm, Ep2 in *.
    by split_and!.
Qed.

Lemma unmapped_trans pt s1 F s2 fr1 s3 fr2 g h :
  unmapped pt s1 F s2 fr1 g → unmapped pt s2 (fr1 ++ F) s3 fr2 h →
  unmapped pt s1 F s3 (fr2 ++ fr1) h.
Proof.
  intros (Hw1 & Hp1 & Hf1 & Hi1 & Hv1) (Hw2 & Hp2 & Hf2 & Hi2 & Hv2).
  split_and!; [by rewrite <-app_assoc|by rewrite Hp2| |auto|done].
  eapply frame_trans; [eapply frame_mono; [|exact Hf1]|eapply frame_mono; [|exact Hf2]];
    intros q; rewrite ?Hp1, !elem_of_app; naive_solver.
Qed.

Lemma unmapped_ext pt s F s' fr g h :
  unmapped pt s F s' fr g → (∀ va, 0 ≤ va < SV39 → g va = h va) → unmapped pt s F s' fr h.
Proof.
  intros (H1 & H2 & H3 & H4 & H5) E. split_and!; [done..|].
  intros va Hva. rewrite <-E by done. by apply H5.
Qed.

(** A turn of [uvmunmap] after [k] of the [n] pages. *)
Lemma uvmunmap_turn_run pt va n (do_free : bool) s0 F s k f :
  let ds j := if do_free then phys_pages f va j else [] in
  unmapped pt s0 F s (reverse (ds k)) (unmap_range f va (Z.of_nat k)) →
  0 ≤ va → va mod PGSIZE = 0 → Z.of_nat k < n → va + n * PGSIZE ≤ MAXVA →
  has PTE_V (f (va + Z.of_nat k * PGSIZE)) = true →
  PTE_FLAGS (f (va + Z.of_nat k * PGSIZE)) ≠ PTE_V →
  Forall page_ok (ds (S k)) → NoDup (ds (S k) ++ ptpages 2 (mm s0) pt ++ F) →
  wp (uvmunmap_turn pt (va + n * PGSIZE) do_free (va + Z.of_nat k * PGSIZE))
     (λ r s', r = inl (va + Z.of_nat (S k) * PGSIZE) ∧
        unmapped pt s0 F s' (reverse (ds (S k))) (unmap_range f va (Z.of_nat (S k)))) s.
Proof.
  intros ds Hu Hva Hal Hkn Hmax Hv Hfl Hok Hnd.
  assert (MAXVA = 274877906944) as EM by done. assert (SV39 = 549755813888) as ES by done.
  pose proof Hu as (Hwf & Hp & Hf & _ & Hpv).
  set (a := va + Z.of_nat k * PGSIZE) in *.
  assert (0 ≤ a < MAXVA ∧ a mod PGSIZE = 0 ∧ a < va + n * PGSIZE) as (Har & Haal & Han)
    by (unfold a, PGSIZE in *; zlia).
  assert (pteval 2 (mm s) pt a = f a) as Ek.
  { rewrite Hpv by lia. unfold unmap_range, a, PGSIZE. by ztest. }
  unfold uvmunmap_turn. rewrite (proj2 (Z.ltb_lt _ _)) by done.
  destruct (walk_find_valid pt a s _ Hwf Har) as (r & Ew & Hr & El & Er).
  { rewrite Ek. intros E0. by rewrite E0, has_0 in Hv. }
  apply wp_bind. eapply wp_intro; [exact Ew|]. rewrite (proj2 (Z.eqb_neq r 0)) by done.
  wp_run. rewrite Er, Ek, Hv. cbn [negb]. rewrite (proj2 (Z.eqb_neq _ _) Hfl), <-Ek.
  apply (wp_assoc _ (λ _, kstore64 r 0)).
  eapply wp_seq; [eapply (unmap_step pt s _ a); [done|lia|done|done|]|].
  - intros ->. cbv beta iota delta [ds] in *. rewrite Ek, Hp.
    rewrite phys_pages_snoc in Hok, Hnd. fold a in Hok, Hnd.
    apply Forall_app in Hok as [_ Hok]. apply Forall_cons_1 in Hok as [Hok _].
    split; [done|]. rewrite <-app_assoc in Hnd. cbn [app] in Hnd. rewrite <-Permutation_middle in Hnd.
    apply list.NoDup_cons in Hnd as [Hnd _].
    rewrite !elem_of_app in Hnd. rewrite elem_of_app, elem_of_reverse. clear -Hnd.
    tauto.
  - intros [] s' Hu'. apply wp_ret. split.
    + rewrite u64_small; [f_equal; lia|]; unfold a, PGSIZE in *; lia.
    + eapply unmapped_ext.
      * eapply unmapped_trans in Hu'; [|exact Hu].
        replace (reverse (ds (S k))) with
          ((if do_free then [PTE2PA (pteval 2 (mm s) pt a)] else []) ++ reverse (ds k));
          [exact Hu'|].
        subst ds. destruct do_free; [|done]. cbv beta iota.
        by rewrite phys_pages_snoc, reverse_snoc, Ek.
      * intros x Hx. unfold unmap_range at 1. rewrite Hpv by done.
        unfold unmap_range, a, PGSIZE. repeat zcase; cbn; try done; lia.
Qed.

Lemma uvmunmap_run pt va n do_free s F :
  let f := pteval 2 (mm s) pt in
  let ds := if (do_free : bool) then phys_pages f va (Z.to_nat n) else [] in
  pt_wf 2 s pt F → 0 ≤ va → va mod PGSIZE = 0 → 0 ≤ n → va + n * PGSIZE ≤ MAXVA →
  (∀ i, 0 ≤ i < n → has PTE_V (f (va + i * PGSIZE)) = true ∧
                    PTE_FLAGS (f (va + i * PGSIZE)) ≠ PTE_V) →
  Forall page_ok ds → NoDup (ds ++ ptpages 2 (mm s) pt ++ F) →
  wp (uvmunmap pt va n do_free)
     (λ _ s', unmapped pt s F s' (reverse ds) (unmap_range f va n)) s.
Proof.
  intros f ds Hwf Hva Hal Hn Hmax Hmap Hok Hnd.
  assert (MAXVA = 274877906944) as EM by done. assert (SV39 = 549755813888) as ES by done.
  unfold uvmunmap. rewrite Hal. cbn [Z.eqb negb].
  rewrite (u64_small (va + n * PGSIZE)) by (unfold PGSIZE in *; lia).
  eapply (wp_loop
    (λ a s', ∃ k : nat, Z.of_nat k ≤ n ∧ a = va + Z.of_nat k * PGSIZE ∧
       unmapped pt s F s' (reverse (if do_free then phys_pages f va k else []))
         (unmap_range f va (Z.of_nat k)))
    (λ a _, Z.to_nat ((va + n * PGSIZE - a) / PGSIZE))).
  - unfold PGSIZE in *. zlia.
  - exists 0%nat. split_and!; [lia|lia|].
    assert (reverse (if do_free then phys_pages f va 0 else []) = []) as -> by by destruct do_free.
    eapply unmapped_ext; [by apply unmapped_refl|]. intros x Hx. unfold unmap_range.
    destruct (Z.leb_spec va x), (Z.ltb_spec x (va + Z.of_nat 0 * PGSIZE)); try done. lia.
  - intros a s1 (k & Hk & -> & Hu). destruct (decide (Z.of_nat k = n)) as [Ek|Hne].
    { unfold uvmunmap_turn. rewrite <-Ek, Z.ltb_irrefl. wp_run.
      subst ds. by rewrite <-Ek, Nat2Z.id. }
    destruct (Hmap (Z.of_nat k) ltac:(lia)) as [Hv Hfl].
    destruct (phys_pages_split f va (Z.to_nat n) k) as [l El]; [lia|].
    rewrite cons_middle, app_assoc, <-phys_pages_snoc in El.
    eapply wp_mono; [eapply uvmunmap_turn_run; try done; [lia| |]|].
    + subst ds. destruct do_free; [|done]. rewrite El in Hok.
      by apply Forall_app in Hok as [? _].
    + subst ds. destruct do_free; [|done]. rewrite El in Hnd.
      eapply sublist_NoDup; [exact Hnd|]. apply sublist_app; [by apply sublist_inserts_r|done].
    + intros r s2 (-> & Hu2). split; [|unfold PGSIZE in *; zlia].
      exists (S k). split_and!; [lia|done|done].
Qed.

End uvmunmap.
