(* ===== verification/Asm.v ===== *)
(** * The assembly of the kernel: trampoline.S, kernelvec.S, swtch.S, entry.S

    An interpreter for the instructions these files use, and the files as lists
    of instructions.  Loads and stores go through the page table that [satp]
    names, with the permissions of supervisor mode; in machine mode, and with
    paging off, an address is physical.  Running is [None] when an access
    faults.  The code of these files is straight-line: [h_pc] is where the last
    instruction jumps to. *)

From stdpp Require Import base gmap list strings numbers.
From S2P Require Import Prelude Machine Riscv Hart KString Kalloc Vm PageTable.

Inductive instr :=
| Sd (r : reg) (off : Z) (b : reg)
| Ld (r : reg) (off : Z) (b : reg)
| Addi (rd rs : reg) (imm : Z)
| Add (rd r1 r2 : reg)
| Mul (rd r1 r2 : reg)
| Li (rd : reg) (imm : Z)
| La (rd : reg) (addr : Z)
| Csrr (rd : reg) (c : csr)
| Csrw (c : csr) (rs : reg)
| Csrrw (rd : reg) (c : csr) (rs : reg)
| SfenceVma
| Jr (r : reg)
| Ret
| Call (f : Z)
| Sret
| Mret.

Record mach := mkMach { m_hart : hart; m_mem : mem }.
Definition set_hart (h : hart) (s : mach) : mach := mkMach h (m_mem s).
Definition set_mem (m : mem) (s : mach) : mach := mkMach (m_hart s) m.

(** ** Address translation *)

Definition satp_root (satp : Z) : Z := Z.shiftl (Z.land satp (Z.ones 44)) 12.

(** The physical address of [va], for an access that needs the permission [perm].
    Supervisor mode does not use pages of the user. *)
Definition translate (perm : Z) (h : hart) (m : mem) (va : Z) : option Z :=
  let satp := h_csr h SATP in
  if bool_decide (h_mode h = Machine) || (Z.shiftr satp 60 =? 0) then Some va
  else if Z.shiftr satp 60 =? 8 then
    let e := pteval 2 m (satp_root satp) va in
    if (0 <=? va) && (va <? MAXVA) && has PTE_V e && has perm e && negb (has PTE_U e)
    then Some (PTE2PA e + va mod PGSIZE) else None
  else None.

(** An aligned address. *)
Definition access (perm : Z) (s : mach) (va : Z) : option Z :=
  if va mod 8 =? 0 then translate perm (m_hart s) (m_mem s) va else None.

(** ** Instructions *)

Section asm.
(** The functions of C that the code calls, by their addresses. *)
Context (ccall : Z → mach → option mach).

Definition exec_instr (i : instr) (s : mach) : option mach :=
  let h := m_hart s in
  match i with
  | Sd r off b =>
      pa ← access PTE_W s (u64 (h_reg h b + off));
      Some (set_mem (store64 (m_mem s) pa (h_reg h r)) s)
  | Ld r off b =>
      pa ← access PTE_R s (u64 (h_reg h b + off));
      Some (set_hart (set_reg r (load64 (m_mem s) pa) h) s)
  | Addi rd rs imm => Some (set_hart (set_reg rd (h_reg h rs + imm) h) s)
  | Add rd r1 r2 => Some (set_hart (set_reg rd (h_reg h r1 + h_reg h r2) h) s)
  | Mul rd r1 r2 => Some (set_hart (set_reg rd (h_reg h r1 * h_reg h r2) h) s)
  | Li rd imm => Some (set_hart (set_reg rd imm h) s)
  | La rd a => Some (set_hart (set_reg rd a h) s)
  | Csrr rd c => Some (set_hart (set_reg rd (csr_read c h) h) s)
  | Csrw c rs => Some (set_hart (csr_write c (h_reg h rs) h) s)
  | Csrrw rd c rs => Some (set_hart (set_reg rd (csr_read c h) (csr_write c (h_reg h rs) h)) s)
  | SfenceVma => Some s
  | Jr r => Some (set_hart (set_pc (h_reg h r) h) s)
  | Ret => Some (set_hart (set_pc (h_reg h RA) h) s)
  | Call f => ccall f s
  | Sret => Some (set_hart (sret h) s)
  | Mret => Some (set_hart (mret h) s)
  end.

Fixpoint run (l : list instr) (s : mach) : option mach :=
  match l with [] => Some s | i :: l' => s' ← exec_instr i s; run l' s' end.

Lemma run_app l1 l2 s : run (l1 ++ l2) s = s' ← run l1 s; run l2 s'.
Proof.
  revert s. induction l1 as [|i l1 IH]; intros s; [done|]. cbn [app run].
  destruct (exec_instr i s); [|done]. apply IH.
Qed.
End asm.

(** ** trampoline.S *)

Definition uservec : list instr := [
  (* swap a0 and sscratch so that a0 is TRAPFRAME *)
  Csrrw A0 SSCRATCH A0;
  (* save the user registers in TRAPFRAME *)
  Sd RA 40 A0;
  Sd SP 48 A0;
  Sd GP 56 A0;
  Sd TP 64 A0;
  Sd T0 72 A0;
  Sd T1 80 A0;
  Sd T2 88 A0;
  Sd S0 96 A0;
  Sd S1 104 A0;
  Sd A1 120 A0;
  Sd A2 128 A0;
  Sd A3 136 A0;
  Sd A4 144 A0;
  Sd A5 152 A0;
  Sd A6 160 A0;
  Sd A7 168 A0;
  Sd S2 176 A0;
  Sd S3 184 A0;
  Sd S4 192 A0;
  Sd S5 200 A0;
  Sd S6 208 A0;
  Sd S7 216 A0;
  Sd S8 224 A0;
  Sd S9 232 A0;
  Sd S10 240 A0;
  Sd S11 248 A0;
  Sd T3 256 A0;
  Sd T4 264 A0;
  Sd T5 272 A0;
  Sd T6 280 A0;
  (* save the user a0 in p->trapframe->a0 *)
  Csrr T0 SSCRATCH;
  Sd T0 112 A0;
  (* kernel_sp, kernel_hartid, kernel_trap, kernel_satp *)
  Ld SP 8 A0;
  Ld TP 32 A0;
  Ld T0 16 A0;
  Ld T1 0 A0;
  Csrw SATP T1;
  SfenceVma;
  (* jump to usertrap(), which does not return *)
  Jr T0].

(** userret(TRAPFRAME, pagetable) *)
Definition userret : list instr := [
  (* switch to the user page table. *)
  Csrw SATP A1;
  SfenceVma;
  (* put the saved user a0 in sscratch *)
  Ld T0 112 A0;
  Csrw SSCRATCH T0;
  (* restore all but a0 from TRAPFRAME *)
  Ld RA 40 A0;
  Ld SP 48 A0;
  Ld GP 56 A0;
  Ld TP 64 A0;
  Ld T0 72 A0;
  Ld T1 80 A0;
  Ld T2 88 A0;
  Ld S0 96 A0;
  Ld S1 104 A0;
  Ld A1 120 A0;
  Ld A2 128 A0;
  Ld A3 136 A0;
  Ld A4 144 A0;
  Ld A5 152 A0;
  Ld A6 160 A0;
  Ld A7 168 A0;
  Ld S2 176 A0;
  Ld S3 184 A0;
  Ld S4 192 A0;
  Ld S5 200 A0;
  Ld S6 208 A0;
  Ld S7 216 A0;
  Ld S8 224 A0;
  Ld S9 232 A0;
  Ld S10 240 A0;
  Ld S11 248 A0;
  Ld T3 256 A0;
  Ld T4 264 A0;
  Ld T5 272 A0;
  Ld T6 280 A0;
  (* restore user a0, and save TRAPFRAME in sscratch *)
  Csrrw A0 SSCRATCH A0;
  Sret].

(** ** swtch.S *)

Definition swtch : list instr := [
  Sd RA 0 A0;
  Sd SP 8 A0;
  Sd S0 16 A0;
  Sd S1 24 A0;
  Sd S2 32 A0;
  Sd S3 40 A0;
  Sd S4 48 A0;
  Sd S5 56 A0;
  Sd S6 64 A0;
  Sd S7 72 A0;
  Sd S8 80 A0;
  Sd S9 88 A0;
  Sd S10 96 A0;
  Sd S11 104 A0;
  Ld RA 0 A1;
  Ld SP 8 A1;
  Ld S0 16 A1;
  Ld S1 24 A1;
  Ld S2 32 A1;
  Ld S3 40 A1;
  Ld S4 48 A1;
  Ld S5 56 A1;
  Ld S6 64 A1;
  Ld S7 72 A1;
  Ld S8 80 A1;
  Ld S9 88 A1;
  Ld S10 96 A1;
  Ld S11 104 A1;
  Ret].

(** ** kernelvec.S *)

Section kernelvec.
(** The address of [kerneltrap]. *)
Context (kerneltrap : Z).

Definition kernelvec : list instr := [
  (* make room to save registers. *)
  Addi SP SP (-256);
  Sd RA 0 SP;
  Sd SP 8 SP;
  Sd GP 16 SP;
  Sd TP 24 SP;
  Sd T0 32 SP;
  Sd T1 40 SP;
  Sd T2 48 SP;
  Sd S0 56 SP;
  Sd S1 64 SP;
  Sd A0 72 SP;
  Sd A1 80 SP;
  Sd A2 88 SP;
  Sd A3 96 SP;
  Sd A4 104 SP;
  Sd A5 112 SP;
  Sd A6 120 SP;
  Sd A7 128 SP;
  Sd S2 136 SP;
  Sd S3 144 SP;
  Sd S4 152 SP;
  Sd S5 160 SP;
  Sd S6 168 SP;
  Sd S7 176 SP;
  Sd S8 184 SP;
  Sd S9 192 SP;
  Sd S10 200 SP;
  Sd S11 208 SP;
  Sd T3 216 SP;
  Sd T4 224 SP;
  Sd T5 232 SP;
  Sd T6 240 SP;
  (* call the C trap handler in trap.c *)
  Call kerneltrap;
  Ld RA 0 SP;
  Ld SP 8 SP;
  Ld GP 16 SP;
  (* not tp, in case we moved CPUs *)
  Ld T0 32 SP;
  Ld T1 40 SP;
  Ld T2 48 SP;
  Ld S0 56 SP;
  Ld S1 64 SP;
  Ld A0 72 SP;
  Ld A1 80 SP;
  Ld A2 88 SP;
  Ld A3 96 SP;
  Ld A4 104 SP;
  Ld A5 112 SP;
  Ld A6 120 SP;
  Ld A7 128 SP;
  Ld S2 136 SP;
  Ld S3 144 SP;
  Ld S4 152 SP;
  Ld S5 160 SP;
  Ld S6 168 SP;
  Ld S7 176 SP;
  Ld S8 184 SP;
  Ld S9 192 SP;
  Ld S10 200 SP;
  Ld S11 208 SP;
  Ld T3 216 SP;
  Ld T4 224 SP;
  Ld T5 232 SP;
  Ld T6 240 SP;
  Addi SP SP 256;
  (* return to whatever we were doing in the kernel. *)
  Sret].
End kernelvec.

Definition timervec : list instr := [
  Csrrw A0 MSCRATCH A0;
  Sd A1 0 A0;
  Sd A2 8 A0;
  Sd A3 16 A0;
  (* schedule the next timer interrupt by adding interval to mtimecmp. *)
  Ld A1 24 A0;
  Ld A2 32 A0;
  Ld A3 0 A1;
  Add A3 A3 A2;
  Sd A3 0 A1;
  (* raise a supervisor software interrupt. *)
  Li A1 2;
  Csrw SIP A1;
  Ld A3 16 A0;
  Ld A2 8 A0;
  Ld A1 0 A0;
  Csrrw A0 MSCRATCH A0;
  Mret].

(** ** entry.S, up to the call of start *)

Definition _entry (stack0 start : Z) : list instr := [
  La SP stack0;
  Li A0 (1024 * 4);
  Csrr A1 MHARTID;
  Addi A1 A1 1;
  Mul A0 A0 A1;
  Add SP SP A0;
  Call start].
