(* ===== verification/AsmSpec.v ===== *)
(** * What the assembly of the kernel does

    Saving and restoring lists of registers through a window of memory, and with
    it the context switch ([swtch_resumes]), interrupts of the kernel
    ([kernelvec_transparent]) and the timer ([timer_tick]). *)

From stdpp Require Import base gmap list strings numbers.
From S2P Require Import Prelude Machine Riscv Hart KString Kalloc Vm PageTable Asm.

(** ** Windows of memory *)

(** A window: [n] bytes at the address [va], at [pa] in physical memory. *)
Record window := mkWin { w_va : Z; w_pa : Z; w_n : Z }.

Definition outside_of (W : list window) (x : Z) : Prop := ∀ w, w ∈ W → x < w_pa w ∨ w_pa w + w_n w ≤ x.
Definition change_in (W : list window) (m m' : mem) : Prop := ∀ x, outside_of W x → load8 m' x = load8 m x.

(** The words of the windows [W] can be read and written, whatever is in them. *)
Definition mapped (h : hart) (m : mem) (W : list window) : Prop :=
  ∀ m' w o perm, change_in W m m' → w ∈ W → 0 ≤ o → o + 8 ≤ w_n w → o mod 8 = 0 → perm = PTE_R ∨ perm = PTE_W →
    access perm (mkMach h m') (u64 (w_va w + o)) = Some (w_pa w + o).

Lemma mapped_hart h h' m W : h_mode h' = h_mode h → h_csr h' SATP = h_csr h SATP → mapped h m W → mapped h' m W.
Proof.
  intros Em Es Hm m' w o perm Hc Hw H1 H2 H3 H4. rewrite <-(Hm m' w o perm) by done. unfold access, translate. cbn [m_hart m_mem].
  by rewrite Em, Es.
Qed.

Lemma mapped_mem h m m' W : change_in W m m' → mapped h m W → mapped h m' W.
Proof.
  intros Hc Hm m2 w o perm Hc2. apply Hm. intros x Hx. by rewrite (Hc2 x Hx), (Hc x Hx).
Qed.

Lemma mapped_physical h m W :
  h_mode h = Machine ∨ h_csr h SATP = 0 → Forall (λ w, w_va w = w_pa w ∧ 0 ≤ w_va w ∧ w_va w + w_n w < 2 ^ 64 ∧ w_va w mod 8 = 0) W → mapped h m W.
Proof.
  intros Hh HW m' w o perm _ Hw H1 H2 H3 _. rewrite Forall_forall in HW. destruct (HW w) as (E & ? & ? & ?); [by apply list_elem_of_In|].
  rewrite u64_small by lia. unfold access, translate. cbn [m_hart]. rewrite (proj2 (Z.eqb_eq _ _)) by zlia.
  destruct Hh as [Hh|Hh]; [rewrite (bool_decide_true _ Hh)|rewrite Hh, orb_true_r]; cbn; by rewrite E.
Qed.

(** ** Lists of registers *)

Definition saves (b : reg) (l : list (reg * Z)) : list instr := (λ p, Sd p.1 p.2 b) <$> l.
Definition loads (b : reg) (l : list (reg * Z)) : list instr := (λ p, Ld p.1 p.2 b) <$> l.

Definition fits (n : Z) (l : list (reg * Z)) : Prop := Forall (λ p, 0 ≤ p.2 ∧ p.2 + 8 ≤ n ∧ p.2 mod 8 = 0) l ∧ NoDup l.*2.
#[global] Instance fits_dec n l : Decision (fits n l).
Proof. unfold fits. apply _. Defined.

Lemma fits_cons n p l : fits n (p :: l) → (0 ≤ p.2 ∧ p.2 + 8 ≤ n ∧ p.2 mod 8 = 0) ∧ p.2 ∉ l.*2 ∧ fits n l.
Proof. intros [[? ?]%Forall_cons_1 [? ?]%list.NoDup_cons]. done. Qed.

Lemma fits_apart n l r o r' o' : fits n l → (r, o) ∈ l → (r', o') ∈ l → o = o' ∨ o + 8 ≤ o' ∨ o' + 8 ≤ o.
Proof.
  intros [Hf _] H1 H2. rewrite Forall_forall in Hf. apply list_elem_of_In in H1, H2.
  pose proof (Hf _ H1) as (? & ? & ?). pose proof (Hf _ H2) as (? & ? & ?). cbn in *. zlia.
Qed.

Lemma fits_elem n l r o : fits n l → (r, o) ∈ l → 0 ≤ o ∧ o + 8 ≤ n.
Proof. intros [Hf _] Hin. rewrite Forall_forall in Hf. apply list_elem_of_In in Hin. pose proof (Hf _ Hin) as (? & ? & ?). done. Qed.

Section lists.
Context (cc : Z → mach → option mach).
Notation run := (run cc).

(** [m'] is [m] with the registers [R] saved in the window [w]. *)
Definition saved (w : window) (l : list (reg * Z)) (R : reg → Z) (m m' : mem) : Prop :=
  (∀ r o, (r, o) ∈ l → load64 m' (w_pa w + o) = u64 (R r)) ∧
  (∀ x, (∀ r o, (r, o) ∈ l → x < w_pa w + o ∨ w_pa w + o + 8 ≤ x) → load8 m' x = load8 m x).

Lemma saved_change W w l R m m' : w ∈ W → fits (w_n w) l → saved w l R m m' → change_in W m m'.
Proof.
  intros Hw Hf [_ Hs] x Hx. apply Hs. intros r o Hro. pose proof (fits_elem _ _ _ _ Hf Hro). destruct (Hx w Hw); lia.
Qed.

Lemma run_saves W w b l s :
  w ∈ W → mapped (m_hart s) (m_mem s) W → h_reg (m_hart s) b = w_va w → fits (w_n w) l →
  ∃ m', run (saves b l) s = Some (set_mem m' s) ∧ saved w l (h_reg (m_hart s)) (m_mem s) m'.
Proof.
  intros Hw. revert s. induction l as [|[r o] l IH]; intros s Hm Hb Hf.
  { exists (m_mem s). split; [by destruct s|]. split; [intros r o Hr; by apply elem_of_nil in Hr|done]. }
  pose proof Hf as Hf0. apply fits_cons in Hf as ((H1 & H2 & H3) & Hn & Hf). cbn in H1, H2, H3, Hn. cbn [saves fmap list_fmap Asm.run exec_instr fst snd].
  rewrite Hb. destruct s as [h m]. cbn [m_hart m_mem] in *.
  rewrite (Hm m w o PTE_W) by (try done; by right). cbn [mbind option_bind].
  set (m1 := store64 m (w_pa w + o) (h_reg h r)).
  assert (change_in W m m1) as Hc.
  { intros x Hx. apply load8_store64_out. destruct (Hx w Hw); lia. }
  destruct (IH (mkMach h m1)) as (m' & E & S1 & S2); [by eapply mapped_mem|done|done|].
  exists m'. split; [exact E|]. split.
  - intros r' o' [E'|Hin]%elem_of_cons; [injection E' as -> ->|by apply S1].
    rewrite (load64_ext m1 m'); [apply load64_store64|]. intros x Hx. apply S2. intros r2 o2 Hin.
    destruct (fits_apart _ _ r o r2 o2 Hf0) as [->|]; [by constructor|by constructor| |lia]. exfalso. apply Hn. by apply (list_elem_of_fmap_2 snd l (r2, o2)).
  - intros x Hx. cbn [m_mem] in S2. rewrite S2 by (intros r2 o2 Hin; apply (Hx r2); by constructor).
    apply load8_store64_out. apply (Hx r). by constructor.
Qed.

(** The registers [R], after those of [l] are loaded from the window [w]. *)
Definition loaded (w : window) (l : list (reg * Z)) (m : mem) (R R' : reg → Z) : Prop :=
  (∀ r o, (r, o) ∈ l → R' r = load64 m (w_pa w + o)) ∧ (∀ r, r ∉ l.*1 → R' r = R r).

Lemma run_loads W w b l s :
  w ∈ W → mapped (m_hart s) (m_mem s) W → h_reg (m_hart s) b = w_va w → fits (w_n w) l → NoDup l.*1 →
  (∀ o, (b, o) ∈ l → load64 (m_mem s) (w_pa w + o) = w_va w) →
  ∃ R', run (loads b l) s = Some (mkMach (mkHart (h_mode (m_hart s)) (h_pc (m_hart s)) R' (h_csr (m_hart s))) (m_mem s)) ∧
    loaded w l (m_mem s) (h_reg (m_hart s)) R'.
Proof.
  intros Hw. revert s. induction l as [|[r o] l IH]; intros s Hm Hb Hf Hnd Hbase.
  { exists (h_reg (m_hart s)). split; [by destruct s as [[]]|]. split; [intros r o Hr; by apply elem_of_nil in Hr|done]. }
  apply fits_cons in Hf as ((H1 & H2 & H3) & _ & Hf). apply list.NoDup_cons in Hnd as [Hn Hnd]. cbn in H1, H2, H3, Hn.
  cbn [loads fmap list_fmap Asm.run exec_instr fst snd]. rewrite Hb. destruct s as [h m]. cbn [m_hart m_mem] in *.
  rewrite (Hm m w o PTE_R) by (try done; by left). cbn [mbind option_bind set_hart m_mem].
  destruct (IH (mkMach (set_reg r (load64 m (w_pa w + o)) h) m)) as (R' & E & L1 & L2).
  - by eapply mapped_hart; [| |exact Hm].
  - cbn. case_decide as E; [|done]. rewrite u64_small by apply load64_range. apply Hbase. subst. by constructor.
  - done.
  - done.
  - cbn [m_mem]. intros o' Ho'. apply Hbase. by constructor.
  - exists R'. split; [exact E|]. split.
    + intros r' o' [E'|Hin]%elem_of_cons; [injection E' as -> ->|by apply L1]. rewrite (L2 r Hn). cbn.
      rewrite decide_True by done. apply u64_small, load64_range.
    + intros r' Hr'. cbn in Hr'. apply not_elem_of_cons in Hr' as [Hne Hr']. rewrite (L2 r' Hr'). cbn. by rewrite decide_False.
Qed.
End lists.

(** Registers hold 64 bits. *)
Definition regs_ok (R : reg → Z) : Prop := ∀ r, 0 ≤ R r < 18446744073709551616.

Lemma saved_loaded w l l' R R1 R2 m m' :
  saved w l R m m' → regs_ok R → loaded w l' m' R1 R2 → (∀ p, p ∈ l' → p ∈ l) → ∀ r, r ∈ l'.*1 → R2 r = R r.
Proof.
  intros [Hs _] HR [Hl _] Hsub r Hr. apply list_elem_of_fmap in Hr as ([r' o] & -> & Hin). cbn.
  rewrite (Hl r' o Hin), (Hs r' o (Hsub _ Hin)). apply u64_small, HR.
Qed.

(** ** The context switch *)

(** [struct context] *)
Definition ctx : list (reg * Z) :=
  [(RA, 0); (SP, 8); (S0, 16); (S1, 24); (S2, 32); (S3, 40); (S4, 48); (S5, 56); (S6, 64); (S7, 72); (S8, 80); (S9, 88); (S10, 96); (S11, 104)].

Lemma swtch_eq : swtch = saves A0 ctx ++ loads A1 ctx ++ [Ret].
Proof. reflexivity. Qed.

(** The windows [w] and [w'] do not overlap. *)
Definition disjoint_win (w w' : window) : Prop := w_pa w + w_n w ≤ w_pa w' ∨ w_pa w' + w_n w' ≤ w_pa w.

(** A call of [swtch], with the contexts [old] and [new]. *)
Definition swtch_call (s : mach) (old new : window) : Prop :=
  w_n old = 112 ∧ w_n new = 112 ∧ disjoint_win old new ∧ h_reg (m_hart s) A0 = w_va old ∧ h_reg (m_hart s) A1 = w_va new ∧
  mapped (m_hart s) (m_mem s) [old; new] ∧ regs_ok (h_reg (m_hart s)).

Lemma swtch_run cc s old new :
  swtch_call s old new →
  ∃ m' R', run cc swtch s = Some (mkMach (mkHart (h_mode (m_hart s)) (R' RA) R' (h_csr (m_hart s))) m') ∧
    saved old ctx (h_reg (m_hart s)) (m_mem s) m' ∧ loaded new ctx (m_mem s) (h_reg (m_hart s)) R'.
Proof.
  intros (No & Nn & Hd & Ha0 & Ha1 & Hm & HR). rewrite swtch_eq, !run_app.
  assert (∀ w, w_n w = 112 → fits (w_n w) ctx) as Hf by (intros w ->; apply (bool_decide_unpack _); by vm_compute).
  destruct (run_saves cc [old; new] old A0 ctx s) as (m' & E & Hs); [by constructor|done|done|by apply Hf|]. rewrite E. cbn [mbind option_bind].
  destruct (run_loads cc [old; new] new A1 ctx (set_mem m' s)) as (R' & E' & Hl).
  - by do 2 constructor.
  - eapply mapped_mem; [|exact Hm]. apply (saved_change [old; new] old ctx (h_reg (m_hart s))); [by constructor|by apply Hf|done].
  - done.
  - by apply Hf.
  - apply (bool_decide_unpack _). by vm_compute.
  - intros o Ho. exfalso. revert Ho. rewrite list_elem_of_In. cbn. intuition discriminate.
  - exists m', R'. rewrite run_app, E'. split; [reflexivity|]. split; [done|]. destruct Hl as [L1 L2]. split; [|exact L2].
    intros r o Hro. rewrite (L1 r o Hro). apply load64_ext. intros x Hx. cbn [m_mem set_mem].
    destruct Hs as [_ Hs]. apply Hs. intros r' o' Hro'.
    pose proof (fits_elem _ _ _ _ (Hf new Nn) Hro). pose proof (fits_elem _ _ _ _ (Hf old No) Hro'). unfold disjoint_win in Hd. lia.
Qed.

(** C27. A thread that calls [swtch(old, new)] continues as the thread whose context
    is in [new]; when some other thread later calls [swtch(other, old)] and nobody
    has written to [old] in between, the first thread returns from its call of
    [swtch] with the return address, the stack pointer and the callee-saved
    registers that it had. *)
Theorem swtch_resumes cc s old new :
  swtch_call s old new →
  ∃ s1, run cc swtch s = Some s1 ∧ h_pc (m_hart s1) = load64 (m_mem s) (w_pa new) ∧
    (∀ r o, (r, o) ∈ ctx → h_reg (m_hart s1) r = load64 (m_mem s) (w_pa new + o)) ∧
    ∀ s2 other, swtch_call s2 other old → agree (m_mem s1) (m_mem s2) (w_pa old) 112 →
      ∃ s3, run cc swtch s2 = Some s3 ∧ h_pc (m_hart s3) = h_reg (m_hart s) RA ∧
        ∀ r, r ∈ ctx.*1 → h_reg (m_hart s3) r = h_reg (m_hart s) r.
Proof.
  intros Hc. destruct (swtch_run cc s old new Hc) as (m1 & R1 & E1 & Hs1 & Hl1). eexists. split; [exact E1|]. cbn [m_hart h_pc h_reg m_mem].
  destruct Hl1 as [L1 L1']. split; [rewrite (L1 RA 0) by (rewrite list_elem_of_In; cbn; tauto); f_equal; lia|]. split; [exact L1|].
  intros s2 other Hc2 Ha. destruct (swtch_run cc s2 other old Hc2) as (m3 & R3 & E3 & _ & Hl3). eexists. split; [exact E3|]. cbn [m_hart h_pc h_reg].
  assert (loaded old ctx m1 (h_reg (m_hart s2)) R3) as Hl.
  { destruct Hl3 as [H1 H2]. split; [|done]. intros r o Hro. rewrite (H1 r o Hro). apply load64_ext. intros x Hx. apply Ha.
    assert (fits 112 ctx) as Hf by (apply (bool_decide_unpack _); by vm_compute). pose proof (fits_elem _ _ _ _ Hf Hro). lia. }
  destruct Hc as (_ & _ & _ & _ & _ & _ & HR).
  assert (∀ r, r ∈ ctx.*1 → R3 r = h_reg (m_hart s) r) as Hall by (by eapply saved_loaded). split; [|exact Hall].
  apply Hall. rewrite list_elem_of_In. cbn. tauto.
Qed.

(** ** Interrupts of the kernel *)

(** The frame of [kernelvec] on the stack. *)
Definition kregs : list (reg * Z) :=
  [(RA, 0); (SP, 8); (GP, 16); (TP, 24); (T0, 32); (T1, 40); (T2, 48); (S0, 56); (S1, 64); (A0, 72); (A1, 80); (A2, 88); (A3, 96);
   (A4, 104); (A5, 112); (A6, 120); (A7, 128); (S2, 136); (S3, 144); (S4, 152); (S5, 160); (S6, 168); (S7, 176); (S8, 184); (S9, 192);
   (S10, 200); (S11, 208); (T3, 216); (T4, 224); (T5, 232); (T6, 240)].
Definition kregs_back : list (reg * Z) := filter (λ p, p.1 ≠ TP) kregs.

Lemma kernelvec_eq kt : kernelvec kt = Addi SP SP (-256) :: saves SP kregs ++ Call kt :: loads SP kregs_back ++ [Addi SP SP 256; Sret].
Proof. reflexivity. Qed.

(** What [kernelvec] needs of [kerneltrap]: the convention of C for the stack, and
    [sepc] and [sstatus] as they were. *)
Definition kerneltrap_returns (cc : Z → mach → option mach) (kt : Z) (w : window) (s : mach) : Prop :=
  ∃ s', cc kt s = Some s' ∧ h_reg (m_hart s') SP = h_reg (m_hart s) SP ∧ h_mode (m_hart s') = h_mode (m_hart s) ∧
    agree (m_mem s) (m_mem s') (w_pa w) (w_n w) ∧ mapped (m_hart s') (m_mem s') [w] ∧
    h_csr (m_hart s') SEPC = h_csr (m_hart s) SEPC ∧ csr_read SSTATUS (m_hart s') = csr_read SSTATUS (m_hart s).

Lemma land_testbit a b x k : Z.land a x = Z.land b x → Z.testbit x k = true → Z.testbit a k = Z.testbit b k.
Proof. intros E Hx. apply (f_equal (λ y, Z.testbit y k)) in E. rewrite !Z.land_spec, Hx, !andb_true_r in E. done. Qed.

(** C28. An interrupt or exception that arrives while the kernel runs is transparent
    to the interrupted code: [kernelvec] saves the registers below its stack
    pointer, and when [kerneltrap] returns, the hart continues at the interrupted
    instruction, in supervisor mode, with interrupts on if they were, and with
    every register as it was except tp, which is that of the hart the code now
    runs on. *)
Theorem kernelvec_transparent cc kt h m w cause tval :
  h_mode h = Supervisor → regs_ok (h_reg h) → 0 ≤ h_pc h < 18446744073709551616 →
  w_va w = h_reg h SP - 256 → w_n w = 256 → 0 ≤ w_va w → mapped (strap cause tval h) m [w] →
  (∀ s, h_mode (m_hart s) = Supervisor → h_csr (m_hart s) = h_csr (strap cause tval h) → h_reg (m_hart s) SP = w_va w →
    kerneltrap_returns cc kt w s) →
  ∃ s', run cc (kernelvec kt) (mkMach (strap cause tval h) m) = Some s' ∧
    h_mode (m_hart s') = Supervisor ∧ h_pc (m_hart s') = h_pc h ∧
    Z.testbit (h_csr (m_hart s') MSTATUS) 1 = Z.testbit (h_csr h MSTATUS) 1 ∧
    ∀ r, r ≠ TP → h_reg (m_hart s') r = h_reg h r.
Proof.
  intros Hmode HR Hpc Hva Hn H0 Hmap Hkt. rewrite kernelvec_eq. cbn [run exec_instr mbind option_bind m_hart].
  pose proof (HR SP) as Hsp.
  set (h1 := set_reg SP (h_reg (strap cause tval h) SP + -256) (strap cause tval h)).
  assert (h_reg h1 SP = w_va w) as E1 by (change (u64 (h_reg h SP + -256) = w_va w); rewrite u64_small by lia; lia).
  assert (regs_ok (h_reg h1)) as HR1.
  { intros r. cbn. case_decide; [apply u64_range|apply HR]. }
  assert (fits (w_n w) kregs) as Hf by (rewrite Hn; apply (bool_decide_unpack _); by vm_compute).
  assert (fits (w_n w) kregs_back) as Hf' by (rewrite Hn; apply (bool_decide_unpack _); by vm_compute).
  rewrite run_app. destruct (run_saves cc [w] w SP kregs (mkMach h1 m)) as (m1 & E & Hs); [by constructor| |done|done|].
  { by eapply mapped_hart; [| |exact Hmap]. }
  change (set_hart h1 (mkMach (strap cause tval h) m)) with (mkMach h1 m). rewrite E. cbn [mbind option_bind run exec_instr].
  destruct (Hkt (mkMach h1 m1)) as (s2 & E2 & K1 & K2 & K3 & K4 & K5 & K6); [done|done|done|]. change (set_mem m1 (mkMach h1 m)) with (mkMach h1 m1). rewrite E2. cbn [mbind option_bind].
  cbn [m_hart m_mem] in *. rewrite run_app.
  assert (∀ r o, (r, o) ∈ kregs → load64 (m_mem s2) (w_pa w + o) = h_reg h1 r) as Hback.
  { intros r o Hro. rewrite <-(u64_small _ (HR1 r)). rewrite <-(proj1 Hs r o Hro). apply load64_ext. intros x Hx. apply K3.
    pose proof (fits_elem _ _ _ _ Hf Hro). lia. }
  destruct (run_loads cc [w] w SP kregs_back s2) as (R' & E3 & L1 & L2); [by constructor|done|congruence|done| | |].
  { apply (bool_decide_unpack _). by vm_compute. }
  { intros o Ho. rewrite (Hback SP); [done|]. unfold kregs_back in Ho. by apply list_elem_of_filter in Ho as [_ ?]. }
  rewrite E3. cbn [mbind option_bind run exec_instr]. eexists. split; [reflexivity|].
  assert (∀ r, r ≠ TP → R' r = h_reg h1 r) as HR'.
  { intros r Hr. assert (∃ o, (r, o) ∈ kregs) as [o Ho].
    { assert (r ∈ kregs.*1) as ([r' o] & -> & Ho)%list_elem_of_fmap by (destruct r; apply (bool_decide_unpack _); by vm_compute). by exists o. }
    rewrite (L1 r o); [by apply Hback|]. unfold kregs_back. apply list_elem_of_filter. done. }
  assert (∀ k, Z.testbit SSTATUS_MASK k = true → Z.testbit (h_csr (m_hart s2) MSTATUS) k = Z.testbit (h_csr h1 MSTATUS) k) as Hst.
  { intros k Hk. by eapply land_testbit. }
  cbn [m_hart set_hart]. rewrite sret_mstatus by lia. change (h_csr h1) with (h_csr (strap cause tval h)) in Hst.
  unfold sret. cbn [set_pc set_mode set_csr h_mode h_pc h_csr h_reg set_reg]. split_and!.
  - rewrite Hst, strap_mstatus by done. by rewrite Hmode.
  - rewrite K5. change (u64 (h_pc h) = h_pc h). apply u64_small. lia.
  - rewrite !bool_decide_false by lia. rewrite bool_decide_true by done. by rewrite Hst, strap_mstatus.
  - intros r Hr. case_decide as E4; [|rewrite HR' by done; cbn; by rewrite decide_False].
    subst. rewrite HR', E1 by done. rewrite u64_small by lia. lia.
Qed.

(** ** The timer *)

Lemma reg_set h r x r' : h_reg (set_reg r x h) r' = if decide (r' = r) then u64 x else h_reg h r'.
Proof. done. Qed.

Lemma sd_physical cc r off b h m a :
  h_mode h = Machine → h_reg h b + off = a → 0 ≤ a < 18446744073709551616 → a mod 8 = 0 →
  exec_instr cc (Sd r off b) (mkMach h m) = Some (mkMach h (store64 m a (h_reg h r))).
Proof.
  intros Hm <- Ha Hal. cbn [exec_instr m_hart]. rewrite u64_small by done. unfold access. rewrite Hal. cbn [m_hart Z.eqb].
  unfold translate. by rewrite (bool_decide_true _ Hm).
Qed.

Lemma ld_physical cc r off b h m a :
  h_mode h = Machine → h_reg h b + off = a → 0 ≤ a < 18446744073709551616 → a mod 8 = 0 →
  exec_instr cc (Ld r off b) (mkMach h m) = Some (mkMach (set_reg r (load64 m a) h) m).
Proof.
  intros Hm <- Ha Hal. cbn [exec_instr m_hart]. rewrite u64_small by done. unfold access. rewrite Hal. cbn [m_hart Z.eqb].
  unfold translate. by rewrite (bool_decide_true _ Hm).
Qed.

(** [timer_scratch] of the hart is at [sc], its MTIMECMP register at [cmp]. *)
Record timer_ok (h : hart) (m : mem) (sc cmp interval : Z) : Prop := mkTimerOk {
  tm_scratch : h_csr h MSCRATCH = sc;
  tm_sc : 0 ≤ sc ∧ sc + 40 < 18446744073709551616 ∧ sc mod 8 = 0;
  tm_cmp : 0 ≤ cmp ∧ cmp + 8 < 18446744073709551616 ∧ cmp mod 8 = 0;
  tm_apart : cmp + 8 ≤ sc ∨ sc + 40 ≤ cmp;
  tm_cmp_at : load64 m (sc + 24) = cmp;
  tm_interval : load64 m (sc + 32) = interval;
}.

(** The code between the two swaps of a0 and mscratch: with a0 at the scratch area,
    the other registers are as before, and the memory has the new deadline. *)
Lemma timer_body cc h0 h m sc cmp interval :
  timer_ok h0 m sc cmp interval → h_mode h = Machine → h_reg h A0 = sc → regs_ok (h_reg h) →
  ∃ m' R', run cc [Sd A1 0 A0; Sd A2 8 A0; Sd A3 16 A0; Ld A1 24 A0; Ld A2 32 A0; Ld A3 0 A1; Add A3 A3 A2; Sd A3 0 A1] (mkMach h m) =
      Some (mkMach (mkHart Machine (h_pc h) R' (h_csr h)) m') ∧
    (∀ r, r ≠ A1 → r ≠ A2 → r ≠ A3 → R' r = h_reg h r) ∧
    load64 m' sc = h_reg h A1 ∧ load64 m' (sc + 8) = h_reg h A2 ∧ load64 m' (sc + 16) = h_reg h A3 ∧
    load64 m' cmp = u64 (load64 m cmp + interval) ∧
    ∀ x, x < sc ∨ sc + 24 ≤ x → x < cmp ∨ cmp + 8 ≤ x → load8 m' x = load8 m x.
Proof.
  intros [_ (S1 & S2 & S3) (C1 & C2 & C3) Hap Hcmp Hint] Hm HA0 HR.
  set (m3 := store64 (store64 (store64 m sc (h_reg h A1)) (sc + 8) (h_reg h A2)) (sc + 16) (h_reg h A3)).
  assert (∀ a, sc + 24 ≤ a ∨ a + 8 ≤ sc → load64 m3 a = load64 m a) as Hm3.
  { intros a Ha. unfold m3. rewrite !load64_store64_out by lia. done. }
  assert (∀ x, x < sc ∨ sc + 24 ≤ x → load8 m3 x = load8 m x) as Hm3'.
  { intros x Hx. unfold m3. rewrite !load8_store64_out by lia. done. }
  cbn [run]. do 3 (erewrite sd_physical; [|done|reflexivity|zlia|zlia]; cbn [mbind option_bind]). rewrite HA0, Z.add_0_r. fold m3.
  erewrite ld_physical; [|done|reflexivity|rewrite HA0; zlia|rewrite HA0; zlia]. cbn [mbind option_bind]. rewrite HA0, Hm3 by lia. rewrite Hcmp.
  set (h1 := set_reg A1 cmp h). assert (h_reg h1 A1 = cmp) as E1 by (unfold h1; rewrite reg_set, decide_True by done; apply u64_small; lia).
  erewrite ld_physical; [|done|reflexivity|unfold h1; rewrite reg_set, decide_False, HA0 by done; zlia|unfold h1; rewrite reg_set, decide_False, HA0 by done; zlia].
  cbn [mbind option_bind]. replace (h_reg h1 A0) with sc by (unfold h1; rewrite reg_set, decide_False by done; done). rewrite Hm3, Hint by lia.
  set (h2 := set_reg A2 interval h1). assert (h_reg h2 A1 = cmp) as E2 by (unfold h2; rewrite reg_set, decide_False by done; done).
  erewrite ld_physical; [|done|reflexivity|rewrite E2; zlia|rewrite E2; zlia]. cbn [mbind option_bind]. rewrite E2, Z.add_0_r, Hm3 by lia.
  match goal with |- context [exec_instr cc (Add A3 A3 A2) ?s] =>
    change (exec_instr cc (Add A3 A3 A2) s) with (Some (set_hart (set_reg A3 (h_reg (m_hart s) A3 + h_reg (m_hart s) A2) (m_hart s)) s)) end.
  cbn [mbind option_bind m_hart m_mem]. set (h3 := set_reg A3 _ (set_reg A3 _ h2)).
  change (set_hart h3 _) with (mkMach h3 m3).
  assert (h_reg h3 A1 = cmp) as E3 by (unfold h3; rewrite !reg_set, !(decide_False (P := A1 = A3)) by done; done).
  assert (h_reg h3 A3 = u64 (load64 m cmp + interval)) as E4.
  { unfold h3. rewrite !reg_set, !(decide_True (P := A3 = A3)), (decide_False (P := A2 = A3)) by done. unfold h2. rewrite reg_set, decide_True by done.
    rewrite <-Hint. rewrite (u64_small (load64 m cmp)), (u64_small (load64 m (sc + 32))) by apply load64_range. done. }
  erewrite sd_physical; [|done|reflexivity|rewrite E3; zlia|rewrite E3; zlia]. rewrite E3, Z.add_0_r, E4.
  exists (store64 m3 cmp (u64 (load64 m cmp + interval))), (h_reg h3). split; [rewrite <-Hm; reflexivity|]. split_and!.
  - intros r H1 H2 H3. unfold h3, h2, h1. rewrite !reg_set, !decide_False by done. done.
  - rewrite load64_store64_out by lia. unfold m3. rewrite !load64_store64_out, load64_store64 by lia. apply u64_small, HR.
  - rewrite load64_store64_out by lia. unfold m3. rewrite load64_store64_out, load64_store64 by lia. apply u64_small, HR.
  - rewrite load64_store64_out by lia. unfold m3. rewrite load64_store64. apply u64_small, HR.
  - rewrite load64_store64. apply u64_small, u64_range.
  - intros x H1 H2. rewrite load8_store64_out by lia. by apply Hm3'.
Qed.

(** The hart as an interrupt of the timer finds it, and after [timervec]. *)
Record ticked (h h' : hart) (m m' : mem) (sc cmp interval : Z) : Prop := mkTicked {
  tk_mode : h_mode h' = h_mode h;
  tk_pc : h_pc h' = h_pc h;
  tk_reg : ∀ r, h_reg h' r = h_reg h r;
  tk_csr : ∀ c, c ≠ MSTATUS → c ≠ MEPC → c ≠ MIP → h_csr h' c = h_csr h c;
  tk_status : ∀ k, 0 ≤ k < 64 → k ≠ 7 → k ≠ 11 → k ≠ 12 → Z.testbit (h_csr h' MSTATUS) k = Z.testbit (h_csr h MSTATUS) k;
  tk_pending : Z.testbit (h_csr h MIDELEG) 1 = true → Z.testbit (h_csr h' MIP) 1 = true;
  tk_cmp : load64 m' cmp = u64 (load64 m cmp + interval);
  tk_mem : ∀ x, x < sc ∨ sc + 24 ≤ x → x < cmp ∨ cmp + 8 ≤ x → load8 m' x = load8 m x;
}.

Lemma mtrap_mstatus h k :
  0 ≤ k < 64 → Z.testbit (h_csr (mtrap h) MSTATUS) k =
    if bool_decide (k = 3) then false else if bool_decide (k = 7) then Z.testbit (h_csr h MSTATUS) 3
    else if bool_decide (k = 12) then Z.testbit (mode_bits (h_mode h)) 1
    else if bool_decide (k = 11) then Z.testbit (mode_bits (h_mode h)) 0 else Z.testbit (h_csr h MSTATUS) k.
Proof.
  intros Hk. unfold mtrap. cbn [set_pc set_mode h_csr set_csr]. rewrite decide_True by done.
  rewrite u64_testbit, status_testbit by (lia || (repeat constructor; done)). reflexivity.
Qed.

Lemma mret_mstatus h k :
  0 ≤ k < 64 → Z.testbit (h_csr (mret h) MSTATUS) k =
    if bool_decide (k = 12) then false else if bool_decide (k = 11) then false else if bool_decide (k = 7) then true
    else if bool_decide (k = 3) then Z.testbit (h_csr h MSTATUS) 7 else Z.testbit (h_csr h MSTATUS) k.
Proof.
  intros Hk. unfold mret. cbn [set_pc set_mode h_csr set_csr]. rewrite decide_True by done.
  rewrite u64_testbit, status_testbit by (lia || (repeat constructor; done)). reflexivity.
Qed.

Lemma run_step cc i l s s' : exec_instr cc i s = Some s' → run cc (i :: l) s = run cc l s'.
Proof. intros E. cbn [run]. by rewrite E. Qed.

Lemma csr_set h c x c' : h_csr (set_csr c x h) c' = if decide (c' = c) then u64 x else h_csr h c'.
Proof. done. Qed.

(** C29. An interrupt of the timer, in any mode, is invisible to the code it
    interrupts: [timervec] returns to the interrupted instruction in the same mode,
    with all registers, the interrupt enable bits and all control registers but
    [mepc] and [mip] as they were.  It moves the next deadline, MTIMECMP, by the
    interval, leaves a software interrupt pending for [devintr], and writes nothing
    else but its own scratch area, which stays ready for the next interrupt. *)
Theorem timer_tick cc h m sc cmp interval :
  timer_ok h m sc cmp interval → regs_ok (h_reg h) → 0 ≤ h_pc h < 18446744073709551616 →
  ∃ h' m', run cc timervec (mkMach (mtrap h) m) = Some (mkMach h' m') ∧ ticked h h' m m' sc cmp interval ∧ timer_ok h' m' sc cmp interval.
Proof.
  intros Hok HR Hpc. pose proof Hok as [Esc (S1 & S2 & S3) (C1 & C2 & C3) Hap Hcmp Hint].
  set (h1 := set_reg A0 sc (set_csr MSCRATCH (h_reg h A0) (mtrap h))).
  assert (exec_instr cc (Csrrw A0 MSCRATCH A0) (mkMach (mtrap h) m) = Some (mkMach h1 m)) as E0 by (unfold h1; rewrite <-Esc; reflexivity).
  destruct (timer_body cc h h1 m sc cmp interval) as (m' & R & E & HRo & M1 & M2 & M3 & M4 & M5); [done|done|exact (u64_small sc ltac:(lia))| |].
  { intros r. unfold h1. rewrite reg_set. case_decide; [apply u64_range|apply HR]. }
  change timervec with (Csrrw A0 MSCRATCH A0 :: [Sd A1 0 A0; Sd A2 8 A0; Sd A3 16 A0; Ld A1 24 A0; Ld A2 32 A0; Ld A3 0 A1; Add A3 A3 A2; Sd A3 0 A1] ++
    [Li A1 2; Csrw SIP A1; Ld A3 16 A0; Ld A2 8 A0; Ld A1 0 A0; Csrrw A0 MSCRATCH A0; Mret]).
  rewrite (run_step _ _ _ _ _ E0), run_app, E. cbn [mbind option_bind].
  assert (R A0 = sc) as EA0 by (rewrite HRo by done; exact (u64_small sc ltac:(lia))).
  set (h2 := set_csr MIP (masked (Z.land 2 (h_csr h1 MIDELEG)) (h_csr h1 MIP) 2) (set_reg A1 2 (mkHart Machine (h_pc h1) R (h_csr h1)))).
  rewrite (run_step cc (Li A1 2) _ _ (mkMach (set_reg A1 2 (mkHart Machine (h_pc h1) R (h_csr h1))) m')) by reflexivity.
  rewrite (run_step cc (Csrw SIP A1) _ _ (mkMach h2 m')) by reflexivity.
  set (h3 := set_reg A1 (h_reg h A1) (set_reg A2 (h_reg h A2) (set_reg A3 (h_reg h A3) h2))).
  assert (∀ l, run cc (Ld A3 16 A0 :: Ld A2 8 A0 :: Ld A1 0 A0 :: l) (mkMach h2 m') = run cc l (mkMach h3 m')) as E3.
  { intros l. assert (∀ h', h_mode h' = Machine → h_reg h' A0 = sc → ∀ r o l, 0 ≤ o ≤ 16 → o mod 8 = 0 →
      run cc (Ld r o A0 :: l) (mkMach h' m') = run cc l (mkMach (set_reg r (load64 m' (sc + o)) h') m')) as Hld.
    { intros h' H1 H2 r o l' Ho Hal. apply run_step. apply ld_physical; [done|by rewrite H2|lia|zlia]. }
    rewrite Hld, M3 by (done || lia). rewrite Hld, M2 by (done || lia). rewrite Hld, Z.add_0_r, M1 by (done || lia). reflexivity. }
  rewrite E3. set (h4 := set_reg A0 (h_reg h A0) (set_csr MSCRATCH sc h3)).
  assert (exec_instr cc (Csrrw A0 MSCRATCH A0) (mkMach h3 m') = Some (mkMach h4 m')) as E4.
  { change (Some (mkMach (set_reg A0 (u64 (h_reg h A0)) (set_csr MSCRATCH (R A0) h3)) m') = Some (mkMach h4 m')).
    rewrite EA0, (u64_small _ (HR A0)). reflexivity. }
  rewrite (run_step _ _ _ _ _ E4). exists (mret h4), m'. split; [reflexivity|].
  assert (∀ c, c ≠ MSTATUS → c ≠ MEPC → c ≠ MIP → h_csr (mret h4) c = h_csr h c) as Hcsr.
  { intros c H1 H2 H3. destruct (decide (c = MSCRATCH)) as [->|Hne]; [rewrite Esc; exact (u64_small sc ltac:(lia))|].
    destruct c; first [done | congruence]. }
  split; [split|].
  - change (h_mode (mret h4)) with (if Z.testbit (h_csr (mtrap h) MSTATUS) 12 then Machine else if Z.testbit (h_csr (mtrap h) MSTATUS) 11 then Supervisor else User).
    rewrite !mtrap_mstatus by lia. by destruct (h_mode h).
  - exact (u64_small _ Hpc).
  - intros r. change (h_reg (mret h4) r) with (h_reg (set_reg A0 (h_reg h A0) (set_reg A1 (h_reg h A1) (set_reg A2 (h_reg h A2)
      (set_reg A3 (h_reg h A3) (set_reg A1 2 (mkHart Machine (h_pc h1) R (h_csr h1))))))) r). rewrite !reg_set.
    repeat case_decide; subst; try (apply u64_small, HR). cbn [h_reg]. rewrite HRo by done. unfold h1. by rewrite reg_set, decide_False.
  - exact Hcsr.
  - intros k Hk H7 H11 H12. rewrite mret_mstatus by done. change (h_csr h4 MSTATUS) with (h_csr (mtrap h) MSTATUS). rewrite !mtrap_mstatus by (done || lia).
    rewrite !(bool_decide_false (k = 7)), !(bool_decide_false (k = 11)), !(bool_decide_false (k = 12)) by done. case_bool_decide; by subst.
  - intros Hd. change (h_csr (mret h4) MIP) with (u64 (masked (Z.land 2 (h_csr h MIDELEG)) (h_csr h MIP) 2)). rewrite u64_testbit, masked_testbit by lia.
    by rewrite Z.land_spec, Hd.
  - done.
  - exact M5.
  - split; try done.
    + by rewrite Hcsr.
    + rewrite (load64_ext m m'); [done|]. intros x Hx. apply M5; lia.
    + rewrite (load64_ext m m'); [done|]. intros x Hx. apply M5; lia.
Qed.

(** ** A hart, with paging off *)

Definition ex_hart (R : reg → Z) : hart := mkHart Supervisor 2147484000 R (λ c, match c with MSCRATCH => 2147487744 | MIDELEG => 65535 | MSTATUS => 2 | _ => 0 end).
Definition ex_reg (a0 a1 : Z) (r : reg) : Z := match r with A0 => a0 | A1 => a1 | SP => 2147491840 | RA => 2147483656 | S1 => 77 | _ => 5 end.
Definition ex_win (a n : Z) : window := mkWin a a n.

Lemma ex_regs_ok a0 a1 : 0 ≤ a0 < 18446744073709551616 → 0 ≤ a1 < 18446744073709551616 → regs_ok (ex_reg a0 a1).
Proof. intros H0 H1 r. destruct r; cbn; lia. Qed.

Lemma ex_swtch_call a b m R :
  0 ≤ a → a + 112 < 18446744073709551616 → a mod 8 = 0 → 0 ≤ b → b + 112 < 18446744073709551616 → b mod 8 = 0 → a + 112 ≤ b ∨ b + 112 ≤ a →
  R A0 = a → R A1 = b → regs_ok R → swtch_call (mkMach (ex_hart R) m) (ex_win a 112) (ex_win b 112).
Proof.
  intros. unfold swtch_call, ex_win, disjoint_win. cbn [w_n w_pa w_va m_hart m_mem ex_hart h_reg]. split_and!; try done.
  apply mapped_physical; [by right|]. repeat constructor; cbn; lia.
Qed.

(** The scheduler's context is at 0x80010000, that of a process at 0x80020000. *)
Lemma swtch_resumes_witness :
  ∃ s1 s3, run (λ _ _, None) swtch (mkMach (ex_hart (ex_reg 2147614720 2147549184)) ∅) = Some s1 ∧
    run (λ _ _, None) swtch (mkMach (ex_hart (ex_reg 2147549184 2147614720)) (m_mem s1)) = Some s3 ∧ h_pc (m_hart s3) = 2147483656 ∧ h_reg (m_hart s3) S1 = 77.
Proof.
  destruct (swtch_resumes (λ _ _, None) (mkMach (ex_hart (ex_reg 2147614720 2147549184)) ∅) (ex_win 2147614720 112) (ex_win 2147549184 112)) as (s1 & E1 & _ & _ & H).
  { apply ex_swtch_call; (apply ex_regs_ok; lia) || (cbn; lia) || done. }
  destruct (H (mkMach (ex_hart (ex_reg 2147549184 2147614720)) (m_mem s1)) (ex_win 2147549184 112)) as (s3 & E3 & Hpc & Hr).
  { apply ex_swtch_call; (apply ex_regs_ok; lia) || (cbn; lia) || done. }
  { intros x _. reflexivity. }
  exists s1, s3. split; [exact E1|]. split; [exact E3|]. split; [exact Hpc|]. rewrite (Hr S1); [done|]. rewrite list_elem_of_In. cbn. tauto.
Defined.

(** An interrupt whose handler does nothing. *)
Lemma kernelvec_transparent_witness :
  ∃ s', run (λ _ s, Some s) (kernelvec 2147484160) (mkMach (strap 9223372036854775817 0 (ex_hart (ex_reg 1 2))) ∅) = Some s' ∧
    h_pc (m_hart s') = 2147484000 ∧ h_reg (m_hart s') A0 = 1.
Proof.
  assert (∀ h m, h_csr h SATP = 0 → mapped h m [ex_win 2147491584 256]) as Hm.
  { intros h m Hh. apply mapped_physical; [by right|]. repeat constructor; cbn; lia. }
  destruct (kernelvec_transparent (λ _ s, Some s) 2147484160 (ex_hart (ex_reg 1 2)) ∅ (ex_win 2147491584 256) 9223372036854775817 0) as (s' & E & _ & Hpc & _ & Hr).
  - done.
  - apply ex_regs_ok; lia.
  - cbn. lia.
  - done.
  - done.
  - done.
  - by apply Hm.
  - intros s H1 H2 H3. exists s. split_and!; try done. apply Hm. by rewrite H2.
  - exists s'. split; [exact E|]. split; [exact Hpc|]. by rewrite Hr.
Defined.

Lemma timer_tick_witness :
  ∃ h' m', run (λ _ _, None) timervec (mkMach (mtrap (ex_hart (ex_reg 1 2))) (store64 (store64 ∅ 2147487768 33570816) 2147487776 1000000)) = Some (mkMach h' m') ∧
    h_reg h' A1 = 2 ∧ load64 m' 33570816 = 1000000.
Proof.
  destruct (timer_tick (λ _ _, None) (ex_hart (ex_reg 1 2)) (store64 (store64 ∅ 2147487768 33570816) 2147487776 1000000) 2147487744 33570816 1000000) as (h' & m' & E & Ht & _).
  - split; try done. left. lia.
  - apply ex_regs_ok; lia.
  - cbn. lia.
  - exists h', m'. split; [exact E|]. split; [by rewrite (tk_reg _ _ _ _ _ _ _ Ht)|]. rewrite (tk_cmp _ _ _ _ _ _ _ Ht). by vm_compute.
Defined.
