(* ===== verification/Start.v ===== *)
(** * From reset to main: kernel/start.c and kernel/entry.S

    [start] and [timerinit] on the machine of [Asm], with the memory-mapped
    registers of the CLINT in its memory, and the theorem that a hart reaches
    [main] in supervisor mode with its timer running. *)

From stdpp Require Import base gmap list strings numbers.
From S2P Require Import Prelude Machine Riscv Hart KString Kalloc Vm PageTable Asm AsmSpec.

(** kernel/memlayout.h *)
Definition CLINT : Z := 33554432.
Definition CLINT_MTIMECMP (hartid : Z) : Z := CLINT + 16384 + 8 * hartid.
Definition CLINT_MTIME : Z := CLINT + 49144.

(** The addresses of [timer_scratch], [main] and [timervec]. *)
Class StartLayout := { timer_scratch : Z; main_at : Z; timervec_at : Z }.

Section start.
Context {SL : StartLayout}.

Definition onh {A} (m : M hart A) : M mach A := zoom m_hart set_hart m.
Definition m_load64 (a : Z) : M mach Z := gets (λ s, load64 (m_mem s) a).
Definition m_store64 (a v : Z) : M mach unit := modify (λ s, set_mem (store64 (m_mem s) a v) s).

Definition timerinit : M mach unit :=
  (* each CPU has a separate source of timer interrupts. *)
  x <- onh r_mhartid ;;
  let id := i32 x in
  let interval := 1000000 in
  t <- m_load64 CLINT_MTIME ;;
  m_store64 (CLINT_MTIMECMP id) (t + interval) ;;
  let scratch := timer_scratch + 40 * id in
  m_store64 (scratch + 24) (CLINT_MTIMECMP id) ;;
  m_store64 (scratch + 32) interval ;;
  onh (w_mscratch scratch) ;;
  onh (w_mtvec timervec_at) ;;
  (* enable machine-mode interrupts. *)
  x <- onh r_mstatus ;;
  onh (w_mstatus (Z.lor x MSTATUS_MIE)) ;;
  (* enable machine-mode timer interrupts. *)
  x <- onh r_mie ;;
  onh (w_mie (Z.lor x MIE_MTIE)).

Definition start : M mach unit :=
  (* set M Previous Privilege mode to Supervisor, for mret. *)
  x <- onh r_mstatus ;;
  let x := Z.ldiff x MSTATUS_MPP_MASK in
  let x := Z.lor x MSTATUS_MPP_S in
  onh (w_mstatus x) ;;
  onh (w_mepc main_at) ;;
  (* disable paging for now. *)
  onh (w_satp 0) ;;
  (* delegate all interrupts and exceptions to supervisor mode. *)
  onh (w_medeleg 65535) ;;
  onh (w_mideleg 65535) ;;
  x <- onh r_sie ;;
  onh (w_sie (Z.lor (Z.lor (Z.lor x SIE_SEIE) SIE_STIE) SIE_SSIE)) ;;
  onh (w_pmpaddr0 18014398509481983) ;;
  onh (w_pmpcfg0 15) ;;
  timerinit ;;
  (* keep each CPU's hartid in its tp register, for cpuid(). *)
  x <- onh r_mhartid ;;
  onh (w_tp (i32 x)) ;;
  onh (modify mret).

(** [start] as the code of entry.S calls it. *)
Definition call_start (f : Z) (s : mach) : option mach :=
  match start s with OK _ s' => Some s' | _ => None end.
End start.

Class StartLayoutOk `{StartLayout} : Prop := {
  scratch_ok : KERNBASE ≤ timer_scratch ∧ timer_scratch + 320 < 18446744073709551616 ∧ timer_scratch mod 8 = 0;
  main_ok : 0 ≤ main_at < 18446744073709551616;
  timervec_ok : 0 ≤ timervec_at < 18446744073709551616;
}.

Section boot.
Context {SL : StartLayout} {SLO : StartLayoutOk}.

Notation scratch id := (timer_scratch + 40 * i32 id).

(** The control registers and the memory that [start] leaves. *)
Definition start_mem (id : Z) (m : mem) : mem :=
  store64 (store64 (store64 m (CLINT_MTIMECMP (i32 id)) (load64 m CLINT_MTIME + 1000000)) (scratch id + 24) (CLINT_MTIMECMP (i32 id)))
    (scratch id + 32) 1000000.
Definition start_hart (h : hart) : hart :=
  let id := h_csr h MHARTID in
  let x1 := Z.lor (Z.ldiff (h_csr h MSTATUS) MSTATUS_MPP_MASK) MSTATUS_MPP_S in
  let e1 := masked 65535 (h_csr h MIE) (Z.lor (Z.lor (Z.lor (Z.land (h_csr h MIE) 65535) SIE_SEIE) SIE_STIE) SIE_SSIE) in
  mret (set_reg TP (i32 id) (set_csr MIE (Z.lor (u64 e1) MIE_MTIE) (set_csr MSTATUS (Z.lor (u64 x1) MSTATUS_MIE) (set_csr MTVEC timervec_at (set_csr MSCRATCH (scratch id)
    (set_csr PMPCFG0 15 (set_csr PMPADDR0 18014398509481983 (set_csr MIE e1 (set_csr MIDELEG 65535 (set_csr MEDELEG 65535
      (set_csr SATP 0 (set_csr MEPC main_at (set_csr MSTATUS x1 h))))))))))))).

Lemma start_run f h m : call_start f (mkMach h m) = Some (mkMach (start_hart h) (start_mem (h_csr h MHARTID) m)).
Proof. lazy -[Z.lor Z.ldiff Z.land u64 i32 load64 store64 Z.add Z.mul Z.testbit status]. reflexivity. Qed.

(** The stack pointer that entry.S computes. *)
Definition entry_hart (stack0 : Z) (h : hart) : hart :=
  let a0 := u64 (u64 4096 * u64 (u64 (h_csr h MHARTID) + 1)) in
  set_reg SP (u64 stack0 + a0) (set_reg A0 (u64 4096 * u64 (u64 (h_csr h MHARTID) + 1)) (set_reg A1 (u64 (h_csr h MHARTID) + 1)
    (set_reg A1 (h_csr h MHARTID) (set_reg A0 4096 (set_reg SP stack0 h))))).

Lemma entry_run cc stack0 f h m : run cc (_entry stack0 f) (mkMach h m) = cc f (mkMach (entry_hart stack0 h) m).
Proof. change (cc f (mkMach (entry_hart stack0 h) m) ≫= Some = cc f (mkMach (entry_hart stack0 h) m)). by destruct (cc f _). Qed.

Lemma start_mem_frame id m x :
  0 ≤ id < 8 → x < CLINT_MTIMECMP id ∨ CLINT_MTIMECMP id + 8 ≤ x →
  x < timer_scratch + 40 * id + 24 ∨ timer_scratch + 40 * id + 40 ≤ x → load8 (start_mem id m) x = load8 m x.
Proof. intros Hid H1 H2. unfold start_mem. rewrite i32_small by lia. rewrite !load8_store64_out by lia. done. Qed.

Definition start_mie (mie : Z) : Z := masked 65535 mie (Z.lor (Z.lor (Z.lor (Z.land mie 65535) SIE_SEIE) SIE_STIE) SIE_SSIE).
Lemma start_hart_mie h : h_csr (start_hart h) MIE = u64 (Z.lor (u64 (start_mie (h_csr h MIE))) MIE_MTIE).
Proof. reflexivity. Qed.

Lemma start_hart_mode h : h_mode (start_hart h) = Supervisor.
Proof.
  change (h_mode (start_hart h)) with (let x := u64 (Z.lor (u64 (Z.lor (Z.ldiff (h_csr h MSTATUS) MSTATUS_MPP_MASK) MSTATUS_MPP_S)) MSTATUS_MIE) in
    if Z.testbit x 12 then Machine else if Z.testbit x 11 then Supervisor else User).
  cbv zeta. rewrite !u64_testbit, !Z.lor_spec, !u64_testbit, !Z.lor_spec, !Z.ldiff_spec by lia.
  change (Z.testbit MSTATUS_MPP_MASK 12) with true. change (Z.testbit MSTATUS_MPP_S 12) with false. change (Z.testbit MSTATUS_MIE 12) with false.
  change (Z.testbit MSTATUS_MPP_S 11) with true. by rewrite andb_false_r, orb_true_r.
Qed.

Lemma start_timer h m id :
  h_csr h MHARTID = id → 0 ≤ id < 8 → timer_ok (start_hart h) (start_mem id m) (timer_scratch + 40 * id) (CLINT_MTIMECMP id) 1000000 ∧
  load64 (start_mem id m) (CLINT_MTIMECMP id) = u64 (load64 m CLINT_MTIME + 1000000).
Proof.
  intros Eid Hid. destruct SLO as [(K1 & K2 & K3) _ _]. unfold KERNBASE in K1. pose proof (i32_small id ltac:(lia)) as Ei.
  assert (CLINT_MTIMECMP id = 33570816 + 8 * id) as Ec by (unfold CLINT_MTIMECMP, CLINT; lia).
  unfold start_mem. rewrite Ei, Ec. split; [split|].
  - change (h_csr (start_hart h) MSCRATCH) with (u64 (timer_scratch + 40 * i32 (h_csr h MHARTID))). rewrite Eid, Ei. apply u64_small. lia.
  - split; [lia|]. split; [lia|]. zlia.
  - split; [lia|]. split; [lia|]. zlia.
  - lia.
  - rewrite load64_store64_out, load64_store64 by lia. apply u64_small. lia.
  - by rewrite load64_store64.
  - by rewrite !load64_store64_out, load64_store64 by lia.
Qed.

End boot.

(** Hart 1, with the data of the kernel at 0x80010000. *)
Section ex.
#[local] Instance ex_start_layout : StartLayout := {| timer_scratch := 2147549184; main_at := 2147487744; timervec_at := 2147491840 |}.
#[local] Instance ex_start_layout_ok : StartLayoutOk.
Proof. repeat split; done. Qed.

Definition ex_reset : hart := mkHart Machine 2147483648 (λ _, 0) (λ c, match c with MHARTID => 1 | _ => 0 end).

End ex.
