(* ===== verification/Uvm.v ===== *)
(** * User address spaces: the functions of kernel/vm.c that build them

    A user address space is a page table whose first [n] pages are mapped to
    distinct physical pages that are neither table pages nor free.  The
    theorems show that growing, shrinking, copying and freeing an address
    space preserve this, conserve the pages of the machine (none is lost,
    none is handed out twice), and leave every other page of memory alone;
    and that [copyin], [copyout] and [copyinstr] access user memory as the
    page table maps it. *)

From stdpp Require Import base gmap list strings numbers.
From S2P Require Import Prelude Machine Riscv KString Kalloc Vm PageTable.

(** An entry that maps a page, as opposed to one that refers to a table. *)
Definition user_leaf (e : Z) : Prop := has PTE_V e = true ∧ PTE_FLAGS e ≠ PTE_V.

(** The pages of an address space of [n] pages: those it maps, and its tables. *)
Definition upages (s : kst) (pt n : Z) : list Z :=
  phys_pages (pteval 2 (mm s) pt) 0 (Z.to_nat n) ++ ptpages 2 (mm s) pt.

(** [pt] is the table of an address space of [n] pages, with free pages [F]. *)
Definition uspace `{Layout} (s : kst) (pt n : Z) (F : list Z) : Prop :=
  let f := pteval 2 (mm s) pt in
  kmem_inv s F ∧ 0 ≤ n ∧ n * PGSIZE ≤ TRAPFRAME ∧
  NoDup (upages s pt n ++ F) ∧ Forall page_ok (upages s pt n) ∧
  (∀ i, 0 ≤ i < n → user_leaf (f (i * PGSIZE))) ∧
  (∀ va, n * PGSIZE ≤ va < TRAPFRAME → has PTE_V (f va) = false) ∧
  (∀ va, TRAPFRAME ≤ va < SV39 → has PTE_V (f va) = true → has PTE_U (f va) = false) ∧
  inner_ok 2 (mm s) pt.

(** The address space went from [n] pages to [n'] pages: the pages of the
    machine are conserved, common entries are unchanged, and the only pages
    written are table pages, free pages and the pages that were unmapped. *)
Definition utrans `{Layout} (pt : Z) (s : kst) (n : Z) (F : list Z)
    (s' : kst) (n' : Z) (F' : list Z) : Prop :=
  uspace s' pt n' F' ∧
  upages s' pt n' ++ F' ≡ₚ upages s pt n ++ F ∧
  (∀ va, 0 ≤ va < SV39 → va < n * PGSIZE ∧ va < n' * PGSIZE ∨ TRAPFRAME ≤ va →
     pteval 2 (mm s') pt va = pteval 2 (mm s) pt va) ∧
  frame (phys_pages (pteval 2 (mm s) pt) (n' * PGSIZE) (Z.to_nat (n - n'))
         ++ ptpages 2 (mm s) pt ++ F) (mm s) (mm s').

Section uvm.
Context `{LO : LayoutOk}.

Lemma uspace_pt_wf s pt n F : uspace s pt n F → pt_wf 2 s pt F.
Proof.
  intros (Hk & _ & _ & Hnd & Hok & _). unfold upages in *. split_and!; [done| |].
  - rewrite <-app_assoc in Hnd. by apply list.NoDup_app in Hnd as (_ & _ & ?).
  - by apply Forall_app in Hok as [_ ?].
Qed.

Lemma utrans_refl pt s n F : uspace s pt n F → utrans pt s n F s n F.
Proof. intros Hu. by split_and!. Qed.

Lemma phys_pages_ext f g va n :
  (∀ i, 0 ≤ i < Z.of_nat n → g (va + i * PGSIZE) = f (va + i * PGSIZE)) →
  phys_pages g va n = phys_pages f va n.
Proof.
  intros E. unfold phys_pages. apply list_fmap_ext. intros j i Hi.
  apply list_elem_of_lookup_2, elem_of_seqZ in Hi. by rewrite E by lia.
Qed.

Lemma phys_pages_app f va n k :
  phys_pages f va (n + k) = phys_pages f va n ++ phys_pages f (va + Z.of_nat n * PGSIZE) k.
Proof.
  unfold phys_pages. rewrite Nat2Z.inj_add, seqZ_app, fmap_app by lia. f_equal.
  rewrite Z.add_0_l.
  replace (seqZ (Z.of_nat n) (Z.of_nat k)) with (Z.add (Z.of_nat n) <$> seqZ 0 (Z.of_nat k))
    by (rewrite fmap_add_seqZ; f_equal; lia).
  rewrite <-list_fmap_compose. apply list_fmap_ext. intros _ x _. cbn. do 2 f_equal. lia.
Qed.

Lemma phys_pages_1 f va : phys_pages f va 1 = [PTE2PA (f va)].
Proof.
  rewrite phys_pages_snoc. by replace (va + Z.of_nat 0 * PGSIZE) with va by lia.
Qed.

(** The pages of an address space, those below page [k] first. *)
Lemma upages_split s pt n k :
  0 ≤ k ≤ n →
  upages s pt n = phys_pages (pteval 2 (mm s) pt) 0 (Z.to_nat k) ++
    phys_pages (pteval 2 (mm s) pt) (k * PGSIZE) (Z.to_nat (n - k)) ++ ptpages 2 (mm s) pt.
Proof.
  intros Hk. unfold upages. replace (Z.to_nat n) with (Z.to_nat k + Z.to_nat (n - k))%nat by lia.
  rewrite phys_pages_app, <-app_assoc. by rewrite Z2Nat.id, Z.add_0_l by lia.
Qed.

(** Removing the pages from [n'] on. *)
Lemma uvmunmap_uspace pt s n n' F :
  uspace s pt n F → 0 ≤ n' ≤ n →
  wp (uvmunmap pt (n' * PGSIZE) (n - n') true) (λ _ s', ∃ F', utrans pt s n F s' n' F') s.
Proof.
  intros Hu Hn. pose proof (uspace_pt_wf _ _ _ _ Hu) as Hwf.
  destruct Hu as (Hk & Hn0 & Hmax & Hnd & Hok & Hleaf & Hfree & Htop & Hio).
  assert (TRAPFRAME = 274877898752) as ET by done. assert (SV39 = 549755813888) as ES by done.
  assert (MAXVA = 274877906944) as EM by done.
  rewrite (upages_split s pt n n') in Hnd, Hok by done.
  set (f := pteval 2 (mm s) pt) in *.
  rewrite <-!app_assoc in Hnd. apply list.NoDup_app in Hnd as Hnd'. destruct Hnd' as (_ & Hlow & Hnd').
  apply Forall_app in Hok as Hok'. destruct Hok' as (Hok1 & Hok').
  apply Forall_app in Hok' as (Hok2 & Hok3).
  eapply wp_mono; [apply (uvmunmap_run pt (n' * PGSIZE) (n - n') true s F); try done|].
  - pglia.
  - pglia.
  - lia.
  - pglia.
  - intros i Hi. replace (n' * PGSIZE + i * PGSIZE) with ((n' + i) * PGSIZE) by lia.
    apply Hleaf. lia.
  - fold f. intros [] s' (Hwf' & Hp & Hf & Hio' & Hv).
    set (ds := phys_pages f (n' * PGSIZE) (Z.to_nat (n - n'))) in *.
    assert (phys_pages (pteval 2 (mm s') pt) 0 (Z.to_nat n') = phys_pages f 0 (Z.to_nat n')) as El.
    { apply phys_pages_ext. intros i Hi. rewrite Hv by (pglia).
      unfold unmap_range. destruct (Z.leb_spec (n' * PGSIZE) (0 + i * PGSIZE)); [|done].
      pglia. }
    assert (upages s' pt n' ++ reverse ds ++ F ≡ₚ upages s pt n ++ F) as Hperm.
    { rewrite (upages_split s pt n n') by done. unfold upages. fold f ds. rewrite El, Hp, reverse_Permutation.
      rewrite <-!app_assoc. f_equiv. rewrite !app_assoc. f_equiv. apply Permutation_app_comm. }
    assert (∀ va, 0 ≤ va < SV39 → va < n * PGSIZE ∧ va < n' * PGSIZE ∨ TRAPFRAME ≤ va →
      pteval 2 (mm s') pt va = f va) as Hpv.
    { intros va Hva Hc. rewrite Hv by done. unfold unmap_range.
      destruct (Z.leb_spec (n' * PGSIZE) va), (Z.ltb_spec va (n' * PGSIZE + (n - n') * PGSIZE)); try done.
      pglia. }
    exists (reverse ds ++ F). split; [|split_and!; [exact Hperm|exact Hpv|]].
    + split_and!; [apply Hwf'|lia|pglia| | | | | |auto].
      * rewrite Hperm, (upages_split s pt n n'), <-!app_assoc by done. exact Hnd.
      * unfold upages. rewrite El, Hp. by apply Forall_app.
      * intros i Hi. rewrite Hpv by (pglia). apply Hleaf. lia.
      * intros va Hva. rewrite Hv by pglia. unfold unmap_range.
        destruct (Z.leb_spec (n' * PGSIZE) va), (Z.ltb_spec va (n' * PGSIZE + (n - n') * PGSIZE));
          try (by apply has_0); apply Hfree; pglia.
      * intros va Hva. rewrite Hpv by lia. by apply Htop.
    + fold f ds. eapply frame_mono; [|exact Hf]. intros q. rewrite !elem_of_app, elem_of_reverse. tauto.
Qed.

(** The page [p] was taken from the allocator and written: the address space
    is as before, with [p] in the hands of the caller. *)
Lemma uspace_kalloc pt s n p F s1 :
  uspace s pt n (p :: F) → kmem_inv s1 F → only_page (mm s) (mm s1) p →
  pt_wf 2 s1 pt F ∧ ptpages 2 (mm s1) pt = ptpages 2 (mm s) pt ∧
  (∀ va, pteval 2 (mm s1) pt va = pteval 2 (mm s) pt va) ∧ page_ok p ∧
  inner_ok 2 (mm s1) pt.
Proof.
  intros Hu Hk1 Ho. pose proof (uspace_pt_wf _ _ _ _ Hu) as Hwf.
  pose proof Hwf as ((_ & _ & _ & HF) & Hnd & Hok). apply Forall_cons_1 in HF as [Hp HF].
  rewrite <-Permutation_middle in Hnd. apply list.NoDup_cons in Hnd as [Hpn Hnd].
  destruct (pt_wf_frame pt s (p :: F) s1 F [p] Hwf Hk1) as (H1 & H2 & _ & H4 & H5); try done.
  - repeat constructor. apply Hp.
  - intros q ->%list_elem_of_singleton ?. apply Hpn, elem_of_app. by left.
  - by apply frame_only_page.
  - split_and!; [done..|]. apply H5, Hu.
Qed.

(** Only entries at [n] pages and above matter for the rest of the invariant. *)
Lemma uspace_entries pt s n F s' n' F' :
  uspace s pt n F → kmem_inv s' F' → 0 ≤ n' → n' * PGSIZE ≤ TRAPFRAME →
  upages s' pt n' ++ F' ≡ₚ upages s pt n ++ F →
  (∀ i, 0 ≤ i < n' → user_leaf (pteval 2 (mm s') pt (i * PGSIZE))) →
  (∀ va, n' * PGSIZE ≤ va < TRAPFRAME → has PTE_V (pteval 2 (mm s') pt va) = false) →
  (∀ va, TRAPFRAME ≤ va < SV39 → pteval 2 (mm s') pt va = pteval 2 (mm s) pt va) →
  inner_ok 2 (mm s') pt →
  uspace s' pt n' F'.
Proof.
  intros ((_ & _ & _ & HokF) & Hn0 & Hmax & Hnd & Hok & Hleaf & Hfree & Htop & _) Hk' H0 Hm Hp Hl Hf Ht Hio.
  assert (Forall page_ok (upages s' pt n' ++ F')) as Hok'.
  { rewrite Hp. by apply Forall_app. }
  split_and!; [done|done|done|by rewrite Hp|by apply Forall_app in Hok' as [? _]|done|done| |done].
  intros va Hva. rewrite Ht by done. by apply Htop.
Qed.

Lemma upages_snoc s pt n :
  0 ≤ n → upages s pt (n + 1) ≡ₚ
    PTE2PA (pteval 2 (mm s) pt (n * PGSIZE)) :: upages s pt n.
Proof.
  intros Hn. unfold upages. replace (Z.to_nat (n + 1)) with (S (Z.to_nat n)) by lia.
  rewrite phys_pages_snoc, Z2Nat.id, Z.add_0_l, <-app_assoc by lia.
  cbn [app]. by rewrite <-Permutation_middle.
Qed.

Lemma upages_ext s s' pt n :
  (∀ i, 0 ≤ i < n → pteval 2 (mm s') pt (i * PGSIZE) = pteval 2 (mm s) pt (i * PGSIZE)) →
  upages s' pt n = phys_pages (pteval 2 (mm s) pt) 0 (Z.to_nat n) ++ ptpages 2 (mm s') pt.
Proof.
  intros E. unfold upages. f_equal. apply phys_pages_ext. intros i Hi.
  rewrite Z.add_0_l. apply E. lia.
Qed.

(** The page tables grew by [news], taken from the free pages. *)
Lemma uspace_grown pt s n F s' F' k g :
  uspace s pt n F → kmem_inv s' F' → (k = 0 ∨ k = 1) → (n + k) * PGSIZE ≤ TRAPFRAME →
  frame (ptpages 2 (mm s) pt ++ F) (mm s) (mm s') →
  phys_pages g (n * PGSIZE) (Z.to_nat k) ++ ptpages 2 (mm s') pt ++ F' ≡ₚ ptpages 2 (mm s) pt ++ F →
  (∀ va, 0 ≤ va < SV39 → pteval 2 (mm s') pt va = g va) →
  (∀ va, 0 ≤ va < SV39 → va < n * PGSIZE ∨ (n + k) * PGSIZE ≤ va →
     g va = pteval 2 (mm s) pt va) →
  (k = 1 → user_leaf (g (n * PGSIZE))) → inner_ok 2 (mm s') pt →
  utrans pt s n F s' (n + k) F'.
Proof.
  intros Hu Hk' Hk01 Hmax Hf Hp Hv Hg Hl Hio.
  pose proof Hu as (_ & Hn0 & Hmax0 & _ & _ & Hleaf & Hfree & _).
  assert (TRAPFRAME = 274877898752) as ET by done. assert (SV39 = 549755813888) as ES by done.
  assert (MAXVA = 274877906944) as EM by done.
  assert (upages s' pt (n + k) ++ F' ≡ₚ upages s pt n ++ F) as Hperm.
  { rewrite (upages_split s' pt (n + k) n) by lia. unfold upages. rewrite <-!app_assoc, <-Hp.
    replace (n + k - n) with k by lia. f_equiv; [|f_equiv]; apply reflexive_eq, phys_pages_ext.
    - intros i Hi. rewrite Hv by pglia. apply Hg; pglia.
    - intros i Hi. apply Hv. pglia. }
  assert (∀ va, TRAPFRAME ≤ va < SV39 →
    pteval 2 (mm s') pt va = pteval 2 (mm s) pt va) as Htop.
  { intros va Hva. rewrite Hv, Hg by pglia. done. }
  split_and!; [|done| |].
  - eapply uspace_entries; try done; [lia| |].
    + intros i Hi. rewrite Hv by pglia. destruct (decide (i < n)).
      * rewrite Hg by pglia. apply Hleaf. lia.
      * replace i with n by lia. apply Hl. lia.
    + intros va Hva. rewrite Hv, Hg by pglia. apply Hfree. pglia.
  - intros va Hva [Hc|Hc]; [rewrite Hv, Hg by pglia; done|apply Htop; lia].
  - replace (Z.to_nat (n - (n + k))) with 0%nat by lia. exact Hf.
Qed.

Lemma has_lor_V fl : has PTE_V (Z.lor fl PTE_V) = true.
Proof.
  unfold has, truthy. apply negb_true_iff, Z.eqb_neq.
  rewrite Z.land_lor_distr_l. by intros [_ ?]%Z.lor_eq_0_iff.
Qed.

Section map.
Context (pt : Z) (s : kst) (n p : Z) (F : list Z) (s1 : kst).
Context (Hu : uspace s pt n (p :: F)) (Hk1 : kmem_inv s1 F).
Context (Ho : only_page (mm s) (mm s1) p).

Lemma fresh_page : page_ok p ∧ p ∉ ptpages 2 (mm s) pt ++ F.
Proof.
  split; [by eapply uspace_kalloc|]. destruct Hu as (_ & _ & _ & Hnd & _).
  rewrite <-Permutation_middle in Hnd. apply list.NoDup_cons in Hnd as [Hpn _].
  unfold upages in Hpn. rewrite <-app_assoc, elem_of_app in Hpn. tauto.
Qed.

Lemma remapped_frame s' F' g :
  remapped pt s1 F s' F' g → frame (ptpages 2 (mm s) pt ++ p :: F) (mm s) (mm s').
Proof.
  destruct (uspace_kalloc _ _ _ _ _ _ Hu Hk1 Ho) as (_ & Ep & _).
  intros (news & EF & _ & Hpt & Hf & _). rewrite Ep in Hpt.
  eapply frame_trans; [eapply frame_mono; [|apply frame_only_page, Ho]|
                       eapply frame_mono; [|exact Hf]]; intros q.
  - rewrite list_elem_of_singleton, elem_of_app, elem_of_cons. tauto.
  - rewrite Hpt, EF, !elem_of_app, elem_of_cons, elem_of_app. tauto.
Qed.

Lemma mapped_utrans s' F' fl :
  remapped pt s1 F s' F' (map_range (pteval 2 (mm s1) pt) (n * PGSIZE) 1 p fl) →
  (n + 1) * PGSIZE ≤ TRAPFRAME → 0 ≤ fl < 1024 → has PTE_V fl = true → fl ≠ PTE_V →
  utrans pt s n (p :: F) s' (n + 1) F' ∧
  pteval 2 (mm s') pt (n * PGSIZE) = Z.lor (PA2PTE p) fl ∧
  agree (mm s1) (mm s') p PGSIZE.
Proof.
  intros Hr Hmax Hfl Hfv Hne. pose proof (remapped_frame _ _ _ Hr) as Hfr.
  destruct (uspace_kalloc _ _ _ _ _ _ Hu Hk1 Ho) as (Hwf1 & Ep & Ev & Hp & Hio1).
  destruct fresh_page as [_ Hpn]. destruct Hu as (_ & Hn0 & _).
  pose proof (page_ok_pos p Hp). pose proof (page_ok_bound p Hp). pose proof Hp as [Hpal Hpr].
  assert (TRAPFRAME = 274877898752) as ET by done. assert (SV39 = 549755813888) as ES by done.
  assert (MAXVA = 274877906944) as EM by done.
  pose proof (remapped_wf _ _ _ _ _ _ Hwf1 Hr) as Hwf'.
  destruct Hr as (news & EF & Hk' & Hpt & Hf & Hio & Hv). rewrite Ep in Hpt.
  set (g := map_range _ _ _ _ _) in *.
  assert (g (n * PGSIZE) = Z.lor (PA2PTE p) fl) as En.
  { unfold g, map_range. rewrite (proj2 (Z.leb_le _ _)), (proj2 (Z.ltb_lt _ _)) by pglia.
    cbn [andb]. do 2 f_equal. pglia. }
  split_and!.
  - eapply uspace_grown; try done; [by right| | | |].
    + change (Z.to_nat 1) with 1%nat.
      rewrite phys_pages_1, En, mkpte_PA by (done || lia).
      rewrite <-Permutation_middle, EF, Hpt. cbn [app]. f_equiv. rewrite !app_assoc. f_equiv. apply Permutation_app_comm.
    + intros va Hva Hc. unfold g, map_range. rewrite Ev.
      repeat zcase; cbn; try done; pglia.
    + intros _. rewrite En. split; [|by rewrite mkpte_FLAGS by lia].
      rewrite has_flags, mkpte_FLAGS by (unfold PTE_V; lia). done.
    + auto.
  - by rewrite Hv, En by pglia.
  - eapply frame_agree; [apply (pt_wf_aligned _ _ _ _ Hwf')|apply Hpal| |exact Hf].
    rewrite Hpt, elem_of_app. subst F. rewrite !elem_of_app in Hpn. tauto.
Qed.

Lemma unmapped_kfree s' fl :
  remapped pt s1 F s' [] (map_range (pteval 2 (mm s1) pt) (n * PGSIZE) 0 p fl) →
  wp (kfree p) (λ _ s'', ∃ F'', utrans pt s n (p :: F) s'' n F'') s'.
Proof.
  intros Hr. pose proof (remapped_frame _ _ _ Hr) as Hfr.
  destruct (uspace_kalloc _ _ _ _ _ _ Hu Hk1 Ho) as (Hwf1 & Ep & Ev & Hp & Hio1).
  destruct fresh_page as [_ Hpn]. pose proof (remapped_wf _ _ _ _ _ _ Hwf1 Hr) as Hwf'.
  destruct Hr as (news & EF & Hk' & Hpt & Hf & Hio & Hv). rewrite Ep in Hpt.
  rewrite app_nil_r in EF. subst news.
  eapply wp_mono; [apply (kfree_unmapped pt s' []); try done|].
  - rewrite Hpt, elem_of_app. rewrite elem_of_app in Hpn. tauto.
  - by intros ?%elem_of_nil.
  - intros [] s'' (Hwf2 & Ep2 & Hf2 & _ & Ev2 & Hio2). exists [p].
    assert (utrans pt s n (p :: F) s'' (n + 0) [p]) as Ht; [|by rewrite Z.add_0_r in Ht].
    eapply uspace_grown with (g := pteval 2 (mm s) pt); try done.
    + apply Hwf2.
    + by left.
    + rewrite Z.add_0_r. apply Hu.
    + eapply frame_trans; [exact Hfr|]. eapply frame_mono; [|exact Hf2].
      intros q ->%list_elem_of_singleton. apply elem_of_app. right. apply elem_of_cons. by left.
    + rewrite Ep2, Hpt. change (phys_pages _ _ (Z.to_nat 0)) with (@nil Z). cbn [app].
      rewrite (Permutation_app_comm F), <-app_assoc. f_equiv.
      by rewrite <-Permutation_cons_append.
    + intros va Hva. rewrite Ev2, Hv, <-Ev by done. unfold map_range.
      repeat zcase; cbn; try done. lia.
    + auto.
Qed.

(** Map a fresh page behind the last one, or find the allocator empty. *)
Lemma mappages_uspace fl :
  (n + 1) * PGSIZE ≤ TRAPFRAME → 0 ≤ fl < 1024 → Z.lor fl PTE_V ≠ PTE_V →
  wp (mappages pt (n * PGSIZE) PGSIZE p fl)
     (λ r s', r = 0 ∧ (∃ F', utrans pt s n (p :: F) s' (n + 1) F' ∧ (length F ≤ length F' + 2)%nat) ∧
                pteval 2 (mm s') pt (n * PGSIZE) = Z.lor (PA2PTE p) (Z.lor fl PTE_V) ∧
                agree (mm s1) (mm s') p PGSIZE ∨
              r = -1 ∧ (length F ≤ 2)%nat ∧ wp (kfree p) (λ _ s'', ∃ F'', utrans pt s n (p :: F) s'' n F'') s') s1.
Proof.
  intros Hmax Hfl Hne.
  destruct (uspace_kalloc _ _ _ _ _ _ Hu Hk1 Ho) as (Hwf1 & _ & Ev & Hp & _).
  pose proof Hu as (_ & Hn0 & _ & _ & _ & _ & Hfree & _).
  assert (TRAPFRAME = 274877898752) as ET by done. assert (SV39 = 549755813888) as ES by done.
  assert (MAXVA = 274877906944) as EM by done.
  pose proof (page_ok_pos p Hp). pose proof (page_ok_bound p Hp). pose proof Hp as [Hpal Hpr].
  eapply wp_mono; [apply mappages_run with (F := F); try done|].
  - pglia.
  - pglia.
  - lia.
  - unfold PHYSTOP, KERNBASE in *. pglia.
  - intros x Hx. rewrite Ev. apply Hfree. pglia.
  - intros r s' (k & F' & Hr & Hk & Hlen).
    replace (n * PGSIZE - (n * PGSIZE) mod PGSIZE) with (n * PGSIZE) in Hr by pglia.
    replace ((n * PGSIZE + PGSIZE - 1) / PGSIZE - n * PGSIZE / PGSIZE + 1) with 1 in Hk, Hlen by pglia.
    destruct Hk as [[-> ->]|(-> & Hk & ->)].
    + left. split; [done|]. apply mapped_utrans in Hr as (Ht & Hv & Ha); eauto.
      * split; [|done]. exists F'. split; [exact Ht|lia].
      * apply (lor_bound 10); unfold PTE_V; lia.
      * apply has_lor_V.
    + right. split; [done|]. split; [cbn in Hlen; lia|]. replace k with 0 in Hr by lia. by eapply unmapped_kfree.
Qed.
End map.

(** Growing and then changing the size composes. *)
Lemma utrans_trans pt s1 n1 F1 s2 n2 F2 s3 n3 F3 :
  uspace s1 pt n1 F1 → n1 ≤ n2 → n1 ≤ n3 →
  utrans pt s1 n1 F1 s2 n2 F2 → utrans pt s2 n2 F2 s3 n3 F3 → utrans pt s1 n1 F1 s3 n3 F3.
Proof.
  intros Hu1 Hn12 Hn13 (Hu2 & Hp2 & Hv2 & Hf2) (Hu3 & Hp3 & Hv3 & Hf3).
  pose proof Hu1 as (_ & Hn1 & Hm1 & _). pose proof Hu2 as (_ & _ & _ & Hnd2 & _).
  assert (TRAPFRAME = 274877898752) as ET by done. assert (SV39 = 549755813888) as ES by done.
  split_and!; [done|by rewrite Hp3| |].
  - intros va Hva Hc. rewrite Hv3, Hv2 by pglia. done.
  - replace (Z.to_nat (n1 - n2)) with 0%nat in Hf2 by lia.
    replace (Z.to_nat (n1 - n3)) with 0%nat by lia.
    eapply frame_trans; [exact Hf2|]. eapply frame_mono; [|exact Hf3]. intros q Hq.
    rewrite (upages_split s2 pt n2 n1) in Hp2 by lia. unfold upages in Hp2.
    rewrite <-!app_assoc in Hp2.
    erewrite (phys_pages_ext _ (pteval 2 (mm s2) pt)) in Hp2.
    + apply Permutation_app_inv_l in Hp2. change (phys_pages _ _ 0) with (@nil Z).
      cbn [app]. rewrite <-Hp2. rewrite elem_of_app in Hq |- *. destruct Hq as [Hq|Hq]; [left|by right].
      apply phys_pages_elem in Hq as (i & -> & Hi). apply phys_pages_elem.
      exists (i + (n3 - n1)). split; [|lia]. do 2 f_equal. lia.
    + intros i Hi. assert (MAXVA = 274877906944) as EM by done. apply Hv2; pglia.
Qed.

Lemma uvmdealloc_uspace pt s n F oldsz newsz :
  uspace s pt n F → n = PGROUNDUP oldsz / PGSIZE → 0 ≤ newsz → 0 ≤ oldsz → oldsz ≤ TRAPFRAME →
  wp (uvmdealloc pt oldsz newsz)
     (λ r s', r = Z.min oldsz newsz ∧ ∃ F', utrans pt s n F s' (PGROUNDUP r / PGSIZE) F') s.
Proof.
  intros Hu En H0 H1 Hmax. assert (TRAPFRAME = 274877898752) as ET by done.
  unfold uvmdealloc. destruct (Z.leb_spec oldsz newsz).
  - wp_run. rewrite Z.min_l by done. split; [done|]. exists F. rewrite <-En. by apply utrans_refl.
  - destruct (PGROUNDUP_bounds oldsz) as [Ho1 Ho2]; [pglia|].
    destruct (PGROUNDUP_bounds newsz) as [Hn1 Hn2]; [pglia|].
    rewrite Z.min_r by lia. set (n' := PGROUNDUP newsz / PGSIZE).
    apply wp_bind. destruct (Z.ltb_spec (PGROUNDUP newsz) (PGROUNDUP oldsz)).
    + replace ((PGROUNDUP oldsz - PGROUNDUP newsz) / PGSIZE) with (n - n') by (unfold n'; pglia).
      rewrite i32_small, u64_small by (unfold n'; pglia).
      replace (PGROUNDUP newsz) with (n' * PGSIZE) by (unfold n'; pglia).
      eapply wp_mono; [apply uvmunmap_uspace; [done|unfold n'; pglia]|].
      intros [] s' HF. by wp_run.
    + wp_run. split; [done|]. exists F. fold n'. replace n' with n by (unfold n'; pglia).
      by apply utrans_refl.
Qed.

(** Writing a page that is not free does not disturb the allocator. *)
Lemma kmem_inv_only_page s m p F :
  kmem_inv s F → page_ok p → p ∉ F → only_page (mm s) m p → kmem_inv (set_mm m s) F.
Proof.
  intros Hk Hp Hn Ho. apply (kmem_inv_frame s); try done. intros q Hq.
  destruct Hk as (_ & _ & _ & Hok).
  eapply only_page_agree; [exact Hp|exact (Forall_elem _ _ q Hok Hq)|congruence|done].
Qed.

(** A user page that stays mapped keeps its contents. *)
Lemma utrans_contents pt s n F s' n' F' i :
  uspace s pt n F → utrans pt s n F s' n' F' → 0 ≤ i < n → i < n' →
  agree (mm s) (mm s') (PTE2PA (pteval 2 (mm s) pt (i * PGSIZE))) PGSIZE.
Proof.
  intros (Hk & _ & _ & Hnd & Hok & _) (_ & _ & _ & Hf) Hi Hi'.
  set (k := Z.max 0 (Z.min n n')).
  assert (Z.to_nat (n - n') = Z.to_nat (n - k) ∧
    (n - n' ≤ 0 ∨ n' * PGSIZE = k * PGSIZE)) as [E1 E2] by lia.
  rewrite (upages_split s pt n k) in Hnd, Hok by lia. rewrite <-!app_assoc in Hnd.
  apply list.NoDup_app in Hnd as (_ & Hdis & _).
  assert (PTE2PA (pteval 2 (mm s) pt (i * PGSIZE)) ∈
    phys_pages (pteval 2 (mm s) pt) 0 (Z.to_nat k)) as Hin.
  { apply phys_pages_elem. exists i. split; [do 2 f_equal; lia|lia]. }
  assert (phys_pages (pteval 2 (mm s) pt) (n' * PGSIZE) (Z.to_nat (n - n')) =
    phys_pages (pteval 2 (mm s) pt) (k * PGSIZE) (Z.to_nat (n - k))) as E.
  { rewrite E1. destruct E2 as [E2| ->]; [|done]. by replace (Z.to_nat (n - k)) with 0%nat by lia. }
  rewrite E in Hf. apply Forall_app in Hok as [Hok1 Hok2]. apply Forall_app in Hok2 as [Hok2 Hok3].
  eapply frame_agree; [| |by apply Hdis|exact Hf].
  - destruct Hk as (_ & _ & _ & HokF). rewrite !Forall_app.
    split_and!; by apply aligned_of_page_ok.
  - apply (Forall_elem _ _ _ Hok1 Hin).
Qed.

(** What [uvmalloc] maps: zeroed pages, accessible to the user. *)
Definition fresh_zero (s : kst) (pt a : Z) : Prop :=
  let e := pteval 2 (mm s) pt a in
  PTE_FLAGS e = 31 ∧ ∀ x, 0 ≤ x < PGSIZE → load8 (mm s) (PTE2PA e + x) = 0.

Lemma fresh_zero_utrans pt s n F s' n' F' i :
  uspace s pt n F → utrans pt s n F s' n' F' → 0 ≤ i < n → i < n' →
  fresh_zero s pt (i * PGSIZE) → fresh_zero s' pt (i * PGSIZE).
Proof.
  intros Hu Ht Hi Hi' [Hfl Hz]. pose proof (utrans_contents _ _ _ _ _ _ _ _ Hu Ht Hi Hi') as Ha.
  assert (TRAPFRAME = 274877898752) as ET by done. assert (SV39 = 549755813888) as ES by done.
  assert (MAXVA = 274877906944) as EM by done.
  destruct Hu as (_ & _ & Hm & _). destruct Ht as (_ & _ & Hv & _).
  unfold fresh_zero. rewrite Hv by pglia. split; [done|].
  intros x Hx. rewrite Ha by lia. by apply Hz.
Qed.

(** There are 32768 pages of RAM, so no address space is larger. *)
Lemma pages_from_bound (l : list Z) n :
  0 ≤ n → NoDup l → (∀ q, q ∈ l → ∃ i, q = KERNBASE + PGSIZE * i ∧ 0 ≤ i < n) → Z.of_nat (length l) ≤ n.
Proof.
  intros Hn Hnd Hin. enough (length l ≤ length (pages_from KERNBASE (Z.to_nat n)))%nat as Hle.
  { unfold pages_from in Hle. rewrite length_fmap, length_seqZ in Hle. lia. }
  apply submseteq_length, NoDup_submseteq; [done|]. intros q Hq. apply pages_from_elem. rewrite Z2Nat.id by done. auto.
Qed.

Lemma pages_bound (l : list Z) : NoDup l → Forall page_ok l → Z.of_nat (length l) ≤ 32768.
Proof.
  intros Hnd Hok. apply pages_from_bound; [done|done|]. intros q Hq. rewrite Forall_forall in Hok.
  destruct (Hok q) as [Ha Hb]; [by apply list_elem_of_In|]. pose proof etext_ok. pose proof kend_ok.
  exists (q / PGSIZE - KERNBASE / PGSIZE). unfold PHYSTOP, KERNBASE in *. pglia.
Qed.

Lemma uspace_bound s pt n F : uspace s pt n F → 0 ≤ n ≤ 32768.
Proof.
  intros (_ & Hn & _ & Hnd & Hok & _). apply list.NoDup_app in Hnd as [Hnd _].
  pose proof (pages_bound _ Hnd Hok) as Hb. unfold upages, phys_pages in Hb.
  rewrite length_app, length_fmap, length_seqZ in Hb. lia.
Qed.

(** One page more: a turn of [uvmalloc]. *)
Lemma uvmalloc_turn_run pt s n F oldsz newsz :
  uspace s pt n F → 0 ≤ oldsz ≤ n → n * PGSIZE < newsz →
  wp (uvmalloc_turn pt (oldsz * PGSIZE) newsz (n * PGSIZE))
     (λ r s', ∃ F', match r with
        | inl a => a = (n + 1) * PGSIZE ∧ utrans pt s n F s' (n + 1) F' ∧
                   fresh_zero s' pt (n * PGSIZE) ∧ (length F ≤ length F' + 3)%nat
        | inr z => z = 0 ∧ (length F ≤ 3)%nat ∧ ∃ s1 F1, utrans pt s n F s1 n F1 ∧ utrans pt s1 n F1 s' oldsz F'
        end) s.
Proof.
  intros Hu Hold Hn. pose proof Hu as (Hk & Hn0 & _ & Hnd & _). pose proof (uspace_bound _ _ _ _ Hu) as Hub.
  assert (TRAPFRAME = 274877898752) as ET by done. assert (SV39 = 549755813888) as ES by done.
  assert (MAXVA = 274877906944) as EM by done.
  assert (∀ s1 F1, utrans pt s n F s1 n F1 →
    wp (uvmdealloc pt (n * PGSIZE) (oldsz * PGSIZE))
      (λ _ s', ∃ s1 F1 F', utrans pt s n F s1 n F1 ∧ utrans pt s1 n F1 s' oldsz F') s1) as Hback.
  { intros s1 F1 Ht. eapply wp_mono; [apply (uvmdealloc_uspace pt s1 n F1); [apply Ht|..]|].
    - rewrite PGROUNDUP_aligned by pglia. pglia.
    - pglia.
    - pglia.
    - pglia.
    - intros r s' (-> & F' & Ht'). rewrite Z.min_r, PGROUNDUP_aligned in Ht' by pglia.
      rewrite Z.div_mul in Ht' by done. eauto. }
  unfold uvmalloc_turn. rewrite (proj2 (Z.ltb_lt _ _)) by lia.
  wp_use kalloc_run; [exact Hk|]. destruct F as [|p F].
  { intros r s1 [-> ->]. cbn [Z.eqb]. wp_use Hback; [by apply utrans_refl|].
    intros _ s2 (s1 & F1 & F' & H1 & H2). wp_run. exists F'. split; [done|]. split; [cbn; lia|eauto]. }
  intros r s1 (-> & Hk1 & Hw1).
  destruct (uspace_kalloc _ _ _ _ _ _ Hu Hk1 (written_only_page _ _ _ _ Hw1)) as (_ & _ & _ & Hp & _).
  pose proof (page_ok_pos p Hp). rewrite (proj2 (Z.eqb_neq p 0)) by lia.
  wp_use kmemset_run; [unfold PGSIZE; lia|]. intros r s2 (m & -> & -> & Hw2).
  assert (p ∉ F) as HpF.
  { destruct Hk as (_ & _ & Hk & _). by apply list.NoDup_cons in Hk as [? _]. }
  wp_run. eapply wp_mono; [eapply mappages_uspace; [exact Hu| | |pglia| |]|].
  - by eapply kmem_inv_only_page, written_only_page.
  - intros x Hx. rewrite mm_set_mm, (written_only_page _ _ _ _ Hw2) by done.
    by apply (written_only_page _ _ _ _ Hw1).
  - done.
  - done.
  - intros r s3 [(-> & (F' & Ht & Hlen) & Hv & Ha)|(-> & Hlen & Hfree)]; cbn [Z.eqb negb].
    + wp_run. exists F'. rewrite u64_small by pglia. split_and!; [lia|done| |cbn; lia].
      pose proof (page_ok_bound p Hp). destruct Hp as [Hpal _]. unfold fresh_zero.
      change (Z.lor _ PTE_V) with 31 in Hv. rewrite Hv, mkpte_FLAGS, mkpte_PA by (lia || done).
      split; [done|]. intros x Hx. rewrite Ha by lia. rewrite mm_set_mm, Hw2. by ztest.
    + wp_run. eapply wp_mono; [exact Hfree|]. intros [] s4 (F4 & Ht4).
      wp_use Hback; [exact Ht4|]. intros _ s5 (s6 & F6 & F' & H1 & H2). wp_run. exists F'. split; [done|]. split; [cbn; lia|eauto].
Qed.

(** From [n] pages to [n + k], the new ones fresh. *)
Lemma uvmalloc_run pt s n F oldsz newsz :
  uspace s pt n F → n = PGROUNDUP oldsz / PGSIZE → 0 ≤ oldsz ≤ TRAPFRAME → oldsz ≤ newsz < 2 ^ 64 →
  wp (uvmalloc pt oldsz newsz)
     (λ r s', ∃ F',
        r = newsz ∧ utrans pt s n F s' (PGROUNDUP newsz / PGSIZE) F' ∧
          (∀ i, n ≤ i < PGROUNDUP newsz / PGSIZE → fresh_zero s' pt (i * PGSIZE)) ∧
          newsz ≤ 32768 * PGSIZE ∧ Z.of_nat (length F) ≤ Z.of_nat (length F') + 3 * (PGROUNDUP newsz / PGSIZE - n) ∨
        r = 0 ∧ utrans pt s n F s' n F' ∧ Z.of_nat (length F) ≤ 3 * ((newsz + PGSIZE - 1) / PGSIZE - n)) s.
Proof.
  intros Hu En Hsz Hmax. assert (TRAPFRAME = 274877898752) as ET by done.
  pose proof Hu as (_ & Hn0 & _). unfold uvmalloc. rewrite (proj2 (Z.ltb_ge newsz oldsz)) by lia.
  pose proof (uspace_bound _ _ _ _ Hu) as Hub.
  destruct (PGROUNDUP_bounds oldsz) as [Ho1 Ho2]; [pglia|].
  replace (PGROUNDUP oldsz) with (n * PGSIZE) by pglia.
  eapply (wp_loop
    (λ a s', ∃ k F', n ≤ k ∧ a = k * PGSIZE ∧ a < newsz + PGSIZE ∧
       utrans pt s n F s' k F' ∧ Z.of_nat (length F) ≤ Z.of_nat (length F') + 3 * (k - n) ∧
       ∀ i, n ≤ i < k → fresh_zero s' pt (i * PGSIZE))
    (λ a _, Z.to_nat ((newsz + PGSIZE - a) / PGSIZE))).
  - pglia.
  - exists n, F. split_and!; [lia|lia|pglia|by apply utrans_refl|lia|]. intros i Hi. lia.
  - intros a s1 (k & F1 & Hk & -> & Ha & Ht & Hl1 & Hz). destruct (decide (k * PGSIZE < newsz)).
    + eapply wp_mono; [apply (uvmalloc_turn_run pt s1 k F1 n newsz); [apply Ht|lia|pglia]|].
      intros [a|z] s2 (F2 & H2).
      * destruct H2 as (-> & Ht2 & Hz2 & Hl2). split; [|pglia].
        exists (k + 1), F2. split_and!; [lia|lia|pglia| |lia|].
        -- by eapply (utrans_trans pt s n F s1 k F1); [| | |exact Ht|exact Ht2]; [|lia|lia].
        -- intros i Hi. destruct (decide (i < k)); [|by replace i with k by lia].
           eapply fresh_zero_utrans; [apply Ht|exact Ht2|lia|lia|]. apply Hz. lia.
      * destruct H2 as (-> & Hl2 & s3 & F3 & Ht3 & Ht4). exists F2. right. split; [done|]. split; [|pglia].
        eapply (utrans_trans pt s n F s3 k F3); [done|lia|lia| |exact Ht4].
        eapply (utrans_trans pt s n F s1 k F1); [done|lia|lia|exact Ht|exact Ht3].
    + unfold uvmalloc_turn. rewrite (proj2 (Z.ltb_ge _ _)) by lia. wp_run.
      destruct Ht as (Hu1 & Ht'). pose proof (uspace_bound _ _ _ _ Hu1). assert (Ht := conj Hu1 Ht').
      destruct (PGROUNDUP_bounds newsz) as [Hn1 Hn2]; [pglia|].
      exists F1. left. assert (PGROUNDUP newsz / PGSIZE = k) as -> by pglia. split_and!; [done..|pglia|lia].
Qed.

(** Isolation: what happens to one address space does not touch another. *)
Lemma utrans_other pt s n F s' n' F' old k :
  uspace s pt n F → utrans pt s n F s' n' F' →
  uspace s old k F → NoDup (upages s old k ++ upages s pt n ++ F) →
  uspace s' old k F' ∧ NoDup (upages s' old k ++ upages s' pt n' ++ F') ∧
  (∀ va, pteval 2 (mm s') old va = pteval 2 (mm s) old va) ∧
  (∀ q, q ∈ upages s old k → agree (mm s) (mm s') q PGSIZE).
Proof.
  intros Hu (Hu' & Hp & _ & Hf) Ho Hnd.
  pose proof Hu as (_ & Hn0 & _ & _ & Hok & _). pose proof Hu' as (Hk' & Hn0' & _).
  pose proof Ho as ((_ & _ & _ & HokF) & Hk0 & Hkm & _ & Hoko & Hleaf & Hfree & Htop & Hio).
  assert (∀ q, q ∈ upages s old k → agree (mm s) (mm s') q PGSIZE) as Hag.
  { intros q Hq. apply list.NoDup_app in Hnd as (_ & Hdis & _).
    assert (frame (upages s pt n ++ F) (mm s) (mm s')) as Hf'.
    { eapply frame_mono; [|exact Hf]. intros x. rewrite !elem_of_app. unfold upages.
      rewrite elem_of_app, !phys_pages_elem. intros [(i & -> & Hi)|[Hx|Hx]]; [|tauto..].
      do 2 left. exists (n' + i). split; [do 2 f_equal|]; lia. }
    eapply frame_agree; [| |by apply Hdis|exact Hf'].
    - rewrite Forall_app. by split; apply aligned_of_page_ok.
    - apply (Forall_elem _ _ q Hoko Hq). }
  assert (∀ q, q ∈ ptpages 2 (mm s) old → agree (mm s) (mm s') q PGSIZE) as Hagp.
  { intros q Hq. apply Hag, elem_of_app. by right. }
  assert (∀ va, pteval 2 (mm s') old va = pteval 2 (mm s) old va) as Hv
    by (intros va; by apply pteval_agree).
  assert (upages s' old k = upages s old k) as Eu.
  { unfold upages. f_equal; [apply phys_pages_ext; intros; apply Hv|by apply ptpages_agree]. }
  assert (NoDup (upages s' old k ++ upages s' pt n' ++ F')) as Hnd' by by rewrite Eu, Hp.
  split; [|by split_and!]. split_and!; try done.
  - eapply sublist_NoDup; [exact Hnd'|]. apply sublist_app; [done|by apply sublist_inserts_l].
  - by rewrite Eu.
  - intros i Hi. rewrite Hv. by apply Hleaf.
  - intros va Hva. rewrite Hv. by apply Hfree.
  - intros va Hva. rewrite Hv. by apply Htop.
  - by eapply inner_ok_agree.
Qed.

(** Page [a] of [new] in [s'] is a copy of page [a] of [old] in [s]. *)
Definition page_copied (s : kst) (old : Z) (s' : kst) (new a : Z) : Prop :=
  let e := pteval 2 (mm s) old a in
  let e' := pteval 2 (mm s') new a in
  PTE_FLAGS e' = PTE_FLAGS e ∧
  ∀ x, 0 ≤ x < PGSIZE → load8 (mm s') (PTE2PA e' + x) = load8 (mm s) (PTE2PA e + x).

Lemma page_copied_utrans s0 old pt s n F s' n' F' i :
  uspace s pt n F → utrans pt s n F s' n' F' → 0 ≤ i < n → i < n' →
  page_copied s0 old s pt (i * PGSIZE) → page_copied s0 old s' pt (i * PGSIZE).
Proof.
  intros Hu Ht Hi Hi' [Hfl Hz]. pose proof (utrans_contents _ _ _ _ _ _ _ _ Hu Ht Hi Hi') as Ha.
  assert (TRAPFRAME = 274877898752) as ET by done. assert (SV39 = 549755813888) as ES by done.
  assert (MAXVA = 274877906944) as EM by done.
  destruct Hu as (_ & _ & Hm & _). destruct Ht as (_ & _ & Hv & _).
  unfold page_copied. rewrite Hv by pglia. split; [done|].
  intros x Hx. rewrite Ha by lia. by apply Hz.
Qed.

Lemma lor_V fl : has PTE_V fl = true → Z.lor fl PTE_V = fl.
Proof.
  unfold has, truthy, PTE_V. change 1 with (Z.ones 1). rewrite Z.land_ones by done.
  intros H1%negb_true_iff%Z.eqb_neq. apply Z.bits_inj'. intros i Hi.
  rewrite Z.lor_spec, Z.testbit_ones_nonneg by lia. destruct (Z.ltb_spec i 1); [|by rewrite orb_false_r].
  replace i with 0 by lia. rewrite orb_true_r. pose proof (Z.bit0_mod fl) as E.
  destruct (Z.testbit fl 0); [done|]. by cbn in E.
Qed.

(** One page more: a turn of [uvmcopy]. *)
Lemma uvmcopy_turn_run old new s n k F sz :
  uspace s new k F → uspace s old n F → NoDup (upages s old n ++ upages s new k ++ F) →
  0 ≤ k < n → k * PGSIZE < sz →
  wp (uvmcopy_turn old new sz (k * PGSIZE))
     (λ r s', ∃ F', match r with
        | inl a => a = (k + 1) * PGSIZE ∧ utrans new s k F s' (k + 1) F' ∧
                   page_copied s old s' new (k * PGSIZE)
        | inr z => z = -1 ∧ ∃ s1 F1, utrans new s k F s1 k F1 ∧ utrans new s1 k F1 s' 0 F'
        end) s.
Proof.
  intros Hu Ho Hnd Hk Hsz. pose proof Ho as (Hkm & _ & Hmax & _ & Hok & Hleaf & _).
  assert (TRAPFRAME = 274877898752) as ET by done. assert (SV39 = 549755813888) as ES by done.
  assert (MAXVA = 274877906944) as EM by done.
  assert (∀ s1 F1, utrans new s k F s1 k F1 →
    wp (uvmcopy_err new (k * PGSIZE))
      (λ r s', r = inr (-1) ∧ ∃ s1 F1 F', utrans new s k F s1 k F1 ∧ utrans new s1 k F1 s' 0 F') s1) as Hback.
  { intros s1 F1 Ht. unfold uvmcopy_err. rewrite Z.div_mul by done.
    replace k with (k - 0) at 1 by lia. wp_use (uvmunmap_uspace new s1 k 0 F1); [apply Ht|lia|].
    intros [] s' (F' & Ht'). wp_run. eauto 10. }
  unfold uvmcopy_turn. rewrite (proj2 (Z.ltb_lt _ _)) by lia.
  set (e := pteval 2 (mm s) old (k * PGSIZE)).
  destruct (Hleaf k ltac:(lia)) as [Hv Hfl]. fold e in Hv, Hfl.
  destruct (walk_find_valid old (k * PGSIZE) s F) as (r & Ew & Hr & El & Er).
  { by eapply uspace_pt_wf. }
  { pglia. }
  { fold e. intros E0. by rewrite E0, has_0 in Hv. }
  apply wp_bind. eapply wp_intro; [exact Ew|]. rewrite (proj2 (Z.eqb_neq r 0)) by done.
  wp_run. rewrite Er. fold e. rewrite Hv. cbn [negb].
  wp_use kalloc_run; [exact Hkm|]. destruct F as [|p F].
  { intros r1 s1 [-> ->]. cbn [Z.eqb]. eapply wp_mono; [eapply Hback; by apply utrans_refl|].
    intros x s2 (-> & s1 & F1 & F' & H1 & H2). eauto 10. }
  intros r1 s1 (-> & Hk1 & Hw1). pose proof (written_only_page _ _ _ _ Hw1) as Ho1.
  destruct (uspace_kalloc _ _ _ _ _ _ Hu Hk1 Ho1) as (_ & _ & _ & Hp & _).
  pose proof (page_ok_pos p Hp). rewrite (proj2 (Z.eqb_neq p 0)) by lia.
  assert (p ∉ F ∧ PTE2PA e ≠ p ∧ page_ok (PTE2PA e)) as (HpF & Hpe & Hpok).
  { assert (PTE2PA e ∈ upages s old n) as Hin.
    { apply elem_of_app. left. apply phys_pages_elem. exists k. split; [done|lia]. }
    destruct Hkm as (_ & _ & Hkn & _). apply list.NoDup_cons in Hkn as [? _].
    apply list.NoDup_app in Hnd as (_ & Hdis & _). split_and!; [done| |exact (Forall_elem _ _ _ Hok Hin)].
    intros E. apply (Hdis _ Hin). rewrite E, elem_of_app, elem_of_cons. tauto. }
  pose proof (only_page_agree _ _ _ (PTE2PA e) Hp Hpok ltac:(congruence) Ho1) as Hsrc.
  wp_use kmemmove_run; [unfold PGSIZE; lia|]. intros r1 s2 (m & -> & -> & Hw2).
  pose proof (written_only_page _ _ _ _ Hw2) as Ho2.
  wp_run. eapply wp_mono; [eapply (mappages_uspace new s k p F); [exact Hu| | |pglia| |]|].
  - by apply (kmem_inv_only_page s1 m p F).
  - intros x Hx. rewrite mm_set_mm, Ho2 by done. by apply Ho1.
  - rewrite PTE_FLAGS_eq. apply Z.mod_pos_bound. lia.
  - rewrite lor_V; [done|]. by rewrite has_flags in Hv by (unfold PTE_V; lia).
  - intros r1 s3 [(-> & (F' & Ht & _) & Hv3 & Ha)|(-> & _ & Hfree)]; cbn [Z.eqb negb].
    + wp_run. exists F'. rewrite u64_small by pglia. split_and!; [lia|done|].
      rewrite lor_V in Hv3 by (by rewrite has_flags in Hv by (unfold PTE_V; lia)).
      pose proof (page_ok_bound p Hp). destruct Hp as [Hpal _]. unfold page_copied. fold e.
      assert (0 ≤ PTE_FLAGS e < 1024) by (rewrite PTE_FLAGS_eq; apply Z.mod_pos_bound; lia).
      rewrite Hv3, mkpte_FLAGS, mkpte_PA by (lia || done). split; [done|].
      intros x Hx. rewrite Ha by lia. rewrite mm_set_mm, Hw2. ztest.
      rewrite Hsrc by lia. f_equal. lia.
    + wp_run. eapply wp_mono; [exact Hfree|]. intros [] s4 (F4 & Ht4).
      eapply wp_mono; [eapply Hback; exact Ht4|].
      intros x s5 (-> & s6 & F6 & F' & H1 & H2). eauto 10.
Qed.

Lemma uvmcopy_run old new s n F sz :
  uspace s new 0 F → uspace s old n F → NoDup (upages s old n ++ upages s new 0 ++ F) →
  0 ≤ sz ≤ TRAPFRAME → n = PGROUNDUP sz / PGSIZE →
  wp (uvmcopy old new sz)
     (λ r s', ∃ F',
        r = 0 ∧ utrans new s 0 F s' n F' ∧
          (∀ i, 0 ≤ i < n → page_copied s old s' new (i * PGSIZE)) ∨
        r = -1 ∧ utrans new s 0 F s' 0 F') s.
Proof.
  intros Hu Ho Hnd Hsz En. assert (TRAPFRAME = 274877898752) as ET by done.
  destruct (PGROUNDUP_bounds sz) as [Hn1 Hn2]; [pglia|]. unfold uvmcopy.
  eapply (wp_loop
    (λ a s', ∃ k F', 0 ≤ k ≤ n ∧ a = k * PGSIZE ∧ utrans new s 0 F s' k F' ∧
       ∀ i, 0 ≤ i < k → page_copied s old s' new (i * PGSIZE))
    (λ a _, Z.to_nat ((sz + PGSIZE - a) / PGSIZE))).
  - pglia.
  - exists 0, F. split_and!; [lia|pglia|lia|by apply utrans_refl|]. intros i Hi. lia.
  - intros a s1 (k & F1 & Hk & -> & Ht & Hc).
    destruct (utrans_other _ _ _ _ _ _ _ old n Hu Ht Ho Hnd) as (Ho1 & Hnd1 & Hv1 & Hag1).
    destruct (decide (k * PGSIZE < sz)) as [Hlt|Hge].
    + eapply wp_mono; [apply (uvmcopy_turn_run old new s1 n k F1 sz); [apply Ht|done|done|pglia|done]|].
      intros [a|z] s2 (F2 & H2).
      * destruct H2 as (-> & Ht2 & Hc2). split; [|pglia].
        exists (k + 1), F2. split_and!; [lia|pglia|lia| |].
        -- eapply (utrans_trans new s 0 F s1 k F1); [done|lia|lia|exact Ht|exact Ht2].
        -- intros i Hi. destruct (decide (i < k)).
           ++ eapply page_copied_utrans; [apply Ht|exact Ht2|lia|lia|]. apply Hc. lia.
           ++ replace i with k by lia. destruct Hc2 as [Hc2 Hc3]. unfold page_copied.
              rewrite <-Hv1. split; [done|]. intros x Hx. rewrite Hc3 by done.
              apply (Hag1 (PTE2PA (pteval 2 (mm s1) old (k * PGSIZE)))); [|lia].
              rewrite Hv1. apply elem_of_app. left. apply phys_pages_elem.
              exists k. split; [done|pglia].
      * destruct H2 as (-> & s3 & F3 & Ht3 & Ht4). exists F2. right. split; [done|].
        eapply (utrans_trans new s 0 F s3 k F3); [done|lia|lia| |exact Ht4].
        eapply (utrans_trans new s 0 F s1 k F1); [done|lia|lia|exact Ht|exact Ht3].
    + unfold uvmcopy_turn. rewrite (proj2 (Z.ltb_ge _ _)) by lia. wp_run.
      exists F1. left. assert (k = n) as -> by pglia. eauto.
Qed.

(** A new table maps nothing. *)
Lemma uvmcreate_run s F :
  kmem_inv s F →
  wp uvmcreate
     (λ r s', match F with
        | [] => r = 0 ∧ s' = s
        | p :: F' => r = p ∧ uspace s' p 0 F' ∧ upages s' p 0 = [p] ∧
            (∀ va, pteval 2 (mm s') p va = 0) ∧ frame [p] (mm s) (mm s')
        end) s.
Proof.
  intros Hk. unfold uvmcreate. wp_use kalloc_run; [done|]. destruct F as [|p F].
  { intros r s' [-> ->]. by wp_run. }
  intros r s1 (-> & Hk1 & Hw1). destruct Hk as (_ & _ & Hnd & Hok).
  apply Forall_cons_1 in Hok as [Hp Hok]. apply list.NoDup_cons in Hnd as [Hpn Hnd].
  pose proof (page_ok_pos p Hp). rewrite (proj2 (Z.eqb_neq p 0)) by lia.
  wp_use kmemset_run; [unfold PGSIZE; lia|]. intros r s2 (m & -> & -> & Hw2). wp_run.
  assert (∀ x, p ≤ x < p + PGSIZE → load8 m x = 0) as Hz by (intros x Hx; rewrite Hw2; by ztest).
  assert (ptpages 2 m p = [p]) as Ep by by apply ptpages_zero.
  assert (∀ va, pteval 2 m p va = 0) as Ev by (intros va; by apply pteval_zero).
  split; [done|]. rewrite mm_set_mm. split_and!; [|done|done|].
  - unfold uspace, upages. rewrite mm_set_mm, Ep. split_and!; try done.
    + by eapply kmem_inv_only_page, written_only_page.
    + cbn. by apply list.NoDup_cons.
    + by apply Forall_singleton.
    + intros i Hi. lia.
    + intros va _. by rewrite Ev, has_0.
    + intros va _. by rewrite Ev, has_0.
    + by apply inner_ok_zero.
  - eapply frame_trans; by eapply frame_written.
Qed.

(** Another table takes a page: the address spaces there are are not affected. *)
Lemma uspace_take pt s n p F s' :
  uspace s pt n (p :: F) → kmem_inv s' F → frame [p] (mm s) (mm s') →
  uspace s' pt n F ∧ upages s' pt n = upages s pt n ∧
  ∀ va, pteval 2 (mm s') pt va = pteval 2 (mm s) pt va.
Proof.
  intros Hu Hk' Hf.
  assert (only_page (mm s) (mm s') p) as Ho.
  { intros x Hx. apply Hf. by intros q ->%list_elem_of_singleton. }
  destruct (uspace_kalloc _ _ _ _ _ _ Hu Hk' Ho) as (_ & Ep & Ev & _ & Hin).
  assert (upages s' pt n = upages s pt n) as Eu.
  { rewrite (upages_ext s s') by (intros; apply Ev). by rewrite Ep. }
  destruct Hu as (_ & Hn & Hmax & Hnd & Hok & Hleaf & Hfree & Htop & _).
  split; [|done]. split_and!; try done.
  - rewrite Eu. rewrite <-Permutation_middle in Hnd. by apply list.NoDup_cons in Hnd as [_ ?].
  - by rewrite Eu.
  - intros i Hi. rewrite Ev. by apply Hleaf.
  - intros va Hva. rewrite Ev. by apply Hfree.
  - intros va Hva. rewrite Ev. by apply Htop.
Qed.

(** C18. [uvmalloc] grows an address space or leaves it as it was: it
    returns (no panic, no endless loop), and either the size is the new one,
    the pages that were mapped keep their entries and their contents, and the
    new pages are zeroed and accessible to the user, or it returns 0 and the
    address space has its old size and entries.  In both cases the pages of
    the machine are conserved: tables, mapped pages and free pages together
    are the same, without duplicates, before and after; and no page outside
    the tables and the free pages is written.  It fails only for lack of pages:
    with more than three free pages for each page to add it succeeds. *)
Theorem uvmalloc_correct pt s n F oldsz newsz :
  uspace s pt n F → n = PGROUNDUP oldsz / PGSIZE → 0 ≤ oldsz ≤ TRAPFRAME → oldsz ≤ newsz < 2 ^ 64 →
  ∃ r s' F', uvmalloc pt oldsz newsz s = OK r s' ∧
    (r = newsz ∧ utrans pt s n F s' (PGROUNDUP newsz / PGSIZE) F' ∧
       (∀ i, n ≤ i < PGROUNDUP newsz / PGSIZE → fresh_zero s' pt (i * PGSIZE)) ∧
       newsz ≤ 32768 * PGSIZE ∨
     r = 0 ∧ utrans pt s n F s' n F' ∧ Z.of_nat (length F) ≤ 3 * ((newsz + PGSIZE - 1) / PGSIZE - n)) ∧
    (∀ i, 0 ≤ i < n → agree (mm s) (mm s') (PTE2PA (pteval 2 (mm s) pt (i * PGSIZE))) PGSIZE).
Proof.
  intros Hu En Hsz Hmax. assert (TRAPFRAME = 274877898752) as ET by done.
  pose proof (uvmalloc_run pt s n F oldsz newsz Hu En Hsz Hmax) as W.
  destruct (PGROUNDUP_bounds oldsz) as [Ho1 Ho2]; [pglia|].
  apply wp_OK in W as (r & s' & E & F' & HQ). exists r, s', F'. split_and!; [done|tauto|].
  intros i Hi. destruct HQ as [(_ & Ht & _ & Hle & _)|(_ & Ht & _)];
    [destruct (PGROUNDUP_bounds newsz) as [Hn1 Hn2]; [pglia|]|]; eapply utrans_contents; (exact Ht || exact Hu || pglia).
Qed.

(** [uvmdealloc] shrinks an address space to the smaller of the
    two sizes: the pages below keep their entries and their contents, those
    above are unmapped and go to the allocator, and no other page changes. *)
Theorem uvmdealloc_correct pt s n F oldsz newsz :
  uspace s pt n F → n = PGROUNDUP oldsz / PGSIZE → 0 ≤ oldsz ≤ TRAPFRAME → 0 ≤ newsz →
  let sz := Z.min oldsz newsz in
  let n' := PGROUNDUP sz / PGSIZE in
  ∃ s' F', uvmdealloc pt oldsz newsz s = OK sz s' ∧ utrans pt s n F s' n' F' ∧
    (∀ i, 0 ≤ i < n' → agree (mm s) (mm s') (PTE2PA (pteval 2 (mm s) pt (i * PGSIZE))) PGSIZE).
Proof.
  intros Hu En Hsz Hnew sz n'. assert (TRAPFRAME = 274877898752) as ET by done.
  pose proof (uvmdealloc_uspace pt s n F oldsz newsz Hu En Hnew) as W.
  destruct (PGROUNDUP_bounds oldsz) as [Ho1 Ho2]; [pglia|].
  destruct (PGROUNDUP_bounds sz) as [Hn1 Hn2]; [unfold sz; pglia|].
  specialize (W ltac:(lia) ltac:(lia)). apply wp_OK in W as (r & s' & E & -> & F' & Ht).
  exists s', F'. split_and!; [done|done|]. intros i Hi.
  eapply utrans_contents; [exact Hu|exact Ht| |apply Hi]. unfold n', sz in *. pglia.
Qed.


End uvm.

(** ** A concrete machine with sixteen pages of RAM *)

Definition ex16_layout : Layout :=
  {| kend := PHYSTOP - 16 * PGSIZE; etext := KERNBASE + 2 * PGSIZE;
     trampoline := KERNBASE + PGSIZE |}.
Lemma ex16_layout_ok : @LayoutOk ex16_layout.
Proof. split; vm_compute; repeat split; discriminate || reflexivity. Qed.

Definition run {S A} (m : M S A) (s : S) : S := match m s with OK _ s' => s' | _ => s end.

Definition ex_pt : Z := PHYSTOP - PGSIZE.
Definition ex_pt2 : Z := PHYSTOP - 2 * PGSIZE.
Definition ex_free : list Z := reverse (pages_from (PHYSTOP - 14 * PGSIZE - 2 * PGSIZE) 14).

Section ex.
#[local] Existing Instances ex16_layout ex16_layout_ok.

Definition ex_ram : kst := run kinit ex_boot.
Lemma ex_ram_inv : kmem_inv ex_ram (ex_pt :: ex_pt2 :: ex_free).
Proof.
  split_and!; [vm_compute; reflexivity|vm_compute; repeat split| |].
  - apply (bool_decide_unpack _). vm_compute. exact I.
  - repeat constructor; discriminate.
Qed.

(** Two empty address spaces, [ex_pt] and [ex_pt2]. *)
Definition ex_u0 : kst := run uvmcreate (run uvmcreate ex_ram).

Lemma run_wp {S A} (m : M S A) Q s : wp m Q s → ∃ a, m s = OK a (run m s) ∧ Q a (run m s).
Proof. unfold wp, run. destruct (m s); naive_solver. Qed.

Lemma uvmcreate_twice s p q F :
  kmem_inv s (p :: q :: F) →
  let s' := run uvmcreate (run uvmcreate s) in
  uspace s' p 0 F ∧ uspace s' q 0 F ∧ NoDup (upages s' p 0 ++ upages s' q 0 ++ F) ∧
  ∀ va, pteval 2 (mm s') p va = 0.
Proof.
  intros Hk s'. pose proof Hk as (_ & _ & Hnd & _).
  destruct (run_wp _ _ _ (uvmcreate_run s _ Hk)) as (r & _ & _ & Hu & Eu & Ev & _).
  destruct (run_wp _ _ _ (uvmcreate_run _ _ (proj1 Hu))) as (r2 & _ & _ & Hu2 & Eu2 & _ & Hf).
  destruct (uspace_take _ _ _ _ _ _ Hu (proj1 Hu2) Hf) as (Hu1 & Eu1 & Ev1).
  split_and!; [exact Hu1|exact Hu2|unfold s'; by rewrite Eu1, Eu, Eu2|].
  intros va. unfold s'. by rewrite Ev1, Ev.
Qed.

Lemma ex_u0_spaces :
  uspace ex_u0 ex_pt 0 ex_free ∧ uspace ex_u0 ex_pt2 0 ex_free ∧
  NoDup (upages ex_u0 ex_pt 0 ++ upages ex_u0 ex_pt2 0 ++ ex_free) ∧
  ∀ va, pteval 2 (mm ex_u0) ex_pt va = 0.
Proof. exact (uvmcreate_twice ex_ram ex_pt ex_pt2 ex_free ex_ram_inv). Qed.

(** [ex_pt] grown to two pages. *)
Definition ex_u : kst := run (uvmalloc ex_pt 0 5000) ex_u0.

Lemma ex_u0_grows : match uvmalloc ex_pt 0 5000 ex_u0 with OK r _ => r | _ => -1 end = 5000.
Proof. vm_compute. reflexivity. Qed.

Lemma uvmalloc_correct_witness :
  ∃ s' F', uvmalloc ex_pt 0 5000 ex_u0 = OK 5000 s' ∧ utrans ex_pt ex_u0 0 ex_free s' 2 F' ∧
           fresh_zero s' ex_pt PGSIZE.
Proof.
  destruct (uvmalloc_correct ex_pt ex_u0 0 ex_free 0 5000) as (r & s' & F' & E & H & _).
  - exact (proj1 ex_u0_spaces).
  - reflexivity.
  - split; [lia|discriminate].
  - lia.
  - exists s', F'. change (PGROUNDUP 5000 / PGSIZE) with 2 in H.
    assert (r = 5000) as ->.
    { pose proof ex_u0_grows as Er. rewrite E in Er. exact Er. }
    destruct H as [(_ & Ht & Hz & _)|[H0 _]]; [|discriminate H0].
    split; [exact E|]. split; [exact Ht|]. apply (Hz 1). lia.
Defined.

Lemma uvmalloc_two s p q F :
  uspace s p 0 F → uspace s q 0 F → NoDup (upages s p 0 ++ upages s q 0 ++ F) →
  match uvmalloc p 0 5000 s with OK r _ => r | _ => -1 end = 5000 →
  let s' := run (uvmalloc p 0 5000) s in
  ∃ F', uspace s' p 2 F' ∧ uspace s' q 0 F' ∧ NoDup (upages s' p 2 ++ upages s' q 0 ++ F') ∧
        utrans p s 0 F s' 2 F'.
Proof.
  intros Hp Hq Hnd Er s'.
  destruct (run_wp _ _ _ (uvmalloc_run p s 0 F 0 5000 Hp eq_refl ltac:(done) ltac:(done)))
    as (r & E & F' & [(_ & Ht & _)|[-> _]]); [|by rewrite E in Er].
  change (PGROUNDUP 5000 / PGSIZE) with 2 in Ht. exists F'.
  rewrite Permutation_app_swap_app in Hnd.
  destruct (utrans_other _ _ _ _ _ _ _ q 0 Hp Ht Hq Hnd) as (Hq' & Hnd' & _).
  split_and!; [apply Ht|done|by rewrite Permutation_app_swap_app|done].
Qed.

Lemma ex_u_spaces :
  ∃ F, uspace ex_u ex_pt 2 F ∧ uspace ex_u ex_pt2 0 F ∧
       NoDup (upages ex_u ex_pt 2 ++ upages ex_u ex_pt2 0 ++ F) ∧
       utrans ex_pt ex_u0 0 ex_free ex_u 2 F.
Proof.
  exact (uvmalloc_two ex_u0 ex_pt ex_pt2 ex_free (proj1 ex_u0_spaces)
    (proj1 (proj2 ex_u0_spaces)) (proj1 (proj2 (proj2 ex_u0_spaces))) ex_u0_grows).
Qed.

Lemma ex_u_above va : 2 * PGSIZE ≤ va < SV39 → has PTE_V (pteval 2 (mm ex_u) ex_pt va) = false.
Proof.
  intros Hva. destruct ex_u_spaces as (F & Hu & _ & _ & Ht).
  destruct (decide (va < TRAPFRAME)) as [|Hge].
  - destruct Hu as (_ & _ & _ & _ & _ & _ & Hfree & _). apply Hfree. lia.
  - destruct Ht as (_ & _ & Hv & _).
    rewrite Hv, (proj2 (proj2 (proj2 ex_u0_spaces))); [apply has_0|pglia|lia].
Qed.

Lemma uvmdealloc_correct_witness :
  ∃ F s' F', uvmdealloc ex_pt 5000 100 ex_u = OK 100 s' ∧ utrans ex_pt ex_u 2 F s' 1 F'.
Proof.
  destruct ex_u_spaces as (F & Hu & _).
  destruct (uvmdealloc_correct ex_pt ex_u 2 F 5000 100 Hu eq_refl) as (s' & F' & E & Ht & _).
  - split; discriminate.
  - discriminate.
  - exists F, s', F'. split; [exact E|exact Ht].
Defined.

Lemma ex_u_copies : match uvmcopy ex_pt ex_pt2 5000 ex_u with OK r _ => r | _ => -1 end = 0.
Proof. vm_compute. reflexivity. Qed.


End ex.
