(* ===== verification/FreeWalk.v ===== *)
(** * Freeing page tables: [freewalk] and [uvmfree] of kernel/vm.c

    [freewalk] returns every page of a page table without leaf mappings to
    the allocator, each once, and [uvmfree] every page of an address space. *)

From stdpp Require Import base gmap list strings numbers.
From S2P Require Import Prelude Machine Riscv KString Kalloc Vm PageTable Uvm.

(** No level-0 table of the tree has a valid entry. *)
Fixpoint no_leaf (lvl : nat) (m : mem) (pt : Z) : Prop :=
  match lvl with
  | O => ∀ i, 0 ≤ i < 512 → has PTE_V (load64 m (pt + 8 * i)) = false
  | S l => ∀ i, 0 ≤ i < 512 → has PTE_V (load64 m (pt + 8 * i)) = true →
             no_leaf l m (PTE2PA (load64 m (pt + 8 * i)))
  end.

(** The pages below entry [i]. *)
Definition kids (lvl : nat) (m : mem) (pt i : Z) : list Z :=
  match lvl with
  | O => []
  | S l => if has PTE_V (load64 m (pt + 8 * i))
           then ptpages l m (PTE2PA (load64 m (pt + 8 * i))) else []
  end.

Lemma ptpages_kids lvl m pt : ptpages lvl m pt = pt :: (indices ≫= kids lvl m pt).
Proof.
  destruct lvl as [|l]; [|done]. cbn [ptpages kids].
  assert (∀ l : list Z, (l ≫= λ _, []) = @nil Z) as E by (intros l; by induction l).
  by rewrite E.
Qed.

Lemma no_leaf_agree lvl m m' pt :
  (∀ q, q ∈ ptpages lvl m pt → agree m m' q PGSIZE) → no_leaf lvl m pt → no_leaf lvl m' pt.
Proof.
  revert pt. induction lvl as [|l IH]; intros pt Ha Hok i Hi;
    rewrite (agree_entry m m') by (done || apply Ha, ptpages_head); [by apply Hok|].
  intros Hv. apply IH; [|by apply Hok]. intros q Hq. apply Ha. by eapply ptpages_child.
Qed.

(** A table that maps no address has no leaf: every path of indices is the
    path of an address. *)
Lemma no_leaf_pteval lvl m pt :
  (∀ va, 0 ≤ va < 2 ^ (12 + 9 * (Z.of_nat lvl + 1)) → has PTE_V (pteval lvl m pt va) = false) →
  no_leaf lvl m pt.
Proof.
  revert pt. induction lvl as [|l IH]; intros pt Hva i Hi.
  - specialize (Hva (i * 2 ^ 12)). unfold pteval in Hva. cbn [leaf_addr] in Hva.
    replace (PX 0 (i * 2 ^ 12)) with i in Hva; [apply Hva; lia|].
    rewrite PX_eq by lia. rewrite Z.div_mul by lia. symmetry. apply Z.mod_small. lia.
  - intros Hv. apply IH. intros va Hr. set (B := 2 ^ (12 + 9 * (Z.of_nat l + 1))) in *.
    assert (0 < B) as HB by (unfold B; lia).
    assert (∀ k, 0 ≤ k ≤ Z.of_nat l → PX k (i * B + va) = PX k va) as Hlow.
    { intros k Hk. rewrite !PX_eq by lia. unfold B.
      replace (12 + 9 * (Z.of_nat l + 1)) with (9 * (Z.of_nat l - k) + 9 + (12 + 9 * k)) by lia.
      rewrite Z.pow_add_r, Z.mul_assoc, Z.div_add_l by lia.
      rewrite (Z.pow_add_r 2 _ 9), Z.mul_assoc by lia.
      rewrite Z.add_comm. apply Z.mod_add. lia. }
    specialize (Hva (i * B + va)). unfold pteval in Hva |- *. cbn [leaf_addr] in Hva.
    replace (PX (Z.of_nat (S l)) (i * B + va)) with i in Hva.
    + rewrite Hv, (leaf_addr_PX _ _ _ (i * B + va) va) in Hva by done. apply Hva.
      replace (12 + 9 * (Z.of_nat (S l) + 1)) with (9 + (12 + 9 * (Z.of_nat l + 1))) by lia.
      rewrite Z.pow_add_r by lia. fold B. nia.
    + rewrite PX_eq by lia. replace (12 + 9 * Z.of_nat (S l)) with (12 + 9 * (Z.of_nat l + 1)) by lia.
      fold B. rewrite Z.div_add_l, (Z.div_small va) by lia.
      rewrite Z.add_0_r. symmetry. apply Z.mod_small. lia.
Qed.

Lemma bind_seqZ_snoc {A} (f : Z → list A) i :
  0 ≤ i → seqZ 0 (i + 1) ≫= f = (seqZ 0 i ≫= f) ++ f i.
Proof.
  intros Hi. rewrite seqZ_app, bind_app by lia. f_equal.
  change (seqZ (0 + i) 1) with [0 + i]. cbn. by rewrite app_nil_r, Z.add_0_l.
Qed.

Section freewalk.
Context `{LO : LayoutOk}.

(** The entries before [i] have been freed. *)
Definition freed_to (lvl : nat) (pt : Z) (s : kst) (F : list Z) (i : Z) (s' : kst) : Prop :=
  ∃ l, l ≡ₚ (seqZ 0 i ≫= kids lvl (mm s) pt) ∧ kmem_inv s' (l ++ F) ∧
    frame (pt :: l) (mm s) (mm s') ∧
    ∀ j, i ≤ j < 512 → load64 (mm s') (pt + 8 * j) = load64 (mm s) (pt + 8 * j).

Definition freed (lvl : nat) (pt : Z) (s : kst) (F : list Z) (s' : kst) : Prop :=
  ∃ l, l ≡ₚ ptpages lvl (mm s) pt ∧ kmem_inv s' (l ++ F) ∧
    frame (ptpages lvl (mm s) pt) (mm s) (mm s').

Lemma freed_to_next lvl pt s F i s' :
  0 ≤ i < 512 → kids lvl (mm s) pt i = [] → freed_to lvl pt s F i s' →
  freed_to lvl pt s F (i + 1) s'.
Proof.
  intros Hi Ek (l & Hl & Hk & Hf & He). exists l. split_and!; [|done|done|].
  - by rewrite bind_seqZ_snoc, Ek, app_nil_r by lia.
  - intros j Hj. apply He. lia.
Qed.

(** What one needs to know of the table to free it. *)
Definition freeable (lvl : nat) (s : kst) (pt : Z) (F : list Z) : Prop :=
  pt_wf lvl s pt F ∧ inner_ok lvl (mm s) pt ∧ no_leaf lvl (mm s) pt.

(** The child under entry [i] is untouched by the freeing of those before. *)
Lemma freed_to_child lvl pt s F i s' l :
  freeable (S lvl) s pt F → 0 ≤ i < 512 → has PTE_V (load64 (mm s) (pt + 8 * i)) = true →
  l ≡ₚ (seqZ 0 i ≫= kids (S lvl) (mm s) pt) → kmem_inv s' (l ++ F) →
  frame (pt :: l) (mm s) (mm s') →
  let c := PTE2PA (load64 (mm s) (pt + 8 * i)) in
  freeable lvl s' c (l ++ F) ∧ ptpages lvl (mm s') c = ptpages lvl (mm s) c ∧
  NoDup (pt :: ptpages lvl (mm s) c ++ l ++ F).
Proof.
  intros (Hwf & Hin & Hnl) Hi Hv Hl Hk Hf c. pose proof (pt_wf_aligned _ _ _ _ Hwf) as Hal.
  pose proof (pt_wf_child _ _ _ _ _ Hi Hv Hwf) as Hwfc. fold c in Hwfc.
  destruct (Hin i Hi Hv) as [_ Hinc]. pose proof (Hnl i Hi Hv) as Hnlc. fold c in Hinc, Hnlc.
  destruct Hwf as (_ & Hn & _). rewrite ptpages_kids in Hn, Hal.
  assert (indices ≫= kids (S lvl) (mm s) pt ≡ₚ l ++ ptpages lvl (mm s) c ++
    (seqZ (i + 1) (511 - i) ≫= kids (S lvl) (mm s) pt)) as Esplit.
  { rewrite Hl. rewrite indices_eq. replace 512 with (i + 1 + (511 - i)) at 1 by lia.
    rewrite seqZ_app, bind_app, bind_seqZ_snoc by lia. rewrite <-app_assoc, Z.add_0_l.
    assert (kids (S lvl) (mm s) pt i = ptpages lvl (mm s) c) as -> by (cbn [kids]; by rewrite Hv).
    done. }
  rewrite Esplit in Hn, Hal. set (rest := seqZ _ _ ≫= _) in *.
  assert (NoDup (pt :: ptpages lvl (mm s) c ++ l ++ F)) as Hnd.
  { assert (pt :: (l ++ ptpages lvl (mm s) c ++ rest) ++ F ≡ₚ
      (pt :: ptpages lvl (mm s) c ++ l ++ F) ++ rest) as E.
    { cbn [app]. f_equiv. rewrite <-!app_assoc. rewrite (Permutation_app_comm rest).
      rewrite !app_assoc. do 2 f_equiv. apply Permutation_app_comm. }
    cbn [app] in Hn. rewrite E in Hn. by apply list.NoDup_app in Hn as [? _]. }
  pose proof Hnd as Hnd'. apply list.NoDup_cons in Hnd' as [Hpt Hnd'].
  rewrite elem_of_app in Hpt. apply list.NoDup_app in Hnd' as (_ & Hdis & _).
  assert (∀ q, q ∈ ptpages lvl (mm s) c → agree (mm s) (mm s') q PGSIZE) as Hag.
  { intros q Hq. eapply frame_agree; [| | |exact Hf].
    - apply Forall_cons_1 in Hal as [? Hal]. apply Forall_app in Hal as [? _]. by constructor.
    - apply Forall_cons_1 in Hal as [_ Hal]. apply Forall_app in Hal as [_ Hal].
      apply Forall_app in Hal as [Hal _]. by apply (Forall_elem _ _ q Hal).
    - rewrite elem_of_cons. intros [->|Hql]; [tauto|]. apply (Hdis q Hq), elem_of_app. by left. }
  assert (ptpages lvl (mm s') c = ptpages lvl (mm s) c) as Ep by by apply ptpages_agree.
  split_and!; [|done|done]. split_and!; [|by eapply inner_ok_agree|by eapply no_leaf_agree].
  split_and!; [done| |by rewrite Ep; apply Hwfc].
  rewrite Ep. by apply list.NoDup_cons in Hnd as [_ ?].
Qed.

Lemma freed_to_done lvl pt s F s' :
  freeable lvl s pt F → freed_to lvl pt s F 512 s' →
  wp (kfree pt) (λ _, freed lvl pt s F) s'.
Proof.
  intros ((_ & Hn & Hok) & _) (l & Hl & Hk & Hf & _).
  rewrite <-indices_eq in Hl. rewrite ptpages_kids, <-Hl in Hn.
  rewrite ptpages_kids in Hok. apply Forall_cons_1 in Hok as [Hok _].
  cbn [app] in Hn. apply list.NoDup_cons in Hn as [Hn _].
  eapply wp_mono; [by apply kfree_run|]. intros [] s'' [Hk' Ho].
  exists (pt :: l). rewrite ptpages_kids, <-Hl. split_and!; [done|done|].
  eapply frame_trans; [eapply frame_mono; [|exact Hf]|eapply frame_mono; [|by apply frame_only_page]].
  - intros q. rewrite !elem_of_cons, Hl. done.
  - intros q ->%list_elem_of_singleton. apply elem_of_cons. by left.
Qed.

(** The child under entry [i] was freed; its entry is cleared. *)
Lemma freed_to_clear lvl pt s F i s' s'' l :
  freeable (S lvl) s pt F → 0 ≤ i < 512 → has PTE_V (load64 (mm s) (pt + 8 * i)) = true →
  l ≡ₚ (seqZ 0 i ≫= kids (S lvl) (mm s) pt) → kmem_inv s' (l ++ F) →
  frame (pt :: l) (mm s) (mm s') →
  (∀ j, i ≤ j < 512 → load64 (mm s') (pt + 8 * j) = load64 (mm s) (pt + 8 * j)) →
  freed lvl (PTE2PA (load64 (mm s) (pt + 8 * i))) s' (l ++ F) s'' →
  freed_to (S lvl) pt s F (i + 1) (set_mm (store64 (mm s'') (pt + 8 * i) 0) s'').
Proof.
  intros Hfa Hi Hv Hl Hk Hf He (lc & Hlc & Hkc & Hfc).
  destruct (freed_to_child lvl pt s F i s' l Hfa Hi Hv Hl Hk Hf) as (((_ & _ & Hokc) & _) & Ep & Hnd).
  destruct Hfa as ((_ & _ & Hokp) & _). pose proof (Forall_elem _ _ _ Hokp (ptpages_head _ _ _)) as [Hptal _].
  set (c := PTE2PA _) in *. rewrite Ep in Hlc, Hfc, Hokc. rewrite <-Hlc in Hnd, Hokc.
  apply list.NoDup_cons in Hnd as [Hpt _].
  assert (frame [pt] (mm s'') (store64 (mm s'') (pt + 8 * i) 0)) as Hfs by by apply frame_store64.
  exists (lc ++ l). rewrite mm_set_mm. split_and!.
  - rewrite bind_seqZ_snoc, Hlc, Hl by lia. rewrite Permutation_app_comm. f_equiv.
    cbn [kids]. by rewrite Hv.
  - rewrite <-app_assoc. eapply (kmem_inv_frame s''); [done|done| |exact Hkc]. intros q Hq.
    destruct Hkc as (_ & _ & _ & HokF).
    eapply frame_agree; [by repeat constructor|apply (Forall_elem _ _ q HokF Hq)| |exact Hfs].
    intros ->%list_elem_of_singleton. done.
  - eapply frame_trans; [eapply frame_mono; [|exact Hf]|].
    + intros q. rewrite !elem_of_cons, elem_of_app. tauto.
    + eapply frame_trans; [eapply frame_mono; [|exact Hfc]|eapply frame_mono; [|exact Hfs]].
      * intros q. rewrite <-Hlc, elem_of_cons, elem_of_app. tauto.
      * intros q ->%list_elem_of_singleton. apply elem_of_cons. by left.
  - intros j Hj. rewrite load64_store64_out by lia. rewrite <-He by lia.
    apply agree_entry; [lia|]. eapply frame_agree; [| | |exact Hfc].
    + rewrite <-Hlc. by apply aligned_of_page_ok.
    + done.
    + rewrite <-Hlc. rewrite elem_of_app in Hpt. tauto.
Qed.

Lemma freewalk_run lvl pt s F :
  freeable lvl s pt F → wp (freewalk (S lvl) pt) (λ _, freed lvl pt s F) s.
Proof.
  revert pt s F. induction lvl as [|l IH]; intros pt s F Hok; cbn [freewalk];
    apply wp_bind; pose proof Hok as (Hwf & Hin & Hnl).
  - eapply (wp_for_loop (freed_to 0 pt s F)); [| |intros s'; by apply freed_to_done].
    + exists []. split_and!; [done|apply Hwf|apply frame_refl|done].
    + intros i s' Hi Hto. wp_run. pose proof Hto as (l & _ & _ & _ & He).
      rewrite He by lia.
      assert (has PTE_V (load64 (mm s) (pt + 8 * i)) = false) as -> by (apply Hnl; lia).
      cbn [andb]. wp_run. by apply freed_to_next; [lia| |].
  - eapply (wp_for_loop (freed_to (S l) pt s F)); [| |intros s'; by apply freed_to_done].
    + exists []. split_and!; [done|apply Hwf|apply frame_refl|done].
    + intros i s' Hi Hto. wp_run. pose proof Hto as (lf & Hl & Hk & Hf & He).
      rewrite He by lia. destruct (has PTE_V (load64 (mm s) (pt + 8 * i))) eqn:Hv; cbn [andb].
      * destruct (Hin i ltac:(lia) Hv) as [Hfl _].
        rewrite (land_low_flags _ (Z.lor (Z.lor PTE_R PTE_W) PTE_X)), Hfl by done.
        change (Z.land PTE_V _) with 0. cbn [Z.eqb]. apply wp_bind.
        destruct (freed_to_child l pt s F i s' lf Hok ltac:(lia) Hv Hl Hk Hf) as (Hfr & _).
        eapply wp_mono; [by apply IH|]. intros [] s'' Hfd. wp_run.
        by eapply freed_to_clear; [|lia|..].
      * wp_run. apply freed_to_next; [lia| |done]. cbn [kids]. by rewrite Hv.
Qed.

(** [uvmfree] hands all the pages of the address space to the allocator. *)
Lemma uvmfree_run pt s n F sz :
  uspace s pt n F → n = PGROUNDUP sz / PGSIZE → 0 ≤ sz ≤ TRAPFRAME →
  (∀ va, n * PGSIZE ≤ va < SV39 → has PTE_V (pteval 2 (mm s) pt va) = false) →
  wp (uvmfree pt sz)
     (λ _ s', ∃ F', kmem_inv s' F' ∧ F' ≡ₚ upages s pt n ++ F ∧
        frame (upages s pt n ++ F) (mm s) (mm s')) s.
Proof.
  intros Hu En Hsz Htop. assert (TRAPFRAME = 274877898752) as ET by done.
  assert (SV39 = 549755813888) as ES by done. pose proof Hu as (_ & Hn0 & _).
  destruct (PGROUNDUP_bounds sz) as [Hn1 Hn2]; [pglia|]. unfold uvmfree. apply wp_bind.
  assert (wp (if 0 <? sz then uvmunmap pt 0 (PGROUNDUP sz / PGSIZE) true else ret tt)
    (λ _ s1, ∃ F1, utrans pt s n F s1 0 F1) s) as Hun.
  { destruct (Z.ltb_spec 0 sz).
    - rewrite <-En. replace n with (n - 0) at 1 by lia. by apply (uvmunmap_uspace pt s n 0 F).
    - wp_run. exists F. replace n with 0 in * by pglia. by apply utrans_refl. }
  eapply wp_mono; [exact Hun|]. intros [] s1 (F1 & Hu1 & Hp1 & Hv1 & Hf1).
  assert (upages s1 pt 0 = ptpages 2 (mm s1) pt) as E0 by done.
  eapply wp_mono; [apply (freewalk_run 2 pt s1 F1)|].
  - split_and!; [by eapply uspace_pt_wf|apply Hu1|]. apply no_leaf_pteval. intros va Hva.
    destruct (decide (va < TRAPFRAME)).
    + destruct Hu1 as (_ & _ & _ & _ & _ & _ & Hfree & _). apply Hfree. lia.
    + rewrite Hv1 by (change (2 ^ _) with SV39 in Hva; lia).
      apply Htop. change (2 ^ _) with SV39 in Hva. destruct Hu as (_ & _ & Hm & _). lia.
  - intros [] s2 (l & Hl & Hk2 & Hf2). exists (l ++ F1). rewrite E0, <-Hl in Hp1.
    split_and!; [done|done|]. eapply frame_trans; [eapply frame_mono; [|exact Hf1]|
      eapply frame_mono; [|exact Hf2]]; intros q.
    + unfold upages. rewrite Z.sub_0_r, !elem_of_app. cbn [Z.mul]. tauto.
    + rewrite <-Hl, <-Hp1, elem_of_app. tauto.
Qed.

(** C23. [uvmfree] returns every page of an address space to the
    allocator, the pages it maps and the pages of its table, each exactly
    once: the free pages afterwards are these and those that were free
    before.  It does not panic, and touches no page of any other owner. *)
Theorem uvmfree_no_leak pt s n F sz :
  uspace s pt n F → n = PGROUNDUP sz / PGSIZE → 0 ≤ sz ≤ TRAPFRAME →
  (∀ va, n * PGSIZE ≤ va < SV39 → has PTE_V (pteval 2 (mm s) pt va) = false) →
  ∃ s' F', uvmfree pt sz s = OK tt s' ∧ kmem_inv s' F' ∧
    F' ≡ₚ phys_pages (pteval 2 (mm s) pt) 0 (Z.to_nat n) ++ ptpages 2 (mm s) pt ++ F ∧
    frame (upages s pt n ++ F) (mm s) (mm s').
Proof.
  intros Hu En Hsz Htop. pose proof (uvmfree_run pt s n F sz Hu En Hsz Htop) as W.
  apply wp_OK in W as ([] & s' & E & F' & Hk & Hp & Hf). exists s', F'.
  unfold upages at 1 in Hp. rewrite <-app_assoc in Hp. by split_and!.
Qed.

End freewalk.

Section ex.
#[local] Existing Instances ex16_layout ex16_layout_ok.

Lemma uvmfree_no_leak_witness :
  ∃ F s' F', uvmfree ex_pt 5000 ex_u = OK tt s' ∧ kmem_inv s' F' ∧
    F' ≡ₚ phys_pages (pteval 2 (mm ex_u) ex_pt) 0 2 ++ ptpages 2 (mm ex_u) ex_pt ++ F.
Proof.
  destruct ex_u_spaces as (F & Hu & _).
  destruct (uvmfree_no_leak ex_pt ex_u 2 F 5000 Hu) as (s' & F' & E & Hk & Hp & _).
  - reflexivity.
  - split; discriminate.
  - exact ex_u_above.
  - exists F, s', F'. split; [exact E|]. split; [exact Hk|exact Hp].
Defined.

End ex.
