(* ===== verification/UserCopy.v ===== *)
(** * Copying between kernel and user memory: [walkaddr], [copyin], [copyout]
      and [copyinstr] of kernel/vm.c

    User memory is what the page table maps with PTE_V and PTE_U below MAXVA
    ([uaddr]).  The theorems show that the three functions read and write
    exactly the bytes of the user's range, across page boundaries, that they
    fail exactly when a page of the range is not the user's, and that a
    failing [copyout] or [copyin] has copied a prefix. *)

From stdpp Require Import base gmap list strings numbers.
From S2P Require Import Prelude Machine Riscv KString Kalloc Vm PageTable Uvm.

(** The physical address of the user's byte [va]. *)
Definition uaddr (m : mem) (pt va : Z) : option Z :=
  let e := pteval 2 m pt va in
  if (va <? MAXVA) && has PTE_V e && has PTE_U e
  then Some (PTE2PA e + va mod PGSIZE) else None.

(** The [k] bytes from [va] on are the user's, and none of them is 0. *)
Definition unonzero (m : mem) (pt va k : Z) : Prop :=
  ∀ i, 0 ≤ i < k → ∃ a, uaddr m pt (va + i) = Some a ∧ load8 m a ≠ 0.

(** The bytes [src, src+k) are now the user's bytes [dstva, dstva+k), and
    nothing else changed. *)
Definition ucopied (m m' : mem) (pt dstva k src : Z) : Prop :=
  (∀ i a, 0 ≤ i < k → uaddr m pt (dstva + i) = Some a → load8 m' a = load8 m (src + i)) ∧
  (∀ x, (∀ i, 0 ≤ i < k → uaddr m pt (dstva + i) ≠ Some x) → load8 m' x = load8 m x).

(** [a, a+n) is disjoint from the pages [ps]. *)
Definition apart (ps : list Z) (a n : Z) : Prop :=
  ∀ q, q ∈ ps → a + n ≤ q ∨ q + PGSIZE ≤ a.

(** The pages that [va, va+len) touches. *)
Definition span (va len : Z) : nat :=
  if len =? 0 then 0 else Z.to_nat ((va mod PGSIZE + len + PGSIZE - 1) / PGSIZE).

(** The memory of an address space: [n] distinct pages, none of them a page of
    the table, and above them nothing the user can access. *)
Definition umap `{Layout} (m : mem) (pt n : Z) : Prop :=
  let f := pteval 2 m pt in
  NoDup (phys_pages f 0 (Z.to_nat n) ++ ptpages 2 m pt) ∧
  Forall page_ok (phys_pages f 0 (Z.to_nat n) ++ ptpages 2 m pt) ∧
  ∀ va, n * PGSIZE ≤ va < MAXVA → has PTE_V (f va) && has PTE_U (f va) = false.

Section copy.
Context `{LO : LayoutOk}.

Lemma uspace_umap s pt n F : uspace s pt n F → umap (mm s) pt n.
Proof.
  intros (_ & _ & Hmax & Hnd & Hok & _ & Hfree & Htop & _). assert (SV39 = 549755813888) as ES by done.
  assert (MAXVA = 274877906944) as EM by done. split_and!.
  - by apply list.NoDup_app in Hnd as [? _].
  - done.
  - intros va Hva. destruct (decide (va < TRAPFRAME)).
    + rewrite Hfree by lia. done.
    + destruct (has PTE_V (pteval 2 (mm s) pt va)) eqn:Hv; [|done].
      rewrite Htop; [done|lia|done].
Qed.

(** The map lives in the pages of the table. *)
Lemma umap_agree m m' pt n :
  umap m pt n → (∀ q, q ∈ ptpages 2 m pt → agree m m' q PGSIZE) →
  umap m' pt n ∧ (∀ va, uaddr m' pt va = uaddr m pt va) ∧
  ptpages 2 m' pt = ptpages 2 m pt ∧ ∀ va, pteval 2 m' pt va = pteval 2 m pt va.
Proof.
  intros (Hnd & Hok & Htop) Ha.
  assert (∀ va, pteval 2 m' pt va = pteval 2 m pt va) as Hv by (intros va; by apply pteval_agree).
  assert (ptpages 2 m' pt = ptpages 2 m pt) as Ep by by apply ptpages_agree.
  assert (phys_pages (pteval 2 m' pt) 0 (Z.to_nat n) = phys_pages (pteval 2 m pt) 0 (Z.to_nat n)) as Eph
    by (apply phys_pages_ext; intros; apply Hv).
  split; [|split_and!; [|done|done]].
  - split_and!; [by rewrite Eph, Ep|by rewrite Eph, Ep|]. intros va Hva. rewrite Hv. by apply Htop.
  - intros va. unfold uaddr. by rewrite Hv.
Qed.

(** [walkaddr] returns the page of a user address, and 0 for any other. *)
Lemma walkaddr_run pt va s n :
  umap (mm s) pt n → 0 ≤ va → va mod PGSIZE = 0 →
  walkaddr pt va s = OK (default 0 (uaddr (mm s) pt va)) s.
Proof.
  intros Hwf Hva Hal. unfold walkaddr, uaddr.
  destruct (Z.leb_spec MAXVA va) as [Hge|Hlt].
  { by rewrite (proj2 (Z.ltb_ge _ _)) by done. }
  rewrite (proj2 (Z.ltb_lt va MAXVA)) by done. cbn [andb].
  unfold bind. rewrite walk_find by done. unfold pteval.
  destruct (leaf_addr 2 (mm s) pt va) as [r|] eqn:E; cbn [from_option id].
  - assert (r ≠ 0) as Hr.
    { apply leaf_addr_page in E as (p & Hp & ->). destruct Hwf as (_ & Hok & _).
      apply Forall_app in Hok as [_ Hok]. pose proof (page_ok_pos p (Forall_elem _ _ p Hok Hp)). pose proof (PX_range 0 va). lia. }
    rewrite (proj2 (Z.eqb_neq r 0)) by done. unfold kload64.
    destruct (has PTE_V (load64 (mm s) r)), (has PTE_U (load64 (mm s) r)); cbn; try done.
    by rewrite Hal, Z.add_0_r.
  - by rewrite has_0.
Qed.

Lemma uaddr_page m pt va va' :
  0 ≤ va → 0 ≤ va' → va / PGSIZE = va' / PGSIZE →
  uaddr m pt va' = (λ a, a + (va' - va)) <$> uaddr m pt va.
Proof.
  intros H1 H2 E. assert (MAXVA = 274877906944) as EM by done.
  assert (va <? MAXVA = (va' <? MAXVA)) as El.
  { destruct (Z.ltb_spec va MAXVA), (Z.ltb_spec va' MAXVA); try done; pglia. }
  unfold uaddr. rewrite <-El. destruct (Z.ltb_spec va MAXVA) as [Hlt|]; [|done]. cbn [andb].
  assert (pteval 2 m pt va' = pteval 2 m pt va) as ->.
  { unfold pteval. rewrite (leaf_addr_PX 2 m pt va' va); [done|].
    apply same_page_PX; [unfold SV39; pglia|unfold SV39; pglia|done]. }
  destruct (has PTE_V _ && has PTE_U _); cbn; [|done]. f_equal. pglia.
Qed.

Lemma uaddr_max m pt va : is_Some (uaddr m pt va) → va < MAXVA.
Proof. intros [a E]. unfold uaddr in E. by destruct (Z.ltb_spec va MAXVA). Qed.

Section map.
Context (m : mem) (pt n : Z) (Hu : umap m pt n).

(** A user address is an offset in one of the [n] pages. *)
Lemma uaddr_elem va a :
  0 ≤ va → uaddr m pt va = Some a →
  ∃ q, 0 ≤ va / PGSIZE < n ∧ phys_pages (pteval 2 m pt) 0 (Z.to_nat n) !! Z.to_nat (va / PGSIZE) = Some q ∧
       a = q + va mod PGSIZE ∧ q mod PGSIZE = 0 ∧ 0 < q.
Proof.
  intros Hva E. assert (SV39 = 549755813888) as ES by done.
  assert (MAXVA = 274877906944) as EM by done. unfold uaddr in E.
  destruct (_ && has PTE_U _) eqn:Ec; [|done]. injection E as <-.
  apply andb_true_iff in Ec as [[Hm%Z.ltb_lt Hv]%andb_true_iff HU].
  destruct Hu as (Hnd & Hok & Htop).
  assert (va < n * PGSIZE) as Hlt.
  { destruct (Z.lt_ge_cases va (n * PGSIZE)); [done|]. specialize (Htop va ltac:(lia)).
    by rewrite Hv, HU in Htop. }
  assert (0 ≤ va / PGSIZE < n) as Hi by pglia.
  assert (phys_pages (pteval 2 m pt) 0 (Z.to_nat n) !! Z.to_nat (va / PGSIZE) =
    Some (PTE2PA (pteval 2 m pt va))) as El.
  { unfold phys_pages. rewrite list_lookup_fmap, lookup_seqZ_lt by lia. cbn. do 2 f_equal.
    unfold pteval. rewrite (leaf_addr_PX 2 m pt (0 + (0 + Z.of_nat (Z.to_nat (va / PGSIZE))) * PGSIZE) va).
    - done.
    - apply same_page_PX; pglia. }
  apply Forall_app in Hok as [Hok _].
  pose proof (Forall_elem _ _ _ Hok (list_elem_of_lookup_2 _ _ _ El)) as Hq.
  eexists. split_and!; [lia|lia|exact El|done|apply Hq|by apply page_ok_pos].
Qed.

Lemma uaddr_inj va va' a :
  0 ≤ va → 0 ≤ va' → uaddr m pt va = Some a → uaddr m pt va' = Some a → va = va'.
Proof.
  intros Hva Hva' E E'.
  apply uaddr_elem in E as (q & Hr & El & -> & Hq & _); [|done].
  apply uaddr_elem in E' as (q' & Hr' & El' & E' & Hq' & _); [|done].
  assert (q = q') as <- by pglia. destruct Hu as (Hnd & _).
  apply list.NoDup_app in Hnd as (Hnd & _).
  pose proof (NoDup_lookup _ _ _ _ Hnd El El'). pglia.
Qed.

(** The bytes of user memory are outside the tables. *)
Lemma uaddr_not_table va a q :
  0 ≤ va → uaddr m pt va = Some a → q ∈ ptpages 2 m pt → ¬ q ≤ a < q + PGSIZE.
Proof.
  intros Hva E Hq Hr. apply uaddr_elem in E as (p & _ & El & -> & Hp & _); [|done].
  destruct Hu as (Hnd & Hok & _). apply list.NoDup_app in Hnd as (_ & Hdis & _).
  apply Forall_app in Hok as [_ Hok]. pose proof (Forall_elem _ _ _ Hok Hq) as [Hqa _].
  apply list_elem_of_lookup_2 in El.
  assert (p = q) as -> by pglia. by apply (Hdis q).
Qed.

Lemma uaddr_agree m' va a :
  (∀ q, q ∈ phys_pages (pteval 2 m pt) 0 (Z.to_nat n) → agree m m' q PGSIZE) →
  0 ≤ va → uaddr m pt va = Some a → load8 m' a = load8 m a.
Proof.
  intros Hag Hva E. apply uaddr_elem in E as (q & _ & El & -> & _); [|done].
  apply (Hag q); [by eapply list_elem_of_lookup_2|]. pglia.
Qed.

(** The part of a user range that lies in the first page. *)
Lemma uaddr_chunk va :
  0 ≤ va →
  let pa0 := default 0 (uaddr m pt (va - va mod PGSIZE)) in
  (pa0 = 0 → uaddr m pt va = None) ∧
  (pa0 ≠ 0 → ∀ i, 0 ≤ i < PGSIZE - va mod PGSIZE →
     uaddr m pt (va + i) = Some (pa0 + va mod PGSIZE + i)).
Proof.
  intros Hva pa0. set (va0 := va - va mod PGSIZE) in *.
  assert (∀ i, 0 ≤ i < PGSIZE - va mod PGSIZE →
    uaddr m pt (va + i) = (λ a, a + (va mod PGSIZE + i)) <$> uaddr m pt va0) as Hp.
  { intros i Hi. rewrite (uaddr_page m pt va0 (va + i)) by (unfold va0; pglia).
    destruct (uaddr m pt va0); cbn; [|done]. f_equal. unfold va0. lia. }
  destruct (uaddr m pt va0) as [a|] eqn:E.
  - apply uaddr_elem in E as (q & _ & _ & -> & _ & Hq); [|unfold va0; pglia].
    subst pa0. cbn [from_option id]. split; [unfold va0; pglia|].
    intros _ i Hi. rewrite Hp by done. cbn. f_equal. unfold va0. lia.
  - subst pa0. cbn. split; [|done]. intros _. specialize (Hp 0).
    rewrite Z.add_0_r in Hp. by rewrite Hp by (pglia).
Qed.

End map.

(** The length of the first piece of a copy. *)
Definition piece (va len : Z) : Z := Z.min (PGSIZE - va mod PGSIZE) len.

Lemma span_step va len :
  0 < len → 0 ≤ va →
  (span (va - va mod PGSIZE + PGSIZE) (len - piece va len) < span va len)%nat.
Proof.
  intros Hl Hva. unfold span, piece. rewrite (proj2 (Z.eqb_neq len 0)) by lia.
  destruct (Z.eqb_spec (len - Z.min (PGSIZE - va mod PGSIZE) len) 0); pglia.
Qed.

Lemma span_fuel va len : 0 ≤ len → 0 ≤ va → (span va len < 3 + Z.to_nat (len / PGSIZE))%nat.
Proof. intros Hl Hva. unfold span. destruct (Z.eqb_spec len 0); pglia. Qed.

(** [copyin] writes these bytes. *)
Definition ubytes (m : mem) (pt srcva dst : Z) (x : Z) : Z :=
  load8 m (default 0 (uaddr m pt (srcva + (x - dst)))).

Lemma copyin_turn_run pt s n dst va len :
  umap (mm s) pt n → 0 ≤ va < 2 ^ 64 → 0 < len < 2 ^ 32 →
  wp (copyin_turn pt (dst, va, len))
     (λ r s', match r with
        | inr z => z = -1 ∧ s' = s ∧ uaddr (mm s) pt va = None
        | inl l => l = (dst + piece va len, va - va mod PGSIZE + PGSIZE, len - piece va len) ∧
            (∀ i, 0 ≤ i < piece va len → is_Some (uaddr (mm s) pt (va + i))) ∧
            ∃ m', s' = set_mm m' s ∧
              written (mm s) m' dst (piece va len) (ubytes (mm s) pt va dst)
        end) s.
Proof.
  intros Hu Hva Hlen. assert (MAXVA = 274877906944) as EM by done.
  unfold copyin_turn. rewrite (proj2 (Z.ltb_lt 0 len)) by lia.
  rewrite PGROUNDDOWN_eq by lia. apply wp_bind.
  eapply wp_intro; [apply (walkaddr_run pt _ s n Hu); pglia|].
  destruct (uaddr_chunk (mm s) pt n Hu va ltac:(lia)) as [Hnone Hsome].
  set (pa0 := default 0 _) in *. destruct (Z.eqb_spec pa0 0) as [E0|Hne].
  { wp_run. auto. }
  specialize (Hsome Hne).
  assert (va < MAXVA) as Hmax.
  { specialize (Hsome 0 ltac:(pglia)). rewrite Z.add_0_r in Hsome. eauto using uaddr_max. }
  replace (va - (va - va mod PGSIZE)) with (va mod PGSIZE) by lia. cbv zeta.
  assert ((if len <? PGSIZE - va mod PGSIZE then len else PGSIZE - va mod PGSIZE) = piece va len) as ->.
  { unfold piece. destruct (Z.ltb_spec len (PGSIZE - va mod PGSIZE)); lia. }
  assert (0 < piece va len ≤ len) as Hp by (unfold piece; pglia).
  wp_use kmemmove_run; [lia|]. intros r s' (m' & -> & -> & Hw). wp_run.
  rewrite u64_small by pglia. split_and!; [done| |].
  - intros i Hi. rewrite Hsome by (unfold piece in Hi; lia). eauto.
  - exists m'. split; [done|]. intros x. rewrite Hw. destruct (_ && _) eqn:Ex; [|done].
    bool_to_prop. unfold ubytes. rewrite Hsome by (unfold piece in *; lia). done.
Qed.

(** Writing outside the address space changes neither its map nor its bytes. *)
Lemma written_apart s m1 pt n dst k len f :
  umap (mm s) pt n → k ≤ len → apart (upages s pt n) dst len → written (mm s) m1 dst k f →
  umap m1 pt n ∧ (∀ va, uaddr m1 pt va = uaddr (mm s) pt va) ∧
  (∀ va a, 0 ≤ va → uaddr (mm s) pt va = Some a → load8 m1 a = load8 (mm s) a) ∧
  upages (set_mm m1 s) pt n = upages s pt n.
Proof.
  intros Hu Hk Hap Hw.
  assert (∀ q, q ∈ upages s pt n → agree (mm s) m1 q PGSIZE) as Hag.
  { intros q Hq. eapply written_agree; [exact Hw|]. destruct (Hap q Hq); lia. }
  destruct (umap_agree (mm s) m1 pt n Hu) as (Hu1 & Ea & Ep & Ev).
  { intros q Hq. apply Hag, elem_of_app. by right. }
  split_and!; [done|done| |].
  - intros va a Hva. apply (uaddr_agree (mm s) pt n Hu m1 va a); [|done].
    intros q Hq. apply Hag, elem_of_app. by left.
  - unfold upages. rewrite mm_set_mm, Ep. f_equal. apply phys_pages_ext. intros; apply Ev.
Qed.

(** Two pieces make one. *)
Lemma written_ubytes_trans s m1 m2 pt n srcva dst k c len :
  umap (mm s) pt n → 0 ≤ srcva → 0 ≤ k → 0 ≤ c → k + c ≤ len → apart (upages s pt n) dst len →
  (∀ i, 0 ≤ i < c → is_Some (uaddr (mm s) pt (srcva + k + i))) →
  written (mm s) m1 dst k (ubytes (mm s) pt srcva dst) →
  written m1 m2 (dst + k) c (ubytes m1 pt (srcva + k) (dst + k)) →
  written (mm s) m2 dst (k + c) (ubytes (mm s) pt srcva dst).
Proof.
  intros Hu Hva Hk Hc Hlen Hap Hs Hw1 Hw2.
  destruct (written_apart s m1 pt n dst k len _ Hu ltac:(lia) Hap Hw1) as (_ & Ea & Hb & _).
  intros x. rewrite Hw2. repeat zcase; cbn; try lia; try (rewrite Hw1; by ztest).
  unfold ubytes. rewrite Ea. replace (srcva + k + (x - (dst + k))) with (srcva + (x - dst)) by lia.
  specialize (Hs (x - dst - k) ltac:(lia)).
  replace (srcva + k + (x - dst - k)) with (srcva + (x - dst)) in Hs by lia.
  destruct Hs as [a Es]. rewrite Es. cbn. eapply (Hb (srcva + (x - dst))); [lia|done].
Qed.

(** Bytes read do not depend on what was written before. *)
Lemma copyin_run pt s n dst srcva len :
  umap (mm s) pt n → 0 ≤ srcva < 2 ^ 64 → 0 ≤ len < 2 ^ 32 →
  apart (upages s pt n) dst len →
  wp (copyin pt dst srcva len)
     (λ r s', ∃ k m', s' = set_mm m' s ∧ 0 ≤ k ≤ len ∧
        written (mm s) m' dst k (ubytes (mm s) pt srcva dst) ∧
        (∀ i, 0 ≤ i < k → is_Some (uaddr (mm s) pt (srcva + i))) ∧
        (r = 0 ∧ k = len ∨ r = -1 ∧ k < len ∧ uaddr (mm s) pt (srcva + k) = None)) s.
Proof.
  intros Hu Hva Hlen Hap. assert (MAXVA = 274877906944) as EM by done. unfold copyin.
  eapply (wp_loop
    (λ '(d, va, l) s', ∃ k m', s' = set_mm m' s ∧ 0 ≤ k ≤ len ∧ d = dst + k ∧ l = len - k ∧
       0 ≤ va < 2 ^ 64 ∧ (l = 0 ∨ va = srcva + k) ∧
       written (mm s) m' dst k (ubytes (mm s) pt srcva dst) ∧
       ∀ i, 0 ≤ i < k → is_Some (uaddr (mm s) pt (srcva + i)))
    (λ '(d, va, l) _, span va l)).
  - apply span_fuel; lia.
  - exists 0, (mm s). split_and!; try lia; [by destruct s|].
    intros x. destruct (_ && _) eqn:Ex; [|done]. bool_to_prop. lia.
  - intros [[d va] l] s1 (k & m1 & -> & Hk & -> & -> & Hvar & Hkva & Hw & Hsome).
    destruct (decide (k = len)) as [->|Hne].
    { unfold copyin_turn. rewrite Z.sub_diag. cbn. exists len, m1. auto 10 with lia. }
    destruct Hkva as [?| ->]; [lia|].
    destruct (written_apart s m1 pt n dst k len _ Hu ltac:(lia) Hap Hw) as (Hu1 & Ea & _).
    eapply wp_mono; [apply (copyin_turn_run pt (set_mm m1 s) n); [done|lia|lia]|].
    rewrite mm_set_mm. set (c := piece (srcva + k) (len - k)) in *.
    assert (0 < c ≤ len - k) as Hc by (unfold c, piece; pglia).
    intros [l|z] s2.
    + intros (-> & Hs2 & m2 & -> & Hw2). split; [|apply span_step; lia].
      pose proof (uaddr_max _ _ _ (Hs2 0 ltac:(lia))) as Hmax.
      exists (k + c), m2. split_and!; [done|lia|lia|lia|lia|pglia|pglia| | |].
      * unfold c, piece. pglia.
      * eapply (written_ubytes_trans s m1 m2 pt n srcva dst k c len); try done; try lia.
        intros i Hi. rewrite <-Ea. by apply Hs2.
      * intros i Hi. destruct (decide (i < k)); [apply Hsome; lia|].
        specialize (Hs2 (i - k) ltac:(lia)). rewrite Ea in Hs2.
        by replace (srcva + k + (i - k)) with (srcva + i) in Hs2 by lia.
    + intros (-> & -> & Hn). rewrite Ea in Hn. exists k, m1. auto 10 with lia.
Qed.

(** User memory apart from a kernel range. *)
Lemma uaddr_apart s pt n a len va x :
  umap (mm s) pt n → apart (upages s pt n) a len → 0 ≤ va →
  uaddr (mm s) pt va = Some x → ¬ a ≤ x < a + len.
Proof.
  intros Hu Hap Hva E Hr. apply (uaddr_elem _ _ _ Hu) in E as (q & _ & El & -> & _); [|done].
  destruct (Hap q); [|pglia..]. apply elem_of_app. left. by eapply list_elem_of_lookup_2.
Qed.

Lemma ucopied_tables m m' pt n va k src :
  umap m pt n → 0 ≤ va → ucopied m m' pt va k src →
  ∀ q, q ∈ ptpages 2 m pt → agree m m' q PGSIZE.
Proof.
  intros Hu Hva [_ Hout] q Hq x Hx. apply Hout. intros i Hi E.
  by eapply (uaddr_not_table m pt n Hu (va + i) x q); [lia|..].
Qed.

(** Two pieces make one. *)
Lemma ucopied_trans s m1 m2 pt n va k c src len :
  umap (mm s) pt n → 0 ≤ va → 0 ≤ k → 0 ≤ c → k + c ≤ len → apart (upages s pt n) src len →
  ucopied (mm s) m1 pt va k src → ucopied m1 m2 pt (va + k) c (src + k) →
  ucopied (mm s) m2 pt va (k + c) src.
Proof.
  intros Hu Hva Hk Hc Hlen Hap Hc1 [Hin2 Hout2].
  destruct (umap_agree _ m1 _ _ Hu) as (_ & Ea & _); [by eapply (ucopied_tables _ _ _ n va k src)|].
  destruct Hc1 as [Hin1 Hout1]. split.
  - intros i a Hi E. destruct (decide (i < k)).
    + rewrite Hout2; [by apply Hin1; [lia|]|]. intros j Hj. rewrite Ea. intros E2.
      pose proof (uaddr_inj (mm s) pt n Hu (va + k + j) (va + i) a ltac:(lia) ltac:(lia) E2 E). lia.
    + rewrite (Hin2 (i - k) a); [|lia|].
      * rewrite Hout1; [f_equal; lia|]. intros j Hj E2.
        eapply (uaddr_apart s pt n src len (va + j)); [done|done|lia|exact E2|lia].
      * rewrite Ea. by replace (va + k + (i - k)) with (va + i) by lia.
  - intros x Hx. rewrite Hout2.
    + apply Hout1. intros i Hi. apply Hx. lia.
    + intros i Hi. rewrite Ea, <-Z.add_assoc. apply Hx. lia.
Qed.

Lemma copyout_turn_run pt s n va src len :
  umap (mm s) pt n → 0 ≤ va < 2 ^ 64 → 0 < len < 2 ^ 32 →
  wp (copyout_turn pt (va, src, len))
     (λ r s', match r with
        | inr z => z = -1 ∧ s' = s ∧ uaddr (mm s) pt va = None
        | inl l => l = (va - va mod PGSIZE + PGSIZE, src + piece va len, len - piece va len) ∧
            (∀ i, 0 ≤ i < piece va len → is_Some (uaddr (mm s) pt (va + i))) ∧
            ∃ m', s' = set_mm m' s ∧ ucopied (mm s) m' pt va (piece va len) src
        end) s.
Proof.
  intros Hu Hva Hlen. assert (MAXVA = 274877906944) as EM by done.
  unfold copyout_turn. rewrite (proj2 (Z.ltb_lt 0 len)) by lia.
  rewrite PGROUNDDOWN_eq by lia. apply wp_bind.
  eapply wp_intro; [apply (walkaddr_run pt _ s n Hu); pglia|].
  destruct (uaddr_chunk (mm s) pt n Hu va ltac:(lia)) as [Hnone Hsome].
  set (pa0 := default 0 _) in *. destruct (Z.eqb_spec pa0 0) as [E0|Hne].
  { wp_run. auto. }
  specialize (Hsome Hne).
  assert (va < MAXVA) as Hmax.
  { specialize (Hsome 0 ltac:(pglia)). rewrite Z.add_0_r in Hsome. eauto using uaddr_max. }
  replace (va - (va - va mod PGSIZE)) with (va mod PGSIZE) by lia. cbv zeta.
  assert ((if len <? PGSIZE - va mod PGSIZE then len else PGSIZE - va mod PGSIZE) = piece va len) as ->.
  { unfold piece. destruct (Z.ltb_spec len (PGSIZE - va mod PGSIZE)); lia. }
  assert (0 < piece va len ≤ len) as Hp by (unfold piece; pglia).
  wp_use kmemmove_run; [lia|]. intros r s' (m' & -> & -> & Hw). wp_run.
  rewrite u64_small by pglia. split_and!; [done| |].
  - intros i Hi. rewrite Hsome by (unfold piece in Hi; lia). eauto.
  - exists m'. split; [done|]. split.
    + intros i a Hi E. rewrite Hsome in E by (unfold piece in *; lia). injection E as <-.
      rewrite Hw. ztest. f_equal. lia.
    + intros x Hx. rewrite Hw. destruct (_ && _) eqn:Ex; [|done]. bool_to_prop.
      exfalso. apply (Hx (x - (pa0 + va mod PGSIZE)) ltac:(lia)).
      rewrite Hsome by (unfold piece in *; lia). f_equal. lia.
Qed.

Lemma copyout_run pt s n dstva src len :
  umap (mm s) pt n → 0 ≤ dstva < 2 ^ 64 → 0 ≤ len < 2 ^ 32 →
  apart (upages s pt n) src len →
  wp (copyout pt dstva src len)
     (λ r s', ∃ k m', s' = set_mm m' s ∧ 0 ≤ k ≤ len ∧
        ucopied (mm s) m' pt dstva k src ∧
        (∀ i, 0 ≤ i < k → is_Some (uaddr (mm s) pt (dstva + i))) ∧
        (r = 0 ∧ k = len ∨ r = -1 ∧ k < len ∧ uaddr (mm s) pt (dstva + k) = None)) s.
Proof.
  intros Hu Hva Hlen Hap. assert (MAXVA = 274877906944) as EM by done. unfold copyout.
  eapply (wp_loop
    (λ '(va, sr, l) s', ∃ k m', s' = set_mm m' s ∧ 0 ≤ k ≤ len ∧ sr = src + k ∧ l = len - k ∧
       0 ≤ va < 2 ^ 64 ∧ (l = 0 ∨ va = dstva + k) ∧
       ucopied (mm s) m' pt dstva k src ∧
       ∀ i, 0 ≤ i < k → is_Some (uaddr (mm s) pt (dstva + i)))
    (λ '(va, sr, l) _, span va l)).
  - apply span_fuel; lia.
  - exists 0, (mm s). split_and!; try lia; [by destruct s|]. split; [lia|done].
  - intros [[va sr] l] s1 (k & m1 & -> & Hk & -> & -> & Hvar & Hkva & Hc1 & Hsome).
    destruct (decide (k = len)) as [->|Hne].
    { unfold copyout_turn. rewrite Z.sub_diag. cbn. exists len, m1. auto 10 with lia. }
    destruct Hkva as [?| ->]; [lia|].
    destruct (umap_agree (mm s) m1 pt n Hu) as (Hu1 & Ea & _ & _).
    { eapply ucopied_tables; [done| |done]. lia. }
    eapply wp_mono; [apply (copyout_turn_run pt (set_mm m1 s) n); [done|lia|lia]|].
    rewrite mm_set_mm. set (c := piece (dstva + k) (len - k)) in *.
    assert (0 < c ≤ len - k) as Hc by (unfold c, piece; pglia).
    intros [l|z] s2.
    + intros (-> & Hs2 & m2 & -> & Hc2). split; [|apply span_step; lia].
      pose proof (uaddr_max _ _ _ (Hs2 0 ltac:(lia))) as Hmax.
      exists (k + c), m2. split_and!; [done|lia|lia|lia|lia|pglia|pglia| | |].
      * unfold c, piece. pglia.
      * eapply (ucopied_trans s m1 m2 pt n dstva k c src len); done || lia.
      * intros i Hi. destruct (decide (i < k)); [apply Hsome; lia|].
        specialize (Hs2 (i - k) ltac:(lia)). rewrite Ea in Hs2.
        by replace (dstva + k + (i - k)) with (dstva + i) in Hs2 by lia.
    + intros (-> & -> & Hn). rewrite Ea in Hn. exists k, m1. auto 10 with lia.
Qed.

(** The inner loop of [copyinstr] copies [j] non-zero bytes and, unless it
    ran to the end of the page, the terminator. *)
Lemma copyinstr_chunk_run k p dst max s :
  dst + Z.of_nat k ≤ p ∨ p + Z.of_nat k ≤ dst →
  wp (copyinstr_chunk k p dst max)
     (λ '(got, max', dst') s', ∃ j m', s' = set_mm m' s ∧ 0 ≤ j ≤ Z.of_nat k ∧
        (∀ i, 0 ≤ i < j → load8 (mm s) (p + i) ≠ 0) ∧ max' = max - j ∧ dst' = dst + j ∧
        written (mm s) m' dst (j + if (got : bool) then 1 else 0)
          (λ x, load8 (mm s) (p + (x - dst))) ∧
        (if (got : bool) then j < Z.of_nat k ∧ load8 (mm s) (p + j) = 0 else j = Z.of_nat k)) s.
Proof.
  revert p dst max s. induction k as [|k IH]; intros p dst max s Hd; cbn [copyinstr_chunk].
  - wp_run. exists 0, (mm s). split_and!; try lia; [by destruct s|].
    intros x. destruct (_ && _) eqn:E; [|done]. bool_to_prop. lia.
  - apply wp_bind, (wp_intro _ _ _ (load8 (mm s) p) s); [done|].
    destruct (Z.eqb_spec (load8 (mm s) p) 0) as [E0|Hne].
    + apply wp_bind, (wp_intro _ _ _ tt (set_mm (store8 (mm s) dst 0) s)); [done|]. apply wp_ret.
      exists 0, (store8 (mm s) dst 0). split_and!; try lia; [done| |by rewrite Z.add_0_r].
      intros x. rewrite load8_store8. destruct (Z.eqb_spec x dst) as [->|].
      * rewrite Z.sub_diag, Z.add_0_r, E0. by ztest.
      * repeat zcase; cbn; try done; lia.
    + apply wp_bind, (wp_intro _ _ _ tt (set_mm (store8 (mm s) dst (load8 (mm s) p)) s)); [done|].
      eapply wp_mono; [apply IH; lia|]. rewrite mm_set_mm.
      intros [[got max'] dst'] s' (j & m' & -> & Hj & Hnz & -> & -> & Hw & Hend).
      assert (∀ i, 0 ≤ i ≤ j → i < Z.of_nat k →
        load8 (store8 (mm s) dst (load8 (mm s) p)) (p + 1 + i) = load8 (mm s) (p + (i + 1))) as Es.
      { intros i Hi Hik. rewrite load8_store8. ztest. f_equal. lia. }
      exists (j + 1), m'. split_and!; try lia; [done| | |].
      * intros i Hi. destruct (decide (i = 0)) as [->|]; [by rewrite Z.add_0_r|].
        replace i with (i - 1 + 1) by lia. rewrite <-Es by lia. apply Hnz. lia.
      * intros x. rewrite Hw. destruct (decide (x = dst)) as [->|].
        { rewrite (proj2 (Z.leb_gt (dst + 1) dst)) by lia. cbn [andb].
          rewrite load8_store8, Z.eqb_refl, Z.sub_diag, Z.add_0_r.
          rewrite u8_small by apply load8_range. ztest. destruct got; by ztest. }
        assert (j + (if got then 1 else 0) ≤ Z.of_nat k) as He by (destruct got; lia).
        destruct (decide (dst + 1 ≤ x < dst + 1 + (j + if got then 1 else 0))).
        { ztest. rewrite load8_store8. ztest. f_equal. lia. }
        rewrite (load8_store8 _ _ _ x). repeat zcase; cbn; try done; lia.
      * destruct got; [|lia]. destruct Hend as [Hlt H0]. split; [lia|]. by rewrite <-Es by lia.
Qed.

Lemma copyinstr_turn_run pt s n dst va max :
  umap (mm s) pt n → apart (upages s pt n) dst max → 0 ≤ va < 2 ^ 64 → 0 < max →
  wp (copyinstr_turn pt (dst, va, max, false))
     (λ r s', match r with
        | inr z => z = -1 ∧ s' = s ∧ uaddr (mm s) pt va = None
        | inl (dst', va', max', got) => ∃ j m', s' = set_mm m' s ∧
            0 ≤ j ≤ piece va max ∧ unonzero (mm s) pt va j ∧
            dst' = dst + j ∧ va' = va - va mod PGSIZE + PGSIZE ∧ max' = max - j ∧ va < MAXVA ∧
            written (mm s) m' dst (j + if got then 1 else 0) (ubytes (mm s) pt va dst) ∧
            if got then j < piece va max ∧ ∃ a, uaddr (mm s) pt (va + j) = Some a ∧ load8 (mm s) a = 0
            else j = piece va max
        end) s.
Proof.
  intros Hu Hap Hva Hmax. assert (MAXVA = 274877906944) as EM by done.
  unfold copyinstr_turn. cbn [negb andb]. rewrite (proj2 (Z.ltb_lt 0 max)) by lia.
  rewrite PGROUNDDOWN_eq by lia. apply wp_bind.
  eapply wp_intro; [apply (walkaddr_run pt _ s n Hu); pglia|].
  destruct (uaddr_chunk (mm s) pt n Hu va ltac:(lia)) as [Hnone Hsome].
  set (pa0 := default 0 _) in *. destruct (Z.eqb_spec pa0 0) as [E0|Hne].
  { wp_run. auto. }
  specialize (Hsome Hne).
  pose proof (Hsome 0 ltac:(pglia)) as Hs0. rewrite !Z.add_0_r in Hs0.
  pose proof (uaddr_max _ _ _ (mk_is_Some _ _ Hs0)) as Hmx.
  replace (va - (va - va mod PGSIZE)) with (va mod PGSIZE) by lia. cbv zeta.
  assert ((if max <? PGSIZE - va mod PGSIZE then max else PGSIZE - va mod PGSIZE) = piece va max) as ->.
  { unfold piece. destruct (Z.ltb_spec max (PGSIZE - va mod PGSIZE)); lia. }
  assert (0 < piece va max ≤ max ∧ piece va max ≤ PGSIZE - va mod PGSIZE) as Hp by (unfold piece; pglia).
  apply wp_bind. eapply wp_mono; [apply copyinstr_chunk_run|].
  - destruct (uaddr_elem _ _ _ Hu va _ ltac:(lia) Hs0) as (q & _ & El & Eq & _).
    destruct (Hap q); [apply elem_of_app; left; by eapply list_elem_of_lookup_2|pglia..].
  - intros [[got max'] dst'] s' (j & m' & -> & Hj & Hnz & -> & -> & Hw & Hend). wp_run.
    rewrite u64_small by pglia. exists j, m'. rewrite Z2Nat.id in Hj, Hend by lia.
    assert (j + (if got then 1 else 0) ≤ piece va max) as Hje by (destruct got; lia).
    split_and!; try done; try lia.
    + intros i Hi. eexists. split; [apply Hsome; lia|]. by apply Hnz.
    + intros x. rewrite Hw. destruct (_ && _) eqn:Ex; [|done]. bool_to_prop.
      unfold ubytes. rewrite Hsome by lia. done.
    + destruct got; [|done]. destruct Hend as [Hlt H0]. split; [done|].
      eexists. split; [apply Hsome; lia|done].
Qed.

Lemma unonzero_app m pt va k j :
  0 ≤ k → unonzero m pt va k → unonzero m pt (va + k) j → unonzero m pt va (k + j).
Proof.
  intros Hk H1 H2 i Hi. destruct (decide (i < k)); [apply H1; lia|].
  replace (va + i) with (va + k + (i - k)) by lia. apply H2. lia.
Qed.

Lemma copyinstr_run pt s n dst srcva max :
  umap (mm s) pt n → 0 ≤ srcva < 2 ^ 64 → 0 ≤ max → apart (upages s pt n) dst max →
  wp (copyinstr pt dst srcva max)
     (λ r s', ∃ k m', s' = set_mm m' s ∧ 0 ≤ k ≤ max ∧ unonzero (mm s) pt srcva k ∧
        (r = 0 ∧ k < max ∧ (∃ a, uaddr (mm s) pt (srcva + k) = Some a ∧ load8 (mm s) a = 0) ∧
           written (mm s) m' dst (k + 1) (ubytes (mm s) pt srcva dst) ∨
         r = -1 ∧ (k = max ∨ uaddr (mm s) pt (srcva + k) = None) ∧
           written (mm s) m' dst k (ubytes (mm s) pt srcva dst))) s.
Proof.
  intros Hu Hva Hmax Hap. assert (MAXVA = 274877906944) as EM by done. unfold copyinstr.
  eapply (wp_loop
    (λ '(d, va, mx, got) s', ∃ k m', s' = set_mm m' s ∧ 0 ≤ k ≤ max ∧
       unonzero (mm s) pt srcva k ∧ d = dst + k ∧ mx = max - k ∧ 0 ≤ va < 2 ^ 64 ∧
       written (mm s) m' dst (k + if (got : bool) then 1 else 0) (ubytes (mm s) pt srcva dst) ∧
       if (got : bool) then k < max ∧ ∃ a, uaddr (mm s) pt (srcva + k) = Some a ∧ load8 (mm s) a = 0
       else mx = 0 ∨ va = srcva + k)
    (λ '(d, va, mx, got) _, if (got : bool) then 0%nat else span va mx)).
  - apply span_fuel; lia.
  - exists 0, (mm s). split_and!; try lia; [by destruct s|by intros i Hi; lia|].
    intros x. destruct (_ && _) eqn:Ex; [|done]. bool_to_prop. lia.
  - intros [[[d va] mx] got] s1 (k & m1 & -> & Hk & Hnz & -> & -> & Hvar & Hw & Hgot).
    destruct got.
    { cbn. exists k, m1. destruct Hgot as [? ?]. split_and!; try done; try lia. left. auto. }
    rewrite Z.add_0_r in Hw. destruct (decide (k = max)) as [->|Hne].
    { unfold copyinstr_turn. rewrite Z.sub_diag. cbn. exists max, m1. auto 10 with lia. }
    destruct Hgot as [?| ->]; [lia|].
    destruct (written_apart s m1 pt n dst k max _ Hu ltac:(lia) Hap Hw) as (Hu1 & Ea & Hb & Eup).
    eapply wp_mono; [apply (copyinstr_turn_run pt (set_mm m1 s) n); [done| |lia|lia]|].
    { rewrite Eup. intros q Hq. destruct (Hap q Hq); lia. }
    rewrite mm_set_mm. assert (piece (srcva + k) (max - k) ≤ max - k) as Hpc by (unfold piece; lia).
    intros [[[[d va] mx] got]|z] s2.
    + intros (j & m2 & -> & Hj & Hnz2 & -> & -> & -> & Hmx & Hw2 & Hend).
      assert (unonzero (mm s) pt (srcva + k) j) as Hnz'.
      { intros i Hi. destruct (Hnz2 i Hi) as (a & E & Hz). rewrite Ea in E.
        exists a. split; [done|]. by rewrite <-(Hb (srcva + k + i) a ltac:(lia) E). }
      assert (if got then j < piece (srcva + k) (max - k) ∧
          ∃ a, uaddr (mm s) pt (srcva + (k + j)) = Some a ∧ load8 (mm s) a = 0
        else j = piece (srcva + k) (max - k)) as Hend'.
      { destruct got; [|done]. destruct Hend as (Hlt & a & E & Hz). split; [done|]. rewrite Ea in E.
        exists a. rewrite Z.add_assoc. split; [done|].
        by rewrite <-(Hb (srcva + k + j) a ltac:(lia) E). }
      clear Hend Hnz2. split.
      * exists (k + j), m2. split_and!; try lia; [done|by apply unonzero_app; [lia|..]|pglia|pglia| |].
        -- rewrite <-Z.add_assoc.
           eapply (written_ubytes_trans s m1 m2 pt n srcva dst k _ max); try done; try lia.
           ++ destruct got; lia.
           ++ destruct got; lia.
           ++ intros i Hi. destruct (decide (i < j)).
              { destruct (Hnz' i ltac:(lia)) as (a & E & _). eauto. }
              destruct got; [|lia]. destruct Hend' as (_ & a & E & _).
              replace (srcva + k + i) with (srcva + (k + j)) by lia. eauto.
        -- destruct got; [destruct Hend' as [? ?]; split; [lia|done]|].
           subst j. unfold piece. pglia.
      * destruct got.
        -- unfold span. rewrite (proj2 (Z.eqb_neq (max - k) 0)) by lia. pglia.
        -- subst j. apply span_step; lia.
    + intros (-> & -> & Hn). rewrite Ea in Hn. exists k, m1. auto 10 with lia.
Qed.

(** C21. [copyin] copies [len] bytes of user memory to the kernel: it
    returns 0 exactly when every byte of the user's range is mapped for the
    user, and then the [len] bytes at [dst] are the user's, across page
    boundaries; otherwise it returns -1, having copied the bytes before the
    first one that is not the user's.  Nothing outside [dst, dst+len) is
    written. *)
Theorem copyin_correct pt s n F dst srcva len :
  uspace s pt n F → 0 ≤ srcva < 2 ^ 64 → 0 ≤ len < 2 ^ 32 → apart (upages s pt n) dst len →
  ∃ r s' k, copyin pt dst srcva len s = OK r s' ∧
    kmem_locked s' = kmem_locked s ∧ freelist s' = freelist s ∧
    0 ≤ k ≤ len ∧ written (mm s) (mm s') dst k (ubytes (mm s) pt srcva dst) ∧
    (∀ i, 0 ≤ i < k → is_Some (uaddr (mm s) pt (srcva + i))) ∧
    (r = 0 ∧ k = len ∨ r = -1 ∧ k < len ∧ uaddr (mm s) pt (srcva + k) = None).
Proof.
  intros Hu Hva Hlen Hap. apply uspace_umap in Hu.
  pose proof (copyin_run pt s n dst srcva len Hu Hva Hlen Hap) as W.
  apply wp_OK in W as (r & s' & E & k & m' & -> & HQ). exists r, (set_mm m' s), k.
  do 3 (split; [done|]). exact HQ.
Qed.

(** C20. [copyout] copies [len] kernel bytes to user memory: it returns
    0 exactly when every byte of the user's range is mapped for the user, and
    then user memory at [dstva] holds them; otherwise it returns -1, having
    written the bytes before the first one that is not the user's.  No other
    byte of memory changes: in particular the user cannot make the kernel
    write to a page table, to the kernel, or to another process. *)
Theorem copyout_correct pt s n F dstva src len :
  uspace s pt n F → 0 ≤ dstva < 2 ^ 64 → 0 ≤ len < 2 ^ 32 → apart (upages s pt n) src len →
  ∃ r s' k, copyout pt dstva src len s = OK r s' ∧
    kmem_locked s' = kmem_locked s ∧ freelist s' = freelist s ∧
    0 ≤ k ≤ len ∧ ucopied (mm s) (mm s') pt dstva k src ∧
    (∀ i, 0 ≤ i < k → is_Some (uaddr (mm s) pt (dstva + i))) ∧
    (r = 0 ∧ k = len ∨ r = -1 ∧ k < len ∧ uaddr (mm s) pt (dstva + k) = None).
Proof.
  intros Hu Hva Hlen Hap. apply uspace_umap in Hu.
  pose proof (copyout_run pt s n dstva src len Hu Hva Hlen Hap) as W.
  apply wp_OK in W as (r & s' & E & k & m' & -> & HQ). exists r, (set_mm m' s), k.
  do 3 (split; [done|]). exact HQ.
Qed.

(** C22. [copyinstr] copies a string from user memory: it returns 0
    exactly when a 0 byte occurs among the first [max] bytes and every byte
    up to it is the user's, and then [dst] holds the string with its
    terminator; otherwise it returns -1.  It reads no byte behind the
    terminator and writes at most [max] bytes. *)
Theorem copyinstr_correct pt s n F dst srcva max :
  uspace s pt n F → 0 ≤ srcva < 2 ^ 64 → 0 ≤ max → apart (upages s pt n) dst max →
  ∃ r s' k, copyinstr pt dst srcva max s = OK r s' ∧
    0 ≤ k ≤ max ∧ unonzero (mm s) pt srcva k ∧
    (r = 0 ∧ k < max ∧ (∃ a, uaddr (mm s) pt (srcva + k) = Some a ∧ load8 (mm s) a = 0) ∧
       written (mm s) (mm s') dst (k + 1) (ubytes (mm s) pt srcva dst) ∨
     r = -1 ∧ (k = max ∨ uaddr (mm s) pt (srcva + k) = None) ∧
       written (mm s) (mm s') dst k (ubytes (mm s) pt srcva dst)).
Proof.
  intros Hu Hva Hmax Hap. apply uspace_umap in Hu.
  pose proof (copyinstr_run pt s n dst srcva max Hu Hva Hmax Hap) as W.
  apply wp_OK in W as (r & s' & E & k & m' & -> & HQ). exists r, (set_mm m' s), k.
  split; [done|exact HQ].
Qed.

End copy.

(** ** Witnesses: a range that crosses from the first page to the second *)

Section ex.
#[local] Existing Instances ex16_layout ex16_layout_ok.

(** Kernel data below the end of the kernel is apart from user memory. *)
Lemma ex_apart F a len :
  uspace ex_u ex_pt 2 F → a + len ≤ kend → apart (upages ex_u ex_pt 2) a len.
Proof.
  intros (_ & _ & _ & _ & Hok & _) Ha q Hq. destruct (Forall_elem _ _ q Hok Hq) as [_ ?]. lia.
Qed.

Lemma copyin_correct_witness :
  ∃ s' k, copyin ex_pt KERNBASE 4090 100 ex_u = OK 0 s' ∧
          written (mm ex_u) (mm s') KERNBASE k (ubytes (mm ex_u) ex_pt 4090 KERNBASE) ∧ k = 100.
Proof.
  destruct ex_u_spaces as (F & Hu & _).
  destruct (copyin_correct ex_pt ex_u 2 F KERNBASE 4090 100 Hu)
    as (r & s' & k & E & _ & _ & Hk & Hw & Hs & HQ).
  - lia.
  - lia.
  - apply (ex_apart F); [exact Hu|discriminate].
  - exists s', k. assert (r = 0) as ->.
    { assert (match copyin ex_pt KERNBASE 4090 100 ex_u with OK r _ => r | _ => -1 end = 0) as Er
        by (vm_compute; reflexivity).
      rewrite E in Er. exact Er. }
    split; [exact E|]. split; [exact Hw|]. destruct HQ as [[_ ->]|[H0 _]]; [reflexivity|discriminate H0].
Defined.

(** The same range with a length that leaves the address space. *)
Lemma copyout_correct_witness :
  ∃ s' k, copyout ex_pt 4090 KERNBASE 5000 ex_u = OK (-1) s' ∧
          ucopied (mm ex_u) (mm s') ex_pt 4090 k KERNBASE ∧ k < 5000.
Proof.
  destruct ex_u_spaces as (F & Hu & _).
  destruct (copyout_correct ex_pt ex_u 2 F 4090 KERNBASE 5000 Hu)
    as (r & s' & k & E & _ & _ & Hk & Hw & Hs & HQ).
  - lia.
  - lia.
  - apply (ex_apart F); [exact Hu|discriminate].
  - exists s', k. assert (r = -1) as ->.
    { assert (match copyout ex_pt 4090 KERNBASE 5000 ex_u with OK r _ => r | _ => 0 end = -1) as Er
        by (vm_compute; reflexivity).
      rewrite E in Er. exact Er. }
    split; [exact E|]. split; [exact Hw|].
    destruct HQ as [[H0 _]|(_ & Hlt & _)]; [discriminate H0|exact Hlt].
Defined.

Lemma copyinstr_correct_witness :
  ∃ r s' k, copyinstr ex_pt KERNBASE 4090 20 ex_u = OK r s' ∧ 0 ≤ k ≤ 20 ∧
            unonzero (mm ex_u) ex_pt 4090 k.
Proof.
  destruct ex_u_spaces as (F & Hu & _).
  destruct (copyinstr_correct ex_pt ex_u 2 F KERNBASE 4090 20 Hu)
    as (r & s' & k & E & Hk & Hs & _).
  - lia.
  - lia.
  - apply (ex_apart F); [exact Hu|discriminate].
  - exists r, s', k. split; [exact E|]. split; [exact Hk|exact Hs].
Defined.

End ex.
