(* ===== verification/Block.v ===== *)
(** * Disk blocks: kernel/fs.h

    A block is the list of its BSIZE bytes.  The structures the kernel
    overlays on a block ([struct dinode], [struct dirent], the log header,
    indirect blocks) are read and written as little-endian fields at their
    offsets, as the compiler lays them out on the riscv64 machine. *)

From stdpp Require Import base gmap list strings numbers.
From S2P Require Import Prelude.

Definition BSIZE : Z := 1024.
Definition block : Type := list Z.
Definition zero_block : block := replicate 1024 0.

(** The [n] bytes of an integer, low byte first, and back. *)
Fixpoint le_bytes (n : nat) (v : Z) : list Z :=
  match n with
  | O => []
  | S n' => v mod 256 :: le_bytes n' (v / 256)
  end.
Fixpoint le_val (l : list Z) : Z :=
  match l with
  | [] => 0
  | b :: l' => b + 256 * le_val l'
  end.

(** Reading and writing [n] bytes at an offset. *)
Definition rd_bytes (off n : Z) (b : block) : list Z := take (Z.to_nat n) (drop (Z.to_nat off) b).
Definition wr_bytes (off : Z) (l : list Z) (b : block) : block := list_inserts (Z.to_nat off) l b.

Definition rd8 (off : Z) (b : block) : Z := le_val (rd_bytes off 1 b).
Definition rd16 (off : Z) (b : block) : Z := le_val (rd_bytes off 2 b).
Definition rd32 (off : Z) (b : block) : Z := le_val (rd_bytes off 4 b).
Definition wr8 (off v : Z) (b : block) : block := wr_bytes off (le_bytes 1 v) b.
Definition wr16 (off v : Z) (b : block) : block := wr_bytes off (le_bytes 2 v) b.
Definition wr32 (off v : Z) (b : block) : block := wr_bytes off (le_bytes 4 v) b.

(** ** Lemmas *)

Lemma length_le_bytes n v : length (le_bytes n v) = n.
Proof. revert v. induction n as [|n IH]; intros v; cbn; [done|]. by rewrite IH. Qed.

Lemma le_val_le_bytes n v : le_val (le_bytes n v) = v mod 256 ^ Z.of_nat n.
Proof.
  revert v. induction n as [|n IH]; intros v; cbn [le_bytes le_val].
  - by rewrite Z.mod_1_r.
  - rewrite IH, Nat2Z.inj_succ, Z.pow_succ_r, Z.rem_mul_r by lia. lia.
Qed.

Lemma length_wr_bytes off l b : length (wr_bytes off l b) = length b.
Proof. apply length_inserts. Qed.

Lemma length_rd_bytes off n b :
  0 ≤ off → 0 ≤ n → off + n ≤ Z.of_nat (length b) → length (rd_bytes off n b) = Z.to_nat n.
Proof. intros. unfold rd_bytes. rewrite length_take, length_drop. lia. Qed.

Lemma rd_bytes_lookup off n b i :
  (i < Z.to_nat n)%nat → rd_bytes off n b !! i = b !! (Z.to_nat off + i)%nat.
Proof. intros Hi. unfold rd_bytes. by rewrite lookup_take_lt, lookup_drop. Qed.

Lemma wr_bytes_lookup off l b i :
  0 ≤ off → off + Z.of_nat (length l) ≤ Z.of_nat (length b) →
  wr_bytes off l b !! i =
  if decide (Z.to_nat off ≤ i < Z.to_nat off + length l)%nat
  then l !! (i - Z.to_nat off)%nat else b !! i.
Proof.
  intros Ho Hl. unfold wr_bytes. case_decide.
  - apply list_lookup_inserts; lia.
  - destruct (decide (i < Z.to_nat off)%nat).
    + by apply list_lookup_inserts_lt.
    + apply list_lookup_inserts_ge. lia.
Qed.

Lemma rd_wr_bytes off l b :
  0 ≤ off → off + Z.of_nat (length l) ≤ Z.of_nat (length b) →
  rd_bytes off (Z.of_nat (length l)) (wr_bytes off l b) = l.
Proof.
  intros Ho Hl. apply list_eq. intros i. destruct (decide (i < length l)%nat).
  - rewrite rd_bytes_lookup, wr_bytes_lookup by lia. rewrite decide_True by lia. f_equal. lia.
  - rewrite !lookup_ge_None_2; [done|lia|].
    rewrite length_rd_bytes; rewrite ?length_wr_bytes; lia.
Qed.

Lemma rd_wr_bytes_other off l b off' n :
  0 ≤ off → 0 ≤ off' → 0 ≤ n → off + Z.of_nat (length l) ≤ Z.of_nat (length b) →
  off' + n ≤ off ∨ off + Z.of_nat (length l) ≤ off' →
  rd_bytes off' n (wr_bytes off l b) = rd_bytes off' n b.
Proof.
  intros Ho Ho' Hn Hl Hd. apply list_eq. intros i. destruct (decide (i < Z.to_nat n)%nat).
  - rewrite !rd_bytes_lookup, wr_bytes_lookup by lia. by rewrite decide_False by lia.
  - rewrite !lookup_ge_None_2; [done| |]; unfold rd_bytes; rewrite length_take; lia.
Qed.

Section fields.
Context (off v : Z) (b : block).
Hypothesis Hoff : 0 ≤ off.

Lemma length_wr32 : length (wr32 off v b) = length b.
Proof. apply length_wr_bytes. Qed.
Lemma length_wr16 : length (wr16 off v b) = length b.
Proof. apply length_wr_bytes. Qed.

Lemma rd32_wr32 : off + 4 ≤ Z.of_nat (length b) → rd32 off (wr32 off v b) = u32 v.
Proof.
  intros H. unfold rd32, wr32. change 4 with (Z.of_nat (length (le_bytes 4 v))).
  rewrite rd_wr_bytes by (rewrite ?length_le_bytes; lia). apply (le_val_le_bytes 4).
Qed.

Lemma rd16_wr16 : off + 2 ≤ Z.of_nat (length b) → rd16 off (wr16 off v b) = u16 v.
Proof.
  intros H. unfold rd16, wr16. change 2 with (Z.of_nat (length (le_bytes 2 v))).
  rewrite rd_wr_bytes by (rewrite ?length_le_bytes; lia). apply (le_val_le_bytes 2).
Qed.

Lemma rd32_wr32_other off' :
  0 ≤ off' → off + 4 ≤ Z.of_nat (length b) → off' + 4 ≤ off ∨ off + 4 ≤ off' →
  rd32 off' (wr32 off v b) = rd32 off' b.
Proof.
  intros H1 H2 H3. unfold rd32, wr32.
  by rewrite rd_wr_bytes_other by (rewrite ?length_le_bytes; lia).
Qed.

End fields.

Lemma le_val_range l : Forall (λ x, 0 ≤ x < 256) l → 0 ≤ le_val l < 256 ^ Z.of_nat (length l).
Proof.
  induction 1 as [|x l Hx Hl IH]; [done|]. cbn [le_val length].
  rewrite Nat2Z.inj_succ, Z.pow_succ_r by lia. lia.
Qed.

(** A block as it can be on disk: BSIZE bytes. *)
Definition block_ok (b : block) : Prop := length b = 1024%nat ∧ Forall (λ x, 0 ≤ x < 256) b.

Lemma block_ok_zero : block_ok zero_block.
Proof. split; [done|]. apply Forall_replicate. lia. Qed.

Lemma le_bytes_range n v : Forall (λ x, 0 ≤ x < 256) (le_bytes n v).
Proof.
  revert v. induction n as [|n IH]; intros v; constructor; [|done].
  by apply Z.mod_pos_bound.
Qed.

Lemma Forall_inserts {A} (P : A → Prop) i k (l : list A) :
  Forall P l → Forall P k → Forall P (list_inserts i k l).
Proof.
  intros Hl. revert i. induction k as [|x k IH]; intros i Hk; cbn; [done|].
  apply Forall_cons_1 in Hk as [Hx Hk]. by apply Forall_insert; [apply IH|].
Qed.

Lemma block_ok_wr_bytes off l b :
  block_ok b → Forall (λ x, 0 ≤ x < 256) l → block_ok (wr_bytes off l b).
Proof.
  intros [H1 H2] Hl. split; [by rewrite length_wr_bytes|by apply Forall_inserts].
Qed.

Lemma block_ok_wr32 off v b : block_ok b → block_ok (wr32 off v b).
Proof. intros Hb. apply block_ok_wr_bytes; [done|apply le_bytes_range]. Qed.

Lemma rd32_range off b : block_ok b → 0 ≤ rd32 off b < 2 ^ 32.
Proof.
  intros [_ Hb]. unfold rd32.
  assert (Forall (λ x, 0 ≤ x < 256) (rd_bytes off 4 b)) as Hf by by apply Forall_take, Forall_drop.
  pose proof (le_val_range _ Hf) as Hr.
  assert (Z.of_nat (length (rd_bytes off 4 b)) ≤ 4) as Hl
    by (unfold rd_bytes; rewrite length_take; lia).
  pose proof (Z.pow_le_mono_r 256 (Z.of_nat (length (rd_bytes off 4 b))) 4 ltac:(lia) Hl). lia.
Qed.
