(* ===== verification/SleepLock.v ===== *)
(** * Sleep locks: kernel/sleeplock.c

    The operations act on a sleep lock inside a larger state, given by the
    section's accessors; [mypid] is [myproc()->pid] of the calling process.
    A process that finds the lock taken goes to sleep on it. *)

From stdpp Require Import base gmap list strings numbers.
From S2P Require Import Prelude.

Record sleeplock := mkSL {
  sl_lk : bool;      (* lk: the spinlock protecting this sleep lock *)
  sl_locked : bool;  (* locked *)
  sl_pid : Z;        (* pid of the holder *)
}.

Section sleeplock.
Context {S : Type} (view : S → sleeplock) (set : sleeplock → S → S) (mypid : S → Z) (chan : Z).

Definition set_lk (b : bool) (s : S) : S :=
  set (mkSL b (sl_locked (view s)) (sl_pid (view s))) s.
Definition set_holder (locked : bool) (pid : Z) (s : S) : S :=
  set (mkSL (sl_lk (view s)) locked pid) s.
Definition lk_bit (s : S) : bool := sl_lk (view s).

Definition initsleeplock : M S unit := modify (set (mkSL false false 0)).

(** [sleep] releases the spinlock; when the process is woken up the loop
    looks at [locked] again. *)
Definition acquiresleep : M S unit :=
  acquire lk_bit set_lk ;;
  lk <- gets view ;;
  if sl_locked lk then release lk_bit set_lk ;; sleep_on chan
  else
    pid <- gets mypid ;;
    modify (set_holder true pid) ;;
    release lk_bit set_lk.

Definition releasesleep : M S unit :=
  acquire lk_bit set_lk ;;
  modify (set_holder false 0) ;;
  wakes chan ;;
  release lk_bit set_lk.

Definition holdingsleep : M S bool :=
  acquire lk_bit set_lk ;;
  lk <- gets view ;;
  pid <- gets mypid ;;
  release lk_bit set_lk ;;
  ret (sl_locked lk && (sl_pid lk =? pid)).

(** ** The operations on a lock whose spinlock is free *)

(** [P]: the lock is part of the state. *)
Context (P : S → Prop).
Hypothesis P_set : ∀ lk s, P s → P (set lk s).
Hypothesis view_set : ∀ lk s, P s → view (set lk s) = lk.
Hypothesis set_set : ∀ lk lk' s, set lk (set lk' s) = set lk s.
Hypothesis set_view : ∀ s, P s → set (view s) s = s.
Hypothesis pid_set : ∀ lk s, mypid (set lk s) = mypid s.

Lemma set_lk_view s : P s → sl_lk (view s) = false →
  set (mkSL false (sl_locked (view s)) (sl_pid (view s))) s = s.
Proof.
  intros HP Hl. transitivity (set (view s) s); [|by apply set_view].
  f_equal. rewrite <-Hl. by destruct (view s).
Qed.

Lemma acquiresleep_run Q s :
  P s → sl_lk (view s) = false → sl_locked (view s) = false →
  Q tt (set (mkSL false true (mypid s)) s) → wp acquiresleep Q s.
Proof.
  intros HP Hl Hf HQ. unfold acquiresleep. wp_run. apply wp_acquire; [done|].
  wp_run. unfold set_lk at 1. rewrite view_set by done. cbn [sl_locked]. rewrite Hf. wp_run.
  apply wp_release; unfold lk_bit, set_holder, set_lk;
    rewrite ?set_set, ?pid_set, ?view_set by auto; done.
Qed.

Lemma acquiresleep_blocks s :
  P s → sl_lk (view s) = false → sl_locked (view s) = true → acquiresleep s = BLOCK chan s.
Proof.
  intros HP Hl Hf. unfold acquiresleep, acquire, bind, gets, lk_bit. rewrite Hl.
  unfold set_lk at 1. rewrite view_set by done. cbn [sl_locked]. rewrite Hf.
  unfold release, lk_bit, set_lk. rewrite !view_set by done. cbn [sl_lk sl_locked sl_pid].
  rewrite set_set. unfold sleep_on. f_equal. by apply set_lk_view.
Qed.

Lemma releasesleep_run Q s :
  P s → sl_lk (view s) = false → Q tt (set (mkSL false false 0) s) → wp releasesleep Q s.
Proof.
  intros HP Hl HQ. unfold releasesleep. wp_run. apply wp_acquire; [done|]. wp_run.
  apply wp_release; unfold lk_bit, set_holder, set_lk; rewrite ?set_set, ?view_set by auto; done.
Qed.

Lemma holdingsleep_run Q s :
  P s → sl_lk (view s) = false →
  Q (sl_locked (view s) && (sl_pid (view s) =? mypid s)) s → wp holdingsleep Q s.
Proof.
  intros HP Hl HQ. unfold holdingsleep. wp_run. apply wp_acquire; [done|]. wp_run.
  apply wp_release; unfold lk_bit, set_lk; rewrite ?set_set, ?pid_set, ?view_set by auto; [done|].
  wp_run. cbn [sl_lk sl_locked sl_pid]. by rewrite set_lk_view.
Qed.

End sleeplock.
