(* ===== verification/Bio.v ===== *)
(** * Buffer cache: kernel/bio.c

    The cache is the array of NBUF buffers and the list head, linked through
    [prev] and [next]; a pointer to a buffer is its index, and [HEAD] is the
    address of [bcache.head].  [disk] is the disk behind the driver, and
    [wtrace] records the blocks written to it, oldest first: what a crash may
    leave on the disk is the effect of a prefix of that trace. *)

From stdpp Require Import base gmap list strings numbers.
From S2P Require Import Prelude Block SleepLock.

Definition NBUF : Z := 30.
Definition HEAD : Z := NBUF.

Record buf := mkBuf {
  b_valid : bool;      (* has data been read from disk? *)
  b_dev : Z;
  b_blockno : Z;
  b_lock : sleeplock;
  b_refcnt : Z;
  b_prev : Z;          (* LRU cache list *)
  b_next : Z;
  b_data : block;
}.

Definition disk_t : Type := gmap Z block.
Definition dget (d : disk_t) (n : Z) : block := default zero_block (d !! n).

Record bst := mkB {
  bc_locked : bool;               (* bcache.lock *)
  bufs : list buf;                (* bcache.buf, then bcache.head *)
  disk : disk_t;
  wtrace : list (Z * block);
  curpid : Z;                     (* myproc()->pid *)
}.
Definition set_bc_locked (b : bool) (s : bst) : bst :=
  mkB b (bufs s) (disk s) (wtrace s) (curpid s).
Definition set_bufs (l : list buf) (s : bst) : bst :=
  mkB (bc_locked s) l (disk s) (wtrace s) (curpid s).
Definition set_disk (d : disk_t) (w : list (Z * block)) (s : bst) : bst :=
  mkB (bc_locked s) (bufs s) d w (curpid s).

Definition free_lock : sleeplock := mkSL false false 0.
Definition zero_buf : buf := mkBuf false 0 0 free_lock 0 0 0 zero_block.

(** Access through a pointer. *)
Definition bufat (s : bst) (b : Z) : buf := default zero_buf (bufs s !! Z.to_nat b).
Definition upd (b : Z) (f : buf → buf) (s : bst) : bst :=
  set_bufs (alter f (Z.to_nat b) (bufs s)) s.

Definition with_valid (v : bool) (b : buf) : buf :=
  mkBuf v (b_dev b) (b_blockno b) (b_lock b) (b_refcnt b) (b_prev b) (b_next b) (b_data b).
Definition with_id (dev no : Z) (b : buf) : buf :=
  mkBuf (b_valid b) dev no (b_lock b) (b_refcnt b) (b_prev b) (b_next b) (b_data b).
Definition with_lock (lk : sleeplock) (b : buf) : buf :=
  mkBuf (b_valid b) (b_dev b) (b_blockno b) lk (b_refcnt b) (b_prev b) (b_next b) (b_data b).
Definition with_refcnt (r : Z) (b : buf) : buf :=
  mkBuf (b_valid b) (b_dev b) (b_blockno b) (b_lock b) r (b_prev b) (b_next b) (b_data b).
Definition with_prev (p : Z) (b : buf) : buf :=
  mkBuf (b_valid b) (b_dev b) (b_blockno b) (b_lock b) (b_refcnt b) p (b_next b) (b_data b).
Definition with_next (p : Z) (b : buf) : buf :=
  mkBuf (b_valid b) (b_dev b) (b_blockno b) (b_lock b) (b_refcnt b) (b_prev b) p (b_data b).
Definition with_data (d : block) (b : buf) : buf :=
  mkBuf (b_valid b) (b_dev b) (b_blockno b) (b_lock b) (b_refcnt b) (b_prev b) (b_next b) d.

(** [b->refcnt++] and [b->refcnt--] on the unsigned field. *)
Definition add_refcnt (k : Z) (b : buf) : buf := with_refcnt (u32 (b_refcnt b + k)) b.

(** The lock of buffer [b] in the cache. *)
Definition blk (b : Z) (s : bst) : sleeplock := b_lock (bufat s b).
Definition set_blk (b : Z) (lk : sleeplock) (s : bst) : bst := upd b (with_lock lk) s.

Definition bacquire := acquire bc_locked set_bc_locked.
Definition brelease := release bc_locked set_bc_locked.
Definition bacquiresleep (b : Z) : M bst unit := acquiresleep (blk b) (set_blk b) curpid b.
Definition breleasesleep (b : Z) : M bst unit := releasesleep (blk b) (set_blk b) b.
Definition bholdingsleep (b : Z) : M bst bool := holdingsleep (blk b) (set_blk b) curpid.

(** What the cache asks of the disk driver: [virtio_disk_rw] transfers the
    buffer to the disk ([write]) or the disk to the buffer. *)
Definition virtio_disk_rw (b : Z) (write : bool) : M bst unit :=
  modify (λ s,
    let bf := bufat s b in
    if write then set_disk (<[b_blockno bf := b_data bf]> (disk s))
                           (wtrace s ++ [(b_blockno bf, b_data bf)]) s
    else upd b (with_data (dget (disk s) (b_blockno bf))) s).

Definition binit : M bst unit :=
  modify (set_bc_locked false) ;;
  modify (upd HEAD (with_prev HEAD)) ;;
  modify (upd HEAD (with_next HEAD)) ;;
  for_loop (Z.to_nat NBUF) 0 (λ b,
    h <- gets (λ s, b_next (bufat s HEAD)) ;;
    modify (upd b (with_next h)) ;;
    modify (upd b (with_prev HEAD)) ;;
    initsleeplock (set_blk b) ;;
    h <- gets (λ s, b_next (bufat s HEAD)) ;;
    modify (upd h (with_prev b)) ;;
    modify (upd HEAD (with_next b))).

(** The first loop of [bget]: [Some b] when the block is cached in [b]. *)
Definition bget_cached (dev blockno : Z) : M bst (option Z) :=
  b0 <- gets (λ s, b_next (bufat s HEAD)) ;;
  loop (S (Z.to_nat NBUF))
    (λ b,
      if b =? HEAD then ret (inr None)
      else
        bf <- gets (λ s, bufat s b) ;;
        if (b_dev bf =? dev) && (b_blockno bf =? blockno) then
          modify (upd b (add_refcnt 1)) ;;
          brelease ;;
          bacquiresleep b ;;
          ret (inr (Some b))
        else ret (inl (b_next bf)))
    b0.

(** The second loop: recycle the least recently used unused buffer. *)
Definition bget_recycle (dev blockno : Z) : M bst Z :=
  b0 <- gets (λ s, b_prev (bufat s HEAD)) ;;
  loop (S (Z.to_nat NBUF))
    (λ b,
      if b =? HEAD then panic "bget: no buffers"
      else
        bf <- gets (λ s, bufat s b) ;;
        if b_refcnt bf =? 0 then
          modify (upd b (with_id dev blockno)) ;;
          modify (upd b (with_valid false)) ;;
          modify (upd b (with_refcnt 1)) ;;
          brelease ;;
          bacquiresleep b ;;
          ret (inr b)
        else ret (inl (b_prev bf)))
    b0.

Definition bget (dev blockno : Z) : M bst Z :=
  bacquire ;;
  r <- bget_cached dev blockno ;;
  match r with
  | Some b => ret b
  | None => bget_recycle dev blockno
  end.

Definition bread (dev blockno : Z) : M bst Z :=
  b <- bget dev blockno ;;
  bf <- gets (λ s, bufat s b) ;;
  (if negb (b_valid bf) then
     virtio_disk_rw b false ;;
     modify (upd b (with_valid true))
   else ret tt) ;;
  ret b.

Definition bwrite (b : Z) : M bst unit :=
  h <- bholdingsleep b ;;
  if negb h then panic "bwrite" else virtio_disk_rw b true.

Definition brelse (b : Z) : M bst unit :=
  h <- bholdingsleep b ;;
  if negb h then panic "brelse"
  else
    breleasesleep b ;;
    bacquire ;;
    modify (upd b (add_refcnt (-1))) ;;
    bf <- gets (λ s, bufat s b) ;;
    (if b_refcnt bf =? 0 then
       (* no one is waiting for it. *)
       modify (upd (b_next bf) (with_prev (b_prev bf))) ;;
       bf <- gets (λ s, bufat s b) ;;
       modify (upd (b_prev bf) (with_next (b_next bf))) ;;
       h <- gets (λ s, b_next (bufat s HEAD)) ;;
       modify (upd b (with_next h)) ;;
       modify (upd b (with_prev HEAD)) ;;
       h <- gets (λ s, b_next (bufat s HEAD)) ;;
       modify (upd h (with_prev b)) ;;
       modify (upd HEAD (with_next b))
     else ret tt) ;;
    brelease.

Definition bpin (b : Z) : M bst unit :=
  bacquire ;; modify (upd b (add_refcnt 1)) ;; brelease.

Definition bunpin (b : Z) : M bst unit :=
  bacquire ;; modify (upd b (add_refcnt (-1))) ;; brelease.

Lemma dget_insert (d : disk_t) n b n' :
  dget (<[n := b]> d) n' = if n' =? n then b else dget d n'.
Proof.
  unfold dget, disk_t in *. destruct (Z.eqb_spec n' n) as [->|Hne].
  - by rewrite lookup_insert_eq.
  - by rewrite lookup_insert_ne.
Qed.
