(* ===== verification/BioSpec.v ===== *)
(** * The buffer cache implements a disk with a write-back cache

    [binv] is the invariant of the cache: the buffers are linked in a ring in
    order of use, no block is cached twice, and an unreferenced buffer holds
    what the disk holds.  The lemmas give each operation of [Bio] in terms of
    what a client can see: the contents of a block ([cview]), its references
    and its lock. *)

From stdpp Require Import base gmap list strings numbers.
From S2P Require Import Prelude Block SleepLock Bio.

(** ** The ring of buffers *)

Fixpoint linked (nx pv : Z → Z) (l : list Z) : Prop :=
  match l with
  | x :: ((y :: _) as l') => nx x = y ∧ pv y = x ∧ linked nx pv l'
  | _ => True
  end.

Definition fupd (f : Z → Z) (k v : Z) : Z → Z := λ x, if x =? k then v else f x.

Lemma linked_app nx pv l1 x l2 :
  linked nx pv (l1 ++ x :: l2) ↔ linked nx pv (l1 ++ [x]) ∧ linked nx pv (x :: l2).
Proof.
  induction l1 as [|y l1 IH]; [cbn; tauto|]. cbn [app].
  destruct l1 as [|z l1]; cbn [app] in *.
  - cbn. tauto.
  - change (nx y = z ∧ pv z = y ∧ linked nx pv (z :: l1 ++ x :: l2) ↔
      (nx y = z ∧ pv z = y ∧ linked nx pv (z :: l1 ++ [x])) ∧ linked nx pv (x :: l2)).
    rewrite IH. tauto.
Qed.

(** Only successors of all but the last and predecessors of all but the first
    matter. *)
Lemma linked_ext nx pv nx' pv' l x :
  (∀ y, y ∈ l → nx' y = nx y) → (∀ y, y ∈ tail (l ++ [x]) → pv' y = pv y) →
  linked nx pv (l ++ [x]) → linked nx' pv' (l ++ [x]).
Proof.
  induction l as [|y l IH]; intros Hn Hp Hl; [done|]. cbn [app tail] in *.
  destruct l as [|z l]; cbn [app] in *.
  - destruct Hl as (H1 & H2 & _). cbn. rewrite Hn, Hp; [done| |]; apply elem_of_cons; by left.
  - destruct Hl as (H1 & H2 & Hl). split_and!.
    + rewrite Hn; [done|]. apply elem_of_cons; by left.
    + rewrite Hp; [done|]. apply elem_of_cons; by left.
    + apply IH; [| |done].
      * intros w Hw. apply Hn. apply elem_of_cons. by right.
      * intros w Hw. apply Hp. cbn [tail] in Hw. apply elem_of_cons. by right.
Qed.

Section ring.
Context (nx pv : Z → Z) (h : Z).

(** The buffers [o], most recently used first, linked between the two sides
    of the list head. *)
Definition ring (o : list Z) : Prop := linked nx pv (h :: o ++ [h]) ∧ NoDup (h :: o).

End ring.

Lemma fupd_other f k v x : x ≠ k → fupd f k v x = f x.
Proof. intros H. unfold fupd. by rewrite (proj2 (Z.eqb_neq x k)). Qed.
Lemma fupd_same f k v : fupd f k v k = v.
Proof. unfold fupd. by rewrite Z.eqb_refl. Qed.

(** Taking [b] out of the list. *)
Lemma ring_unlink nx pv h l1 b l2 :
  ring nx pv h (l1 ++ b :: l2) →
  let q := nx b in let p := pv b in
  ring (fupd nx p q) (fupd pv q p) h (l1 ++ l2) ∧ q ≠ b ∧ p ≠ b.
Proof.
  intros [Hl Hn] q p.
  assert (NoDup (b :: h :: l1 ++ l2)) as Hn'.
  { rewrite Permutation_swap, (Permutation_middle l1 l2 b). exact Hn. }
  apply list.NoDup_cons in Hn' as [Hb Hn'].
  destruct (exists_last (l := h :: l1)) as (l0 & p' & Ep); [done|].
  destruct (l2 ++ [h]) as [|q' C] eqn:EC; [by destruct l2|].
  rewrite <-app_assoc in Hl. cbn [app] in Hl. rewrite EC in Hl.
  change (h :: l1 ++ b :: q' :: C) with ((h :: l1) ++ b :: q' :: C) in Hl.
  rewrite Ep, <-app_assoc in Hl. cbn [app] in Hl.
  apply linked_app in Hl as [Hl1 (H1 & H2 & H3 & H4 & Hl2)].
  assert (p = p') as -> by done. assert (q = q') as -> by done.
  assert (p' ∈ h :: l1) as Hp' by (rewrite Ep; apply elem_of_app; right; by apply elem_of_cons; left).
  assert (q' ∈ l2 ++ [h]) as Hq' by (rewrite EC; by apply elem_of_cons; left).
  assert (NoDup (l0 ++ [p'])) as Hnp.
  { rewrite <-Ep. change (h :: l1 ++ l2) with ((h :: l1) ++ l2) in Hn'.
    by apply list.NoDup_app in Hn' as [? _]. }
  assert (NoDup (q' :: C)) as Hnq.
  { rewrite <-EC, <-Permutation_cons_append. rewrite (Permutation_app_comm l1 l2) in Hn'.
    change (h :: l2 ++ l1) with ((h :: l2) ++ l1) in Hn'. by apply list.NoDup_app in Hn' as [? _]. }
  assert (∀ y, y ∈ l1 → y ∉ l2 ++ [h]) as Hdis.
  { intros y Hy. apply list.NoDup_cons in Hn' as [Hh Hn'].
    apply list.NoDup_app in Hn' as (_ & Hd & _). rewrite elem_of_app, list_elem_of_singleton.
    intros [?| ->]; [by eapply Hd|]. apply Hh, elem_of_app. by left. }
  split_and!; [split; [|done]| |].
  - rewrite <-app_assoc, EC. change (h :: l1 ++ q' :: C) with ((h :: l1) ++ q' :: C).
    rewrite Ep, <-app_assoc. cbn [app]. apply linked_app. split; [|split_and!].
    + eapply linked_ext; [| |exact Hl1].
      * intros y Hy. apply fupd_other. intros ->.
        apply list.NoDup_app in Hnp as (_ & Hd & _). by apply (Hd p' Hy), list_elem_of_singleton.
      * intros y Hy. rewrite <-Ep in Hy. cbn [tail] in Hy. apply fupd_other. intros ->.
        by apply (Hdis q').
    + apply fupd_same.
    + apply fupd_same.
    + rewrite <-EC in Hl2 |- *. eapply linked_ext; [| |exact Hl2].
      * intros y Hy. apply fupd_other. intros ->. apply elem_of_cons in Hp' as [->|Hp'].
        -- apply list.NoDup_cons in Hn' as [Hh _]. apply Hh, elem_of_app. by right.
        -- apply (Hdis p' Hp'), elem_of_app. by left.
      * intros y Hy. rewrite EC in Hy. cbn [tail] in Hy. apply fupd_other. intros ->.
        by apply list.NoDup_cons in Hnq as [? _].
  - intros ->. apply Hb. rewrite elem_of_cons, elem_of_app. rewrite elem_of_app, list_elem_of_singleton in Hq'.
    tauto.
  - intros ->. apply Hb. rewrite elem_of_cons, elem_of_app. rewrite elem_of_cons in Hp'. tauto.
Qed.

(** Putting [b] at the head of the list. *)
Lemma ring_push nx pv h b r :
  ring nx pv h r → b ∉ h :: r →
  ring (fupd (fupd nx b (nx h)) h b) (fupd (fupd pv b h) (nx h) b) h (b :: r).
Proof.
  intros [Hl Hn] Hb.
  destruct (r ++ [h]) as [|q C] eqn:EC; [by destruct r|].
  assert (q ∈ r ++ [h]) as Hq by (rewrite EC; by apply elem_of_cons; left).
  assert (NoDup (q :: C)) as Hnq by by rewrite <-EC, <-Permutation_cons_append.
  assert (q ≠ b ∧ h ≠ b) as [Hqb Hhb].
  { split; intros ->; apply Hb; rewrite elem_of_cons in *; [|by left].
    rewrite elem_of_app, list_elem_of_singleton in Hq. tauto. }
  destruct Hl as (H1 & H2 & Hl). rewrite H1.
  split; [|rewrite Permutation_swap; by apply list.NoDup_cons].
  cbn [app]. rewrite EC. refine (conj _ (conj _ (conj _ (conj _ _)))).
  - apply fupd_same.
  - rewrite fupd_other by done. apply fupd_same.
  - rewrite fupd_other by done. apply fupd_same.
  - apply fupd_same.
  - change (linked (fupd (fupd nx b q) h b) (fupd (fupd pv b h) q b) (q :: C)).
    rewrite <-EC in Hl |- *. eapply linked_ext; [| |exact Hl].
    + intros y Hy. apply list.NoDup_cons in Hn as [Hh _].
      rewrite !fupd_other; [done| |]; intros ->; [|done].
      apply Hb, elem_of_cons. by right.
    + intros y Hy. rewrite EC in Hy. cbn [tail] in Hy.
      apply list.NoDup_cons in Hnq as [HqC _]. rewrite !fupd_other; [done| |].
      * intros ->. apply Hb. assert (b ∈ r ++ [h]) as Hbr by (rewrite EC; by apply elem_of_cons; right).
        rewrite elem_of_cons. rewrite elem_of_app, list_elem_of_singleton in Hbr. tauto.
      * by intros ->.
Qed.

(** Reading the ring. *)
Lemma ring_next nx pv h l1 x l2 :
  ring nx pv h (l1 ++ x :: l2) → nx x = default h (head l2) ∧ pv x = default h (list.last l1).
Proof.
  intros [Hl _]. rewrite <-app_assoc in Hl. cbn [app] in Hl. split.
  - change (h :: l1 ++ x :: l2 ++ [h]) with ((h :: l1) ++ x :: l2 ++ [h]) in Hl.
    apply linked_app in Hl as [_ Hl]. destruct l2; by destruct Hl as [? _].
  - destruct l1 as [|y l1 _] using rev_ind.
    + by destruct Hl as (_ & ? & _).
    + rewrite <-app_assoc in Hl. cbn [app] in Hl. rewrite last_snoc.
      change (h :: l1 ++ y :: x :: l2 ++ [h]) with ((h :: l1) ++ y :: x :: l2 ++ [h]) in Hl.
      apply linked_app in Hl as [_ (_ & ? & _)]. done.
Qed.

Lemma ring_ends nx pv h o :
  ring nx pv h o → nx h = default h (head o) ∧ pv h = default h (list.last o).
Proof.
  intros [Hl _]. split.
  - destruct o; by destruct Hl as [? _].
  - destruct o as [|y o _] using rev_ind; [by destruct Hl as (_ & ? & _)|].
    rewrite last_snoc, <-app_assoc in *. cbn [app] in Hl.
    change (h :: o ++ [y; h]) with ((h :: o) ++ y :: [h]) in Hl.
    by apply linked_app in Hl as [_ (_ & ? & _)].
Qed.

Lemma ring_ext nx pv nx' pv' h o :
  (∀ x, x ∈ h :: o → nx' x = nx x ∧ pv' x = pv x) → ring nx pv h o → ring nx' pv' h o.
Proof.
  intros E [Hl Hn]. split; [|done].
  change (h :: o ++ [h]) with ((h :: o) ++ [h]) in *. eapply linked_ext; [| |exact Hl].
  - intros y Hy. by apply E.
  - cbn [app tail]. intros y Hy. apply E. rewrite elem_of_app, list_elem_of_singleton in Hy.
    rewrite elem_of_cons. tauto.
Qed.

(** ** The invariant *)

Definition nxs (s : bst) (b : Z) : Z := b_next (bufat s b).
Definition pvs (s : bst) (b : Z) : Z := b_prev (bufat s b).

(** The part of a buffer that is not the list. *)
Definition core (b : buf) : bool * Z * Z * sleeplock * Z * block :=
  (b_valid b, b_dev b, b_blockno b, b_lock b, b_refcnt b, b_data b).

Section cache.
Context (dev : Z).

(** A buffer: its lock's spinlock is free, an unreferenced buffer is unlocked
    and clean, a referenced or valid one caches a block of [dev]. *)
Definition bok (d : disk_t) (f : buf) : Prop :=
  sl_lk (b_lock f) = false ∧ 0 ≤ b_refcnt f < 4294967296 ∧
  (b_refcnt f = 0 → sl_locked (b_lock f) = false ∧
     (b_valid f = true → b_data f = dget d (b_blockno f))) ∧
  (b_refcnt f ≠ 0 ∨ b_valid f = true → b_dev f = dev).

Definition ids_distinct (s : bst) : Prop :=
  ∀ b b', 0 ≤ b < NBUF → 0 ≤ b' < NBUF →
    b_dev (bufat s b) = dev → b_dev (bufat s b') = dev →
    b_blockno (bufat s b) = b_blockno (bufat s b') → b = b'.

Definition binv (s : bst) : Prop :=
  bc_locked s = false ∧ length (bufs s) = 31%nat ∧
  (∃ o, ring (nxs s) (pvs s) HEAD o ∧ o ≡ₚ seqZ 0 NBUF) ∧
  (∀ b, 0 ≤ b < NBUF → bok (disk s) (bufat s b)) ∧ ids_distinct s.

(** ** What a client sees *)

Definition holds (s : bst) (n b : Z) : bool :=
  (b_dev (bufat s b) =? dev) && (b_blockno (bufat s b) =? n).
Definition slot (s : bst) (n : Z) : option Z := snd <$> list_find (λ b, holds s n b) (seqZ 0 NBUF).

(** The contents of block [n], the references to it, and whether it is locked. *)
Definition cview (s : bst) (n : Z) : block :=
  match slot s n with
  | Some b => if b_valid (bufat s b) then b_data (bufat s b) else dget (disk s) n
  | None => dget (disk s) n
  end.
Definition crefs (s : bst) (n : Z) : Z :=
  match slot s n with Some b => b_refcnt (bufat s b) | None => 0 end.
Definition cheld (s : bst) (n : Z) : bool :=
  match slot s n with Some b => sl_locked (b_lock (bufat s b)) | None => false end.

Lemma slot_elem s n b : slot s n = Some b → 0 ≤ b < NBUF ∧ holds s n b = true.
Proof.
  unfold slot. intros E. destruct (list_find _ _) as [[i x]|] eqn:El; [|done]. injection E as ->.
  apply list_find_Some in El as (Hl & Hx & _). apply list_elem_of_lookup_2, elem_of_seqZ in Hl.
  split; [lia|]. by apply Is_true_true.
Qed.

Lemma slot_None s n : slot s n = None ↔ ∀ b, 0 ≤ b < NBUF → holds s n b = false.
Proof.
  unfold slot. split.
  - intros E b Hb. destruct (list_find _ _) as [[i x]|] eqn:El; [done|].
    apply list_find_None in El. apply not_true_iff_false. intros Ht.
    rewrite Forall_forall in El. apply (El b); [|by apply Is_true_true].
    apply list_elem_of_In, elem_of_seqZ. lia.
  - intros H. replace (list_find _ _) with (@None (nat * Z)); [done|]. symmetry.
    apply list_find_None, Forall_forall. intros b Hb. apply list_elem_of_In, elem_of_seqZ in Hb.
    rewrite H by lia. by intros [].
Qed.

Lemma slot_Some s n b :
  ids_distinct s → 0 ≤ b < NBUF → holds s n b = true → slot s n = Some b.
Proof.
  intros Hd Hb Hh. destruct (slot s n) as [b'|] eqn:E.
  - apply slot_elem in E as [Hb' Hh']. f_equal. unfold holds in *.
    apply andb_true_iff in Hh as [H1%Z.eqb_eq H2%Z.eqb_eq].
    apply andb_true_iff in Hh' as [H3%Z.eqb_eq H4%Z.eqb_eq]. apply Hd; congruence || done.
  - apply (proj1 (slot_None s n)) with (b := b) in E; [|done]. congruence.
Qed.

(** The caller holds the lock of [b], which caches block [n]. *)
Definition mine (s : bst) (b n : Z) : Prop :=
  slot s n = Some b ∧ b_valid (bufat s b) = true ∧
  b_lock (bufat s b) = mkSL false true (curpid s) ∧ b_refcnt (bufat s b) ≠ 0.

(** Buffer [b] now caches block [n]; nothing is different for other blocks. *)
Definition bstep (s s' : bst) (b n : Z) : Prop :=
  binv s' ∧ curpid s' = curpid s ∧ slot s' n = Some b ∧
  ∀ n', n' ≠ n → cview s' n' = cview s n' ∧ crefs s' n' = crefs s n' ∧
    cheld s' n' = cheld s n' ∧ dget (disk s') n' = dget (disk s) n' ∧
    ∀ x, mine s x n' → mine s' x n'.

Lemma core_holds s s' n b :
  core (bufat s' b) = core (bufat s b) → holds s' n b = holds s n b.
Proof. intros E. unfold holds. injection E as E1 E2 E3 E4 E5 E6. by rewrite E2, E3. Qed.

Lemma holds_id s n b :
  holds s n b = true ↔ b_dev (bufat s b) = dev ∧ b_blockno (bufat s b) = n.
Proof. unfold holds. by rewrite andb_true_iff, !Z.eqb_eq. Qed.

Lemma core_bok d f f' : core f' = core f → bok d f → bok d f'.
Proof. intros E. injection E as E1 E2 E3 E4 E5 E6. unfold bok. by rewrite E1, E2, E3, E4, E5, E6. Qed.

Section step.
Context (s s' : bst) (b n : Z).
Hypothesis Hinv : binv s.
Hypothesis Hunl : bc_locked s' = false.
Hypothesis Hlen : length (bufs s') = 31%nat.
Hypothesis Hring : ∃ o, ring (nxs s') (pvs s') HEAD o ∧ o ≡ₚ seqZ 0 NBUF.
Hypothesis Hpid : curpid s' = curpid s.
Hypothesis Hb : 0 ≤ b < NBUF.
Hypothesis Hid : holds s' n b = true.
Hypothesis Hcore : ∀ x, 0 ≤ x < NBUF → x ≠ b → core (bufat s' x) = core (bufat s x).
Hypothesis Hbok : bok (disk s') (bufat s' b).
Hypothesis Hdisk : ∀ n', n' ≠ n → dget (disk s') n' = dget (disk s) n'.
Hypothesis Hold : holds s n b = true ∨ slot s n = None ∧ b_refcnt (bufat s b) = 0.

Lemma step_others x : 0 ≤ x < NBUF → x ≠ b → holds s n x = false.
Proof.
  intros Hx Hne. destruct Hinv as (_ & _ & _ & _ & Hd). destruct Hold as [Ho|[Ho _]].
  - apply not_true_iff_false. intros Hh. apply Hne.
    pose proof (slot_Some s n x Hd Hx Hh). pose proof (slot_Some s n b Hd Hb Ho). congruence.
  - by apply (proj1 (slot_None s n) Ho).
Qed.

Lemma step_binv : binv s'.
Proof.
  pose proof Hinv as (_ & _ & _ & Hok & Hd). split_and!; try done.
  - intros x Hx. destruct (decide (x = b)) as [->|Hne]; [done|].
    pose proof (Hcore x Hx Hne) as E. pose proof (step_others x Hx Hne) as Hno.
    eapply core_bok; [exact E|]. destruct (Hok x Hx) as (H1 & H2 & H3 & H4).
    split_and!; [done|lia|lia| |done]. intros Hr. destruct (H3 Hr) as [H5 H6].
    split; [done|]. intros Hv. rewrite Hdisk; [by apply H6|].
    intros En. apply not_true_iff_false in Hno. apply Hno, holds_id. split; [|done].
    apply H4. by right.
  - intros x y Hx Hy Hdx Hdy Heq. destruct (decide (x = b)) as [->|Hnx], (decide (y = b)) as [->|Hny]; try done.
    + exfalso. apply holds_id in Hid as [_ Hn]. pose proof (step_others y Hy Hny) as Hno.
      rewrite <-(core_holds s s' n y) in Hno by by apply Hcore.
      apply not_true_iff_false in Hno. apply Hno, holds_id. split; congruence.
    + exfalso. apply holds_id in Hid as [_ Hn]. pose proof (step_others x Hx Hnx) as Hno.
      rewrite <-(core_holds s s' n x) in Hno by by apply Hcore.
      apply not_true_iff_false in Hno. apply Hno, holds_id. split; congruence.
    + pose proof (Hcore x Hx Hnx) as Ex. pose proof (Hcore y Hy Hny) as Ey.
      injection Ex as X1 X2 X3 X4 X5 X6. injection Ey as Y1 Y2 Y3 Y4 Y5 Y6.
      apply Hd; congruence || done.
Qed.

Lemma step_mine n' x : n' ≠ n → mine s x n' → mine s' x n'.
Proof.
  intros Hn' (Hs & Hv & Hl & Hr). pose proof (slot_elem _ _ _ Hs) as [Hx Hh].
  assert (x ≠ b) as Hne.
  { intros ->. apply holds_id in Hh as [_ Hh]. destruct Hold as [Ho%holds_id|[_ Ho]]; [|done].
    destruct Ho. congruence. }
  pose proof (Hcore x Hx Hne) as Ex. pose proof Ex as Ec. injection Ec as X1 X2 X3 X4 X5 X6.
  split_and!; [|congruence|by rewrite X4, Hpid|congruence].
  pose proof step_binv as (_ & _ & _ & _ & Hd'). apply slot_Some; [done|done|].
  by rewrite (core_holds s s').
Qed.

Lemma step_intro : bstep s s' b n.
Proof.
  pose proof step_binv as Hinv'. pose proof Hinv as (_ & _ & _ & Hok & Hd).
  pose proof Hinv' as (_ & _ & _ & _ & Hd').
  split_and!; [done|done|by apply slot_Some|]. intros n' Hn'.
  pose proof (λ x, step_mine n' x Hn') as Hmine. unfold cview, crefs, cheld. rewrite (Hdisk n' Hn').
  assert (holds s' n' b = false) as Hb'.
  { apply not_true_iff_false. intros Hh%holds_id. apply holds_id in Hid. destruct Hid, Hh. congruence. }
  destruct (slot s n') as [x|] eqn:Es.
  - apply slot_elem in Es as [Hx Hhx]. destruct (decide (x = b)) as [->|Hne].
    + (* the buffer was recycled *)
      assert (slot s' n' = None) as ->.
      { apply slot_None. intros y Hy. destruct (decide (y = b)) as [->|Hny]; [done|].
        rewrite (core_holds s s') by by apply Hcore. apply not_true_iff_false. intros Hy'.
        pose proof (slot_Some s n' y Hd Hy Hy'). pose proof (slot_Some s n' b Hd Hb Hhx). congruence. }
      apply holds_id in Hhx as [Hx1 Hx2]. destruct Hold as [Ho|[_ Ho]].
      { apply holds_id in Ho as [_ Ho]. congruence. }
      destruct (Hok b Hb) as (_ & _ & H3 & _). destruct (H3 Ho) as [H5 H6].
      split_and!; [|done..]. destruct (b_valid (bufat s b)) eqn:Ev; [|done].
      rewrite H6, Hx2; done.
    + assert (slot s' n' = Some x) as ->.
      { apply slot_Some; [done|done|]. by rewrite (core_holds s s') by by apply Hcore. }
      pose proof (Hcore x Hx Hne) as Ex. injection Ex as X1 X2 X3 X4 X5 X6.
      by rewrite X1, X4, X5, X6.
  - assert (slot s' n' = None) as ->; [|done]. apply slot_None. intros y Hy.
    destruct (decide (y = b)) as [->|Hny]; [done|].
    rewrite (core_holds s s') by by apply Hcore. by apply (proj1 (slot_None s n') Es).
Qed.

End step.

(** ** Reading and updating buffers *)

Lemma bufat_upd s b f x :
  length (bufs s) = 31%nat → 0 ≤ b < 31 → 0 ≤ x < 31 →
  bufat (upd b f s) x = if x =? b then f (bufat s x) else bufat s x.
Proof.
  intros Hl Hb Hx. unfold bufat, upd, set_bufs. cbn [bufs].
  destruct (lookup_lt_is_Some_2 (bufs s) (Z.to_nat x)) as [bf E]; [lia|].
  destruct (Z.eqb_spec x b) as [->|Hne].
  - rewrite list_lookup_alter_eq, E. done.
  - rewrite list_lookup_alter_ne by lia. done.
Qed.

Lemma length_upd s b f : length (bufs (upd b f s)) = length (bufs s).
Proof. apply length_alter. Qed.

Definition sized (s : bst) : Prop := length (bufs s) = 31%nat.

Lemma blk_set_blk b lk s : 0 ≤ b < NBUF → sized s → blk b (set_blk b lk s) = lk.
Proof.
  intros Hb Hl. unfold blk, set_blk. rewrite bufat_upd by (done || unfold NBUF in *; lia).
  by rewrite Z.eqb_refl.
Qed.

Lemma set_blk_blk b s : 0 ≤ b < NBUF → sized s → set_blk b (blk b s) s = s.
Proof.
  intros Hb Hl. unfold set_blk, upd, set_bufs, blk, bufat. destruct s as [l bs d w p].
  cbn [bufs bc_locked disk wtrace curpid] in *. f_equal.
  destruct (lookup_lt_is_Some_2 bs (Z.to_nat b)) as [bf E]; [unfold sized, NBUF in *; cbn in *; lia|].
  rewrite E. cbn. apply list_eq. intros i. destruct (decide (i = Z.to_nat b)) as [->|Hne].
  - rewrite list_lookup_alter_eq, E. cbn. by destruct bf.
  - by rewrite list_lookup_alter_ne by done.
Qed.

Lemma upd_upd b f g s : upd b f (upd b g s) = upd b (f ∘ g) s.
Proof. unfold upd, set_bufs. cbn. f_equal. apply list_alter_alter_eq. Qed.

Lemma set_blk_set_blk b lk lk' s : set_blk b lk (set_blk b lk' s) = set_blk b lk s.
Proof.
  unfold set_blk, upd, set_bufs. cbn [bufs bc_locked disk wtrace curpid]. f_equal.
  rewrite list_alter_alter_eq. by apply list_alter_ext.
Qed.

Section locks.
Context (b : Z) (Hb : 0 ≤ b < NBUF).

Lemma sized_set_blk lk s : sized s → sized (set_blk b lk s).
Proof. unfold sized, set_blk. by rewrite length_upd. Qed.

Lemma bacquiresleep_run Q s :
  sized s → sl_lk (blk b s) = false → sl_locked (blk b s) = false →
  Q tt (set_blk b (mkSL false true (curpid s)) s) → wp (bacquiresleep b) Q s.
Proof.
  apply (acquiresleep_run _ _ _ _ sized);
    auto using sized_set_blk, blk_set_blk, set_blk_set_blk, set_blk_blk.
Qed.

Lemma breleasesleep_run Q s :
  sized s → sl_lk (blk b s) = false →
  Q tt (set_blk b (mkSL false false 0) s) → wp (breleasesleep b) Q s.
Proof.
  apply (releasesleep_run _ _ b sized);
    auto using sized_set_blk, blk_set_blk, set_blk_set_blk, set_blk_blk.
Qed.

Lemma bholdingsleep_run Q s :
  sized s → sl_lk (blk b s) = false →
  Q (sl_locked (blk b s) && (sl_pid (blk b s) =? curpid s)) s → wp (bholdingsleep b) Q s.
Proof.
  apply (holdingsleep_run _ _ _ sized);
    auto using sized_set_blk, blk_set_blk, set_blk_set_blk, set_blk_blk.
Qed.

End locks.

(** ** [bget] and [bread] *)

Lemma ring_bufs o b : o ≡ₚ seqZ 0 NBUF → b ∈ o ↔ 0 ≤ b < NBUF.
Proof. intros Hp. rewrite Hp, elem_of_seqZ. lia. Qed.

Lemma unlock_id s : bc_locked s = false → set_bc_locked false (set_bc_locked true s) = s.
Proof. destruct s; cbn. by intros ->. Qed.

(** The state after a reference to [b] was taken and its lock acquired. *)
Definition got (b : Z) (f : buf → buf) (s : bst) : bst :=
  set_blk b (mkSL false true (curpid s)) (upd b f s).

Lemma got_run (Q : bst → Prop) (b : Z) f s :
  binv s → 0 ≤ b < NBUF → b_lock (f (bufat s b)) = b_lock (bufat s b) →
  sl_locked (b_lock (bufat s b)) = false → Q (got b f s) →
  wp (brelease ;; bacquiresleep b) (λ _, Q) (upd b f (set_bc_locked true s)).
Proof.
  intros (Hl & Hlen & _ & Hok & _) Hb Hlk Hfree HQ. wp_run. apply wp_release; [done|].
  assert (set_bc_locked false (upd b f (set_bc_locked true s)) = upd b f s) as ->.
  { unfold upd, set_bufs, set_bc_locked. destruct s; cbn in *. by subst. }
  wp_run. assert (blk b (upd b f s) = b_lock (bufat s b)) as E.
  { unfold blk. rewrite bufat_upd by (done || unfold NBUF in *; lia). by rewrite Z.eqb_refl. }
  apply bacquiresleep_run; rewrite ?E; try done.
  - by unfold sized; rewrite length_upd.
  - by apply Hok.
Qed.

Lemma bget_cached_run s n :
  binv s → cheld s n = false →
  wp (bget_cached dev n)
     (λ r s', r = slot s n ∧
        match r with None => s' = set_bc_locked true s | Some b => s' = got b (add_refcnt 1) s end)
     (set_bc_locked true s).
Proof.
  intros Hinv Hheld. pose proof Hinv as (Hl & Hlen & (o & Hring & Hperm) & Hok & Hd).
  unfold bget_cached. wp_run. change (b_next (bufat _ HEAD)) with (nxs s HEAD).
  destruct (ring_ends _ _ _ _ Hring) as [Hhd _]. rewrite Hhd.
  eapply (wp_loop_turns
    (λ k a s', s' = set_bc_locked true s ∧ ∃ l1 l2, o = l1 ++ l2 ∧ a = default HEAD (head l2) ∧
       k = length l2 ∧ ∀ x, x ∈ l1 → holds s n x = false) (length o)).
  - rewrite (Permutation_length Hperm), length_seqZ. unfold NBUF. lia.
  - split; [done|]. exists [], o. split_and!; [done..|]. by intros x ?%elem_of_nil.
  - intros k a s' (-> & l1 & l2 & Eo & -> & -> & Hno). destruct l2 as [|b l2]; cbn [head from_option id].
    { rewrite Z.eqb_refl. wp_run. split; [|done]. symmetry. apply slot_None. intros b Hb.
      apply Hno. rewrite app_nil_r in Eo. subst. by apply (ring_bufs l1). }
    assert (0 ≤ b < NBUF) as Hb.
    { apply (ring_bufs o b Hperm). rewrite Eo. apply elem_of_app. right. by apply elem_of_cons; left. }
    rewrite (proj2 (Z.eqb_neq b HEAD)) by (unfold HEAD; lia). wp_run.
    change (bufat (set_bc_locked true s) b) with (bufat s b).
    fold (holds s n b). destruct (holds s n b) eqn:Hh.
    + pose proof (slot_Some s n b Hd Hb Hh) as Es. unfold cheld in Hheld. rewrite Es in Hheld.
      apply wp_bind, wp_modify. apply (wp_assoc _ (λ _, bacquiresleep b)).
      eapply (wp_seq _ _ (λ _ s', s' = got b (add_refcnt 1) s)); [by apply got_run|].
      intros [] s' ->. by wp_run.
    + wp_run. exists (length l2). split; [cbn; lia|]. split; [done|].
      exists (l1 ++ [b]), l2. rewrite <-app_assoc. split_and!; [done| |done|].
      * rewrite Eo in Hring. apply ring_next in Hring as [Hn _]. exact Hn.
      * intros x. rewrite elem_of_app, list_elem_of_singleton. intros [?| ->]; [by apply Hno|done].
Qed.

(** Some buffer is not referenced. *)
Definition room (s : bst) : Prop := ∃ b, 0 ≤ b < NBUF ∧ b_refcnt (bufat s b) = 0.

Definition recycled (n : Z) (f : buf) : buf := with_refcnt 1 (with_valid false (with_id dev n f)).

Lemma bget_recycle_run s n :
  binv s → room s →
  wp (bget_recycle dev n)
     (λ b s', s' = got b (recycled n) s ∧ 0 ≤ b < NBUF ∧ b_refcnt (bufat s b) = 0 ∧
        ∃ l1 l2, ring (nxs s) (pvs s) HEAD (l1 ++ b :: l2) ∧ l1 ++ b :: l2 ≡ₚ seqZ 0 NBUF ∧
          ∀ x, x ∈ l2 → b_refcnt (bufat s x) ≠ 0)
     (set_bc_locked true s).
Proof.
  intros Hinv (b0 & Hb0 & Hr0). pose proof Hinv as (Hl & Hlen & (o & Hring & Hperm) & Hok & Hd).
  unfold bget_recycle. wp_run. change (b_prev (bufat _ HEAD)) with (pvs s HEAD).
  destruct (ring_ends _ _ _ _ Hring) as [_ Hlast]. rewrite Hlast.
  eapply (wp_loop_turns
    (λ k a s', s' = set_bc_locked true s ∧ ∃ l1 l2, o = l1 ++ l2 ∧ a = default HEAD (list.last l1) ∧
       k = length l1 ∧ ∀ x, x ∈ l2 → b_refcnt (bufat s x) ≠ 0) (length o)).
  - rewrite (Permutation_length Hperm), length_seqZ. unfold NBUF. lia.
  - split; [done|]. exists o, []. rewrite app_nil_r. split_and!; [done..|]. by intros x ?%elem_of_nil.
  - intros k a s' (-> & l1 & l2 & Eo & -> & -> & Hno).
    destruct l1 as [|b l1 _] using rev_ind; cbn [list.last from_option id].
    { exfalso. cbn in Eo. subst l2. apply (Hno b0); [|done]. by apply (ring_bufs o). }
    rewrite last_snoc. cbn [from_option id].
    assert (0 ≤ b < NBUF) as Hb.
    { apply (ring_bufs o b Hperm). rewrite Eo, <-app_assoc. apply elem_of_app. right.
      by apply elem_of_cons; left. }
    rewrite (proj2 (Z.eqb_neq b HEAD)) by (unfold HEAD; lia). wp_run.
    change (bufat (set_bc_locked true s) b) with (bufat s b).
    destruct (Z.eqb_spec (b_refcnt (bufat s b)) 0) as [Hz|Hnz].
    + apply wp_bind, wp_modify, wp_bind, wp_modify, wp_bind, wp_modify.
      rewrite !upd_upd. apply (wp_assoc _ (λ _, bacquiresleep b)).
      eapply (wp_seq _ _ (λ _ s', s' = got b (recycled n) s)).
      { apply got_run; try done. by apply (Hok b Hb). }
      intros [] s' ->. wp_run. rewrite <-app_assoc in Eo. subst o. eauto 10.
    + wp_run. exists (length l1). rewrite length_app. split; [cbn; lia|]. split; [done|].
      exists l1, (b :: l2). rewrite <-app_assoc in Eo. split_and!; [done| |done|].
      * rewrite Eo in Hring. apply ring_next in Hring as [_ Hp]. exact Hp.
      * intros x. rewrite elem_of_cons. intros [->|?]; [done|by apply Hno].
Qed.

(** The ring does not depend on the other fields. *)
Lemma ring_links s s' o :
  o ≡ₚ seqZ 0 NBUF →
  (∀ x, 0 ≤ x ≤ NBUF → b_next (bufat s' x) = b_next (bufat s x) ∧ b_prev (bufat s' x) = b_prev (bufat s x)) →
  ring (nxs s) (pvs s) HEAD o → ring (nxs s') (pvs s') HEAD o.
Proof.
  intros Hp E. apply ring_ext. intros x. rewrite elem_of_cons. intros [->|Hx].
  - apply E. unfold HEAD, NBUF. lia.
  - apply (ring_bufs o x Hp) in Hx. apply E. lia.
Qed.

(** An update of one buffer that leaves the links alone. *)
Lemma upd_links s b f x :
  sized s → 0 ≤ b < NBUF → 0 ≤ x ≤ NBUF →
  (∀ bf, b_next (f bf) = b_next bf ∧ b_prev (f bf) = b_prev bf) →
  b_next (bufat (upd b f s) x) = b_next (bufat s x) ∧
  b_prev (bufat (upd b f s) x) = b_prev (bufat s x).
Proof.
  intros Hs Hb Hx Hf. rewrite bufat_upd by (done || unfold NBUF in *; lia).
  destruct (Z.eqb_spec x b); [apply Hf|done].
Qed.

Lemma upd_core s b f x :
  sized s → 0 ≤ b < NBUF → 0 ≤ x < NBUF → x ≠ b → core (bufat (upd b f s) x) = core (bufat s x).
Proof.
  intros Hs Hb Hx Hne. rewrite bufat_upd by (done || unfold NBUF in *; lia).
  by rewrite (proj2 (Z.eqb_neq x b)).
Qed.

Lemma upd_at s b f : sized s → 0 ≤ b < NBUF → bufat (upd b f s) b = f (bufat s b).
Proof.
  intros Hs Hb. rewrite bufat_upd by (done || unfold NBUF in *; lia). by rewrite Z.eqb_refl.
Qed.

(** A change of the fields of buffer [b] that caches, or comes to cache, block [n]. *)
Lemma bstep_upd s b n f :
  binv s → 0 ≤ b < NBUF →
  (∀ bf, b_next (f bf) = b_next bf ∧ b_prev (f bf) = b_prev bf) →
  (b_dev (f (bufat s b)) = dev ∧ b_blockno (f (bufat s b)) = n) →
  bok (disk s) (f (bufat s b)) →
  holds s n b = true ∨ slot s n = None ∧ b_refcnt (bufat s b) = 0 →
  bstep s (upd b f s) b n.
Proof.
  intros Hinv Hb Hf Hid Hok Hold. pose proof Hinv as (Hl & Hlen & (o & Hring & Hperm) & _ & _).
  apply step_intro; try done.
  - by rewrite length_upd.
  - exists o. split; [|done]. eapply ring_links; [done| |exact Hring].
    intros x Hx. by apply upd_links.
  - apply holds_id. by rewrite upd_at.
  - intros x Hx Hne. by apply upd_core.
  - by rewrite upd_at.
Qed.

Lemma slot_at s n b : slot s n = Some b → 0 ≤ b < NBUF ∧ b_dev (bufat s b) = dev ∧ b_blockno (bufat s b) = n.
Proof. intros E. apply slot_elem in E as [Hb Hh%holds_id]. tauto. Qed.

Lemma u32_succ r : 0 ≤ r < 4294967295 → u32 (r + 1) = r + 1.
Proof. intros. apply u32_small. lia. Qed.

(** What [bread] and [bget] leave. *)
Lemma mine_upd s b n g :
  binv s → 0 ≤ b < NBUF → crefs s n < 4294967295 →
  holds s n b = true ∨ slot s n = None ∧ b_refcnt (bufat s b) = 0 →
  (∀ bf, b_next (g bf) = b_next bf ∧ b_prev (g bf) = b_prev bf) →
  core (g (bufat s b)) =
    (true, dev, n, mkSL false true (curpid s), crefs s n + 1, cview s n) →
  let s' := upd b g s in
  bstep s s' b n ∧ mine s' b n ∧ b_data (bufat s' b) = cview s n ∧ crefs s' n = crefs s n + 1.
Proof.
  intros Hinv Hb Hr Hold Hg E s'. injection E as E1 E2 E3 E4 E5 E6.
  pose proof Hinv as (_ & Hlen & _ & Hok & Hd).
  assert (0 ≤ crefs s n) as Hr0.
  { unfold crefs. destruct (slot s n) as [x|] eqn:Es; [|done].
    apply slot_at in Es as (Hx & _). destruct (Hok x Hx) as (_ & ? & _). lia. }
  assert (bstep s s' b n) as Hst.
  { apply bstep_upd; try done. unfold bok. rewrite E1, E2, E3, E4, E5.
    cbn [sl_lk sl_locked]. split_and!; [done|lia|lia|lia|done]. }
  pose proof Hst as (_ & _ & Hs & _).
  assert (bufat s' b = g (bufat s b)) as Eb by by apply upd_at.
  unfold mine. rewrite Eb. split_and!; try done; [lia|].
  unfold crefs at 1. by rewrite Hs, Eb.
Qed.

Lemma bget_run s n :
  binv s → cheld s n = false → (slot s n = None → room s) →
  wp (bget dev n)
     (λ b s', 0 ≤ b < NBUF ∧
        (slot s n = Some b ∧ s' = got b (add_refcnt 1) s ∨
         slot s n = None ∧ b_refcnt (bufat s b) = 0 ∧ s' = got b (recycled n) s)) s.
Proof.
  intros Hinv Hheld Hroom. pose proof Hinv as (Hl & Hlen & _ & Hok & Hd).
  unfold bget. wp_run. apply wp_acquire; [done|]. wp_run.
  eapply wp_mono; [by apply bget_cached_run|]. intros r s1 [-> Hs1].
  destruct (slot s n) as [b|] eqn:Es.
  - wp_run. apply slot_at in Es as (Hb & _). auto.
  - subst s1. eapply wp_mono; [apply bget_recycle_run; auto|].
    intros b s1 (-> & Hb & Hz & _). auto.
Qed.

(** [bread] returns a locked buffer with the contents of the block. *)
Lemma bread_run s n :
  binv s → cheld s n = false → crefs s n < 4294967295 → (slot s n = None → room s) →
  wp (bread dev n)
     (λ b s', bstep s s' b n ∧ mine s' b n ∧ b_data (bufat s' b) = cview s n ∧
        crefs s' n = crefs s n + 1 ∧ disk s' = disk s ∧ wtrace s' = wtrace s) s.
Proof.
  intros Hinv Hheld Hr Hroom. pose proof Hinv as (_ & Hlen & _ & Hok & _).
  unfold bread. apply wp_bind. eapply wp_mono; [by apply bget_run|].
  intros b s1 (Hb & Hc). wp_run. pose proof (Hok b Hb) as (_ & K2 & _).
  assert (∀ g, s1 = upd b g s → (∀ bf, b_next (g bf) = b_next bf ∧ b_prev (g bf) = b_prev bf) →
    core (g (bufat s b)) = (b_valid (g (bufat s b)), dev, n, mkSL false true (curpid s), crefs s n + 1,
      b_data (g (bufat s b))) →
    holds s n b = true ∨ slot s n = None ∧ b_refcnt (bufat s b) = 0 →
    (if b_valid (g (bufat s b)) then b_data (g (bufat s b)) else dget (disk s) n) = cview s n →
    wp (if negb (b_valid (bufat s1 b)) then virtio_disk_rw b false;; modify (upd b (with_valid true)) else ret tt)
      (λ _ s', wp (ret b) (λ b s', bstep s s' b n ∧ mine s' b n ∧ b_data (bufat s' b) = cview s n ∧
        crefs s' n = crefs s n + 1 ∧ disk s' = disk s ∧ wtrace s' = wtrace s) s') s1) as Hfin.
  { intros g -> Hg Ec Hold Hv. rewrite upd_at by done. injection Ec as C2 C3 C4 C5.
    destruct (b_valid (g (bufat s b))) eqn:Ev; cbn [negb]; wp_run.
    - destruct (mine_upd s b n g) as (M1 & M2 & M3 & M4); try done.
      unfold core. by rewrite Ev, C2, C3, C4, C5, Hv.
    - unfold virtio_disk_rw. wp_run. rewrite !upd_upd, upd_at by done. rewrite C3.
      destruct (mine_upd s b n (with_valid true ∘ (with_data (dget (disk s) n) ∘ g)))
        as (M1 & M2 & M3 & M4); try done.
      unfold core. cbn. by rewrite C2, C3, C4, C5, Hv. }
  unfold got, set_blk in Hc. rewrite !upd_upd in Hc.
  destruct Hc as [[Es ->]|(Es & Hz & ->)].
  - pose proof (slot_at _ _ _ Es) as (_ & Hd1 & Hn1). eapply Hfin; [done|done| | |].
    + unfold core. cbn -[u32]. rewrite Hd1, Hn1. unfold crefs in *. rewrite Es in *.
      by rewrite u32_succ by lia.
    + left. by apply holds_id.
    + unfold cview. by rewrite Es.
  - eapply Hfin; [done|done| |by right|].
    + unfold core, crefs. by rewrite Es.
    + unfold cview. by rewrite Es.
Qed.

Lemma mine_held s b n :
  binv s → mine s b n →
  sized s ∧ 0 ≤ b < NBUF ∧ sl_lk (blk b s) = false ∧
  sl_locked (blk b s) && (sl_pid (blk b s) =? curpid s) = true.
Proof.
  intros (_ & Hlen & _) (Hs & _ & Hlk & _). apply slot_at in Hs as (Hb & _).
  unfold blk. rewrite Hlk. cbn. by rewrite Z.eqb_refl.
Qed.

(** [bwrite] writes the block through. *)
Lemma bwrite_run s b n :
  binv s → mine s b n →
  wp (bwrite b)
     (λ _ s', bstep s s' b n ∧ mine s' b n ∧ bufs s' = bufs s ∧
        disk s' = <[n := b_data (bufat s b)]> (disk s) ∧
        wtrace s' = wtrace s ++ [(n, b_data (bufat s b))]) s.
Proof.
  intros Hinv Hm. destruct (mine_held _ _ _ Hinv Hm) as (Hs & Hb & Hlk & Hh).
  destruct Hm as (Hsl & Hv & Hl & Hr). pose proof (slot_at _ _ _ Hsl) as (_ & Hd & Hn).
  unfold bwrite. wp_run. apply bholdingsleep_run; try done. rewrite Hh. cbn [negb].
  unfold virtio_disk_rw. wp_run. rewrite Hn. set (d := b_data (bufat s b)).
  set (s' := set_disk _ _ _). assert (∀ x, bufat s' x = bufat s x) as Eb by done.
  pose proof Hinv as (Hl0 & Hlen & Hring & Hok & _).
  assert (bstep s s' b n) as Hst.
  { apply step_intro; try done.
    - by apply holds_id.
    - rewrite Eb. destruct (Hok b Hb) as (K1 & K2 & K3 & K4). split_and!; [done|lia|lia|lia|done].
    - intros n' Hn'. change (disk s') with (<[n := d]> (disk s)).
      by rewrite dget_insert, (proj2 (Z.eqb_neq n' n)).
    - left. by apply holds_id. }
  split_and!; try done.
Qed.

(** Changing the data of a buffer one holds. *)
Lemma modify_data s b n f :
  binv s → mine s b n →
  let s' := upd b (λ bf, with_data (f (b_data bf)) bf) s in
  bstep s s' b n ∧ mine s' b n ∧ b_data (bufat s' b) = f (b_data (bufat s b)) ∧
  crefs s' n = crefs s n ∧ disk s' = disk s ∧ wtrace s' = wtrace s.
Proof.
  intros Hinv (Hsl & Hv & Hl & Hr) s'. pose proof (slot_at _ _ _ Hsl) as (Hb & Hd & Hn).
  pose proof Hinv as (_ & Hlen & _ & Hok & _).
  assert (bufat s' b = with_data (f (b_data (bufat s b))) (bufat s b)) as Eb 
    by by apply (upd_at s b (λ bf, with_data (f (b_data bf)) bf)).
  assert (bstep s s' b n) as Hst.
  { apply bstep_upd; try done; [|left; by apply holds_id].
    destruct (Hok b Hb) as (K1 & K2 & K3 & K4). unfold bok. cbn.
    split_and!; [done|lia|lia|intros; congruence|done]. }
  pose proof Hst as (_ & _ & Hs' & _). unfold mine. rewrite Eb.
  split_and!; try done. unfold crefs. by rewrite Hsl, Hs', Eb.
Qed.

(** [bpin] and [bunpin] count references. *)
Lemma refcnt_run s b n k :
  binv s → mine s b n → 0 < b_refcnt (bufat s b) + k < 4294967296 →
  wp (bacquire ;; modify (upd b (add_refcnt k)) ;; brelease)
     (λ _ s', bstep s s' b n ∧ mine s' b n ∧ b_data (bufat s' b) = b_data (bufat s b) ∧
        crefs s' n = crefs s n + k ∧ disk s' = disk s ∧ wtrace s' = wtrace s) s.
Proof.
  intros Hinv (Hsl & Hv & Hl & Hr) Hk. pose proof (slot_at _ _ _ Hsl) as (Hb & Hd & Hn).
  pose proof Hinv as (Hl0 & Hlen & _ & Hok & _).
  wp_run. apply wp_acquire; [done|]. wp_run. apply wp_release; [done|].
  assert (set_bc_locked false (upd b (add_refcnt k) (set_bc_locked true s)) = upd b (add_refcnt k) s) as ->.
  { unfold upd, set_bufs, set_bc_locked. destruct s; cbn in *. by subst. }
  set (s' := upd _ _ _).
  assert (bufat s' b = add_refcnt k (bufat s b)) as Eb by by apply upd_at.
  assert (u32 (b_refcnt (bufat s b) + k) = b_refcnt (bufat s b) + k) as Eu by (apply u32_small; lia).
  assert (bstep s s' b n) as Hst.
  { apply bstep_upd; try done; [|left; by apply holds_id].
    destruct (Hok b Hb) as (K1 & K2 & K3 & K4). unfold bok. cbn -[u32]. rewrite Eu.
    split_and!; [done|lia|lia|lia|auto]. }
  pose proof Hst as (_ & _ & Hs' & _). unfold mine. rewrite Eb. cbn -[u32]. rewrite Eu.
  split_and!; try done; [lia|]. unfold crefs. rewrite Hsl, Hs', Eb. cbn -[u32]. by rewrite Eu.
Qed.

(** ** [brelse]: the buffer moves to the head of the list *)

Lemma nxs_upd_next s b v x :
  sized s → 0 ≤ b ≤ NBUF → 0 ≤ x ≤ NBUF → nxs (upd b (with_next v) s) x = fupd (nxs s) b v x.
Proof.
  intros Hs Hb Hx. unfold nxs, fupd. rewrite bufat_upd by (done || unfold NBUF in *; lia).
  by destruct (x =? b).
Qed.
Lemma pvs_upd_prev s b v x :
  sized s → 0 ≤ b ≤ NBUF → 0 ≤ x ≤ NBUF → pvs (upd b (with_prev v) s) x = fupd (pvs s) b v x.
Proof.
  intros Hs Hb Hx. unfold pvs, fupd. rewrite bufat_upd by (done || unfold NBUF in *; lia).
  by destruct (x =? b).
Qed.
Lemma nxs_upd_prev s b v x :
  sized s → 0 ≤ b ≤ NBUF → 0 ≤ x ≤ NBUF → nxs (upd b (with_prev v) s) x = nxs s x.
Proof.
  intros Hs Hb Hx. unfold nxs. rewrite bufat_upd by (done || unfold NBUF in *; lia).
  by destruct (x =? b).
Qed.
Lemma pvs_upd_next s b v x :
  sized s → 0 ≤ b ≤ NBUF → 0 ≤ x ≤ NBUF → pvs (upd b (with_next v) s) x = pvs s x.
Proof.
  intros Hs Hb Hx. unfold pvs. rewrite bufat_upd by (done || unfold NBUF in *; lia).
  by destruct (x =? b).
Qed.
Lemma core_upd_link s b f x :
  sized s → 0 ≤ b ≤ NBUF → 0 ≤ x ≤ NBUF → (∀ bf, core (f bf) = core bf) →
  core (bufat (upd b f s) x) = core (bufat s x).
Proof.
  intros Hs Hb Hx Hf. rewrite bufat_upd by (done || unfold NBUF in *; lia).
  destruct (x =? b); [apply Hf|done].
Qed.

(** The pointer updates of [brelse]. *)
Definition to_front (b : Z) (s : bst) : bst :=
  let q := nxs s b in
  let s1 := upd q (with_prev (pvs s b)) s in
  let s2 := upd (pvs s1 b) (with_next (nxs s1 b)) s1 in
  let h := nxs s2 HEAD in
  let s3 := upd b (with_prev HEAD) (upd b (with_next h) s2) in
  upd HEAD (with_next b) (upd (nxs s3 HEAD) (with_prev b) s3).

(** Two updates of links, seen through [nxs] and [pvs]. *)
Definition links (s : bst) (nx pv : Z → Z) : Prop :=
  sized s ∧ ∀ x, 0 ≤ x ≤ NBUF → nxs s x = nx x ∧ pvs s x = pv x.

Lemma links_next s nx pv b v :
  links s nx pv → 0 ≤ b ≤ NBUF → links (upd b (with_next v) s) (fupd nx b v) pv.
Proof.
  intros [Hs E] Hb. split; [unfold sized; by rewrite length_upd|]. intros x Hx.
  rewrite nxs_upd_next, pvs_upd_next by done. unfold fupd. destruct (E x Hx) as [E1 ->].
  by destruct (x =? b).
Qed.
Lemma links_prev s nx pv b v :
  links s nx pv → 0 ≤ b ≤ NBUF → links (upd b (with_prev v) s) nx (fupd pv b v).
Proof.
  intros [Hs E] Hb. split; [unfold sized; by rewrite length_upd|]. intros x Hx.
  rewrite nxs_upd_prev, pvs_upd_prev by done. unfold fupd. destruct (E x Hx) as [-> E1].
  by destruct (x =? b).
Qed.

(** Nothing but links is different. *)
Definition same_but_links (s s' : bst) : Prop :=
  (∀ x, 0 ≤ x ≤ NBUF → core (bufat s' x) = core (bufat s x)) ∧
  bc_locked s' = bc_locked s ∧ disk s' = disk s ∧ wtrace s' = wtrace s ∧ curpid s' = curpid s.

Lemma same_upd_link s s' b f :
  sized s' → 0 ≤ b ≤ NBUF → (∀ bf, core (f bf) = core bf) →
  same_but_links s s' → same_but_links s (upd b f s').
Proof.
  intros Hs Hb Hf (Hc & H1 & H2 & H3 & H4). split_and!; try done.
  intros x Hx. rewrite core_upd_link by done. by apply Hc.
Qed.

Lemma to_front_links s b :
  let q := nxs s b in let p := pvs s b in let h := fupd (nxs s) p q HEAD in
  sized s → 0 ≤ b < NBUF → 0 ≤ q ≤ NBUF → 0 ≤ p ≤ NBUF → 0 ≤ h ≤ NBUF → q ≠ b → p ≠ b →
  links (to_front b s) (fupd (fupd (fupd (nxs s) p q) b h) HEAD b)
                       (fupd (fupd (fupd (pvs s) q p) b HEAD) h b) ∧
  same_but_links s (to_front b s).
Proof.
  intros q p h Hs Hb Hq Hp Hh Hqb Hpb. unfold to_front. fold q p.
  assert (0 ≤ HEAD ≤ NBUF ∧ b ≠ HEAD) as [HH HbH] by (unfold HEAD, NBUF in *; lia).
  assert (links s (nxs s) (pvs s)) as L0 by by split.
  assert (L1 := links_prev _ _ _ q p L0 Hq). set (s1 := upd q _ s) in *.
  assert (pvs s1 b = p ∧ nxs s1 b = q) as [-> ->].
  { destruct L1 as [_ E]. destruct (E b) as [-> ->]; [lia|]. by rewrite fupd_other by congruence. }
  assert (L2 := links_next _ _ _ p q L1 Hp). set (s2 := upd p _ s1) in *.
  assert (nxs s2 HEAD = h) as -> by (destruct L2 as [_ E]; by apply E).
  assert (L3 := links_next _ _ _ b h L2 ltac:(lia)). set (s3 := upd b _ s2) in *.
  assert (L4 := links_prev _ _ _ b HEAD L3 ltac:(lia)). set (s4 := upd b _ s3) in *.
  assert (nxs s4 HEAD = h) as ->.
  { destruct L4 as [_ E]. destruct (E HEAD HH) as [-> _]. by rewrite fupd_other by congruence. }
  assert (L5 := links_prev _ _ _ h b L4 Hh). set (s5 := upd h _ s4) in *.
  split; [by apply links_next|].
  repeat (apply same_upd_link; [by first [apply L5|apply L4|apply L3|apply L2|apply L1|apply L0]|lia|done|]).
  by split_and!.
Qed.

Lemma to_front_ring s b l1 l2 :
  sized s → l1 ++ b :: l2 ≡ₚ seqZ 0 NBUF → ring (nxs s) (pvs s) HEAD (l1 ++ b :: l2) →
  let s' := to_front b s in
  sized s' ∧ ring (nxs s') (pvs s') HEAD (b :: l1 ++ l2) ∧ same_but_links s s'.
Proof.
  intros Hs Hp Hr s'.
  assert (∀ x, x ∈ l1 ++ b :: l2 → 0 ≤ x < NBUF) as Hin by (intros x Hx; by apply (ring_bufs _ x Hp)).
  assert (0 ≤ b < NBUF) as Hb by (apply Hin, elem_of_app; right; by apply elem_of_cons; left).
  destruct (ring_next _ _ _ _ _ _ Hr) as [Hq Hpv].
  destruct (ring_unlink _ _ _ _ _ _ Hr) as (Hr' & Hqb & Hpb).
  set (q := nxs s b) in *. set (p := pvs s b) in *.
  assert (∀ o y, (∀ z, o = Some z → z ∈ l1 ++ b :: l2) → y = default HEAD o → 0 ≤ y ≤ NBUF) as Hdef.
  { intros o y Ho ->. destruct o as [z|]; cbn; [|unfold HEAD, NBUF; lia].
    specialize (Hin z (Ho z eq_refl)). lia. }
  destruct (to_front_links s b Hs Hb) as [[Hs' L] Hsame]; fold q p.
  - apply (Hdef _ _) with (2 := Hq). intros z Ez. destruct l2; [done|]. injection Ez as ->.
    rewrite elem_of_app, !elem_of_cons. tauto.
  - apply (Hdef _ _) with (2 := Hpv). intros z [l' ->]%last_Some.
    rewrite !elem_of_app, elem_of_cons. left. right. by left.
  - apply (Hdef _ _) with (2 := proj1 (ring_ends _ _ _ _ Hr')). intros z Ez.
    assert (z ∈ l1 ++ l2) as Hz by (destruct (l1 ++ l2); [done|]; injection Ez as ->; by apply elem_of_cons; left).
    rewrite elem_of_app in Hz. rewrite elem_of_app, elem_of_cons. tauto.
  - done.
  - done.
  - split_and!; [done| |done]. fold q p in L. eapply ring_ext; [|apply ring_push; [exact Hr'|]].
    + intros x Hx. apply L. rewrite !elem_of_cons in Hx. destruct Hx as [->|[->|Hx]].
      * unfold HEAD, NBUF; lia.
      * lia.
      * assert (0 ≤ x < NBUF); [|lia]. apply Hin. rewrite elem_of_app in Hx. rewrite elem_of_app, elem_of_cons. tauto.
    + destruct Hr as [_ Hn]. rewrite elem_of_cons. intros [->|Hx]; [unfold HEAD in Hb; lia|].
      apply list.NoDup_cons in Hn as [_ Hn]. rewrite <-Permutation_middle in Hn.
      by apply list.NoDup_cons in Hn as [? _].
Qed.

Lemma same_bstep s s1 s' b n :
  bstep s s1 b n → sized s' → same_but_links s1 s' →
  (∃ o, ring (nxs s') (pvs s') HEAD o ∧ o ≡ₚ seqZ 0 NBUF) → binv s →
  holds s n b = true → bstep s s' b n.
Proof.
  intros (Hinv1 & Hpid & Hs1 & Hoth) Hs' (Hc & H1 & H2 & H3 & H4) Hring Hinv Hh.
  pose proof (slot_at _ _ _ Hs1) as (Hb & Hd & Hn). pose proof Hinv1 as (Hl1 & _ & _ & Hok1 & Hd1).
  assert (bstep s1 s' b n) as (Hi & _ & Hsl & Ho).
  { apply step_intro; try done.
    - congruence.
    - rewrite (core_holds s1) by (apply Hc; lia). by apply holds_id.
    - intros x Hx _. apply Hc. lia.
    - rewrite H2. eapply core_bok; [apply Hc; lia|]. by apply Hok1.
    - intros n' _. by rewrite H2.
    - left. by apply holds_id. }
  split_and!; [done|congruence|done|]. intros n' Hn'.
  destruct (Ho n' Hn') as (-> & -> & -> & -> & Hm). destruct (Hoth n' Hn') as (? & ? & ? & ? & ?). auto 8.
Qed.

(** [brelse] gives up the lock and the reference; a buffer without references
    becomes the most recently used one. *)
Lemma brelse_run s b n :
  binv s → mine s b n → (b_refcnt (bufat s b) = 1 → b_data (bufat s b) = dget (disk s) n) →
  wp (brelse b)
     (λ _ s', bstep s s' b n ∧ crefs s' n = crefs s n - 1 ∧ cheld s' n = false ∧
        cview s' n = cview s n ∧ disk s' = disk s ∧ wtrace s' = wtrace s ∧
        (crefs s' n = 0 → ∃ o, ring (nxs s') (pvs s') HEAD (b :: o))) s.
Proof.
  intros Hinv Hm Hclean. destruct (mine_held _ _ _ Hinv Hm) as (Hs & Hb & Hlk & Hh).
  destruct Hm as (Hsl & Hv & Hl & Hr). pose proof (slot_at _ _ _ Hsl) as (_ & Hd & Hn).
  pose proof Hinv as (Hl0 & _ & (o & Hring & Hperm) & Hok & _).
  destruct (Hok b Hb) as (K1 & K2 & K3 & K4).
  unfold brelse. wp_run. apply bholdingsleep_run; try done. rewrite Hh. cbn [negb]. wp_run.
  apply breleasesleep_run; try done. unfold set_blk. wp_run. apply wp_acquire; [done|]. wp_run.
  set (f := add_refcnt (-1) ∘ with_lock free_lock).
  assert (upd b (add_refcnt (-1)) (set_bc_locked true (upd b (with_lock (mkSL false false 0)) s))
    = set_bc_locked true (upd b f s)) as ->.
  { unfold f. rewrite <-upd_upd. done. }
  set (s1 := upd b f s).
  assert (bufat s1 b = f (bufat s b)) as Eb by by apply upd_at.
  assert (u32 (b_refcnt (bufat s b) + -1) = b_refcnt (bufat s b) - 1) as Eu by (apply u32_small; lia).
  assert (bok (disk s) (f (bufat s b))) as Hokf.
  { unfold f, bok. cbn -[u32]. rewrite Eu. split_and!; [done|lia|lia| |auto].
    intros Hz. split; [done|]. intros _. rewrite Hn. apply Hclean. lia. }
  assert (holds s n b = true) as Hho by by apply holds_id.
  assert (bstep s s1 b n) as Hst by (apply bstep_upd; try done; by left).
  assert (sized s1) as Hs1 by (unfold sized, s1; by rewrite length_upd).
  assert (ring (nxs s1) (pvs s1) HEAD o) as Hring1.
  { eapply ring_links; [done| |exact Hring]. intros x Hx. by apply upd_links. }
  assert (b_refcnt (bufat (set_bc_locked true s1) b) = b_refcnt (bufat s b) - 1) as ->.
  { change (bufat (set_bc_locked true s1) b) with (bufat s1 b). by rewrite Eb. }
  assert (∀ s', bstep s s' b n → core (bufat s' b) = core (f (bufat s b)) →
    crefs s' n = crefs s n - 1 ∧ cheld s' n = false ∧ cview s' n = cview s n) as Hview.
  { intros s' (_ & _ & Hs' & _) Ec. unfold crefs, cheld, cview. rewrite Hsl, Hs', Hv.
    injection Ec as E1 E2 E3 E4 E5 E6. rewrite E1, E4, E5, E6. cbn -[u32]. by rewrite Hv, Eu. }
  destruct (Z.eqb_spec (b_refcnt (bufat s b) - 1) 0) as [Hz|Hnz].
  - assert (b ∈ o) as Hbo by by apply (ring_bufs o).
    apply list_elem_of_split in Hbo as (l1 & l2 & ->).
    destruct (to_front_ring s1 b l1 l2 Hs1 Hperm Hring1) as (Hs' & Hring' & Hsame).
    set (s' := to_front b s1) in *. wp_run.
    change (wp brelease ?Q _) with (wp brelease Q (set_bc_locked true s')).
    pose proof Hsame as (Hc & H1 & H2 & H3 & H4).
    apply wp_release; [done|]. rewrite unlock_id by by rewrite H1.
    assert (bstep s s' b n) as Hst'.
    { eapply same_bstep; try done. eexists. split; [exact Hring'|]. by rewrite Permutation_middle. }
    destruct (Hview s' Hst') as (V1 & V2 & V3); [rewrite Hc by lia; by rewrite Eb|].
    split_and!; try done. eauto.
  - wp_run. apply wp_release; [done|]. rewrite unlock_id by done.
    destruct (Hview s1 Hst ltac:(by rewrite Eb)) as (V1 & V2 & V3).
    split_and!; try done. intros Hz. rewrite V1 in Hz. unfold crefs in Hz. rewrite Hsl in Hz. done.
Qed.

(** ** Initialisation and room *)

(** With fewer blocks referenced than there are buffers one can be recycled. *)
Lemma room_refs s R :
  binv s → (∀ n, crefs s n ≠ 0 → n ∈ R) → (length R < 30)%nat → room s.
Proof.
  intros (_ & _ & _ & Hok & Hd) HR Hlen.
  destruct (decide (Exists (λ b, b_refcnt (bufat s b) = 0) (seqZ 0 NBUF))) as [He|Hne].
  { apply Exists_exists in He as (b & Hb & Hz). apply list_elem_of_In, elem_of_seqZ in Hb.
    exists b. split; [lia|done]. }
  exfalso. assert (∀ b, 0 ≤ b < NBUF → b_refcnt (bufat s b) ≠ 0) as Hall.
  { intros b Hb Hz. apply Hne, Exists_exists. exists b. split; [|done].
    apply list_elem_of_In, elem_of_seqZ. lia. }
  set (ids := (λ b, b_blockno (bufat s b)) <$> seqZ 0 NBUF).
  assert (NoDup ids) as Hnd.
  { apply NoDup_fmap_2_strong; [|apply NoDup_seqZ]. intros b b' Hb Hb' E.
    apply elem_of_seqZ in Hb, Hb'. apply Hd; [lia|lia| | |done].
    - destruct (Hok b ltac:(lia)) as (_ & _ & _ & H4). apply H4. left. apply Hall. lia.
    - destruct (Hok b' ltac:(lia)) as (_ & _ & _ & H4). apply H4. left. apply Hall. lia. }
  assert (length ids ≤ length R)%nat as Hle.
  { apply submseteq_length, NoDup_submseteq; [done|]. intros n Hn.
    apply list_elem_of_fmap in Hn as (b & -> & Hb). apply elem_of_seqZ in Hb. apply HR.
    destruct (Hok b ltac:(lia)) as (_ & _ & _ & H4).
    unfold crefs. rewrite (slot_Some s _ b Hd); [|lia|]; [apply Hall; lia|].
    apply holds_id. split; [|done]. apply H4. left. apply Hall. lia. }
  unfold ids in Hle. rewrite length_fmap, length_seqZ in Hle. unfold NBUF in *. lia.
Qed.

(** No process uses the cache. *)
Definition idle (s : bst) : Prop := binv s ∧ ∀ n, crefs s n = 0 ∧ cheld s n = false.

End cache.

(** [binit] makes an idle cache of the zero-initialised array; the contents
    [z] of the buffers do not matter. *)
Definition bss_buf (z : block) : buf := mkBuf false 0 0 free_lock 0 0 0 z.

Lemma binit_ring z d w pid l :
  ∃ s, binit (mkB l (replicate 31 (bss_buf z)) d w pid) = OK tt s ∧
    bc_locked s = false ∧ sized s ∧ disk s = d ∧ wtrace s = w ∧ curpid s = pid ∧
    ring (nxs s) (pvs s) HEAD (reverse (seqZ 0 NBUF)) ∧
    Forall (λ b, core (bufat s b) = core (bss_buf z)) (seqZ 0 NBUF).
Proof.
  eexists. split; [vm_compute; reflexivity|]. split_and!; [done..| |].
  - split; [vm_compute; repeat split|]. apply (bool_decide_unpack _). vm_compute. exact I.
  - vm_compute. repeat constructor.
Qed.

Lemma binit_run dev z d w pid l :
  dev ≠ 0 →
  wp binit (λ _ s, idle dev s ∧ disk s = d ∧ wtrace s = w ∧ curpid s = pid ∧
                   ∀ n, cview dev s n = dget d n)
     (mkB l (replicate 31 (bss_buf z)) d w pid).
Proof.
  intros Hdev. destruct (binit_ring z d w pid l) as (s & E & Hl & Hs & Hd & Hw & Hp & Hr & Hc).
  eapply wp_intro; [exact E|].
  assert (∀ b, 0 ≤ b < NBUF → core (bufat s b) = core (bss_buf z)) as Hcore.
  { intros b Hb. rewrite Forall_forall in Hc. apply Hc, list_elem_of_In, elem_of_seqZ. lia. }
  assert (∀ n, slot dev s n = None) as Hslot.
  { intros n. apply slot_None. intros b Hb. specialize (Hcore b Hb).
    injection Hcore as E1 E2 E3 E4 E5 E6. unfold holds. rewrite E2.
    by rewrite (proj2 (Z.eqb_neq 0 dev)). }
  split_and!; try done; [split|].
  - split_and!; try done.
    + eexists. split; [exact Hr|]. apply reverse_Permutation.
    + intros b Hb. eapply core_bok; [by apply Hcore|]. unfold bok. cbn. split_and!; try done. naive_solver.
    + intros b b' Hb Hb' Hdb. exfalso. specialize (Hcore b Hb). injection Hcore as E1 E2 E3 E4 E5 E6.
      congruence.
  - intros n. unfold crefs, cheld. by rewrite Hslot.
  - intros n. unfold cview. by rewrite Hslot, Hd.
Qed.

(** ** The cache refines a disk *)

(** A client that reads blocks, and writes blocks through. *)
Inductive bop := BRead (n : Z) | BWrite (n : Z) (v : block).

Definition run_bop (dev : Z) (o : bop) : M bst block :=
  match o with
  | BRead n =>
      b <- bread dev n ;; d <- gets (λ s, b_data (bufat s b)) ;; brelse b ;; ret d
  | BWrite n v =>
      b <- bread dev n ;; modify (upd b (λ bf, with_data v bf)) ;;
      bwrite b ;; brelse b ;; ret v
  end.
Fixpoint run_bops (dev : Z) (ops : list bop) : M bst (list block) :=
  match ops with
  | [] => ret []
  | o :: ops' => r <- run_bop dev o ;; rs <- run_bops dev ops' ;; ret (r :: rs)
  end.

Definition spec_bop (d : disk_t) (o : bop) : block * disk_t :=
  match o with BRead n => (dget d n, d) | BWrite n v => (v, <[n := v]> d) end.
Fixpoint spec_bops (d : disk_t) (ops : list bop) : list block * disk_t :=
  match ops with
  | [] => ([], d)
  | o :: ops' => let '(r, d1) := spec_bop d o in
                 let '(rs, d2) := spec_bops d1 ops' in (r :: rs, d2)
  end.

(** A cache that nobody uses and that holds nothing the disk does not hold. *)
Definition clean (dev : Z) (s : bst) : Prop :=
  idle dev s ∧ ∀ n, cview dev s n = dget (disk s) n.

Lemma idle_clean dev s : idle dev s → clean dev s.
Proof.
  intros Hi. split; [done|]. destruct Hi as [(_ & _ & _ & Hok & _) Hr]. intros n.
  destruct (Hr n) as [Hn _]. unfold cview, crefs in *.
  destruct (slot dev s n) as [b|] eqn:Es; [|done].
  apply slot_at in Es as (Hb & Hd & Hno). destruct (Hok b Hb) as (_ & _ & H3 & _).
  destruct (b_valid (bufat s b)) eqn:Ev; [|done]. destruct (H3 Hn) as [_ H4].
  rewrite H4, Hno; done.
Qed.

Section client.
Context (dev : Z).

Lemma bstep_trans s s1 s2 b b' n :
  bstep dev s s1 b n → bstep dev s1 s2 b' n → bstep dev s s2 b' n.
Proof.
  intros (_ & Hp1 & _ & Ho1) (Hi & Hp2 & Hs & Ho2). split_and!; [done|congruence|done|].
  intros n' Hn. destruct (Ho2 n' Hn) as (-> & -> & -> & -> & ?). destruct (Ho1 n' Hn) as (? & ? & ? & ? & ?). auto 8.
Qed.

Lemma mine_view s b n : mine dev s b n → cview dev s n = b_data (bufat s b) ∧
  crefs dev s n = b_refcnt (bufat s b) ∧ cheld dev s n = true.
Proof.
  intros (Hs & Hv & Hl & _). unfold cview, crefs, cheld. by rewrite Hs, Hv, Hl.
Qed.

Lemma idle_room s : idle dev s → room s.
Proof.
  intros [Hi Hr]. apply (room_refs dev s []); [done| |cbn; lia].
  intros n Hn. destruct (Hr n). done.
Qed.

Lemma idle_back s s' b n :
  idle dev s → bstep dev s s' b n → crefs dev s' n = 0 → cheld dev s' n = false → idle dev s'.
Proof.
  intros [_ Hr] (Hi & _ & _ & Ho) H0 Hh. split; [done|]. intros n'.
  destruct (decide (n' = n)) as [->|Hne]; [done|].
  destruct (Ho n' Hne) as (_ & -> & -> & _). apply Hr.
Qed.

Lemma run_bop_run o s :
  idle dev s →
  wp (run_bop dev o) (λ r s', idle dev s' ∧ (r, disk s') = spec_bop (disk s) o) s.
Proof.
  intros Hid. pose proof (idle_room s Hid) as Hroom. pose proof (idle_clean dev s Hid) as [_ Hcl].
  pose proof Hid as [Hinv Hr].
  assert (∀ n, wp (bread dev n) (λ b s1, bstep dev s s1 b n ∧ mine dev s1 b n ∧
    b_data (bufat s1 b) = dget (disk s) n ∧ b_refcnt (bufat s1 b) = 1 ∧ disk s1 = disk s) s) as Hread.
  { intros n. destruct (Hr n) as [Hn Hh]. eapply wp_mono; [apply (bread_run dev); try done; lia|].
    intros b s1 (Hst & Hm & Hd & Hn1 & Hdk & _). split_and!; try done; [by rewrite Hd|].
    destruct (mine_view _ _ _ Hm) as (_ & <- & _). lia. }
  destruct o as [n|n v]; cbn [run_bop spec_bop]; destruct (Hr n) as [Hn Hh].
  - wp_run. eapply wp_mono; [apply Hread|]. intros b s1 (Hst & Hm & Hd & H1 & Hdk).
    destruct (mine_view _ _ _ Hm) as (_ & Hrf & _).
    wp_run. eapply wp_mono; [eapply (brelse_run dev); [apply Hst|done|by rewrite Hdk]|].
    intros [] s2 (Hst2 & Hr2 & Hh2 & _ & Hdk2 & _). wp_run.
    split; [|by rewrite Hd, Hdk2, Hdk]. eapply idle_back; [done|by eapply bstep_trans|lia|done].
  - wp_run. eapply wp_mono; [apply Hread|]. intros b s1 (Hst & Hm & Hd & H1 & Hdk).
    destruct (mine_view _ _ _ Hm) as (_ & Hrf & _). pose proof Hst as (Hinv1 & _).
    pose proof (modify_data dev s1 b n (λ _, v) Hinv1 Hm) as H2. cbv beta zeta in H2.
    destruct H2 as (Hst2 & Hm2 & Hd2 & Hr2 & Hdk2 & _).
    wp_run. set (s2 := upd b _ s1) in *. pose proof Hst2 as (Hinv2 & _).
    eapply wp_mono; [by apply (bwrite_run dev)|].
    intros [] s3 (Hst3 & Hm3 & Hb3 & Hdk3 & _).
    destruct (mine_view _ _ _ Hm2) as (_ & Hrf2 & _).
    assert (∀ x, bufat s3 x = bufat s2 x) as Eb by (intros x; unfold bufat; by rewrite Hb3).
    wp_run. eapply wp_mono; [eapply (brelse_run dev); [apply Hst3|done|]|].
    { intros _. by rewrite Eb, Hdk3, dget_insert, Z.eqb_refl. }
    intros [] s4 (Hst4 & Hr4 & Hh4 & _ & Hdk4 & _). wp_run.
    assert (crefs dev s3 n = 1) as Hr3.
    { destruct (mine_view _ _ _ Hm3) as (_ & -> & _). rewrite Eb. lia. }
    split; [|by rewrite Hdk4, Hdk3, Hdk2, Hdk, Hd2].
    apply (idle_back s s4 b n); [done| |lia|done]. by do 3 (eapply bstep_trans; [done|]).
Qed.

Lemma run_bops_run ops s :
  idle dev s →
  wp (run_bops dev ops) (λ rs s', idle dev s' ∧ (rs, disk s') = spec_bops (disk s) ops) s.
Proof.
  revert s. induction ops as [|o ops IH]; intros s Hid; cbn [run_bops spec_bops]; [by wp_run|].
  wp_run. eapply wp_mono; [by apply run_bop_run|]. intros r s1 [Hid1 E1].
  wp_run. eapply wp_mono; [by apply IH|]. intros rs s2 [Hid2 E2]. wp_run.
  rewrite <-E1, <-E2. done.
Qed.

End client.

(** C17. The buffer cache is transparent: starting from [binit], any
    sequence of reads and write-throughs of blocks returns (no deadlock on a
    buffer, no "no buffers"), every read returns the block most recently
    written or what the disk held, and the disk ends up with exactly the
    blocks written; no buffer stays locked or referenced. *)
Theorem bcache_refines_disk dev z d w pid l ops :
  dev ≠ 0 →
  ∃ s1 s2, binit (mkB l (replicate 31 (bss_buf z)) d w pid) = OK tt s1 ∧
    run_bops dev ops s1 = OK (spec_bops d ops).1 s2 ∧
    disk s2 = (spec_bops d ops).2 ∧ idle dev s2.
Proof.
  intros Hdev.
  destruct (wp_run_OK _ _ _ (binit_run dev z d w pid l Hdev)) as ([] & s1 & E1 & Hid & Hd & _).
  exists s1.
  destruct (wp_run_OK _ _ _ (run_bops_run dev ops s1 Hid)) as (rs & s2 & E2 & Hid2 & E).
  exists s2. rewrite Hd in E. apply (f_equal fst) in E as Er. apply (f_equal snd) in E as Ed.
  cbn [fst snd] in Er, Ed. rewrite <-Er. split; [exact E1|]. split; [exact E2|].
  split; [exact Ed|exact Hid2].
Qed.

Lemma bcache_refines_disk_witness :
  let ops := [BWrite 40 [1]; BRead 41; BRead 40] in
  ∃ s1 s2, binit (mkB true (replicate 31 (bss_buf [])) ∅ [] 7) = OK tt s1 ∧
    run_bops 1 ops s1 = OK (spec_bops ∅ ops).1 s2 ∧
    (spec_bops ∅ ops).1 = [[1]; zero_block; [1]].
Proof.
  intros ops.
  destruct (bcache_refines_disk 1 [] ∅ [] 7 true ops) as (s1 & s2 & E1 & E2 & _); [discriminate|].
  exists s1, s2. split; [exact E1|]. split; [exact E2|]. vm_compute. reflexivity.
Defined.
