(* ===== verification/Cache.v ===== *)
(** * The buffer cache as the log and the file system use it

    [cst dev s V R H] describes a cache between two operations of one
    process: [V n] is the current contents of block [n], [R] is the set of
    blocks the log has pinned, and [H] maps the blocks whose buffer the process
    holds to that buffer.  Each operation of [Bio] becomes one rule on [V],
    [R] and [H]. *)

From stdpp Require Import base gmap list strings numbers.
From S2P Require Import Prelude Block SleepLock Bio BioSpec.

(** The number of references the log ([R]) and the process ([H]) have. *)
Definition nrefs (R : gset Z) (H : gmap Z Z) (n : Z) : Z :=
  Z.b2z (bool_decide (n ∈ R)) + Z.b2z (bool_decide (is_Some (H !! n))).

Definition cst (dev : Z) (s : bst) (V : Z → block) (R : gset Z) (H : gmap Z Z) : Prop :=
  binv dev s ∧ (∀ n, cview dev s n = V n) ∧ (∀ n, crefs dev s n = nrefs R H n) ∧
  (∀ n, cheld dev s n = bool_decide (is_Some (H !! n))) ∧
  (∀ n b, H !! n = Some b → mine dev s b n).

Lemma held_Some (b : Z) : bool_decide (is_Some (Some b)) = true.
Proof. done. Qed.
Lemma held_None : bool_decide (is_Some (@None Z)) = false.
Proof. done. Qed.

Definition vset (V : Z → block) (n : Z) (v : block) : Z → block :=
  λ n', if n' =? n then v else V n'.

Lemma vset_same V n v : vset V n v n = v.
Proof. unfold vset. by rewrite Z.eqb_refl. Qed.
Lemma vset_other V n v n' : n' ≠ n → vset V n v n' = V n'.
Proof. intros. unfold vset. by rewrite (proj2 (Z.eqb_neq n' n)). Qed.

Lemma vset_vset V n v v' n' : vset (vset V n v) n v' n' = vset V n v' n'.
Proof. unfold vset. by destruct (n' =? n). Qed.

Section rules.
Context (dev : Z).
Implicit Types (s : bst) (V : Z → block) (R : gset Z) (H : gmap Z Z).

Lemma cst_ext s V V' R H : (∀ n, V n = V' n) → cst dev s V R H → cst dev s V' R H.
Proof. intros E (? & Hv & ?). split_and!; try tauto. intros n. by rewrite Hv, E. Qed.

Lemma idle_cst s : idle dev s ↔ cst dev s (dget (disk s)) ∅ ∅.
Proof.
  assert (∀ n, nrefs ∅ ∅ n = 0 ∧ bool_decide (is_Some ((∅ : gmap Z Z) !! n)) = false) as E.
  { intros n. unfold nrefs. rewrite lookup_empty, !bool_decide_false; [done| |set_solver]; by intros [? ?]. }
  split.
  - intros Hid. pose proof (idle_clean dev s Hid) as [_ Hv]. destruct Hid as [Hi Hr].
    split_and!; [done|done| | |by intros ?].
    + intros n. destruct (E n) as [-> _]. apply Hr.
    + intros n. destruct (E n) as [_ ->]. apply Hr.
  - intros (Hi & _ & Hr & Hh & _). split; [done|]. intros n. rewrite Hr, Hh. apply E.
Qed.

Lemma cst_data s V R H n b :
  cst dev s V R H → H !! n = Some b → b_data (bufat s b) = V n.
Proof.
  intros (_ & Hv & _ & _ & Hm) Hb. rewrite <-Hv.
  symmetry. apply (mine_view dev s b n), Hm, Hb.
Qed.

(** A block that is neither pinned nor held is as on disk. *)
Lemma cst_clean s V R H n :
  cst dev s V R H → n ∉ R → H !! n = None → V n = dget (disk s) n.
Proof.
  intros ((_ & _ & _ & Hok & _) & Hv & Hr & Hh & _) HR HH. rewrite <-Hv.
  specialize (Hr n). unfold nrefs in Hr. rewrite HH, !bool_decide_false in Hr;
    [|by intros [? ?]|done]. cbn in Hr.
  unfold cview, crefs in *. destruct (slot dev s n) as [b|] eqn:Es; [|done].
  apply slot_at in Es as (Hb & Hd & Hno). destruct (Hok b Hb) as (_ & _ & H3 & _).
  destruct (b_valid (bufat s b)) eqn:Ev; [|done]. destruct (H3 Hr) as [_ H4].
  by rewrite H4, Hno.
Qed.

(** A buffer is free to be recycled while fewer than NBUF blocks are in use. *)
Lemma cst_room s V R H :
  cst dev s V R H → (size R + size H < 30)%nat → room s.
Proof.
  intros (Hi & _ & Hr & _) Hs. apply (room_refs dev s (elements (R ∪ dom H))); [done| |].
  - intros n Hn. apply elem_of_elements. rewrite Hr in Hn. unfold nrefs in Hn.
    apply elem_of_union. destruct (decide (n ∈ R)); [by left|]. right. apply elem_of_dom.
    rewrite (bool_decide_false (n ∈ R)) in Hn by done.
    destruct (H !! n) eqn:E; [by eexists|]. rewrite bool_decide_false in Hn; [done|by intros [? ?]].
  - change (length (elements (R ∪ dom H))) with (size (R ∪ dom H)).
    rewrite <-size_dom in Hs. pose proof (size_union_alt R (dom H)).
    assert (size (dom H ∖ R) ≤ size (dom H))%nat by (apply subseteq_size; set_solver). lia.
Qed.

Lemma cst_step s s' V V' R R' H H' b n :
  cst dev s V R H → bstep dev s s' b n →
  cview dev s' n = V' n → crefs dev s' n = nrefs R' H' n →
  cheld dev s' n = bool_decide (is_Some (H' !! n)) →
  (∀ x, H' !! n = Some x → mine dev s' x n) →
  (∀ n', n' ≠ n → V' n' = V n' ∧ (n' ∈ R' ↔ n' ∈ R) ∧ H' !! n' = H !! n') →
  cst dev s' V' R' H'.
Proof.
  intros (Hi & Hv & Hr & Hh & Hm) (Hi' & Hp & Hs & Ho) E1 E2 E3 E4 Hoth.
  assert (∀ n', n' ≠ n → nrefs R' H' n' = nrefs R H n') as En.
  { intros n' Hn. destruct (Hoth n' Hn) as (_ & HR & HH). unfold nrefs. rewrite HH.
    f_equal. f_equal. by apply bool_decide_ext. }
  split_and!; [done|..]; intros n'; destruct (decide (n' = n)) as [->|Hn]; try done.
  - destruct (Ho n' Hn) as (-> & _). destruct (Hoth n' Hn) as (-> & _). apply Hv.
  - destruct (Ho n' Hn) as (_ & -> & _). rewrite En by done. apply Hr.
  - destruct (Ho n' Hn) as (_ & _ & -> & _). destruct (Hoth n' Hn) as (_ & _ & ->). apply Hh.
  - intros x. destruct (Hoth n' Hn) as (_ & _ & ->). intros Hx.
    destruct (Ho n' Hn) as (_ & _ & _ & _ & Hk). apply Hk, Hm, Hx.
Qed.

Lemma nrefs_bound R H n : 0 ≤ nrefs R H n ≤ 2.
Proof. unfold nrefs. repeat case_bool_decide; cbn; lia. Qed.

Lemma cst_bread s V R H n :
  cst dev s V R H → H !! n = None → n ∈ R ∨ (size R + size H < 30)%nat →
  wp (bread dev n)
     (λ b s', cst dev s' V R (<[n := b]> H) ∧ disk s' = disk s ∧ wtrace s' = wtrace s) s.
Proof.
  intros Hc HH Hsz. pose proof Hc as (Hi & Hv & Hr & Hh & Hm).
  pose proof (nrefs_bound R H n) as Hb.
  eapply wp_mono; [apply (bread_run dev s n); [done| |rewrite Hr; lia|]|].
  { by rewrite Hh, HH. }
  { intros Hs. destruct Hsz as [HR|Hsz]; [|by eapply cst_room]. exfalso.
    specialize (Hr n). unfold crefs, nrefs in Hr. rewrite Hs, HH, bool_decide_true in Hr by done. done. }
  intros b s' (Hst & Hmine & Hd & Hrf & Hdk & Hw). split_and!; [|done|done].
  destruct (mine_view dev s' b n Hmine) as (Hv1 & Hv2 & Hv3).
  eapply cst_step; [exact Hc|exact Hst|congruence| | | |].
  - rewrite Hrf, Hr. unfold nrefs. rewrite lookup_insert_eq, HH.
    rewrite held_Some, held_None. cbn. lia.
  - rewrite Hv3, lookup_insert_eq. symmetry. apply held_Some.
  - intros x. rewrite lookup_insert_eq. by intros [= <-].
  - intros n' Hn'. by rewrite lookup_insert_ne.
Qed.

(** The common part of the rules for a buffer the process holds. *)
Lemma cst_held s s' V v R R' H b n :
  cst dev s V R H → H !! n = Some b → bstep dev s s' b n → mine dev s' b n →
  b_data (bufat s' b) = v → crefs dev s' n = nrefs R' H n →
  (∀ n', n' ≠ n → n' ∈ R' ↔ n' ∈ R) → cst dev s' (vset V n v) R' H.
Proof.
  intros Hc Hb Hst Hm Hd Hr HR. destruct (mine_view dev s' b n Hm) as (Hv1 & Hv2 & Hv3).
  eapply cst_step; [exact Hc|exact Hst| |exact Hr| | |].
  - by rewrite vset_same, Hv1.
  - by rewrite Hv3, Hb, held_Some.
  - intros x. rewrite Hb. by intros [= <-].
  - intros n' Hn'. rewrite vset_other by done. auto.
Qed.

Lemma cst_modify s V R H n b f :
  cst dev s V R H → H !! n = Some b →
  let s' := upd b (λ bf, with_data (f (b_data bf)) bf) s in
  cst dev s' (vset V n (f (V n))) R H ∧ disk s' = disk s ∧ wtrace s' = wtrace s.
Proof.
  intros Hc Hb s'. pose proof Hc as (Hi & Hv & Hr & Hh & Hm). specialize (Hm n b Hb).
  pose proof (modify_data dev s b n f Hi Hm) as H2. cbv zeta in H2. fold s' in H2.
  destruct H2 as (H1 & H2 & H3 & H4 & H5 & H6). split_and!; [|done|done].
  eapply cst_held; try done; [|by rewrite H4].
  rewrite H3. by rewrite (cst_data s V R H n b).
Qed.

Lemma vset_id V n n' : vset V n (V n) n' = V n'.
Proof. unfold vset. destruct (Z.eqb_spec n' n); congruence. Qed.

Lemma cst_bwrite s V R H n b :
  cst dev s V R H → H !! n = Some b →
  wp (bwrite b)
     (λ _ s', cst dev s' V R H ∧ disk s' = <[n := V n]> (disk s) ∧
              wtrace s' = wtrace s ++ [(n, V n)]) s.
Proof.
  intros Hc Hb. pose proof Hc as (Hi & Hv & Hr & Hh & Hm). specialize (Hm n b Hb).
  pose proof (cst_data s V R H n b Hc Hb) as Hd.
  eapply wp_mono; [by apply (bwrite_run dev s b n)|]. rewrite Hd.
  intros [] s' (H1 & H2 & H3 & H4 & H5). split_and!; [|done|done].
  apply (cst_ext s' (vset V n (V n))); [intros n'; apply vset_id|].
  assert (bufat s' b = bufat s b) as Eb by (unfold bufat; by rewrite H3).
  eapply cst_held; try done; [by rewrite Eb|].
  destruct (mine_view dev s' b n H2) as (_ & -> & _). rewrite Eb.
  destruct (mine_view dev s b n Hm) as (_ & <- & _). apply Hr.
Qed.

Lemma cst_brelse s V R H n b :
  cst dev s V R H → H !! n = Some b → (n ∉ R → V n = dget (disk s) n) →
  wp (brelse b)
     (λ _ s', cst dev s' V R (delete n H) ∧ disk s' = disk s ∧ wtrace s' = wtrace s) s.
Proof.
  intros Hc Hb Hcl. pose proof Hc as (Hi & Hv & Hr & Hh & Hm). specialize (Hm n b Hb).
  pose proof (cst_data s V R H n b Hc Hb) as Hd.
  destruct (mine_view dev s b n Hm) as (_ & Hrf & _).
  assert (crefs dev s n = Z.b2z (bool_decide (n ∈ R)) + 1) as En.
  { rewrite Hr. unfold nrefs. by rewrite Hb, held_Some. }
  eapply wp_mono; [apply (brelse_run dev s b n); [done|done|]|].
  { intros H1. rewrite Hd. apply Hcl. intros HR. rewrite bool_decide_true in En by done. cbn in En. lia. }
  intros [] s' (H1 & H2 & H3 & H4 & H5 & H6 & _). split_and!; [|done|done].
  assert (bool_decide (is_Some (delete n H !! n)) = false) as Ef.
  { by rewrite lookup_delete_eq. }
  eapply cst_step; [exact Hc|exact H1| | | | |].
  - by rewrite H4.
  - rewrite H2, En. unfold nrefs. rewrite Ef. cbn. lia.
  - by rewrite H3, Ef.
  - intros x. by rewrite lookup_delete_eq.
  - intros n' Hn'. by rewrite lookup_delete_ne.
Qed.

Lemma cst_refcnt s V R R' H n b k :
  cst dev s V R H → H !! n = Some b →
  nrefs R' H n = nrefs R H n + k → (∀ n', n' ≠ n → n' ∈ R' ↔ n' ∈ R) →
  wp (bacquire ;; modify (upd b (add_refcnt k)) ;; brelease)
     (λ _ s', cst dev s' V R' H ∧ disk s' = disk s ∧ wtrace s' = wtrace s) s.
Proof.
  intros Hc Hb Hk HR. pose proof Hc as (Hi & Hv & Hr & Hh & Hm). specialize (Hm n b Hb).
  destruct (mine_view dev s b n Hm) as (_ & Hrf & _). rewrite Hr in Hrf.
  assert (0 < nrefs R' H n ≤ 2) as Hpos.
  { unfold nrefs. rewrite Hb, held_Some.
    case_bool_decide; cbn; lia. }
  eapply wp_mono; [apply (refcnt_run dev s b n k); [done|done|rewrite <-Hrf; lia]|].
  intros [] s' (H1 & H2 & H3 & H4 & H5 & H6). split_and!; [|done|done].
  apply (cst_ext s' (vset V n (V n))); [intros n'; apply vset_id|].
  eapply cst_held; try done; [|rewrite H4, Hr; lia].
  rewrite H3. by apply (cst_data s V R H).
Qed.

Lemma cst_bpin s V R H n b :
  cst dev s V R H → H !! n = Some b → n ∉ R →
  wp (bpin b)
     (λ _ s', cst dev s' V ({[n]} ∪ R) H ∧ disk s' = disk s ∧ wtrace s' = wtrace s) s.
Proof.
  intros Hc Hb Hn. apply (cst_refcnt s V R _ H n b 1); [done|done| |set_solver].
  unfold nrefs. rewrite (bool_decide_true (n ∈ _)), (bool_decide_false (n ∈ R)) by set_solver.
  cbn. lia.
Qed.

Lemma cst_bunpin s V R H n b :
  cst dev s V R H → H !! n = Some b → n ∈ R →
  wp (bunpin b)
     (λ _ s', cst dev s' V (R ∖ {[n]}) H ∧ disk s' = disk s ∧ wtrace s' = wtrace s) s.
Proof.
  intros Hc Hb Hn. apply (cst_refcnt s V R _ H n b (-1)); [done|done| |set_solver].
  unfold nrefs. rewrite (bool_decide_true (n ∈ R)), (bool_decide_false (n ∈ _ ∖ _)) by set_solver.
  cbn. lia.
Qed.

End rules.
