(* ===== verification/Log.v ===== *)
(** * The write-ahead log: kernel/log.c

    [logst] is [struct log] together with the buffer cache it is built on.
    An on-disk header and the in-memory one are arrays of [int]; the header
    block is read and written field by field. *)

From stdpp Require Import base gmap list strings numbers.
From S2P Require Import Prelude Block SleepLock Bio.

Definition MAXOPBLOCKS : Z := 10.
Definition LOGSIZE : Z := MAXOPBLOCKS * 3.

(** The fields of the on-disk super block. *)
Record superblock := mkSB {
  sb_magic : Z;
  sb_size : Z;
  sb_nblocks : Z;
  sb_ninodes : Z;
  sb_nlog : Z;
  sb_logstart : Z;
  sb_inodestart : Z;
  sb_bmapstart : Z;
}.

Record logst := mkLog {
  lg_locked : bool;      (* log.lock *)
  lg_start : Z;
  lg_size : Z;
  lg_outstanding : Z;    (* how many FS sys calls are executing *)
  lg_committing : bool;  (* in commit(), please wait *)
  lg_dev : Z;
  lh_n : Z;              (* log.lh.n *)
  lh_block : list Z;     (* log.lh.block[LOGSIZE] *)
  bcache : bst;
}.
Definition set_lg_locked (b : bool) (s : logst) : logst :=
  mkLog b (lg_start s) (lg_size s) (lg_outstanding s) (lg_committing s) (lg_dev s)
    (lh_n s) (lh_block s) (bcache s).
Definition set_geometry (start size dev : Z) (s : logst) : logst :=
  mkLog (lg_locked s) start size (lg_outstanding s) (lg_committing s) dev
    (lh_n s) (lh_block s) (bcache s).
Definition set_outstanding (k : Z) (s : logst) : logst :=
  mkLog (lg_locked s) (lg_start s) (lg_size s) k (lg_committing s) (lg_dev s)
    (lh_n s) (lh_block s) (bcache s).
Definition set_committing (b : bool) (s : logst) : logst :=
  mkLog (lg_locked s) (lg_start s) (lg_size s) (lg_outstanding s) b (lg_dev s)
    (lh_n s) (lh_block s) (bcache s).
Definition set_lh_n (n : Z) (s : logst) : logst :=
  mkLog (lg_locked s) (lg_start s) (lg_size s) (lg_outstanding s) (lg_committing s) (lg_dev s)
    n (lh_block s) (bcache s).
Definition set_lh_block (l : list Z) (s : logst) : logst :=
  mkLog (lg_locked s) (lg_start s) (lg_size s) (lg_outstanding s) (lg_committing s) (lg_dev s)
    (lh_n s) l (bcache s).
Definition set_bcache (b : bst) (s : logst) : logst :=
  mkLog (lg_locked s) (lg_start s) (lg_size s) (lg_outstanding s) (lg_committing s) (lg_dev s)
    (lh_n s) (lh_block s) b.

(** Calls of the buffer cache, and the data of a buffer. *)
Definition inb {A} (m : M bst A) : M logst A := zoom bcache set_bcache m.
Definition bdata (b : Z) : M logst block := gets (λ s, b_data (bufat (bcache s) b)).
Definition set_bdata (b : Z) (f : block → block) : M logst unit :=
  inb (modify (upd b (λ bf, with_data (f (b_data bf)) bf))).

Definition lacquire := acquire lg_locked set_lg_locked.
Definition lrelease := release lg_locked set_lg_locked.
(** The channel of [sleep(&log, ...)]. *)
Definition LOGCHAN : Z := -1.

(** [log.lh.block[i]]. *)
Definition get_lh (i : Z) : M logst Z :=
  if (0 <=? i) && (i <? LOGSIZE) then gets (λ s, default 0 (lh_block s !! Z.to_nat i))
  else undefined.
Definition put_lh (i v : Z) : M logst unit :=
  if (0 <=? i) && (i <? LOGSIZE)
  then modify (λ s, set_lh_block (<[Z.to_nat i := v]> (lh_block s)) s)
  else undefined.

(** [lh->n] and [lh->block[i]] of a [struct logheader] in a block. *)
Definition HDR_N : Z := 0.
Definition HDR_BLOCK (i : Z) : Z := 4 + 4 * i.

(** Copy committed blocks from log to their home location. *)
Definition install_trans_turn (recovering : bool) (tail : Z) : M logst unit :=
  dev <- gets lg_dev ;;
  start <- gets lg_start ;;
  lbuf <- inb (bread dev (u32 (start + tail + 1))) ;;  (* read log block *)
  home <- get_lh tail ;;
  dbuf <- inb (bread dev (u32 home)) ;;                (* read dst *)
  d <- bdata lbuf ;;
  set_bdata dbuf (λ _, d) ;;                           (* copy block to dst *)
  inb (bwrite dbuf) ;;                                 (* write dst to disk *)
  (if recovering then ret tt else inb (bunpin dbuf)) ;;
  inb (brelse lbuf) ;;
  inb (brelse dbuf).
Definition install_trans (recovering : bool) : M logst unit :=
  n <- gets lh_n ;;
  for_loop (Z.to_nat n) 0 (install_trans_turn recovering).

(** Read the log header from disk into the in-memory log header. *)
Definition read_head : M logst unit :=
  dev <- gets lg_dev ;;
  start <- gets lg_start ;;
  b <- inb (bread dev (u32 start)) ;;
  d <- bdata b ;;
  modify (set_lh_n (i32 (rd32 HDR_N d))) ;;
  n <- gets lh_n ;;
  for_loop (Z.to_nat n) 0 (λ i, d <- bdata b ;; put_lh i (i32 (rd32 (HDR_BLOCK i) d))) ;;
  inb (brelse b).

(** Write in-memory log header to disk: the true point at which the current
    transaction commits. *)
Definition write_head : M logst unit :=
  dev <- gets lg_dev ;;
  start <- gets lg_start ;;
  b <- inb (bread dev (u32 start)) ;;
  n <- gets lh_n ;;
  set_bdata b (wr32 HDR_N n) ;;
  for_loop (Z.to_nat n) 0 (λ i, v <- get_lh i ;; set_bdata b (wr32 (HDR_BLOCK i) v)) ;;
  inb (bwrite b) ;;
  inb (brelse b).

Definition recover_from_log : M logst unit :=
  read_head ;;
  install_trans true ;;
  modify (set_lh_n 0) ;;
  write_head.

(** The size of [struct logheader] is 4 + 4 * LOGSIZE. *)
Definition initlog (dev : Z) (sb : superblock) : M logst unit :=
  if BSIZE <=? 4 + 4 * LOGSIZE then panic "initlog: too big logheader"
  else
    modify (set_lg_locked false) ;;
    modify (set_geometry (i32 (sb_logstart sb)) (i32 (sb_nlog sb)) dev) ;;
    recover_from_log.

(** A sleeping process looks at the log again when it is woken up. *)
Definition begin_op : M logst unit :=
  lacquire ;;
  s <- get ;;
  if lg_committing s then lrelease ;; sleep_on LOGCHAN
  else if LOGSIZE <? lh_n s + (lg_outstanding s + 1) * MAXOPBLOCKS then
    (* this op might exhaust log space; wait for commit. *)
    lrelease ;; sleep_on LOGCHAN
  else
    modify (set_outstanding (lg_outstanding s + 1)) ;;
    lrelease.

(** Copy modified blocks from cache to log. *)
Definition write_log_turn (tail : Z) : M logst unit :=
  dev <- gets lg_dev ;;
  start <- gets lg_start ;;
  to <- inb (bread dev (u32 (start + tail + 1))) ;;    (* log block *)
  home <- get_lh tail ;;
  from <- inb (bread dev (u32 home)) ;;                (* cache block *)
  d <- bdata from ;;
  set_bdata to (λ _, d) ;;
  inb (bwrite to) ;;                                   (* write the log *)
  inb (brelse from) ;;
  inb (brelse to).
Definition write_log : M logst unit :=
  n <- gets lh_n ;;
  for_loop (Z.to_nat n) 0 write_log_turn.

Definition commit : M logst unit :=
  n <- gets lh_n ;;
  if 0 <? n then
    write_log ;;
    write_head ;;
    install_trans false ;;
    modify (set_lh_n 0) ;;
    write_head
  else ret tt.

Definition end_op : M logst unit :=
  lacquire ;;
  modify (λ s, set_outstanding (lg_outstanding s - 1) s) ;;
  s <- get ;;
  if lg_committing s then panic "log.committing"
  else
    do_commit <- (if lg_outstanding s =? 0 then modify (set_committing true) ;; ret true
                  else wakes LOGCHAN ;; ret false) ;;
    lrelease ;;
    if do_commit then
      commit ;;
      lacquire ;;
      modify (set_committing false) ;;
      wakes LOGCHAN ;;
      lrelease
    else ret tt.

(** The loop of [log_write]: the index of the block in the log, or [log.lh.n]. *)
Definition log_index (blockno : Z) : M logst Z :=
  n <- gets lh_n ;;
  loop (S (Z.to_nat n))
    (λ i, if i <? n then
            v <- get_lh i ;;
            (* log absorption *)
            if u32 v =? blockno then ret (inr i) else ret (inl (i + 1))
          else ret (inr i))
    0.

Definition log_write (b : Z) : M logst unit :=
  lacquire ;;
  s <- get ;;
  if (LOGSIZE <=? lh_n s) || (lg_size s - 1 <=? lh_n s) then panic "too big a transaction"
  else if lg_outstanding s <? 1 then panic "log_write outside of trans"
  else
    blockno <- gets (λ s, b_blockno (bufat (bcache s) b)) ;;
    i <- log_index blockno ;;
    put_lh i (i32 blockno) ;;
    n <- gets lh_n ;;
    (if i =? n then inb (bpin b) ;; modify (set_lh_n (n + 1)) else ret tt) ;;
    lrelease.
