(* ===== verification/LogSpec.v ===== *)
(** * The log makes transactions atomic across crashes

    A crash keeps a prefix of the writes the disk received.  [logical] is the
    contents of the disk as recovery will make them: a block listed in a
    committed header is read from the log.  The lemmas show which writes
    [commit] and [recover_from_log] issue, and that after every prefix of them
    [logical] is either the old or the new contents. *)

From stdpp Require Import base gmap list strings numbers.
From S2P Require Import Prelude Block SleepLock Bio BioSpec Cache Log.

(** ** Disks and headers *)

Definition replay (d : disk_t) (w : list (Z * block)) : disk_t :=
  foldl (λ d nb, <[nb.1 := nb.2]> d) d w.

(** The block numbers of a log header. *)
Definition hdr (b : block) : list Z :=
  (λ i, i32 (rd32 (HDR_BLOCK i) b)) <$> seqZ 0 (u32 (rd32 HDR_N b)).

Section geometry.
Context (start nlog : Z).

(** A block outside the log. *)
Definition home (n : Z) : Prop := 0 ≤ n < 2147483648 ∧ (n < start ∨ start + nlog ≤ n).

(** The block numbers a transaction can have. *)
Definition tx_ok (L : list Z) : Prop :=
  NoDup L ∧ Forall home L ∧ Z.of_nat (length L) < nlog ∧ (length L < 30)%nat.

Definition geom_ok : Prop := 0 < start ∧ 1 < nlog ∧ start + nlog < 2147483648.

Definition log_ok (d : disk_t) : Prop :=
  length (dget d start) = 1024%nat ∧ tx_ok (hdr (dget d start)).

(** The contents of block [n] after recovery. *)
Definition logical (d : disk_t) (n : Z) : block :=
  match list_find (n =.) (hdr (dget d start)) with
  | Some (i, _) => dget d (start + 1 + Z.of_nat i)
  | None => dget d n
  end.

End geometry.

Lemma replay_app d w w' : replay d (w ++ w') = replay (replay d w) w'.
Proof. apply foldl_app. Qed.

Lemma replay_snoc d w n b : replay d (w ++ [(n, b)]) = <[n := b]> (replay d w).
Proof. by rewrite replay_app. Qed.

Lemma dget_replay_other d w n : n ∉ w.*1 → dget (replay d w) n = dget d n.
Proof.
  induction w as [|[m b] w IH] using rev_ind; intros Hn; [done|].
  rewrite replay_snoc, dget_insert. rewrite fmap_app in Hn.
  rewrite (proj2 (Z.eqb_neq n m)) by set_solver. apply IH. set_solver.
Qed.

Lemma dget_replay_in d w n b :
  NoDup w.*1 → (n, b) ∈ w → dget (replay d w) n = b.
Proof.
  induction w as [|[m c] w IH] using rev_ind; intros Hnd Hin; [set_solver|].
  rewrite replay_snoc, dget_insert. rewrite fmap_app in Hnd.
  apply list.NoDup_app in Hnd as (Hnd & Hdis & _).
  apply elem_of_app in Hin as [Hin|Hin].
  - rewrite (proj2 (Z.eqb_neq n m)); [by apply IH|]. intros ->.
    apply (Hdis m); [|set_solver]. apply list_elem_of_fmap. by exists (m, b).
  - apply list_elem_of_singleton in Hin as [= -> ->]. by rewrite Z.eqb_refl.
Qed.

Lemma length_hdr b : Z.of_nat (length (hdr b)) = u32 (rd32 HDR_N b).
Proof. unfold hdr. rewrite length_fmap, length_seqZ. pose proof (u32_range (rd32 HDR_N b)). lia. Qed.

Lemma hdr_int b : (length (hdr b) < 30)%nat → i32 (rd32 HDR_N b) = Z.of_nat (length (hdr b)).
Proof. intros Hl. pose proof (length_hdr b). unfold i32. ztest. lia. Qed.

Lemma hdr_lookup b i : (i < length (hdr b))%nat →
  hdr b !! i = Some (i32 (rd32 (HDR_BLOCK (Z.of_nat i)) b)).
Proof.
  intros Hi. pose proof (length_hdr b). unfold hdr.
  rewrite list_lookup_fmap, lookup_seqZ_lt by lia. cbn. do 3 f_equal.
Qed.

(** A header that was written field by field reads back. *)
Lemma hdr_intro b L :
  (length L < 30)%nat → Forall (λ n, 0 ≤ n < 2147483648) L →
  rd32 HDR_N b = Z.of_nat (length L) →
  (∀ i n, L !! i = Some n → rd32 (HDR_BLOCK (Z.of_nat i)) b = n) → hdr b = L.
Proof.
  intros Hl HL Hn Hi. apply list_eq. intros i.
  pose proof (length_hdr b) as Hlen. rewrite Hn, u32_small in Hlen by lia.
  destruct (L !! i) as [n|] eqn:E.
  - rewrite hdr_lookup by (apply lookup_lt_Some in E; lia). rewrite (Hi _ _ E), i32_small; [done|].
    rewrite Forall_lookup in HL. specialize (HL i n E). lia.
  - apply lookup_ge_None_2. apply lookup_ge_None in E. lia.
Qed.

(** ** Running the code of the log *)

Lemma set_bcache_twice c c' s : set_bcache c' (set_bcache c s) = set_bcache c' s.
Proof. done. Qed.
Lemma set_bcache_id s : set_bcache (bcache s) s = s.
Proof. by destruct s. Qed.

Lemma wp_inb {A} (m : M bst A) Q s c :
  wp m (λ a c', Q a (set_bcache c' s)) c → wp (inb m) Q (set_bcache c s).
Proof. intros H. apply wp_zoom. exact H. Qed.

Lemma wp_bdata b Q s : Q (b_data (bufat (bcache s) b)) s → wp (bdata b) Q s.
Proof. done. Qed.

Lemma wp_set_bdata b f Q s c :
  Q tt (set_bcache (upd b (λ bf, with_data (f (b_data bf)) bf) c) s) →
  wp (set_bdata b f) Q (set_bcache c s).
Proof. intros H. by apply wp_inb. Qed.

(** The in-memory header lists the blocks [L]. *)
Definition lh_is (s : logst) (L : list Z) : Prop :=
  length (lh_block s) = 30%nat ∧ lh_n s = Z.of_nat (length L) ∧ L `prefix_of` lh_block s.

Lemma lh_is_lookup s L i n : lh_is s L → L !! i = Some n → lh_block s !! i = Some n ∧ (i < 30)%nat.
Proof.
  intros (Hl & _ & Hp) Hi. split; [by eapply prefix_lookup_Some|].
  apply lookup_lt_Some in Hi. apply prefix_length in Hp. lia.
Qed.

Lemma wp_get_lh s L i n Q :
  lh_is s L → 0 ≤ i → L !! Z.to_nat i = Some n → Q n s → wp (get_lh i) Q s.
Proof.
  intros Hl Hi0 Hi HQ. destruct (lh_is_lookup s L _ n Hl Hi) as [E Hlt].
  unfold get_lh, LOGSIZE, MAXOPBLOCKS. ztest. apply wp_gets. by rewrite E.
Qed.

(** [c] is the cache while the log runs; the rest of the log state is [s]. *)
Section ops.
Context (dev start nlog : Z) (Hgeom : geom_ok start nlog).

Lemma log_block i L : tx_ok start nlog L → (i < length L)%nat →
  u32 (start + Z.of_nat i + 1) = start + 1 + Z.of_nat i ∧ ¬ home start nlog (start + 1 + Z.of_nat i).
Proof.
  intros (_ & _ & Hs & _) Hi. destruct Hgeom as (H1 & H2 & H3).
  split; [rewrite u32_small; lia|]. unfold home. lia.
Qed.

Lemma home_u32 n : home start nlog n → u32 n = n.
Proof. intros [H _]. apply u32_small. lia. Qed.

(** The state in which the log runs: geometry, header, and the cache [c]. *)
Definition lrun (s : logst) (L : list Z) : Prop :=
  lg_dev s = dev ∧ lg_start s = start ∧ lg_size s = nlog ∧ lh_is s L ∧ tx_ok start nlog L.

Lemma write_log_turn_run s L V R c i n :
  lrun s L → L !! i = Some n → cst dev c V R ∅ → n ∈ R →
  start + 1 + Z.of_nat i ∉ R → (size R < 30)%nat →
  let to := start + 1 + Z.of_nat i in
  wp (write_log_turn (Z.of_nat i))
     (λ _ s', ∃ c', s' = set_bcache c' s ∧ cst dev c' (vset V to (V n)) R ∅ ∧
        disk c' = <[to := V n]> (disk c) ∧ wtrace c' = wtrace c ++ [(to, V n)])
     (set_bcache c s).
Proof.
  intros (Hdev & Hst & Hsz & Hlh & Htx) Hi Hc Hn Hto HR to.
  destruct (log_block i L Htx) as [E Hnh]; [by eapply lookup_lt_Some|].
  assert (home start nlog n) as Hh.
  { destruct Htx as (_ & HF & _). rewrite Forall_lookup in HF. by eapply HF. }
  unfold write_log_turn. wp_run. cbn [lg_dev lg_start set_bcache]. rewrite Hdev, Hst, E. fold to.
  apply wp_inb. eapply wp_mono; [apply cst_bread; [done|done|right; rewrite map_size_empty; lia]|].
  intros bt c1 (Hc1 & Hd1 & Hw1). cbv beta.
  wp_run. eapply (wp_get_lh _ L); [done|lia|by rewrite Nat2Z.id|].
  assert (n ≠ to) as Hne by (intros ->; done).
  rewrite (home_u32 n Hh). wp_run.
  apply wp_inb. eapply wp_mono; [apply cst_bread; [done|by rewrite lookup_insert_ne|by left]|].
  intros bf c2 (Hc2 & Hd2 & Hw2). wp_run. apply wp_bdata. cbn [bcache set_bcache].
  erewrite (cst_data dev c2 V R _ n bf); [|done|by rewrite lookup_insert_eq].
  wp_run. apply wp_set_bdata.
  destruct (cst_modify dev c2 V R (<[n:=bf]> (<[to:=bt]> ∅)) to bt (λ _, V n)) as (Hc3 & Hd3 & Hw3);
    [done|by rewrite lookup_insert_ne, lookup_insert_eq|].
  set (c3 := upd bt _ c2) in *. wp_run.
  apply wp_inb. eapply wp_mono; [eapply cst_bwrite; [done|by rewrite lookup_insert_ne, lookup_insert_eq]|].
  intros [] c4 (Hc4 & Hd4 & Hw4). rewrite vset_same in Hd4, Hw4. wp_run.
  apply wp_inb. eapply wp_mono; [eapply cst_brelse; [done|by rewrite lookup_insert_eq|done]|].
  intros [] c5 (Hc5 & Hd5 & Hw5). rewrite delete_insert_id in Hc5 by by rewrite lookup_insert_ne.
  apply wp_inb. eapply wp_mono; [eapply cst_brelse; [done|by rewrite lookup_insert_eq|]|].
  { intros _. by rewrite vset_same, Hd5, Hd4, dget_insert, Z.eqb_refl. }
  intros [] c6 (Hc6 & Hd6 & Hw6). rewrite delete_insert_id in Hc6 by done.
  exists c6. split_and!; [done|done| |]; congruence.
Qed.

Lemma install_trans_turn_run (recovering : bool) s L V R c i n :
  let lb := start + 1 + Z.of_nat i in
  lrun s L → L !! i = Some n → cst dev c V R ∅ →
  (if recovering then R = ∅ else n ∈ R) → lb ∉ R → (size R < 30)%nat →
  wp (install_trans_turn recovering (Z.of_nat i))
     (λ _ s', ∃ c', s' = set_bcache c' s ∧ cst dev c' (vset V n (V lb)) (R ∖ {[n]}) ∅ ∧
        disk c' = <[n := V lb]> (disk c) ∧ wtrace c' = wtrace c ++ [(n, V lb)])
     (set_bcache c s).
Proof.
  intros lb (Hdev & Hst & Hsz & Hlh & Htx) Hi Hc Hn Hlb HR.
  destruct (log_block i L Htx) as [E Hnh]; [by eapply lookup_lt_Some|].
  assert (home start nlog n) as Hh.
  { destruct Htx as (_ & HF & _). rewrite Forall_lookup in HF. by eapply HF. }
  assert (n ≠ lb) as Hne by (intros ->; done).
  assert (V lb = dget (disk c) lb) as Hclean by by eapply cst_clean.
  unfold install_trans_turn. wp_run. cbn [lg_dev lg_start set_bcache]. rewrite Hdev, Hst, E. fold lb.
  apply wp_inb. eapply wp_mono; [apply cst_bread; [done|done|right; rewrite map_size_empty; lia]|].
  intros bl c1 (Hc1 & Hd1 & Hw1). cbv beta.
  wp_run. eapply (wp_get_lh _ L); [done|lia|by rewrite Nat2Z.id|].
  rewrite (home_u32 n Hh). wp_run.
  apply wp_inb. eapply wp_mono; [apply cst_bread; [done|by rewrite lookup_insert_ne|]|].
  { destruct recovering; [right|by left]. subst R.
    rewrite size_empty, map_size_insert_None, map_size_empty by done. lia. }
  intros bd c2 (Hc2 & Hd2 & Hw2). wp_run. apply wp_bdata. cbn [bcache set_bcache].
  erewrite (cst_data dev c2 V R _ lb bl); [|done|by rewrite lookup_insert_ne, lookup_insert_eq].
  wp_run. apply wp_set_bdata.
  destruct (cst_modify dev c2 V R (<[n:=bd]> (<[lb:=bl]> ∅)) n bd (λ _, V lb)) as (Hc3 & Hd3 & Hw3);
    [done|by rewrite lookup_insert_eq|].
  set (c3 := upd bd _ c2) in *. wp_run.
  apply wp_inb. eapply wp_mono; [eapply cst_bwrite; [done|by rewrite lookup_insert_eq]|].
  intros [] c4 (Hc4 & Hd4 & Hw4). rewrite vset_same in Hd4, Hw4. wp_run.
  assert (wp (if recovering then ret tt else inb (bunpin bd)) (λ _ s', ∃ c5, s' = set_bcache c5 s ∧
    cst dev c5 (vset V n (V lb)) (R ∖ {[n]}) (<[n:=bd]> (<[lb:=bl]> ∅)) ∧
    disk c5 = disk c4 ∧ wtrace c5 = wtrace c4) (set_bcache c4 s)) as Hpin.
  { destruct recovering; wp_run.
    - exists c4. split_and!; try done. subst R. by replace (∅ ∖ {[n]} : gset Z) with (∅ : gset Z) by set_solver.
    - apply wp_inb. eapply wp_mono; [eapply cst_bunpin; [done|by rewrite lookup_insert_eq|done]|]. eauto. }
  eapply wp_mono; [exact Hpin|]. intros [] s5 (c5 & -> & Hc5 & Hd5 & Hw5). wp_run.
  apply wp_inb. eapply wp_mono; [eapply cst_brelse; [done|by rewrite lookup_insert_ne, lookup_insert_eq|]|].
  { intros _. rewrite vset_other, Hd5, Hd4, dget_insert by done.
    by rewrite (proj2 (Z.eqb_neq lb n)), Hd3, Hd2, Hd1. }
  intros [] c6 (Hc6 & Hd6 & Hw6). rewrite delete_insert_ne, delete_insert_id in Hc6 by done.
  apply wp_inb. eapply wp_mono; [eapply cst_brelse; [done|by rewrite lookup_insert_eq|]|].
  { intros _. by rewrite vset_same, Hd6, Hd5, Hd4, dget_insert, Z.eqb_refl. }
  intros [] c7 (Hc7 & Hd7 & Hw7). rewrite delete_insert_id in Hc7 by done.
  exists c7. split_and!; [done|done| |]; congruence.
Qed.

(** The writes of [write_log] and of [install_trans]. *)
Definition log_writes (V : Z → block) (L : list Z) : list (Z * block) :=
  imap (λ i n, (start + 1 + Z.of_nat i, V n)) L.
Definition home_writes (V : Z → block) (L : list Z) : list (Z * block) :=
  imap (λ i n, (n, V (start + 1 + Z.of_nat i))) L.

Lemma take_imap_S {A B} (f : nat → A → B) l i x :
  l !! i = Some x → take (S i) (imap f l) = take i (imap f l) ++ [f i x].
Proof. intros Hi. apply take_S_r. by rewrite list_lookup_imap, Hi. Qed.

(** A loop over the blocks of the header that runs in the cache and issues
    the writes [W]. *)
Lemma header_loop (body : Z → M logst unit) s (L : list Z) c (f : nat → Z → Z * block) (J : nat → bst → Prop) :
  let W := imap f L in
  J 0%nat c →
  (∀ i n c1, L !! i = Some n → J i c1 →
     wp (body (Z.of_nat i))
        (λ _ s', ∃ c2, s' = set_bcache c2 s ∧ J (S i) c2 ∧
           disk c2 = <[(f i n).1 := (f i n).2]> (disk c1) ∧
           wtrace c2 = wtrace c1 ++ [f i n]) (set_bcache c1 s)) →
  wp (for_loop (length L) 0 body)
     (λ _ s', ∃ c', s' = set_bcache c' s ∧ J (length L) c' ∧
        disk c' = replay (disk c) W ∧ wtrace c' = wtrace c ++ W) (set_bcache c s).
Proof.
  intros W HJ Hbody.
  apply (wp_for_loop (λ z s', ∃ i c', z = Z.of_nat i ∧ s' = set_bcache c' s ∧ J i c' ∧
    disk c' = replay (disk c) (take i W) ∧ wtrace c' = wtrace c ++ take i W)).
  - exists 0%nat, c. rewrite take_0, app_nil_r. done.
  - intros z s' Hz (i & c' & -> & -> & HJi & Hd & Hw).
    destruct (lookup_lt_is_Some_2 L i) as [n Hn]; [lia|].
    eapply wp_mono; [by apply (Hbody i n)|]. intros _ s'' (c2 & -> & HJ2 & Hd2 & Hw2).
    exists (S i), c2. unfold W. rewrite (take_imap_S _ _ _ _ Hn), replay_app. cbn.
    split_and!; [lia|done|done| |].
    + by rewrite Hd2, Hd.
    + by rewrite Hw2, Hw, app_assoc.
  - intros s' (i & c' & Hi & -> & HJi & Hd & Hw). assert (i = length L) as -> by lia.
    exists c'. rewrite take_ge in Hd, Hw by (unfold W; rewrite length_imap; lia). done.
Qed.

Lemma lrun_log_block s L i (R : gset Z) :
  lrun s L → (i < length L)%nat → (∀ n, n ∈ R → home start nlog n) →
  start + 1 + Z.of_nat i ∉ R.
Proof. intros (_ & _ & _ & _ & Htx) Hi HR H. by apply (proj2 (log_block i L Htx Hi)), HR. Qed.

Lemma pins_home L n : tx_ok start nlog L → n ∈ (list_to_set L : gset Z) → home start nlog n.
Proof.
  intros (_ & HF & _) Hn. apply elem_of_list_to_set in Hn. rewrite Forall_forall in HF.
  by apply HF, list_elem_of_In.
Qed.

Lemma size_list_to_set_le (L : list Z) : (size (list_to_set L : gset Z) ≤ length L)%nat.
Proof.
  induction L as [|x L IH]; cbn; [by rewrite size_empty|].
  pose proof (size_union_alt {[x]} (list_to_set L : gset Z)) as E. rewrite size_singleton in E.
  assert (size ((list_to_set L : gset Z) ∖ {[x]}) ≤ size (list_to_set L : gset Z))%nat
    by (apply subseteq_size; set_solver). lia.
Qed.

Lemma pins_size (L : list Z) R :
  (length L < 30)%nat → R ⊆ (list_to_set L : gset Z) → (size R < 30)%nat.
Proof.
  intros Hl HR. apply subseteq_size in HR.
  pose proof (size_list_to_set_le L). lia.
Qed.

Lemma write_log_run s L V c :
  lrun s L → cst dev c V (list_to_set L) ∅ →
  let W := log_writes V L in
  wp write_log
     (λ _ s', ∃ c' V', s' = set_bcache c' s ∧ cst dev c' V' (list_to_set L) ∅ ∧
        (∀ n, home start nlog n → V' n = V n) ∧
        disk c' = replay (disk c) W ∧ wtrace c' = wtrace c ++ W) (set_bcache c s).
Proof.
  intros Hrun Hc W. pose proof Hrun as (_ & _ & _ & (_ & Hn & _) & Htx).
  unfold write_log. wp_run. cbn [lh_n set_bcache]. rewrite Hn, Nat2Z.id.
  eapply wp_mono; [apply (header_loop _ s L c (λ i n, (start + 1 + Z.of_nat i, V n))
    (λ _ c', ∃ V', cst dev c' V' (list_to_set L) ∅ ∧
    ∀ n, home start nlog n → V' n = V n))|].
  - by exists V.
  - intros i n c1 Hi (V' & Hc1 & HV'). assert (i < length L)%nat as Hlt by by eapply lookup_lt_Some.
    assert (n ∈ (list_to_set L : gset Z)) as Hin by by apply elem_of_list_to_set, (list_elem_of_lookup_2 _ i).
    eapply wp_mono; [eapply (write_log_turn_run s L V'); try done|].
    + eapply lrun_log_block; [done..|]. intros m. by apply pins_home.
    + eapply pins_size; [apply Htx|done].
    + intros _ s' (c2 & -> & Hc2 & Hd2 & Hw2). exists c2. cbn.
      rewrite (HV' n) in * by by eapply pins_home. split_and!; try done.
      eexists. split; [exact Hc2|]. intros m Hm. rewrite vset_other; [by apply HV'|].
      intros ->. by apply (proj2 (log_block i L Htx Hlt)).
  - intros _ s' (c' & -> & (V' & H1 & H2) & H3 & H4). by exists c', V'.
Qed.

Lemma install_trans_run (recovering : bool) s L V c :
  let R : gset Z := if recovering then ∅ else list_to_set L in
  lrun s L → cst dev c V R ∅ →
  let W := home_writes V L in
  wp (install_trans recovering)
     (λ _ s', ∃ c' V', s' = set_bcache c' s ∧ cst dev c' V' ∅ ∅ ∧
        disk c' = replay (disk c) W ∧ wtrace c' = wtrace c ++ W) (set_bcache c s).
Proof.
  intros R Hrun Hc W. pose proof Hrun as (_ & _ & _ & (_ & Hn & _) & Htx).
  unfold install_trans. wp_run. cbn [lh_n set_bcache]. rewrite Hn, Nat2Z.id.
  assert (R ⊆ list_to_set L) as HR by (destruct recovering; set_solver).
  eapply wp_mono; [apply (header_loop _ s L c (λ i n, (n, V (start + 1 + Z.of_nat i))) (λ i c', ∃ V',
    cst dev c' V' (R ∖ list_to_set (take i L)) ∅ ∧ ∀ n, ¬ home start nlog n → V' n = V n))|].
  - exists V. rewrite take_0. cbn. by replace (R ∖ ∅) with R by set_solver.
  - intros i n c1 Hi (V' & Hc1 & HV'). assert (i < length L)%nat as Hlt by by eapply lookup_lt_Some.
    eapply wp_mono; [eapply (install_trans_turn_run recovering s L V'); try done|].
    + destruct recovering; [set_solver|]. apply elem_of_difference. split.
      * by apply elem_of_list_to_set, (list_elem_of_lookup_2 _ i).
      * rewrite elem_of_list_to_set. intros Hin. destruct Htx as (Hnd & _).
        apply list_elem_of_lookup in Hin as [j Hj]. apply lookup_take_Some in Hj as [Hj Hji].
        assert (i = j) by (eapply NoDup_lookup; eauto). lia.
    + eapply lrun_log_block; [done..|]. intros m Hm. apply (pins_home L); [done|set_solver].
    + eapply pins_size; [apply Htx|set_solver].
    + intros _ s' (c2 & -> & Hc2 & Hd2 & Hw2). exists c2. cbn.
      rewrite (HV' (start + 1 + Z.of_nat i)) in * by by apply (log_block i L).
      split_and!; try done. eexists. split.
      * replace (R ∖ list_to_set (take (S i) L)) with (R ∖ list_to_set (take i L) ∖ {[n]}); [exact Hc2|].
        rewrite (take_S_r _ _ _ Hi), list_to_set_app_L. cbn. set_solver.
      * intros m Hm. rewrite vset_other; [by apply HV'|]. intros ->. apply Hm.
        apply (pins_home L); [done|]. by apply elem_of_list_to_set, (list_elem_of_lookup_2 _ i).
  - intros _ s' (c' & -> & (V' & H1 & H2) & H3 & H4). exists c', V'. split_and!; try done.
    rewrite firstn_all in H1. by replace (∅ : gset Z) with (R ∖ list_to_set L) by set_solver.
Qed.

Lemma write_head_run s L V R c :
  lrun s L → cst dev c V R ∅ → start ∉ R → (size R < 30)%nat → length (V start) = 1024%nat →
  wp write_head
     (λ _ s', ∃ c' hb, s' = set_bcache c' s ∧ cst dev c' (vset V start hb) R ∅ ∧
        hdr hb = L ∧ length hb = 1024%nat ∧ (block_ok (V start) → block_ok hb) ∧
        disk c' = <[start := hb]> (disk c) ∧ wtrace c' = wtrace c ++ [(start, hb)]) (set_bcache c s).
Proof.
  intros (Hdev & Hst & Hsz & Hlh & Htx) Hc HR Hsize Hlen.
  pose proof Hlh as (_ & Hn & _). pose proof Htx as (_ & HF & _ & Hl30). destruct Hgeom as (G1 & G2 & G3).
  unfold write_head. wp_run. cbn [lg_dev lg_start set_bcache]. rewrite Hdev, Hst, u32_small by lia.
  apply wp_inb. eapply wp_mono; [apply cst_bread; [done|done|right; rewrite map_size_empty; lia]|].
  intros b c1 (Hc1 & Hd1 & Hw1). wp_run. cbn [lh_n set_bcache]. rewrite Hn.
  apply wp_set_bdata. set (H := <[start:=b]> ∅ : gmap Z Z).
  assert (H !! start = Some b) as HH by apply lookup_insert_eq.
  destruct (cst_modify dev c1 V R H start b (wr32 HDR_N (Z.of_nat (length L)))) as (Hc2 & Hd2 & Hw2); [done..|].
  set (c2 := upd b _ c1) in *. rewrite Nat2Z.id. wp_run.
  apply (wp_for_loop (λ z s', ∃ c' h, s' = set_bcache c' s ∧ cst dev c' (vset V start h) R H ∧
    length h = 1024%nat ∧ rd32 HDR_N h = Z.of_nat (length L) ∧
    (∀ j n, Z.of_nat j < z → L !! j = Some n → rd32 (HDR_BLOCK (Z.of_nat j)) h = n) ∧ (block_ok (V start) → block_ok h) ∧
    disk c' = disk c ∧ wtrace c' = wtrace c)).
  - eexists c2, _. split; [done|]. split; [exact Hc2|]. unfold HDR_N.
    rewrite length_wr32, rd32_wr32, u32_small by lia. split_and!; [done|done|lia|by apply block_ok_wr32|congruence|congruence].
  - intros z s' Hz (c' & h & -> & Hc' & Hh & Hn0 & Hj & Hb' & Hd' & Hw').
    destruct (lookup_lt_is_Some_2 L (Z.to_nat z)) as [n Hnth]; [lia|].
    wp_run. eapply (wp_get_lh _ L); [done|lia|done|]. apply wp_set_bdata.
    destruct (cst_modify dev c' (vset V start h) R H start b (wr32 (HDR_BLOCK z) n)) as (Hc3 & Hd3 & Hw3); [done..|].
    rewrite vset_same in Hc3. eexists _, (wr32 (HDR_BLOCK z) n h). split; [done|].
    assert (home start nlog n) as [Hrg _] by (rewrite Forall_lookup in HF; by eapply HF).
    assert (HDR_BLOCK z + 4 ≤ 124) as Hoff by (unfold HDR_BLOCK; lia).
    split; [eapply cst_ext; [|exact Hc3]; intros; apply vset_vset|].
    rewrite length_wr32. split_and!; [done| | |intros Hb0; by apply block_ok_wr32, Hb'|congruence|congruence].
    + rewrite rd32_wr32_other; unfold HDR_BLOCK, HDR_N in *; lia.
    + intros j m Hjz Hm. destruct (decide (Z.of_nat j = z)) as [Ej|Hne].
      * subst z. rewrite Nat2Z.id, Hm in Hnth. injection Hnth as ->.
        rewrite rd32_wr32, u32_small; unfold HDR_BLOCK in *; lia.
      * rewrite rd32_wr32_other; [apply Hj; [lia|done]|unfold HDR_BLOCK in *; lia..].
  - rewrite Z.add_0_l. intros s' (c' & h & -> & Hc' & Hh & Hn0 & Hj & Hb' & Hd' & Hw'). wp_run. apply wp_inb.
    eapply wp_mono; [by eapply cst_bwrite|]. rewrite vset_same. intros [] c4 (Hc4 & Hd4 & Hw4).
    apply wp_inb. eapply wp_mono; [eapply cst_brelse; [done|done|]|].
    { intros _. by rewrite vset_same, Hd4, dget_insert, Z.eqb_refl. }
    intros [] c5 (Hc5 & Hd5 & Hw5). unfold H in Hc5. rewrite delete_insert_id in Hc5 by done.
    exists c5, h. split_and!; try done; [|congruence|congruence].
    apply hdr_intro; [done| |done|].
    + apply (list.Forall_impl _ _ _ HF). intros n [? _]. done.
    + intros i n Hi. apply Hj; [|done]. apply lookup_lt_Some in Hi. lia.
Qed.

Lemma read_head_run s V c :
  lg_dev s = dev → lg_start s = start → lg_size s = nlog → length (lh_block s) = 30%nat →
  cst dev c V ∅ ∅ → tx_ok start nlog (hdr (V start)) →
  wp read_head
     (λ _ s', ∃ c' s1, s' = set_bcache c' s1 ∧ cst dev c' V ∅ ∅ ∧ lrun s1 (hdr (V start)) ∧
        lg_locked s1 = lg_locked s ∧ lg_outstanding s1 = lg_outstanding s ∧
        lg_committing s1 = lg_committing s ∧
        disk c' = disk c ∧ wtrace c' = wtrace c) (set_bcache c s).
Proof.
  intros Hdev Hst Hsz Hlen Hc Htx. destruct Hgeom as (G1 & G2 & G3). set (L := hdr (V start)) in *.
  unfold read_head. wp_run. cbn [lg_dev lg_start set_bcache]. rewrite Hdev, Hst, u32_small by lia.
  apply wp_inb. eapply wp_mono; [apply cst_bread; [done|done|right; rewrite map_size_empty, size_empty; lia]|].
  intros b c1 (Hc1 & Hd1 & Hw1). set (H := <[start:=b]> ∅ : gmap Z Z) in *.
  assert (H !! start = Some b) as HH by apply lookup_insert_eq.
  pose proof (cst_data dev c1 V ∅ H start b Hc1 HH) as Hdata.
  wp_run. apply wp_bdata. cbn [bcache set_bcache]. rewrite Hdata. wp_run.
  rewrite hdr_int by apply Htx. fold L. set (n := Z.of_nat (length L)). cbn [lh_n set_lh_n].
  apply (wp_for_loop (λ z s', ∃ l, s' = set_bcache c1 (set_lh_block l (set_lh_n n s)) ∧
    length l = 30%nat ∧ ∀ j, Z.of_nat j < z → l !! j = L !! j)).
  - exists (lh_block s). split_and!; [by destruct s|done|lia].
  - intros z s' Hz (l & -> & Hl & Hj). wp_run. apply wp_bdata. cbn [bcache set_bcache]. rewrite Hdata.
    pose proof Htx as (_ & _ & _ & H30). unfold put_lh, LOGSIZE, MAXOPBLOCKS. ztest. wp_run.
    exists (<[Z.to_nat z := i32 (rd32 (HDR_BLOCK z) (V start))]> l). split; [done|].
    rewrite length_insert. split; [done|].
    intros j Hjz. destruct (decide (Z.of_nat j = z)) as [<-|Hne].
    + rewrite Nat2Z.id, list_lookup_insert_eq by lia. unfold L. rewrite hdr_lookup; [done|]. fold L. lia.
    + rewrite list_lookup_insert_ne by lia. apply Hj. lia.
  - rewrite Z.add_0_l. intros s' (l & -> & Hl & Hj). wp_run. apply wp_inb.
    eapply wp_mono; [eapply cst_brelse; [exact Hc1|done|]|].
    { intros _. rewrite Hd1. by eapply cst_clean. }
    intros [] c2 (Hc2 & Hd2 & Hw2). unfold H in Hc2. rewrite delete_insert_id in Hc2 by done.
    eexists c2, _. split; [done|]. split_and!; try done; [|congruence|congruence].
    split_and!; try done. split_and!; [done|done|]. cbn [lh_block set_lh_block].
    replace L with (take (length L) l); [apply prefix_take|]. apply list_eq. intros j.
    destruct (decide (j < length L)%nat).
    + rewrite lookup_take_lt by done. apply Hj. lia.
    + rewrite lookup_take_ge by lia. symmetry. apply lookup_ge_None_2. lia.
Qed.

Lemma home_writes_fst V L : (home_writes V L).*1 = L.
Proof.
  unfold home_writes. rewrite fmap_imap. transitivity (imap (const id) L); [done|].
  rewrite imap_const. apply list_fmap_id.
Qed.

Lemma log_writes_fst V L : (log_writes V L).*1 = seqZ (start + 1) (Z.of_nat (length L)).
Proof.
  unfold log_writes. rewrite fmap_imap. apply list_eq. intros i.
  rewrite list_lookup_imap. destruct (L !! i) as [n|] eqn:E; cbn.
  - rewrite lookup_seqZ_lt by (apply lookup_lt_Some in E; lia). done.
  - symmetry. apply lookup_seqZ_ge. apply lookup_ge_None in E. lia.
Qed.

Lemma tx_ok_home L n : tx_ok start nlog L → n ∈ L → home start nlog n.
Proof. intros Htx Hn. apply (pins_home L); [done|]. by apply elem_of_list_to_set. Qed.

(** The writes of recovery on a disk [d]. *)
Definition recovery_trace (d : disk_t) (hz : block) : list (Z * block) :=
  home_writes (dget d) (hdr (dget d start)) ++ [(start, hz)].

Definition empty_hdr (hz : block) : Prop := hdr hz = [] ∧ length hz = 1024%nat.

Lemma tx_ok_nil : tx_ok start nlog [].
Proof. destruct Hgeom. split_and!; [constructor|constructor|cbn; lia|cbn; lia]. Qed.

Lemma lh_is_nil s L : lh_is s L → lh_is (set_lh_n 0 s) [].
Proof. intros (Hl & _ & _). split_and!; [done|done|apply prefix_nil]. Qed.

Lemma start_not_home : ¬ home start nlog start.
Proof. destruct Hgeom. unfold home. lia. Qed.

(** Clearing the header is the last write of both commit and recovery. *)
Lemma clear_run s L V c :
  lrun s L → cst dev c V ∅ ∅ → length (V start) = 1024%nat →
  wp (modify (set_lh_n 0) ;; write_head)
     (λ _ s', ∃ c' hz, s' = set_bcache c' (set_lh_n 0 s) ∧ idle dev c' ∧ empty_hdr hz ∧ (block_ok (V start) → block_ok hz) ∧
        disk c' = replay (disk c) [(start, hz)] ∧ wtrace c' = wtrace c ++ [(start, hz)])
     (set_bcache c s).
Proof.
  intros (Hdev & Hst & Hsz & Hlh & Htx) Hc Hlen. wp_run.
  change (set_lh_n 0 (set_bcache c s)) with (set_bcache c (set_lh_n 0 s)).
  eapply wp_mono; [apply (write_head_run (set_lh_n 0 s) [] V ∅ c); [|done|set_solver|by rewrite size_empty; lia|done]|].
  { split_and!; [done..|by eapply lh_is_nil|apply tx_ok_nil]. }
  intros _ s' (c' & hb & -> & Hc' & Hh & Hl & Hb & Hd & Hw). exists c', hb. split_and!; try done.
  apply idle_cst. eapply cst_ext; [|exact Hc']. intros n. by eapply cst_clean.
Qed.

Lemma recover_run s c :
  lg_dev s = dev → lg_start s = start → lg_size s = nlog → length (lh_block s) = 30%nat →
  idle dev c → log_ok start nlog (disk c) →
  wp recover_from_log
     (λ _ s', ∃ c' s1 hz, let W := recovery_trace (disk c) hz in
        s' = set_bcache c' s1 ∧ lrun s1 [] ∧ idle dev c' ∧ empty_hdr hz ∧
        lg_locked s1 = lg_locked s ∧ lg_outstanding s1 = lg_outstanding s ∧
        lg_committing s1 = lg_committing s ∧
        disk c' = replay (disk c) W ∧ wtrace c' = wtrace c ++ W) (set_bcache c s).
Proof.
  intros Hdev Hst Hsz Hlen Hid%idle_cst (Hl & Htx). unfold recover_from_log. wp_run.
  eapply wp_mono; [by eapply read_head_run|].
  intros _ s' (c1 & s1 & -> & Hc1 & Hrun & E1 & E2 & E3 & Hd1 & Hw1). wp_run.
  eapply wp_mono; [by apply (install_trans_run true s1 (hdr (dget (disk c) start)))|].
  intros _ s' (c2 & V2 & -> & Hc2 & Hd2 & Hw2).
  set (W := home_writes _ _) in *.
  eapply wp_mono; [eapply (clear_run s1); [done|done|]|].
  { rewrite (cst_clean dev c2 V2 ∅ ∅ start) by done. rewrite Hd2, dget_replay_other, Hd1; [done|].
    unfold W. rewrite home_writes_fst. intros Hin. by apply start_not_home, (tx_ok_home _ _ Htx). }
  intros _ s' (c3 & hz & -> & Hid3 & Hz & _ & Hd3 & Hw3).
  exists c3, (set_lh_n 0 s1), hz. pose proof Hrun as (R1 & R2 & R3 & R4 & R5). split_and!; try done.
  - split_and!; [done..|by eapply lh_is_nil|apply tx_ok_nil].
  - unfold recovery_trace. by rewrite replay_app, Hd3, Hd2, Hd1.
  - unfold recovery_trace. by rewrite Hw3, Hw2, Hw1, app_assoc.
Qed.

(** ** Crashes *)

Lemma logical_other d n : n ∉ hdr (dget d start) → logical start d n = dget d n.
Proof.
  intros Hn. unfold logical. destruct (list_find _ _) as [[i m]|] eqn:E; [|done].
  apply list_find_Some in E as (Hi & -> & _). exfalso. apply Hn. by eapply list_elem_of_lookup_2.
Qed.

Lemma logical_logged d L i n :
  hdr (dget d start) = L → NoDup L → L !! i = Some n →
  logical start d n = dget d (start + 1 + Z.of_nat i).
Proof.
  intros EL Hnd Hi. unfold logical. rewrite EL. destruct (list_find _ _) as [[j m]|] eqn:E.
  - apply list_find_Some in E as (Hj & -> & _). by rewrite (NoDup_lookup _ _ _ _ Hnd Hi Hj).
  - exfalso. apply list_find_None in E. rewrite Forall_forall in E. apply (E n); [|done].
    apply list_elem_of_In. by eapply list_elem_of_lookup_2.
Qed.

(** While committed blocks are copied home, what recovery would produce does
    not change; and when the header has been cleared it is what the disk
    holds. *)
Lemma recovery_prefix d hz k :
  log_ok start nlog d → empty_hdr hz →
  let d' := replay d (take k (recovery_trace d hz)) in
  log_ok start nlog d' ∧ ∀ n, home start nlog n → logical start d' n = logical start d n.
Proof.
  intros (Hl & Htx) (Hz & Hzl) d'. set (L := hdr (dget d start)) in *.
  pose proof Htx as (Hnd & HF & Hsz & H30).
  assert (∀ W, W `prefix_of` home_writes (dget d) L → ∀ n, ¬ home start nlog n →
    dget (replay d W) n = dget d n) as Hkeep.
  { intros W [W' E] n Hn. apply dget_replay_other. intros Hin. apply Hn, (tx_ok_home L); [done|].
    rewrite <-(home_writes_fst (dget d) L), E, fmap_app. set_solver. }
  unfold d', recovery_trace. fold L. destruct (decide (k ≤ length L)%nat) as [Hk|Hk].
  - rewrite take_app_le by (unfold home_writes; rewrite length_imap; done).
    set (W := take k _). assert (W `prefix_of` home_writes (dget d) L) as HW by apply prefix_take.
    assert (hdr (dget (replay d W) start) = L) as EL
      by by rewrite (Hkeep W HW start start_not_home).
    split; [split; [rewrite (Hkeep W HW start start_not_home); done|by rewrite EL]|].
    intros n Hn. destruct (decide (n ∈ L)) as [Hin|Hin].
    + apply list_elem_of_lookup in Hin as [i Hi].
      rewrite (logical_logged _ L i n EL Hnd Hi), (logical_logged _ L i n eq_refl Hnd Hi).
      apply Hkeep; [done|]. apply (log_block i L Htx). by eapply lookup_lt_Some.
    + rewrite !logical_other by (rewrite ?EL; done). apply dget_replay_other. intros Hw.
      apply Hin. rewrite <-(home_writes_fst (dget d) L). destruct HW as [W' ->].
      rewrite fmap_app. set_solver.
  - rewrite take_ge by (unfold home_writes; rewrite length_app, length_imap; cbn; lia).
    rewrite replay_snoc. set (d1 := replay d _).
    assert (dget (<[start := hz]> d1) start = hz) as Es by by rewrite dget_insert, Z.eqb_refl.
    split; [by split; rewrite Es, ?Hz; [|apply tx_ok_nil]|].
    intros n Hn. assert (n ≠ start) as Hns by (intros ->; by apply start_not_home).
    rewrite logical_other by (rewrite Es, Hz; apply not_elem_of_nil).
    rewrite dget_insert, (proj2 (Z.eqb_neq n start)) by done.
    destruct (decide (n ∈ L)) as [Hin|Hin].
    + apply list_elem_of_lookup in Hin as [i Hi]. rewrite (logical_logged _ L i n eq_refl Hnd Hi).
      apply dget_replay_in; [by rewrite home_writes_fst|]. unfold home_writes.
      by apply (elem_of_lookup_imap_2 (λ i n, (n, dget d (start + 1 + Z.of_nat i)))).
    + rewrite logical_other by done. apply dget_replay_other. by rewrite home_writes_fst.
Qed.

(** At the end of recovery the disk itself holds those contents. *)
Lemma recovery_done d hz :
  log_ok start nlog d → empty_hdr hz →
  let d' := replay d (recovery_trace d hz) in
  hdr (dget d' start) = [] ∧ log_ok start nlog d' ∧
  ∀ n, home start nlog n → dget d' n = logical start d n.
Proof.
  intros Hok Hz d'. destruct (recovery_prefix d hz (length (recovery_trace d hz)) Hok Hz) as [Hok' Hlog].
  rewrite firstn_all in Hok', Hlog. fold d' in Hok', Hlog.
  assert (hdr (dget d' start) = []) as E.
  { unfold d', recovery_trace. rewrite replay_snoc, dget_insert, Z.eqb_refl. apply Hz. }
  split_and!; try done. intros n Hn. rewrite <-Hlog by done. symmetry. apply logical_other.
  rewrite E. apply not_elem_of_nil.
Qed.

(** [W] are the writes of the commit of the blocks [L] with contents [V]. *)
Definition commits (V : Z → block) (L : list Z) (d : disk_t) (W : list (Z * block)) : Prop :=
  (L = [] ∧ W = []) ∨
  ∃ hb hz, hdr hb = L ∧ length hb = 1024%nat ∧ empty_hdr hz ∧ (block_ok (dget d start) → block_ok hb ∧ block_ok hz) ∧
    let W1 := log_writes V L ++ [(start, hb)] in
    W = W1 ++ recovery_trace (replay d W1) hz.

(** The disk when the header has been written. *)
Lemma committed_disk V L d hb :
  tx_ok start nlog L →
  let d1 := replay d (log_writes V L ++ [(start, hb)]) in
  dget d1 start = hb ∧ (∀ i n, L !! i = Some n → dget d1 (start + 1 + Z.of_nat i) = V n) ∧
  ∀ n, home start nlog n → dget d1 n = dget d n.
Proof.
  intros Htx d1. unfold d1. rewrite replay_snoc. pose proof Hgeom as (G1 & G2 & G3).
  pose proof Htx as (_ & _ & Hsz & _).
  split_and!.
  - by rewrite dget_insert, Z.eqb_refl.
  - intros i n Hi. assert (i < length L)%nat by by eapply lookup_lt_Some.
    rewrite dget_insert. ztest. apply dget_replay_in.
    + rewrite log_writes_fst. apply NoDup_seqZ.
    + by apply (elem_of_lookup_imap_2 (λ i n, (start + 1 + Z.of_nat i, V n))).
  - intros n [Hn1 Hn2]. rewrite dget_insert. rewrite (proj2 (Z.eqb_neq n start)) by lia.
    apply dget_replay_other. rewrite log_writes_fst, elem_of_seqZ. lia.
Qed.

Lemma commit_run s L V c :
  lrun s L → cst dev c V (list_to_set L) ∅ → length (V start) = 1024%nat →
  wp commit
     (λ _ s', ∃ c' W, s' = set_bcache c' (set_lh_n 0 s) ∧ idle dev c' ∧ commits V L (disk c) W ∧
        disk c' = replay (disk c) W ∧ wtrace c' = wtrace c ++ W) (set_bcache c s).
Proof.
  intros Hrun Hc Hlen. pose proof Hrun as (Hdev & Hst & Hsz & (Hl & Hn & Hp) & Htx).
  assert (∀ i n, L !! i = Some n → start + 1 + Z.of_nat i ∉ (list_to_set L : gset Z)) as Hlb.
  { intros i n Hi. eapply lrun_log_block; [exact Hrun|by eapply lookup_lt_Some|].
    intros m. by apply pins_home. }
  assert (start ∉ (list_to_set L : gset Z)) as Hstart.
  { intros Hin. by apply start_not_home, (pins_home L). }
  assert (size (list_to_set L : gset Z) < 30)%nat as Hsize by (eapply pins_size; [apply Htx|done]).
  unfold commit. wp_run. cbn [lh_n set_bcache]. rewrite Hn. destruct (Z.ltb_spec 0 (Z.of_nat (length L))).
  - wp_run. eapply wp_mono; [by apply (write_log_run s L V)|].
    intros _ s1 (c1 & V1 & -> & Hc1 & HV1 & Hd1 & Hw1). wp_run.
    eapply wp_mono; [apply (write_head_run s L V1 (list_to_set L)); try done|].
    { rewrite (cst_clean dev c1 V1 (list_to_set L) ∅ start) by done.
      rewrite Hd1, dget_replay_other; [by rewrite <-(cst_clean dev c V (list_to_set L) ∅ start)|].
      rewrite log_writes_fst, elem_of_seqZ. lia. }
    intros _ s2 (c2 & hb & -> & Hc2 & Hh & Hhl & Hbb & Hd2 & Hw2). apply wp_bind.
    eapply wp_mono; [by apply (install_trans_run false s L (vset V1 start hb))|].
    intros _ s3 (c3 & V3 & -> & Hc3 & Hd3 & Hw3).
    set (W1 := log_writes V L ++ [(start, hb)]).
    assert (disk c2 = replay (disk c) W1) as Ed2 by (unfold W1; by rewrite replay_snoc, Hd2, Hd1).
    destruct (committed_disk V L (disk c) hb Htx) as (D1 & D2 & D3). fold W1 in D1, D2, D3.
    assert (home_writes (vset V1 start hb) L = home_writes (dget (replay (disk c) W1)) (hdr hb)) as EW.
    { rewrite Hh. apply imap_ext. intros i n Hi. f_equal. rewrite <-Ed2.
      eapply cst_clean; [exact Hc2|by eapply Hlb|done]. }
    eapply wp_mono; [eapply (clear_run s L V3); [done|done|]|].
    { rewrite (cst_clean dev c3 V3 ∅ ∅ start) by done. rewrite Hd3, dget_replay_other.
      - by rewrite Ed2, D1.
      - rewrite home_writes_fst. intros Hin. by apply start_not_home, (tx_ok_home L). }
    intros _ s4 (c4 & hz & -> & Hid4 & Hz & Hbz & Hd4 & Hw4).
    exists c4, (W1 ++ recovery_trace (replay (disk c) W1) hz). split_and!; [done|done| | |].
    + right. exists hb, hz. do 3 (split; [done|]). split; [|done]. intros Hb0.
      assert (block_ok hb) as Hb1.
      { apply Hbb. rewrite (cst_clean dev c1 V1 (list_to_set L) ∅ start) by done. rewrite Hd1, dget_replay_other; [done|].
        rewrite log_writes_fst, elem_of_seqZ. lia. }
      split; [done|]. apply Hbz. rewrite (cst_clean dev c3 V3 ∅ ∅ start) by done. rewrite Hd3, dget_replay_other; [by rewrite Ed2, D1|].
      rewrite home_writes_fst. intros Hin. by apply start_not_home, (tx_ok_home L).
    + unfold recovery_trace. rewrite D1, <-EW. by rewrite !replay_app, Hd4, Hd3, Ed2.
    + unfold recovery_trace. rewrite D1, <-EW, Hw4, Hw3, Hw2, Hw1. unfold W1. by rewrite <-!app_assoc.
  - wp_run. assert (L = []) as -> by (destruct L; [done|cbn in *; lia]). exists c, [].
    split_and!; [|by apply idle_cst, (cst_ext dev c V); [intros n; by eapply cst_clean|]|by left|done|by rewrite app_nil_r].
    destruct s; cbn in *. by subst.
Qed.

(** The blocks of a commit are blocks. *)
Lemma replay_ok d w : (∀ n, block_ok (dget d n)) → Forall (λ nb, block_ok nb.2) w → ∀ n, block_ok (dget (replay d w) n).
Proof.
  revert d. induction w as [|[m b] w IH]; intros d Hd Hw; [done|]. apply list.Forall_cons_1 in Hw as [Hb Hw]. apply IH; [|done].
  intros n. rewrite dget_insert. cbn [fst snd]. destruct (n =? m); [exact Hb|apply Hd].
Qed.
Lemma commits_ok V L d W : (∀ n, block_ok (V n)) → (∀ n, block_ok (dget d n)) → commits V L d W → ∀ n, block_ok (dget (replay d W) n).
Proof.
  intros HV Hd [[_ ->]|(hb & hz & _ & _ & _ & Hok & ->)]; [done|]. destruct (Hok (Hd start)) as [Hb Hz]. rewrite replay_app.
  assert (∀ n, block_ok (dget (replay d (log_writes V L ++ [(start, hb)])) n)) as H1.
  { apply replay_ok; [done|]. apply Forall_app. split; [|by constructor]. apply Forall_lookup. intros i x Hx.
    unfold log_writes in Hx. rewrite list_lookup_imap in Hx. destruct (L !! i); [|done]. injection Hx as <-. apply HV. }
  apply replay_ok; [done|]. apply Forall_app. split; [|by constructor]. apply Forall_lookup. intros i x Hx.
  unfold home_writes in Hx. rewrite list_lookup_imap in Hx. destruct (hdr _ !! i); [|done]. injection Hx as <-. apply H1.
Qed.

(** Every prefix of the writes of a commit leaves a log from which recovery
    makes either the old or the new contents of all blocks. *)
Lemma commit_atomic V L d W k :
  log_ok start nlog d → hdr (dget d start) = [] → tx_ok start nlog L →
  (∀ n, home start nlog n → n ∉ L → V n = dget d n) → commits V L d W →
  let d' := replay d (take k W) in
  log_ok start nlog d' ∧
  ((∀ n, home start nlog n → logical start d' n = dget d n) ∨
   (∀ n, home start nlog n → logical start d' n = V n)) ∧
  (take k W = W → hdr (dget d' start) = [] ∧ ∀ n, home start nlog n → dget d' n = V n).
Proof.
  intros Hok Hh Htx HV HW d'.
  assert (∀ n, logical start d n = dget d n) as Hold.
  { intros n. apply logical_other. rewrite Hh. apply not_elem_of_nil. }
  destruct HW as [[-> ->]|(hb & hz & Hhb & Hhl & Hz & _ & ->)].
  { unfold d'. rewrite take_nil. cbn. split_and!; [done|left; intros; apply Hold|].
    intros _. split; [done|]. intros n Hn. by rewrite HV by set_solver. }
  set (W1 := log_writes V L ++ [(start, hb)]) in *.
  destruct (committed_disk V L d hb Htx) as (D1 & D2 & D3). fold W1 in D1, D2, D3.
  assert (log_ok start nlog (replay d W1)) as Hok1 by (split; rewrite D1; [done|by rewrite Hhb]).
  assert (∀ n, home start nlog n → logical start (replay d W1) n = V n) as Hnew.
  { intros n Hn. destruct (decide (n ∈ L)) as [Hin|Hin].
    - apply list_elem_of_lookup in Hin as [i Hi].
      rewrite (logical_logged _ L i n); [by apply D2|by rewrite D1|apply Htx|done].
    - rewrite logical_other by by rewrite D1, Hhb. rewrite D3 by done. by rewrite HV. }
  unfold d'. destruct (decide (k < length W1)%nat) as [Hk|Hk].
  - assert (take k (W1 ++ recovery_trace (replay d W1) hz) = take k (log_writes V L)) as ->.
    { unfold W1 in *. rewrite length_app in Hk. cbn in Hk. rewrite <-app_assoc.
      rewrite take_app_le by lia. done. }
    assert (∀ n, n ≤ start ∨ start + nlog ≤ n → dget (replay d (take k (log_writes V L))) n = dget d n) as E.
    { intros n Hn. apply dget_replay_other. intros Hin.
      assert (n ∈ (log_writes V L).*1) as Hin'.
      { rewrite <-(take_drop k (log_writes V L)), fmap_app. set_solver. }
      rewrite log_writes_fst in Hin'. apply elem_of_seqZ in Hin'. destruct Htx as (_ & _ & ? & _). lia. }
    assert (dget (replay d (take k (log_writes V L))) start = dget d start) as Es by (apply E; lia).
    split_and!.
    + destruct Hok. split; by rewrite Es.
    + left. intros n [Hn1 Hn2]. rewrite logical_other; [apply E; lia|]. rewrite Es, Hh. apply not_elem_of_nil.
    + intros HW. exfalso. apply (f_equal length) in HW. rewrite length_take, length_app in HW.
      unfold W1 in *. rewrite !length_app in *. cbn in *. lia.
  - rewrite take_app_ge by lia. rewrite replay_app. set (j := (k - length W1)%nat).
    destruct (recovery_prefix (replay d W1) hz j Hok1 Hz) as [Hok2 Hlog]. split_and!; [done| |].
    + right. intros n Hn. rewrite Hlog by done. by apply Hnew.
    + intros HW. apply app_inv_head in HW. rewrite HW.
      destruct (recovery_done (replay d W1) hz Hok1 Hz) as (E1 & _ & E2). split; [done|].
      intros n Hn. rewrite E2 by done. by apply Hnew.
Qed.

(** ** Transactions *)

(** A transaction is open: [L] are the blocks logged so far, [V] the contents
    the transaction sees, [H] the buffers it holds. *)
Definition lst (s : logst) (V : Z → block) (L : list Z) (H : gmap Z Z) : Prop :=
  lrun s L ∧ lg_locked s = false ∧ lg_committing s = false ∧ 0 < lg_outstanding s ∧
  cst dev (bcache s) V (list_to_set L) H.

(** Nothing is outstanding. *)
Definition quiet (s : logst) : Prop :=
  lrun s [] ∧ lg_locked s = false ∧ lg_committing s = false ∧ lg_outstanding s = 0 ∧
  idle dev (bcache s) ∧ log_ok start nlog (disk (bcache s)) ∧
  hdr (dget (disk (bcache s)) start) = [].

(** Nothing was written to the disk, no transaction began or ended. *)
Definition lframe (s s' : logst) : Prop :=
  disk (bcache s') = disk (bcache s) ∧ wtrace (bcache s') = wtrace (bcache s) ∧
  lg_outstanding s' = lg_outstanding s.

Lemma lframe_trans s1 s2 s3 : lframe s1 s2 → lframe s2 s3 → lframe s1 s3.
Proof. intros (? & ? & ?) (? & ? & ?). split_and!; congruence. Qed.

Definition add_log (L : list Z) (n : Z) : list Z := if decide (n ∈ L) then L else L ++ [n].

(** There is room for another block in the log. *)
Definition log_room (L : list Z) : Prop :=
  Z.of_nat (length L) < nlog - 1 ∧ (length L < 29)%nat.

Lemma tx_ok_add L n : tx_ok start nlog L → log_room L → home start nlog n → tx_ok start nlog (add_log L n).
Proof.
  intros (H1 & H2 & H3 & H4) [R1 R2] Hn. unfold add_log. case_decide as Hin; [done|].
  unfold tx_ok. rewrite length_app. cbn. split_and!; [|by apply Forall_app_2; [|constructor]|lia|lia].
  apply list.NoDup_app. split_and!; [done|set_solver|apply NoDup_singleton].
Qed.

Lemma log_index_run s L n :
  lh_is s L → home start nlog n → Forall (home start nlog) L →
  wp (log_index n) (λ i s', s' = s ∧
    ∃ j, i = Z.of_nat j ∧ (L !! j = Some n ∨ n ∉ L ∧ j = length L)) s.
Proof.
  intros Hlh Hn HF. pose proof Hlh as (_ & En & _). unfold log_index. wp_run. rewrite En, Nat2Z.id.
  apply (wp_loop (λ i s', s' = s ∧ ∃ j, i = Z.of_nat j ∧ (j ≤ length L)%nat ∧ n ∉ take j L)
    (λ i _, (length L - Z.to_nat i)%nat)); [lia| |].
  { split; [done|]. exists 0%nat. rewrite take_0. split_and!; [done|lia|set_solver]. }
  intros i s' (-> & j & -> & Hj & Hnot). destruct (Z.ltb_spec (Z.of_nat j) (Z.of_nat (length L))).
  - destruct (lookup_lt_is_Some_2 L j) as [m Hm]; [lia|].
    wp_run. eapply (wp_get_lh _ L); [done|lia|by rewrite Nat2Z.id|].
    assert (home start nlog m) as Hhm by (rewrite Forall_lookup in HF; by eapply HF).
    rewrite (home_u32 m Hhm). destruct (Z.eqb_spec m n) as [->|Hne]; wp_run.
    + eauto.
    + split; [split; [done|]|lia]. exists (S j). split_and!; [lia|lia|].
      rewrite (take_S_r _ _ _ Hm). set_solver.
  - wp_run. split; [done|]. exists j. split; [done|]. right. assert (j = length L) as -> by lia.
    by rewrite firstn_all in Hnot.
Qed.

Lemma put_lh_run s L j n Q :
  lh_is s L → (j < 30)%nat → Q tt (set_lh_block (<[j := n]> (lh_block s)) s) →
  wp (put_lh (Z.of_nat j) n) Q s.
Proof.
  intros Hlh Hj HQ. unfold put_lh, LOGSIZE, MAXOPBLOCKS. ztest. wp_run. by rewrite Nat2Z.id.
Qed.

Lemma log_write_run s V L H n b :
  lst s V L H → H !! n = Some b → home start nlog n → log_room L →
  wp (log_write b)
     (λ _ s', lst s' V (add_log L n) H ∧ lframe s s') s.
Proof.
  intros ((Hdev & Hst & Hsz & Hlh & Htx) & Hlk & Hcm & Hout & Hc) Hb Hn [R1 R2].
  pose proof Hlh as (Hl & En & Hp). unfold log_write. wp_run. apply wp_acquire; [done|]. wp_run.
  cbn [lh_n lg_size lg_outstanding set_lg_locked]. rewrite En, Hsz. unfold LOGSIZE, MAXOPBLOCKS. ztest.
  wp_run. cbn [bcache set_lg_locked].
  assert (b_blockno (bufat (bcache s) b) = n) as ->.
  { destruct Hc as (_ & _ & _ & _ & Hm). destruct (Hm n b Hb) as (Hs & _). by apply slot_at in Hs as (_ & _ & ?). }
  eapply wp_mono; [apply (log_index_run _ L); [done|done|apply Htx]|].
  intros i s1 (-> & j & -> & Hj). wp_run.
  assert (j ≤ length L)%nat as Hjl by (destruct Hj as [Hj|[_ ->]]; [apply lookup_lt_Some in Hj; lia|lia]).
  destruct Hn as [Hrg Hout']. rewrite i32_small by lia.
  eapply put_lh_run; [done|lia|]. wp_run. cbn [lh_n set_lh_block set_lg_locked]. rewrite En.
  unfold add_log. destruct Hj as [Hj|[Hnin ->]].
  - assert (j < length L)%nat by by eapply lookup_lt_Some. ztest. wp_run. apply wp_release; [done|].
    rewrite decide_True by by eapply list_elem_of_lookup_2.
    rewrite list_insert_id by (by eapply prefix_lookup_Some).
    split_and!; try done.
  - rewrite Z.eqb_refl, decide_False by done. wp_run.
    match goal with |- wp _ _ (set_lh_block ?l _) =>
      change (set_lh_block l (set_lg_locked true s)) with
        (set_bcache (bcache s) (set_lh_block l (set_lg_locked true s))) end.
    apply wp_inb. eapply wp_mono; [eapply cst_bpin; [done|done|by rewrite elem_of_list_to_set]|].
    intros [] c' (Hc' & Hd' & Hw'). wp_run. apply wp_release; [done|]. cbn.
    split_and!; try done. split_and!; try done.
    + split_and!; cbn; try done.
      * split_and!; cbn; [by rewrite length_insert|rewrite length_app; cbn; lia|].
        destruct Hp as [k Hk]. rewrite Hk in *. rewrite length_app in Hl.
        destruct k as [|x k]; [cbn in Hl; lia|]. exists k.
        rewrite insert_app_r_alt by lia. rewrite Nat.sub_diag. cbn. by rewrite <-app_assoc.
      * pose proof (tx_ok_add L n Htx (conj R1 R2) (conj Hrg Hout')) as Hadd. unfold add_log in Hadd.
        by rewrite decide_False in Hadd.
    + rewrite list_to_set_app_L, union_comm_L. cbn. rewrite union_empty_r_L. exact Hc'.
Qed.

Lemma wp_inb_lst {A} (m : M bst A) (P : A → bst → Prop) Q s :
  wp m P (bcache s) → (∀ a c, P a c → Q a (set_bcache c s)) → wp (inb m) Q s.
Proof. intros Hm HQ. rewrite <-(set_bcache_id s) at 1. apply wp_inb. by eapply wp_mono. Qed.

Lemma lst_bread s V L H n :
  lst s V L H → H !! n = None → n ∈ L ∨ (length L + size H < 30)%nat →
  wp (inb (bread dev n)) (λ b s', lst s' V L (<[n := b]> H) ∧ lframe s s') s.
Proof.
  intros (Hr & Hlk & Hcm & Ho & Hc) HH Hsz. eapply wp_inb_lst; [apply cst_bread; [exact Hc|done|]|].
  - destruct Hsz as [Hin|Hsz]; [left; by apply elem_of_list_to_set|right].
    assert (size (list_to_set L : gset Z) ≤ length L)%nat; [|lia]. apply size_list_to_set_le.
  - intros b c (Hc' & Hd & Hw). split; [split_and!; done|done].
Qed.

Lemma lst_data s V L H n b : lst s V L H → H !! n = Some b → b_data (bufat (bcache s) b) = V n.
Proof. intros (_ & _ & _ & _ & Hc). by eapply cst_data. Qed.

Lemma lst_ext s V V' L H : (∀ n, V n = V' n) → lst s V L H → lst s V' L H.
Proof. intros E (? & ? & ? & ? & ?). split_and!; try done. by eapply cst_ext. Qed.

Lemma lst_modify s V L H n b f :
  lst s V L H → H !! n = Some b →
  wp (set_bdata b f) (λ _ s', lst s' (vset V n (f (V n))) L H ∧ lframe s s') s.
Proof.
  intros (Hr & Hlk & Hcm & Ho & Hc) HH. pose proof (cst_modify dev _ V _ H n b f Hc HH) as (Hc' & Hd & Hw).
  rewrite <-(set_bcache_id s) at 1. apply wp_set_bdata. split; [split_and!; done|done].
Qed.

Lemma lst_brelse s V L H n b :
  lst s V L H → H !! n = Some b → (n ∉ L → V n = dget (disk (bcache s)) n) →
  wp (inb (brelse b)) (λ _ s', lst s' V L (delete n H) ∧ lframe s s') s.
Proof.
  intros (Hr & Hlk & Hcm & Ho & Hc) HH Hcl.
  eapply wp_inb_lst; [eapply cst_brelse; [exact Hc|exact HH|]|].
  - intros Hn. apply Hcl. by rewrite elem_of_list_to_set in Hn.
  - intros b' c (Hc' & Hd & Hw). split; [split_and!; done|done].
Qed.

Lemma lst_clean s V L H n :
  lst s V L H → n ∉ L → H !! n = None → V n = dget (disk (bcache s)) n.
Proof.
  intros (_ & _ & _ & _ & Hc) Hn HH. eapply cst_clean; [exact Hc| |done]. by rewrite elem_of_list_to_set.
Qed.

Lemma begin_op_run s :
  quiet s →
  wp begin_op (λ _ s', lst s' (dget (disk (bcache s))) [] ∅ ∧ lg_outstanding s' = 1 ∧
    bcache s' = bcache s) s.
Proof.
  intros (Hr & Hlk & Hcm & Ho & Hid & Hok & Hh). pose proof Hr as (_ & _ & _ & (_ & En & _) & _).
  unfold begin_op. wp_run. apply wp_acquire; [done|]. wp_run.
  cbn [lh_n lg_committing lg_outstanding set_lg_locked]. rewrite Hcm, En, Ho. cbn.
  wp_run. apply wp_release; [done|]. cbn. split_and!; try done. split_and!; try done.
  by apply idle_cst.
Qed.

Lemma end_op_run s V L :
  lst s V L ∅ → lg_outstanding s = 1 → length (V start) = 1024%nat →
  log_ok start nlog (disk (bcache s)) → hdr (dget (disk (bcache s)) start) = [] →
  wp end_op
     (λ _ s', ∃ W, quiet s' ∧ commits V L (disk (bcache s)) W ∧
        disk (bcache s') = replay (disk (bcache s)) W ∧
        wtrace (bcache s') = wtrace (bcache s) ++ W) s.
Proof.
  intros (Hr & Hlk & Hcm & _ & Hc) Ho Hlen Hok Hh. pose proof Hr as (Hdev & Hst & Hsz & Hlh & Htx).
  unfold end_op. wp_run. apply wp_acquire; [done|]. wp_run.
  cbn [lg_committing lg_outstanding set_outstanding set_lg_locked]. rewrite Hcm, Ho.
  change (1 - 1 =? 0) with true. cbv iota. wp_run. apply wp_release; [done|]. wp_run. set (s1 := set_lg_locked false _).
  change s1 with (set_bcache (bcache s) s1).
  eapply wp_mono; [by apply (commit_run s1 L V)|].
  intros _ s2 (c & W & -> & Hid & HW & Hd & Hw). wp_run.
  apply wp_acquire; [done|]. wp_run. apply wp_release; [done|]. cbn.
  assert (∀ n, home start nlog n → n ∉ L → V n = dget (disk (bcache s)) n) as HV.
  { intros n _ Hn. eapply cst_clean; [exact Hc| |done]. by rewrite elem_of_list_to_set. }
  destruct (commit_atomic V L (disk (bcache s)) W (length W) Hok Hh Htx HV HW) as (Hok' & _ & Hdone).
  rewrite firstn_all in Hok', Hdone. destruct (Hdone eq_refl) as [Hh' _].
  rewrite <-Hd in Hok', Hh'. exists W. split_and!; try done. split_and!; try done.
  split_and!; [done..|split_and!; [apply Hlh|done|apply prefix_nil]|apply tx_ok_nil].
Qed.

End ops.

(** ** A transaction of a system call *)

(** A system call that updates blocks one after the other. *)
Fixpoint run_updates (ws : list (Z * (block → block))) : M logst unit :=
  match ws with
  | [] => ret tt
  | (n, f) :: ws' =>
      dev <- gets lg_dev ;;
      b <- inb (bread dev n) ;;
      set_bdata b f ;;
      log_write b ;;
      inb (brelse b) ;;
      run_updates ws'
  end.
Definition run_txn (ws : list (Z * (block → block))) : M logst unit :=
  begin_op ;; run_updates ws ;; end_op.

(** What it means to do to the contents. *)
Fixpoint updates (V : Z → block) (ws : list (Z * (block → block))) : Z → block :=
  match ws with
  | [] => V
  | (n, f) :: ws' => updates (vset V n (f (V n))) ws'
  end.

(** The machine boots: the cache and the log structures are zero. *)
Definition boot_state (d : disk_t) (pid : Z) : logst :=
  mkLog false 0 0 0 false 0 0 (replicate 30 0)
    (mkB false (replicate 31 (bss_buf zero_block)) d [] pid).
Definition boot (dev : Z) (sb : superblock) (d : disk_t) (pid : Z) : outcome logst unit :=
  (inb binit ;; initlog dev sb) (boot_state d pid).

(** The machine boots on [d], crashes after some of the writes of recovery,
    and so on any number of times. *)
Inductive crash_loop (dev : Z) (sb : superblock) (pid : Z) : disk_t → disk_t → Prop :=
| crash_stop d : crash_loop dev sb pid d d
| crash_boot d s k d' :
    boot dev sb d pid = OK tt s →
    crash_loop dev sb pid (replay d (take k (wtrace (bcache s)))) d' →
    crash_loop dev sb pid d d'.

Lemma updates_other V ws n : n ∉ ws.*1 → updates V ws n = V n.
Proof.
  revert V. induction ws as [|[m f] ws IH]; intros V Hn; cbn; [done|].
  rewrite IH by set_solver. apply vset_other. set_solver.
Qed.

Section transactions.
Context (dev start nlog : Z) (Hgeom : geom_ok start nlog).

Lemma run_updates_run ws s V L :
  lst dev start nlog s V L ∅ → Forall (home start nlog) ws.*1 →
  Z.of_nat (length L + length ws) < nlog → (length L + length ws < 30)%nat →
  wp (run_updates ws)
     (λ _ s', ∃ L', lst dev start nlog s' (updates V ws) L' ∅ ∧ lframe s s') s.
Proof.
  revert s V L. induction ws as [|[n f] ws IH]; intros s V L Hs Hhome H1 H2; cbn [run_updates updates].
  { wp_run. by exists L. }
  cbn in Hhome, H1, H2. apply Forall_cons_1 in Hhome as [Hn Hhome].
  pose proof Hs as ((Hdev & _) & _). wp_run. rewrite Hdev.
  eapply wp_mono; [apply (lst_bread dev start nlog Hgeom); [done|done|right; rewrite map_size_empty; lia]|].
  intros b s1 [Hs1 F1]. set (H := <[n:=b]> ∅ : gmap Z Z) in *.
  assert (H !! n = Some b) as HH by apply lookup_insert_eq. wp_run.
  eapply wp_mono; [by apply (lst_modify dev start nlog s1 V L H n b f)|]. intros _ s2 [Hs2 F2]. wp_run.
  eapply wp_mono; [eapply (log_write_run dev start nlog Hgeom); [exact Hs2|exact HH|done|split; lia]|].
  intros _ s3 [Hs3 F3]. wp_run.
  eapply wp_mono; [eapply (lst_brelse dev start nlog); [exact Hs3|exact HH|]|].
  { intros Hnot. exfalso. apply Hnot. unfold add_log. case_decide; set_solver. }
  intros _ s4 [Hs4 F4]. unfold H in Hs4. rewrite delete_insert_id in Hs4 by done.
  assert (length (add_log L n) ≤ length L + 1)%nat as Hlen
    by (unfold add_log; case_decide; rewrite ?length_app; cbn; lia).
  eapply wp_mono; [eapply (IH s4 _ (add_log L n)); [done|done|lia|lia]|].
  intros _ s5 (L' & Hs5 & F5). exists L'. split; [done|]. eauto using lframe_trans.
Qed.

Lemma run_txn_run ws s :
  quiet dev start nlog s → Forall (home start nlog) ws.*1 →
  Z.of_nat (length ws) < nlog → (length ws < 30)%nat →
  wp (run_txn ws)
     (λ _ s', ∃ W L, let V := updates (dget (disk (bcache s))) ws in
        quiet dev start nlog s' ∧ tx_ok start nlog L ∧ commits start V L (disk (bcache s)) W ∧
        (∀ n, n ∉ L → V n = dget (disk (bcache s)) n) ∧
        wtrace (bcache s') = wtrace (bcache s) ++ W ∧
        disk (bcache s') = replay (disk (bcache s)) W) s.
Proof.
  intros Hq Hhome H1 H2. unfold run_txn. wp_run. eapply wp_mono; [by apply (begin_op_run dev start nlog)|].
  intros _ s1 (Hs1 & Ho1 & E1). wp_run.
  eapply wp_mono; [eapply (run_updates_run ws s1 _ []); [exact Hs1|done|cbn; lia|cbn; lia]|].
  intros _ s2 (L & Hs2 & (Ed & Ew & Eo)). destruct Hq as (_ & _ & _ & _ & _ & Hok & Hh).
  rewrite E1 in Ed, Ew. eapply wp_mono; [eapply (end_op_run dev start nlog Hgeom); [exact Hs2| | | |]|].
  - congruence.
  - rewrite updates_other; [apply Hok|]. intros Hin. rewrite Forall_forall in Hhome.
    eapply (start_not_home start nlog Hgeom), Hhome. by apply list_elem_of_In.
  - by rewrite Ed.
  - by rewrite Ed.
  - rewrite Ed, Ew. intros _ s3 (W & Hq3 & HW & Hd & Hw). exists W, L. split_and!; try done.
    + apply Hs2.
    + intros n Hn. rewrite (lst_clean dev start nlog s2 _ L ∅ n Hs2 Hn); [by rewrite Ed|done].
Qed.

(** What booting does to a disk whose log is intact. *)
Definition booted (d : disk_t) (s : logst) : Prop :=
  ∃ hz, quiet dev start nlog s ∧ empty_hdr hz ∧
    wtrace (bcache s) = recovery_trace start d hz ∧
    disk (bcache s) = replay d (recovery_trace start d hz).

Lemma initlog_run sb s c :
  sb_logstart sb = start → sb_nlog sb = nlog → length (lh_block s) = 30%nat →
  lg_outstanding s = 0 → lg_committing s = false → wtrace c = [] →
  idle dev c → log_ok start nlog (disk c) →
  wp (initlog dev sb) (λ _ s', booted (disk c) s') (set_bcache c s).
Proof.
  intros Hst Hn Hl Ho Hc Hw Hid Hok. destruct Hgeom as (G1 & G2 & G3). unfold initlog.
  change (BSIZE <=? 4 + 4 * LOGSIZE) with false. cbv iota. wp_run.
  rewrite Hst, Hn, !i32_small by lia.
  eapply wp_mono; [by apply (recover_run dev start nlog Hgeom
    (set_geometry start nlog dev (set_lg_locked false s)) c)|].
  intros _ s' (c' & s1 & hz & -> & Hr & Hid' & Hz & E1 & E2 & E3 & Ed & Ew).
  rewrite Hw in Ew. exists hz. split_and!; [|done..].
  destruct (recovery_done start nlog Hgeom (disk c) hz Hok Hz) as (R1 & R2 & _).
  rewrite <-Ed in R1, R2. split_and!; try done; [exact (eq_trans E3 Hc)|exact (eq_trans E2 Ho)].
Qed.

Lemma boot_run sb d pid :
  dev ≠ 0 → sb_logstart sb = start → sb_nlog sb = nlog → log_ok start nlog d →
  ∃ s, boot dev sb d pid = OK tt s ∧ booted d s.
Proof.
  intros Hdev Hst Hn Hok. unfold boot.
  assert (wp (inb binit ;; initlog dev sb) (λ _ s, booted d s) (boot_state d pid)) as W.
  { apply wp_bind. eapply wp_inb_lst; [apply (binit_run dev zero_block d [] pid false Hdev)|].
    intros [] c (Hid & Hd & Hw & _). rewrite <-Hd in Hok |- *. by apply initlog_run. }
  destruct (wp_run_OK _ _ _ W) as ([] & s & E & H1). exists s. split; [exact E|exact H1].
Qed.

(** Crashes during recovery do not change what recovery will produce. *)
Lemma crash_loop_logical sb pid d d' :
  dev ≠ 0 → sb_logstart sb = start → sb_nlog sb = nlog → log_ok start nlog d →
  crash_loop dev sb pid d d' →
  log_ok start nlog d' ∧ ∀ n, home start nlog n → logical start d' n = logical start d n.
Proof.
  intros Hdev Hst Hn Hok Hc. revert Hok. induction Hc as [d|d s k d' Hb Hc IH]; intros Hok; [done|].
  destruct (boot_run sb d pid Hdev Hst Hn Hok) as (s1 & E & hz & _ & Hz & Hw & _).
  rewrite Hb in E. injection E as ->. rewrite Hw in IH.
  destruct (recovery_prefix start nlog Hgeom d hz k Hok Hz) as [Hok' Hlog].
  destruct (IH Hok') as [Hok'' Hlog']. split; [done|]. intros n Hhn. rewrite Hlog', Hlog by done. done.
Qed.

(** A committed transaction survives, or is undone as a whole: the machine stops
    after [k] of the writes [W] of the commit. *)
Lemma commit_crash sb s V L W pid k d :
  dev ≠ 0 → sb_logstart sb = start → sb_nlog sb = nlog → quiet dev start nlog s → tx_ok start nlog L →
  (∀ n, home start nlog n → n ∉ L → V n = dget (disk (bcache s)) n) → commits start V L (disk (bcache s)) W →
  crash_loop dev sb pid (replay (disk (bcache s)) (take k W)) d →
  ∃ s'', boot dev sb d pid = OK tt s'' ∧ quiet dev start nlog s'' ∧
    ((∀ n, home start nlog n → dget (disk (bcache s'')) n = dget (disk (bcache s)) n) ∧ (k < length W)%nat ∨
     (∀ n, home start nlog n → dget (disk (bcache s'')) n = V n)).
Proof.
  intros Hdev E1 E2 (_ & _ & _ & _ & _ & Hok & Hh) Htx HV HW Hc.
  destruct (commit_atomic start nlog Hgeom V L _ W k Hok Hh Htx HV HW) as (Hok' & Hcase & Hdone).
  destruct (crash_loop_logical sb pid _ d Hdev E1 E2 Hok' Hc) as [Hokd Hlogd].
  destruct (boot_run sb d pid Hdev E1 E2 Hokd) as (s'' & Eb & hz & Hqb & Hz & _ & Hdb).
  exists s''. split; [exact Eb|]. split; [exact Hqb|].
  destruct (recovery_done start nlog Hgeom d hz Hokd Hz) as (_ & _ & Hfin). rewrite <-Hdb in Hfin.
  destruct (decide (k < length W)%nat) as [Hk|Hk].
  - destruct Hcase as [Ho|Hn].
    + left. split; [|done]. intros n Hn. rewrite Hfin, Hlogd, Ho; done.
    + right. intros n Hnh. rewrite Hfin, Hlogd, Hn; done.
  - right. rewrite take_ge in Hdone, Hlogd by lia. destruct (Hdone eq_refl) as [Hh' Hnew]. intros n Hnh.
    rewrite Hfin, Hlogd by done. rewrite (logical_other start) by (rewrite Hh'; apply not_elem_of_nil). by apply Hnew.
Qed.

End transactions.


Definition ex_sb : superblock := mkSB 270544960 1000 954 200 30 2 32 45.

Lemma ex_geom : geom_ok 2 30.
Proof. split_and!; lia. Qed.

Lemma ex_log_ok : log_ok 2 30 ∅.
Proof.
  split; [done|]. assert (hdr (dget ∅ 2) = []) as -> by (vm_compute; reflexivity).
  by apply tx_ok_nil, ex_geom.
Qed.


(** Three concurrent system calls that [begin_op] admits, each of which logs
    MAXOPBLOCKS blocks as it may. *)
Definition ten_blocks (n : Z) : list (Z * (block → block)) :=
  (λ i, (n + i, λ b, b)) <$> seqZ 0 MAXOPBLOCKS.
Definition three_ops : M logst unit :=
  begin_op ;; begin_op ;; begin_op ;;
  run_updates (ten_blocks 100) ;; run_updates (ten_blocks 200) ;; run_updates (ten_blocks 300) ;;
  end_op ;; end_op ;; end_op.

