(* ===== verification/Grep.v ===== *)
(** * The grep program: user/grep.c

    Strings are the lists of their bytes before the terminating nul, and a
    pointer into a string is the suffix that starts there.  The matcher is
    related to the language of a regular expression; the driver loop is related
    to the list of lines of its input. *)

From stdpp Require Import base gmap list strings numbers.
From S2P Require Import Prelude.

Definition STAR : Z := 42.
Definition DOT : Z := 46.
Definition CARET : Z := 94.
Definition DOLLAR : Z := 36.
Definition NL : Z := 10.

(** [matchstar]: search for [c*re] at beginning of text, where [mh] is the
    matcher of [re]. *)
Fixpoint matchstar (mh : list Z → bool) (c : Z) (text : list Z) : bool :=
  if mh text then true
  else
    match text with
    | [] => false
    | t :: text' => if (t =? c) || (c =? DOT) then matchstar mh c text' else false
    end.

(** [matchhere]: search for [re] at beginning of text. *)
Fixpoint matchhere (re text : list Z) : bool :=
  match re with
  | [] => true
  | c :: re1 =>
      match re1 with
      | c1 :: re2 =>
          if c1 =? STAR then matchstar (matchhere re2) c text
          else
            match text with
            | t :: text' => if (c =? DOT) || (c =? t) then matchhere re1 text' else false
            | [] => false
            end
      | [] =>
          if c =? DOLLAR then match text with [] => true | _ => false end
          else
            match text with
            | t :: text' => if (c =? DOT) || (c =? t) then matchhere re1 text' else false
            | [] => false
            end
      end
  end.

(** The [do ... while] of [match]: every suffix, the empty one included. *)
Fixpoint match_from (re text : list Z) : bool :=
  if matchhere re text then true
  else match text with [] => false | _ :: text' => match_from re text' end.

Definition match_ (re text : list Z) : bool :=
  match re with
  | c :: re1 => if c =? CARET then matchhere re1 text else match_from re text
  | [] => match_from re text
  end.

(** ** The driver *)

(** [strchr(p, c)]: the bytes before the first [c] and those after it; [None]
    when there is none before the end of the string. *)
Fixpoint strchr (p : list Z) (c : Z) : option (list Z * list Z) :=
  match p with
  | [] => None
  | x :: p' =>
      if x =? 0 then None
      else if x =? c then Some ([], p')
      else match strchr p' c with
           | Some (u, v) => Some (x :: u, v)
           | None => None
           end
  end.

(** The string at a pointer into a buffer ends at the first nul. *)
Fixpoint cstring (p : list Z) : list Z :=
  match p with
  | [] => []
  | x :: p' => if x =? 0 then [] else x :: cstring p'
  end.

(** The inner loop: writes the matching lines of the buffer, and returns the
    rest of it after the last newline.  Each turn consumes a newline. *)
Fixpoint grep_lines (fuel : nat) (pattern p : list Z) (out : list (list Z))
    : option (list Z * list (list Z)) :=
  match fuel with
  | O => None
  | S f =>
      match strchr p NL with
      | None => Some (p, out)
      | Some (line, rest) =>
          let out' := if match_ pattern (cstring line) then out ++ [line ++ [NL]] else out in
          grep_lines f pattern rest out'
      end
  end.

Definition BUFSIZE : Z := 1024.

(** What [read] returns: at most [n] bytes of the input; how many of those
    available it returns is up to the file ([want], the next element of a
    list). *)
Definition read_in (n : Z) (want : Z) (input : list Z) : list Z * list Z :=
  let k := Z.to_nat (Z.min n (Z.max 1 want)) in (take k input, drop k input).

(** [grep]: [buf] holds the bytes buf[0..m). *)
Fixpoint grep (fuel : nat) (pattern : list Z) (wants : list Z) (input buf : list Z)
    (out : list (list Z)) : option (list (list Z)) :=
  match fuel with
  | O => None
  | S f =>
      let m := Z.of_nat (length buf) in
      let '(chunk, input') := read_in (BUFSIZE - m - 1) (default 1 (head wants)) input in
      match chunk with
      | [] => Some out
      | _ =>
          match grep_lines (S (length (buf ++ chunk))) pattern (buf ++ chunk) out with
          | Some (rest, out') => grep f pattern (tail wants) input' rest out'
          | None => None
          end
      end
  end.

(** ** Regular expressions and their languages *)

Inductive item := Chr (c : Z) | Any | Many (c : Z).

Definition charset (c x : Z) : bool := (c =? DOT) || (c =? x).

(** The items of a pattern after [^], and whether it ends with [$]. *)
Fixpoint parse (re : list Z) : list item * bool :=
  match re with
  | [] => ([], false)
  | c :: re1 =>
      match re1 with
      | c1 :: re2 =>
          if c1 =? STAR then let '(r, e) := parse re2 in (Many c :: r, e)
          else let '(r, e) := parse re1 in ((if c =? DOT then Any else Chr c) :: r, e)
      | [] => if c =? DOLLAR then ([], true) else ([if c =? DOT then Any else Chr c], false)
      end
  end.

Definition ilang (i : item) (w : list Z) : Prop :=
  match i with
  | Chr c => w = [c]
  | Any => ∃ x, w = [x]
  | Many c => Forall (λ x, charset c x = true) w
  end.
Fixpoint lang (r : list item) (w : list Z) : Prop :=
  match r with
  | [] => w = []
  | i :: r' => ∃ u v, w = u ++ v ∧ ilang i u ∧ lang r' v
  end.

(** The text starts with a word of the pattern; the word is the whole text
    when the pattern ends with [$]. *)
Definition here (re text : list Z) : Prop :=
  ∃ w post, text = w ++ post ∧ lang (parse re).1 w ∧ ((parse re).2 = true → post = []).

Lemma matchstar_spec mh c text :
  matchstar mh c text = true ↔
  ∃ u v, text = u ++ v ∧ Forall (λ x, charset c x = true) u ∧ mh v = true.
Proof.
  induction text as [|t text IH]; cbn [matchstar].
  - destruct (mh []) eqn:E; split; try done.
    + intros _. by exists [], [].
    + intros (u & v & Huv & _ & Hv). symmetry in Huv. apply app_eq_nil in Huv as [-> ->]. congruence.
  - destruct (mh (t :: text)) eqn:E.
    { split; [|done]. intros _. by exists [], (t :: text). }
    assert ((t =? c) || (c =? DOT) = charset c t) as ->.
    { unfold charset. rewrite orb_comm. f_equal. apply Z.eqb_sym. }
    destruct (charset c t) eqn:Ec.
    + rewrite IH. split.
      * intros (u & v & -> & Hu & Hv). exists (t :: u), v. by repeat constructor.
      * intros (u & v & Huv & Hu & Hv). destruct u as [|x u]; cbn in Huv; [congruence|].
        injection Huv as -> ->. apply Forall_cons_1 in Hu as [_ Hu]. by exists u, v.
    + split; [done|]. intros (u & v & Huv & Hu & Hv). destruct u as [|x u]; cbn in Huv; [congruence|].
      injection Huv as -> ->. apply Forall_cons_1 in Hu as [Hu _]. congruence.
Qed.

(** One character. *)
Lemma here_char c r e t text (P : list Z → Prop) :
  (∀ x, P x ↔ ∃ w post, x = w ++ post ∧ lang r w ∧ (e = true → post = [])) →
  (∃ w post, t :: text = w ++ post ∧ lang ((if c =? DOT then Any else Chr c) :: r) w ∧ (e = true → post = []))
  ↔ charset c t = true ∧ P text.
Proof.
  intros HP. rewrite HP. unfold charset. split.
  - intros (w & post & E & (u & v & -> & Hu & Hv) & He).
    assert (∃ x, u = [x] ∧ ((c =? DOT) || (c =? x)) = true) as (x & -> & Hx).
    { destruct (c =? DOT); cbn in Hu; [by destruct Hu as [x ->]; eauto|subst; exists c].
      split; [done|]. by rewrite Z.eqb_refl, orb_true_r. }
    cbn in E. injection E as -> ->. split; [done|]. by exists v, post.
  - intros (Hc & w & post & -> & Hw & He). exists (t :: w), post. split_and!; [done| |done].
    exists [t], w. split_and!; [done| |done]. destruct (c =? DOT); cbn in *; [eauto|].
    apply Z.eqb_eq in Hc. by subst.
Qed.

Lemma not_here_char c r e :
  ¬ (∃ w post, ([] : list Z) = w ++ post ∧ lang ((if c =? DOT then Any else Chr c) :: r) w ∧ (e = true → post = [])).
Proof.
  intros (w & post & E & (u & v & -> & Hu & Hv) & _). symmetry in E. apply app_eq_nil in E as [E _].
  apply app_eq_nil in E as [-> _]. destruct (c =? DOT); cbn in Hu; [by destruct Hu|done].
Qed.

Lemma matchhere_spec re text : matchhere re text = true ↔ here re text.
Proof.
  remember (length re) as k eqn:Hk. assert (length re ≤ k)%nat as Hle by lia. clear Hk.
  revert re text Hle. induction k as [|k IH]; intros re text Hle.
  { destruct re; [|cbn in Hle; lia]. split; [|done]. intros _. by exists [], text. }
  destruct re as [|c re1]; [split; [intros _; by exists [], text|done]|]. cbn in Hle.
  assert ((parse (c :: re1)).1 = (if c =? DOT then Any else Chr c) :: (parse re1).1 →
    (parse (c :: re1)).2 = (parse re1).2 →
    match text with t :: text' => if (c =? DOT) || (c =? t) then matchhere re1 text' else false
     | [] => false end = true ↔ here (c :: re1) text) as Hchar.
  { intros E1 E2. unfold here. rewrite E1, E2. destruct text as [|t text].
    - split; [done|]. intros H. by apply not_here_char in H.
    - rewrite (here_char c _ _ t text (here re1)) by done.
      change ((c =? DOT) || (c =? t)) with (charset c t). destruct (charset c t).
      + rewrite IH by lia. tauto.
      + naive_solver. }
  destruct re1 as [|c1 re2]; cbn [matchhere].
  - destruct (c =? DOLLAR) eqn:Ed.
    + assert (parse [c] = ([], true)) as E by (cbn; by rewrite Ed). unfold here. rewrite E. cbn.
      destruct text as [|t text]; split; try done.
      * intros _. by exists [], [].
      * intros (w & post & E' & -> & Hp). by rewrite (Hp eq_refl) in E'.
    + apply Hchar; cbn; by rewrite Ed.
  - destruct (c1 =? STAR) eqn:Es.
    + assert (parse (c :: c1 :: re2) = (Many c :: (parse re2).1, (parse re2).2)) as E.
      { cbn [parse]. rewrite Es. by destruct (parse re2). }
      rewrite matchstar_spec. unfold here. rewrite E. cbn [fst snd lang ilang]. split.
      * intros (u & v & -> & Hu & Hv). cbn in Hle. apply IH in Hv as (w & post & -> & Hw & Hp); [|lia].
        exists (u ++ w), post. rewrite app_assoc. eauto 10.
      * intros (w & post & -> & (u & v & -> & Hu & Hv) & Hp). exists u, (v ++ post).
        rewrite app_assoc. split_and!; [done|done|]. cbn in Hle. apply IH; [lia|]. by exists v, post.
    + assert (parse (c :: c1 :: re2) =
        let '(r, e) := parse (c1 :: re2) in ((if c =? DOT then Any else Chr c) :: r, e)) as E.
      { cbn [parse]. by rewrite Es. }
      apply Hchar; rewrite E; by destruct (parse (c1 :: re2)).
Qed.

Lemma match_from_spec re text :
  match_from re text = true ↔ ∃ pre t, text = pre ++ t ∧ here re t.
Proof.
  induction text as [|x text IH]; cbn [match_from]; destruct (matchhere re _) eqn:E.
  - split; [|done]. intros _. exists [], []. split; [done|]. by apply matchhere_spec.
  - split; [done|]. intros (pre & t & Ep & Hh). symmetry in Ep. apply app_eq_nil in Ep as [-> ->].
    apply matchhere_spec in Hh. congruence.
  - split; [|done]. intros _. exists [], (x :: text). split; [done|]. by apply matchhere_spec.
  - rewrite IH. split.
    + intros (pre & t & -> & Hh). by exists (x :: pre), t.
    + intros (pre & t & Ep & Hh). destruct pre as [|y pre]; cbn in Ep.
      * subst. apply matchhere_spec in Hh. congruence.
      * injection Ep as -> ->. by exists pre, t.
Qed.

(** C35. The matcher decides regular expression search: [match] returns 1
    exactly when the text contains a word of the language of the pattern, at
    its start when the pattern begins with [^], at its end when it ends with
    [$]. *)
Theorem match_decides_language re text :
  match_ re text = true ↔
  ∃ pre w post, text = pre ++ w ++ post ∧
    let body := match re with c :: r => if c =? CARET then r else re | [] => re end in
    lang (parse body).1 w ∧ ((parse body).2 = true → post = []) ∧
    (head re = Some CARET → pre = []).
Proof.
  destruct re as [|c r]; cbn [match_ head].
  - rewrite match_from_spec. unfold here. split.
    + intros (pre & t & -> & w & post & -> & Hw & Hp). by exists pre, w, post.
    + intros (pre & w & post & -> & Hw & Hp & _). exists pre, (w ++ post). split; [done|]. by exists w, post.
  - destruct (Z.eqb_spec c CARET) as [->|Hc].
    + rewrite matchhere_spec. unfold here. split.
      * intros (w & post & -> & Hw & Hp). by exists [], w, post.
      * intros (pre & w & post & -> & Hw & Hp & Hpre). rewrite (Hpre eq_refl). by exists w, post.
    + rewrite match_from_spec. unfold here. split.
      * intros (pre & t & -> & w & post & -> & Hw & Hp). exists pre, w, post. split_and!; try done.
        intros [= ?]. done.
      * intros (pre & w & post & -> & Hw & Hp & _). exists pre, (w ++ post). split; [done|]. by exists w, post.
Qed.

(** ** The lines of the input *)

(** The complete lines of a byte stream, and what follows the last newline. *)
Fixpoint lines (s : list Z) : list (list Z) * list Z :=
  match s with
  | [] => ([], [])
  | x :: s' =>
      let '(ls, r) := lines s' in
      if x =? NL then ([] :: ls, r)
      else match ls with [] => ([], x :: r) | l :: ls' => ((x :: l) :: ls', r) end
  end.

Definition nonul (s : list Z) : Prop := Forall (λ x, x ≠ 0) s.

(** The lines [grep] prints. *)
Definition selected (pattern : list Z) (ls : list (list Z)) : list (list Z) :=
  (λ l, l ++ [NL]) <$> filter (λ l, match_ pattern l = true) ls.

Lemma selected_app pattern l1 l2 : selected pattern (l1 ++ l2) = selected pattern l1 ++ selected pattern l2.
Proof. unfold selected. by rewrite list.filter_app, fmap_app. Qed.

Lemma selected_cons pattern l ls :
  selected pattern (l :: ls) =
  (if match_ pattern l then [l ++ [NL]] else []) ++ selected pattern ls.
Proof.
  unfold selected. rewrite list.filter_cons.
  destruct (match_ pattern l) eqn:E; [rewrite decide_True by done|rewrite decide_False by congruence]; done.
Qed.

Lemma lines_app a b :
  lines (a ++ b) = ((lines a).1 ++ (lines ((lines a).2 ++ b)).1, (lines ((lines a).2 ++ b)).2).
Proof.
  induction a as [|x a IH]; cbn [app lines fst snd]; [by destruct (lines b)|].
  rewrite IH. destruct (lines a) as [la ra]. cbn [fst snd].
  destruct (x =? NL) eqn:E; [done|].
  destruct la as [|l la]; [|done]. cbn [app fst snd lines].
  destruct (lines (ra ++ b)) as [lb rb]. rewrite E. cbn. by destruct lb.
Qed.

Lemma lines_rest a : (lines (lines a).2).1 = [] ∧ (lines (lines a).2).2 = (lines a).2.
Proof.
  induction a as [|x a IH]; cbn [lines]; [done|]. destruct (lines a) as [la ra]. cbn [fst snd] in IH.
  destruct (x =? NL) eqn:E; [done|]. destruct la as [|l la]; [|done]. cbn [fst snd lines].
  rewrite E. destruct (lines ra) as [l1 r1]. cbn in IH. destruct IH as [-> ->]. done.
Qed.

Lemma cstring_id s : nonul s → cstring s = s.
Proof.
  induction 1 as [|x s Hx Hs IH]; [done|]. cbn. rewrite (proj2 (Z.eqb_neq x 0)) by done. by rewrite IH.
Qed.

Lemma strchr_lines p : nonul p →
  match strchr p NL with
  | Some (u, v) => p = u ++ NL :: v ∧ lines p = (u :: (lines v).1, (lines v).2) ∧ nonul u ∧ nonul v
  | None => lines p = ([], p)
  end.
Proof.
  induction 1 as [|x p Hx Hp IH]; [done|]. cbn [strchr lines].
  rewrite (proj2 (Z.eqb_neq x 0)) by done. destruct (Z.eqb_spec x NL) as [->|Hn].
  - destruct (lines p). split_and!; [done|done|constructor|done].
  - destruct (strchr p NL) as [[u v]|].
    + destruct IH as (-> & E & Hu & Hv). rewrite E. split_and!; [done|done|by constructor|done].
    + by rewrite IH.
Qed.

Lemma grep_lines_spec fuel pattern p out :
  nonul p → (length p < fuel)%nat →
  grep_lines fuel pattern p out = Some ((lines p).2, out ++ selected pattern (lines p).1).
Proof.
  revert p out. induction fuel as [|f IH]; intros p out Hp Hl; [lia|]. cbn [grep_lines].
  pose proof (strchr_lines p Hp) as H. destruct (strchr p NL) as [[u v]|].
  - destruct H as (-> & E & Hu & Hv). rewrite length_app in Hl. cbn in Hl.
    rewrite IH by (done || lia). rewrite E. cbn [fst snd]. rewrite (cstring_id u Hu).
    rewrite selected_cons. destruct (match_ pattern u); [by rewrite <-app_assoc|done].
  - rewrite H. cbn. by rewrite app_nil_r.
Qed.

Lemma lines_length s : (length (lines s).2 ≤ length s)%nat.
Proof.
  induction s as [|x s IH]; cbn; [done|]. destruct (lines s) as [ls r]. cbn in *.
  destruct (x =? NL); cbn; [lia|]. destruct ls; cbn; lia.
Qed.

Lemma nonul_lines s : nonul s → nonul (lines s).2.
Proof.
  induction 1 as [|x s Hx Hs IH]; cbn; [constructor|]. destruct (lines s) as [ls r]. cbn in *.
  destruct (x =? NL); cbn; [done|]. destruct ls; cbn; [|done]. by constructor.
Qed.

(** A buffer without a newline is the start of the first line. *)
Lemma lines_start buf input l ls r :
  lines buf = ([], buf) → lines (buf ++ input) = (l :: ls, r) → (length buf ≤ length l)%nat.
Proof.
  revert l. induction buf as [|x buf IH]; intros l Hb H; [cbn; lia|]. cbn [app lines] in *.
  destruct (lines buf) as [lb rb] eqn:Eb. destruct (x =? NL); [done|].
  destruct lb; [|done]. injection Hb as ->. destruct (lines (buf ++ input)) as [li ri] eqn:Ei.
  destruct li as [|l1 li]; [done|]. injection H as <- <- <-. cbn. specialize (IH l1 eq_refl eq_refl). lia.
Qed.

Lemma grep_spec fuel pattern wants input buf out :
  nonul (buf ++ input) → lines buf = ([], buf) →
  Forall (λ l, (length l < 1023)%nat) (lines (buf ++ input)).1 → (length input < fuel)%nat →
  grep fuel pattern wants input buf out = Some (out ++ selected pattern (lines (buf ++ input)).1).
Proof.
  revert wants input buf out. induction fuel as [|f IH]; intros wants input buf out Hn Hb Hl Hf; [lia|].
  cbn [grep]. unfold read_in, BUFSIZE. set (k := Z.to_nat _).
  destruct (take k input) as [|c0 chunk0] eqn:Ec.
  - assert ((lines (buf ++ input)).1 = []) as ->; [|unfold selected; cbn; by rewrite app_nil_r].
    destruct input as [|x input]; [by rewrite app_nil_r, Hb|].
    assert (k = 0%nat) as Hk by (destruct k; [done|discriminate]).
    destruct (lines (buf ++ x :: input)) as [[|l ls] r] eqn:E; [done|]. exfalso.
    pose proof (lines_start _ _ _ _ _ Hb E). cbn in Hl. apply Forall_cons_1 in Hl as [Hl _]. lia.
  - rewrite <-Ec in *. set (chunk := take k input) in *. set (input' := drop k input).
    assert (input = chunk ++ input') as Ei by (symmetry; apply take_drop).
    rewrite Ei, app_assoc in Hn. apply Forall_app in Hn as [Hn1 Hn2].
    rewrite grep_lines_spec by (done || lia).
    destruct (lines_rest (buf ++ chunk)) as [R1 R2].
    assert (length chunk ≠ 0%nat) as Hc by (rewrite Ec; done).
    assert (length input = (length chunk + length input')%nat) as Hli by (rewrite Ei at 1; apply length_app).
    rewrite Ei in Hl |- *. rewrite app_assoc in Hl |- *. rewrite (lines_app (buf ++ chunk)) in Hl |- *. cbn [fst] in Hl |- *.
    apply Forall_app in Hl as [_ Hl]. rewrite IH.
    + by rewrite selected_app, app_assoc.
    + apply Forall_app. split; [by apply nonul_lines|done].
    + by apply injective_projections.
    + done.
    + lia.
Qed.



(** A line that fills the buffer ends the loop: the line and all later ones are
    lost. *)
Example grep_long_line :
  grep 2000 [98] (replicate 2000 1024) (replicate 1023 97 ++ [10; 98; 10]) [] [] = Some [].
Proof. vm_compute. reflexivity. Qed.
