(* ===== verification/Sh.v ===== *)
(** * The shell's parser: user/sh.c

    [parsecmd] turns a line into a tree of commands whose strings are pointers
    into the line, and then writes a nul at the end of each of them.  The line is
    the list of its characters before the final nul; a pointer into it is an
    index, and the character at the end is the nul.  A parsed command is a tree;
    [parseexec] keeps a pointer to the exec node at the bottom of the tree it
    builds, so storing an argument changes the tree there. *)

From stdpp Require Import base list strings numbers.
From S2P Require Import Prelude.

(** Characters. *)
Definition whitespace : list Z := [32; 9; 13; 10; 11].     (* space, \t \r \n \v *)
Definition symbols : list Z := [60; 124; 62; 38; 59; 40; 41].  (* < | > & ; ( ) *)
Definition MAXARGS : nat := 10.

(** [strchr(set, c) != 0] for a set of characters without nul. *)
Definition is_in (set : list Z) (c : Z) : bool := existsb (Z.eqb c) set.

(** Parsed command representation; a string is the indices of its first character
    and of the one after its last. *)
Inductive cmd :=
| EXEC (argv : list (nat * nat))
| REDIR (c : cmd) (file efile : nat) (mode fd : Z)
| PIPE (left right : cmd)
| LIST (left right : cmd)
| BACK (c : cmd).

(** [cmd->argv[argc] = q; cmd->eargv[argc] = eq] for the exec node under
    redirections. *)
Fixpoint add_arg (q eq : nat) (c : cmd) : cmd :=
  match c with
  | EXEC argv => EXEC (argv ++ [(q, eq)])
  | REDIR c file efile mode fd => REDIR (add_arg q eq c) file efile mode fd
  | c => c
  end.

(** The constructors, which allocate and fill a node. *)
Definition execcmd : cmd := EXEC [].
Definition redircmd (subcmd : cmd) (file efile : nat) (mode fd : Z) : cmd := REDIR subcmd file efile mode fd.
Definition pipecmd (left right : cmd) : cmd := PIPE left right.
Definition listcmd (left right : cmd) : cmd := LIST left right.
Definition backcmd (subcmd : cmd) : cmd := BACK subcmd.

(** ** Parsing: the state is the position [*ps] *)

Section parser.
Context (buf : list Z).
Notation es := (length buf).

Definition chr (s : nat) : Z := default 0 (buf !! s).

(** [while(s < es && p( *s)) s++] *)
Fixpoint scan (p : Z → bool) (n : nat) (s : nat) : nat :=
  match n with
  | O => s
  | S n' => if (s <? es)%nat && p (chr s) then scan p n' (S s) else s
  end.
Definition skip_space (s : nat) : nat := scan (is_in whitespace) (es - s) s.

Definition put (s : nat) : M nat unit := modify (λ _, s).

(** The token, and the bounds of its text. *)
Definition token (s : nat) : Z * nat :=
  let c := chr s in
  if c =? 0 then (c, s)
  else if is_in [124; 40; 41; 59; 38; 60] c then (c, S s)
  else if c =? 62 then if chr (S s) =? 62 then (43, S (S s)) else (c, S s)
  else (97, scan (λ c, negb (is_in whitespace c) && negb (is_in symbols c)) (es - s) s).
Definition gettoken : M nat (Z * nat * nat) :=
  s <- get ;;
  let q := skip_space s in
  let '(r, eq) := token q in
  put (skip_space eq) ;;
  ret (r, q, eq).

Definition peek (toks : list Z) : M nat bool :=
  s <- get ;;
  let s := skip_space s in
  put s ;;
  ret (truthy (chr s) && is_in toks (chr s)).

Definition parseredirs_turn (c : cmd) : M nat (cmd + cmd) :=
  b <- peek [60; 62] ;;
  if (b : bool) then
    '(tok, _, _) <- gettoken ;;
    '(t, q, eq) <- gettoken ;;
    if negb (t =? 97) then panic "missing file for redirection"
    else if tok =? 60 then ret (inl (redircmd c q eq O_RDONLY 0))
    else if tok =? 62 then ret (inl (redircmd c q eq (Z.lor (Z.lor O_WRONLY O_CREATE) O_TRUNC) 1))
    else if tok =? 43 then ret (inl (redircmd c q eq (Z.lor O_WRONLY O_CREATE) 1))
    else ret (inl c)
  else ret (inr c).
Definition parseredirs (c : cmd) : M nat cmd := loop (S es) parseredirs_turn c.

(** One argument of a simple command. *)
Definition parseexec_turn (l : cmd * nat) : M nat (cmd * nat + cmd) :=
  let '(r, argc) := l in
  b <- peek [124; 41; 38; 59] ;;
  if (b : bool) then ret (inr r)
  else
    '(tok, q, eq) <- gettoken ;;
    if tok =? 0 then ret (inr r)
    else if negb (tok =? 97) then panic "syntax"
    else
      let r := add_arg q eq r in
      let argc := S argc in
      if (MAXARGS <=? argc)%nat then panic "too many args"
      else r <- parseredirs r ;; ret (inl (r, argc)).

(** [while(peek(ps, es, "&"))] of [parseline]. *)
Definition parseback_turn (c : cmd) : M nat (cmd + cmd) :=
  b <- peek [38] ;;
  if (b : bool) then gettoken ;; ret (inl (backcmd c)) else ret (inr c).

Fixpoint parseline (f : nat) : M nat cmd :=
  match f with
  | O => out_of_fuel
  | S f =>
      c <- parsepipe f ;;
      c <- loop (S es) parseback_turn c ;;
      b <- peek [59] ;;
      if (b : bool) then gettoken ;; r <- parseline f ;; ret (listcmd c r) else ret c
  end
with parsepipe (f : nat) : M nat cmd :=
  match f with
  | O => out_of_fuel
  | S f =>
      c <- parseexec f ;;
      b <- peek [124] ;;
      if (b : bool) then gettoken ;; r <- parsepipe f ;; ret (pipecmd c r) else ret c
  end
with parseexec (f : nat) : M nat cmd :=
  match f with
  | O => out_of_fuel
  | S f =>
      b <- peek [40] ;;
      if (b : bool) then parseblock f
      else
        r <- parseredirs execcmd ;;
        loop (S es) parseexec_turn (r, 0%nat)
  end
with parseblock (f : nat) : M nat cmd :=
  match f with
  | O => out_of_fuel
  | S f =>
      b <- peek [40] ;;
      if negb b then panic "parseblock"
      else
        gettoken ;;
        c <- parseline f ;;
        b <- peek [41] ;;
        if negb b then panic "syntax - missing )"
        else gettoken ;; parseredirs c
  end.

(** What [parsecmd] does before it terminates the strings; the depth of the
    recursion is bounded by the length of the line. *)
Definition parse : M nat cmd :=
  c <- parseline (4 * es + 4) ;;
  peek [] ;;
  s <- get ;;
  if negb (s =? es)%nat then panic "syntax" else ret c.

End parser.

(** NUL-terminate all the counted strings. *)
Fixpoint nulterminate (c : cmd) (buf : list Z) : list Z :=
  match c with
  | EXEC argv => foldl (λ b '(_, eq), <[eq := 0]> b) buf argv
  | REDIR c _ efile _ _ => <[efile := 0]> (nulterminate c buf)
  | PIPE l r => nulterminate r (nulterminate l buf)
  | LIST l r => nulterminate r (nulterminate l buf)
  | BACK c => nulterminate c buf
  end.

(** The state is the line. *)
Definition parsecmd : M (list Z) cmd := λ buf,
  match parse buf 0%nat with
  | OK c _ => OK c (nulterminate c buf)
  | PANIC msg => PANIC msg
  | BLOCK ch _ => BLOCK ch buf
  | FUEL => FUEL
  end.

(** ** The parser ends *)

(** [m] returns with [Q], or panics with [E], or lacks fuel if [F]. *)
Definition gwp {S A} (F : Prop) (E : string → Prop) (m : M S A) (Q : A → S → Prop) (s : S) : Prop :=
  match m s with OK a s' => Q a s' | PANIC msg => E msg | BLOCK _ _ => False | FUEL => F end.

Section gwp.
Context {St : Type} {F : Prop} {E : string → Prop}.

Lemma gwp_mono {A} (m : M St A) (Q Q' : A → St → Prop) s : gwp F E m Q s → (∀ a s', Q a s' → Q' a s') → gwp F E m Q' s.
Proof. unfold gwp. destruct (m s); auto. Qed.
Lemma gwp_bind {A B} (m : M St A) (k : A → M St B) (Q : B → St → Prop) s : gwp F E m (λ a, gwp F E (k a) Q) s → gwp F E (bind m k) Q s.
Proof. unfold gwp, bind. by destruct (m s). Qed.
Lemma gwp_ret {A} (a : A) (Q : A → St → Prop) s : Q a s → gwp F E (ret a) Q s.
Proof. done. Qed.
Lemma gwp_loop {A B} (I : A → St → Prop) (v : A → St → nat) (Q : B → St → Prop) (body : A → M St (A + B)) fuel a s :
  (v a s < fuel)%nat → I a s →
  (∀ a s, I a s → gwp F E (body a) (λ r s', match r with inl a' => I a' s' ∧ (v a' s' < v a s)%nat | inr b => Q b s' end) s) →
  gwp F E (loop fuel body a) Q s.
Proof.
  intros Hv HI Hb. revert a s Hv HI. induction fuel as [|fuel IH]; intros a s Hv HI; [lia|]. cbn [loop]. apply gwp_bind.
  eapply gwp_mono; [by apply Hb|]. cbv beta. intros [a'|b] s' H; [|done]. destruct H as [HI' Hv']. apply IH; [lia|done].
Qed.
Lemma gwp_loop_step {A B} (Q : B → St → Prop) (body : A → M St (A + B)) fuel a s : F →
  gwp F E (body a) (λ r s', match r with inl a' => ∀ fuel, gwp F E (loop fuel body a') Q s' | inr b => Q b s' end) s → gwp F E (loop fuel body a) Q s.
Proof.
  intros HF Hb. destruct fuel as [|fuel]; [done|]. cbn [loop]. apply gwp_bind. eapply gwp_mono; [exact Hb|]. cbv beta. by intros [a'|b] s' H.
Qed.
Lemma gwp_both {F' : Prop} {E' : string → Prop} {A} (m : M St A) (Q Q' : A → St → Prop) s : ¬ F' → (∀ msg, ¬ E msg) →
  gwp F E m Q s → gwp F' E' m Q' s → ∃ a s', m s = OK a s' ∧ Q a s' ∧ Q' a s'.
Proof. unfold gwp. destruct (m s); intros HF HE H1 H2; [by eauto|by destruct (HE msg)|done|done]. Qed.

Lemma gwp_get (Q : St → St → Prop) s : Q s s → gwp F E get Q s.
Proof. done. Qed.
Lemma gwp_panic {A} msg (Q : A → St → Prop) s : E msg → gwp F E (panic msg) Q s.
Proof. done. Qed.

End gwp.

Lemma gwp_put F E (Q : unit → nat → Prop) s s' : Q tt s' → gwp F E (put s') Q s.
Proof. done. Qed.

Ltac gwp_step :=
  match goal with
  | |- gwp _ _ (bind _ _) _ _ => apply gwp_bind
  | |- gwp _ _ (ret _) _ _ => apply gwp_ret
  | |- gwp _ _ get _ _ => apply gwp_get
  | |- gwp _ _ (put _) _ _ => apply gwp_put
  end; cbv beta iota.

(** The messages of the parser. *)
Definition syntax_errors : list string :=
  ["missing file for redirection"; "syntax"; "too many args"; "parseblock"; "syntax - missing )"]%string.

Section ends.
Context (buf : list Z) (Hbuf : Forall (λ c, c ≠ 0) buf).
Notation es := (length buf).
Notation chr := (chr buf).
Notation ends := (gwp False (λ msg, msg ∈ syntax_errors)).

Lemma chr_zero s : chr s = 0 ↔ (es ≤ s)%nat.
Proof.
  unfold Sh.chr. destruct (buf !! s) as [c|] eqn:Ec; cbn.
  - pose proof (Forall_lookup_1 _ _ _ _ Hbuf Ec). apply lookup_lt_Some in Ec. split; [done|lia].
  - apply lookup_ge_None in Ec. done.
Qed.

Lemma scan_spec p n s : (s ≤ es)%nat → let s' := scan buf p n s in
  (s ≤ s' ≤ es)%nat ∧ (∀ i, (s ≤ i < s')%nat → p (chr i) = true) ∧ ((es - s ≤ n)%nat → (s' < es)%nat → p (chr s') = false).
Proof.
  revert s. induction n as [|n IH]; intros s Hs; cbn [scan].
  - split; [lia|]. split; [lia|]. lia.
  - destruct (Nat.ltb_spec s es) as [Hlt|Hge]; cbn [andb]; [|split; [lia|]; split; [lia|lia]].
    destruct (p (chr s)) eqn:Ep; [|split; [lia|]; split; [lia|done]].
    destruct (IH (S s) ltac:(lia)) as (H1 & H2 & H3). split; [lia|]. split.
    + intros i Hi. destruct (decide (i = s)) as [->|]; [done|]. apply H2. lia.
    + intros Hn. apply H3. lia.
Qed.
Lemma skip_space_spec s : (s ≤ es)%nat → let s' := skip_space buf s in
  (s ≤ s' ≤ es)%nat ∧ ((s' < es)%nat → is_in whitespace (chr s') = false).
Proof. intros Hs. destruct (scan_spec (is_in whitespace) (es - s) s Hs) as (H1 & _ & H3). split; [done|]. by apply H3. Qed.

(** The bounds of a word of the line. *)
Definition word (w : nat * nat) : Prop :=
  (w.1 < w.2 ≤ es)%nat ∧ (∀ i, (w.1 ≤ i < w.2)%nat → is_in whitespace (chr i) = false ∧ is_in symbols (chr i) = false) ∧
  ((w.2 < es)%nat → is_in whitespace (chr w.2) = true ∨ is_in symbols (chr w.2) = true).

Lemma token_spec q : (q ≤ es)%nat → ((q < es)%nat → is_in whitespace (chr q) = false) → let '(r, eq) := token buf q in
  (q ≤ eq ≤ es)%nat ∧ ((q < es)%nat → (q < eq)%nat) ∧ (r = 97 → word (q, eq)) ∧ (r ≠ 0 → (q < es)%nat).
Proof.
  intros Hq Hws. unfold token. cbv zeta. destruct (Z.eqb_spec (chr q) 0) as [E0|E0].
  - pose proof E0 as Hz%chr_zero. split; [lia|]. split; [lia|]. split; [lia|]. by rewrite E0.
  - assert (q < es)%nat as Hlt. { destruct (decide (q < es)%nat); [done|]. destruct E0. apply chr_zero. lia. }
    specialize (Hws Hlt). destruct (is_in [124; 40; 41; 59; 38; 60] (chr q)) eqn:Es.
    + split; [lia|]. split; [lia|]. split; [|done]. intros E. by rewrite E in Es.
    + destruct (Z.eqb_spec (chr q) 62) as [Eg|Eg].
      * destruct (Z.eqb_spec (chr (S q)) 62) as [Eg'|Eg'].
        -- assert (S q < es)%nat. { destruct (decide (S q < es)%nat); [done|]. assert (chr (S q) = 0) by (apply chr_zero; lia). lia. }
           split; [lia|]. split; [lia|]. split; [lia|done].
        -- split; [lia|]. split; [lia|]. rewrite Eg. split; [lia|done].
      * set (p := λ c, negb (is_in whitespace c) && negb (is_in symbols c)).
        assert (p (chr q) = true) as Hp.
        { unfold p. rewrite Hws. cbn [negb andb]. unfold is_in, symbols in *. cbn [existsb] in *. destruct (chr q =? 62) eqn:?; [lia|].
          destruct (chr q =? 60), (chr q =? 124), (chr q =? 38), (chr q =? 59), (chr q =? 40), (chr q =? 41); done. }
        destruct (scan_spec p (es - q) q Hq) as (H1 & H2 & H3).
        assert (q < scan buf p (es - q) q)%nat as Hadv.
        { destruct (decide (q = scan buf p (es - q) q)) as [E|]; [|lia]. rewrite <-E in H3. specialize (H3 ltac:(lia) Hlt). congruence. }
        split; [lia|]. split; [lia|]. split; [|done]. intros _. split; [cbn; lia|]. cbn. split.
        -- intros i Hi. specialize (H2 i Hi). unfold p in H2. apply andb_true_iff in H2 as [?%negb_true_iff ?%negb_true_iff]. done.
        -- intros Hl. specialize (H3 ltac:(lia) Hl). unfold p in H3. apply andb_false_iff in H3 as [?%negb_false_iff|?%negb_false_iff]; auto.
Qed.

Lemma gettoken_ends s : (s ≤ es)%nat →
  ends (gettoken buf) (λ '(r, q, eq) s', (s ≤ s' ≤ es)%nat ∧ ((skip_space buf s < es)%nat ∨ r ≠ 0 → (s < s')%nat) ∧ (r = 97 → word (q, eq))) s.
Proof.
  intros Hs. unfold gettoken. repeat gwp_step. destruct (skip_space_spec s Hs) as (H1 & H2). set (q := skip_space buf s) in *.
  pose proof (token_spec q ltac:(lia) H2) as Ht. destruct (token buf q) as [r eq]. destruct Ht as (T1 & T2 & T3 & T4).
  destruct (skip_space_spec eq ltac:(lia)) as (H3 & _). repeat gwp_step. split; [lia|]. split; [|done]. intros [Hlt|Hr]; [specialize (T2 Hlt); lia|]. specialize (T2 (T4 Hr)). lia.
Qed.
Lemma peek_ends toks s : (s ≤ es)%nat →
  ends (peek buf toks) (λ b s', (s ≤ s' ≤ es)%nat ∧ s' = skip_space buf s ∧ (b = true → (skip_space buf s' < es)%nat)) s.
Proof.
  intros Hs. unfold peek. repeat gwp_step. destruct (skip_space_spec s Hs) as (H1 & H2). split; [lia|]. split; [done|].
  intros [Hc _]%andb_true_iff. set (q := skip_space buf s) in *. assert (q < es)%nat as Hlt.
  { destruct (decide (q < es)%nat); [done|]. assert (chr q = 0) as E by (apply chr_zero; lia). by rewrite E in Hc. }
  specialize (H2 Hlt). unfold skip_space. destruct (es - q)%nat; cbn [scan]; [done|]. rewrite H2, andb_false_r. done.
Qed.

(** Every string is a word and no command has more arguments than fit. *)
Fixpoint cmd_ok (c : cmd) : Prop :=
  match c with
  | EXEC argv => Forall word argv ∧ (length argv < MAXARGS)%nat
  | REDIR c file efile _ _ => cmd_ok c ∧ word (file, efile)
  | PIPE l r | LIST l r => cmd_ok l ∧ cmd_ok r
  | BACK c => cmd_ok c
  end.
(** Redirections of a simple command with [n] arguments. *)
Fixpoint simple (n : nat) (c : cmd) : Prop :=
  match c with EXEC argv => length argv = n | REDIR c _ _ _ _ => simple n c | _ => False end.

Lemma add_arg_ok n q eq c : simple n c → cmd_ok c → word (q, eq) → (S n < MAXARGS)%nat → cmd_ok (add_arg q eq c) ∧ simple (S n) (add_arg q eq c).
Proof.
  intros Hs Hc Hw Hn. induction c as [argv|c IH f e m fd| | |]; cbn in *; try done.
  - rewrite length_app. cbn. destruct Hc as [Hc _]. split; [|lia]. split; [apply Forall_app; split; [done|by constructor]|lia].
  - destruct Hc as [Hc Hfe]. destruct (IH Hs Hc) as [H1 H2]. done.
Qed.

Lemma parseredirs_ends (I : cmd → Prop) c s : (s ≤ es)%nat → cmd_ok c → I c → (∀ c f e m fd, I c → I (REDIR c f e m fd)) →
  ends (parseredirs buf c) (λ c s', cmd_ok c ∧ I c ∧ (s ≤ s' ≤ es)%nat) s.
Proof.
  intros Hs Hc HI Hstep. unfold parseredirs.
  eapply (gwp_loop (λ c s', cmd_ok c ∧ I c ∧ (s ≤ s' ≤ es)%nat) (λ _ s', (es - s')%nat)); [lia|done|].
  clear c Hc HI. intros c s1 (Hc & HI & Hs1). unfold parseredirs_turn. gwp_step.
  eapply gwp_mono; [apply peek_ends; lia|]. cbv beta. intros b s2 (H1 & _ & Hb). destruct b; [|by repeat gwp_step; split_and!; try done; lia].
  specialize (Hb eq_refl). gwp_step. eapply gwp_mono; [apply gettoken_ends; lia|]. cbv beta. intros [[tok q0] eq0] s3 (H2 & H2' & _). specialize (H2' (or_introl Hb)).
  gwp_step. eapply gwp_mono; [apply gettoken_ends; lia|]. cbv beta. intros [[t q] eq] s4 (H3 & _ & Hw).
  destruct (Z.eqb_spec t 97) as [->|]; cbn [negb]; [|apply gwp_panic; by do 1 constructor]. specialize (Hw eq_refl).
  repeat case_match; repeat gwp_step; (split; [|lia]); (split; [by try split|]); (split; [by try apply Hstep|lia]).
Qed.

Lemma simple_redir n c f e m fd : simple n c → simple n (REDIR c f e m fd).
Proof. done. Qed.

Lemma simple_ends c s : (s ≤ es)%nat → cmd_ok c → simple 0 c →
  ends (loop (S es) (parseexec_turn buf) (c, 0%nat)) (λ c s', cmd_ok c ∧ (s ≤ s' ≤ es)%nat) s.
Proof.
  intros Hs Hc Hn.
  eapply (gwp_loop (λ '(c, n) s', cmd_ok c ∧ simple n c ∧ (n < MAXARGS)%nat ∧ (s ≤ s' ≤ es)%nat) (λ _ s', (es - s')%nat)); [lia|split_and!; unfold MAXARGS; done || lia|].
  clear c Hc Hn. intros [c n] s1 (Hc & Hn & Hlt & Hs1). unfold parseexec_turn. gwp_step.
  eapply gwp_mono; [apply peek_ends; lia|]. cbv beta. intros b s2 (H1 & Es2 & _). destruct b; [by repeat gwp_step; split; [done|lia]|].
  gwp_step. eapply gwp_mono; [apply gettoken_ends; lia|]. cbv beta. intros [[tok q] eq] s3 (H2 & H2' & Hw).
  destruct (Z.eqb_spec tok 0) as [->|Hne]; [by repeat gwp_step; split; [done|lia]|]. specialize (H2' (or_intror Hne)).
  destruct (Z.eqb_spec tok 97) as [->|]; cbn [negb]; [|apply gwp_panic; by repeat constructor]. specialize (Hw eq_refl).
  destruct (Nat.leb_spec MAXARGS (S n)); [apply gwp_panic; by repeat constructor|]. destruct (add_arg_ok n q eq c) as [Hc' Hn']; [done..|].
  gwp_step. eapply gwp_mono; [apply (parseredirs_ends (simple (S n))); [lia|done|done|done]|]. cbv beta. intros c' s4 (Hc'' & Hn'' & H4).
  repeat gwp_step. split; [|lia]. split_and!; done || lia.
Qed.

Notation parsed s := (λ c s', cmd_ok c ∧ (s ≤ s' ≤ es)%nat).

Lemma parseblock_ends f : (∀ s, (s ≤ es)%nat → (4 * (es - s) + 4 ≤ f)%nat → ends (parseline buf f) (parsed s) s) →
  ∀ s, (s ≤ es)%nat → (4 * (es - s) + 1 ≤ S f)%nat → ends (parseblock buf (S f)) (parsed s) s.
Proof.
  intros IH s Hs Hf. cbn [parseblock]. gwp_step. eapply gwp_mono; [by apply peek_ends|]. cbv beta. intros b s1 (H1 & _ & Hb).
  destruct b; cbn [negb]; [|apply gwp_panic; by repeat constructor]. specialize (Hb eq_refl).
  gwp_step. eapply gwp_mono; [apply gettoken_ends; lia|]. cbv beta. intros [[? ?] ?] s2 (H2 & H2' & _). specialize (H2' (or_introl Hb)).
  gwp_step. eapply gwp_mono; [apply IH; lia|]. cbv beta. intros c s3 (Hc & H3).
  gwp_step. eapply gwp_mono; [apply peek_ends; lia|]. cbv beta. intros b s4 (H4 & _ & _). destruct b; cbn [negb]; [|apply gwp_panic; by repeat constructor].
  gwp_step. eapply gwp_mono; [apply gettoken_ends; lia|]. cbv beta. intros [[? ?] ?] s5 (H5 & _ & _).
  eapply gwp_mono; [apply (parseredirs_ends (λ _, True)); [lia|done..]|]. cbv beta. intros c' s6 (Hc' & _ & H6). split; [done|lia].
Qed.
Lemma parseexec_ends f : (∀ s, (s ≤ es)%nat → (4 * (es - s) + 1 ≤ f)%nat → ends (parseblock buf f) (parsed s) s) →
  ∀ s, (s ≤ es)%nat → (4 * (es - s) + 2 ≤ S f)%nat → ends (parseexec buf (S f)) (parsed s) s.
Proof.
  intros IH s Hs Hf. cbn [parseexec]. gwp_step. eapply gwp_mono; [by apply peek_ends|]. cbv beta. intros b s1 (H1 & _ & Hb). destruct b.
  - eapply gwp_mono; [apply IH; lia|]. cbv beta. intros c s2 (Hc & H2). split; [done|lia].
  - gwp_step. eapply gwp_mono; [apply (parseredirs_ends (simple 0)); [lia|cbn; unfold MAXARGS; split; [constructor|lia]|done|done]|]. cbv beta. intros c s2 (Hc & Hn & H2).
    eapply gwp_mono; [apply simple_ends; [lia|done|done]|]. cbv beta. intros c' s3 (Hc' & H3). split; [done|lia].
Qed.
Lemma parsepipe_ends f : (∀ s, (s ≤ es)%nat → (4 * (es - s) + 2 ≤ f)%nat → ends (parseexec buf f) (parsed s) s) →
  (∀ s, (s ≤ es)%nat → (4 * (es - s) + 3 ≤ f)%nat → ends (parsepipe buf f) (parsed s) s) →
  ∀ s, (s ≤ es)%nat → (4 * (es - s) + 3 ≤ S f)%nat → ends (parsepipe buf (S f)) (parsed s) s.
Proof.
  intros IHe IHp s Hs Hf. cbn [parsepipe]. gwp_step. eapply gwp_mono; [apply IHe; lia|]. cbv beta. intros c s1 (Hc & H1).
  gwp_step. eapply gwp_mono; [apply peek_ends; lia|]. cbv beta. intros b s2 (H2 & _ & Hb). destruct b; [|repeat gwp_step; split; [done|lia]]. specialize (Hb eq_refl).
  gwp_step. eapply gwp_mono; [apply gettoken_ends; lia|]. cbv beta. intros [[? ?] ?] s3 (H3 & H3' & _). specialize (H3' (or_introl Hb)).
  gwp_step. eapply gwp_mono; [apply IHp; lia|]. cbv beta. intros r s4 (Hr & H4). repeat gwp_step. split; [done|lia].
Qed.
Lemma parseline_ends f : (∀ s, (s ≤ es)%nat → (4 * (es - s) + 3 ≤ f)%nat → ends (parsepipe buf f) (parsed s) s) →
  (∀ s, (s ≤ es)%nat → (4 * (es - s) + 4 ≤ f)%nat → ends (parseline buf f) (parsed s) s) →
  ∀ s, (s ≤ es)%nat → (4 * (es - s) + 4 ≤ S f)%nat → ends (parseline buf (S f)) (parsed s) s.
Proof.
  intros IHp IHl s Hs Hf. cbn [parseline]. gwp_step. eapply gwp_mono; [apply IHp; lia|]. cbv beta. intros c s1 (Hc & H1).
  gwp_step. eapply (gwp_loop (parsed s1) (λ _ s', (es - s')%nat)); [lia|split; [done|lia]|].
  { clear c Hc. intros c s2 (Hc & H2). unfold parseback_turn. gwp_step. eapply gwp_mono; [apply peek_ends; lia|]. cbv beta. intros b s3 (H3 & _ & Hb).
    destruct b; [|gwp_step].
    - specialize (Hb eq_refl). gwp_step. eapply gwp_mono; [apply gettoken_ends; lia|]. cbv beta. intros [[? ?] ?] s4 (H4 & H4' & _). specialize (H4' (or_introl Hb)).
      repeat gwp_step. split; [split; [done|lia]|lia].
    - gwp_step. eapply gwp_mono; [apply (peek_ends _ s3); lia|]. cbv beta. intros b s4 (H4 & _ & Hb').
      destruct b; [|repeat gwp_step; split; [done|lia]]. specialize (Hb' eq_refl).
      gwp_step. eapply gwp_mono; [apply gettoken_ends; lia|]. cbv beta. intros [[? ?] ?] s5 (H5 & H5' & _). specialize (H5' (or_introl Hb')).
      gwp_step. eapply gwp_mono; [apply IHl; lia|]. cbv beta. intros r s6 (Hr & H6). repeat gwp_step. split; [done|lia]. }
Qed.

Lemma parse_all_ends f :
  (∀ s, (s ≤ es)%nat → (4 * (es - s) + 4 ≤ f)%nat → ends (parseline buf f) (parsed s) s) ∧
  (∀ s, (s ≤ es)%nat → (4 * (es - s) + 3 ≤ f)%nat → ends (parsepipe buf f) (parsed s) s) ∧
  (∀ s, (s ≤ es)%nat → (4 * (es - s) + 2 ≤ f)%nat → ends (parseexec buf f) (parsed s) s) ∧
  (∀ s, (s ≤ es)%nat → (4 * (es - s) + 1 ≤ f)%nat → ends (parseblock buf f) (parsed s) s).
Proof.
  induction f as [|f (IHl & IHp & IHe & IHb)]; [split_and!; intros; lia|].
  split; [by apply parseline_ends|]. split; [by apply parsepipe_ends|]. split; [by apply parseexec_ends|by apply parseblock_ends].
Qed.

Lemma parse_ends : ends (parse buf) (λ c _, cmd_ok c) 0%nat.
Proof.
  destruct (parse_all_ends (4 * es + 4)) as (H & _). unfold parse. gwp_step. eapply gwp_mono; [apply H; lia|]. cbv beta. intros c s (Hc & Hs).
  gwp_step. eapply gwp_mono; [apply peek_ends; lia|]. cbv beta. intros b s2 (H2 & _ & _). repeat gwp_step.
  destruct (negb _); [apply gwp_panic; by repeat constructor|by repeat gwp_step].
Qed.

(** ** The strings after [nulterminate] *)

(** Where a nul may be written. *)
Definition boundary (i : nat) : Prop := (es ≤ i)%nat ∨ is_in whitespace (chr i) = true ∨ is_in symbols (chr i) = true.
Definition cut (b : list Z) : Prop := length b = es ∧ ∀ i, b !! i = buf !! i ∨ boundary i.

Fixpoint strings (c : cmd) : list (nat * nat) :=
  match c with
  | EXEC argv => argv
  | REDIR c file efile _ _ => strings c ++ [(file, efile)]
  | PIPE l r | LIST l r => strings l ++ strings r
  | BACK c => strings c
  end.
Lemma cmd_ok_strings c : cmd_ok c → Forall word (strings c).
Proof. induction c; cbn; intros H; try tauto; try destruct H; try apply Forall_app; auto. Qed.

Lemma nulterminate_strings c b : nulterminate c b = foldl (λ b '(_, eq), <[eq := 0]> b) b (strings c).
Proof.
  revert b. induction c as [argv|c IH f e m fd|l IHl r IHr|l IHl r IHr|c IH]; intros b; cbn; [done| | | |done].
  - rewrite IH, foldl_app. done.
  - by rewrite IHr, IHl, foldl_app.
  - by rewrite IHr, IHl, foldl_app.
Qed.

Lemma word_boundary w : word w → boundary w.2.
Proof. intros (H1 & _ & H3). destruct (decide (w.2 < es)%nat) as [Hl|]; [right; by apply H3|left; lia]. Qed.

Lemma cut_strings l b : Forall word l → cut b → cut (foldl (λ b '(_, eq), <[eq := 0]> b) b l) ∧
  ∀ w, w ∈ l ∨ (w.2 < es)%nat ∧ b !! w.2 = Some 0 → (w.2 < es)%nat → foldl (λ b '(_, eq), <[eq := 0]> b) b l !! w.2 = Some 0.
Proof.
  revert b. induction l as [|[q eq] l IH]; intros b Hl Hb; cbn [foldl].
  { split; [done|]. intros w [Hw|[_ Hw]] _; [by apply not_elem_of_nil in Hw|done]. }
  inversion Hl as [|? ? Hw Hl']; subst. assert (cut (<[eq := 0]> b)) as Hb'.
  { destruct Hb as [Hlen Hb]. split; [by rewrite length_insert|]. intros i. destruct (decide (i = eq)) as [->|Hne]; [right; apply (word_boundary _ Hw)|].
    by rewrite list_lookup_insert_ne. }
  destruct (IH _ Hl' Hb') as [H1 H2]. split; [done|]. intros w Hw' Hlt. apply H2; [|done]. destruct Hb as [Hlen _]. destruct Hw' as [Hin|[_ H0]].
  - apply elem_of_cons in Hin as [->|Hin]; [right; split; [done|]; cbn in *; apply list_lookup_insert_eq; lia|by left].
  - right. split; [done|]. destruct (decide (w.2 = eq)) as [E|Hne]; [rewrite E; apply list_lookup_insert_eq; rewrite E in Hlt; lia|by rewrite list_lookup_insert_ne].
Qed.

(** The text of a word. *)
Definition text (w : nat * nat) : list Z := take (w.2 - w.1) (drop w.1 buf).

Lemma cut_text b w : word w → cut b → ((w.2 < es)%nat → b !! w.2 = Some 0) → cstr (drop w.1 b) = text w.
Proof.
  intros (H1 & H2 & _) [Hlen Hb] Hn. unfold text. destruct w as [q eq]. cbn [fst snd] in *.
  assert (∀ i, (q ≤ i < eq)%nat → b !! i = buf !! i ∧ ∃ c, buf !! i = Some c ∧ c ≠ 0) as Hsame.
  { intros i Hi. destruct (lookup_lt_is_Some_2 buf i ltac:(lia)) as [c Ec]. split; [|exists c; split; [done|exact (Forall_lookup_1 _ _ _ _ Hbuf Ec)]].
    destruct (Hb i) as [?|[?|[Hw|Hw]]]; [done|lia| |]; destruct (H2 i Hi); congruence. }
  remember (eq - q)%nat as n eqn:En. revert q H1 Hsame H2 En. induction n as [|n IH]; intros q H1 Hsame H2 En; [lia|].
  destruct (Hsame q ltac:(lia)) as (E1 & c & Ec & Hc). rewrite (drop_S buf c q Ec). rewrite Ec in E1. rewrite (drop_S b c q E1).
  cbn [cstr take]. rewrite (proj2 (Z.eqb_neq c 0)) by done. f_equal. destruct (decide (S q = eq)) as [<-|Hne].
  - assert (n = 0%nat) as -> by lia. cbn [take]. destruct (decide (S q < es)%nat) as [Hl|Hl].
    + by rewrite (drop_S b 0 (S q)) by by apply Hn.
    + by rewrite drop_ge by lia.
  - apply IH; [lia|intros i Hi; apply Hsame; lia|intros i Hi; apply H2; lia|lia].
Qed.

End ends.

Lemma nulterminate_text line c : Forall (λ c, c ≠ 0) line → cmd_ok line c → ∀ w, w ∈ strings c → cstr (drop w.1 (nulterminate c line)) = text line w.
Proof.
  intros Hl H w Hin. pose proof (cmd_ok_strings line c H) as Hw. rewrite nulterminate_strings.
  destruct (cut_strings line (strings c) line Hw) as [Hcut Hnul]; [split; [done|by left]|].
  apply cut_text; [done|by apply (proj1 (Forall_forall _ _) Hw), list_elem_of_In|done|]. intros Hlt. apply Hnul; [by left|done].
Qed.
Lemma length_nulterminate c line : length (nulterminate c line) = length line.
Proof.
  rewrite nulterminate_strings. revert line. induction (strings c) as [|[q eq] l IH]; intros line; [done|]. cbn. by rewrite IH, length_insert.
Qed.

(** C12. The parser ends on every line, and the strings of the command it returns
    are words of the line.  Whatever the line, [parsecmd] returns a command or
    reports one of its syntax errors; it never runs off the line.  In the command
    every argument and file name is, after [nulterminate], a nul-terminated
    string in the line that is a maximal run of characters that are neither space
    nor symbol, and no command has more than MAXARGS - 1 arguments. *)
Theorem parsecmd_ends line : Forall (λ c, c ≠ 0) line →
  match parsecmd line with
  | OK c line' => cmd_ok line c ∧ length line' = length line ∧
      ∀ w, w ∈ strings c → cstr (drop w.1 line') = text line w
  | PANIC msg => msg ∈ syntax_errors
  | _ => False
  end.
Proof.
  intros Hl. pose proof (parse_ends line Hl) as H. unfold gwp, parsecmd in *. destruct (parse line 0%nat) as [c s|msg| |]; try done. split; [done|].
  split; [apply length_nulterminate|by apply nulterminate_text].
Qed.

(** [a>b c] and [a ( b] *)
Lemma parsecmd_ends_witness :
  (∃ c, parsecmd [97; 62; 98; 32; 99] = OK c [97; 0; 98; 0; 99] ∧ strings c = [(0, 1); (4, 5); (2, 3)]%nat ∧ cstr (drop 4 [97; 0; 98; 0; 99]) = [99]) ∧
  parsecmd [97; 32; 40; 32; 98] = PANIC "syntax".
Proof.
  pose proof (parsecmd_ends [97; 62; 98; 32; 99] ltac:(repeat constructor; discriminate)) as H.
  split; [|vm_compute; reflexivity].
  destruct (parsecmd [97; 62; 98; 32; 99]) as [c line'| | |] eqn:E; [|vm_compute in E; discriminate..].
  vm_compute in E. injection E as <- <-. destruct H as (_ & _ & Ht). eexists. split; [reflexivity|]. split; [reflexivity|].
  exact (Ht (4, 5)%nat ltac:(right; left)).
Defined.
