(* ===== verification/ShPrint.v ===== *)
(** * The shell understands what is written

    A syntax of command lines, how a line of it is written and what it means; the
    parser of user/sh.c returns the meaning of every written line. *)

From stdpp Require Import base list strings numbers.
From S2P Require Import Prelude Sh.

(** ** Command lines *)

Inductive rkind := RIn | ROut | RApp.
Definition redir : Type := rkind * list Z.

(** Commands separated by [;], each sent to the background [k] times; pipelines;
    a simple command with redirections before, between and after its arguments,
    or a line in parentheses with redirections. *)
Inductive line :=
| LOne (p : pipeline) (k : nat)
| LSeq (p : pipeline) (k : nat) (l : line)
with pipeline :=
| POne (e : command)
| PSeq (e : command) (p : pipeline)
with command :=
| Simple (rs : list redir) (args : list (list Z * list redir))
| Block (l : line) (rs : list redir).

Scheme line_mut := Induction for line Sort Prop
with pipeline_mut := Induction for pipeline Sort Prop
with command_mut := Induction for command Sort Prop.
Combined Scheme syntax_ind from line_mut, pipeline_mut, command_mut.

(** As text, with a space after every word and symbol. *)
Definition pr_kind (k : rkind) : list Z := match k with RIn => [60] | ROut => [62] | RApp => [62; 62] end.
Definition pr_redir (r : redir) : list Z := pr_kind r.1 ++ 32 :: r.2 ++ [32].
Definition pr_redirs (rs : list redir) : list Z := concat (pr_redir <$> rs).
Definition pr_arg (a : list Z * list redir) : list Z := a.1 ++ 32 :: pr_redirs a.2.
Definition pr_back (k : nat) : list Z := concat (replicate k [38; 32]).
Fixpoint pr_line (l : line) : list Z :=
  match l with
  | LOne p k => pr_pipe p ++ pr_back k
  | LSeq p k l => pr_pipe p ++ pr_back k ++ 59 :: 32 :: pr_line l
  end
with pr_pipe (p : pipeline) : list Z :=
  match p with POne e => pr_command e | PSeq e p => pr_command e ++ 124 :: 32 :: pr_pipe p end
with pr_command (e : command) : list Z :=
  match e with
  | Simple rs args => pr_redirs rs ++ concat (pr_arg <$> args)
  | Block l rs => 40 :: 32 :: pr_line l ++ 41 :: 32 :: pr_redirs rs
  end.

(** What the shell is to do: the command with its strings. *)
Inductive scmd :=
| SExec (argv : list (list Z))
| SRedir (c : scmd) (file : list Z) (mode fd : Z)
| SPipe (l r : scmd)
| SList (l r : scmd)
| SBack (c : scmd).
Definition m_redir (c : scmd) (r : redir) : scmd :=
  match r.1 with
  | RIn => SRedir c r.2 O_RDONLY 0
  | ROut => SRedir c r.2 (Z.lor (Z.lor O_WRONLY O_CREATE) O_TRUNC) 1
  | RApp => SRedir c r.2 (Z.lor O_WRONLY O_CREATE) 1
  end.
Definition m_redirs (c : scmd) (rs : list redir) : scmd := foldl m_redir c rs.
(** An argument goes to the command under the redirections. *)
Fixpoint m_add (w : list Z) (c : scmd) : scmd :=
  match c with SExec argv => SExec (argv ++ [w]) | SRedir c f m fd => SRedir (m_add w c) f m fd | c => c end.
Definition m_arg (c : scmd) (a : list Z * list redir) : scmd := m_redirs (m_add a.1 c) a.2.
Fixpoint m_back (k : nat) (c : scmd) : scmd := match k with O => c | S k => m_back k (SBack c) end.
Fixpoint m_line (l : line) : scmd :=
  match l with LOne p k => m_back k (m_pipe p) | LSeq p k l => SList (m_back k (m_pipe p)) (m_line l) end
with m_pipe (p : pipeline) : scmd :=
  match p with POne e => m_command e | PSeq e p => SPipe (m_command e) (m_pipe p) end
with m_command (e : command) : scmd :=
  match e with
  | Simple rs args => foldl m_arg (m_redirs (SExec []) rs) args
  | Block l rs => m_redirs (m_line l) rs
  end.

(** Words are words, and there are not too many. *)
Definition plain (c : Z) : Prop := c ≠ 0 ∧ is_in whitespace c = false ∧ is_in symbols c = false.
Definition is_word (w : list Z) : Prop := w ≠ [] ∧ Forall plain w.
Definition wf_redirs (rs : list redir) : Prop := Forall (λ r, is_word r.2) rs.
Fixpoint wf_line (l : line) : Prop :=
  match l with LOne p k => wf_pipe p | LSeq p k l => wf_pipe p ∧ wf_line l end
with wf_pipe (p : pipeline) : Prop :=
  match p with POne e => wf_command e | PSeq e p => wf_command e ∧ wf_pipe p end
with wf_command (e : command) : Prop :=
  match e with
  | Simple rs args => wf_redirs rs ∧ Forall (λ a, is_word a.1 ∧ wf_redirs a.2) args ∧ (length args < MAXARGS)%nat
  | Block l rs => wf_line l ∧ wf_redirs rs
  end.

(** The command of pointers [c] with its strings, read with [str]. *)
Fixpoint spell (str : nat * nat → list Z) (c : cmd) : scmd :=
  match c with
  | EXEC argv => SExec (str <$> argv)
  | REDIR c file efile mode fd => SRedir (spell str c) (str (file, efile)) mode fd
  | PIPE l r => SPipe (spell str l) (spell str r)
  | LIST l r => SList (spell str l) (spell str r)
  | BACK c => SBack (spell str c)
  end.

Lemma spell_ext str str' c : (∀ w, w ∈ strings c → str w = str' w) → spell str c = spell str' c.
Proof.
  induction c as [argv|c IH f e m fd|l IHl r IHr|l IHl r IHr|c IH]; cbn [spell strings]; intros H; f_equal.
  - apply list_fmap_ext. intros i w Hw. apply H. by eapply list_elem_of_lookup_2.
  - apply IH. intros w Hw. apply H, elem_of_app. by left.
  - apply H, elem_of_app. right. constructor.
  - apply IHl. intros w Hw. apply H, elem_of_app. by left.
  - apply IHr. intros w Hw. apply H, elem_of_app. by right.
  - apply IHl. intros w Hw. apply H, elem_of_app. by left.
  - apply IHr. intros w Hw. apply H, elem_of_app. by right.
  - by apply IH.
Qed.

(** ** Reading the text *)

Section read.
Context (buf : list Z) (Hbuf : Forall (λ c, c ≠ 0) buf).
Notation es := (length buf).
Notation reads := (gwp True (λ _, False)).
Notation spell := (spell (text buf)).

(** The rest of the line. *)
Definition at_ (s : nat) (r : list Z) : Prop := drop s buf = r ∧ (s ≤ es)%nat.
Definition nsp (r : list Z) : Prop := match r with [] => True | c :: _ => is_in whitespace c = false end.

Lemma at_chr s c r : at_ s (c :: r) → chr buf s = c ∧ (s < es)%nat ∧ at_ (S s) r ∧ c ≠ 0.
Proof.
  intros [E Hs]. assert (s < es)%nat as Hlt. { destruct (decide (s < es)%nat); [done|]. rewrite drop_ge in E by lia. done. }
  destruct (lookup_lt_is_Some_2 buf s Hlt) as [x Hx]. rewrite (drop_S _ _ _ Hx) in E. injection E as -> E. unfold chr. rewrite Hx.
  split; [done|]. split; [done|]. split; [split; [done|lia]|]. exact (Forall_lookup_1 _ _ _ _ Hbuf Hx).
Qed.
Lemma at_end s : at_ s [] → s = es ∧ chr buf s = 0.
Proof.
  intros [E Hs]. assert (s = es) as ->. { pose proof (length_drop buf s) as El. rewrite E in El. cbn in El. lia. }
  split; [done|]. unfold chr. by rewrite lookup_ge_None_2.
Qed.
Lemma at_app s l r : at_ s (l ++ r) → at_ (s + length l) r.
Proof.
  revert s. induction l as [|c l IH]; intros s H; cbn [app length] in *; [by rewrite Nat.add_0_r|].
  apply at_chr in H as (_ & _ & H & _). replace (s + S (length l))%nat with (S s + length l)%nat by lia. by apply IH.
Qed.

Lemma scan_at p s l r : at_ s (l ++ r) → Forall (λ c, p c = true) l → match r with [] => True | c :: _ => p c = false end →
  scan buf p (es - s) s = (s + length l)%nat.
Proof.
  revert s. induction l as [|c l IH]; intros s H Hl Hr; cbn [app length] in *.
  - rewrite Nat.add_0_r. destruct (es - s)%nat as [|n]; [done|]. cbn [scan]. destruct r as [|c r].
    + apply at_end in H as [-> _]. by rewrite Nat.ltb_irrefl.
    + apply at_chr in H as (-> & _ & _). by rewrite Hr, andb_false_r.
  - inversion Hl; subst. apply at_chr in H as (Ec & Hlt & H & _). replace (es - s)%nat with (S (es - S s)) by lia. cbn [scan].
    rewrite Ec, (proj2 (Nat.ltb_lt _ _)) by done. match goal with H : p c = true |- _ => rewrite H end. cbn [andb].
    rewrite IH by done. lia.
Qed.
Lemma skip_at s r : at_ s r → nsp r → skip_space buf s = s.
Proof. intros H Hr. unfold skip_space. rewrite (scan_at _ s [] r); [cbn; lia|done|constructor|by destruct r]. Qed.
Lemma skip_space_at s r : at_ s (32 :: r) → nsp r → skip_space buf s = S s.
Proof. intros H Hr. unfold skip_space. rewrite (scan_at _ s [32] r); [cbn; lia|done|by repeat constructor|by destruct r]. Qed.

Lemma peek_at toks s r : at_ s r → nsp r → reads (peek buf toks) (λ b s', b = match r with [] => false | c :: _ => is_in toks c end ∧ s' = s) s.
Proof.
  intros H Hr. unfold peek. repeat gwp_step. rewrite (skip_at s r) by done. split; [|done]. destruct r as [|c r].
  - apply at_end in H as [_ ->]. done.
  - apply at_chr in H as (-> & _ & _ & Hc). unfold truthy. by rewrite (proj2 (Z.eqb_neq c 0)).
Qed.

Lemma gettoken_at s c r (r' : list Z) t eq : at_ s (c :: r) → is_in whitespace c = false → token buf s = (t, eq) → at_ eq (32 :: r') → nsp r' →
  reads (gettoken buf) (λ a s', a = (t, s, eq) ∧ at_ s' r') s.
Proof.
  intros H Hc Ht He Hr. unfold gettoken. repeat gwp_step. rewrite (skip_at s (c :: r)) by done. rewrite Ht. repeat gwp_step.
  rewrite (skip_space_at eq r') by done. split; [done|]. by apply at_chr in He as (_ & _ & ? & _).
Qed.

Lemma symbol_at s c r : at_ s (c :: 32 :: r) → nsp r → is_in [124; 40; 41; 59; 38; 60; 62] c = true →
  reads (gettoken buf) (λ a s', a = (c, s, S s) ∧ at_ s' r) s.
Proof.
  intros H Hr Hc. pose proof H as (Ec & _ & H1 & Hnz)%at_chr. pose proof H1 as (Ec1 & _)%at_chr.
  assert (is_in whitespace c = false) as Hw.
  { unfold is_in in *. cbn in *. repeat (apply orb_true_iff in Hc as [->%Z.eqb_eq|Hc]; [done|]). done. }
  eapply gettoken_at; [exact H|done| |exact H1|done]. unfold token. rewrite Ec, Ec1, (proj2 (Z.eqb_neq c 0)) by done. cbv zeta.
  destruct (is_in [124; 40; 41; 59; 38; 60] c) eqn:E; [done|]. destruct (Z.eqb_spec c 62) as [->|]; [done|].
  exfalso. unfold is_in in *. cbn in *. rewrite !orb_true_iff, !Z.eqb_eq in Hc. rewrite !orb_false_iff, !Z.eqb_neq in E. naive_solver.
Qed.
Lemma append_at s r : at_ s (62 :: 62 :: 32 :: r) → nsp r → reads (gettoken buf) (λ a s', a = (43, s, S (S s)) ∧ at_ s' r) s.
Proof.
  intros H Hr. pose proof H as (Ec & _ & H1 & _)%at_chr. pose proof H1 as (Ec1 & _ & H2 & _)%at_chr.
  eapply gettoken_at; [exact H|done| |exact H2|done]. unfold token. by rewrite Ec, Ec1.
Qed.
Lemma word_at w s r : at_ s (w ++ 32 :: r) → nsp r → is_word w →
  reads (gettoken buf) (λ a s', a = (97, s, (s + length w)%nat) ∧ text buf (s, (s + length w)%nat) = w ∧ at_ s' r) s.
Proof.
  intros H Hr [Hne Hw]. destruct w as [|c w]; [done|]. pose proof Hw as ((Hc0 & Hcw & Hcs) & _)%list.Forall_cons_1. cbn [app] in H. pose proof H as (Ec & _)%at_chr.
  eapply gwp_mono; [eapply (gettoken_at s c (w ++ 32 :: r) r 97 (s + length (c :: w))); [exact H|done| |by apply (at_app s (c :: w))|done]|].
  - unfold token. rewrite Ec, (proj2 (Z.eqb_neq c 0)) by done. cbv zeta. unfold is_in, symbols in Hcs. cbn in Hcs. rewrite !orb_false_iff in Hcs.
    destruct Hcs as (C1 & C2 & C3 & C4 & C5 & C6 & C7 & _).
    assert (is_in [124; 40; 41; 59; 38; 60] c = false) as -> by (unfold is_in; cbn; by rewrite C1, C2, C4, C5, C6, C7). rewrite C3. f_equal.
    eapply (scan_at _ s (c :: w) (32 :: r)); [done| |done]. eapply Forall_impl; [|exact Hw]. intros x (_ & -> & ->). done.
  - cbv beta. intros a s' [-> Ha]. split; [done|]. split; [|done]. unfold text. cbn [fst snd]. destruct H as [-> _].
    replace (s + length (c :: w) - s)%nat with (length (c :: w)) by lia. change (c :: w ++ 32 :: r) with ((c :: w) ++ 32 :: r). by rewrite take_app_length.
Qed.

(** ** Reading the pieces *)

Definition head_in (set : list Z) (r : list Z) : Prop := match r with [] => True | c :: _ => is_in set c = true end.
Definition head_out (set : list Z) (r : list Z) : Prop := match r with [] => True | c :: _ => is_in set c = false end.

Lemma spell_add q eq w c : text buf (q, eq) = w → spell (add_arg q eq c) = m_add w (spell c).
Proof.
  intros E. induction c as [argv|c IH f e m fd| | |]; cbn; try done; [by rewrite fmap_app, <-E|by rewrite IH].
Qed.

Lemma nsp_word w r : is_word w → nsp (w ++ r).
Proof. intros [Hne Hw]. destruct w as [|c w]; [done|]. cbn. by apply list.Forall_cons_1 in Hw as ((_ & ? & _) & _). Qed.
Lemma nsp_redirs rs r : nsp r → nsp (pr_redirs rs ++ r).
Proof. destruct rs as [|[[] w] rs]; done. Qed.
Lemma nsp_args args r : Forall (λ a, is_word a.1 ∧ wf_redirs a.2) args → nsp r → nsp (concat (pr_arg <$> args) ++ r).
Proof. destruct args as [|[w rs] args]; [done|]. intros [[Hw _] _]%list.Forall_cons_1 _. cbn. rewrite <-!app_assoc. by apply nsp_word. Qed.

Lemma redirs_at rs : ∀ c s r fuel, at_ s (pr_redirs rs ++ r) → wf_redirs rs → nsp r → head_out [60; 62] r →
  reads (loop fuel (parseredirs_turn buf) c) (λ c' s', at_ s' r ∧ spell c' = m_redirs (spell c) rs ∧ ∀ n, simple n c → simple n c') s.
Proof.
  induction rs as [|[k w] rs IH]; intros c s r fuel H Hw Hr Ho; (apply gwp_loop_step; [done|]); unfold parseredirs_turn; gwp_step.
  - cbn in H. eapply gwp_mono; [by eapply peek_at|]. cbv beta. intros b s' [-> ->]. assert ((match r with [] => false | c :: _ => is_in [60; 62] c end) = false) as -> by by destruct r.
    by gwp_step.
  - apply list.Forall_cons_1 in Hw as [Hw Hws]. cbn [snd] in Hw. assert (pr_redirs (@cons redir (k, w) rs) ++ r = pr_kind k ++ 32 :: w ++ 32 :: pr_redirs rs ++ r) as E.
    { unfold pr_redirs, pr_redir. cbn. rewrite <-!app_assoc. cbn. by rewrite <-!app_assoc. }
    rewrite E in H. assert (nsp (pr_redirs rs ++ r)) as Hn by by apply nsp_redirs. assert (nsp (w ++ 32 :: pr_redirs rs ++ r)) as Hnw by by apply nsp_word.
    eapply gwp_mono; [eapply peek_at; [exact H|by destruct k]|]. cbv beta. intros b s' [-> ->].
    assert (match pr_kind k ++ 32 :: w ++ 32 :: pr_redirs rs ++ r with [] => false | c :: _ => is_in [60; 62] c end = true) as -> by by destruct k.
    gwp_step. set (t := match k with RIn => 60 | ROut => 62 | RApp => 43 end).
    apply (gwp_mono _ (λ a s', a.1.1 = t ∧ at_ s' (w ++ 32 :: pr_redirs rs ++ r))).
    { destruct k; cbn [pr_kind app] in H; (eapply gwp_mono; [(eapply symbol_at; [exact H|done|done]) || (eapply append_at; [exact H|done])|]); cbv beta; by intros a s' [-> ?]. }
    intros [[tok q0] eq0] s1 [Et H1]. cbn in Et. subst tok. gwp_step. eapply gwp_mono; [eapply word_at; [exact H1|done|done]|]. cbv beta. intros [[t' q] eq] s2 ([= -> -> ->] & Etx & H2).
    change (negb (97 =? 97)) with false. cbv iota.
    assert (∀ c', spell c' = m_redir (spell c) (k, w) → (∀ n, simple n c → simple n c') → ∀ fuel,
      reads (loop fuel (parseredirs_turn buf) c') (λ c' s', at_ s' r ∧ spell c' = m_redirs (spell c) ((k, w) :: rs) ∧ ∀ n, simple n c → simple n c') s2) as Hnext.
    { intros c' Ec Hs fuel'. eapply gwp_mono; [by apply IH|]. cbv beta. intros c2 s3 (H3 & E3 & Hs3). split; [done|]. split; [by rewrite E3, Ec|eauto]. }
    unfold t. destruct k; cbn [Z.eqb Pos.eqb]; gwp_step; intros fuel'; (apply Hnext; [unfold redircmd; cbn [ShPrint.spell m_redir fst snd]; by rewrite Etx|done]).
Qed.

Lemma args_at args : ∀ c n s r fuel, at_ s (concat (pr_arg <$> args) ++ r) → Forall (λ a, is_word a.1 ∧ wf_redirs a.2) args → nsp r → head_in [124; 41; 38; 59] r →
  simple n c → (n + length args < MAXARGS)%nat →
  reads (loop fuel (parseexec_turn buf) (c, n)) (λ c' s', at_ s' r ∧ spell c' = foldl m_arg (spell c) args) s.
Proof.
  induction args as [|[w rs] args IH]; intros c n s r fuel H Hw Hr Hin Hc Hn; (apply gwp_loop_step; [done|]); unfold parseexec_turn; gwp_step.
  - cbn in H. eapply gwp_mono; [by eapply peek_at|]. cbv beta. intros b s' [-> ->]. destruct r as [|c0 r].
    + gwp_step. unfold gettoken. repeat gwp_step. rewrite (skip_at s []) by done. unfold token. apply at_end in H as Hz. destruct Hz as [Es ->]. cbn [Z.eqb].
      cbv zeta. repeat gwp_step. rewrite (skip_at s []) by done. change (0 =? 0) with true. cbv iota. by gwp_step.
    + unfold head_in in Hin. rewrite Hin. by gwp_step.
  - apply list.Forall_cons_1 in Hw as [[Hw Hrs] Hws]. cbn [fst snd] in Hw, Hrs.
    assert (concat (pr_arg <$> (w, rs) :: args) ++ r = w ++ 32 :: pr_redirs rs ++ concat (pr_arg <$> args) ++ r) as E.
    { cbn. unfold pr_arg at 1. cbn. rewrite <-!app_assoc. cbn. by rewrite <-?app_assoc. }
    rewrite E in H. set (r' := concat (pr_arg <$> args) ++ r) in *. assert (nsp r') as Hr' by by apply nsp_args. assert (nsp (pr_redirs rs ++ r')) as Hn' by by apply nsp_redirs.
    eapply gwp_mono; [eapply peek_at; [exact H|by apply nsp_word]|]. cbv beta. intros b s' [-> ->].
    assert (match w ++ 32 :: pr_redirs rs ++ r' with [] => false | c :: _ => is_in [124; 41; 38; 59] c end = false) as ->.
    { destruct Hw as [Hne Hw]. destruct w as [|x w]; [done|]. apply list.Forall_cons_1 in Hw as [(_ & _ & Hs) _]. cbn in *. rewrite !orb_false_iff in *. tauto. }
    gwp_step. eapply gwp_mono; [eapply word_at; [exact H|done|done]|]. cbv beta. intros [[t q] eq] s1 ([= -> -> ->] & Etx & H1).
    change (97 =? 0) with false. change (negb (97 =? 97)) with false. cbv iota. cbn [length] in Hn. rewrite (proj2 (Nat.leb_gt _ _)) by lia. gwp_step.
    assert (simple (S n) (add_arg s (s + length w) c)) as Hc'.
    { clear -Hc. induction c; cbn in *; try done; [|auto]. rewrite length_app. cbn. lia. }
    eapply gwp_mono; [apply (redirs_at rs); [exact H1|done|done|]|].
    { unfold r'. destruct args as [|[w' rs'] args]; cbn; [destruct r as [|c0 r]; [done|]; cbn in *; rewrite !orb_true_iff, !Z.eqb_eq in Hin; naive_solver|].
      apply list.Forall_cons_1 in Hws as [[[Hne Hw'] _] _]. cbn in Hw', Hne. destruct w' as [|x w']; [done|]. cbn. apply list.Forall_cons_1 in Hw' as [(_ & _ & Hs) _].
      cbn in Hs. rewrite !orb_false_iff in *. tauto. }
    cbv beta. intros c' s2 (H2 & E2 & Hs2). gwp_step. intros fuel'. eapply gwp_mono; [apply (IH c' (S n)); [exact H2|done|done|done|auto|lia]|].
    cbv beta. intros c2 s3 [H3 E3]. split; [done|]. rewrite E3, E2. cbn [foldl]. unfold m_arg at 2. cbn [fst snd]. by rewrite (spell_add _ _ w).
Qed.

Lemma back_at k : ∀ c s r fuel, at_ s (pr_back k ++ r) → nsp r → head_out [38] r →
  reads (loop fuel (parseback_turn buf) c) (λ c' s', at_ s' r ∧ spell c' = m_back k (spell c)) s.
Proof.
  induction k as [|k IH]; intros c s r fuel H Hr Ho; (apply gwp_loop_step; [done|]); unfold parseback_turn; gwp_step.
  - cbn in H. eapply gwp_mono; [by eapply peek_at|]. cbv beta. intros b s' [-> ->]. assert ((match r with [] => false | c :: _ => is_in [38] c end) = false) as -> by by destruct r.
    by gwp_step.
  - change (pr_back (S k) ++ r) with (38 :: 32 :: pr_back k ++ r) in H. assert (nsp (pr_back k ++ r)) as Hn by by destruct k.
    eapply gwp_mono; [by eapply peek_at|]. cbv beta. intros b s' [-> ->]. change (is_in [38] 38) with true. cbv iota. gwp_step.
    eapply gwp_mono; [eapply symbol_at; [exact H|done|done]|]. cbv beta. intros [[? ?] ?] s1 [_ H1]. gwp_step. intros fuel'.
    eapply gwp_mono; [by apply IH|]. cbv beta. intros c' s2 [H2 E2]. by split.
Qed.

(** What follows a line, a pipeline and a command. *)
Lemma nsp_line l r : wf_line l → nsp r → nsp (pr_line l ++ r)
with nsp_pipe p r : wf_pipe p → nsp r → nsp (pr_pipe p ++ r)
with nsp_command e r : wf_command e → nsp r → nsp (pr_command e ++ r).
Proof.
  - destruct l as [p k|p k l]; cbn [pr_line wf_line]; intros Hw Hr; rewrite <-!app_assoc; [|destruct Hw as [Hw _]]; (apply nsp_pipe; [done|]); by destruct k.
  - destruct p as [e|e p]; cbn [pr_pipe wf_pipe]; intros Hw Hr; rewrite <-?app_assoc; [by apply nsp_command|]. destruct Hw as [Hw _]. by apply nsp_command.
  - destruct e as [rs args|l rs]; cbn [pr_command wf_command]; intros Hw Hr; [|done]. destruct Hw as (Hrs & Ha & _). rewrite <-app_assoc. by apply nsp_redirs, nsp_args.
Qed.

Lemma head_back k r set : head_in set r → is_in set 38 = true → head_in set (pr_back k ++ r).
Proof. by destruct k. Qed.

Notation spelled r m := (λ c s', at_ s' r ∧ spell c = m).

Lemma command_at rs args f s r : wf_command (Simple rs args) → at_ s (pr_command (Simple rs args) ++ r) → nsp r → head_in [124; 41; 38; 59] r →
  reads (parseexec buf f) (spelled r (m_command (Simple rs args))) s.
Proof.
  intros (Hrs & Ha & Hn) H Hr Hh. destruct f as [|f]; [done|]. cbn [parseexec]. cbn [pr_command] in H. rewrite <-app_assoc in H.
  assert (nsp (concat (pr_arg <$> args) ++ r)) as Hn1 by by apply nsp_args. gwp_step.
  eapply gwp_mono; [eapply peek_at; [exact H|by apply nsp_redirs]|]. cbv beta. intros b s' [-> ->].
  assert (∀ x, is_in [60; 62] x = true → is_in [40] x = false) as A1 by (intros x; unfold is_in; cbn; rewrite !orb_true_iff, !orb_false_iff, !Z.eqb_eq, !Z.eqb_neq; lia).
  assert (∀ x, is_in [124; 41; 38; 59] x = true → is_in [40] x = false ∧ is_in [60; 62] x = false) as A2.
  { intros x. unfold is_in. cbn. rewrite !orb_true_iff, !orb_false_iff, !Z.eqb_eq, !Z.eqb_neq. lia. }
  assert (∀ x, is_in symbols x = false → is_in [40] x = false ∧ is_in [60; 62] x = false) as A3.
  { intros x. unfold is_in. cbn. rewrite !orb_false_iff, !Z.eqb_neq. lia. }
  assert (head_out [40] (concat (pr_arg <$> args) ++ r) ∧ head_out [60; 62] (concat (pr_arg <$> args) ++ r)) as [Ho1 Ho2].
  { destruct args as [|[w rs'] args]; [destruct r as [|c r]; [done|by apply A2]|]. apply list.Forall_cons_1 in Ha as [[[Hne Hw] _] _]. cbn [fst] in Hw, Hne.
    destruct w as [|x w]; [done|]. apply list.Forall_cons_1 in Hw as [(_ & _ & Hs) _]. by apply A3. }
  assert (match pr_redirs rs ++ concat (pr_arg <$> args) ++ r with [] => false | c :: _ => is_in [40] c end = false) as ->.
  { destruct rs as [|[[] w] rs]; [cbn [app]|done..]. change (pr_redirs []) with (@nil Z). cbn [app]. destruct (concat (pr_arg <$> args) ++ r); [done|exact Ho1]. }
  gwp_step. unfold parseredirs. eapply gwp_mono; [by apply redirs_at|]. cbv beta. intros c s1 (H1 & E1 & Hs1).
  eapply gwp_mono; [apply (args_at args c 0); [exact H1|done..|by apply Hs1|done]|]. cbv beta. intros c' s2 [H2 E2]. split; [done|]. rewrite E2, E1. done.
Qed.

Lemma syntax_at :
  (∀ l, wf_line l → ∀ f s r, at_ s (pr_line l ++ r) → nsp r → head_in [41] r → reads (parseline buf f) (spelled r (m_line l)) s) ∧
  (∀ p, wf_pipe p → ∀ f s r, at_ s (pr_pipe p ++ r) → nsp r → head_in [41; 38; 59] r → reads (parsepipe buf f) (spelled r (m_pipe p)) s) ∧
  (∀ e, wf_command e → ∀ f s r, at_ s (pr_command e ++ r) → nsp r → head_in [124; 41; 38; 59] r → reads (parseexec buf f) (spelled r (m_command e)) s).
Proof.
  apply syntax_ind.
  - intros p IHp k Hw f s r H Hr Hh. destruct f as [|f]; [done|]. cbn [parseline]. cbn [pr_line] in H. rewrite <-app_assoc in H. gwp_step.
    eapply gwp_mono; [eapply IHp; [done|exact H|by destruct k|apply head_back; [|done]]|].
    { destruct r as [|c r]; [done|]. cbn in *. destruct (c =? 41); done. }
    cbv beta. intros c s1 [H1 E1]. gwp_step. eapply gwp_mono; [apply (back_at k); [exact H1|done|]|].
    { destruct r as [|c0 r]; [done|]. cbn in *. rewrite orb_false_r in *. apply Z.eqb_eq in Hh as ->. done. }
    cbv beta. intros c' s2 [H2 E2]. gwp_step. eapply gwp_mono; [by eapply peek_at|]. cbv beta. intros b s3 [-> ->].
    assert ((match r with [] => false | c :: _ => is_in [59] c end) = false) as ->.
    { destruct r as [|c0 r]; [done|]. cbn in *. rewrite orb_false_r in *. apply Z.eqb_eq in Hh as ->. done. }
    gwp_step. split; [done|]. by rewrite E2, E1.
  - intros p IHp k l IHl [Hw Hwl] f s r H Hr Hh. destruct f as [|f]; [done|]. cbn [parseline]. cbn [pr_line] in H. rewrite <-!app_assoc in H. cbn [app] in H. gwp_step.
    eapply gwp_mono; [eapply IHp; [done|exact H|by destruct k|by apply head_back]|]. cbv beta. intros c s1 [H1 E1]. gwp_step.
    eapply gwp_mono; [by apply (back_at k)|]. cbv beta. intros c' s2 [H2 E2]. gwp_step. eapply gwp_mono; [by eapply peek_at|]. cbv beta. intros b s3 [-> ->].
    change (is_in [59] 59) with true. cbv iota. gwp_step. eapply gwp_mono; [eapply symbol_at; [exact H2|by apply nsp_line|done]|]. cbv beta. intros [[? ?] ?] s4 [_ H4].
    gwp_step. eapply gwp_mono; [by apply IHl|]. cbv beta. intros c2 s5 [H5 E5]. gwp_step. split; [done|]. cbn. by rewrite E2, E1, E5.
  - intros e IHe Hw f s r H Hr Hh. destruct f as [|f]; [done|]. cbn [parsepipe]. gwp_step. eapply gwp_mono; [eapply IHe; [done|exact H|done|]|].
    { destruct r as [|c r]; [done|]. cbn in *. by rewrite Hh, orb_true_r. }
    cbv beta. intros c s1 [H1 E1]. gwp_step. eapply gwp_mono; [by eapply peek_at|]. cbv beta. intros b s2 [-> ->].
    assert ((match r with [] => false | c :: _ => is_in [124] c end) = false) as ->.
    { destruct r as [|c0 r]; [done|]. cbn in *. rewrite !orb_true_iff, !Z.eqb_eq in Hh. rewrite orb_false_r. apply Z.eqb_neq. lia. }
    by gwp_step.
  - intros e IHe p IHp [Hw Hwp] f s r H Hr Hh. destruct f as [|f]; [done|]. cbn [parsepipe]. cbn [pr_pipe] in H. rewrite <-app_assoc in H. cbn [app] in H. gwp_step.
    eapply gwp_mono; [by eapply IHe|]. cbv beta. intros c s1 [H1 E1]. gwp_step. eapply gwp_mono; [by eapply peek_at|]. cbv beta. intros b s2 [-> ->].
    change (is_in [124] 124) with true. cbv iota. gwp_step. eapply gwp_mono; [eapply symbol_at; [exact H1|by apply nsp_pipe|done]|]. cbv beta. intros [[? ?] ?] s3 [_ H3].
    gwp_step. eapply gwp_mono; [by apply IHp|]. cbv beta. intros c2 s4 [H4 E4]. gwp_step. split; [done|]. cbn. by rewrite E1, E4.
  - intros rs args Hw f s r H Hr Hh. by apply command_at.
  - intros l IHl rs [Hw Hrs] f s r H Hr Hh. destruct f as [|f]; [done|]. cbn [parseexec]. cbn [pr_command] in H. cbn [app] in H. rewrite <-app_assoc in H. cbn [app] in H.
    gwp_step. eapply gwp_mono; [by eapply peek_at|]. cbv beta. intros b s1 [-> ->]. change (is_in [40] 40) with true. cbv iota.
    destruct f as [|f]; [done|]. cbn [parseblock]. gwp_step. eapply gwp_mono; [by eapply peek_at|]. cbv beta. intros b s1 [-> ->]. change (negb (is_in [40] 40)) with false. cbv iota.
    gwp_step. eapply gwp_mono; [eapply symbol_at; [exact H|by apply nsp_line|done]|]. cbv beta. intros [[? ?] ?] s2 [_ H2].
    gwp_step. eapply gwp_mono; [by apply IHl|]. cbv beta. intros c s3 [H3 E3].
    gwp_step. eapply gwp_mono; [by eapply peek_at|]. cbv beta. intros b s4 [-> ->]. change (negb (is_in [41] 41)) with false. cbv iota.
    gwp_step. eapply gwp_mono; [eapply symbol_at; [exact H3|by apply nsp_redirs|done]|]. cbv beta. intros [[? ?] ?] s5 [_ H5].
    unfold parseredirs. eapply gwp_mono; [apply (redirs_at rs); [exact H5|done|done|]|].
    { destruct r as [|c0 r]; [done|]. cbn in *. rewrite !orb_true_iff, !Z.eqb_eq in Hh. rewrite !orb_false_iff, !Z.eqb_neq. lia. }
    cbv beta. intros c' s6 (H6 & E6 & _). split; [done|]. rewrite E6, E3. done.
Qed.

Lemma parse_at l : wf_line l → buf = pr_line l → reads (parse buf) (λ c _, spell c = m_line l) 0%nat.
Proof.
  intros Hw E. unfold parse. gwp_step. eapply gwp_mono; [eapply (proj1 syntax_at l Hw _ 0%nat []); [|done|done]|].
  { split; [by rewrite app_nil_r|lia]. }
  cbv beta. intros c s [H Ec]. gwp_step. eapply gwp_mono; [by eapply peek_at|]. cbv beta. intros b s2 [_ ->]. repeat gwp_step.
  apply at_end in H as [-> _]. rewrite Nat.eqb_refl. cbn [negb]. by gwp_step.
Qed.

End read.

(** The text of a line has no nul. *)
Lemma chars_redirs rs : wf_redirs rs → Forall (λ c, c ≠ 0) (pr_redirs rs).
Proof.
  induction 1 as [|[k w] rs [_ Hw] _ IH]; [constructor|]. unfold pr_redirs. cbn. apply Forall_app. split; [|done]. unfold pr_redir. cbn [fst snd].
  apply Forall_app. split; [by destruct k; repeat constructor|]. constructor; [done|]. apply Forall_app. split; [|by repeat constructor].
  eapply Forall_impl; [|exact Hw]. by intros c [? _].
Qed.
Lemma chars_args args : Forall (λ a, is_word a.1 ∧ wf_redirs a.2) args → Forall (λ c, c ≠ 0) (concat (pr_arg <$> args)).
Proof.
  induction 1 as [|[w rs] args [[_ Hw] Hrs] _ IH]; [constructor|]. cbn. apply Forall_app. split; [|done]. unfold pr_arg. cbn [fst snd].
  apply Forall_app. split; [eapply Forall_impl; [|exact Hw]; by intros c [? _]|]. constructor; [done|by apply chars_redirs].
Qed.
Lemma chars_back k : Forall (λ c, c ≠ 0) (pr_back k).
Proof. induction k as [|k IH]; [constructor|]. unfold pr_back. cbn. by repeat constructor. Qed.
Lemma chars_line l : wf_line l → Forall (λ c, c ≠ 0) (pr_line l)
with chars_pipe p : wf_pipe p → Forall (λ c, c ≠ 0) (pr_pipe p)
with chars_command e : wf_command e → Forall (λ c, c ≠ 0) (pr_command e).
Proof.
  - destruct l as [p k|p k l]; cbn [pr_line wf_line]; intros Hw; [apply Forall_app; split; [by apply chars_pipe|by apply chars_back]|]. destruct Hw as [Hw Hl].
    apply Forall_app. split; [by apply chars_pipe|]. apply Forall_app. split; [by apply chars_back|]. constructor; [done|]. constructor; [done|by apply chars_line].
  - destruct p as [e|e p]; cbn [pr_pipe wf_pipe]; intros Hw; [by apply chars_command|]. destruct Hw as [Hw Hp].
    apply Forall_app. split; [by apply chars_command|]. constructor; [done|]. constructor; [done|by apply chars_pipe].
  - destruct e as [rs args|l rs]; cbn [pr_command wf_command]; intros Hw.
    + destruct Hw as (Hrs & Ha & _). apply Forall_app. split; [by apply chars_redirs|by apply chars_args].
    + destruct Hw as [Hl Hrs]. constructor; [done|]. constructor; [done|]. apply Forall_app. split; [by apply chars_line|].
      constructor; [done|]. constructor; [done|by apply chars_redirs].
Qed.

(** C11. The shell understands every command line.  For every line of the syntax,
    with words without special characters and not too many arguments, [parsecmd]
    of its text returns the command it means: the lists, pipelines, background
    commands, redirections and arguments, as nul-terminated strings in the
    line. *)
Theorem parsecmd_print l : wf_line l →
  ∃ c line', parsecmd (pr_line l) = OK c line' ∧ spell (λ w, cstr (drop w.1 line')) c = m_line l.
Proof.
  intros Hw. pose proof (chars_line l Hw) as Hc.
  destruct (gwp_both _ _ _ _ (λ f, f) (λ _ f, f) (parse_at _ Hc l Hw eq_refl) (parse_ends _ Hc)) as (c & s & E & Es & Hok).
  exists c, (nulterminate c (pr_line l)). unfold parsecmd. rewrite E. split; [done|]. rewrite <-Es. apply spell_ext. intros w Hin.
  by apply nulterminate_text.
Qed.

(** [( ls -l | wc > out ) & ; cat < in] *)
Definition ex_line : line :=
  LSeq (POne (Block (LOne (PSeq (Simple [] [([108; 115], []); ([45; 108], [])]) (POne (Simple [] [([119; 99], [(ROut, [111; 117; 116])])]))) 0) [])) 1
    (LOne (POne (Simple [] [([99; 97; 116], [(RIn, [105; 110])])])) 0).
Lemma parsecmd_print_witness : ∃ c line', parsecmd (pr_line ex_line) = OK c line' ∧ spell (λ w, cstr (drop w.1 line')) c = m_line ex_line.
Proof. apply (parsecmd_print ex_line). repeat (split || constructor || discriminate || (cbn; lia)). Defined.
