(* ===== verification/UPrintf.v ===== *)
(** * Formatted output of user programs: user/printf.c

    The functions return the bytes they pass to [putc], in order.  [None] is an
    argument list that does not fit the format, for which C gives no meaning. *)

From stdpp Require Import base gmap list strings numbers.
From S2P Require Import Prelude.

(** Arguments: an integer passed by value, or a string pointer ([None] is the
    null pointer). *)
Inductive varg := VNum (z : Z) | VStr (s : option (list Z)).

Definition digits : list Z :=
  [48; 49; 50; 51; 52; 53; 54; 55; 56; 57; 65; 66; 67; 68; 69; 70].
Definition digit (d : Z) : Z := default 0 (digits !! Z.to_nat d).

(** The [do ... while] of [printint]: the characters stored in [buf], in the
    order they are stored.  A 32-bit number has at most 32 digits. *)
Fixpoint int_digits (fuel : nat) (x base : Z) : list Z :=
  match fuel with
  | O => []
  | S f =>
      let c := digit (x mod base) in
      let x' := x / base in
      if negb (x' =? 0) then c :: int_digits f x' base else [c]
  end.

Definition printint (xx base : Z) (sgn : bool) : list Z :=
  let neg := sgn && (xx <? 0) in
  let x := if neg then u32 (- xx) else u32 xx in
  let buf := int_digits 32 x base in
  reverse (if neg then buf ++ [45] else buf).

Fixpoint ptr_digits (n : nat) (x : Z) : list Z :=
  match n with
  | O => []
  | S n' => digit (Z.shiftr x 60) :: ptr_digits n' (u64 (Z.shiftl x 4))
  end.
Definition printptr (x : Z) : list Z := [48; 120] ++ ptr_digits 16 x.

Definition null_str : list Z := [40; 110; 117; 108; 108; 41].

Definition PCT : Z := 37.

(** One conversion: the bytes printed and the arguments left. *)
Definition conversion (c : Z) (ap : list varg) : option (list Z * list varg) :=
  if c =? 100 (* d *) then
    match ap with VNum z :: ap' => Some (printint (i32 z) 10 true, ap') | _ => None end
  else if c =? 108 (* l *) then
    match ap with VNum z :: ap' => Some (printint (i32 (u64 z)) 10 false, ap') | _ => None end
  else if c =? 120 (* x *) then
    match ap with VNum z :: ap' => Some (printint (i32 z) 16 false, ap') | _ => None end
  else if c =? 112 (* p *) then
    match ap with VNum z :: ap' => Some (printptr (u64 z), ap') | _ => None end
  else if c =? 115 (* s *) then
    match ap with VStr s :: ap' => Some (default null_str s, ap') | _ => None end
  else if c =? 99 (* c *) then
    match ap with VNum z :: ap' => Some ([u8 z], ap') | _ => None end
  else if c =? PCT then Some ([c], ap)
  else (* Unknown % sequence.  Print it to draw attention. *)
    Some ([PCT; c], ap).

(** The loop of [vprintf] over the format; [state] is 0 or '%'. *)
Fixpoint vprintf (fmt : list Z) (ap : list varg) (state : Z) : option (list Z) :=
  match fmt with
  | [] => Some []
  | c :: fmt' =>
      if state =? 0 then
        if c =? PCT then vprintf fmt' ap PCT
        else option_map (cons c) (vprintf fmt' ap 0)
      else
        match conversion c ap with
        | Some (out, ap') => option_map (app out) (vprintf fmt' ap' 0)
        | None => None
        end
  end.

Definition printf (fmt : list Z) (ap : list varg) : option (list Z) := vprintf fmt ap 0.

(** ** Numbers *)

(** The number written by digits in base 10, most significant first. *)
Definition dec_val (l : list Z) : Z := foldl (λ n c, n * 10 + (c - 48)) 0 l.

Definition is_dec (c : Z) : Prop := 48 ≤ c ≤ 57.

Lemma digit_dec d : 0 ≤ d < 10 → digit d = 48 + d.
Proof.
  intros Hd. assert (d ∈ seqZ 0 10) as Hin by (apply elem_of_seqZ; lia).
  assert (Forall (λ d, digit d = 48 + d) (seqZ 0 10)) as HF by (vm_compute; repeat constructor).
  rewrite Forall_forall in HF. by apply HF, list_elem_of_In.
Qed.

Lemma dec_val_app l c : dec_val (l ++ [c]) = dec_val l * 10 + (c - 48).
Proof. unfold dec_val. by rewrite foldl_app. Qed.

Lemma int_digits_dec fuel x :
  0 ≤ x < 10 ^ Z.of_nat fuel → (fuel ≠ 0)%nat →
  Forall is_dec (int_digits fuel x 10) ∧ dec_val (reverse (int_digits fuel x 10)) = x ∧
  (length (int_digits fuel x 10) ≤ fuel)%nat ∧ int_digits fuel x 10 ≠ [].
Proof.
  revert x. induction fuel as [|f IH]; intros x Hx Hf; [done|]. cbn [int_digits].
  pose proof (Z.mod_pos_bound x 10 ltac:(lia)) as Hm. rewrite digit_dec by done.
  assert (is_dec (48 + x mod 10)) as Hd by (unfold is_dec; lia).
  rewrite Nat2Z.inj_succ, Z.pow_succ_r in Hx by lia.
  destruct (Z.eqb_spec (x / 10) 0) as [Hz|Hnz]; cbn [negb].
  - split_and!; [by constructor; [done|constructor]| |cbn; lia|done]. cbn. zlia.
  - destruct (IH (x / 10)) as (H1 & H2 & H3 & _); [zlia| |].
    { intros ->. cbn in Hx. zlia. }
    split_and!; [by constructor| |cbn; lia|done]. rewrite reverse_cons, dec_val_app, H2. zlia.
Qed.

(** The buffer of [printint] is never overrun: at most 10 digits and a sign. *)
Lemma int_digits_length x : 0 ≤ x < 4294967296 → (length (int_digits 32 x 10) ≤ 10)%nat.
Proof.
  intros Hx. assert (∀ f g y, 0 ≤ y < 10 ^ Z.of_nat g → (g ≠ 0)%nat →
    (length (int_digits f y 10) ≤ g)%nat) as H; [|apply H; [lia|done]].
  induction f as [|f IH]; intros g y Hy Hg; cbn [int_digits]; [cbn; lia|].
  destruct g as [|g]; [done|]. rewrite Nat2Z.inj_succ, Z.pow_succ_r in Hy by lia.
  destruct (Z.eqb_spec (y / 10) 0) as [Hz|Hnz]; cbn [negb length]; [lia|].
  specialize (IH g (y / 10)). destruct g as [|g]; [cbn in Hy; zlia|].
  assert (length (int_digits f (y / 10) 10) ≤ S g)%nat by (apply IH; [zlia|done]). lia.
Qed.

Lemma printint_dec n : 0 ≤ n < 2147483648 →
  Forall is_dec (printint n 10 true) ∧ dec_val (printint n 10 true) = n ∧ printint n 10 true ≠ [].
Proof.
  intros Hn. unfold printint. ztest. rewrite u32_small by lia.
  destruct (int_digits_dec 32 n) as (H1 & H2 & _ & H4); [lia|done|].
  split_and!; [by apply Forall_reverse|done|]. intros E. apply H4.
  apply (f_equal reverse) in E. by rewrite reverse_involutive in E.
Qed.

Lemma printint_neg n : -2147483648 ≤ n < 0 →
  ∃ l, printint n 10 true = 45 :: l ∧ Forall is_dec l ∧ dec_val l = - n.
Proof.
  intros Hn. unfold printint. ztest. rewrite u32_small by lia.
  destruct (int_digits_dec 32 (- n)) as (H1 & H2 & _ & H4); [lia|done|].
  exists (reverse (int_digits 32 (- n) 10)). split_and!; [|by apply Forall_reverse|done].
  by rewrite reverse_app.
Qed.
