(* ===== verification/KPrintf.v ===== *)
(** * Console output of the kernel: kernel/printf.c

    [prst] is [pr] and [panicked] with the characters given to [consputc].
    [printf] takes its lock unless the kernel is panicking, so that the output
    of concurrent calls is not interleaved. *)

From stdpp Require Import base gmap list strings numbers.
From S2P Require Import Prelude UPrintf.

Record prst := mkPr {
  pr_locked : bool;    (* pr.lock *)
  pr_locking : bool;   (* pr.locking *)
  panicked : bool;
  cons_out : list Z;   (* the characters printed *)
}.
Definition set_pr_locked (b : bool) (s : prst) : prst :=
  mkPr b (pr_locking s) (panicked s) (cons_out s).
Definition set_pr_locking (b : bool) (s : prst) : prst :=
  mkPr (pr_locked s) b (panicked s) (cons_out s).
Definition set_panicked (b : bool) (s : prst) : prst :=
  mkPr (pr_locked s) (pr_locking s) b (cons_out s).
Definition add_out (l : list Z) (s : prst) : prst :=
  mkPr (pr_locked s) (pr_locking s) (panicked s) (cons_out s ++ l).

Definition consputc (c : Z) : M prst unit := modify (add_out [c]).
Fixpoint consputs (l : list Z) : M prst unit :=
  match l with [] => ret tt | c :: l' => consputc c ;; consputs l' end.

Definition digits : list Z :=
  [48; 49; 50; 51; 52; 53; 54; 55; 56; 57; 97; 98; 99; 100; 101; 102].
Definition digit (d : Z) : Z := default 0 (digits !! Z.to_nat d).

Fixpoint int_digits (fuel : nat) (x base : Z) : list Z :=
  match fuel with
  | O => []
  | S f =>
      let c := digit (x mod base) in
      let x' := x / base in
      if negb (x' =? 0) then c :: int_digits f x' base else [c]
  end.

Definition printint (xx base : Z) (sign : bool) : M prst unit :=
  let sign' := sign && (xx <? 0) in
  let x := if sign' then u32 (- xx) else u32 xx in
  let buf := int_digits 32 x base in
  consputs (reverse (if sign' then buf ++ [45] else buf)).

Fixpoint ptr_digits (n : nat) (x : Z) : list Z :=
  match n with
  | O => []
  | S n' => digit (Z.shiftr x 60) :: ptr_digits n' (u64 (Z.shiftl x 4))
  end.
Definition printptr (x : Z) : M prst unit :=
  consputc 48 ;; consputc 120 ;; consputs (ptr_digits 16 x).

(** The [switch] of [printf]; an argument that is missing or of the wrong type
    has no meaning. *)
Definition conversion (c : Z) (ap : list varg) : M prst (list varg) :=
  if c =? 100 (* d *) then
    match ap with VNum z :: ap' => printint (i32 z) 10 true ;; ret ap' | _ => undefined end
  else if c =? 120 (* x *) then
    match ap with VNum z :: ap' => printint (i32 z) 16 true ;; ret ap' | _ => undefined end
  else if c =? 112 (* p *) then
    match ap with VNum z :: ap' => printptr (u64 z) ;; ret ap' | _ => undefined end
  else if c =? 115 (* s *) then
    match ap with VStr s :: ap' => consputs (default null_str s) ;; ret ap' | _ => undefined end
  else if c =? PCT then consputc PCT ;; ret ap
  else (* Print unknown % sequence to draw attention. *)
    consputc PCT ;; consputc c ;; ret ap.

Fixpoint printf_loop (fmt : list Z) (ap : list varg) : M prst unit :=
  match fmt with
  | [] => ret tt
  | c :: fmt' =>
      if negb (c =? PCT) then consputc c ;; printf_loop fmt' ap
      else
        match fmt' with
        | [] => ret tt
        | c' :: fmt'' => ap' <- conversion c' ap ;; printf_loop fmt'' ap'
        end
  end.

Definition pr_acquire := acquire pr_locked set_pr_locked.
Definition pr_release := release pr_locked set_pr_locked.

(** [fmt] is [None] for the null pointer. *)
Definition printf (fmt : option (list Z)) (ap : list varg) : M prst unit :=
  locking <- gets pr_locking ;;
  (if locking then pr_acquire else ret tt) ;;
  match fmt with
  | None => panic "null fmt"
  | Some f =>
      printf_loop f ap ;;
      if locking then pr_release else ret tt
  end.

(** [panic] never returns: this is the state in which it stays. *)
Definition panic_msg (s : list Z) : M prst unit :=
  modify (set_pr_locking false) ;;
  printf (Some [112; 97; 110; 105; 99; 58; 32]) [] ;;
  printf (Some s) [] ;;
  printf (Some [10]) [] ;;
  modify (set_panicked true).

Definition printfinit : M prst unit :=
  modify (set_pr_locked false) ;;
  modify (set_pr_locking true).

(** ** The kernel and the user library print the same *)

Lemma add_out_app l l' s : add_out l' (add_out l s) = add_out (l ++ l') s.
Proof. unfold add_out. cbn. by rewrite app_assoc. Qed.
Lemma add_out_nil s : add_out [] s = s.
Proof. unfold add_out. rewrite app_nil_r. by destruct s. Qed.

Lemma consputs_run l s Q : Q tt (add_out l s) → wp (consputs l) Q s.
Proof.
  revert s. induction l as [|c l IH]; intros s HQ; cbn [consputs].
  - wp_run. by rewrite add_out_nil in HQ.
  - unfold consputc. wp_run. apply IH. by rewrite add_out_app.
Qed.

Lemma int_digits_same f x : 0 ≤ x → int_digits f x 10 = UPrintf.int_digits f x 10.
Proof.
  revert x. induction f as [|f IH]; intros x Hx; [done|]. cbn [int_digits UPrintf.int_digits].
  assert (digit (x mod 10) = UPrintf.digit (x mod 10)) as ->.
  { pose proof (Z.mod_pos_bound x 10 ltac:(lia)).
    assert (Forall (λ d, digit d = UPrintf.digit d) (seqZ 0 10)) as HF by (vm_compute; repeat constructor).
    rewrite Forall_forall in HF. apply HF, list_elem_of_In, elem_of_seqZ. lia. }
  rewrite IH; [done|]. apply Z.div_pos; lia.
Qed.

(** The conversions both understand in the same way. *)
Definition common (c : Z) : bool := (c =? 100) || (c =? 115) || (c =? PCT).
Fixpoint common_fmt (fmt : list Z) : bool :=
  match fmt with
  | [] => true
  | c :: fmt' =>
      if c =? PCT then
        match fmt' with [] => true | c' :: fmt'' => common c' && common_fmt fmt'' end
      else common_fmt fmt'
  end.

Lemma conversion_run c ap out ap' s Q :
  common c = true → UPrintf.conversion c ap = Some (out, ap') →
  Q ap' (add_out out s) → wp (conversion c ap) Q s.
Proof.
  unfold common, UPrintf.conversion, conversion. intros Hc Hu HQ.
  destruct (Z.eqb_spec c 100) as [->|_].
  - destruct ap as [|[z|] ap]; try done. injection Hu as <- <-. wp_run. apply consputs_run.
    rewrite int_digits_same; [by wp_run|]. destruct (true && _); apply u32_range.
  - destruct (Z.eqb_spec c 115) as [->|_].
    + cbn in *. destruct ap as [|[z|st] ap]; try done. injection Hu as <- <-.
      wp_run. apply consputs_run. by wp_run.
    + destruct (Z.eqb_spec c PCT) as [->|_]; [|done]. cbn in *. injection Hu as <- <-.
      unfold consputc. by wp_run.
Qed.

Lemma printf_loop_run fmt ap out s Q :
  common_fmt fmt = true → UPrintf.printf fmt ap = Some out →
  Q tt (add_out out s) → wp (printf_loop fmt ap) Q s.
Proof.
  unfold UPrintf.printf. remember (length fmt) as k eqn:Hk.
  assert (length fmt ≤ k)%nat as Hle by lia. clear Hk. revert fmt ap out s Hle.
  induction k as [|k IH]; intros fmt ap out s Hle Hc Hu HQ.
  { destruct fmt; [|cbn in Hle; lia]. injection Hu as <-. cbn. wp_run. by rewrite add_out_nil in HQ. }
  destruct fmt as [|c fmt]; cbn [common_fmt vprintf printf_loop] in *.
  { injection Hu as <-. wp_run. by rewrite add_out_nil in HQ. }
  cbn in Hle. change (0 =? 0) with true in Hu. cbv iota in Hu.
  destruct (Z.eqb_spec c PCT) as [->|Hne]; cbn [negb].
  - destruct fmt as [|c' fmt].
    { injection Hu as <-. wp_run. by rewrite add_out_nil in HQ. }
    cbn [vprintf] in Hu. change (PCT =? 0) with false in Hu. cbv iota in Hu.
    apply andb_true_iff in Hc as [Hc1 Hc2].
    destruct (UPrintf.conversion c' ap) as [[o ap']|] eqn:Ec; [|done].
    destruct (vprintf fmt ap' 0) as [o2|] eqn:Ev; [|done]. injection Hu as <-.
    wp_run. eapply conversion_run; [done|done|]. cbn in Hle.
    eapply IH; [lia|done|done|]. by rewrite add_out_app.
  - destruct (vprintf fmt ap 0) as [o|] eqn:Ev; [|done]. injection Hu as <-.
    unfold consputc. wp_run. eapply IH; [lia|done|done|]. by rewrite add_out_app.
Qed.


