(* ===== verification/Ulib.v ===== *)
(** * The user library: user/ulib.c

    The string functions over the byte memory of the process, and [gets] over
    that memory and the standard input.  [stat] only calls the system. *)

From stdpp Require Import base gmap list strings numbers.
From S2P Require Import Prelude Machine KString UPrintf.

(** Strings end at a nul; [fuel] bounds the loops, see [str_at]. *)
Definition strcpy (fuel : nat) (s t : Z) : M mem Z :=
  loop fuel
    (λ '(s, t), c <- ld t ;; st s c ;;
      ret (if truthy c then inl (s + 1, t + 1) else inr tt)) (s, t) ;;
  ret s.

Definition strcmp (fuel : nat) (p q : Z) : M mem Z :=
  loop fuel
    (λ '(p, q), cp <- ld p ;; cq <- ld q ;;
      ret (if truthy cp && (cp =? cq) then inl (p + 1, q + 1) else inr (cp - cq))) (p, q).

Definition strlen (fuel : nat) (s : Z) : M mem Z :=
  loop fuel (λ n, c <- ld (s + n) ;; ret (if truthy c then inl (n + 1) else inr n)) 0.

Definition memset (dst c n : Z) : M mem Z :=
  for_loop (Z.to_nat (u32 n)) 0 (λ i, st (dst + i) c) ;;
  ret dst.

Definition strchr (fuel : nat) (s c : Z) : M mem Z :=
  loop fuel
    (λ s, x <- ld s ;;
      ret (if truthy x then (if x =? c then inr s else inl (s + 1)) else inr 0)) s.

Definition atoi (fuel : nat) (s : Z) : M mem Z :=
  loop fuel
    (λ '(n, s), c <- ld s ;;
      ret (if (48 <=? c) && (c <=? 57) then inl (i32 (n * 10 + c - 48), s + 1) else inr n)) (0, s).

Definition memmove (vdst vsrc n : Z) : M mem Z :=
  (if vdst <? vsrc then copy_up (Z.to_nat n) vdst vsrc
   else copy_down (Z.to_nat n) (vdst + n) (vsrc + n)) ;;
  ret vdst.

Fixpoint memcmp_loop (n : nat) (p1 p2 : Z) : M mem Z :=
  match n with
  | O => ret 0
  | S n' =>
      c1 <- ld p1 ;;
      c2 <- ld p2 ;;
      if negb (c1 =? c2) then ret (c1 - c2) else memcmp_loop n' (p1 + 1) (p2 + 1)
  end.
Definition memcmp (s1 s2 n : Z) : M mem Z := memcmp_loop (Z.to_nat (u32 n)) s1 s2.

Definition memcpy (dst src n : Z) : M mem Z := memmove dst src (i32 n).

(** The memory and what is left to read from file descriptor 0. *)
Record uio := mkU { u_mem : mem; u_in : list Z }.

(** [read(0, &c, 1)]: the next byte, or end of file. *)
Definition read1 : M uio (option Z) :=
  λ s, match u_in s with
       | [] => OK None s
       | c :: rest => OK (Some c) (mkU (u_mem s) rest)
       end.
Definition ust (a v : Z) : M uio unit := λ s, OK tt (mkU (store8 (u_mem s) a v) (u_in s)).

Definition gets (buf max : Z) : M uio Z :=
  i <- loop (S (Z.to_nat max))
    (λ i, if i + 1 <? max then
            c <- read1 ;;
            match c with
            | None => ret (inr i)
            | Some c =>
                ust (buf + i) c ;;
                ret (if (c =? 10) || (c =? 13) then inr (i + 1) else inl (i + 1))
            end
          else ret (inr i)) 0 ;;
  ust (buf + i) 0 ;;
  ret buf.

(** ** Specification *)

(** The string [l] with its terminating nul at address [a]. *)
Definition str_at (m : mem) (a : Z) (l : list Z) : Prop :=
  (∀ i c, l !! i = Some c → load8 m (a + Z.of_nat i) = c ∧ c ≠ 0) ∧
  load8 m (a + Z.of_nat (length l)) = 0.

Lemma str_at_cons m a c l : str_at m a (c :: l) → load8 m a = c ∧ c ≠ 0 ∧ str_at m (a + 1) l.
Proof.
  intros [H H0]. destruct (H 0%nat c eq_refl) as [H1 H2]. rewrite Z.add_0_r in H1.
  split_and!; [done|done|]. split.
  - intros i x Hi. destruct (H (S i) x Hi) as [H3 H4]. split; [|done]. rewrite <-H3. f_equal. lia.
  - rewrite <-H0. f_equal. cbn. lia.
Qed.

Lemma str_at_nil m a : str_at m a [] → load8 m a = 0.
Proof. intros [_ H]. rewrite <-H. f_equal. cbn. lia. Qed.

Lemma ustrlen_run m a l fuel :
  str_at m a l → (length l < fuel)%nat → strlen fuel a m = OK (Z.of_nat (length l)) m.
Proof.
  intros Hs Hf. unfold strlen.
  assert (∀ k l', (length l' < k)%nat → ∀ n, str_at m (a + n) l' → 
    loop k (λ n, c <- ld (a + n) ;; ret (if truthy c then inl (n + 1) else inr n)) n m
      = OK (n + Z.of_nat (length l')) m) as H.
  { induction k as [|k IH]; intros l' Hl n Hn; [lia|]. cbn [loop]. unfold bind, ld, ret, truthy.
    destruct l' as [|c l'].
    - rewrite (str_at_nil _ _ Hn). cbn. do 2 f_equal. lia.
    - apply str_at_cons in Hn as (-> & Hc & Hn). rewrite (proj2 (Z.eqb_neq c 0) Hc). cbn [negb].
      cbn in Hl. rewrite (IH l'); [f_equal; cbn; lia|lia|]. by replace (a + (n + 1)) with (a + n + 1) by lia. }
  rewrite (H fuel l Hf 0); [done|]. by rewrite Z.add_0_r.
Qed.

Lemma strcmp_run m p q l1 l2 fuel :
  str_at m p l1 → str_at m q l2 → (length l1 < fuel)%nat →
  ∃ r, strcmp fuel p q m = OK r m ∧ (r = 0 ↔ l1 = l2).
Proof.
  unfold strcmp. revert p q l1 l2. induction fuel as [|k IH]; intros p q l1 l2 H1 H2 Hf; [lia|].
  cbn [loop]. unfold bind, ld, ret, truthy.
  destruct l1 as [|c1 l1].
  - rewrite (str_at_nil _ _ H1). cbn. eexists. split; [done|]. destruct l2 as [|c2 l2].
    + rewrite (str_at_nil _ _ H2). done.
    + apply str_at_cons in H2 as (-> & Hc & _). split; [lia|done].
  - apply str_at_cons in H1 as (-> & Hc1 & H1). rewrite (proj2 (Z.eqb_neq c1 0) Hc1). cbn [negb andb].
    destruct l2 as [|c2 l2].
    + rewrite (str_at_nil _ _ H2), (proj2 (Z.eqb_neq c1 0) Hc1). eexists. split; [done|]. split; [lia|done].
    + apply str_at_cons in H2 as (-> & Hc2 & H2). destruct (Z.eqb_spec c1 c2) as [->|Hne].
      * cbn in Hf. destruct (IH (p + 1) (q + 1) l1 l2 H1 H2) as (r & E & Hr); [lia|].
        exists r. split; [exact E|]. rewrite Hr. split; congruence.
      * eexists. split; [done|]. split; [lia|congruence].
Qed.

(** [atoi] reads the decimal number that a string starts with. *)
Lemma atoi_run m a l fuel n :
  (length l < fuel)%nat → Forall is_dec l → 0 ≤ n →
  (∀ i c, l !! i = Some c → load8 m (a + Z.of_nat i) = c) →
  ¬ is_dec (load8 m (a + Z.of_nat (length l))) →
  n * 10 ^ Z.of_nat (length l) + dec_val l < 2147483648 →
  loop fuel (λ '(n, s), c <- ld s ;;
      ret (if (48 <=? c) && (c <=? 57) then inl (i32 (n * 10 + c - 48), s + 1) else inr n)) (n, a) m
  = OK (n * 10 ^ Z.of_nat (length l) + dec_val l) m.
Proof.
  revert a l n. induction fuel as [|k IH]; intros a l n Hf Hd Hn Hl Hend Hv; [lia|]. cbn [loop].
  unfold bind, ld, ret. destruct l as [|c l].
  - cbn in Hend. rewrite Z.add_0_r in Hend. unfold is_dec in Hend.
    destruct (Z.leb_spec 48 (load8 m a)), (Z.leb_spec (load8 m a) 57); cbn [andb]; try (exfalso; lia);
      cbn; f_equal; lia.
  - pose proof (Hl 0%nat c eq_refl) as Hc. rewrite Z.add_0_r in Hc. rewrite Hc.
    apply Forall_cons_1 in Hd as [Hdc Hd]. unfold is_dec in Hdc. ztest.
    assert (dec_val (c :: l) = (c - 48) * 10 ^ Z.of_nat (length l) + dec_val l ∧ 0 ≤ dec_val l) as [Edv Hpos].
    { clear -Hd Hdc. unfold dec_val. cbn [foldl]. replace (0 * 10 + (c - 48)) with (c - 48) by lia.
      assert (∀ l a, foldl (λ n c, n * 10 + (c - 48)) a l
        = a * 10 ^ Z.of_nat (length l) + foldl (λ n c, n * 10 + (c - 48)) 0 l) as H.
      { clear. induction l as [|x l IH]; intros a; cbn [foldl length]; [cbn; lia|].
        rewrite (IH (a * 10 + (x - 48))), (IH (0 * 10 + (x - 48))), Nat2Z.inj_succ, Z.pow_succ_r by lia. lia. }
      split; [apply H|]. clear -Hd. induction l as [|x l IH] using rev_ind; [done|].
      apply Forall_app in Hd as [H1 H2]. rewrite foldl_app. cbn. apply Forall_cons_1 in H2 as [H2 _].
      unfold is_dec in H2. specialize (IH H1). lia. }
    cbn [length] in *. rewrite Nat2Z.inj_succ, Z.pow_succ_r in * by lia. rewrite Edv in Hv.
    assert (0 < 10 ^ Z.of_nat (length l)) as Hp by (apply Z.pow_pos_nonneg; lia).
    assert (i32 (n * 10 + c - 48) = n * 10 + (c - 48)) as ->.
    { rewrite i32_small; [lia|]. assert ((n * 10 + (c - 48)) * 1 ≤ (n * 10 + (c - 48)) * 10 ^ Z.of_nat (length l))
        by (apply Z.mul_le_mono_nonneg_l; lia). lia. }
    rewrite (IH (a + 1) l); [rewrite Edv; f_equal; lia|lia|done|lia| | |lia].
    + intros i x Hi. rewrite <-(Hl (S i) x Hi). f_equal. lia.
    + intros H. apply Hend. by replace (a + Z.succ (Z.of_nat (length l))) with (a + 1 + Z.of_nat (length l)) by lia.
Qed.



(** ** [gets] *)

(** What [gets] takes from the input: up to and with a newline or carriage
    return, at most [k] bytes. *)
Fixpoint line_of (k : nat) (inp : list Z) : list Z :=
  match k, inp with
  | S k', c :: inp' => c :: (if (c =? 10) || (c =? 13) then [] else line_of k' inp')
  | _, _ => []
  end.

Lemma length_line_of k inp : (length (line_of k inp) ≤ k)%nat.
Proof.
  revert inp. induction k as [|k IH]; intros inp; [done|]. destruct inp as [|c inp]; cbn; [lia|].
  destruct (_ || _); cbn; [lia|]. specialize (IH inp). lia.
Qed.

Definition byte (c : Z) : Prop := 0 ≤ c < 256.

Lemma gets_loop_run buf max k i s :
  (k > Z.to_nat (max - i))%nat → 0 ≤ i < max → Forall byte (u_in s) →
  let l := line_of (Z.to_nat (max - 1 - i)) (u_in s) in
  wp (loop k (λ i, if i + 1 <? max then
            c <- read1 ;;
            match c with
            | None => ret (inr i)
            | Some c =>
                ust (buf + i) c ;;
                ret (if (c =? 10) || (c =? 13) then inr (i + 1) else inl (i + 1))
            end
          else ret (inr i)) i)
     (λ r s', r = i + Z.of_nat (length l) ∧ u_in s = l ++ u_in s' ∧
        (∀ j c, l !! j = Some c → load8 (u_mem s') (buf + i + Z.of_nat j) = c) ∧
        ∀ x, x < buf + i ∨ buf + r ≤ x → load8 (u_mem s') x = load8 (u_mem s) x) s.
Proof.
  revert i s. induction k as [|k IH]; intros i s Hk Hi Hb; [lia|]. cbn [loop].
  destruct (Z.ltb_spec (i + 1) max) as [Hlt|Hge].
  - replace (Z.to_nat (max - 1 - i)) with (S (Z.to_nat (max - 1 - (i + 1)))) by lia.
    destruct s as [m inp]. cbn [u_in u_mem] in *.
    destruct inp as [|c inp]; [cbn; split_and!; [lia|done|done|done]|]. cbn [line_of].
    apply Forall_cons_1 in Hb as [Hbc Hb].
    unfold wp, bind at 1 2 3. cbn [read1 u_in u_mem ust]. unfold ret at 1.
    destruct ((c =? 10) || (c =? 13)).
    + cbn. split_and!; [done|done| |].
      * intros [|j] x Hj; [|done]. injection Hj as <-. rewrite load8_store8. ztest. by apply u8_small.
      * intros x Hx. rewrite load8_store8. by ztest.
    + specialize (IH (i + 1) (mkU (store8 m (buf + i) c) inp)). cbn [u_in u_mem] in IH.
      specialize (IH ltac:(lia) ltac:(lia) Hb). unfold wp in IH. destruct (loop k _ _ _) as [r s'| | |]; try done.
      destruct IH as (E1 & E2 & E3 & E4). cbn [length app]. split_and!; [lia|by rewrite E2 at 1| |].
      * intros [|j] x Hj; cbn in Hj.
        -- injection Hj as <-. rewrite E4, load8_store8 by lia. ztest. by apply u8_small.
        -- rewrite <-(E3 j x Hj). f_equal. lia.
      * intros x Hx. rewrite E4, load8_store8 by lia. by ztest.
  - replace (Z.to_nat (max - 1 - i)) with 0%nat by lia. cbn. split_and!; [lia|done|done|done].
Qed.

(** [gets] never writes outside its buffer: for a buffer of [max > 0]
    bytes it stores the input up to and with the first newline or carriage
    return, but at most [max - 1] bytes, then a nul; it consumes exactly those
    bytes of input and changes no other memory. *)
Theorem gets_bounded buf max s :
  0 < max → Forall byte (u_in s) →
  let l := line_of (Z.to_nat (max - 1)) (u_in s) in
  ∃ s', gets buf max s = OK buf s' ∧ u_in s = l ++ u_in s' ∧ Z.of_nat (length l) < max ∧
    (∀ j c, l !! j = Some c → load8 (u_mem s') (buf + Z.of_nat j) = c) ∧
    load8 (u_mem s') (buf + Z.of_nat (length l)) = 0 ∧
    ∀ x, x < buf ∨ buf + max ≤ x → load8 (u_mem s') x = load8 (u_mem s) x.
Proof.
  intros Hm Hb l. pose proof (length_line_of (Z.to_nat (max - 1)) (u_in s)) as Hl. fold l in Hl.
  destruct (wp_run_OK _ _ _ (gets_loop_run buf max (S (Z.to_nat max)) 0 s ltac:(lia) ltac:(lia) Hb))
    as (r & s1 & E & Hr & Hin & Hmem & Hfr).
  replace (max - 1 - 0) with (max - 1) in * by lia. fold l in Hr, Hin, Hmem.
  exists (mkU (store8 (u_mem s1) (buf + r) 0) (u_in s1)).
  split; [unfold gets, bind at 1; rewrite E; done|]. cbn [u_in u_mem].
  split_and!; [done|lia| | |].
  - intros j c Hj. rewrite load8_store8. apply lookup_lt_Some in Hj as Hlt. ztest.
    rewrite <-(Hmem j c Hj). f_equal. lia.
  - rewrite load8_store8. ztest. done.
  - intros x Hx. rewrite load8_store8. ztest. apply Hfr. lia.
Qed.

Lemma gets_bounded_witness :
  ∃ s', gets 500 4 (mkU ∅ [97; 98; 99; 100; 10]) = OK 500 s' ∧ load8 (u_mem s') 503 = 0 ∧
    [97; 98; 99; 100; 10] = [97; 98; 99] ++ u_in s'.
Proof.
  destruct (gets_bounded 500 4 (mkU ∅ [97; 98; 99; 100; 10])) as (s' & E & H1 & _ & _ & H2 & _).
  - lia.
  - repeat constructor; lia.
  - exists s'. split; [exact E|]. split; [exact H2|exact H1].
Defined.
