(* ===== verification/Wc.v ===== *)
(** * The wc program: user/wc.c *)

From stdpp Require Import base gmap list strings numbers.
From S2P Require Import Prelude UPrintf.

(** [strchr(" \r\t\n\v", c)] finds the character. *)
Definition wc_space (c : Z) : bool :=
  (c =? 32) || (c =? 13) || (c =? 9) || (c =? 10) || (c =? 11).

Record wcst := mkWc { wc_l : Z; wc_w : Z; wc_c : Z; wc_inword : bool }.

(** The body of the inner loop. *)
Definition wc_byte (s : wcst) (b : Z) : wcst :=
  let c := i32 (wc_c s + 1) in
  let l := if b =? 10 then i32 (wc_l s + 1) else wc_l s in
  if wc_space b then mkWc l (wc_w s) c false
  else if negb (wc_inword s) then mkWc l (i32 (wc_w s + 1)) c true
  else mkWc l (wc_w s) c true.

(** [reads] are the results of the calls of [read]: [Some bytes], at most 512
    and none at end of file, or [None] for an error.  The result is what is
    printed, and whether the program goes on. *)
Fixpoint wc_loop (reads : list (option (list Z))) (s : wcst) : wcst * bool :=
  match reads with
  | Some (b :: bs) :: reads' => wc_loop reads' (foldl wc_byte s (b :: bs))
  | Some [] :: _ => (s, true)
  | None :: _ => (s, false)
  | [] => (s, true)
  end.

Definition wc_error : list Z :=
  [119; 99; 58; 32; 114; 101; 97; 100; 32; 101; 114; 114; 111; 114; 10].
(** "%d %d %d %s\n" *)
Definition wc_fmt : list Z := [37; 100; 32; 37; 100; 32; 37; 100; 32; 37; 115; 10].

Definition wc (reads : list (option (list Z))) (name : list Z) : option (list Z) * bool :=
  let '(s, ok) := wc_loop reads (mkWc 0 0 0 false) in
  if ok then (printf wc_fmt [VNum (wc_l s); VNum (wc_w s); VNum (wc_c s); VStr (Some name)], true)
  else (printf wc_error [], false).

(** ** Specification *)

(** The words of a text: its maximal runs of characters that are not white
    space. *)
Fixpoint fields (s : list Z) : list (list Z) :=
  match s with
  | [] => [[]]
  | c :: s' =>
      if wc_space c then [] :: fields s'
      else match fields s' with f :: fs => (c :: f) :: fs | [] => [[c]] end
  end.
Definition words (s : list Z) : list (list Z) := filter (λ f, f ≠ []) (fields s).
Definition newlines (s : list Z) : list Z := filter (λ c, c = 10) s.

Lemma fields_cons s : ∃ f fs, fields s = f :: fs.
Proof.
  induction s as [|c s IH]; cbn; [eauto|]. destruct (wc_space c); [eauto|].
  destruct IH as (f & fs & ->). eauto.
Qed.

(** Words that start after the first character of the text. *)
Definition later (s : list Z) : list (list Z) := filter (λ f, f ≠ []) (tail (fields s)).

Lemma words_later s :
  Z.of_nat (length (words s)) = Z.of_nat (length (later s)) +
    match s with c :: _ => if wc_space c then 0 else 1 | [] => 0 end.
Proof.
  unfold words, later. destruct s as [|c s]; [done|]. cbn [fields].
  destruct (wc_space c); cbn [tail].
  - rewrite list.filter_cons, decide_False by (intros H; by apply H). lia.
  - destruct (fields_cons s) as (f & fs & ->). cbn [tail].
    rewrite list.filter_cons, decide_True by done. cbn. lia.
Qed.

Lemma wc_foldl s st :
  let n := Z.of_nat (length s) in
  0 ≤ wc_l st → 0 ≤ wc_w st → 0 ≤ wc_c st →
  wc_l st + n < 2147483648 → wc_w st + n < 2147483648 → wc_c st + n < 2147483648 →
  ∃ w, foldl wc_byte st s =
    mkWc (wc_l st + Z.of_nat (length (newlines s)))
         (wc_w st + Z.of_nat (length (if wc_inword st then later s else words s)))
         (wc_c st + n) w.
Proof.
  revert st. induction s as [|b s IH]; intros st n Hl Hw Hc Bl Bw Bc.
  { exists (wc_inword st). change (words []) with (@nil (list Z)). change (later []) with (@nil (list Z)).
    change (newlines []) with (@nil Z). unfold n. destruct st as [l w c []]; cbn; f_equal; lia. }
  cbn [foldl]. set (st' := wc_byte st b).
  assert (n = 1 + Z.of_nat (length s)) as En by (unfold n; cbn; lia). clearbody n.
  set (isnl := if b =? 10 then 1 else 0).
  set (isw := if wc_space b then 0 else if wc_inword st then 0 else 1).
  assert (st' = mkWc (wc_l st + isnl) (wc_w st + isw) (wc_c st + 1) (negb (wc_space b))) as E'.
  { unfold st', wc_byte, isnl, isw. rewrite (i32_small (wc_c st + 1)) by lia.
    assert ((if b =? 10 then i32 (wc_l st + 1) else wc_l st) = wc_l st + (if b =? 10 then 1 else 0)) as ->.
    { destruct (b =? 10); [rewrite i32_small by lia|]; lia. }
    destruct (wc_space b); cbn [negb]; [f_equal; lia|].
    destruct (wc_inword st); cbn [negb]; [f_equal; lia|]. by rewrite i32_small by lia. }
  assert (0 ≤ isnl ≤ 1 ∧ 0 ≤ isw ≤ 1) as [B1 B2].
  { unfold isnl, isw. destruct (b =? 10), (wc_space b), (wc_inword st); lia. }
  destruct (IH st') as (w & ->); rewrite ?E'; cbn [wc_l wc_w wc_c]; try lia.
  exists w. cbn [wc_l wc_w wc_c wc_inword].
  assert (Z.of_nat (length (newlines (b :: s))) = isnl + Z.of_nat (length (newlines s))) as ->.
  { unfold newlines, isnl. rewrite list.filter_cons. destruct (Z.eqb_spec b 10).
    - rewrite decide_True by done. cbn. lia.
    - rewrite decide_False by done. lia. }
  assert (Z.of_nat (length (if wc_inword st then later (b :: s) else words (b :: s))) =
    isw + Z.of_nat (length (if negb (wc_space b) then later s else words s))) as ->.
  { assert (later (b :: s) = if wc_space b then words s else later s) as Hlat.
    { unfold later, words. cbn [fields]. destruct (wc_space b); [done|].
      destruct (fields_cons s) as (f & fs & ->). done. }
    pose proof (words_later (b :: s)) as Hwl. cbv beta iota in Hwl. unfold isw.
    destruct (wc_inword st); rewrite ?Hlat in *; destruct (wc_space b); cbn [negb] in *; lia. }
  f_equal; lia.
Qed.

Lemma wc_loop_spec chunks st :
  Forall (λ c, c ≠ []) chunks →
  wc_loop ((Some <$> chunks) ++ [Some []]) st = (foldl wc_byte st (concat chunks), true).
Proof.
  revert st. induction chunks as [|c chunks IH]; intros st H; [done|].
  apply Forall_cons_1 in H as [Hc H]. destruct c as [|b c]; [done|].
  cbn [fmap list_fmap app wc_loop concat]. rewrite IH by done. by rewrite <-foldl_app.
Qed.

(** C37. [wc] counts correctly however [read] chops up the file: it prints the
    number of newline characters, of maximal runs of non-blank characters and
    of bytes, followed by the name (for files below 2 GB, where the [int]
    counters do not wrap). *)
Theorem wc_counts chunks name :
  let text := concat chunks in
  Forall (λ c, c ≠ []) chunks → Z.of_nat (length text) < 2147483648 →
  wc ((Some <$> chunks) ++ [Some []]) name =
    (printf wc_fmt [VNum (Z.of_nat (length (newlines text))); VNum (Z.of_nat (length (words text)));
                    VNum (Z.of_nat (length text)); VStr (Some name)], true).
Proof.
  intros text Hc Hl. unfold wc. rewrite wc_loop_spec by done.
  destruct (wc_foldl text (mkWc 0 0 0 false)) as (w & E); cbn [wc_l wc_w wc_c]; try lia.
  fold text. by rewrite E.
Qed.

Lemma wc_counts_witness :
  wc ((Some <$> [[104; 105; 32]; [120]; [121; 10; 122]]) ++ [Some []]) [102] =
    (Some [49; 32; 51; 32; 55; 32; 102; 10], true).
Proof.
  rewrite (wc_counts [[104; 105; 32]; [120]; [121; 10; 122]] [102]).
  - vm_compute. reflexivity.
  - repeat constructor; discriminate.
  - cbn. lia.
Defined.
