(* ===== verification/Umalloc.v ===== *)
(** * The user memory allocator: user/umalloc.c

    [malloc] and [free] of Kernighan and Ritchie over the byte memory of the
    process.  A free block begins with a header of 16 bytes, the address of the
    next free block and the size of this one in units of a header; the free
    blocks form a circular list through [base] in the order of their addresses.
    The kernel is the list of its answers to [sbrk], which moves the end of the
    memory of the process. *)

From stdpp Require Import base gmap list strings numbers.
From S2P Require Import Prelude Machine.

Record ust := mkU { um : mem; freep : Z; ubrk : Z; grants : list bool }.
Definition set_um (m : mem) (s : ust) : ust := mkU m (freep s) (ubrk s) (grants s).
Definition set_freep (p : Z) (s : ust) : ust := mkU (um s) p (ubrk s) (grants s).

(** The fields of [union header]. *)
Definition hptr (p : Z) : M ust Z := gets (λ s, load64 (um s) p).
Definition hsize (p : Z) : M ust Z := gets (λ s, load32 (um s) (p + 8)).
Definition set_hptr (p v : Z) : M ust unit := modify (λ s, set_um (store64 (um s) p v) s).
Definition set_hsize (p v : Z) : M ust unit := modify (λ s, set_um (store32 (um s) (p + 8) v) s).

Section umalloc.
(** The address of [base], and the largest break the kernel grants. *)
Context (base limit : Z).

(** [sbrk(n)]: the old break, or -1. *)
Definition sbrk (n : Z) : M ust Z := λ s,
  match grants s with
  | true :: g => if ubrk s + n <=? limit then OK (ubrk s) (mkU (um s) (freep s) (ubrk s + n) g) else OK (-1) (mkU (um s) (freep s) (ubrk s) g)
  | _ => OK (-1) (mkU (um s) (freep s) (ubrk s) (tail (grants s)))
  end.

(** The search of [free] for the block before [bp]. *)
Definition free_turn (bp p : Z) : M ust (Z + Z) :=
  nx <- hptr p ;;
  if (p <? bp) && (bp <? nx) then ret (inr p)
  else if (nx <=? p) && ((p <? bp) || (bp <? nx)) then ret (inr p)
  else ret (inl nx).
(** The list behind [bp]: the next block is joined to it, or follows it. *)
Definition join_next (bp bs nx : Z) : M ust unit :=
  if u64 (bp + 16 * bs) =? nx then
    ns <- hsize nx ;;
    set_hsize bp (u32 (bs + ns)) ;;
    nn <- hptr nx ;;
    set_hptr bp nn
  else set_hptr bp nx.

(** The list up to [p]: [bp] is joined to it, or follows it. *)
Definition join_prev (p bp : Z) : M ust unit :=
  ps <- hsize p ;;
  if u64 (p + 16 * ps) =? bp then
    bs <- hsize bp ;;
    set_hsize p (u32 (ps + bs)) ;;
    bn <- hptr bp ;;
    set_hptr p bn
  else set_hptr p bp.

Definition free (ap : Z) : M ust unit :=
  let bp := u64 (ap - 16) in
  p <- gets freep ;;
  n <- gets ubrk ;;
  p <- loop (S (Z.to_nat n)) (free_turn bp) p ;;
  bs <- hsize bp ;;
  nx <- hptr p ;;
  join_next bp bs nx ;;
  join_prev p bp ;;
  modify (set_freep p).

Definition morecore (nu : Z) : M ust Z :=
  let nu := if nu <? 4096 then 4096 else nu in
  p <- sbrk (i32 (nu * 16)) ;;
  if p =? -1 then ret 0
  else
    set_hsize p nu ;;
    free (u64 (p + 16)) ;;
    gets freep.

Definition malloc_turn (nunits : Z) (l : Z * Z) : M ust (Z * Z + Z) :=
  let '(prevp, p) := l in
  sz <- hsize p ;;
  if nunits <=? sz then
    r <- (if sz =? nunits then nx <- hptr p ;; set_hptr prevp nx ;; ret p
          else
            set_hsize p (u32 (sz - nunits)) ;;
            let p := u64 (p + 16 * u32 (sz - nunits)) in
            set_hsize p nunits ;;
            ret p) ;;
    modify (set_freep prevp) ;;
    ret (inr (u64 (r + 16)))
  else
    fp <- gets freep ;;
    if p =? fp then
      p <- morecore nunits ;;
      if p =? 0 then ret (inr 0) else nx <- hptr p ;; ret (inl (p, nx))
    else nx <- hptr p ;; ret (inl (p, nx)).
Definition malloc (nbytes : Z) : M ust Z :=
  let nunits := u32 ((nbytes + 16 - 1) / 16 + 1) in
  fp <- gets freep ;;
  prevp <- (if fp =? 0 then
              set_hptr base base ;;
              modify (set_freep base) ;;
              set_hsize base 0 ;;
              ret base
            else ret fp) ;;
  p <- hptr prevp ;;
  n <- gets ubrk ;;
  loop (2 * Z.to_nat n + 4) (malloc_turn nunits) (prevp, p).

(** ** The heap *)

(** A block: its address and its size in units. *)
Notation blk := (Z * Z)%type.
Definition ext (x : blk) : Z := 16 * Z.max 1 x.2.
Definition apart (x y : blk) : Prop := x.1 + ext x ≤ y.1 ∨ y.1 + ext y ≤ x.1.

(** The headers of the blocks [l] form a list that ends at [z]. *)
Definition hd (l : list blk) (z : Z) : Z := match l with [] => z | x :: _ => x.1 end.
Fixpoint lnk (m : mem) (l : list blk) (z : Z) : Prop :=
  match l with
  | [] => True
  | x :: l' => load64 m x.1 = hd l' z ∧ load32 m (x.1 + 8) = x.2 ∧ lnk m l' z
  end.

Fixpoint sorted (l : list blk) : Prop :=
  match l with
  | x :: l' => (∀ y, y ∈ l' → x.1 + ext x ≤ y.1) ∧ sorted l'
  | [] => True
  end.

(** Where the blocks are: the free blocks [F], [base] first, and the blocks in
    use [A]. *)
Record geo (brk : Z) (F : list blk) (A : gmap Z Z) : Prop := mkGeo {
  g_base : head F = Some (base, 0);
  g_sorted : sorted F;
  g_blk : ∀ x, x ∈ F → x.1 ≠ base → 1 ≤ x.2;
  g_in : ∀ x, x ∈ F → base ≤ x.1 ∧ x.1 mod 16 = 0 ∧ x.1 + ext x ≤ brk;
  g_used : ∀ a n, A !! a = Some n → 1 ≤ n ∧ base < a ∧ a mod 16 = 0 ∧ a + 16 * n ≤ brk;
  g_apart : ∀ x a n, x ∈ F → A !! a = Some n → apart x (a, n);
  g_disj : ∀ a n b k, A !! a = Some n → A !! b = Some k → a = b ∨ apart (a, n) (b, k);
  g_brk : 0 < base ∧ brk mod 16 = 0 ∧ brk ≤ limit < 2147483648;
}.
(** What the memory says of it. *)
Record heap (m : mem) (fp brk : Z) (F : list blk) (A : gmap Z Z) : Prop := mkHeap {
  h_geo : geo brk F A;
  h_lnk : lnk m F base;
  h_fp : fp ∈ F.*1;
  h_hdr : ∀ a n, A !! a = Some n → load32 m (a + 8) = n;
}.

Lemma lnk_app m l1 l2 z : lnk m (l1 ++ l2) z ↔ lnk m l1 (hd l2 z) ∧ lnk m l2 z.
Proof.
  induction l1 as [|x l1 IH]; cbn [app lnk]; [tauto|]. rewrite IH. assert (hd (l1 ++ l2) z = hd l1 (hd l2 z)) as -> by by destruct l1. tauto.
Qed.
Lemma load32_ext m m' a : agree m m' a 4 → load32 m' a = load32 m a.
Proof. intros H. apply load_le_ext. intros x Hx. apply H. lia. Qed.
Lemma agree_sub m m' a n b k : agree m m' a n → a ≤ b → b + k ≤ a + n → agree m m' b k.
Proof. intros H H1 H2 x Hx. apply H. lia. Qed.
Lemma lnk_ext m m' l z : (∀ x, x ∈ l → agree m m' x.1 16) → lnk m l z → lnk m' l z.
Proof.
  induction l as [|x l IH]; intros H Hl; [done|]. destruct Hl as (H1 & H2 & H3). pose proof (H x (list_elem_of_here _ _)) as Hx. split; [|split].
  - rewrite <-H1. apply load64_ext. eapply agree_sub; [exact Hx|lia|lia].
  - rewrite <-H2. apply load32_ext. eapply agree_sub; [exact Hx|lia|lia].
  - apply IH; [|done]. intros y Hy. apply H. by constructor.
Qed.
Lemma sorted_app l1 l2 : sorted (l1 ++ l2) ↔ sorted l1 ∧ sorted l2 ∧ ∀ x y, x ∈ l1 → y ∈ l2 → x.1 + ext x ≤ y.1.
Proof.
  induction l1 as [|z l1 IH]; cbn [app sorted].
  - split; [intros H; split; [done|]; split; [done|]; by intros x y Hx%not_elem_of_nil|tauto].
  - rewrite IH. setoid_rewrite elem_of_app. setoid_rewrite elem_of_cons. naive_solver.
Qed.
Lemma ext_pos x : 16 ≤ ext x.
Proof. unfold ext. lia. Qed.

(** *** Lists of blocks *)

Lemma sorted_lookup l i j x y : sorted l → l !! i = Some x → l !! j = Some y → (i < j)%nat → x.1 + ext x ≤ y.1.
Proof.
  revert i j. induction l as [|z l IH]; intros i j Hs Hi Hj Hlt; [done|]. destruct Hs as [Hz Hs]. destruct j as [|j]; [lia|]. cbn in Hj.
  destruct i as [|i]; cbn in Hi; [injection Hi as ->; apply Hz; by eapply list_elem_of_lookup_2|]. apply (IH i j); [done..|lia].
Qed.
Lemma sorted_length l lo brk : sorted l → (∀ x, x ∈ l → lo ≤ x.1 ∧ x.1 + ext x ≤ brk) → lo ≤ brk → lo + 16 * Z.of_nat (length l) ≤ brk.
Proof.
  revert lo. induction l as [|x l IH]; intros lo Hs Hin Hlo; [cbn; lia|]. destruct Hs as [Hx Hs]. destruct (Hin x) as [? ?]; [constructor|]. pose proof (ext_pos x).
  specialize (IH (x.1 + ext x) Hs). cbn [length]. enough (x.1 + ext x + 16 * Z.of_nat (length l) ≤ brk) by lia. apply IH; [|lia].
  intros y Hy. split; [by apply Hx|]. apply Hin. by constructor.
Qed.
Lemma lnk_lookup m l z i x : lnk m l z → l !! i = Some x →
  load64 m x.1 = match l !! S i with Some y => y.1 | None => z end ∧ load32 m (x.1 + 8) = x.2.
Proof.
  revert i. induction l as [|y l IH]; intros i Hl Hi; [done|]. destruct Hl as (H1 & H2 & H3). destruct i as [|i]; cbn in Hi.
  - injection Hi as ->. split; [|done]. rewrite H1. by destruct l.
  - by apply IH.
Qed.

(** The free block before [bp]. *)
Lemma pred_index l bp n : sorted l → (∀ x, x ∈ l → apart x (bp, n)) → 1 ≤ n → (∃ x, head l = Some x ∧ x.1 < bp) →
  ∃ j p, l !! j = Some p ∧ p.1 + ext p ≤ bp ∧ ∀ i y, (j < i)%nat → l !! i = Some y → bp + 16 * n ≤ y.1.
Proof.
  induction l as [|x l IH]; intros Hs Ha Hn (x0 & Hx0 & Hlt); [done|]. injection Hx0 as ->. destruct Hs as [Hx Hs].
  assert (x0.1 + ext x0 ≤ bp) as Hle.
  { destruct (Ha x0) as [?|?]; [constructor|done|]. unfold ext in *. cbn in *. lia. }
  destruct l as [|y l]; [exists 0%nat, x0; split; [done|]; split; [done|]; intros [|i] y Hi; [lia|done]|].
  destruct (decide (y.1 < bp)) as [Hy|Hy].
  - destruct IH as (j & p & Hj & Hp & Hgt); [done|intros z Hz; apply Ha; by constructor|done|by exists y|]. exists (S j), p. split; [done|]. split; [done|].
    intros [|i] z Hi Hz; [lia|]. apply (Hgt i z); [lia|done].
  - exists 0%nat, x0. split; [done|]. split; [done|]. intros [|i] z Hi Hz; [lia|]. cbn in Hz.
    assert (bp + 16 * n ≤ y.1) as Hyn. { destruct (Ha y) as [H|H]; [by do 2 constructor| |unfold ext in H; cbn in H; lia]. pose proof (ext_pos y). cbn in H. lia. }
    destruct i as [|i]; cbn in Hz; [injection Hz as <-; done|]. destruct Hs as [Hs _]. pose proof (Hs z ltac:(by eapply list_elem_of_lookup_2)). pose proof (ext_pos y). lia.
Qed.

(** *** Blocks move between the free blocks and the blocks in use *)

Lemma sorted_mid l1 l2 x : sorted (l1 ++ x :: l2) ↔ sorted (l1 ++ l2) ∧ (∀ y, y ∈ l1 → y.1 + ext y ≤ x.1) ∧ (∀ y, y ∈ l2 → x.1 + ext x ≤ y.1).
Proof.
  rewrite !sorted_app. cbn [sorted]. setoid_rewrite elem_of_cons. split.
  - intros (H1 & (H2 & H3) & H4). naive_solver.
  - intros ((H1 & H2 & H3) & H4 & H5). split; [done|]. split; [done|]. intros y z Hy [->|Hz]; auto.
Qed.
Lemma elem_mid {X} (l1 l2 : list X) x y : y ∈ l1 ++ x :: l2 ↔ y = x ∨ y ∈ l1 ++ l2.
Proof. rewrite !elem_of_app, elem_of_cons. tauto. Qed.

Lemma geo_insert brk l1 p l2 A bp n : geo brk (l1 ++ p :: l2) A → A !! bp = Some n → p.1 + ext p ≤ bp → (∀ y, y ∈ l2 → bp + 16 * n ≤ y.1) →
  geo brk (l1 ++ p :: (bp, n) :: l2) (delete bp A).
Proof.
  intros [H1 H2 H3 H4 H5 H6 H7 H8] HA Hp Hl. destruct (H5 bp n HA) as (N1 & N2 & N3 & N4).
  change (l1 ++ p :: (bp, n) :: l2) with (l1 ++ [p] ++ (bp, n) :: l2). rewrite app_assoc.
  assert (∀ y, y ∈ (l1 ++ [p]) ++ (bp, n) :: l2 ↔ y = (bp, n) ∨ y ∈ l1 ++ p :: l2) as Hel by (intros y; rewrite elem_mid, <-app_assoc; done).
  assert (ext (bp, n) = 16 * n) as Ee by (unfold ext; cbn; lia). split.
  - rewrite <-H1. by destruct l1.
  - apply sorted_mid. rewrite <-app_assoc. split; [done|]. rewrite Ee. cbn [fst]. split; [|done]. intros y Hy.
    apply sorted_app in H2 as (_ & _ & H2). apply elem_of_app in Hy as [Hy|Hy]; [|by apply list_elem_of_singleton in Hy as ->].
    pose proof (H2 y p Hy (list_elem_of_here _ _)). pose proof (ext_pos p). lia.
  - intros x [->|Hx]%Hel; [done|auto].
  - intros x [->|Hx]%Hel; [|auto]. rewrite Ee. cbn. lia.
  - intros a k [_ Ha]%lookup_delete_Some. auto.
  - intros x a k [->|Hx]%Hel [Hne Ha]%lookup_delete_Some; [|auto]. destruct (H7 bp n a k HA Ha) as [?|?]; [done|done].
  - intros a k b k' [_ Ha]%lookup_delete_Some [_ Hb]%lookup_delete_Some. auto.
  - done.
Qed.

Lemma geo_merge brk l1 x y l2 A : geo brk (l1 ++ x :: y :: l2) A → x.1 ≠ base → x.1 + 16 * x.2 = y.1 →
  geo brk (l1 ++ (x.1, x.2 + y.2) :: l2) A.
Proof.
  intros [H1 H2 H3 H4 H5 H6 H7 H8] Hx E.
  assert (x ∈ l1 ++ x :: y :: l2) as Ix by (apply elem_mid; by left). assert (y ∈ l1 ++ x :: y :: l2) as Iy by (apply elem_mid; right; apply elem_mid; by left).
  pose proof (H3 x Ix Hx) as Nx. destruct (H4 x Ix) as (X1 & X2 & X3). destruct (H4 y Iy) as (Y1 & Y2 & Y3). assert (1 ≤ y.2) as Ny by (apply H3; [done|]; lia).
  assert (ext (x.1, x.2 + y.2) = ext x + ext y) as Ee by (unfold ext; cbn; lia). assert (ext x = 16 * x.2) as Ex by (unfold ext; lia).
  assert (∀ z, z ∈ l1 ++ l2 → z ∈ l1 ++ x :: y :: l2) as Hsub by (intros z Hz; apply elem_mid; right; apply elem_mid; by right). split.
  - destruct l1; [injection H1 as ->; done|done].
  - apply sorted_mid in H2 as (H2 & Hx1 & Hx2). apply sorted_mid in H2 as (H2 & Hy1 & Hy2). apply sorted_mid. split; [done|]. split; [done|]. rewrite Ee. cbn.
    intros z Hz. specialize (Hy2 z Hz). lia.
  - intros z [->|Hz]%elem_mid Hn; [cbn; lia|auto].
  - intros z [->|Hz]%elem_mid; [|auto]. rewrite Ee. cbn. lia.
  - done.
  - intros z a n [->|Hz]%elem_mid Ha; [|eauto]. pose proof (H6 x a n Ix Ha) as Px. pose proof (H6 y a n Iy Ha) as Py. destruct (H5 a n Ha) as (N & _).
    unfold apart in *. rewrite Ee. cbn in *. unfold ext in Px, Py |- *. cbn in *. lia.
  - done.
  - done.
Qed.

Lemma geo_take brk l1 x l2 A : geo brk (l1 ++ x :: l2) A → x.1 ≠ base → geo brk (l1 ++ l2) (<[x.1 := x.2]> A).
Proof.
  intros [H1 H2 H3 H4 H5 H6 H7 H8] Hx. assert (x ∈ l1 ++ x :: l2) as Ix by (apply elem_mid; by left). pose proof (H3 x Ix Hx) as Nx.
  assert (∀ z, z ∈ l1 ++ l2 → z ∈ l1 ++ x :: l2) as Hsub by (intros z Hz; apply elem_mid; by right). destruct (H4 x Ix) as (X1 & X2 & X3).
  assert (ext x = 16 * x.2) as Ex by (unfold ext; lia). pose proof H2 as (H2' & Hs1 & Hs2)%sorted_mid. split.
  - destruct l1; [injection H1 as ->; done|done].
  - done.
  - auto.
  - auto.
  - intros a n [[<- <-]|[_ Ha]]%lookup_insert_Some; [lia|auto].
  - intros z a n Hz [[<- <-]|[_ Ha]]%lookup_insert_Some; [|eauto]. apply elem_of_app in Hz as [Hz|Hz]; [left; by apply Hs1|right]. specialize (Hs2 z Hz).
    destruct x; cbn in *; done.
  - intros a n b k [[<- <-]|[_ Ha]]%lookup_insert_Some [[<- <-]|[_ Hb]]%lookup_insert_Some; [by left| | |by apply H7]; right; destruct x as [xa xn]; cbn in *.
    + exact (H6 (xa, xn) b k Ix Hb).
    + destruct (H6 (xa, xn) a n Ix Ha); [by right|by left].
  - done.
Qed.

Lemma geo_split brk l1 a k l2 A n : geo brk (l1 ++ (a, k) :: l2) A → a ≠ base → 1 ≤ n < k →
  geo brk (l1 ++ (a, k - n) :: l2) (<[a + 16 * (k - n) := n]> A).
Proof.
  intros H Ha Hn. assert (geo brk (l1 ++ (a, k - n) :: (a + 16 * (k - n), n) :: l2) A) as H'.
  { destruct H as [H1 H2 H3 H4 H5 H6 H7 H8]. assert ((a, k) ∈ l1 ++ (a, k) :: l2) as Ix by (apply elem_mid; by left).
    destruct (H4 _ Ix) as (X1 & X2 & X3). pose proof H2 as (H2' & Hs1 & Hs2)%sorted_mid. unfold ext in *. cbn [fst snd] in *.
    assert (∀ z, z ∈ l1 ++ l2 → z ∈ l1 ++ (a, k) :: l2) as Hsub by (intros z Hz; apply elem_mid; by right). split.
    - destruct l1; [injection H1 as -> _; done|done].
    - apply sorted_mid. unfold ext. cbn. split; [apply sorted_mid; unfold ext; cbn; split; [done|]|].
      + split; [|intros y Hy; specialize (Hs2 y Hy); lia]. intros y Hy. specialize (Hs1 y Hy). lia.
      + split; [done|]. intros y [->|Hy]%elem_of_cons; cbn; [lia|]. specialize (Hs2 y Hy). lia.
    - intros z [->|[->|Hz]%elem_mid]%elem_mid; cbn; [lia|lia|auto].
    - intros z [->|[->|Hz]%elem_mid]%elem_mid; [unfold ext; cbn|unfold ext; cbn|by apply H4; auto]; (split; [lia|]); (split; [zlia|lia]).
    - done.
    - intros z b n' [->|[->|Hz]%elem_mid]%elem_mid Hb; [| |by apply H6; auto]; pose proof (H6 _ b n' Ix Hb) as P; unfold apart, ext in *; cbn in *; destruct (H5 b n' Hb); lia.
    - done.
    - done. }
  change (l1 ++ (a, k - n) :: (a + 16 * (k - n), n) :: l2) with (l1 ++ [(a, k - n)] ++ (a + 16 * (k - n), n) :: l2) in H'. rewrite app_assoc in H'.
  apply geo_take in H'; [|cbn; destruct H as [_ _ _ H4 _ _ _ _]; destruct (H4 (a, k)) as (? & _); [apply elem_mid; by left|]; cbn in *; lia].
  rewrite <-app_assoc in H'. exact H'.
Qed.

Lemma geo_grow brk F A nu : geo brk F A → 1 ≤ nu → brk + 16 * nu ≤ limit → geo (brk + 16 * nu) F (<[brk := nu]> A).
Proof.
  intros [H1 H2 H3 H4 H5 H6 H7 H8] Hn Hl. assert (base < brk) as Hb.
  { destruct F as [|x F]; [done|]. injection H1 as ->. destruct (H4 (base, 0)) as (_ & _ & H); [constructor|]. pose proof (ext_pos (base, 0)). cbn in *. lia. } split.
  - done.
  - done.
  - done.
  - intros x Hx. destruct (H4 x Hx) as (? & ? & ?). split; [done|]. split; [done|lia].
  - intros a n [[<- <-]|[_ Ha]]%lookup_insert_Some; [lia|]. destruct (H5 a n Ha) as (? & ? & ? & ?). lia.
  - intros x a n Hx [[<- <-]|[_ Ha]]%lookup_insert_Some; [|auto]. left. cbn. by apply H4.
  - intros a n b k [[<- <-]|[Hne Ha]]%lookup_insert_Some [[<- <-]|[Hne' Hb']]%lookup_insert_Some; [by left| | |by apply H7]; right; unfold apart, ext; cbn.
    + destruct (H5 b k Hb'). right. lia.
    + destruct (H5 a n Ha). left. lia.
  - destruct H8 as (? & ? & ?). split; [done|]. split; [zlia|lia].
Qed.

(** *** Running [free] *)

Lemma wp_hptr p Q s : Q (load64 (um s) p) s → wp (hptr p) Q s.
Proof. done. Qed.
Lemma wp_hsize p Q s : Q (load32 (um s) (p + 8)) s → wp (hsize p) Q s.
Proof. done. Qed.
Lemma wp_set_hptr p v Q s : Q tt (set_um (store64 (um s) p v) s) → wp (set_hptr p v) Q s.
Proof. done. Qed.
Lemma wp_set_hsize p v Q s : Q tt (set_um (store32 (um s) (p + 8) v) s) → wp (set_hsize p v) Q s.
Proof. done. Qed.
Ltac wp_hook ::=
  lazymatch goal with
  | |- wp (hptr _) _ _ => apply wp_hptr
  | |- wp (hsize _) _ _ => apply wp_hsize
  | |- wp (set_hptr _ _) _ _ => apply wp_set_hptr
  | |- wp (set_hsize _ _) _ _ => apply wp_set_hsize
  end.

Definition rep (s : ust) (F : list blk) (A : gmap Z Z) : Prop := heap (um s) (freep s) (ubrk s) F A.

Lemma geo_length brk F A : geo brk F A → (length F < Z.to_nat brk)%nat.
Proof.
  intros [H1 H2 H3 H4 H5 H6 H7 H8]. destruct F as [|x F]; [done|]. destruct (H4 x) as (? & _ & ?); [constructor|]. pose proof (ext_pos x).
  pose proof (sorted_length (x :: F) base brk H2 (λ y Hy, conj (proj1 (H4 y Hy)) (proj2 (proj2 (H4 y Hy)))) ltac:(lia)). lia.
Qed.
Lemma geo_addr brk F A x : geo brk F A → x ∈ F → 0 < x.1 < 2147483648.
Proof. intros [_ _ _ H4 _ _ _ H8] Hx. destruct (H4 x Hx) as (? & _ & ?). pose proof (ext_pos x). lia. Qed.

Lemma free_search_run Q s F A bp n j p :
  rep s F A → base < bp → F !! j = Some p → p.1 + ext p ≤ bp → 1 ≤ n → (∀ i y, (j < i)%nat → F !! i = Some y → bp + 16 * n ≤ y.1) →
  Q p.1 s → wp (loop (S (Z.to_nat (ubrk s))) (free_turn bp) (freep s)) Q s.
Proof.
  intros [Hg Hl Hfp _] Hb Hj Hp Hn Hgt HQ. pose proof (geo_length _ _ _ Hg) as Hlen. pose proof (lookup_lt_Some _ _ _ Hj) as Hjl.
  assert (F !! 0%nat = Some (base, 0)) as H0. { destruct F; [done|]. apply (g_base _ _ _ Hg). }
  set (d i := if (i <=? j)%nat then (j - i)%nat else (length F - i + j)%nat).
  apply list_elem_of_fmap in Hfp as (x0 & -> & [i0 Hi0]%list_elem_of_lookup). pose proof (lookup_lt_Some _ _ _ Hi0) as Hi0l.
  eapply (wp_loop_turns (λ k q s', s' = s ∧ ∃ i x, F !! i = Some x ∧ q = x.1 ∧ k = d i) (d i0)).
  - unfold d. destruct (Nat.leb_spec i0 j); lia.
  - split; [done|]. by exists i0, x0.
  - intros k q s' (-> & i & x & Hi & -> & ->). pose proof (lookup_lt_Some _ _ _ Hi) as Hil. destruct (lnk_lookup _ _ _ _ _ Hl Hi) as [Enx _].
    unfold free_turn. wp_run. rewrite Enx.
    assert (∀ y, y ∈ F → base ≤ y.1) as Hge by (intros y Hy; by apply (g_in _ _ _ Hg)). pose proof (Hge x ltac:(by eapply list_elem_of_lookup_2)) as Hbx. pose proof (ext_pos x).
    destruct (lt_eq_lt_dec i j) as [[Hlt| ->]|Hgt'].
    + destruct (lookup_lt_is_Some_2 F (S i)) as [y Hy]; [lia|]. rewrite Hy. pose proof (sorted_lookup _ _ _ _ _ (g_sorted _ _ _ Hg) Hi Hy ltac:(lia)) as Hxy.
      assert (y.1 < bp) as Hyb. { destruct (decide (S i = j)) as [<-|]; [rewrite Hj in Hy; injection Hy as <-; pose proof (ext_pos p); lia|].
        pose proof (sorted_lookup _ _ _ _ _ (g_sorted _ _ _ Hg) Hy Hj ltac:(lia)). pose proof (ext_pos y). pose proof (ext_pos p). lia. }
      rewrite (proj2 (Z.ltb_ge bp y.1)), andb_false_r, (proj2 (Z.leb_gt y.1 x.1)) by lia. cbn [andb]. wp_run. exists (d (S i)).
      split; [unfold d; rewrite !(proj2 (Nat.leb_le _ _)) by lia; lia|]. split; [done|]. by exists (S i), y.
    + rewrite Hj in Hi. injection Hi as <-. destruct (F !! S j) as [y|] eqn:Hy.
      * pose proof (Hgt (S j) y ltac:(lia) Hy). rewrite (proj2 (Z.ltb_lt p.1 bp)), (proj2 (Z.ltb_lt bp y.1)) by lia. cbn [andb]. by wp_run.
      * rewrite (proj2 (Z.ltb_ge bp base)), andb_false_r, (proj2 (Z.leb_le base p.1)), (proj2 (Z.ltb_lt p.1 bp)) by lia. cbn [andb orb]. by wp_run.
    + pose proof (Hgt i x Hgt' Hi) as Hxb. rewrite (proj2 (Z.ltb_ge x.1 bp)) by lia. cbn [andb orb]. destruct (F !! S i) as [y|] eqn:Hy.
      * pose proof (sorted_lookup _ _ _ _ _ (g_sorted _ _ _ Hg) Hi Hy ltac:(lia)) as Hxy. rewrite (proj2 (Z.leb_gt y.1 x.1)) by lia. cbn [andb]. wp_run. exists (d (S i)).
        pose proof (lookup_lt_Some _ _ _ Hy). split; [unfold d; rewrite !(proj2 (Nat.leb_gt _ _)) by lia; lia|]. split; [done|]. by exists (S i), y.
      * rewrite (proj2 (Z.ltb_ge bp base)), andb_false_r by lia. wp_run. exists (d 0%nat). apply lookup_ge_None in Hy.
        split; [unfold d; destruct (Nat.leb_spec i j), (Nat.leb_spec 0 j); lia|]. split; [done|]. by exists 0%nat, (base, 0).
Qed.

Lemma geo_hd brk F A l : geo brk F A → l ⊆ F → 0 ≤ hd l base < 2147483648.
Proof.
  intros Hg Hl. destruct l as [|z l]; cbn; [|pose proof (geo_addr _ _ _ z Hg (Hl z (list_elem_of_here _ _))); lia].
  pose proof (g_base _ _ _ Hg) as H0. destruct F as [|x F]; [done|]. injection H0 as ->. pose proof (geo_addr _ _ _ (base, 0) Hg (list_elem_of_here _ _)). cbn in *. lia.
Qed.

(** Only the headers of the blocks [l] were written. *)
Definition only (m m' : mem) (l : list Z) : Prop := ∀ a k, 0 ≤ k → (∀ b, b ∈ l → a + k ≤ b ∨ b + 16 ≤ a) → agree m m' a k.
Lemma only_refl m l : only m m l.
Proof. intros a k _ _. apply agree_refl. Qed.
Lemma only_trans m1 m2 m3 l : only m1 m2 l → only m2 m3 l → only m1 m3 l.
Proof. intros H1 H2 a k Hk H. eapply agree_trans; [by apply H1|by apply H2]. Qed.
Lemma only_weaken m m' l l' : l ⊆ l' → only m m' l → only m m' l'.
Proof. intros Hsub H a k Hk Ha. apply H; [done|]. intros b Hb. by apply Ha, Hsub. Qed.
Lemma only_store64 m b v : only m (store64 m b v) [b].
Proof. intros a k Hk H x Hx. destruct (H b (list_elem_of_here _ _)); apply load8_store_le_out; lia. Qed.
Lemma only_store32 m b v : only m (store32 m (b + 8) v) [b].
Proof. intros a k Hk H x Hx. destruct (H b (list_elem_of_here _ _)); apply load8_store_le_out; lia. Qed.
Lemma only_load32 m m' l a : only m m' l → (∀ b, b ∈ l → a + 16 ≤ b ∨ b + 16 ≤ a) → load32 m' (a + 8) = load32 m (a + 8).
Proof. intros H Ha. apply load32_ext. apply H; [lia|]. intros b Hb. specialize (Ha b Hb). lia. Qed.

Lemma apart_hdr x y : apart x y → x.1 + 16 ≤ y.1 ∨ y.1 + 16 ≤ x.1.
Proof. pose proof (ext_pos x). pose proof (ext_pos y). unfold apart. lia. Qed.

(** A block in use keeps its header and its contents when headers elsewhere change. *)
Lemma hdr_only m m' (A : gmap Z Z) l : (∀ a n, A !! a = Some n → load32 m (a + 8) = n) → only m m' l →
  (∀ a n b, A !! a = Some n → b ∈ l → a + 16 ≤ b ∨ b + 16 ≤ a) → ∀ a n, A !! a = Some n → load32 m' (a + 8) = n.
Proof. intros H Ho Ha a n E. rewrite (only_load32 m m' l a Ho); [by apply H|]. intros b Hb. by eapply Ha. Qed.

Lemma load32_store32 m a v : 0 ≤ v < 4294967296 → load32 (store32 m a v) a = v.
Proof. intros Hv. unfold load32, store32. rewrite load_le_store_le. change (256 ^ Z.of_nat 4) with 4294967296. by apply Z.mod_small. Qed.
Lemma load32_store64_out m a b v : b + 4 ≤ a ∨ a + 8 ≤ b → load32 (store64 m a v) b = load32 m b.
Proof. intros H. apply load_le_store_le_out. lia. Qed.
Lemma load64_store32_out m a b v : b + 8 ≤ a ∨ a + 4 ≤ b → load64 (store32 m a v) b = load64 m b.
Proof. intros H. apply load_le_store_le_out. lia. Qed.
Lemma u64_addr a : 0 ≤ a < 2147483648 → u64 a = a.
Proof. intros H. unfold u64. zlia. Qed.

Lemma join_next_run Q s l1 p l2 A bp n :
  geo (ubrk s) (l1 ++ p :: l2) A → lnk (um s) (l1 ++ p :: l2) base → A !! bp = Some n → load32 (um s) (bp + 8) = n →
  p.1 + ext p ≤ bp → (∀ y, y ∈ l2 → bp + 16 * n ≤ y.1) →
  (∀ m' nb l2', only (um s) m' [bp] → geo (ubrk s) (l1 ++ p :: (bp, nb) :: l2') (delete bp A) → load64 m' bp = hd l2' base → load32 m' (bp + 8) = nb →
     lnk m' l2' base → n ≤ nb → (length l2' ≤ length l2)%nat → Q tt (set_um m' s)) →
  wp (join_next bp n (hd l2 base)) Q s.
Proof.
  intros Hg Hl HA Hbs Hp Hgt HQ. destruct (g_used _ _ _ Hg bp n HA) as (Hn & Hb & _ & Hbrk). pose proof (g_brk _ _ _ Hg) as (B1 & _ & B3).
  pose proof (geo_insert _ _ _ _ _ _ _ Hg HA Hp Hgt) as Hg'. apply lnk_app in Hl as [_ (_ & _ & Hl2)].
  assert (∀ m', only (um s) m' [bp] → ∀ l, l ⊆ l2 → lnk (um s) l base → lnk m' l base) as Hkeep.
  { intros m' Ho l Hsub Hll. eapply lnk_ext; [|exact Hll]. intros x Hx. apply Ho; [lia|]. intros b ->%list_elem_of_singleton. specialize (Hgt x (Hsub x Hx)). lia. }
  unfold join_next. rewrite u64_addr by lia. destruct (Z.eqb_spec (bp + 16 * n) (hd l2 base)) as [E|E].
  - destruct l2 as [|y l2]; [cbn in E; lia|]. cbn in E. destruct Hl2 as (Hy1 & Hy2 & Hl2). wp_run. cbn [hd um set_um]. rewrite Hy2, load64_store32_out, Hy1 by lia.
    destruct (g_in _ _ _ Hg' y) as (_ & _ & Hyb); [rewrite elem_of_app, !elem_of_cons; tauto|]. assert (16 * y.2 ≤ ext y) by (unfold ext; lia).
    assert (0 ≤ y.2) as Hy0. { assert (1 ≤ y.2); [|lia]. apply (g_blk _ _ _ Hg' y); [rewrite elem_of_app, !elem_of_cons; tauto|]. lia. }
    rewrite (u32_small (n + y.2)) by lia. set (m1 := store32 (um s) (bp + 8) (n + y.2)). set (m2 := store64 m1 bp (hd l2 base)).
    assert (only (um s) m2 [bp]) as Ho by (eapply only_trans; [apply only_store32|apply only_store64]).
    assert (0 ≤ hd l2 base < 2147483648) as Hhd.
    { apply (geo_hd _ _ _ l2 Hg'). intros z Hz. rewrite elem_of_app, !elem_of_cons. tauto. }
    change (set_um m2 (set_um m1 s)) with (set_um m2 s). apply (HQ m2 (n + y.2) l2); [done| | | | |lia|cbn; lia].
    + change (l1 ++ p :: (bp, n) :: y :: l2) with (l1 ++ [p] ++ (bp, n) :: y :: l2) in Hg'. rewrite app_assoc in Hg'. apply geo_merge in Hg'; [|cbn; lia|cbn; lia].
      rewrite <-app_assoc in Hg'. exact Hg'.
    + unfold m2. rewrite load64_store64. by apply u64_addr.
    + unfold m2. rewrite load32_store64_out by lia. apply load32_store32. lia.
    + apply Hkeep; [done|by intros z Hz; right|done].
  - wp_run. set (m2 := store64 (um s) bp (hd l2 base)). assert (only (um s) m2 [bp]) as Ho by apply only_store64.
    assert (0 ≤ hd l2 base < 2147483648) as Hhd.
    { apply (geo_hd _ _ _ l2 Hg'). intros z Hz. rewrite elem_of_app, !elem_of_cons. tauto. }
    apply (HQ m2 n l2); [done|done| | |by apply Hkeep|lia|lia].
    + unfold m2. rewrite load64_store64. by apply u64_addr.
    + unfold m2. by rewrite load32_store64_out by lia.
Qed.

Lemma join_prev_run Q s l1 p l2 A bp nb :
  geo (ubrk s) (l1 ++ p :: (bp, nb) :: l2) A → lnk (um s) l1 p.1 → load32 (um s) (p.1 + 8) = p.2 →
  load64 (um s) bp = hd l2 base → load32 (um s) (bp + 8) = nb → lnk (um s) l2 base →
  (∀ m' F', only (um s) m' [p.1] → geo (ubrk s) F' A → lnk m' F' base → p.1 ∈ F'.*1 → (∃ y, y ∈ F' ∧ nb ≤ y.2) → (length F' ≤ length l1 + 2 + length l2)%nat → Q tt (set_um m' s)) →
  wp (join_prev p.1 bp) Q s.
Proof.
  intros Hg Hl1 Hps Hbp Hbs Hl2 HQ. pose proof (g_brk _ _ _ Hg) as (B1 & _ & B3).
  assert (∀ x, x ∈ l1 ++ p :: (bp, nb) :: l2 ↔ x ∈ l1 ∨ x = p ∨ x = (bp, nb) ∨ x ∈ l2) as Hel by (intros x; rewrite elem_of_app, !elem_of_cons; tauto).
  pose proof (geo_addr _ _ _ p Hg ltac:(apply Hel; auto)) as Hp. pose proof (geo_addr _ _ _ (bp, nb) Hg ltac:(apply Hel; auto)) as Hb. cbn [fst] in Hb.
  pose proof (g_sorted _ _ _ Hg) as Hs. apply sorted_app in Hs as (_ & (Hs2 & Hs3 & _) & Hs1). pose proof (Hs2 (bp, nb) (list_elem_of_here _ _)) as Hpb. cbn [fst] in Hpb.
  destruct (g_in _ _ _ Hg p) as (_ & _ & Hpk); [apply Hel; auto|]. destruct (g_in _ _ _ Hg (bp, nb)) as (_ & _ & Hbk); [apply Hel; auto|]. pose proof (ext_pos p).
  assert (bp ≠ base) as Hbb. { destruct (g_in _ _ _ Hg p) as (? & _ & _); [apply Hel; auto|]. lia. }
  assert (1 ≤ nb) as Hnb by by apply (g_blk _ _ _ Hg (bp, nb)); [apply Hel; auto|]. assert (ext (bp, nb) = 16 * nb) as Eb by (unfold ext; cbn; lia). cbn [fst] in Hbk.
  assert (0 ≤ p.2 ∧ 16 * p.2 ≤ ext p) as Hp2.
  { unfold ext. destruct (decide (p.1 = base)) as [E|E]; [|pose proof (g_blk _ _ _ Hg p ltac:(apply Hel; auto) E); lia]. destruct l1 as [|x l1].
    - pose proof (g_base _ _ _ Hg) as Hb0. injection Hb0 as ->. cbn. lia.
    - pose proof (g_base _ _ _ Hg) as Hb0. injection Hb0 as ->. specialize (Hs1 (base, 0) p (list_elem_of_here _ _) (list_elem_of_here _ _)).
      pose proof (ext_pos (base, 0)). cbn in *. lia. }
  assert (∀ m', only (um s) m' [p.1] → lnk m' l1 p.1 ∧ lnk m' l2 base) as Hkeep.
  { intros m' Ho. split; (eapply lnk_ext; [|done]); intros x Hx; (apply Ho; [lia|]); intros b ->%list_elem_of_singleton; pose proof (ext_pos x).
    - specialize (Hs1 x p Hx (list_elem_of_here _ _)). lia.
    - specialize (Hs2 x (list_elem_of_further _ _ _ Hx)). lia. }
  unfold join_prev. wp_run. rewrite Hps, u64_addr by lia. destruct (Z.eqb_spec (p.1 + 16 * p.2) bp) as [E|E].
  - wp_run. cbn [um set_um]. rewrite Hbs, load64_store32_out, Hbp by lia. rewrite (u32_small (p.2 + nb)) by lia.
    set (m1 := store32 (um s) (p.1 + 8) (p.2 + nb)). set (m2 := store64 m1 p.1 (hd l2 base)).
    assert (only (um s) m2 [p.1]) as Ho by (eapply only_trans; [apply only_store32|apply only_store64]). destruct (Hkeep m2 Ho) as [K1 K2].
    assert (0 ≤ hd l2 base < 2147483648) as Hhd.
    { apply (geo_hd _ _ _ l2 Hg). intros z Hz. rewrite elem_of_app, !elem_of_cons. tauto. }
    change (set_um m2 (set_um m1 s)) with (set_um m2 s). apply (HQ m2 (l1 ++ (p.1, p.2 + nb) :: l2)); [done| | | | |rewrite length_app; cbn; lia].
    + apply (geo_merge _ _ p (bp, nb)); [done| |done]. intros Ep. destruct Hp2 as [_ _]. unfold ext in Hpb. rewrite Ep in *. destruct l1 as [|x l1].
      * pose proof (g_base _ _ _ Hg) as Hb0. injection Hb0 as ->. cbn in *. lia.
      * pose proof (g_base _ _ _ Hg) as Hb0. injection Hb0 as ->. specialize (Hs1 (base, 0) p (list_elem_of_here _ _) (list_elem_of_here _ _)). pose proof (ext_pos (base, 0)). cbn in *. lia.
    + apply lnk_app. split; [done|]. split; [unfold m2; rewrite load64_store64; by apply u64_addr|]. split; [|done]. unfold m2. cbn. rewrite load32_store64_out by lia.
      apply load32_store32. lia.
    + rewrite fmap_app. apply elem_of_app. right. constructor.
    + exists (p.1, p.2 + nb). split; [apply elem_mid; by left|cbn; lia].
  - wp_run. set (m2 := store64 (um s) p.1 bp). assert (only (um s) m2 [p.1]) as Ho by apply only_store64. destruct (Hkeep m2 Ho) as [K1 K2].
    apply (HQ m2 (l1 ++ p :: (bp, nb) :: l2)); [done|done| | | |rewrite length_app; cbn; lia].
    + apply lnk_app. split; [done|]. split; [cbn [hd fst]; unfold m2; rewrite load64_store64; apply u64_addr; lia|]. split; [unfold m2; by rewrite load32_store64_out by lia|].
      split; [unfold m2; cbn [fst]; rewrite load64_store64_out by lia; done|]. split; [unfold m2; cbn; by rewrite load32_store64_out by lia|done].
    + rewrite fmap_app. apply elem_of_app. right. constructor.
    + exists (bp, nb). split; [apply Hel; auto|done].
Qed.

Lemma free_run Q s F A bp n :
  rep s F A → A !! bp = Some n →
  (∀ s' F', rep s' F' (delete bp A) → ubrk s' = ubrk s → grants s' = grants s → only (um s) (um s') (bp :: F.*1) →
     (length F' ≤ S (length F))%nat → (∃ y, y ∈ F' ∧ n ≤ y.2) → Q tt s') →
  wp (free (bp + 16)) Q s.
Proof.
  intros Hrep HA HQ. pose proof Hrep as [Hg Hl Hfp Hh]. destruct (g_used _ _ _ Hg bp n HA) as (Hn & Hb & Hal & Hbrk). pose proof (g_brk _ _ _ Hg) as (B1 & B2 & B3).
  destruct (pred_index F bp n (g_sorted _ _ _ Hg)) as (j & p & Hj & Hp & Hgt); [intros x Hx; by apply (g_apart _ _ _ Hg)|done|exists (base, 0); split; [apply (g_base _ _ _ Hg)|done]|].
  unfold free. replace (bp + 16 - 16) with bp by lia. rewrite u64_addr by lia. wp_run.
  eapply (free_search_run _ s F A bp n j p); [done..|]. wp_run. rewrite (Hh bp n HA).
  assert (F = take j F ++ p :: drop (S j) F) as EF by (symmetry; by apply take_drop_middle). set (l1 := take j F) in *. set (l2 := drop (S j) F) in *.
  assert (∀ y, y ∈ l2 → bp + 16 * n ≤ y.1) as Hgt2.
  { intros y [i Hy]%list_elem_of_lookup. unfold l2 in Hy. rewrite lookup_drop in Hy. apply (Hgt (S j + i)%nat); [lia|done]. }
  clearbody l1 l2. subst F. clear Hj Hgt. assert (load64 (um s) p.1 = hd l2 base) as ->. { apply lnk_app in Hl as [_ (H & _)]. exact H. }
  eapply join_next_run; [exact Hg|exact Hl|exact HA|by apply Hh|done|done|]. intros m1 nb l2' Ho1 Hg1 Hb1 Hs1 Hl1 Hnb Hlen. wp_run.
  pose proof Hl as [Hl1' (_ & Hps & _)]%lnk_app. cbn [hd] in Hl1'. pose proof (g_sorted _ _ _ Hg1) as (_ & _ & Hso)%sorted_app.
  assert (∀ x, x ∈ l1 ++ p :: l2 → x.1 + 16 ≤ bp ∨ bp + 16 ≤ x.1) as Hfar by (intros x Hx; apply (apart_hdr x (bp, n)); by apply (g_apart _ _ _ Hg)).
  assert (∀ x, x ∈ l1 ++ p :: l2 → agree (um s) m1 x.1 16) as Hag.
  { intros x Hx. apply Ho1; [lia|]. intros b ->%list_elem_of_singleton. by apply Hfar. }
  assert (p ∈ l1 ++ p :: l2) as Ip by (apply elem_mid; by left).
  eapply (join_prev_run _ (set_um m1 s) l1 p l2' (delete bp A) bp nb); cbn [um set_um]; [exact Hg1| | |done|done|done|].
  - eapply lnk_ext; [|exact Hl1']. intros x Hx. apply Hag. apply elem_of_app. by left.
  - rewrite <-Hps. apply load32_ext. eapply agree_sub; [by apply Hag|lia|lia].
  - intros m2 F' Ho2 Hg2 Hl2 Hp2 (y & Hy & Hny) Hlen2. wp_run.
    assert (only (um s) m2 (bp :: (l1 ++ p :: l2).*1)) as Ho.
    { eapply only_trans; [eapply only_weaken; [|exact Ho1]|eapply only_weaken; [|exact Ho2]]; intros x ->%list_elem_of_singleton; [constructor|right].
      by apply (list_elem_of_fmap_2 fst). }
    apply (HQ _ F'); [|done|done|exact Ho|rewrite length_app; cbn; lia|exists y; split; [done|lia]].
    split; cbn [um set_freep set_um freep ubrk]; [done|done|done|]. eapply hdr_only; [|exact Ho|].
    + intros a k [_ Ha]%lookup_delete_Some. by apply Hh.
    + intros a k b [Hne Ha]%lookup_delete_Some [->|Hb']%elem_of_cons.
      * destruct (g_disj _ _ _ Hg bp n a k HA Ha) as [?|Hap]; [done|]. apply apart_hdr in Hap. cbn in Hap. lia.
      * apply list_elem_of_fmap in Hb' as (x & -> & Hx). pose proof (g_apart _ _ _ Hg x a k Hx Ha) as Hap. apply apart_hdr in Hap. cbn in Hap. lia.
Qed.

(** *** Running [malloc] *)

(** The contents of the blocks in use, with their headers, are the same. *)
Definition keeps (A : gmap Z Z) (m m' : mem) : Prop := ∀ a n, A !! a = Some n → agree m m' a (16 * n).
Lemma heap_keeps_refl A m : keeps A m m.
Proof. intros a n _. apply agree_refl. Qed.
Lemma heap_keeps_trans A m1 m2 m3 : keeps A m1 m2 → keeps A m2 m3 → keeps A m1 m3.
Proof. intros H1 H2 a n Ha. eapply agree_trans; eauto. Qed.
Lemma only_keeps (A : gmap Z Z) m m' l : only m m' l → (∀ a n b, A !! a = Some n → b ∈ l → 0 ≤ n ∧ (a + 16 * n ≤ b ∨ b + 16 ≤ a)) → l ≠ [] → keeps A m m'.
Proof.
  intros Ho H Hl a n Ha. destruct l as [|b0 l]; [done|]. destruct (H a n b0 Ha (list_elem_of_here _ _)) as [? _]. apply Ho; [lia|].
  intros b Hb. by apply (H a n b).
Qed.
Lemma keeps_hdr (A : gmap Z Z) m m' : keeps A m m' → (∀ a n, A !! a = Some n → 1 ≤ n ∧ load32 m (a + 8) = n) → ∀ a n, A !! a = Some n → load32 m' (a + 8) = n.
Proof. intros Hk H a n Ha. destruct (H a n Ha) as [Hn E]. etrans; [|exact E]. apply load32_ext. eapply agree_sub; [by apply Hk|lia|lia]. Qed.
Lemma geo_far brk F A x a n : geo brk F A → x ∈ F → A !! a = Some n → 0 ≤ n ∧ (a + 16 * n ≤ x.1 ∨ x.1 + 16 ≤ a).
Proof.
  intros Hg Hx Ha. destruct (g_used _ _ _ Hg a n Ha) as (? & _). split; [lia|]. pose proof (g_apart _ _ _ Hg x a n Hx Ha) as Hap. pose proof (ext_pos x).
  unfold apart, ext in *. cbn in *. lia.
Qed.

Lemma sbrk_run Q s n : Q (-1) (mkU (um s) (freep s) (ubrk s) (tail (grants s))) →
  (ubrk s + n ≤ limit → Q (ubrk s) (mkU (um s) (freep s) (ubrk s + n) (tail (grants s)))) → wp (sbrk n) Q s.
Proof.
  intros H1 H2. unfold wp, sbrk. destruct (grants s) as [|[] g]; [exact H1| |exact H1]. destruct (Z.leb_spec (ubrk s + n) limit); [by apply H2|exact H1].
Qed.

Lemma morecore_run Q s F A nu :
  rep s F A → 1 ≤ nu < 134217728 →
  (∀ s', rep s' F A → um s' = um s → Q 0 s') →
  (∀ s' F', rep s' F' A → keeps A (um s) (um s') → (length F' ≤ S (length F))%nat → (∃ y, y ∈ F' ∧ nu ≤ y.2) → freep s' ≠ 0 → Q (freep s') s') →
  wp (morecore nu) Q s.
Proof.
  intros Hrep Hnu HF HS. pose proof Hrep as [Hg Hl Hfp Hh]. pose proof (g_brk _ _ _ Hg) as (B1 & B2 & B3). unfold morecore.
  set (nu' := if nu <? 4096 then 4096 else nu). assert (nu ≤ nu' < 134217728 ∧ 4096 ≤ nu') as Hnu' by (unfold nu'; destruct (Z.ltb_spec nu 4096); lia).
  rewrite i32_small by lia. wp_run. apply sbrk_run; [wp_run; by apply HF|]. intros Hlim. assert (base < ubrk s) as Hbb.
  { pose proof (g_base _ _ _ Hg) as H0. destruct F as [|x F]; [done|]. injection H0 as ->. destruct (g_in _ _ _ Hg (base, 0)) as (_ & _ & H); [constructor|]. pose proof (ext_pos (base, 0)). cbn in *. lia. }
  rewrite (proj2 (Z.eqb_neq _ _)) by lia. wp_run. clear HF Hrep. remember (ubrk s) as brk eqn:Ebrk. rewrite (u64_addr (brk + 16)) by lia. cbn [um].
  set (s1 := set_um (store32 (um s) (brk + 8) nu') (mkU (um s) (freep s) (brk + nu' * 16) (tail (grants s)))).
  assert (A !! brk = None) as Hnone.
  { destruct (A !! brk) as [n|] eqn:E; [|done]. destruct (g_used _ _ _ Hg brk n E) as (? & ? & ? & ?). lia. }
  assert (only (um s) (um s1) [brk]) as Ho1 by apply only_store32.
  assert (keeps A (um s) (um s1)) as Hk1.
  { eapply only_keeps; [exact Ho1| |done]. intros a n b Ha ->%list_elem_of_singleton. destruct (g_used _ _ _ Hg a n Ha) as (? & ? & ? & ?). lia. }
  assert (rep s1 F (<[brk := nu']> A)) as Hrep1.
  { split; cbn [um ubrk freep s1 set_um].
    - rewrite (Z.mul_comm nu' 16). apply geo_grow; [done|lia|lia].
    - eapply lnk_ext; [|exact Hl]. intros x Hx. apply Ho1; [lia|]. intros b ->%list_elem_of_singleton. destruct (g_in _ _ _ Hg x Hx) as (_ & _ & ?). pose proof (ext_pos x). lia.
    - done.
    - intros a n [[<- <-]|[Hne Ha]]%lookup_insert_Some; [apply load32_store32; lia|].
      eapply keeps_hdr; [exact Hk1| |done]. intros a' n' Ha'. split; [exact (proj1 (g_used _ _ _ Hg a' n' Ha'))|by apply Hh]. }
  eapply (free_run _ s1 F _ brk nu'); [exact Hrep1|apply lookup_insert_eq|]. intros s2 F' Hrep2 Hb2 _ Ho2 Hlen (y & Hy & Hny). wp_run.
  rewrite delete_insert_id in Hrep2 by done. apply (HS s2 F'); [done| |done|exists y; split; [done|lia]|].
  - eapply heap_keeps_trans; [exact Hk1|]. eapply only_keeps; [exact Ho2| |done]. intros a n b Ha [->|Hb']%elem_of_cons.
    + destruct (g_used _ _ _ Hg a n Ha) as (? & ? & ? & ?). lia.
    + apply list_elem_of_fmap in Hb' as (x & -> & Hx). by apply (geo_far _ _ _ x a n Hg).
  - destruct Hrep2 as [Hg2 _ Hfp2 _]. apply list_elem_of_fmap in Hfp2 as (x & -> & Hx). pose proof (geo_addr _ _ _ x Hg2 Hx). lia.
Qed.

(** The position after [i] in a circle of [n], and the way from [i] to [j]. *)
Definition nxt (n i : nat) : nat := if (S i =? n)%nat then 0%nat else S i.
Definition dist (n i j : nat) : nat := if (i <=? j)%nat then (j - i)%nat else (n - i + j)%nat.
Lemma nxt_lt n i : (i < n)%nat → (nxt n i < n)%nat.
Proof. unfold nxt. destruct (Nat.eqb_spec (S i) n); lia. Qed.
Lemma dist_lt n i j : (i < n)%nat → (j < n)%nat → (dist n i j < n)%nat.
Proof. unfold dist. destruct (Nat.leb_spec i j); lia. Qed.
Lemma dist_nxt n i j : (i < n)%nat → (j < n)%nat → i ≠ j → S (dist n (nxt n i) j) = dist n i j.
Proof. unfold dist, nxt. destruct (Nat.eqb_spec (S i) n), (Nat.leb_spec i j); try lia; [destruct (Nat.leb_spec 0 j); lia|destruct (Nat.leb_spec (S i) j); lia..]. Qed.
Lemma dist_far n i j : (i < n)%nat → (j < n)%nat → (dist n (nxt n i) j ≤ dist n (nxt n i) i)%nat.
Proof. unfold dist, nxt. destruct (Nat.eqb_spec (S i) n); repeat match goal with |- context [(?a <=? ?b)%nat] => destruct (Nat.leb_spec a b) end; lia. Qed.
Lemma dist_zero n i j : (i < n)%nat → (j < n)%nat → dist n i j = 0%nat → i = j.
Proof. unfold dist. destruct (Nat.leb_spec i j); lia. Qed.
Lemma dist_self n i : dist n i i = 0%nat.
Proof. unfold dist. rewrite Nat.leb_refl. lia. Qed.

Lemma next_free s F A i x y : rep s F A → F !! i = Some x → F !! nxt (length F) i = Some y → load64 (um s) x.1 = y.1.
Proof.
  intros [Hg Hl _ _] Hi Hy. destruct (lnk_lookup _ _ _ _ _ Hl Hi) as [-> _]. unfold nxt in Hy. destruct (Nat.eqb_spec (S i) (length F)) as [E|E].
  - rewrite lookup_ge_None_2 by lia. destruct F; [done|]. pose proof (g_base _ _ _ Hg) as H0. cbn in H0, Hy. assert (y = (base, 0)) as -> by congruence. done.
  - by rewrite Hy.
Qed.

(** Where [malloc] is: at the entry after [i]; with [big] it will find a block
    before it is at [freep]. *)
Definition scanning (nunits : Z) (A : gmap Z Z) (m0 : mem) (N0 : nat) (k : nat) (l : Z * Z) (s : ust) : Prop :=
  ∃ F i x y f z, rep s F A ∧ keeps A m0 (um s) ∧ F !! i = Some x ∧ l.1 = x.1 ∧ F !! nxt (length F) i = Some y ∧ l.2 = y.1 ∧ F !! f = Some z ∧ freep s = z.1 ∧
    let d := dist (length F) (nxt (length F) i) f in
    ((k = d + N0 + 5)%nat ∧ length F = N0 ∨
     k = d ∧ ∃ b w, F !! b = Some w ∧ nunits ≤ w.2 ∧ (dist (length F) (nxt (length F) i) b ≤ d)%nat).

(** The result of [malloc]. *)
Definition malloced (nunits : Z) (A : gmap Z Z) (m0 : mem) (r : Z) (s : ust) : Prop :=
  keeps A m0 (um s) ∧ ∃ F,
    (r = 0 ∧ rep s F A ∨ ∃ b, r = b + 16 ∧ A !! b = None ∧ rep s F (<[b := nunits]> A)).

Lemma geo_new brk F A b n : geo brk F A → b ∈ F.*1 → A !! b = Some n → False.
Proof. intros Hg (x & -> & Hx)%list_elem_of_fmap Ha. pose proof (g_apart _ _ _ Hg x _ n Hx Ha) as H. apply apart_hdr in H. cbn in H. lia. Qed.

(** The whole block is taken. *)
Lemma take_run m fp brk l1 x y l2 A : heap m fp brk (l1 ++ x :: y :: l2) A → y.1 ≠ base →
  let m' := store64 m x.1 (hd l2 base) in
  keeps A m m' ∧ A !! y.1 = None ∧ heap m' x.1 brk (l1 ++ x :: l2) (<[y.1 := y.2]> A).
Proof.
  intros [Hg Hl Hfp Hh] Hy m'. assert (only m m' [x.1]) as Ho by apply only_store64.
  assert (∀ z, z ∈ l1 ++ x :: y :: l2 ↔ z ∈ l1 ∨ z = x ∨ z = y ∨ z ∈ l2) as Hel by (intros z; rewrite elem_of_app, !elem_of_cons; tauto).
  assert (keeps A m m') as Hk. { eapply only_keeps; [exact Ho| |done]. intros a n b Ha ->%list_elem_of_singleton. apply (geo_far _ _ _ x a n Hg); [apply Hel; auto|done]. }
  split; [done|]. split.
  { destruct (A !! y.1) as [n|] eqn:E; [|done]. exfalso. apply (geo_new _ _ _ _ _ Hg) in E; [done|]. apply (list_elem_of_fmap_2 fst), Hel. auto. }
  pose proof (g_sorted _ _ _ Hg) as (_ & (Hs2 & _ & _) & Hs1)%sorted_app. pose proof Hl as (Hl1 & Hx1 & Hx2 & Hy1 & Hy2 & Hl2)%lnk_app. pose proof (ext_pos x).
  split.
  - change (l1 ++ x :: y :: l2) with (l1 ++ [x] ++ y :: l2) in Hg. rewrite app_assoc in Hg. apply geo_take in Hg; [|done]. rewrite <-app_assoc in Hg. exact Hg.
  - apply lnk_app. split; [|split; [|split]].
    + eapply lnk_ext; [|exact Hl1]. intros z Hz. apply Ho; [lia|]. intros b ->%list_elem_of_singleton. specialize (Hs1 z x Hz (list_elem_of_here _ _)). pose proof (ext_pos z). lia.
    + unfold m'. rewrite load64_store64. apply u64_addr. apply (geo_hd _ _ _ l2 Hg). intros z Hz. apply Hel. auto.
    + unfold m'. by rewrite load32_store64_out by lia.
    + eapply lnk_ext; [|exact Hl2]. intros z Hz. apply Ho; [lia|]. intros b ->%list_elem_of_singleton. specialize (Hs2 z (list_elem_of_further _ _ _ Hz)). lia.
  - rewrite fmap_app. apply elem_of_app. right. constructor.
  - intros a n [[<- <-]|[Hne Ha]]%lookup_insert_Some.
    + unfold m'. rewrite load32_store64_out; [done|]. specialize (Hs2 y (list_elem_of_here _ _)). lia.
    + eapply keeps_hdr; [exact Hk| |done]. intros a' n' Ha'. split; [exact (proj1 (g_used _ _ _ Hg a' n' Ha'))|by apply Hh].
Qed.

(** The end of the block is taken. *)
Lemma split_run m fp brk l1 a k l2 A n x : heap m fp brk (l1 ++ (a, k) :: l2) A → a ≠ base → 1 ≤ n < k → x ∈ (l1 ++ (a, k) :: l2).*1 →
  let b := a + 16 * (k - n) in let m' := store32 (store32 m (a + 8) (k - n)) (b + 8) n in
  keeps A m m' ∧ A !! b = None ∧ heap m' x brk (l1 ++ (a, k - n) :: l2) (<[b := n]> A).
Proof.
  intros [Hg Hl Hfp Hh] Ha Hn Hx b m'. assert ((a, k) ∈ l1 ++ (a, k) :: l2) as Ia by (apply elem_mid; by left).
  destruct (g_in _ _ _ Hg _ Ia) as (A1 & A2 & A3). pose proof (g_brk _ _ _ Hg) as (B1 & B2 & B3). unfold ext in A3. cbn in A1, A2, A3.
  assert (only m m' [a; b]) as Ho.
  { eapply only_trans; [eapply only_weaken; [|apply only_store32]|eapply only_weaken; [|apply only_store32]]; intros z ->%list_elem_of_singleton; [by left|right; by left]. }
  assert (∀ c n', A !! c = Some n' → 0 ≤ n' ∧ (c + 16 * n' ≤ a ∨ a + 16 * k ≤ c)) as Hfar.
  { intros c n' Hc. destruct (g_used _ _ _ Hg c n' Hc) as (? & _). split; [lia|]. pose proof (g_apart _ _ _ Hg _ c n' Ia Hc) as Hap. unfold apart, ext in Hap. cbn in Hap. lia. }
  assert (keeps A m m') as Hk.
  { eapply only_keeps; [exact Ho| |done]. intros c n' d Hc Hd. destruct (Hfar c n' Hc) as [? ?]. split; [done|].
    apply elem_of_cons in Hd as [->|Hd]; [lia|]. apply list_elem_of_singleton in Hd as ->. unfold b. lia. }
  split; [done|]. split.
  { destruct (A !! b) as [n'|] eqn:E; [|done]. exfalso. destruct (Hfar b n' E). destruct (g_used _ _ _ Hg b n' E) as (? & _). unfold b in *. lia. }
  pose proof (g_sorted _ _ _ Hg) as (_ & Hs1 & Hs2)%sorted_mid. unfold ext in Hs2. cbn in Hs2. pose proof Hl as (Hl1 & Ha1 & Ha2 & Hl2)%lnk_app. cbn in Ha1, Ha2.
  split.
  - by apply geo_split.
  - apply lnk_app. split; [|split; [|split]]; cbn [fst snd].
    + eapply lnk_ext; [|exact Hl1]. intros z Hz. apply Ho; [lia|]. specialize (Hs1 z Hz). pose proof (ext_pos z). cbn in Hs1.
      intros d [->| ->%list_elem_of_singleton]%elem_of_cons; [lia|unfold b; lia].
    + unfold m'. rewrite !load64_store32_out by (unfold b; lia). done.
    + unfold m'. unfold load32, store32 at 1. rewrite load_le_store_le_out by (unfold b; lia). apply load32_store32. lia.
    + eapply lnk_ext; [|exact Hl2]. intros z Hz. apply Ho; [lia|]. specialize (Hs2 z Hz). intros d [->| ->%list_elem_of_singleton]%elem_of_cons; [lia|unfold b; lia].
  - rewrite fmap_app in Hx |- *. cbn in Hx |- *. done.
  - intros c n' [[<- <-]|[Hne Hc]]%lookup_insert_Some; [apply load32_store32; lia|].
    eapply keeps_hdr; [exact Hk| |done]. intros a' n'' Ha'. split; [exact (proj1 (g_used _ _ _ Hg a' n'' Ha'))|by apply Hh].
Qed.

(** A block that fits. *)
Lemma fit_run Q nunits A m0 s F i x y :
  rep s F A → keeps A m0 (um s) → F !! i = Some x → F !! nxt (length F) i = Some y → 1 ≤ nunits ≤ y.2 →
  (∀ r s', malloced nunits A m0 r s' → Q r s') →
  wp (r <- (if y.2 =? nunits then nx <- hptr y.1 ;; set_hptr x.1 nx ;; ret y.1
            else
              set_hsize y.1 (u32 (y.2 - nunits)) ;;
              let p := u64 (y.1 + 16 * u32 (y.2 - nunits)) in
              set_hsize p nunits ;;
              ret p) ;;
      modify (set_freep x.1) ;;
      ret (u64 (r + 16))) Q s.
Proof.
  intros Hrep Hk Hi Hy Hn HQ. pose proof Hrep as [Hg Hl Hfp Hh]. pose proof (g_brk _ _ _ Hg) as (B1 & B2 & B3).
  assert (y ∈ F) as Iy by by eapply list_elem_of_lookup_2. assert (y.1 ≠ base) as Hyb.
  { intros E. assert (F !! 0%nat = Some (base, 0)) as H0 by (destruct F; [done|]; apply (g_base _ _ _ Hg)).
    assert (y = (base, 0)) as ->; [|cbn in Hn; lia]. destruct (nxt (length F) i) as [|j] eqn:En; [congruence|].
    pose proof (sorted_lookup _ _ _ _ _ (g_sorted _ _ _ Hg) H0 Hy ltac:(lia)). pose proof (ext_pos (base, 0)). cbn in *. lia. }
  assert (nxt (length F) i = S i) as En.
  { unfold nxt in *. destruct (Nat.eqb_spec (S i) (length F)); [|done]. exfalso. apply Hyb. destruct F; [done|]. pose proof (g_base _ _ _ Hg) as H0. cbn in *.
    assert (y = (base, 0)) as -> by congruence. done. }
  rewrite En in Hy. set (l1 := take i F). set (l2 := drop (S (S i)) F).
  assert (F = l1 ++ x :: y :: l2) as EF by (unfold l1, l2; rewrite <-(drop_S F y (S i) Hy); symmetry; by apply take_drop_middle). clearbody l1 l2. subst F. clear Hi Hy En.
  pose proof (geo_addr _ _ _ y Hg Iy) as Hya. destruct (g_in _ _ _ Hg y Iy) as (_ & _ & Hye). assert (ext y = 16 * y.2) as Ee by (unfold ext; lia).
  pose proof Hl as (_ & _ & _ & Hy1 & Hy2 & _)%lnk_app. destruct (Z.eqb_spec y.2 nunits) as [E|E].
  - wp_run. rewrite Hy1, u64_addr by lia. destruct (take_run _ _ _ _ _ _ _ _ Hrep Hyb) as (K & Hnone & Hh'). apply HQ. rewrite E in Hh'.
    split; [by eapply heap_keeps_trans|]. exists (l1 ++ x :: l2). right. exists y.1. split; [done|]. split; [done|]. exact Hh'.
  - wp_run. rewrite (u32_small (y.2 - nunits)) by lia. cbv zeta. wp_run.
    rewrite (u64_addr (y.1 + _)), u64_addr by lia. destruct y as [a k]. cbn [fst snd] in *.
    change (l1 ++ x :: (a, k) :: l2) with (l1 ++ [x] ++ (a, k) :: l2) in Hrep. rewrite app_assoc in Hrep.
    destruct (split_run _ _ _ _ _ _ _ _ nunits x.1 Hrep Hyb) as (K & Hnone & Hh'); [lia|rewrite <-app_assoc, fmap_app; apply elem_of_app; right; constructor|].
    apply HQ. split; [by eapply heap_keeps_trans|]. eexists. right. exists (a + 16 * (k - nunits)). split; [done|]. split; [done|]. exact Hh'.
Qed.

Lemma malloc_loop_run nunits A m0 N0 k l s fuel : 1 ≤ nunits < 134217728 → (k < fuel)%nat → scanning nunits A m0 N0 k l s →
  wp (loop fuel (malloc_turn nunits) l) (malloced nunits A m0) s.
Proof.
  intros Hn Hk Hs. eapply (wp_loop_turns (scanning nunits A m0 N0) k); [done|done|]. clear k l s Hk Hs.
  intros k [prevp p] s (F & i & x & y & f & z & Hrep & Hkp & Hi & E1 & Hy & E2 & Hf & Efp & Hph). cbn [fst snd] in E1, E2. subst prevp p. unfold malloc_turn. wp_run.
  pose proof Hrep as [Hg Hl Hfp Hh]. destruct (lnk_lookup _ _ _ _ _ Hl Hy) as [_ Hsz]. rewrite Hsz. pose proof (lookup_lt_Some _ _ _ Hi) as Hil. pose proof (lookup_lt_Some _ _ _ Hf) as Hfl.
  pose proof (nxt_lt _ _ Hil) as Hnl. set (N := length F) in *. set (i' := nxt N i) in *.
  destruct (Z.leb_spec nunits y.2) as [Hfit|Hsmall].
  - assert (wp (r <- (if y.2 =? nunits then nx <- hptr y.1 ;; set_hptr x.1 nx ;; ret y.1
            else set_hsize y.1 (u32 (y.2 - nunits)) ;; let p := u64 (y.1 + 16 * u32 (y.2 - nunits)) in set_hsize p nunits ;; ret p) ;;
      modify (set_freep x.1) ;; ret (u64 (r + 16))) (malloced nunits A m0) s) as Hw.
    { eapply fit_run; [exact Hrep|done|exact Hi|exact Hy|lia|done]. }
    apply wp_bind. apply wp_bind_inv in Hw. eapply wp_mono; [exact Hw|]. cbv beta. intros r s1 H1. exact H1.
  - wp_run. rewrite Efp. assert (y.1 = z.1 ↔ i' = f) as Heq.
    { split; [|intros ->; rewrite Hy in Hf; congruence]. intros E. destruct (lt_eq_lt_dec i' f) as [[Hlt| ->]|Hgt]; [|done|]; exfalso.
      - pose proof (sorted_lookup _ _ _ _ _ (g_sorted _ _ _ Hg) Hy Hf Hlt). pose proof (ext_pos y). lia.
      - pose proof (sorted_lookup _ _ _ _ _ (g_sorted _ _ _ Hg) Hf Hy Hgt). pose proof (ext_pos z). lia. }
    destruct (Z.eqb_spec y.1 z.1) as [E|E].
    + apply Heq in E as Ei. destruct Hph as [[-> EN]|(-> & b & w & Hb & Hw & Hd)].
      2: { exfalso. rewrite Ei, dist_self in Hd. pose proof (lookup_lt_Some _ _ _ Hb). assert (f = b) as <- by (apply (dist_zero N); [done|done|lia]).
           rewrite Ei in Hy. assert (w = y) as -> by congruence. lia. }
      wp_run. eapply (morecore_run _ s F A nunits); [exact Hrep|done| |].
      * intros s' Hrep' Em. wp_run. split; [by rewrite Em|]. exists F. by left.
      * intros s' F' Hrep' Hk' Hlen (b & Hb & Hbn) Hfp0. rewrite (proj2 (Z.eqb_neq _ _)) by done. wp_run. pose proof Hrep' as [Hg' _ Hfp' _].
        apply list_elem_of_fmap in Hfp' as (x' & Ex' & [f' Hf']%list_elem_of_lookup). apply list_elem_of_lookup in Hb as [j Hj].
        pose proof (lookup_lt_Some _ _ _ Hf') as Hfl'. pose proof (lookup_lt_Some _ _ _ Hj) as Hjl. pose proof (nxt_lt _ _ Hfl') as Hnl'.
        destruct (lookup_lt_is_Some_2 F' (nxt (length F') f') Hnl') as [y' Hy']. exists (dist (length F') (nxt (length F') f') f').
        split; [pose proof (dist_lt _ _ _ Hnl' Hfl'); lia|]. exists F', f', x', y', f', x'. split; [done|]. split; [by eapply heap_keeps_trans|]. split; [done|]. split; [done|].
        split; [done|]. split; [cbn [snd]; rewrite Ex'; by eapply next_free|]. split; [done|]. split; [done|]. right. split; [done|].
        exists j, b. split; [done|]. split; [done|]. by apply dist_far.
    + wp_run. assert (i' ≠ f) as Hne by tauto. destruct (lookup_lt_is_Some_2 F (nxt N i') (nxt_lt _ _ Hnl)) as [y' Hy'].
      pose proof (dist_nxt N i' f Hnl Hfl Hne) as Hd1. rewrite (next_free s F A i' y y' Hrep Hy Hy').
      assert (∀ k', (dist N (nxt N i') f + N0 + 5 = k')%nat ∧ length F = N0 ∨ dist N (nxt N i') f = k' ∧ (∃ b w, F !! b = Some w ∧ nunits ≤ w.2 ∧ (dist N (nxt N i') b ≤ dist N (nxt N i') f)%nat) →
        scanning nunits A m0 N0 k' (y.1, y'.1) s) as Hgo.
      { intros k' H. exists F, i', y, y', f, z. do 8 (split; [done|]). fold N. destruct H as [[<- ?]|[<- ?]]; [by left|by right]. }
      destruct Hph as [[-> EN]|(-> & b & w & Hb & Hw & Hd)].
      * exists (dist N (nxt N i') f + N0 + 5)%nat. split; [lia|]. apply Hgo. by left.
      * exists (dist N (nxt N i') f). split; [lia|]. apply Hgo. right. split; [done|]. exists b, w. split; [done|]. split; [done|].
        assert (i' ≠ b) as Hnb. { intros ->. rewrite Hy in Hb. injection Hb as ->. lia. }
        pose proof (dist_nxt N i' b Hnl (lookup_lt_Some _ _ _ Hb) Hnb). lia.
Qed.

(** Before the first [malloc] the list is not there yet. *)
Definition ready (s : ust) (A : gmap Z Z) : Prop :=
  freep s = 0 ∧ A = ∅ ∧ geo (ubrk s) [(base, 0)] ∅ ∨ ∃ F, rep s F A.

Lemma malloc_scan nunits A m0 s F f z y :
  rep s F A → keeps A m0 (um s) → F !! f = Some z → freep s = z.1 → F !! nxt (length F) f = Some y → 1 ≤ nunits < 134217728 →
  wp (loop (2 * Z.to_nat (ubrk s) + 4) (malloc_turn nunits) (z.1, y.1)) (malloced nunits A m0) s.
Proof.
  intros Hrep Hk Hf Ez Hy Hn. pose proof (geo_length _ _ _ (h_geo _ _ _ _ _ Hrep)) as Hlen. pose proof (lookup_lt_Some _ _ _ Hf) as Hfl.
  pose proof (dist_lt _ _ _ (nxt_lt _ _ Hfl) Hfl).
  apply (malloc_loop_run nunits A m0 (length F) (dist (length F) (nxt (length F) f) f + length F + 5)); [done|lia|].
  exists F, f, z, y, f, z. do 8 (split; [done|]). by left.
Qed.

Lemma malloc_run nbytes s A : ready s A → 0 ≤ nbytes < 1073741824 →
  wp (malloc nbytes) (malloced ((nbytes + 15) / 16 + 1) A (um s)) s.
Proof.
  intros Hr Hb. unfold malloc. replace (nbytes + 16 - 1) with (nbytes + 15) by lia. set (n := (nbytes + 15) / 16 + 1).
  assert (1 ≤ n < 134217728) as Hn by (unfold n; zlia). rewrite (u32_small n) by lia. wp_run. destruct Hr as [(Hfp & -> & Hg)|[F Hrep]].
  - rewrite Hfp. cbn [Z.eqb]. wp_run. cbn [um freep ubrk set_um set_freep]. set (m := store32 _ _ _).
    pose proof (g_in _ _ _ Hg (base, 0) (list_elem_of_here _ _)) as (_ & _ & Hin). pose proof (g_brk _ _ _ Hg) as (? & _ & ?). unfold ext in Hin. cbn in Hin.
    assert (load64 m base = base) as Hm. { unfold m. rewrite load64_store32_out by lia. rewrite load64_store64. apply u64_addr. lia. }
    rewrite Hm. apply (malloc_scan n ∅ (um s) (mkU m base (ubrk s) (grants s)) [(base, 0)] 0 (base, 0) (base, 0)); [|by intros ? ? ?%lookup_empty_Some|done..].
    split; [done| |constructor|by intros ? ? ?%lookup_empty_Some]. split; [done|]. split; [|done]. unfold m. by apply load32_store32.
  - pose proof (h_fp _ _ _ _ _ Hrep) as (z & Ez & [f Hf]%list_elem_of_lookup)%list_elem_of_fmap. pose proof (h_geo _ _ _ _ _ Hrep) as Hg.
    pose proof (geo_addr _ _ _ z Hg (list_elem_of_lookup_2 _ _ _ Hf)). rewrite (proj2 (Z.eqb_neq _ _)) by lia. wp_run.
    destruct (lookup_lt_is_Some_2 F (nxt (length F) f) (nxt_lt _ _ (lookup_lt_Some _ _ _ Hf))) as [y Hy]. rewrite Ez, (next_free s F A f z y Hrep Hf Hy).
    apply (malloc_scan n A (um s) s F f z y); [done|apply heap_keeps_refl|done..].
Qed.

(** ** Programs that use the allocator *)

(** The state of a program that calls [malloc] and [free] and writes inside the
    blocks it was given: [L] has the address and the length it asked for of
    every block it has not freed. *)
Inductive reached : ust → gmap Z Z → Prop :=
  | reached_start s :
      freep s = 0 → 0 < base → base mod 16 = 0 → ubrk s mod 16 = 0 → base + 16 ≤ ubrk s ≤ limit → limit < 2147483648 → reached s ∅
  | reached_malloc s L nbytes p s' :
      reached s L → 0 ≤ nbytes < 1073741824 → malloc nbytes s = OK p s' → reached s' (if p =? 0 then L else <[p := nbytes]> L)
  | reached_free s L p n s' :
      reached s L → L !! p = Some n → free p s = OK tt s' → reached s' (delete p L)
  | reached_write s L p n i b :
      reached s L → L !! p = Some n → 0 ≤ i < n → reached (set_um (store8 (um s) (p + i) b) s) L.

(** The blocks of the program are inside its memory, behind the header of the
    list, aligned as a header, and apart. *)
Definition blocks (L : gmap Z Z) (brk : Z) : Prop :=
  (∀ p n, L !! p = Some n → base + 32 ≤ p ∧ p mod 16 = 0 ∧ 0 ≤ n ∧ p + n ≤ brk) ∧
  (∀ p n q k, L !! p = Some n → L !! q = Some k → p = q ∨ p + n ≤ q ∨ q + k ≤ p).
Definition same_contents (L : gmap Z Z) (s s' : ust) : Prop :=
  ∀ p n i, L !! p = Some n → 0 ≤ i < n → load8 (um s') (p + i) = load8 (um s) (p + i).

(** The blocks in use of the allocator are those of the program. *)
Definition owns (A L : gmap Z Z) : Prop :=
  (∀ p n, L !! p = Some n → 0 ≤ n ∧ A !! (p - 16) = Some ((n + 15) / 16 + 1)) ∧ (∀ a k, A !! a = Some k → is_Some (L !! (a + 16))).
Definition inv (s : ust) (L : gmap Z Z) : Prop := ∃ A, ready s A ∧ owns A L.

Lemma ready_geo s A : ready s A → ∃ F, geo (ubrk s) F A.
Proof. intros [(_ & -> & Hg)|[F [Hg _ _ _]]]; eauto. Qed.
Lemma owns_blocks brk F A L : geo brk F A → owns A L → blocks L brk.
Proof.
  intros Hg [H1 H2]. assert ((base, 0) ∈ F) as Hb. { pose proof (g_base _ _ _ Hg) as E. destruct F as [|x F]; [done|]. injection E as ->. constructor. } split.
  - intros p n Hp. destruct (H1 p n Hp) as [Hn Ha]. destruct (g_used _ _ _ Hg _ _ Ha) as (? & ? & ? & ?).
    pose proof (g_apart _ _ _ Hg _ _ _ Hb Ha) as Hap. unfold apart, ext in Hap. cbn in Hap. zlia.
  - intros p n q k Hp Hq. destruct (H1 p n Hp) as [Hn Ha], (H1 q k Hq) as [Hk Hc]. destruct (g_disj _ _ _ Hg _ _ _ _ Ha Hc) as [E|Hap]; [left; lia|].
    unfold apart, ext in Hap. cbn in Hap. zlia.
Qed.
Lemma owns_contents A L s s' : owns A L → keeps A (um s) (um s') → same_contents L s s'.
Proof. intros [H1 _] Hk p n i Hp Hi. destruct (H1 p n Hp) as [Hn Ha]. apply (Hk _ _ Ha). zlia. Qed.

Lemma inv_malloc nbytes s L : inv s L → 0 ≤ nbytes < 1073741824 →
  wp (malloc nbytes) (λ p s', same_contents L s s' ∧ (p ≠ 0 → L !! p = None) ∧ inv s' (if p =? 0 then L else <[p := nbytes]> L)) s.
Proof.
  intros (A & Hr & Ho) Hn. eapply wp_mono; [by apply malloc_run|]. intros p s' (Hk & F & [[-> Hrep]|(b & -> & Hb & Hrep)]).
  - split; [by eapply owns_contents|]. split; [done|]. exists A. split; [right; by exists F|done].
  - split; [by eapply owns_contents|]. assert (L !! (b + 16) = None) as Hl.
    { destruct (L !! (b + 16)) as [n|] eqn:E; [|done]. destruct Ho as [H1 _]. destruct (H1 _ _ E) as [_ Ha]. replace (b + 16 - 16) with b in Ha by lia. congruence. }
    pose proof (h_geo _ _ _ _ _ Hrep) as Hg. destruct (g_used _ _ _ Hg b _ (lookup_insert_eq _ _ _)) as (_ & ? & _). pose proof (g_brk _ _ _ Hg) as (? & _ & _).
    split; [done|]. rewrite (proj2 (Z.eqb_neq _ _)) by lia. exists (<[b := (nbytes + 15) / 16 + 1]> A). split; [right; by exists F|]. destruct Ho as [H1 H2]. split.
    + intros p n [[<- <-]|[Hne Hp]]%lookup_insert_Some; [split; [lia|]; apply lookup_insert_Some; left; split; [lia|done]|].
      destruct (H1 p n Hp) as [? Ha]. split; [done|]. rewrite lookup_insert_ne by lia. done.
    + intros a k [[<- <-]|[Hne Ha]]%lookup_insert_Some; [rewrite lookup_insert_eq; eauto|]. rewrite lookup_insert_ne by lia. by eapply H2.
Qed.

Lemma inv_free p n s L : inv s L → L !! p = Some n →
  wp (free p) (λ _ s', same_contents (delete p L) s s' ∧ inv s' (delete p L)) s.
Proof.
  intros (A & Hr & Ho) Hp. pose proof Ho as [H1 H2]. destruct (H1 p n Hp) as [Hn Ha]. destruct Hr as [(_ & -> & _)|[F Hrep]]; [by rewrite lookup_empty in Ha|].
  replace p with (p - 16 + 16) at 1 by lia. eapply free_run; [exact Hrep|exact Ha|]. intros s' F' Hrep' _ _ Hon _ _. pose proof (h_geo _ _ _ _ _ Hrep) as Hg.
  assert (owns (delete (p - 16) A) (delete p L)) as Ho'.
  { split.
    - intros q k [Hne Hq]%lookup_delete_Some. destruct (H1 q k Hq) as [? Hc]. split; [done|]. rewrite lookup_delete_ne by lia. done.
    - intros a k [Hne Hc]%lookup_delete_Some. rewrite lookup_delete_ne by lia. by eapply H2. }
  split; [|exists (delete (p - 16) A); split; [right; by exists F'|done]]. eapply owns_contents; [exact Ho'|]. eapply only_keeps; [exact Hon| |done].
  intros a k b [Hne Hc]%lookup_delete_Some [->|(x & -> & Hx)%list_elem_of_fmap]%elem_of_cons; [|by apply (geo_far _ _ _ x a k Hg)].
  destruct (g_used _ _ _ Hg a k Hc) as (? & _). split; [lia|]. destruct (g_disj _ _ _ Hg _ _ _ _ Ha Hc) as [E|Hap]; [done|]. unfold apart, ext in Hap. cbn in Hap. zlia.
Qed.

Lemma inv_write p n i b s L : inv s L → L !! p = Some n → 0 ≤ i < n → inv (set_um (store8 (um s) (p + i) b) s) L.
Proof.
  intros (A & Hr & Ho) Hp Hi. exists A. split; [|done]. destruct Hr as [Hr|[F Hrep]]; [by left|right; exists F]. destruct Ho as [H1 _]. destruct (H1 p n Hp) as [Hn Ha].
  destruct Hrep as [Hg Hl Hfp Hh]. assert (∀ a k, p + i < a ∨ a + k ≤ p + i → agree (um s) (store8 (um s) (p + i) b) a k) as Hag.
  { intros a k Hak x Hx. unfold load8, store8. rewrite lookup_insert_ne by lia. done. }
  split; cbn [um freep ubrk set_um]; [done| |done|].
  - eapply lnk_ext; [|exact Hl]. intros x Hx. apply Hag. destruct (geo_far _ _ _ x _ _ Hg Hx Ha). zlia.
  - intros a k Hk. rewrite <-(Hh a k Hk). apply load32_ext, Hag. destruct (g_disj _ _ _ Hg _ _ _ _ Ha Hk) as [E|Hap]; [lia|]. unfold apart, ext in Hap. cbn in Hap. zlia.
Qed.

Lemma reached_inv s L : reached s L → inv s L.
Proof.
  induction 1 as [s Hf H1 H2 H3 H4 H5|s L nbytes p s' _ IH Hn E|s L p n s' _ IH Hp E|s L p n i b _ IH Hp Hi].
  - exists ∅. split; [left|by split; intros ? ? ?%lookup_empty_Some]. split; [done|]. split; [done|].
    split; [done|split; [by intros ? ?%not_elem_of_nil|done]|..|lia].
    + intros x ->%list_elem_of_singleton. done.
    + intros x ->%list_elem_of_singleton. unfold ext. cbn. lia.
    + by intros ? ? ?%lookup_empty_Some.
    + by intros ? ? ? _ ?%lookup_empty_Some.
    + by intros ? ? ? ? ?%lookup_empty_Some.
  - pose proof (inv_malloc nbytes s L IH Hn) as Hw. unfold wp in Hw. rewrite E in Hw. apply Hw.
  - pose proof (inv_free p n s L IH Hp) as Hw. unfold wp in Hw. rewrite E in Hw. apply Hw.
  - by eapply inv_write.
Qed.


End umalloc.

(** A program that has two blocks, writes one and frees the other. *)
Definition ex_heap : ust := mkU ∅ 0 8192 [true; true].
Definition ex_ok {A} (d : A) (o : outcome ust A) : A * ust := match o with OK a s => (a, s) | _ => (d, ex_heap) end.
Definition ex_p : Z * ust := ex_ok 0 (malloc 4096 1000000 100 ex_heap).
Definition ex_q : Z * ust := ex_ok 0 (malloc 4096 1000000 50 ex_p.2).
Definition ex_w : ust := set_um (store8 (um ex_q.2) (ex_q.1 + 49) 7) ex_q.2.
Definition ex_f : unit * ust := ex_ok tt (free ex_p.1 ex_w).


(** [nu * sizeof(Header)] is an [int] when [sbrk] has it: of a request of almost
    2^32 bytes only 16 remain, and a block that is not there is handed out. *)
Example malloc_truncates :
  let r := ex_ok 0 (malloc 4096 1000000 4294967295 ex_heap) in r.1 = 8208 ∧ ubrk r.2 = 8208.
Proof. vm_compute. split; reflexivity. Qed.
