(* ===== verification/Pipe.v ===== *)
(** * Pipes: kernel/pipe.c

    The data of a pipe is a ring of PIPESIZE bytes indexed by two counters
    that only grow and wrap at 32 bits.  A system call that goes to sleep gives
    up the lock and continues its loop when it is woken up; [pipewrite] and
    [piperead] are given as what happens between two such points, so that
    the calls of several processes interleave as sequences of these pieces.
    The theorem shows that the ring implements a bounded queue. *)

From stdpp Require Import base gmap list strings numbers.
From S2P Require Import Prelude.

Definition PIPESIZE : Z := 512.

Record pipe := mkPipe {
  pi_locked : bool;    (* lock *)
  pi_data : list Z;    (* data[PIPESIZE] *)
  nread : Z;           (* number of bytes read *)
  nwrite : Z;          (* number of bytes written *)
  readopen : bool;     (* read fd is still open *)
  writeopen : bool;    (* write fd is still open *)
}.
Definition set_pi_locked (b : bool) (p : pipe) : pipe :=
  mkPipe b (pi_data p) (nread p) (nwrite p) (readopen p) (writeopen p).
Definition set_open (r w : bool) (p : pipe) : pipe :=
  mkPipe (pi_locked p) (pi_data p) (nread p) (nwrite p) r w.

(** [pi->data[pi->nwrite++ % PIPESIZE] = ch] *)
Definition put_byte (ch : Z) (p : pipe) : pipe :=
  mkPipe (pi_locked p) (<[Z.to_nat (nwrite p mod PIPESIZE) := ch]> (pi_data p))
    (nread p) (u32 (nwrite p + 1)) (readopen p) (writeopen p).
(** [ch = pi->data[pi->nread++ % PIPESIZE]] *)
Definition head_byte (p : pipe) : Z := default 0 (pi_data p !! Z.to_nat (nread p mod PIPESIZE)).
Definition drop_byte (p : pipe) : pipe :=
  mkPipe (pi_locked p) (pi_data p) (u32 (nread p + 1)) (nwrite p) (readopen p) (writeopen p).

Definition pacquire := acquire pi_locked set_pi_locked.
Definition prelease := release pi_locked set_pi_locked.
(** The channels [&pi->nread] and [&pi->nwrite]. *)
Definition NREAD : Z := 1.
Definition NWRITE : Z := 2.

(** The fields [pipealloc] fills in a page from [kalloc], whose bytes are [data]. *)
Definition pipeinit (data : list Z) : pipe := mkPipe false data 0 0 true true.

(** How a piece of a system call ends: it returns, or it sleeps and will go
    round its loop with [i] again. *)
Inductive piece := Done (r : Z) | Sleep (i : Z).

Section calls.
(** The calling process: whether it was killed, and its memory, one byte at a
    time ([copyin] and [copyout] of one byte can fail). *)
Context (killed : bool) (copyin1 : Z → option Z) (copyout1 : Z → Z → bool).

Definition pipewrite_turn (addr n i : Z) : M pipe (Z + piece) :=
  if i <? n then
    p <- get ;;
    if negb (readopen p) || killed then
      prelease ;; ret (inr (Done (-1)))
    else if nwrite p =? u32 (nread p + PIPESIZE) then
      wakes NREAD ;; prelease ;; ret (inr (Sleep i))
    else
      match copyin1 (addr + i) with
      | None => wakes NREAD ;; prelease ;; ret (inr (Done i))
      | Some ch => modify (put_byte ch) ;; ret (inl (i + 1))
      end
  else wakes NREAD ;; prelease ;; ret (inr (Done i)).

(** [pipewrite], from the turn [i] of its loop on; a call starts with [i = 0]. *)
Definition pipewrite (addr n i : Z) : M pipe piece :=
  pacquire ;;
  loop (S (Z.to_nat (n - i))) (pipewrite_turn addr n) i.

(** The copying loop of [piperead]; the bytes given to the process. *)
Definition piperead_turn (addr n : Z) (l : Z * list Z) : M pipe (Z * list Z + (Z * list Z)) :=
  let '(i, out) := l in
  if i <? n then
    p <- get ;;
    if nread p =? nwrite p then ret (inr (i, out))
    else
      let ch := head_byte p in
      modify drop_byte ;;
      if copyout1 (addr + i) ch then ret (inl (i + 1, out ++ [ch])) else ret (inr (i, out))
  else ret (inr (i, out)).

Definition piperead (addr n : Z) : M pipe (piece * list Z) :=
  pacquire ;;
  p <- get ;;
  if (nread p =? nwrite p) && writeopen p then
    if killed then prelease ;; ret (Done (-1), [])
    else prelease ;; ret (Sleep 0, [])
  else
    '(i, out) <- loop (S (Z.to_nat n)) (piperead_turn addr n) (0, []) ;;
    wakes NWRITE ;;
    prelease ;;
    ret (Done i, out).

End calls.

(** [pipeclose]; the result says that the page of the pipe is freed. *)
Definition pipeclose (writable : bool) : M pipe bool :=
  pacquire ;;
  p <- get ;;
  (if writable then modify (set_open (readopen p) false) ;; wakes NREAD
   else modify (set_open false (writeopen p)) ;; wakes NWRITE) ;;
  p <- get ;;
  prelease ;;
  ret (negb (readopen p) && negb (writeopen p)).

(** ** The queue a pipe promises *)

Record queue := mkQ { q_bytes : list Z; q_ro : bool; q_wo : bool }.

Fixpoint q_write (fuel : nat) (killed : bool) (src : Z → option Z) (addr n i : Z) (q : queue)
    : piece * queue :=
  match fuel with
  | O => (Done i, q)
  | S f =>
      if i <? n then
        if negb (q_ro q) || killed then (Done (-1), q)
        else if bool_decide (length (q_bytes q) = 512%nat) then (Sleep i, q)
        else
          match src (addr + i) with
          | None => (Done i, q)
          | Some ch => q_write f killed src addr n (i + 1) (mkQ (q_bytes q ++ [ch]) (q_ro q) (q_wo q))
          end
      else (Done i, q)
  end.

(** The oldest bytes, as many as are asked for and there are; a byte that
    cannot be delivered is lost. *)
Fixpoint q_take (fuel : nat) (dst : Z → Z → bool) (addr i : Z) (l : list Z) : Z * list Z * list Z :=
  match fuel, l with
  | S f, ch :: l' =>
      if dst (addr + i) ch then
        let '(r, out, rest) := q_take f dst addr (i + 1) l' in (r, ch :: out, rest)
      else (i, [], l')
  | _, _ => (i, [], l)
  end.
Definition q_read (killed : bool) (dst : Z → Z → bool) (addr n : Z) (q : queue)
    : piece * list Z * queue :=
  match q_bytes q with
  | [] => if q_wo q then ((if killed then Done (-1) else Sleep 0), [], q)
          else (Done 0, [], q)
  | l => let '(r, out, rest) := q_take (Z.to_nat n) dst addr 0 l in
         (Done r, out, mkQ rest (q_ro q) (q_wo q))
  end.

(** The pieces of system calls of any processes, in the order they happen. *)
Inductive pop :=
| PWrite (killed : bool) (src : Z → option Z) (addr n i : Z)
| PRead (killed : bool) (dst : Z → Z → bool) (addr n : Z)
| PClose (writable : bool).

Definition run_pop (o : pop) : M pipe (piece * list Z) :=
  match o with
  | PWrite k src addr n i => r <- pipewrite k src addr n i ;; ret (r, [])
  | PRead k dst addr n => piperead k dst addr n
  | PClose w => b <- pipeclose w ;; ret (Done (Z.b2z b), [])
  end.
Definition spec_pop (o : pop) (q : queue) : piece * list Z * queue :=
  match o with
  | PWrite k src addr n i => let '(r, q') := q_write (S (Z.to_nat (n - i))) k src addr n i q in (r, [], q')
  | PRead k dst addr n => q_read k dst addr n q
  | PClose w =>
      let q' := if w then mkQ (q_bytes q) (q_ro q) false else mkQ (q_bytes q) false (q_wo q) in
      (Done (Z.b2z (negb (q_ro q') && negb (q_wo q'))), [], q')
  end.
Fixpoint run_pops (ops : list pop) : M pipe (list (piece * list Z)) :=
  match ops with
  | [] => ret []
  | o :: ops' => r <- run_pop o ;; rs <- run_pops ops' ;; ret (r :: rs)
  end.
Fixpoint spec_pops (ops : list pop) (q : queue) : list (piece * list Z) * queue :=
  match ops with
  | [] => ([], q)
  | o :: ops' =>
      let '(r, out, q1) := spec_pop o q in
      let '(rs, q2) := spec_pops ops' q1 in ((r, out) :: rs, q2)
  end.

(** ** The ring represents the queue *)

Definition ring_byte (p : pipe) (k : nat) : Z :=
  default 0 (pi_data p !! Z.to_nat ((nread p + Z.of_nat k) mod PIPESIZE)).

Definition reps (p : pipe) (q : queue) : Prop :=
  length (pi_data p) = 512%nat ∧ 0 ≤ nread p < 4294967296 ∧
  nwrite p = u32 (nread p + Z.of_nat (length (q_bytes q))) ∧ (length (q_bytes q) ≤ 512)%nat ∧
  (∀ k c, q_bytes q !! k = Some c → ring_byte p k = c) ∧
  readopen p = q_ro q ∧ writeopen p = q_wo q.

Definition repsl (b : bool) (p : pipe) (q : queue) : Prop := pi_locked p = b ∧ reps p q.

Lemma u32_mod_PIPESIZE x : u32 x mod PIPESIZE = x mod PIPESIZE.
Proof. unfold PIPESIZE. zlia. Qed.

Lemma reps_full p q : reps p q →
  (nwrite p =? u32 (nread p + PIPESIZE)) = bool_decide (length (q_bytes q) = 512%nat).
Proof.
  intros (_ & Hr & -> & Hl & _). unfold PIPESIZE.
  case_bool_decide as E; [rewrite E; apply Z.eqb_refl|]. apply Z.eqb_neq. zlia.
Qed.

Lemma reps_empty p q : reps p q → (nread p =? nwrite p) = bool_decide (q_bytes q = []).
Proof.
  intros (_ & Hr & -> & Hl & _). destruct (q_bytes q) as [|c l]; cbn [length] in *.
  - rewrite bool_decide_true by done. apply Z.eqb_eq. zlia.
  - rewrite bool_decide_false by done. apply Z.eqb_neq. zlia.
Qed.

Lemma reps_put p q ch : reps p q → length (q_bytes q) ≠ 512%nat →
  reps (put_byte ch p) (mkQ (q_bytes q ++ [ch]) (q_ro q) (q_wo q)).
Proof.
  intros (Hd & Hr & Hw & Hl & Hb & Ho1 & Ho2) Hn. unfold reps. cbn.
  rewrite length_insert, length_app. cbn. split_and!; try done; [lia|lia| |lia|].
  - rewrite Hw. zlia.
  - intros k c Hk. unfold ring_byte. cbn. rewrite Hw, u32_mod_PIPESIZE. unfold PIPESIZE.
    apply lookup_app_Some in Hk as [Hk|[Hge Hk]].
    + assert (k < length (q_bytes q))%nat by by eapply lookup_lt_Some.
      rewrite list_lookup_insert_ne by zlia. by apply Hb.
    + assert (k = length (q_bytes q)) as ->.
      { apply lookup_lt_Some in Hk. cbn in Hk. lia. }
      rewrite Nat.sub_diag in Hk. injection Hk as ->.
      by rewrite list_lookup_insert_eq by zlia.
Qed.

Lemma reps_head p q ch l : reps p q → q_bytes q = ch :: l →
  head_byte p = ch ∧ reps (drop_byte p) (mkQ l (q_ro q) (q_wo q)).
Proof.
  intros (Hd & Hr & Hw & Hl & Hb & Ho1 & Ho2) E. rewrite E in *. split.
  - rewrite <-(Hb 0%nat ch eq_refl). unfold head_byte, ring_byte. do 3 f_equal. f_equal. lia.
  - unfold reps. cbn in *. split_and!; try done; [apply u32_range|apply u32_range| |lia|].
    + rewrite Hw. zlia.
    + intros k c Hk. rewrite <-(Hb (S k) c Hk). unfold ring_byte. cbn.
      rewrite <-Zplus_mod_idemp_l, u32_mod_PIPESIZE, Zplus_mod_idemp_l. do 4 f_equal. lia.
Qed.

Section refinement.
Context (killed : bool) (src : Z → option Z) (dst : Z → Z → bool).

Lemma set_pi_locked_id p : pi_locked p = true → set_pi_locked true (set_pi_locked false p) = p.
Proof. destruct p; cbn. by intros ->. Qed.

Lemma reps_lock b p q : reps p q → reps (set_pi_locked b p) q.
Proof. done. Qed.

Lemma wp_prelease Q p : pi_locked p = true → Q tt (set_pi_locked false p) → wp prelease Q p.
Proof. by apply wp_release. Qed.

Lemma pipewrite_run addr n i p q :
  repsl false p q →
  wp (pipewrite killed src addr n i)
     (λ r p', ∃ q', q_write (S (Z.to_nat (n - i))) killed src addr n i q = (r, q') ∧ repsl false p' q') p.
Proof.
  intros [Hl Hr]. unfold pipewrite. wp_run. apply wp_acquire; [done|].
  assert (repsl true (set_pi_locked true p) q) as H by done. revert H.
  generalize (set_pi_locked true p) as p1. clear p Hl Hr. intros p1. wp_run.
  assert (Z.to_nat (n - i) < S (Z.to_nat (n - i)))%nat as Hf by lia. revert Hf.
  generalize (S (Z.to_nat (n - i))) as f. intros f. revert i q p1.
  induction f as [|f IH]; intros i q p1 Hf [Hl Hr]; [lia|]. cbn [loop q_write]. unfold pipewrite_turn at 1.
  destruct (Z.ltb_spec i n).
  - wp_run. pose proof Hr as (_ & _ & _ & _ & _ & Ho & _). rewrite Ho, (reps_full p1 q Hr).
    destruct (negb (q_ro q) || killed); [wp_run; apply wp_prelease; [done|]; wp_run; eexists; split; [done|by split]|].
    case_bool_decide as Efull; [wp_run; apply wp_prelease; [done|]; wp_run; eexists; split; [done|by split]|].
    destruct (src (addr + i)) as [ch|]; [|wp_run; apply wp_prelease; [done|]; wp_run; eexists; split; [done|by split]].
    wp_run. apply IH; [lia|]. split; [done|by apply reps_put].
  - wp_run. apply wp_prelease; [done|]. wp_run. eexists. split; [done|]. by split; [|apply reps_lock].
Qed.

Lemma piperead_loop_run addr n i out0 k f p q :
  repsl true p q → Z.of_nat k = Z.max 0 (n - i) → f = S k →
  wp (loop f (piperead_turn dst addr n) (i, out0))
     (λ '(r, o) p', let '(r', out, rest) := q_take k dst addr i (q_bytes q) in
        r = r' ∧ o = out0 ++ out ∧ repsl true p' (mkQ rest (q_ro q) (q_wo q))) p.
Proof.
  revert i out0 f p q. induction k as [|k IH]; intros i out0 f p q [Hl Hr] Hk Hf;
    (destruct f as [|f]; [done|]); injection Hf as Hf; cbn [loop q_take]; unfold piperead_turn at 1.
  { ztest. wp_run. rewrite app_nil_r. destruct q; cbn in *. by split_and!. }
  ztest. wp_run. rewrite (reps_empty p q Hr). destruct (q_bytes q) as [|ch l] eqn:Eq.
  - rewrite bool_decide_true by done. wp_run. rewrite app_nil_r. split_and!; try done.
    destruct q; cbn in *; by subst.
  - rewrite bool_decide_false by done. wp_run.
    destruct (reps_head p q ch l Hr Eq) as [-> Hr']. destruct (dst (addr + i) ch); wp_run.
    + eapply wp_mono; [apply (IH (i + 1) (out0 ++ [ch]) f _ (mkQ l (q_ro q) (q_wo q))); [|lia|done]|].
      * by split.
      * intros [r o] p'. cbn [q_bytes q_ro q_wo]. destruct (q_take k dst addr (i + 1) l) as [[r' out] rest].
        intros (-> & -> & Hp). by rewrite <-app_assoc.
    + rewrite app_nil_r. done.
Qed.

Lemma piperead_run addr n p q :
  repsl false p q →
  wp (piperead killed dst addr n)
     (λ '(r, out) p', ∃ q', q_read killed dst addr n q = (r, out, q') ∧ repsl false p' q') p.
Proof.
  intros [Hl Hr]. unfold piperead, q_read. wp_run. apply wp_acquire; [done|]. wp_run.
  cbn [nread nwrite writeopen set_pi_locked]. rewrite (reps_empty p q Hr).
  pose proof Hr as (_ & _ & _ & _ & _ & _ & Ho). rewrite Ho.
  destruct (bool_decide (q_bytes q = []) && q_wo q) eqn:E.
  - apply andb_true_iff in E as [E1%bool_decide_eq_true E2]. rewrite E1, E2.
    destruct killed; wp_run; apply wp_prelease; try done; wp_run; eexists; (split; [done|by split]).
  - wp_run. eapply wp_mono; [apply (piperead_loop_run addr n 0 [] (Z.to_nat n) _ _ q); [by split|lia|done]|].
    intros [r o] p'. destruct (q_take _ _ _ _ _) as [[r' out] rest] eqn:Et. intros (-> & -> & [Hl' Hr']).
    wp_run. apply wp_prelease; [done|]. wp_run. destruct (q_bytes q) as [|c l] eqn:Eq.
    + rewrite bool_decide_true in E by done. cbn in E. rewrite E.
      assert (r' = 0 ∧ out = [] ∧ rest = []) as (-> & -> & ->) by (destruct (Z.to_nat n); cbn in Et; by simplify_eq).
      eexists. split; [done|]. split; [done|]. destruct q; cbn in *. by subst.
    + rewrite Et. eexists. split; [done|]. by split.
Qed.

End refinement.

Lemma run_pop_run o p q :
  repsl false p q →
  wp (run_pop o) (λ '(r, out) p', ∃ q', spec_pop o q = (r, out, q') ∧ repsl false p' q') p.
Proof.
  intros H. destruct o as [k src addr n i|k dst addr n|w]; cbn [run_pop spec_pop].
  - wp_run. eapply wp_mono; [by apply (pipewrite_run k src addr n i p q)|].
    intros r p' (q' & E & H'). wp_run. rewrite E. by exists q'.
  - by apply piperead_run.
  - destruct H as [Hl Hr]. pose proof Hr as (R1 & R2 & R3 & R4 & R5 & R6 & R7). unfold pipeclose. wp_run.
    apply wp_acquire; [done|]. destruct w; wp_run; (apply wp_prelease; [done|]); wp_run; cbn -[negb];
      rewrite ?R6, ?R7; eexists; (split; [done|]); (split; [done|]); split_and!; try done; apply R2.
Qed.

Lemma run_pops_run ops p q :
  repsl false p q →
  wp (run_pops ops) (λ rs p', ∃ q', spec_pops ops q = (rs, q') ∧ repsl false p' q') p.
Proof.
  revert p q. induction ops as [|o ops IH]; intros p q H; cbn [run_pops spec_pops]; [wp_run; by exists q|].
  wp_run. eapply wp_mono; [by apply run_pop_run|]. intros [r out] p1 (q1 & E1 & H1). rewrite E1.
  wp_run. eapply wp_mono; [by apply IH|]. intros rs p2 (q2 & E2 & H2). wp_run. rewrite E2. by exists q2.
Qed.

(** C31. A pipe is a first-in first-out queue of at most PIPESIZE bytes: for
    every sequence of pieces of write, read and close calls of any processes on a
    fresh pipe, with whatever bytes their memories hold, the ring buffer with
    its wrapping counters gives the results of the queue, and no call panics. *)
Theorem pipe_refines_queue data ops :
  length data = 512%nat →
  ∃ p', run_pops ops (pipeinit data) = OK (spec_pops ops (mkQ [] true true)).1 p' ∧
    reps p' (spec_pops ops (mkQ [] true true)).2.
Proof.
  intros Hd. assert (repsl false (pipeinit data) (mkQ [] true true)) as H.
  { split; [done|]. split_and!; cbn; try done; lia. }
  destruct (wp_run_OK _ _ _ (run_pops_run ops _ _ H)) as (rs & p' & E & q' & Eq & _ & Hr).
  exists p'. rewrite Eq. split; [exact E|exact Hr].
Qed.

Lemma pipe_refines_queue_witness :
  let src a := if a <? 1003 then Some (a - 900) else None in
  ∃ p', run_pops [PWrite false src 1000 5 0; PRead false (λ _ _, true) 0 2; PRead true (λ _ _, true) 0 9;
                  PRead false (λ _ _, true) 0 1; PClose true; PRead false (λ _ _, true) 0 1]
          (pipeinit (replicate 512 7)) =
    OK [(Done 3, []); (Done 2, [100; 101]); (Done 1, [102]); (Sleep 0, []); (Done 0, []); (Done 0, [])] p'.
Proof.
  intros src.
  destruct (pipe_refines_queue (replicate 512 7)
    [PWrite false src 1000 5 0; PRead false (λ _ _, true) 0 2; PRead true (λ _ _, true) 0 9;
     PRead false (λ _ _, true) 0 1; PClose true; PRead false (λ _ _, true) 0 1] eq_refl) as (p' & E & _).
  exists p'. exact E.
Defined.
