(* ===== verification/Spinlock.v ===== *)
(** * Spin locks: kernel/spinlock.c

    Several CPUs run [acquire] and [release] of one lock.  A step of a CPU is
    the part of the code up to its next access of the shared lock words, so that
    every interleaving of those accesses is a sequence of steps; the atomic
    swaps are single accesses.  Interrupts are part of the state of a CPU: a
    handler that uses the lock can start only while they are on.

    Other components use [acquire] and [release] of [Prelude], which is what
    a single CPU sees of a lock that nobody else holds. *)

From stdpp Require Import base gmap list strings numbers.
From S2P Require Import Prelude.

Record cpu := mkCpu {
  c_intr : bool;     (* sstatus.SIE: are interrupts on? *)
  c_noff : Z;        (* depth of push_off() nesting *)
  c_intena : bool;   (* were interrupts enabled before push_off()? *)
}.

Record spinlock := mkLk {
  lk_locked : bool;       (* is the lock held? *)
  lk_cpu : option nat;    (* the cpu holding the lock *)
}.

Definition initlock : spinlock := mkLk false None.

Definition holding (lk : spinlock) (me : nat) : bool :=
  lk_locked lk && bool_decide (lk_cpu lk = Some me).

Definition push_off (c : cpu) : cpu :=
  let old := c_intr c in
  mkCpu false (c_noff c + 1) (if c_noff c =? 0 then old else c_intena c).

Definition pop_off (c : cpu) : cpu + string :=
  if c_intr c then inr "pop_off - interruptible"
  else if c_noff c <? 1 then inr "pop_off"
  else
    let n := c_noff c - 1 in
    inl (mkCpu (if (n =? 0) && c_intena c then true else c_intr c) n (c_intena c)).

(** Where a CPU is in the code. *)
Inductive pc :=
| Out              (* does not use the lock *)
| AcqHold          (* acquire: after push_off *)
| AcqSpin          (* acquire: about to swap 1 into locked *)
| AcqOwner         (* acquire: got 0 from the swap, about to set lk->cpu *)
| Crit             (* returned from acquire *)
| RelHold          (* release: about to check holding *)
| RelOwner         (* release: about to clear lk->cpu *)
| RelUnlock        (* release: about to swap 0 into locked *)
| RelPop           (* release: about to pop_off *)
| Panicked (msg : string).

#[global] Instance pc_eq_dec : EqDecision pc.
Proof. solve_decision. Defined.

(** [acquire], one step of CPU [me]. *)
Definition acquire_step (me : nat) (p : pc) (c : cpu) (lk : spinlock) : pc * cpu * spinlock :=
  match p with
  | Out => (AcqHold, push_off c, lk)  (* disable interrupts to avoid deadlock. *)
  | AcqHold => if holding lk me then (Panicked "acquire", c, lk) else (AcqSpin, c, lk)
  | AcqSpin =>
      let old := lk_locked lk in
      let lk' := mkLk true (lk_cpu lk) in
      if old then (AcqSpin, c, lk') else (AcqOwner, c, lk')
  | AcqOwner => (Crit, c, mkLk (lk_locked lk) (Some me))
  | _ => (p, c, lk)
  end.

(** [release], one step of CPU [me]. *)
Definition release_step (me : nat) (p : pc) (c : cpu) (lk : spinlock) : pc * cpu * spinlock :=
  match p with
  | Crit => (RelHold, c, lk)
  | RelHold => if holding lk me then (RelOwner, c, lk) else (Panicked "release", c, lk)
  | RelOwner => (RelUnlock, c, mkLk (lk_locked lk) None)
  | RelUnlock => (RelPop, c, mkLk false (lk_cpu lk))
  | RelPop =>
      match pop_off c with
      | inl c' => (Out, c', lk)
      | inr msg => (Panicked msg, c, lk)
      end
  | _ => (p, c, lk)
  end.

Record sys := mkSys { s_lk : spinlock; s_cpus : list (pc * cpu) }.

(** The next step of CPU [me]: it takes the lock, or gives it back. *)
Definition cpu_step (me : nat) (s : sys) : sys :=
  match s_cpus s !! me with
  | None => s
  | Some (p, c) =>
      let '(p', c', lk') :=
        match p with
        | Out | AcqHold | AcqSpin | AcqOwner => acquire_step me p c (s_lk s)
        | _ => release_step me p c (s_lk s)
        end in
      mkSys lk' (<[me := (p', c')]> (s_cpus s))
  end.

(** Any schedule. *)
Definition run_sched (sched : list nat) (s : sys) : sys := foldl (λ s me, cpu_step me s) s sched.

(** CPUs may hold other locks: [noff] counts them, with interrupts off. *)
Definition cpu_ok (c : cpu) : Prop := 0 ≤ c_noff c ∧ (0 < c_noff c → c_intr c = false).

(** The lock is held: from the successful swap to the swap that frees it. *)
Definition owns (p : pc) : bool :=
  match p with AcqOwner | Crit | RelHold | RelOwner | RelUnlock => true | _ => false end.

(** [lk->cpu] names the CPU. *)
Definition named (p : pc) : bool :=
  match p with Crit | RelHold | RelOwner => true | _ => false end.

Definition inside (p : pc) : bool := match p with Out => false | _ => true end.

Definition inv (s : sys) : Prop :=
  (∀ i p c, s_cpus s !! i = Some (p, c) →
     (∀ msg, p ≠ Panicked msg) ∧ cpu_ok c ∧ (inside p = true → 0 < c_noff c) ∧
     (owns p = true → lk_locked (s_lk s) = true) ∧
     (named p = true ↔ lk_cpu (s_lk s) = Some i)) ∧
  (∀ i j p q c d, s_cpus s !! i = Some (p, c) → s_cpus s !! j = Some (q, d) →
     owns p = true → owns q = true → i = j) ∧
  (lk_locked (s_lk s) = true → ∃ i p c, s_cpus s !! i = Some (p, c) ∧ owns p = true).

Lemma push_off_ok c : cpu_ok c → cpu_ok (push_off c) ∧ 0 < c_noff (push_off c).
Proof. intros [H1 H2]. unfold cpu_ok, push_off. cbn. split_and!; [lia|done|lia]. Qed.

Lemma pop_off_ok c : cpu_ok c → 0 < c_noff c → ∃ c', pop_off c = inl c' ∧ cpu_ok c'.
Proof.
  intros [H1 H2] H3. unfold pop_off. rewrite (H2 H3). ztest. eexists. split; [done|].
  unfold cpu_ok. cbn. split; [lia|]. intros Hn. ztest. done.
Qed.

(** A CPU that owns the lock or not, and its new place. *)
Lemma step_cases s me p c :
  inv s → s_cpus s !! me = Some (p, c) →
  ∃ p' c' lk', cpu_step me s = mkSys lk' (<[me := (p', c')]> (s_cpus s)) ∧
    (∀ msg, p' ≠ Panicked msg) ∧ cpu_ok c' ∧ (inside p' = true → 0 < c_noff c') ∧
    (owns p' = true → lk_locked lk' = true) ∧
    (named p' = true ↔ lk_cpu lk' = Some me) ∧
    (∀ j q d, s_cpus s !! j = Some (q, d) → j ≠ me → lk_cpu lk' = Some j ↔ lk_cpu (s_lk s) = Some j) ∧
    ((owns p' = owns p ∧ lk_locked lk' = lk_locked (s_lk s)) ∨
     (owns p = false ∧ owns p' = true ∧ lk_locked (s_lk s) = false) ∨
     (owns p = true ∧ owns p' = false ∧ lk_locked lk' = false)).
Proof.
  intros (Hall & Hone & Hlk) E. destruct (Hall me p c E) as (Hp & Hc & Hin & Hown & Hnam).
  unfold cpu_step. rewrite E. destruct (push_off_ok c Hc) as [Hpo1 Hpo2].
  assert (named p = true → holding (s_lk s) me = true ∧ owns p = true) as Hhold.
  { intros Hn. assert (owns p = true) as Ho by (by destruct p). unfold holding.
    rewrite (Hown Ho), bool_decide_true by by apply Hnam. done. }
  destruct p as [| | | | | | | | |msg]; cbn [acquire_step release_step owns named inside] in *.
  - eexists AcqHold, _, _. split; [done|]. cbn. split_and!; (done || naive_solver).
  - assert (holding (s_lk s) me = false) as ->.
    { unfold holding. apply andb_false_iff. right. apply bool_decide_eq_false. naive_solver. }
    eexists AcqSpin, _, _. split; [done|]. cbn. split_and!; (done || naive_solver).
  - destruct (lk_locked (s_lk s)) eqn:El; [eexists AcqSpin, _, _|eexists AcqOwner, _, _];
      (split; [done|]); cbn; split_and!; (done || naive_solver).
  - eexists Crit, _, _. split; [done|]. cbn. split_and!; [done..| |by left].
    intros j q d Ej Hj. split; [intros [= ->]; done|]. intros Hc'. exfalso. apply Hj.
    destruct (Hall j q d Ej) as (_ & _ & _ & _ & Hn'). apply Hn' in Hc'.
    eapply Hone; [exact Ej|exact E|by destruct q|done].
  - eexists RelHold, _, _. split; [done|]. cbn. split_and!; (done || naive_solver).
  - destruct (Hhold eq_refl) as [-> _]. eexists RelOwner, _, _. split; [done|]. cbn.
    split_and!; (done || naive_solver).
  - eexists RelUnlock, _, _. split; [done|]. cbn. split_and!; [done..| |by left].
    intros j q d Ej Hj. split; [done|]. destruct Hnam as [Hnam _]. rewrite Hnam by done. intros [= ->]. done.
  - eexists RelPop, _, _. split; [done|]. cbn. split_and!; (done || naive_solver).
  - destruct (pop_off_ok c Hc (Hin eq_refl)) as (c' & -> & Hc'). eexists Out, _, _. split; [done|].
    cbn. split_and!; (done || naive_solver).
  - by destruct (Hp msg).
Qed.

Lemma step_inv s me : inv s → inv (cpu_step me s).
Proof.
  intros Hinv. destruct (s_cpus s !! me) as [[p c]|] eqn:E; [|unfold cpu_step; by rewrite E].
  destruct (step_cases s me p c Hinv E) as (p' & c' & lk' & -> & H1 & H2 & H3 & H4 & H5 & H6 & H7).
  destruct Hinv as (Hall & Hone & Hlk). pose proof (lookup_lt_Some _ _ _ E) as Hlt.
  assert (∀ j q d, <[me:=(p', c')]> (s_cpus s) !! j = Some (q, d) →
    j = me ∧ q = p' ∧ d = c' ∨ j ≠ me ∧ s_cpus s !! j = Some (q, d)) as Hlook.
  { intros j q d Hj. destruct (decide (j = me)) as [->|Hne].
    - rewrite list_lookup_insert_eq in Hj by done. injection Hj as <- <-. by left.
    - rewrite list_lookup_insert_ne in Hj by done. by right. }
  (* a CPU other than [me] cannot own the lock when [me] does *)
  assert (∀ j q d, j ≠ me → s_cpus s !! j = Some (q, d) → owns q = true →
    owns p' = false ∧ lk_locked lk' = true) as Hother.
  { intros j q d Hj Ej Hq. destruct (Hall j q d Ej) as (_ & _ & _ & Hqo & _).
    destruct H7 as [[-> ->]|[(_ & _ & Hl)|(Hp & Hp' & Hl)]].
    - split; [|by apply Hqo]. apply not_true_iff_false. intros Hp. apply Hj. by eapply Hone.
    - rewrite (Hqo Hq) in Hl. done.
    - exfalso. apply Hj. by eapply Hone. }
  split_and!; cbn [s_cpus s_lk].
  - intros i q d Hi. destruct (Hlook i q d Hi) as [(-> & -> & ->)|[Hne Hi']]; [by split_and!|].
    destruct (Hall i q d Hi') as (A1 & A2 & A3 & A4 & A5). split_and!; try done.
    + intros Hq. by destruct (Hother i q d Hne Hi' Hq).
    + rewrite (H6 i q d Hi' Hne). apply A5.
  - intros i j q1 q2 d1 d2 Hi Hj Ho1 Ho2.
    destruct (Hlook i q1 d1 Hi) as [(-> & -> & ->)|[Hne1 Hi']], (Hlook j q2 d2 Hj) as [(-> & -> & ->)|[Hne2 Hj']];
      [done| | |by eapply Hone].
    + destruct (Hother j q2 d2 Hne2 Hj' Ho2). congruence.
    + destruct (Hother i q1 d1 Hne1 Hi' Ho1). congruence.
  - intros Hl. destruct (owns p') eqn:Ep'.
    { exists me, p', c'. split; [by rewrite list_lookup_insert_eq|done]. }
    destruct H7 as [[Ep El]|[(_ & ? & _)|(_ & _ & ?)]]; [|done|congruence].
    rewrite El in Hl. destruct (Hlk Hl) as (i & q & d & Hi & Hq). exists i, q, d. split; [|done].
    rewrite list_lookup_insert_ne; [done|]. intros ->. congruence.
Qed.

Lemma run_inv sched s : inv s → inv (run_sched sched s).
Proof.
  revert s. induction sched as [|me sched IH]; intros s H; [done|]. cbn. by apply IH, step_inv.
Qed.

(** [n] CPUs that do not use the lock; they may hold others. *)
Definition start_sys (cpus : list cpu) : sys := mkSys initlock ((λ c, (Out, c)) <$> cpus).

Lemma start_inv cpus : Forall cpu_ok cpus → inv (start_sys cpus).
Proof.
  intros Hc. assert (∀ i p c, s_cpus (start_sys cpus) !! i = Some (p, c) → p = Out ∧ cpu_ok c) as H.
  { intros i p c Hi. apply list_lookup_fmap_Some in Hi as (x & [= -> ->] & Hx).
    rewrite Forall_lookup in Hc. split; [done|]. by eapply Hc. }
  split_and!.
  - intros i p c Hi. destruct (H i p c Hi) as [-> Hok]. by split_and!.
  - intros i j p q c d Hi _ Ho. by destruct (H i p c Hi) as [-> _].
  - done.
Qed.

(** C32. Spin locks exclude: for any number of CPUs, any nesting of other
    locks and any interleaving of the steps of [acquire] and [release] down to
    single accesses of the lock words, at most one CPU is between acquiring and
    releasing the lock, its interrupts are off, and neither function panics. *)
Theorem spinlock_mutual_exclusion cpus sched :
  Forall cpu_ok cpus →
  let s := run_sched sched (start_sys cpus) in
  (∀ i j c d, s_cpus s !! i = Some (Crit, c) → s_cpus s !! j = Some (Crit, d) → i = j) ∧
  (∀ i c, s_cpus s !! i = Some (Crit, c) → c_intr c = false ∧ holding (s_lk s) i = true) ∧
  (∀ i msg c, s_cpus s !! i ≠ Some (Panicked msg, c)).
Proof.
  intros Hc s. assert (inv s) as (Hall & Hone & _) by by apply run_inv, start_inv. split_and!.
  - intros i j c d Hi Hj. by eapply Hone.
  - intros i c Hi. destruct (Hall i Crit c Hi) as (_ & [_ Hoff] & Hin & Hown & Hnam). split.
    + apply Hoff, Hin. done.
    + unfold holding. rewrite (Hown eq_refl). by apply bool_decide_true, Hnam.
  - intros i msg c Hi. destruct (Hall i _ c Hi) as (Hp & _). by apply (Hp msg).
Qed.

Lemma spinlock_mutual_exclusion_witness :
  let s := run_sched [0; 1; 0; 1; 0; 1; 0; 1; 1]%nat (start_sys [mkCpu true 0 false; mkCpu false 2 true]) in
  (s_cpus s !! 0%nat = Some (Crit, mkCpu false 1 true) ∧ s_cpus s !! 1%nat = Some (AcqSpin, mkCpu false 3 true)) ∧
  (∀ i c, s_cpus s !! i = Some (Crit, c) → c_intr c = false ∧ holding (s_lk s) i = true).
Proof.
  intros s. split; [split; reflexivity|].
  apply (spinlock_mutual_exclusion [mkCpu true 0 false; mkCpu false 2 true] [0; 1; 0; 1; 0; 1; 0; 1; 1]%nat).
  repeat constructor; cbn; lia || done.
Defined.

(** Matched [push_off] and [pop_off] leave interrupts as they were. *)
Fixpoint nest (n : nat) (c : cpu) : cpu + string :=
  match n with
  | O => inl c
  | S n' => match nest n' (push_off c) with inl c' => pop_off c' | inr m => inr m end
  end.

Lemma nest_noff n c : cpu_ok c → ∃ c', nest n c = inl c' ∧ c_noff c' = c_noff c ∧ c_intr c' = c_intr c ∧
  (0 < c_noff c → c_intena c' = c_intena c).
Proof.
  revert c. induction n as [|n IH]; intros c Hc; [by exists c|]. cbn [nest].
  destruct (push_off_ok c Hc) as [Hok Hpos]. destruct (IH _ Hok) as (c' & -> & Hn & Hi & He).
  specialize (He Hpos). unfold pop_off. rewrite Hi. cbn [push_off c_intr c_noff c_intena] in *.
  destruct Hc as [Hc1 Hc2]. rewrite Hn. ztest. eexists. split; [done|]. cbn [c_intr c_noff c_intena].
  replace (c_noff c + 1 - 1) with (c_noff c) by lia. rewrite He.
  destruct (Z.eqb_spec (c_noff c) 0) as [E|E]; cbn [andb].
  - split_and!; [done|by destruct (c_intr c)|lia].
  - split_and!; [done|by rewrite Hc2 by lia|done].
Qed.

(** [push_off] and [pop_off] nest: after any number of matched pairs
    the interrupt state of the CPU is what it was before the first. *)
Theorem push_pop_off_nest n c :
  cpu_ok c → ∃ c', nest n c = inl c' ∧ c_noff c' = c_noff c ∧ c_intr c' = c_intr c.
Proof. intros Hc. destruct (nest_noff n c Hc) as (c' & E & H1 & H2 & _). eauto. Qed.

Lemma push_pop_off_nest_witness :
  ∃ c', nest 3 (mkCpu true 0 false) = inl c' ∧ c_noff c' = 0 ∧ c_intr c' = true.
Proof. apply (push_pop_off_nest 3 (mkCpu true 0 false)). split; cbn; lia. Defined.
