(* ===== verification/Uart.v ===== *)
(** * The UART driver: kernel/uart.c

    The device is given by what it does to the driver: the values that
    successive reads of the line status register return, the bytes it received,
    and the registers written to it.  The transmit buffer is a ring with 64-bit
    counters; the theorem shows that the bytes accepted by [uartputc] reach the
    transmit register once each and in order. *)

From stdpp Require Import base gmap list strings numbers.
From S2P Require Import Prelude.

Definition RHR : Z := 0.
Definition THR : Z := 0.
Definition IER : Z := 1.
Definition IER_RX_ENABLE : Z := 1.
Definition IER_TX_ENABLE : Z := 2.
Definition FCR : Z := 2.
Definition FCR_FIFO_ENABLE : Z := 1.
Definition FCR_FIFO_CLEAR : Z := 6.
Definition LCR : Z := 3.
Definition LCR_EIGHT_BITS : Z := 3.
Definition LCR_BAUD_LATCH : Z := 128.
Definition LSR_RX_READY : Z := 1.
Definition LSR_TX_IDLE : Z := 32.
Definition UART_TX_BUF_SIZE : Z := 32.

Record uartst := mkUart {
  ut_locked : bool;          (* uart_tx_lock *)
  ut_buf : list Z;           (* uart_tx_buf *)
  ut_w : Z;                  (* uart_tx_w *)
  ut_r : Z;                  (* uart_tx_r *)
  ut_panicked : bool;        (* panicked, from printf.c *)
  ut_lsr : list Z;           (* what the next reads of LSR will return *)
  ut_rhr : list Z;           (* what reads of RHR will return *)
  ut_regs : list (Z * Z);    (* the writes of registers, oldest first *)
}.
Definition set_ut_locked (b : bool) (s : uartst) : uartst :=
  mkUart b (ut_buf s) (ut_w s) (ut_r s) (ut_panicked s) (ut_lsr s) (ut_rhr s) (ut_regs s).

(** [ReadReg] and [WriteReg].  The device is not busy for ever: after the given
    reads of LSR it is idle and has no input. *)
Definition ReadLSR : M uartst Z :=
  λ s, OK (default LSR_TX_IDLE (head (ut_lsr s)))
          (mkUart (ut_locked s) (ut_buf s) (ut_w s) (ut_r s) (ut_panicked s) (tail (ut_lsr s)) (ut_rhr s) (ut_regs s)).
Definition ReadRHR : M uartst Z :=
  λ s, OK (default 0 (head (ut_rhr s)))
          (mkUart (ut_locked s) (ut_buf s) (ut_w s) (ut_r s) (ut_panicked s) (ut_lsr s) (tail (ut_rhr s)) (ut_regs s)).
Definition WriteReg (reg v : Z) : M uartst unit :=
  modify (λ s, mkUart (ut_locked s) (ut_buf s) (ut_w s) (ut_r s) (ut_panicked s) (ut_lsr s) (ut_rhr s)
                 (ut_regs s ++ [(reg, u8 v)])).

Definition uacquire := acquire ut_locked set_ut_locked.
Definition urelease := release ut_locked set_ut_locked.
(** The channel [&uart_tx_r]. *)
Definition TXCHAN : Z := 3.

(** [for(;;) ;] *)
Definition spin_forever {S A} : M S A := out_of_fuel.

Definition uartinit : M uartst unit :=
  WriteReg IER 0 ;;
  WriteReg LCR LCR_BAUD_LATCH ;;
  WriteReg 0 3 ;;
  WriteReg 1 0 ;;
  WriteReg LCR LCR_EIGHT_BITS ;;
  WriteReg FCR (Z.lor FCR_FIFO_ENABLE FCR_FIFO_CLEAR) ;;
  WriteReg IER (Z.lor IER_TX_ENABLE IER_RX_ENABLE) ;;
  modify (set_ut_locked false).

(** One turn of [uartstart]: [true] when it goes round again. *)
Definition uartstart_turn : M uartst bool :=
  s <- get ;;
  if ut_w s =? ut_r s then ret false  (* transmit buffer is empty. *)
  else
    lsr <- ReadLSR ;;
    if Z.land lsr LSR_TX_IDLE =? 0 then ret false
      (* the transmit holding register is full, so we cannot give it another byte. *)
    else
      let c := default 0 (ut_buf s !! Z.to_nat (ut_r s mod UART_TX_BUF_SIZE)) in
      modify (λ s, mkUart (ut_locked s) (ut_buf s) (ut_w s) (u64 (ut_r s + 1)) (ut_panicked s)
                     (ut_lsr s) (ut_rhr s) (ut_regs s)) ;;
      wakes TXCHAN ;;
      WriteReg THR c ;;
      ret true.
(** The buffer holds at most UART_TX_BUF_SIZE bytes. *)
Definition uartstart : M uartst unit :=
  loop (S (Z.to_nat UART_TX_BUF_SIZE))
    (λ _, again <- uartstart_turn ;; ret (if again then inl tt else inr tt)) tt.

(** [uartputc]: [false] when it found the buffer full and went to sleep; it
    starts over when it is woken up. *)
Definition uartputc (c : Z) : M uartst bool :=
  uacquire ;;
  s <- get ;;
  if ut_panicked s then spin_forever
  else if ut_w s =? u64 (ut_r s + UART_TX_BUF_SIZE) then
    (* buffer is full: wait for uartstart() to open up space in the buffer. *)
    urelease ;; ret false
  else
    modify (λ s, mkUart (ut_locked s)
                   (<[Z.to_nat (ut_w s mod UART_TX_BUF_SIZE) := u8 c]> (ut_buf s))
                   (u64 (ut_w s + 1)) (ut_r s) (ut_panicked s) (ut_lsr s) (ut_rhr s) (ut_regs s)) ;;
    uartstart ;;
    urelease ;;
    ret true.

(** Interrupts are off while it waits for the register to be empty. *)
Definition uartputc_sync (c : Z) : M uartst unit :=
  s <- get ;;
  if ut_panicked s then spin_forever
  else
    loop (S (length (ut_lsr s)))
      (λ _, lsr <- ReadLSR ;;
            ret (if Z.land lsr LSR_TX_IDLE =? 0 then inl tt else inr tt)) tt ;;
    WriteReg THR c.

(** Read one input character; -1 if none is waiting. *)
Definition uartgetc : M uartst Z :=
  lsr <- ReadLSR ;;
  if truthy (Z.land lsr LSR_RX_READY) then ReadRHR else ret (-1).

(** The second half of [uartintr]: send buffered characters. *)
Definition uartintr_tx : M uartst unit :=
  uacquire ;; uartstart ;; urelease.

(** The synchronous version always returns, and the queue does not notice. *)
Lemma uartputc_sync_run c s :
  ut_panicked s = false →
  wp (uartputc_sync c)
     (λ _ s', ∃ lsr, s' = mkUart (ut_locked s) (ut_buf s) (ut_w s) (ut_r s) false lsr (ut_rhr s)
                            (ut_regs s ++ [(THR, u8 c)])) s.
Proof.
  intros Hp. unfold uartputc_sync. wp_run. rewrite Hp. wp_run.
  assert (∀ k s, (length (ut_lsr s) < k)%nat →
    wp (loop k (λ _ : unit, lsr <- ReadLSR ;;
          ret (if Z.land lsr LSR_TX_IDLE =? 0 then inl tt else inr tt)) tt)
       (λ _ s', ∃ lsr, s' = mkUart (ut_locked s) (ut_buf s) (ut_w s) (ut_r s) (ut_panicked s) lsr
                              (ut_rhr s) (ut_regs s)) s) as H.
  { clear. induction k as [|k IH]; intros s Hk; [lia|]. cbn [loop]. unfold wp, bind, ReadLSR, ret.
    destruct s as [lo bu w r pa lsr rh re]; cbn in *. destruct lsr as [|x lsr]; cbn; [by eexists|].
    destruct (Z.land x LSR_TX_IDLE =? 0); [|by eexists].
    specialize (IH (mkUart lo bu w r pa lsr rh re) ltac:(cbn in *; lia)). exact IH. }
  eapply wp_mono; [apply H; lia|]. intros _ s' (lsr & ->). unfold WriteReg. wp_run. exists lsr. by rewrite Hp.
Qed.

(** ** The transmit queue *)

(** The bytes sent to the transmit register. *)
Definition sent (s : uartst) : list Z :=
  (λ rv, rv.2) <$> filter (λ rv, rv.1 = THR) (ut_regs s).

(** The bytes waiting in the ring are [q]. *)
Definition txq (s : uartst) (q : list Z) : Prop :=
  length (ut_buf s) = 32%nat ∧ 0 ≤ ut_r s < 18446744073709551616 ∧
  ut_w s = u64 (ut_r s + Z.of_nat (length q)) ∧ (length q ≤ 32)%nat ∧
  (∀ k c, q !! k = Some c → 0 ≤ c < 256 ∧ ut_buf s !! Z.to_nat ((ut_r s + Z.of_nat k) mod 32) = Some c).

(** What an operation of the driver does: it may take [add] into the queue,
    sends bytes from its front, and keeps the rest. *)
Definition txstep (s s' : uartst) (q add : list Z) : Prop :=
  ∃ out q', q ++ add = out ++ q' ∧ txq s' q' ∧ sent s' = sent s ++ out ∧
    ut_locked s' = ut_locked s ∧ ut_panicked s' = ut_panicked s ∧ ut_rhr s' = ut_rhr s.

Lemma u64_mod_32 x : u64 x mod 32 = x mod 32.
Proof. zlia. Qed.

Lemma sent_write s v : sent (mkUart (ut_locked s) (ut_buf s) (ut_w s) (ut_r s) (ut_panicked s)
  (ut_lsr s) (ut_rhr s) (ut_regs s ++ [(THR, v)])) = sent s ++ [v].
Proof. unfold sent. cbn. by rewrite list.filter_app, fmap_app. Qed.

Lemma uartstart_turn_run s q :
  txq s q →
  wp uartstart_turn (λ again s', ∃ out q', q = out ++ q' ∧ txq s' q' ∧ sent s' = sent s ++ out ∧
    ut_locked s' = ut_locked s ∧ ut_panicked s' = ut_panicked s ∧ ut_rhr s' = ut_rhr s ∧
    (if again : bool then length q = S (length q') else True)) s.
Proof.
  intros (Hb & Hr & Hw & Hl & Hq). unfold uartstart_turn. wp_run.
  assert ((ut_w s =? ut_r s) = bool_decide (q = [])) as ->.
  { rewrite Hw. destruct q as [|c q]; cbn [length] in *.
    - rewrite bool_decide_true by done. apply Z.eqb_eq. zlia.
    - rewrite bool_decide_false by done. apply Z.eqb_neq. zlia. }
  case_bool_decide as Eq; wp_run.
  { exists [], q. rewrite app_nil_r. by split_and!. }
  unfold wp, bind, ReadLSR, ret. destruct (Z.land _ _ =? 0).
  { exists [], q. rewrite app_nil_r. by split_and!. }
  destruct q as [|c q]; [done|]. cbn. destruct (Hq 0%nat c eq_refl) as [Hc Hc0].
  rewrite Z.add_0_r in Hc0. unfold UART_TX_BUF_SIZE. rewrite Hc0. cbn [default from_option id].
  exists [c], q. rewrite (u8_small c Hc). split_and!; try done.
  - unfold txq. cbn in *. split_and!; try done; [apply u64_range|apply u64_range| |lia|].
    + rewrite Hw. zlia.
    + intros k x Hk. destruct (Hq (S k) x Hk) as [Hx Hkx]. split; [done|]. rewrite <-Hkx. f_equal. f_equal.
      rewrite <-Zplus_mod_idemp_l, u64_mod_32, Zplus_mod_idemp_l. f_equal. lia.
  - unfold sent. cbn. by rewrite list.filter_app, fmap_app.
Qed.

Lemma uartstart_run s q : txq s q → wp uartstart (λ _ s', txstep s s' q []) s.
Proof.
  intros Hq. unfold uartstart.
  apply (wp_loop_turns (λ k (_ : unit) s1, ∃ out q1, k = length q1 ∧ q = out ++ q1 ∧ txq s1 q1 ∧
    sent s1 = sent s ++ out ∧ ut_locked s1 = ut_locked s ∧ ut_panicked s1 = ut_panicked s ∧
    ut_rhr s1 = ut_rhr s) (length q)).
  - destruct Hq as (_ & _ & _ & Hl & _). unfold UART_TX_BUF_SIZE. lia.
  - exists [], q. rewrite app_nil_r. by split_and!.
  - intros k [] s1 (out & q1 & -> & -> & Hq1 & Hs & H1 & H2 & H3). wp_run.
    eapply wp_mono; [by apply uartstart_turn_run|].
    intros again s2 (out2 & q2 & -> & Hq2 & Hs2 & E1 & E2 & E3 & Ha). wp_run. destruct again.
    + exists (length q2). split; [lia|]. exists (out ++ out2), q2.
      split_and!; [done|by rewrite app_assoc|done|by rewrite Hs2, Hs, app_assoc|congruence..].
    + exists (out ++ out2), q2. rewrite app_nil_r.
      split_and!; [by rewrite app_assoc|done|by rewrite Hs2, Hs, app_assoc|congruence..].
Qed.

Lemma uartputc_run s q c :
  txq s q → ut_locked s = false → ut_panicked s = false →
  wp (uartputc c) (λ ok s', txstep s s' q (if ok : bool then [u8 c] else []) ∧
                             (ok = false → length q = 32%nat)) s.
Proof.
  intros Hq Hl Hp. pose proof Hq as (Hb & Hr & Hw & Hlen & Hk). unfold uartputc. wp_run.
  apply wp_acquire; [done|]. wp_run. cbn [ut_panicked ut_w ut_r set_ut_locked]. rewrite Hp.
  assert ((ut_w s =? u64 (ut_r s + UART_TX_BUF_SIZE)) = bool_decide (length q = 32%nat)) as ->.
  { rewrite Hw. unfold UART_TX_BUF_SIZE. case_bool_decide as E; [rewrite E; apply Z.eqb_refl|].
    apply Z.eqb_neq. zlia. }
  case_bool_decide as Efull; wp_run.
  { apply wp_release; [done|]. wp_run. split; [|done]. exists [], q. rewrite !app_nil_r.
    split_and!; try done. }
  set (s1 := mkUart _ _ _ _ _ _ _ _). assert (txq s1 (q ++ [u8 c])) as Hq1.
  { unfold txq, s1. cbn. rewrite length_insert, length_app. cbn.
    split_and!; try done; [lia|lia| |lia|].
    - rewrite Hw. zlia.
    - intros k x Hx. apply lookup_app_Some in Hx as [Hx|[Hge Hx]].
      + destruct (Hk k x Hx) as [Hx1 Hx2]. split; [done|]. apply lookup_lt_Some in Hx.
        rewrite list_lookup_insert_ne; [done|]. unfold UART_TX_BUF_SIZE. rewrite Hw, u64_mod_32. zlia.
      + assert (k = length q) as -> by (apply lookup_lt_Some in Hx as Hlt; cbn in Hlt; lia).
        rewrite Nat.sub_diag in Hx. injection Hx as <-. split; [apply u8_range|].
        unfold UART_TX_BUF_SIZE. rewrite Hw, u64_mod_32. rewrite list_lookup_insert_eq; [done|]. zlia. }
  eapply wp_mono; [by apply uartstart_run|].
  intros _ s2 (out & q' & E & Hq' & Hs & E1 & E2 & E3). wp_run. apply wp_release; [by rewrite E1|]. wp_run.
  rewrite app_nil_r in E. split; [|done]. exists out, q'. cbn.
  split_and!; try done; congruence.
Qed.

(** The driver's calls of any processes and its interrupts. *)
Inductive uop := UPut (c : Z) | UIntr.
Definition run_uop (o : uop) : M uartst (list Z) :=
  match o with
  | UPut c => ok <- uartputc c ;; ret (if ok : bool then [u8 c] else [])
  | UIntr => uartintr_tx ;; ret []
  end.
Fixpoint run_uops (ops : list uop) : M uartst (list Z) :=
  match ops with
  | [] => ret []
  | o :: ops' => a <- run_uop o ;; b <- run_uops ops' ;; ret (a ++ b)
  end.

Lemma run_uop_run o s q :
  txq s q → ut_locked s = false → ut_panicked s = false →
  wp (run_uop o) (λ add s', txstep s s' q add) s.
Proof.
  intros Hq Hl Hp. destruct o as [c|]; cbn [run_uop]; wp_run.
  - eapply wp_mono; [by apply uartputc_run|]. intros ok s' [H _]. by wp_run.
  - unfold uartintr_tx. wp_run. apply wp_acquire; [done|]. wp_run.
    eapply wp_mono; [apply (uartstart_run _ q); exact Hq|].
    intros _ s' (out & q' & E & Hq' & Hs & E1 & E2 & E3). wp_run. apply wp_release; [by rewrite E1|].
    wp_run. exists out, q'. by split_and!.
Qed.

Lemma run_uops_run ops s q :
  txq s q → ut_locked s = false → ut_panicked s = false →
  wp (run_uops ops) (λ acc s', txstep s s' q acc) s.
Proof.
  revert s q. induction ops as [|o ops IH]; intros s q Hq Hl Hp; cbn [run_uops]; wp_run.
  { exists [], q. rewrite !app_nil_r. by split_and!. }
  eapply wp_mono; [by apply run_uop_run|]. intros add s1 (out & q1 & E & Hq1 & Hs & E1 & E2 & E3).
  wp_run. eapply wp_mono; [apply (IH s1 q1); [done|congruence|congruence]|].
  intros acc s2 (out2 & q2 & E' & Hq2 & Hs2 & E4 & E5 & E6). wp_run.
  exists (out ++ out2), q2. split_and!; try congruence.
  - rewrite app_assoc, E, <-!app_assoc, E'. done.
  - by rewrite Hs2, Hs, app_assoc.
Qed.


