(* ===== verification/Console.v ===== *)
(** * The console: kernel/console.c and the interrupt handler of uart.c

    Input characters arrive by [consoleintr], which edits the current line and
    hands over finished lines to [consoleread].  The buffer is a ring with three
    wrapping indices: [r] where reads go on, [w] the end of the finished lines
    and [e] the end of the line being edited.  The theorem shows that it
    implements a queue of finished input and one line under edit. *)

From stdpp Require Import base gmap list strings numbers.
From S2P Require Import Prelude Uart.

Definition BACKSPACE : Z := 256.
(** Control-x *)
Definition C (x : Z) : Z := x - 64.
Definition INPUT_BUF : Z := 128.
Definition CTRL_D : Z := C 68.
Definition CTRL_H : Z := C 72.
Definition CTRL_P : Z := C 80.
Definition CTRL_U : Z := C 85.

Record consst := mkCons {
  cn_locked : bool;   (* cons.lock *)
  cn_buf : list Z;
  cn_r : Z;           (* Read index *)
  cn_w : Z;           (* Write index *)
  cn_e : Z;           (* Edit index *)
  cn_uart : uartst;
}.
Definition set_cn_locked (b : bool) (s : consst) : consst :=
  mkCons b (cn_buf s) (cn_r s) (cn_w s) (cn_e s) (cn_uart s).
Definition set_cn_r (r : Z) (s : consst) : consst :=
  mkCons (cn_locked s) (cn_buf s) r (cn_w s) (cn_e s) (cn_uart s).
Definition set_cn_w (w : Z) (s : consst) : consst :=
  mkCons (cn_locked s) (cn_buf s) (cn_r s) w (cn_e s) (cn_uart s).
Definition set_cn_e (e : Z) (s : consst) : consst :=
  mkCons (cn_locked s) (cn_buf s) (cn_r s) (cn_w s) e (cn_uart s).
Definition set_cn_buf (l : list Z) (s : consst) : consst :=
  mkCons (cn_locked s) l (cn_r s) (cn_w s) (cn_e s) (cn_uart s).
Definition set_cn_uart (u : uartst) (s : consst) : consst :=
  mkCons (cn_locked s) (cn_buf s) (cn_r s) (cn_w s) (cn_e s) u.

Definition inu {A} (m : M uartst A) : M consst A := zoom cn_uart set_cn_uart m.
Definition cacquire := acquire cn_locked set_cn_locked.
Definition crelease := release cn_locked set_cn_locked.
Definition CONSCHAN : Z := 4.

Definition consputc (c : Z) : M consst unit :=
  if c =? BACKSPACE then
    (* if the user typed backspace, overwrite with a space. *)
    inu (uartputc_sync 8) ;; inu (uartputc_sync 32) ;; inu (uartputc_sync 8)
  else inu (uartputc_sync c).

Definition cn_at (i : Z) (s : consst) : Z := default 0 (cn_buf s !! Z.to_nat (i mod INPUT_BUF)).

(** The loop of control-U. *)
Definition kill_turn : M consst bool :=
  s <- get ;;
  if negb (cn_e s =? cn_w s) && negb (cn_at (u32 (cn_e s - 1)) s =? 10) then
    modify (set_cn_e (u32 (cn_e s - 1))) ;;
    consputc BACKSPACE ;;
    ret true
  else ret false.

Section handlers.
(** [procdump] prints the process table. *)
Context (procdump : M consst unit).

Definition consoleintr (c0 : Z) : M consst unit :=
  cacquire ;;
  (if c0 =? CTRL_P then procdump
   else if c0 =? CTRL_U then
     loop (S (Z.to_nat INPUT_BUF)) (λ _, again <- kill_turn ;; ret (if again : bool then inl tt else inr tt)) tt
   else if (c0 =? CTRL_H) || (c0 =? 127) then
     s <- get ;;
     if negb (cn_e s =? cn_w s) then
       modify (set_cn_e (u32 (cn_e s - 1))) ;; consputc BACKSPACE
     else ret tt
   else
     s <- get ;;
     if negb (c0 =? 0) && (u32 (cn_e s - cn_r s) <? INPUT_BUF) then
       let c := if c0 =? 13 then 10 else c0 in
       (* echo back to the user. *)
       consputc c ;;
       (* store for consumption by consoleread(). *)
       modify (λ s, set_cn_buf (<[Z.to_nat (cn_e s mod INPUT_BUF) := u8 c]> (cn_buf s)) s) ;;
       modify (λ s, set_cn_e (u32 (cn_e s + 1)) s) ;;
       s <- get ;;
       if (c =? 10) || (c =? CTRL_D) || (cn_e s =? u32 (cn_r s + INPUT_BUF)) then
         (* wake up consoleread() if a whole line (or end-of-file) has arrived. *)
         modify (set_cn_w (cn_e s)) ;; wakes CONSCHAN
       else ret tt
     else ret tt) ;;
  crelease.

(** [uartintr]: read and process incoming characters, then send buffered ones. *)
Definition uartintr : M consst unit :=
  s <- get ;;
  loop (S (length (ut_lsr (cn_uart s))))
    (λ _, c <- inu uartgetc ;;
          if c =? -1 then ret (inr tt) else consoleintr c ;; ret (inl tt)) tt ;;
  inu uartintr_tx.

End handlers.

(** A piece of a read or write call: it returns, or sleeps and will go on with
    [n] bytes to read, or with the byte [c] for position [i] to write. *)
Inductive cpiece := CDone (r : Z) | CSleep (n : Z) | CFull (i c : Z).

Section calls.
Context (killed : bool) (copyin1 : Z → option Z) (copyout1 : Z → Z → bool).

(** One turn of the outer loop of [consoleread]; [n] bytes are left of
    [target], the bytes [out] were copied out so far. *)
Definition consoleread_turn (dst target : Z) (l : Z * list Z)
    : M consst (Z * list Z + (cpiece * list Z)) :=
  let '(n, out) := l in
  if 0 <? n then
    s <- get ;;
    if cn_r s =? cn_w s then
      if killed then crelease ;; ret (inr (CDone (-1), out))
      else crelease ;; ret (inr (CSleep n, out))
    else
      let c := cn_at (cn_r s) s in
      modify (set_cn_r (u32 (cn_r s + 1))) ;;
      if c =? CTRL_D then  (* end-of-file *)
        (* Save ^D for next time, to make sure caller gets a 0-byte result. *)
        (if n <? target then modify (set_cn_r (u32 (u32 (cn_r s + 1) - 1))) else ret tt) ;;
        crelease ;; ret (inr (CDone (target - n), out))
      else if negb (copyout1 (dst + (target - n)) c) then
        crelease ;; ret (inr (CDone (target - n), out))
      else if c =? 10 then
        (* a whole line has arrived, return to the user-level read(). *)
        crelease ;; ret (inr (CDone (target - (n - 1)), out ++ [c]))
      else ret (inl (n - 1, out ++ [c]))
  else crelease ;; ret (inr (CDone (target - n), out)).

Definition consoleread (dst target n : Z) : M consst (cpiece * list Z) :=
  cacquire ;;
  loop (S (Z.to_nat n)) (consoleread_turn dst target) (n, []).

(** [consolewrite] from position [i] on; [pending] is a byte it could not yet
    put into the transmit buffer. *)
Definition consolewrite_turn (src n : Z) (l : Z * option Z) : M consst (Z * option Z + cpiece) :=
  let '(i, pending) := l in
  if i <? n then
    match (match pending with Some c => Some c | None => copyin1 (src + i) end) with
    | None => ret (inr (CDone i))
    | Some c =>
        ok <- inu (uartputc c) ;;
        if ok : bool then ret (inl (i + 1, None)) else ret (inr (CFull i c))
    end
  else ret (inr (CDone i)).
Definition consolewrite (src n i : Z) (pending : option Z) : M consst cpiece :=
  loop (S (Z.to_nat (n - i))) (consolewrite_turn src n) (i, pending).

End calls.

Definition consoleinit : M consst unit :=
  modify (set_cn_locked false) ;;
  inu uartinit.

(** ** The line discipline *)

(** Finished input, and the line under edit. *)
Record tty := mkTty { t_done : list Z; t_edit : list Z }.

Definition t_intr (c0 : Z) (t : tty) : tty :=
  if c0 =? CTRL_P then t
  else if c0 =? CTRL_U then mkTty (t_done t) []
  else if (c0 =? CTRL_H) || (c0 =? 127) then mkTty (t_done t) (removelast (t_edit t))
  else if negb (c0 =? 0) && bool_decide (length (t_done t ++ t_edit t) < 128)%nat then
    let c := if c0 =? 13 then 10 else c0 in
    let l := t_edit t ++ [c] in
    if (c =? 10) || (c =? CTRL_D) || bool_decide (length (t_done t ++ l) = 128%nat)
    then mkTty (t_done t ++ l) [] else mkTty (t_done t) l
  else t.

Fixpoint t_read (fuel : nat) (killed : bool) (dstok : Z → Z → bool) (dst target n : Z) (out : list Z)
    (t : tty) : cpiece * list Z * tty :=
  match fuel with
  | O => (CDone (target - n), out, t)
  | S f =>
      if 0 <? n then
        match t_done t with
        | [] => ((if killed then CDone (-1) else CSleep n), out, t)
        | c :: q =>
            if c =? CTRL_D then
              (CDone (target - n), out, if n <? target then t else mkTty q (t_edit t))
            else if negb (dstok (dst + (target - n)) c) then (CDone (target - n), out, mkTty q (t_edit t))
            else if c =? 10 then (CDone (target - (n - 1)), out ++ [c], mkTty q (t_edit t))
            else t_read f killed dstok dst target (n - 1) (out ++ [c]) (mkTty q (t_edit t))
        end
      else (CDone (target - n), out, t)
  end.

(** The ring represents the two lists. *)
Definition crep (s : consst) (t : tty) : Prop :=
  length (cn_buf s) = 128%nat ∧ 0 ≤ cn_r s < 4294967296 ∧
  cn_w s = u32 (cn_r s + Z.of_nat (length (t_done t))) ∧
  cn_e s = u32 (cn_r s + Z.of_nat (length (t_done t ++ t_edit t))) ∧
  (length (t_done t ++ t_edit t) ≤ 128)%nat ∧
  (∀ k c, (t_done t ++ t_edit t) !! k = Some c →
     cn_buf s !! Z.to_nat ((cn_r s + Z.of_nat k) mod 128) = Some c) ∧
  Forall (λ c, c ≠ 10) (t_edit t) ∧ ut_panicked (cn_uart s) = false.

Lemma u32_mod_128 x : u32 x mod 128 = x mod 128.
Proof. zlia. Qed.

Lemma wp_inu {A} (m : M uartst A) (P : A → uartst → Prop) Q s :
  wp m P (cn_uart s) → (∀ a u, P a u → Q a (set_cn_uart u s)) → wp (inu m) Q s.
Proof. intros Hm HQ. apply wp_zoom. by eapply wp_mono. Qed.

(** Only the UART changes. *)
Definition same_cons (s s' : consst) : Prop :=
  ∃ u, s' = set_cn_uart u s ∧ ut_panicked u = false.

Lemma consputc_run c s :
  ut_panicked (cn_uart s) = false → wp (consputc c) (λ _ s', same_cons s s') s.
Proof.
  intros Hp. assert (∀ c s, ut_panicked (cn_uart s) = false →
    wp (inu (uartputc_sync c)) (λ _ s', same_cons s s') s) as H1.
  { clear. intros c s Hp. eapply wp_inu; [by apply uartputc_sync_run|].
    intros _ u (lsr & ->). by eexists. }
  unfold consputc. destruct (c =? BACKSPACE); [|by apply H1]. wp_run.
  eapply wp_mono; [by apply H1|]. intros _ s1 (u1 & -> & Hu1). wp_run.
  eapply wp_mono; [by apply H1|]. intros _ s2 (u2 & -> & Hu2).
  eapply wp_mono; [by apply H1|]. intros _ s3 (u3 & -> & Hu3). by exists u3.
Qed.

Lemma crep_uart s t u : crep s t → ut_panicked u = false → crep (set_cn_uart u s) t.
Proof. intros (? & ? & ? & ? & ? & ? & ? & ?) ?. unfold crep. cbn. tauto. Qed.

Lemma crep_empty s t : crep s t → (cn_r s =? cn_w s) = bool_decide (t_done t = []).
Proof.
  intros (_ & Hr & Hw & _ & Hl & _). rewrite Hw, length_app in *. destruct (t_done t) as [|c q]; cbn [length] in *.
  - rewrite bool_decide_true by done. apply Z.eqb_eq. zlia.
  - rewrite bool_decide_false by done. apply Z.eqb_neq. zlia.
Qed.

Lemma crep_noedit s t : crep s t → (cn_e s =? cn_w s) = bool_decide (t_edit t = []).
Proof.
  intros (_ & Hr & Hw & He & Hl & _). rewrite Hw, He, length_app in *. destruct (t_edit t) as [|c q]; cbn [length] in *.
  - rewrite bool_decide_true by done. apply Z.eqb_eq. zlia.
  - rewrite bool_decide_false by done. apply Z.eqb_neq. zlia.
Qed.

(** Erasing the last character of the line. *)
Lemma crep_erase s t l c :
  crep s t → t_edit t = l ++ [c] →
  cn_at (u32 (cn_e s - 1)) s = c ∧ crep (set_cn_e (u32 (cn_e s - 1)) s) (mkTty (t_done t) l).
Proof.
  intros (Hb & Hr & Hw & He & Hl & Hk & Hnl & Hp) E. rewrite E, app_assoc in *.
  rewrite length_app in He, Hl. cbn [length] in He, Hl. split.
  - unfold cn_at, INPUT_BUF. rewrite u32_mod_128, He.
    replace (Z.to_nat ((u32 (cn_r s + Z.of_nat (length (t_done t ++ l) + 1)) - 1) mod 128))
      with (Z.to_nat ((cn_r s + Z.of_nat (length (t_done t ++ l))) mod 128)) by zlia.
    rewrite (Hk (length (t_done t ++ l)) c); [done|].
    rewrite lookup_app_r by lia. by rewrite Nat.sub_diag.
  - unfold crep. cbn. split_and!; try done; [lia|lia| |lia| |].
    + rewrite He. zlia.
    + intros k x Hx. apply Hk. by apply lookup_app_l_Some.
    + apply Forall_app in Hnl. apply Hnl.
Qed.

Lemma crep_space s t : crep s t →
  (u32 (cn_e s - cn_r s) <? INPUT_BUF) = bool_decide (length (t_done t ++ t_edit t) < 128)%nat.
Proof.
  intros (_ & Hr & _ & He & Hl & _). rewrite He. unfold INPUT_BUF.
  case_bool_decide as E; [apply Z.ltb_lt|apply Z.ltb_ge]; zlia.
Qed.

(** Appending to the line, and finishing it. *)
Definition stored (c : Z) (s : consst) : consst :=
  set_cn_e (u32 (cn_e s + 1)) (set_cn_buf (<[Z.to_nat (cn_e s mod INPUT_BUF) := u8 c]> (cn_buf s)) s).

Lemma crep_store s t c (commit : bool) :
  crep s t → 0 ≤ c < 256 → (length (t_done t ++ t_edit t) < 128)%nat → (commit = false → c ≠ 10) →
  let l := t_edit t ++ [c] in
  cn_e (stored c s) = u32 (cn_r s + Z.of_nat (length (t_done t ++ l))) ∧
  crep (if commit then set_cn_w (cn_e (stored c s)) (stored c s) else stored c s)
       (if commit then mkTty (t_done t ++ l) [] else mkTty (t_done t) l).
Proof.
  intros (Hb & Hr & Hw & He & Hl & Hk & Hnl & Hp) Hc Hlt Hc10 l.
  assert (length (t_done t ++ l) = S (length (t_done t ++ t_edit t))) as Hlen.
  { unfold l. rewrite !length_app. cbn. lia. }
  assert (cn_e (stored c s) = u32 (cn_r s + Z.of_nat (length (t_done t ++ l)))) as Ee.
  { unfold stored. cbn. rewrite He, Hlen. zlia. }
  split; [done|].
  assert (∀ k x, (t_done t ++ l) !! k = Some x →
    cn_buf (stored c s) !! Z.to_nat ((cn_r s + Z.of_nat k) mod 128) = Some x) as Hk'.
  { intros k x Hx. unfold stored, INPUT_BUF. cbn. rewrite He, u32_mod_128, (u8_small c Hc).
    unfold l in Hx. rewrite app_assoc in Hx. apply lookup_app_Some in Hx as [Hx|[Hge Hx]].
    - rewrite list_lookup_insert_ne; [by apply Hk|]. apply lookup_lt_Some in Hx. zlia.
    - assert (k = length (t_done t ++ t_edit t)) as -> by (apply lookup_lt_Some in Hx as H; cbn in H; lia).
      rewrite Nat.sub_diag in Hx. injection Hx as <-. rewrite list_lookup_insert_eq; [done|]. zlia. }
  assert (length (cn_buf (stored c s)) = 128%nat) as Hb' by (cbn; by rewrite length_insert).
  destruct commit.
  - unfold crep. cbn [t_done t_edit]. rewrite app_nil_r.
    split_and!; [done|apply Hr|apply Hr|exact Ee|exact Ee|lia|exact Hk'|constructor|done].
  - unfold crep. cbn [t_done t_edit].
    split_and!; [done|apply Hr|apply Hr|exact Hw|exact Ee|lia|exact Hk'| |done].
    apply Forall_app. split; [done|]. constructor; [by apply Hc10|constructor].
Qed.

Lemma crep_head s t c q : crep s t → t_done t = c :: q →
  cn_at (cn_r s) s = c ∧ crep (set_cn_r (u32 (cn_r s + 1)) s) (mkTty q (t_edit t)) ∧
  crep (set_cn_r (u32 (u32 (cn_r s + 1) - 1)) s) t.
Proof.
  intros (Hb & Hr & Hw & He & Hl & Hk & Hnl & Hp) E.
  assert (u32 (u32 (cn_r s + 1) - 1) = cn_r s) as Eback by zlia.
  split_and!.
  - unfold cn_at, INPUT_BUF. pose proof (Hk 0%nat c) as H. rewrite Z.add_0_r in H. rewrite H; [done|]. by rewrite E.
  - rewrite E in *. cbn [app length] in *. unfold crep. cbn [t_done t_edit].
    split_and!; [done|apply u32_range|apply u32_range| | |lia| |done|done]; cbn.
    + rewrite Hw. zlia.
    + rewrite He. zlia.
    + intros k x Hx. rewrite <-Zplus_mod_idemp_l, u32_mod_128, Zplus_mod_idemp_l.
      rewrite <-(Hk (S k) x Hx). do 3 f_equal. lia.
  - rewrite Eback. unfold crep. cbn. tauto.
Qed.

Definition crepl (b : bool) (s : consst) (t : tty) : Prop := cn_locked s = b ∧ crep s t.

Lemma kill_run s t :
  crepl true s t →
  wp (loop (S (Z.to_nat INPUT_BUF)) (λ _ : unit, again <- kill_turn ;; ret (if again : bool then inl tt else inr tt)) tt)
     (λ _ s', crepl true s' (mkTty (t_done t) [])) s.
Proof.
  intros [Hl Hc].
  apply (wp_loop_turns (λ k (_ : unit) s1, ∃ l, k = length l ∧ crepl true s1 (mkTty (t_done t) l)) (length (t_edit t))).
  - destruct Hc as (_ & _ & _ & _ & H & _). rewrite length_app in H. unfold INPUT_BUF. lia.
  - exists (t_edit t). split; [done|]. split; [done|]. by destruct t.
  - intros k [] s1 (l & -> & [Hl1 Hc1]). unfold kill_turn. wp_run.
    rewrite (crep_noedit s1 _ Hc1). cbn [t_edit]. destruct l as [|c l _] using rev_ind.
    + rewrite bool_decide_true by done. cbn. by split.
    + rewrite bool_decide_false by (by destruct l).
      destruct (crep_erase s1 _ l c Hc1 eq_refl) as [-> Hc2].
      assert (c ≠ 10) as Hc10.
      { destruct Hc1 as (_ & _ & _ & _ & _ & _ & Hnl & _). apply Forall_app in Hnl as [_ Hnl].
        by apply Forall_cons_1 in Hnl as [? _]. }
      rewrite (proj2 (Z.eqb_neq c 10) Hc10). cbn [negb andb]. wp_run.
      eapply wp_mono; [apply consputc_run; apply Hc1|].
      intros _ s2 (u & -> & Hu). wp_run. exists (length l). rewrite length_app. cbn. split; [lia|].
      exists l. split; [done|]. split; [done|]. apply (crep_uart _ _ u Hc2 Hu).
Qed.

Lemma consoleintr_run procdump c s t :
  crepl false s t → 0 ≤ c < 256 →
  (∀ s, ut_panicked (cn_uart s) = false → wp procdump (λ _ s', same_cons s s') s) →
  wp (consoleintr procdump c) (λ _ s', crepl false s' (t_intr c t)) s.
Proof.
  intros [Hl Hc] Hb Hdump. unfold consoleintr. apply wp_bind, wp_acquire; [done|].
  set (s0 := set_cn_locked true s). assert (crepl true s0 t) as [Hl0 Hc0] by done.
  pose proof Hc as (_ & _ & _ & _ & _ & _ & _ & Hp). apply wp_bind.
  apply (wp_mono _ (λ _ s', crepl true s' (t_intr c t))).
  2:{ intros _ s1 [Hl1 Hc1]. apply wp_release; [done|]. split; [done|exact Hc1]. }
  unfold t_intr. destruct (c =? CTRL_P).
  { eapply wp_mono; [by apply Hdump|]. intros _ s1 (u & -> & Hu). split; [done|by apply crep_uart]. }
  destruct (c =? CTRL_U); [by apply kill_run|].
  destruct ((c =? CTRL_H) || (c =? 127)).
  { wp_run. rewrite (crep_noedit s0 t Hc0). destruct (t_edit t) as [|x l _] eqn:Ee using rev_ind.
    - rewrite bool_decide_true by done. wp_run. cbn [removelast]. split; [done|]. rewrite <-Ee. by destruct t.
    - rewrite bool_decide_false by (by destruct l). cbn [negb]. wp_run.
      destruct (crep_erase s0 t l x Hc0 Ee) as [_ Hc2]. rewrite removelast_last.
      eapply wp_mono; [by apply consputc_run|]. intros _ s2 (u & -> & Hu). split; [done|by apply crep_uart]. }
  wp_run. rewrite (crep_space s0 t Hc0). case_bool_decide as Hsp; rewrite ?andb_true_r, ?andb_false_r; [|by wp_run].
  destruct (c =? 0) eqn:E0; cbn [negb]; [by wp_run|].
  set (c' := if c =? 13 then 10 else c). assert (0 ≤ c' < 256) as Hb' by (unfold c'; destruct (c =? 13); lia).
  wp_run. eapply wp_mono; [by apply consputc_run|]. intros _ s1 (u & -> & Hu). wp_run.
  pose proof (crep_uart s0 t u Hc0 Hu) as Hc1. set (s1 := set_cn_uart u s0) in *.
  change (wp _ _ (set_cn_e _ _)) with (wp
    (if (c' =? 10) || (c' =? CTRL_D) || (cn_e (stored c' s1) =? u32 (cn_r s1 + INPUT_BUF))
     then modify (set_cn_w (cn_e (stored c' s1))) ;; wakes CONSCHAN else ret tt)
    (λ _ s', crepl true s' (if (c' =? 10) || (c' =? CTRL_D) || bool_decide (length (t_done t ++ t_edit t ++ [c']) = 128%nat)
      then mkTty (t_done t ++ t_edit t ++ [c']) [] else mkTty (t_done t) (t_edit t ++ [c']))) (stored c' s1)).
  assert ((cn_e (stored c' s1) =? u32 (cn_r s1 + INPUT_BUF)) =
    bool_decide (length (t_done t ++ t_edit t ++ [c']) = 128%nat)) as Eq.
  { destruct (crep_store s1 t c' true Hc1 Hb' Hsp) as [-> _]; [done|]. unfold INPUT_BUF.
    assert (length (t_done t ++ t_edit t ++ [c']) = S (length (t_done t ++ t_edit t))) as Hlen
      by (rewrite !length_app; cbn; lia).
    pose proof Hc1 as (_ & Hr & _). case_bool_decide as E; [rewrite E; apply Z.eqb_refl|]. apply Z.eqb_neq.
    rewrite Hlen in *. zlia. }
  rewrite Eq. destruct (_ || _ || _) eqn:Ecom; wp_run.
  - split; [done|]. by apply (crep_store s1 t c' true).
  - split; [done|]. apply (crep_store s1 t c' false); [done|done|done|]. intros _ ->. done.
Qed.

Lemma consoleread_run killed dstok dst target n s t :
  crepl false s t →
  wp (consoleread killed dstok dst target n)
     (λ '(r, out) s', ∃ t', t_read (S (Z.to_nat n)) killed dstok dst target n [] t = (r, out, t') ∧
        crepl false s' t') s.
Proof.
  intros [Hl Hc]. unfold consoleread. apply wp_bind, wp_acquire; [done|].
  assert (crepl true (set_cn_locked true s) t) as H by done. revert H.
  generalize (set_cn_locked true s) as s0. clear s Hl Hc. intros s0.
  assert (Z.to_nat n < S (Z.to_nat n))%nat as Hf by lia. revert Hf.
  generalize (S (Z.to_nat n)) as f. generalize (@nil Z) as out. intros out f. revert n out s0 t.
  induction f as [|f IH]; intros n out s t Hf [Hl Hc]; [lia|]. cbn [loop t_read]. unfold consoleread_turn at 1.
  assert (∀ s1 r o t1, crepl true s1 t1 → wp crelease (λ _ s0, wp (ret (inr (r, o) : Z * list Z + cpiece * list Z))
    (λ a s', wp match a with inl a' => loop f (consoleread_turn killed dstok dst target) a' | inr b => ret b end
       (λ '(r', o') s', ∃ t', (r, o, t1) = (r', o', t') ∧ crepl false s' t') s') s0) s1) as Hend.
  { intros s1 r o t1 [Hl1 Hc1]. apply wp_release; [done|]. wp_run. by exists t1. }
  destruct (0 <? n) eqn:En; [|wp_run; by apply Hend].
  wp_run. rewrite (crep_empty s t Hc). destruct (t_done t) as [|c q] eqn:Eq.
  { rewrite bool_decide_true by done. destruct killed; wp_run; by apply Hend. }
  rewrite bool_decide_false by done. destruct (crep_head s t c q Hc Eq) as (-> & Hc1 & Hc2). wp_run.
  destruct (c =? CTRL_D).
  { wp_run. destruct (n <? target); wp_run; by apply Hend. }
  destruct (dstok (dst + (target - n)) c); cbn [negb]; [|wp_run; by apply Hend].
  destruct (c =? 10); wp_run; [by apply Hend|].
  apply IH; [apply Z.ltb_lt in En; lia|done].
Qed.

(** The interrupts and the pieces of read calls, in the order they happen. *)
Inductive cop :=
| CIntr (c : Z)
| CRead (killed : bool) (dstok : Z → Z → bool) (dst target n : Z).

Fixpoint run_cops (procdump : M consst unit) (ops : list cop) : M consst (list (cpiece * list Z)) :=
  match ops with
  | [] => ret []
  | CIntr c :: ops' => consoleintr procdump c ;; run_cops procdump ops'
  | CRead k ok dst target n :: ops' =>
      r <- consoleread k ok dst target n ;; rs <- run_cops procdump ops' ;; ret (r :: rs)
  end.
Fixpoint spec_cops (ops : list cop) (t : tty) : list (cpiece * list Z) :=
  match ops with
  | [] => []
  | CIntr c :: ops' => spec_cops ops' (t_intr c t)
  | CRead k ok dst target n :: ops' =>
      let '(r, out, t') := t_read (S (Z.to_nat n)) k ok dst target n [] t in (r, out) :: spec_cops ops' t'
  end.

Lemma run_cops_run procdump ops s t :
  (∀ s, ut_panicked (cn_uart s) = false → wp procdump (λ _ s', same_cons s s') s) →
  Forall (λ o, match o with CIntr c => 0 ≤ c < 256 | _ => True end) ops → crepl false s t →
  wp (run_cops procdump ops) (λ rs _, rs = spec_cops ops t) s.
Proof.
  intros Hd. revert s t. induction ops as [|o ops IH]; intros s t Hops Hc; cbn [run_cops spec_cops]; [by wp_run|].
  apply Forall_cons_1 in Hops as [Ho Hops]. destruct o as [c|k ok dst target n]; wp_run.
  - eapply wp_mono; [by apply consoleintr_run|]. intros [] s1 Hc1. by apply IH.
  - eapply wp_mono; [by apply consoleread_run|]. intros [r out] s1 (t' & E & Hc1). rewrite E.
    wp_run. eapply wp_mono; [by apply IH|]. intros rs s2 ->. by wp_run.
Qed.

(** C33. The console delivers edited lines: for every interleaving of
    input interrupts and read calls on a fresh console, reads return exactly what
    the line discipline says - finished lines in order, with erased characters and
    killed lines gone, at most a line per read, and end of file once for each
    control-D; no typed character is lost while fewer than 128 are waiting. *)
Theorem console_line_discipline procdump buf u ops :
  length buf = 128%nat → ut_panicked u = false →
  (∀ s, ut_panicked (cn_uart s) = false → wp procdump (λ _ s', same_cons s s') s) →
  Forall (λ o, match o with CIntr c => 0 ≤ c < 256 | _ => True end) ops →
  ∃ s', run_cops procdump ops (mkCons false buf 0 0 0 u) = OK (spec_cops ops (mkTty [] [])) s'.
Proof.
  intros Hb Hp Hd Hops. assert (crepl false (mkCons false buf 0 0 0 u) (mkTty [] [])) as Hc.
  { split; [done|]. unfold crep. cbn. split_and!; done || lia || constructor. }
  destruct (wp_run_OK _ _ _ (run_cops_run procdump ops _ _ Hd Hops Hc)) as (rs & s' & E & ->).
  exists s'. exact E.
Qed.

Lemma console_line_discipline_witness :
  ∃ s', run_cops (ret tt)
      [CIntr 104; CIntr 120; CIntr 127; CIntr 105; CIntr 13; CIntr 4;
       CRead false (λ _ _, true) 0 10 10; CRead false (λ _ _, true) 0 10 10; CRead false (λ _ _, true) 0 10 10]
      (mkCons false (replicate 128 0) 0 0 0 (mkUart false (replicate 32 0) 0 0 false [] [] [])) =
    OK [(CDone 3, [104; 105; 10]); (CDone 0, []); (CSleep 10, [])] s'.
Proof.
  apply (console_line_discipline (ret tt) (replicate 128 0) (mkUart false (replicate 32 0) 0 0 false [] [] [])
    [CIntr 104; CIntr 120; CIntr 127; CIntr 105; CIntr 13; CIntr 4;
     CRead false (λ _ _, true) 0 10 10; CRead false (λ _ _, true) 0 10 10; CRead false (λ _ _, true) 0 10 10]).
  - reflexivity.
  - reflexivity.
  - intros s Hs. apply wp_ret. exists (cn_uart s). split; [by destruct s|exact Hs].
  - repeat constructor; lia.
Defined.
