(* ===== verification/Virtio.v ===== *)
(** * The virtio disk driver: kernel/virtio_disk.c

    The driver and the device share descriptors, the available ring and the used
    ring.  [virtio_disk_rw] sleeps twice: until three descriptors are free, and
    until the interrupt handler says that its request has finished; its parts
    between those points are [rw_start] and [rw_finish].  The device is part of
    the environment: at any time it completes one of the requests it was given,
    as the virtio specification describes. *)

From stdpp Require Import base gmap list strings numbers.
From S2P Require Import Prelude Riscv Block.

Definition NUM : Z := 8.
Definition VRING_DESC_F_NEXT : Z := 1.
Definition VRING_DESC_F_WRITE : Z := 2.
Definition VIRTIO_BLK_T_IN : Z := 0.
Definition VIRTIO_BLK_T_OUT : Z := 1.

Record virtq_desc := mkDesc { d_addr : Z; d_len : Z; d_flags : Z; d_next : Z }.
Record virtio_blk_req := mkReq { q_type : Z; q_reserved : Z; q_sector : Z }.

Record vst := mkV {
  vd_locked : bool;              (* vdisk_lock *)
  desc : list virtq_desc;
  avail_ring : list Z;           (* avail->ring *)
  avail_idx : Z;                 (* avail->idx *)
  used_ring : list Z;            (* used->ring[].id *)
  dev_idx : Z;                   (* used->idx, written by the device *)
  vfree : list bool;             (* free[NUM]: is a descriptor free? *)
  used_idx : Z;                  (* we've looked this far in used *)
  info : list (Z * Z);           (* info[NUM]: buffer and status *)
  ops : list virtio_blk_req;
  bdisk : gset Z;                (* the buffers with b->disk == 1 *)
  vregs : list (Z * Z);          (* writes of mmio registers *)
}.

Definition set_vlocked (b : bool) (s : vst) : vst :=
  mkV b (desc s) (avail_ring s) (avail_idx s) (used_ring s) (dev_idx s) (vfree s) (used_idx s) (info s) (ops s) (bdisk s) (vregs s).
Definition set_desc (l : list virtq_desc) (s : vst) : vst :=
  mkV (vd_locked s) l (avail_ring s) (avail_idx s) (used_ring s) (dev_idx s) (vfree s) (used_idx s) (info s) (ops s) (bdisk s) (vregs s).
Definition set_avail (l : list Z) (i : Z) (s : vst) : vst :=
  mkV (vd_locked s) (desc s) l i (used_ring s) (dev_idx s) (vfree s) (used_idx s) (info s) (ops s) (bdisk s) (vregs s).
Definition set_vfree (l : list bool) (s : vst) : vst :=
  mkV (vd_locked s) (desc s) (avail_ring s) (avail_idx s) (used_ring s) (dev_idx s) l (used_idx s) (info s) (ops s) (bdisk s) (vregs s).
Definition set_used_idx (i : Z) (s : vst) : vst :=
  mkV (vd_locked s) (desc s) (avail_ring s) (avail_idx s) (used_ring s) (dev_idx s) (vfree s) i (info s) (ops s) (bdisk s) (vregs s).
Definition set_info (l : list (Z * Z)) (s : vst) : vst :=
  mkV (vd_locked s) (desc s) (avail_ring s) (avail_idx s) (used_ring s) (dev_idx s) (vfree s) (used_idx s) l (ops s) (bdisk s) (vregs s).
Definition set_ops (l : list virtio_blk_req) (s : vst) : vst :=
  mkV (vd_locked s) (desc s) (avail_ring s) (avail_idx s) (used_ring s) (dev_idx s) (vfree s) (used_idx s) (info s) l (bdisk s) (vregs s).
Definition set_bdisk (b : gset Z) (s : vst) : vst :=
  mkV (vd_locked s) (desc s) (avail_ring s) (avail_idx s) (used_ring s) (dev_idx s) (vfree s) (used_idx s) (info s) (ops s) b (vregs s).
Definition add_vreg (r v : Z) (s : vst) : vst :=
  mkV (vd_locked s) (desc s) (avail_ring s) (avail_idx s) (used_ring s) (dev_idx s) (vfree s) (used_idx s) (info s) (ops s) (bdisk s) (vregs s ++ [(r, v)]).

Definition vacquire := acquire vd_locked set_vlocked.
Definition vrelease := release vd_locked set_vlocked.
(** The channel [&disk.free[0]]. *)
Definition FREECHAN : Z := -2.

Definition put_desc (i : Z) (d : virtq_desc) : M vst unit :=
  modify (λ s, set_desc (<[Z.to_nat i := d]> (desc s)) s).
Definition put_info (i : Z) (p : Z * Z) : M vst unit :=
  modify (λ s, set_info (<[Z.to_nat i := p]> (info s)) s).
Definition desc_at (s : vst) (i : Z) : virtq_desc := default (mkDesc 0 0 0 0) (desc s !! Z.to_nat i).
Definition info_at (s : vst) (i : Z) : Z * Z := default (0, 0) (info s !! Z.to_nat i).
Definition free_at (s : vst) (i : Z) : bool := default false (vfree s !! Z.to_nat i).

(** Register offsets. *)
Definition VIRTIO_MMIO_DRIVER_FEATURES : Z := 32.
Definition VIRTIO_MMIO_GUEST_PAGE_SIZE : Z := 40.
Definition VIRTIO_MMIO_QUEUE_SEL : Z := 48.
Definition VIRTIO_MMIO_QUEUE_NUM : Z := 56.
Definition VIRTIO_MMIO_QUEUE_PFN : Z := 64.
Definition VIRTIO_MMIO_QUEUE_NOTIFY : Z := 80.
Definition VIRTIO_MMIO_INTERRUPT_ACK : Z := 100.
Definition VIRTIO_MMIO_STATUS : Z := 112.
Definition VIRTIO_CONFIG_S_ACKNOWLEDGE : Z := 1.
Definition VIRTIO_CONFIG_S_DRIVER : Z := 2.
Definition VIRTIO_CONFIG_S_DRIVER_OK : Z := 4.
Definition VIRTIO_CONFIG_S_FEATURES_OK : Z := 8.

(** The features the driver turns off, by bit number. *)
Definition off_features : list Z := [5; 7; 11; 12; 27; 29; 28].
Definition clear_features (f : Z) : Z :=
  foldl (λ f k, Z.land f (u64 (Z.lnot (Z.shiftl 1 k)))) f off_features.

(** The registers read at initialisation are given by the device: magic value,
    version, device id, vendor id, features and queue size; [pages] is the
    address of [disk.pages]. *)
Definition virtio_disk_init (magic version devid vendor features max pages : Z) : M vst unit :=
  modify (set_vlocked false) ;;
  if negb (magic =? 1953655158) || negb (version =? 1) || negb (devid =? 2) || negb (vendor =? 1431127377)
  then panic "could not find virtio disk"
  else
    let s1 := VIRTIO_CONFIG_S_ACKNOWLEDGE in
    modify (add_vreg VIRTIO_MMIO_STATUS s1) ;;
    let s2 := Z.lor s1 VIRTIO_CONFIG_S_DRIVER in
    modify (add_vreg VIRTIO_MMIO_STATUS s2) ;;
    modify (add_vreg VIRTIO_MMIO_DRIVER_FEATURES (u32 (clear_features features))) ;;
    let s3 := Z.lor s2 VIRTIO_CONFIG_S_FEATURES_OK in
    modify (add_vreg VIRTIO_MMIO_STATUS s3) ;;
    let s4 := Z.lor s3 VIRTIO_CONFIG_S_DRIVER_OK in
    modify (add_vreg VIRTIO_MMIO_STATUS s4) ;;
    modify (add_vreg VIRTIO_MMIO_GUEST_PAGE_SIZE PGSIZE) ;;
    modify (add_vreg VIRTIO_MMIO_QUEUE_SEL 0) ;;
    if max =? 0 then panic "virtio disk has no queue 0"
    else if max <? NUM then panic "virtio disk max queue too short"
    else
      modify (add_vreg VIRTIO_MMIO_QUEUE_NUM NUM) ;;
      (* memset(disk.pages, 0): the three regions *)
      modify (set_desc (replicate 8 (mkDesc 0 0 0 0))) ;;
      modify (set_avail (replicate 8 0) 0) ;;
      modify (λ s, mkV (vd_locked s) (desc s) (avail_ring s) (avail_idx s) (replicate 8 0) 0 (vfree s)
                     (used_idx s) (info s) (ops s) (bdisk s) (vregs s)) ;;
      modify (add_vreg VIRTIO_MMIO_QUEUE_PFN (u32 (Z.shiftr pages PGSHIFT))) ;;
      (* all NUM descriptors start out unused. *)
      for_loop (Z.to_nat NUM) 0 (λ i, modify (λ s, set_vfree (<[Z.to_nat i := true]> (vfree s)) s)).

(** Find a free descriptor, mark it non-free, return its index. *)
Fixpoint first_free (l : list bool) (i : Z) : Z :=
  match l with
  | [] => -1
  | b :: l' => if b then i else first_free l' (i + 1)
  end.
Definition alloc_desc : M vst Z :=
  s <- get ;;
  let i := first_free (vfree s) 0 in
  if i =? -1 then ret (-1)
  else modify (set_vfree (<[Z.to_nat i := false]> (vfree s))) ;; ret i.

Definition free_desc (i : Z) : M vst unit :=
  if NUM <=? i then panic "free_desc 1"
  else
    s <- get ;;
    if free_at s i then panic "free_desc 2"
    else
      put_desc i (mkDesc 0 0 0 0) ;;
      modify (λ s, set_vfree (<[Z.to_nat i := true]> (vfree s)) s) ;;
      wakes FREECHAN.

(** Free a chain of descriptors: one turn of the loop, and the loop. *)
Definition free_chain_turn (i : Z) : M vst (Z + unit) :=
  s <- get ;;
  let flag := d_flags (desc_at s i) in
  let nxt := d_next (desc_at s i) in
  free_desc i ;;
  ret (if truthy (Z.land flag VRING_DESC_F_NEXT) then inl nxt else inr tt).
Definition free_chain (i : Z) : M vst unit := loop (S (Z.to_nat NUM)) free_chain_turn i.

(** Allocate three descriptors; [None] when there are not enough. *)
Definition alloc3_desc : M vst (option (Z * Z * Z)) :=
  i0 <- alloc_desc ;;
  if i0 <? 0 then ret None
  else
    i1 <- alloc_desc ;;
    if i1 <? 0 then free_desc i0 ;; ret None
    else
      i2 <- alloc_desc ;;
      if i2 <? 0 then free_desc i0 ;; free_desc i1 ;; ret None
      else ret (Some (i0, i1, i2)).

Section rw.
(** The addresses of [disk.ops[i]] and of [disk.info[i].status]. *)
Context (ops_addr status_addr : Z → Z).

(** Format the three descriptors of a request and hand them to the device. *)
Definition format_request (b blockno : Z) (write : bool) (i0 i1 i2 : Z) : M vst unit :=
  (* format the three descriptors. *)
  modify (λ s, set_ops (<[Z.to_nat i0 :=
    mkReq (if write then VIRTIO_BLK_T_OUT else VIRTIO_BLK_T_IN) 0 (u32 (blockno * (BSIZE / 512)))]> (ops s)) s) ;;
  put_desc i0 (mkDesc (ops_addr i0) 16 VRING_DESC_F_NEXT i1) ;;
  put_desc i1 (mkDesc b BSIZE (Z.lor (if write then 0 else VRING_DESC_F_WRITE) VRING_DESC_F_NEXT) i2) ;;
  s <- get ;;
  put_info i0 (fst (info_at s i0), 255) ;;
  put_desc i2 (mkDesc (status_addr i0) 1 VRING_DESC_F_WRITE 0) ;;
  (* record struct buf for virtio_disk_intr(). *)
  modify (λ s, set_bdisk ({[b]} ∪ bdisk s) s) ;;
  s <- get ;;
  put_info i0 (b, snd (info_at s i0)) ;;
  (* tell the device the first index in our chain of descriptors. *)
  modify (λ s, set_avail (<[Z.to_nat (avail_idx s mod NUM) := i0]> (avail_ring s)) (avail_idx s) s) ;;
  modify (λ s, set_avail (avail_ring s) (u16 (avail_idx s + 1)) s) ;;
  modify (add_vreg VIRTIO_MMIO_QUEUE_NOTIFY 0).

(** [virtio_disk_rw] up to the point where it waits for the request: the head of
    its chain, or [None] when it sleeps for descriptors and starts over.  The
    buffer [b] stands for the address of its data. *)
Definition rw_start (b blockno : Z) (write : bool) : M vst (option Z) :=
  vacquire ;;
  idx <- alloc3_desc ;;
  match idx with
  | None => vrelease ;; ret None
  | Some (i0, i1, i2) =>
      format_request b blockno write i0 i1 i2 ;;
      (* b->disk is 1: sleep *)
      vrelease ;;
      ret (Some i0)
  end.

(** The rest of [virtio_disk_rw], when the process is woken up; [false] when
    the request has not finished and it sleeps again. *)
Definition rw_finish (b i0 : Z) : M vst bool :=
  vacquire ;;
  s <- get ;;
  if bool_decide (b ∈ bdisk s) then vrelease ;; ret false
  else
    put_info i0 (0, snd (info_at s i0)) ;;
    free_chain i0 ;;
    vrelease ;;
    ret true.

End rw.

(** One turn of the loop of [virtio_disk_intr]. *)
Definition intr_turn : M vst (unit + unit) :=
  s <- get ;;
  if used_idx s =? dev_idx s then ret (inr tt)
  else
    let id := default 0 (used_ring s !! Z.to_nat (used_idx s mod NUM)) in
    if negb (snd (info_at s id) =? 0) then panic "virtio_disk_intr status"
    else
      let b := fst (info_at s id) in
      modify (λ s, set_bdisk (bdisk s ∖ {[b]}) s) ;;  (* disk is done with buf *)
      wakes b ;;
      modify (λ s, set_used_idx (u16 (used_idx s + 1)) s) ;;
      ret (inl tt).

(** [istatus] is what the interrupt status register says; at most NUM requests
    are outstanding. *)
Definition virtio_disk_intr (istatus : Z) : M vst unit :=
  vacquire ;;
  modify (add_vreg VIRTIO_MMIO_INTERRUPT_ACK (Z.land istatus 3)) ;;
  loop (S (Z.to_nat NUM)) (λ _, intr_turn) tt ;;
  vrelease.

(** The static [disk] when the kernel starts: all zero. *)
Definition disk0 : vst :=
  mkV false (replicate 8 (mkDesc 0 0 0 0)) (replicate 8 0) 0 (replicate 8 0) 0 (replicate 8 false) 0
    (replicate 8 (0, 0)) (replicate 8 (mkReq 0 0 0)) ∅ [].

(** ** Requests in flight *)

Record req := mkRq { rq_b : Z; rq_no : Z; rq_write : bool; rq0 : Z; rq1 : Z; rq2 : Z }.
Definition idxs (r : req) : list Z := [rq0 r; rq1 r; rq2 r].

(** The processes waiting for a request, with the head of its chain, and the
    requests the device works on. *)
Record vsys := mkVS { vs : vst; acts : list (Z * Z); pend : list Z }.
Definition set_vs (s : vst) (y : vsys) : vsys := mkVS s (acts y) (pend y).
Definition inv_ {A} (m : M vst A) : M vsys A := zoom vs set_vs m.

(** The device finishes the request with head [h]: it writes the status byte
    and an entry of the used ring. *)
Definition device_complete (h : Z) (s : vst) : vst :=
  mkV (vd_locked s) (desc s) (avail_ring s) (avail_idx s)
    (<[Z.to_nat (dev_idx s mod NUM) := h]> (used_ring s)) (u16 (dev_idx s + 1)) (vfree s) (used_idx s)
    (<[Z.to_nat h := (fst (info_at s h), 0)]> (info s)) (ops s) (bdisk s) (vregs s).

Inductive vev :=
| EStart (b blockno : Z) (write : bool)   (* a process calls virtio_disk_rw *)
| EDevice (k : nat)                       (* the device finishes one of its requests *)
| EIntr (istatus : Z)                     (* an interrupt *)
| EWake (k : nat).                        (* a waiting process is woken up *)

Section events.
Context (ops_addr status_addr : Z → Z).

(** A buffer has one request at a time: the caller holds its lock. *)
Definition run_vev (e : vev) : M vsys unit :=
  y <- get ;;
  match e with
  | EStart b n w =>
      if decide (b ∈ (acts y).*1) then ret tt
      else
        h <- inv_ (rw_start ops_addr status_addr b n w) ;;
        match h with
        | None => ret tt
        | Some h => modify (λ y, mkVS (vs y) (acts y ++ [(b, h)]) (pend y ++ [h]))
        end
  | EDevice k =>
      match pend y !! k with
      | None => ret tt
      | Some h => modify (λ y, mkVS (device_complete h (vs y)) (acts y) (delete k (pend y)))
      end
  | EIntr st => inv_ (virtio_disk_intr st)
  | EWake k =>
      match acts y !! k with
      | None => ret tt
      | Some (b, h) =>
          ok <- inv_ (rw_finish b h) ;;
          if ok : bool then modify (λ y, mkVS (vs y) (delete k (acts y)) (pend y)) else ret tt
      end
  end.
Fixpoint run_vevs (es : list vev) : M vsys unit :=
  match es with [] => ret tt | e :: es' => run_vev e ;; run_vevs es' end.

(** The descriptors that are not free are [I]. *)
Definition frees (s : vst) (I : list Z) : Prop :=
  length (vfree s) = 8%nat ∧ ∀ i, 0 ≤ i < 8 → free_at s i = bool_decide (i ∉ I).

(** What the device sees of a request. *)
Definition chain (s : vst) (r : req) : Prop :=
  desc s !! Z.to_nat (rq0 r) = Some (mkDesc (ops_addr (rq0 r)) 16 VRING_DESC_F_NEXT (rq1 r)) ∧
  desc s !! Z.to_nat (rq1 r) = Some (mkDesc (rq_b r) BSIZE
    (Z.lor (if rq_write r then 0 else VRING_DESC_F_WRITE) VRING_DESC_F_NEXT) (rq2 r)) ∧
  desc s !! Z.to_nat (rq2 r) = Some (mkDesc (status_addr (rq0 r)) 1 VRING_DESC_F_WRITE 0) ∧
  ops s !! Z.to_nat (rq0 r) =
    Some (mkReq (if rq_write r then VIRTIO_BLK_T_OUT else VIRTIO_BLK_T_IN) 0 (u32 (rq_no r * 2))) ∧
  fst (info_at s (rq0 r)) = rq_b r.

Definition reqs_ok (s : vst) (A : list req) : Prop :=
  length (desc s) = 8%nat ∧ length (ops s) = 8%nat ∧ length (info s) = 8%nat ∧
  NoDup (A ≫= idxs) ∧ Forall (λ i, 0 ≤ i < 8) (A ≫= idxs) ∧ NoDup (rq_b <$> A) ∧
  frees s (A ≫= idxs) ∧ Forall (chain s) A.

(** The requests whose buffer still belongs to the device or is in the used ring. *)
Definition busy (s : vst) (A : list req) : list Z := rq0 <$> filter (λ r, rq_b r ∈ bdisk s) A.

(** The entries of the used ring not yet looked at are [C]. *)
Definition used_ok (s : vst) (C : list Z) : Prop :=
  length (used_ring s) = 8%nat ∧ 0 ≤ used_idx s < 65536 ∧
  dev_idx s = u16 (used_idx s + Z.of_nat (length C)) ∧
  (∀ k h, C !! k = Some h → used_ring s !! Z.to_nat ((used_idx s + Z.of_nat k) mod 8) = Some h) ∧
  Forall (λ h, snd (info_at s h) = 0) C.

Definition vinv (y : vsys) : Prop :=
  ∃ A C, vd_locked (vs y) = false ∧ reqs_ok (vs y) A ∧ used_ok (vs y) C ∧
    acts y ≡ₚ (λ r, (rq_b r, rq0 r)) <$> A ∧ pend y ++ C ≡ₚ busy (vs y) A.

End events.

(** ** Descriptors *)

Lemma first_free_spec l i :
  (first_free l i = -1 ∧ Forall (λ b, b = false) l) ∨
  ∃ k, first_free l i = i + Z.of_nat k ∧ l !! k = Some true.
Proof.
  revert i. induction l as [|b l IH]; intros i; cbn; [by left|]. destruct b.
  - right. exists 0%nat. split; [lia|done].
  - destruct (IH (i + 1)) as [[E H]|(k & E & H)]; [left; split; [done|by constructor]|].
    right. exists (S k). split; [lia|done].
Qed.

Lemma free_at_insert s i b j :
  length (vfree s) = 8%nat → 0 ≤ i < 8 → 0 ≤ j < 8 →
  free_at (set_vfree (<[Z.to_nat i := b]> (vfree s)) s) j = if j =? i then b else free_at s j.
Proof.
  intros Hl Hi Hj. unfold free_at. cbn. destruct (Z.eqb_spec j i) as [->|Hne].
  - by rewrite list_lookup_insert_eq by lia.
  - by rewrite list_lookup_insert_ne by lia.
Qed.

(** The code touched only the free bits and descriptors other than [I]. *)
Definition dframe (I : list Z) (s s' : vst) : Prop :=
  ∃ l l', s' = set_vfree l' (set_desc l s) ∧ length l = length (desc s) ∧
    ∀ j, 0 ≤ j → j ∈ I → l !! Z.to_nat j = desc s !! Z.to_nat j.

Lemma dframe_refl I s : dframe I s s.
Proof. exists (desc s), (vfree s). by destruct s. Qed.

Lemma dframe_mono I J s s' : dframe I s s' → J ⊆ I → dframe J s s'.
Proof. intros (l & m & -> & Hl & Hd) HJ. exists l, m. split_and!; [done|done|]. auto. Qed.

Lemma dframe_trans I s s1 s2 : dframe I s s1 → dframe I s1 s2 → dframe I s s2.
Proof.
  intros (l & m & -> & Hl & Hd) (l' & m' & -> & Hl' & Hd'). exists l', m'. split; [done|].
  cbn in Hl', Hd'. split; [congruence|]. intros j Hj HJ. rewrite Hd' by done. by apply Hd.
Qed.

Lemma frees_perm s I J : frees s I → (∀ i, i ∈ I ↔ i ∈ J) → frees s J.
Proof.
  intros [Hl Hf] HIJ. split; [done|]. intros i Hi. rewrite (Hf i Hi). apply bool_decide_ext. by rewrite HIJ.
Qed.

Lemma alloc_desc_run s I :
  frees s I →
  wp alloc_desc (λ i s', i = -1 ∧ s' = s ∨
    0 ≤ i < 8 ∧ i ∉ I ∧ dframe I s s' ∧ desc s' = desc s ∧ frees s' (i :: I)) s.
Proof.
  intros [Hl Hf]. unfold alloc_desc. wp_run.
  destruct (first_free_spec (vfree s) 0) as [[-> _]|(k & E & Hk)]; [wp_run; by left|].
  rewrite Z.add_0_l in E. rewrite E. assert (k < 8)%nat as Hk8 by (apply lookup_lt_Some in Hk; lia).
  rewrite (proj2 (Z.eqb_neq (Z.of_nat k) (-1))) by lia. wp_run. right.
  assert (Z.of_nat k ∉ I) as HkI.
  { specialize (Hf (Z.of_nat k) ltac:(lia)). unfold free_at in Hf. rewrite Nat2Z.id, Hk in Hf. cbn in Hf.
    symmetry in Hf. by apply bool_decide_eq_true in Hf. }
  split; [lia|]. split; [done|].
  split; [by exists (desc s), (<[Z.to_nat (Z.of_nat k) := false]> (vfree s))|]. split; [done|].
  split; [cbn; by rewrite length_insert|].
  intros i Hi. rewrite free_at_insert by (done || lia). rewrite (Hf i Hi).
  destruct (Z.eqb_spec i (Z.of_nat k)) as [->|Hne].
  - symmetry. apply bool_decide_eq_false. set_solver.
  - apply bool_decide_ext. set_solver.
Qed.

Lemma free_desc_run s i I :
  frees s (i :: I) → i ∉ I → 0 ≤ i < 8 →
  wp (free_desc i) (λ _ s', dframe I s s' ∧ frees s' I) s.
Proof.
  intros [Hl Hf] Hi Hr. unfold free_desc, NUM. ztest. wp_run. rewrite (Hf i Hr).
  rewrite bool_decide_false by set_solver. unfold put_desc. wp_run. split.
  { eexists _, _. split; [reflexivity|]. split; [by rewrite length_insert|].
    intros k Hk HI. rewrite list_lookup_insert_ne; [done|]. intros E. apply Hi. by replace i with k by lia. }
  split; [cbn; by rewrite length_insert|]. intros j Hj.
  pose proof (free_at_insert (set_desc (<[Z.to_nat i := mkDesc 0 0 0 0]> (desc s)) s) i true j Hl Hr Hj) as E.
  rewrite E. change (free_at (set_desc _ s) j) with (free_at s j).
  rewrite (Hf j Hj). destruct (Z.eqb_spec j i) as [->|Hne].
  - symmetry. by apply bool_decide_eq_true.
  - apply bool_decide_ext. set_solver.
Qed.

(** One link of a chain: the descriptor is freed and the next one follows. *)
Lemma free_chain_turn_run s i d I :
  frees s (i :: I) → i ∉ I → 0 ≤ i < 8 → desc s !! Z.to_nat i = Some d →
  wp (free_chain_turn i) (λ r s',
    r = (if truthy (Z.land (d_flags d) VRING_DESC_F_NEXT) then inl (d_next d) else inr tt) ∧
    dframe I s s' ∧ frees s' I) s.
Proof.
  intros Hf Hi Hr Hd. unfold free_chain_turn. wp_run. eapply wp_mono; [by apply free_desc_run|].
  intros [] s' H. wp_run. unfold desc_at. by rewrite Hd.
Qed.

Lemma dframe_desc I s s' j : dframe I s s' → 0 ≤ j → j ∈ I → desc s' !! Z.to_nat j = desc s !! Z.to_nat j.
Proof. intros (l & m & -> & _ & H). apply H. Qed.

Lemma free_chain_run s i0 i1 i2 I d0 d1 d2 :
  frees s (i0 :: i1 :: i2 :: I) → NoDup (i0 :: i1 :: i2 :: I) →
  0 ≤ i0 < 8 → 0 ≤ i1 < 8 → 0 ≤ i2 < 8 →
  desc s !! Z.to_nat i0 = Some d0 → desc s !! Z.to_nat i1 = Some d1 → desc s !! Z.to_nat i2 = Some d2 →
  Z.land (d_flags d0) 1 = 1 → d_next d0 = i1 → Z.land (d_flags d1) 1 = 1 → d_next d1 = i2 →
  Z.land (d_flags d2) 1 = 0 →
  wp (free_chain i0) (λ _ s', frees s' I ∧ dframe I s s') s.
Proof.
  intros Hf Hnd H0 H1 H2 D0 D1 D2 F0 N0 F1 N1 F2.
  apply list.NoDup_cons in Hnd as [Hi0 Hnd]. apply list.NoDup_cons in Hnd as [Hi1 Hnd].
  apply list.NoDup_cons in Hnd as [Hi2 _].
  unfold free_chain. change (S (Z.to_nat NUM)) with (S (S (S 6))). generalize 6%nat. intros fuel.
  apply wp_loop_unroll. eapply wp_mono; [by apply (free_chain_turn_run _ _ d0)|].
  intros r s1 (-> & Fr1 & Hf1). unfold VRING_DESC_F_NEXT. rewrite F0, N0. cbv [truthy negb Z.eqb].
  apply wp_loop_unroll. eapply wp_mono; [apply (free_chain_turn_run _ _ d1); [done|done|done|]|].
  { rewrite (dframe_desc _ _ _ _ Fr1); [done|lia|set_solver]. }
  intros r s2 (-> & Fr2 & Hf2). unfold VRING_DESC_F_NEXT. rewrite F1, N1. cbv [truthy negb Z.eqb].
  apply wp_loop_unroll. eapply wp_mono; [apply (free_chain_turn_run _ _ d2); [done|done|done|]|].
  { rewrite (dframe_desc _ _ _ _ Fr2), (dframe_desc _ _ _ _ Fr1); [done|lia|set_solver|lia|set_solver]. }
  intros r s3 (-> & Fr3 & Hf3). unfold VRING_DESC_F_NEXT. rewrite F2. cbv [truthy negb Z.eqb].
  split; [done|]. apply (dframe_mono _ I) in Fr1, Fr2; [|set_solver..]. eauto using dframe_trans.
Qed.

(** Three free descriptors, or none taken. *)
Lemma alloc3_desc_run s I :
  frees s I →
  wp alloc3_desc (λ r s', dframe I s s' ∧
    match r with
    | None => frees s' I
    | Some (i0, i1, i2) =>
        frees s' (i0 :: i1 :: i2 :: I) ∧ desc s' = desc s ∧ i0 ∉ I ∧ i1 ∉ I ∧ i2 ∉ I ∧
        i0 ≠ i1 ∧ i0 ≠ i2 ∧ i1 ≠ i2 ∧ 0 ≤ i0 < 8 ∧ 0 ≤ i1 < 8 ∧ 0 ≤ i2 < 8
    end) s.
Proof.
  intros Hf. unfold alloc3_desc. wp_run. eapply wp_mono; [by apply alloc_desc_run|]. cbv beta.
  intros i0 s0 [[-> ->]|(H0 & N0 & Fr0 & D0 & Hf0)]; [wp_run; split; [apply dframe_refl|done]|]. ztest.
  wp_run. eapply wp_mono; [by apply alloc_desc_run|]. cbv beta.
  intros i1 s1 [[-> ->]|(H1 & N1 & Fr1 & D1 & Hf1)].
  { cbn [Z.ltb Z.compare]. wp_run. eapply wp_mono; [by apply free_desc_run|]. intros [] s' [Fr Hf']. wp_run.
    split; [|done]. by eapply dframe_trans. }
  apply (dframe_mono _ I) in Fr1; [|set_solver].
  ztest. wp_run. eapply wp_mono; [by apply alloc_desc_run|]. cbv beta.
  intros i2 s2 [[-> ->]|(H2 & N2 & Fr2 & D2 & Hf2)].
  { cbn [Z.ltb Z.compare]. wp_run. eapply wp_mono.
    { apply (free_desc_run _ i0 (i1 :: I)); [eapply frees_perm; [done|set_solver]|set_solver|done]. }
    intros [] s' [Fr Hf']. apply (dframe_mono _ I) in Fr; [|set_solver]. wp_run.
    eapply wp_mono; [apply free_desc_run; [done|set_solver|done]|]. intros [] s'' [Fr' Hf'']. wp_run.
    split; [eauto using dframe_trans|done]. }
  apply (dframe_mono _ I) in Fr2; [|set_solver].
  ztest. wp_run. split; [eauto using dframe_trans|].
  split; [eapply frees_perm; [done|set_solver]|]. split; [congruence|].
  apply not_elem_of_cons in N1 as [? ?]. apply not_elem_of_cons in N2 as [? N2].
  apply not_elem_of_cons in N2 as [? ?]. split_and!; (done || lia).
Qed.

(** ** The invariant *)

Section safety.
Context (ops_addr status_addr : Z → Z).
Notation chn := (chain ops_addr status_addr).
Notation rok := (reqs_ok ops_addr status_addr).
Notation vok := (vinv ops_addr status_addr).

Lemma chain_frame s s' r :
  chn s r →
  (∀ j, j ∈ idxs r → desc s' !! Z.to_nat j = desc s !! Z.to_nat j) →
  ops s' !! Z.to_nat (rq0 r) = ops s !! Z.to_nat (rq0 r) →
  fst (info_at s' (rq0 r)) = fst (info_at s (rq0 r)) → chn s' r.
Proof.
  intros (D0 & D1 & D2 & Ho & Hi) Hd Ho' Hi'. unfold chain.
  rewrite !Hd by (unfold idxs; set_solver). rewrite Ho', Hi'. tauto.
Qed.

Lemma reqs_ok_perm s A A' : A ≡ₚ A' → rok s A → rok s A'.
Proof.
  intros P (L1 & L2 & L3 & N & F & Nb & Fr & Ch). assert (A ≫= idxs ≡ₚ A' ≫= idxs) as PI by by rewrite P.
  split_and!; try done; [by rewrite <-PI|by rewrite <-PI|by rewrite <-P| |by rewrite <-P].
  eapply frees_perm; [exact Fr|]. intros i. by rewrite PI.
Qed.

Lemma busy_perm s A A' : A ≡ₚ A' → busy s A ≡ₚ busy s A'.
Proof. intros P. unfold busy. by rewrite P. Qed.

Lemma busy_cons s r A :
  busy s (r :: A) = if decide (rq_b r ∈ bdisk s) then rq0 r :: busy s A else busy s A.
Proof. unfold busy. rewrite list.filter_cons. by destruct (decide _). Qed.

Lemma busy_ext s s' A :
  (∀ r, r ∈ A → rq_b r ∈ bdisk s' ↔ rq_b r ∈ bdisk s) → busy s' A = busy s A.
Proof.
  induction A as [|r A IH]; intros H; [done|]. rewrite !busy_cons, IH by set_solver.
  specialize (H r ltac:(set_solver)). destruct (decide _), (decide _); tauto || done.
Qed.

Lemma busy_idx s A h : h ∈ busy s A → ∃ r, r ∈ A ∧ h = rq0 r ∧ rq_b r ∈ bdisk s.
Proof. intros (r & -> & [Hr HA]%list_elem_of_filter)%list_elem_of_fmap. eauto. Qed.

Lemma head_idx r A : r ∈ A → rq0 r ∈ A ≫= idxs.
Proof. intros H. apply list_elem_of_bind. exists r. split; [unfold idxs; set_solver|done]. Qed.

Lemma small_list (l : list Z) : NoDup l → Forall (λ i, 0 ≤ i < 8) l → (length l ≤ 8)%nat.
Proof.
  intros N F. change 8%nat with (length (seqZ 0 8)). apply submseteq_length, NoDup_submseteq; [done|].
  intros x Hx. apply elem_of_seqZ. rewrite Forall_forall in F. specialize (F x). rewrite <-list_elem_of_In in F.
  specialize (F Hx). lia.
Qed.

Lemma length_idxs A : length (A ≫= idxs) = (3 * length A)%nat.
Proof. induction A as [|r A IH]; [done|]. cbn [mbind list_bind length]. change (list_bind _ _ idxs A) with (A ≫= idxs). rewrite length_app, IH. cbn. lia. Qed.

Lemma few_requests s A : rok s A → (length A ≤ 2)%nat.
Proof.
  intros (_ & _ & _ & N & F & _). pose proof (small_list _ N F) as H. rewrite length_idxs in H. lia.
Qed.

Lemma busy_length s A : (length (busy s A) ≤ length A)%nat.
Proof. unfold busy. rewrite length_fmap. apply length_filter. Qed.

#[local] Arguments busy : simpl never.

(** *** Starting a request *)

Definition used_same (s s' : vst) : Prop :=
  used_ring s' = used_ring s ∧ dev_idx s' = dev_idx s ∧ used_idx s' = used_idx s.

Lemma reqs_ok_frame s s' A :
  rok s A → dframe (A ≫= idxs) s s' → frees s' (A ≫= idxs) → rok s' A.
Proof.
  intros (L1 & L2 & L3 & N & F & Nb & Fr & Ch) Hd Hf. pose proof Hd as (l & m & -> & Hl & Hdl).
  split_and!; try done; [cbn; congruence|]. apply Forall_forall. intros r Hr%list_elem_of_In.
  rewrite Forall_forall in Ch. apply (chain_frame s); [by apply Ch, list_elem_of_In| |done|done].
  intros j Hj. assert (j ∈ A ≫= idxs) as HjA by (apply list_elem_of_bind; eauto).
  apply Hdl; [|done]. rewrite Forall_forall in F. apply (F j). by apply list_elem_of_In.
Qed.

(** Formatting a request does not touch the other requests. *)
Lemma reqs_ok_add s s' A r :
  rok s A → (rq_b r ∉ rq_b <$> A) →
  length (desc s') = 8%nat → length (ops s') = 8%nat → length (info s') = 8%nat →
  NoDup (idxs r ++ A ≫= idxs) → Forall (λ i, 0 ≤ i < 8) (idxs r) →
  frees s' (idxs r ++ A ≫= idxs) → chn s' r →
  (∀ j, 0 ≤ j → j ∉ idxs r → desc s' !! Z.to_nat j = desc s !! Z.to_nat j ∧
    ops s' !! Z.to_nat j = ops s !! Z.to_nat j ∧ info_at s' j = info_at s j) →
  rok s' (r :: A).
Proof.
  intros (L1 & L2 & L3 & N & F & Nb & Fr & Ch) Hb M1 M2 M3 N' F' Fr' Chr Hfr.
  split_and!; try done; [by apply Forall_app|by apply list.NoDup_cons|].
  constructor; [done|]. apply Forall_forall. intros q Hq%list_elem_of_In. rewrite Forall_forall in Ch.
  assert (∀ j, j ∈ idxs q → 0 ≤ j ∧ j ∉ idxs r) as Hj.
  { intros j Hj. assert (j ∈ A ≫= idxs) as HjA by (apply list_elem_of_bind; eauto). split.
    - rewrite Forall_forall in F. apply (F j). by apply list_elem_of_In.
    - apply list.NoDup_app in N' as (_ & N' & _). intros HjR. by apply (N' j). }
  apply (chain_frame s); [by apply Ch, list_elem_of_In| | |].
  - intros j Hjq. by apply Hfr; apply Hj.
  - apply Hfr; apply Hj; unfold idxs; set_solver.
  - destruct (Hfr (rq0 q)) as (_ & _ & ->); [apply Hj; unfold idxs; set_solver..|done].
Qed.

(** The chain of a request just formatted. *)
Lemma format_request_run s b n w i0 i1 i2 :
  length (desc s) = 8%nat → length (ops s) = 8%nat → length (info s) = 8%nat →
  i0 ≠ i1 → i0 ≠ i2 → i1 ≠ i2 → 0 ≤ i0 < 8 → 0 ≤ i1 < 8 → 0 ≤ i2 < 8 →
  wp (format_request ops_addr status_addr b n w i0 i1 i2) (λ _ s',
    chn s' (mkRq b n w i0 i1 i2) ∧ vd_locked s' = vd_locked s ∧ used_same s s' ∧ vfree s' = vfree s ∧
    bdisk s' = {[b]} ∪ bdisk s ∧
    length (desc s') = 8%nat ∧ length (ops s') = 8%nat ∧ length (info s') = 8%nat ∧
    ∀ j, 0 ≤ j → j ∉ [i0; i1; i2] → desc s' !! Z.to_nat j = desc s !! Z.to_nat j ∧
      ops s' !! Z.to_nat j = ops s !! Z.to_nat j ∧ info_at s' j = info_at s j) s.
Proof.
  intros L1 L2 L3 N01 N02 N12 R0 R1 R2. unfold format_request, put_desc, put_info. wp_run.
  split; [|cbn; rewrite !length_insert; split_and!; try done].
  - unfold chain, info_at. cbn. rewrite !list_lookup_insert_eq by (rewrite ?length_insert; lia).
    rewrite !list_lookup_insert_ne by lia. rewrite !list_lookup_insert_eq by (rewrite ?length_insert; lia).
    rewrite list_lookup_insert_ne by lia. by rewrite !list_lookup_insert_eq by (rewrite ?length_insert; lia).
  - intros j Hj Hn. rewrite !not_elem_of_cons in Hn. destruct Hn as (? & ? & ? & _). unfold info_at. cbn.
    by rewrite !list_lookup_insert_ne by lia.
Qed.

Lemma rw_start_run s A b n w :
  vd_locked s = false → rok s A → (b ∉ rq_b <$> A) →
  wp (rw_start ops_addr status_addr b n w) (λ r s', vd_locked s' = false ∧ used_same s s' ∧
    match r with
    | None => rok s' A ∧ info s' = info s ∧ bdisk s' = bdisk s
    | Some h => ∃ i1 i2, rok s' (mkRq b n w h i1 i2 :: A) ∧ bdisk s' = {[b]} ∪ bdisk s ∧
                  ∀ j, j ∈ A ≫= idxs → info_at s' j = info_at s j
    end) s.
Proof.
  intros Hlk HA Hb. pose proof HA as (L1 & L2 & L3 & N & F & Nb & Fr & Ch). unfold rw_start. wp_run.
  apply wp_acquire; [done|]. wp_run. eapply wp_mono; [apply (alloc3_desc_run _ (A ≫= idxs)); exact Fr|].
  cbv beta. intros [[[i0 i1] i2]|] s1 [Hd H].
  2: { wp_run. pose proof Hd as (l & m & -> & Hl & Hdl). apply wp_release; [done|]. wp_run.
    split; [done|]. split; [done|]. split; [|done].
    eapply (reqs_ok_frame (set_vlocked false s)); [exact HA|by exists l, m|exact H]. }
  destruct H as (Hf & Hde & Hi0 & Hi1 & Hi2 & N01 & N02 & N12 & R0 & R1 & R2).
  destruct Hd as (l & m & -> & _ & _). cbn in Hde. subst l. wp_run.
  eapply wp_mono; [by apply format_request_run|]. cbv beta.
  intros [] s2 (Hc & Hk & Hu & Hv & Hbd & M1 & M2 & M3 & Hfr). wp_run. apply wp_release; [by rewrite Hk|]. wp_run.
  split; [done|]. split; [exact Hu|]. exists i1, i2. split; [|split; [exact Hbd|]].
  - eapply (reqs_ok_add s); [done|done|exact M1|exact M2|exact M3| | | |exact Hc|exact Hfr]; unfold idxs; cbn.
    + rewrite !list.NoDup_cons, !not_elem_of_cons. tauto.
    + by do 3 (constructor; [done|]).
    + destruct Hf as [Hfl Hf]. split; [cbn; by rewrite Hv|]. intros i Hi. specialize (Hf i Hi).
      unfold free_at in *. cbn in *. by rewrite Hv.
  - intros j Hj. apply Hfr; [rewrite Forall_forall in F; by apply (F j), list_elem_of_In|].
    rewrite !not_elem_of_cons. repeat (split; [by intros ->|]). apply not_elem_of_nil.
Qed.

(** *** The device and the interrupt handler *)

Lemma used_ok_frame s s' C :
  used_ok s C → used_same s s' → (∀ h, h ∈ C → info_at s' h = info_at s h) → used_ok s' C.
Proof.
  intros (L & R & D & U & F) (E1 & E2 & E3) Hi. unfold used_ok. rewrite E1, E2, E3. split_and!; try tauto.
  apply Forall_forall. intros h Hh%list_elem_of_In. rewrite Hi by done. rewrite Forall_forall in F.
  by apply F, list_elem_of_In.
Qed.

Lemma used_ok_device s C h :
  used_ok s C → (length C < 8)%nat → length (info s) = 8%nat → 0 ≤ h < 8 →
  used_ok (device_complete h s) (C ++ [h]).
Proof.
  intros (L & R & D & U & F) HC Hi Hh. unfold used_ok, NUM. cbn. unfold NUM. rewrite length_insert, length_app. cbn.
  assert (dev_idx s mod 8 = (used_idx s + Z.of_nat (length C)) mod 8) as Ed by (rewrite D; zlia).
  split_and!; [done|lia|lia|rewrite D; zlia| |].
  - intros k x Hk. rewrite Ed. destruct (decide (k = length C)) as [->|Hne].
    + rewrite lookup_app_r, Nat.sub_diag in Hk by lia. injection Hk as <-.
      apply list_lookup_insert_eq. rewrite L. zlia.
    + assert (k < length C)%nat by (apply lookup_lt_Some in Hk; rewrite length_app in Hk; cbn in Hk; lia).
      rewrite lookup_app_l in Hk by done. rewrite list_lookup_insert_ne by zlia. by apply U.
  - apply Forall_app. split.
    + eapply list.Forall_impl; [exact F|]. cbv beta. intros x Hx. unfold info_at. cbn.
      destruct (decide (Z.to_nat x = Z.to_nat h)) as [->|Hne].
      * by rewrite list_lookup_insert_eq by lia.
      * by rewrite list_lookup_insert_ne by done.
    + constructor; [|done]. unfold info_at. cbn. by rewrite list_lookup_insert_eq by lia.
Qed.

Lemma device_info s h j :
  fst (info_at (device_complete h s) j) = fst (info_at s j).
Proof.
  unfold info_at at 1. cbn. destruct (decide (Z.to_nat j = Z.to_nat h)) as [E|Hne].
  - rewrite E. destruct (decide (Z.to_nat h < length (info s))%nat).
    + rewrite list_lookup_insert_eq by done. cbn. unfold info_at. by rewrite E.
    + rewrite list_insert_ge by lia. unfold info_at. by rewrite E.
  - by rewrite list_lookup_insert_ne by done.
Qed.

Lemma reqs_ok_info s s' A :
  rok s A → desc s' = desc s → ops s' = ops s → vfree s' = vfree s → length (info s') = 8%nat →
  (∀ r, r ∈ A → fst (info_at s' (rq0 r)) = fst (info_at s (rq0 r))) → rok s' A.
Proof.
  intros (L1 & L2 & L3 & N & F & Nb & Fr & Ch) Ed Eo Ev Li Hi. unfold reqs_ok. rewrite Ed, Eo.
  split_and!; try done.
  - unfold frees, free_at in *. by rewrite Ev.
  - apply Forall_forall. intros r Hr%list_elem_of_In. rewrite Forall_forall in Ch.
    apply (chain_frame s); [by apply Ch, list_elem_of_In|by rewrite Ed|by rewrite Eo|by apply Hi].
Qed.

(** A completed request: its buffer is given back. *)
Lemma intr_turn_run s A C P :
  rok s A → used_ok s C → P ++ C ≡ₚ busy s A →
  wp intr_turn (λ r s',
    desc s' = desc s ∧ vd_locked s' = vd_locked s ∧
    match r with
    | inr _ => C = [] ∧ s' = s
    | inl _ => ∃ h C', C = h :: C' ∧ rok s' A ∧ used_ok s' C' ∧ P ++ C' ≡ₚ busy s' A
    end) s.
Proof.
  intros HA (L & R & D & U & F) HP. unfold intr_turn. wp_run.
  assert (length C ≤ 8)%nat as HC.
  { apply Permutation_length in HP. rewrite length_app in HP. pose proof (busy_length s A).
    pose proof (few_requests s A HA). lia. }
  destruct C as [|h C].
  { cbn in D. rewrite (proj2 (Z.eqb_eq _ _)) by (rewrite D; zlia). by wp_run. }
  cbn in HC, D. rewrite (proj2 (Z.eqb_neq _ _)) by (rewrite D; zlia).
  pose proof (U 0%nat h eq_refl) as Hh. rewrite Z.add_0_r in Hh. unfold NUM. rewrite Hh. cbn [default].
  cbv [default id]. apply Forall_cons_1 in F as [F0 F]. rewrite F0. cbn [Z.eqb negb].
  wp_run. split; [done|]. split; [done|]. exists h, C. split; [done|].
  assert (∃ r, r ∈ A ∧ h = rq0 r ∧ rq_b r ∈ bdisk s) as (r & HrA & -> & Hrb).
  { apply busy_idx. rewrite <-HP. set_solver. }
  assert (fst (info_at s (rq0 r)) = rq_b r) as Ei.
  { destruct HA as (_ & _ & _ & _ & _ & _ & _ & Ch). rewrite Forall_forall in Ch.
    destruct (Ch r) as (_ & _ & _ & _ & E); [by apply list_elem_of_In|done]. }
  rewrite Ei. set (s' := set_used_idx _ _). split; [|split].
  - apply (reqs_ok_info s); try done. by destruct HA as (_ & _ & ? & _).
  - split; [done|]. split; [cbn; zlia|]. split; [cbn; rewrite D; zlia|]. split; [|exact F].
    intros k x Hk. cbn. rewrite <-(U (S k) x Hk). do 2 f_equal. zlia.
  - apply elem_of_Permutation in HrA as [A' EA]. rewrite (busy_perm s _ _ EA), busy_cons, decide_True in HP by done.
    rewrite <-Permutation_middle in HP. apply Permutation_cons_inv in HP.
    rewrite (busy_perm s' _ _ EA), busy_cons, decide_False by (cbn; set_solver). rewrite HP.
    symmetry. apply reflexive_eq, busy_ext. intros q Hq. cbn.
    apply (reqs_ok_perm _ _ _ EA) in HA as (_ & _ & _ & _ & _ & Nb & _). cbn in Nb.
    apply list.NoDup_cons in Nb as [Nb _]. assert (rq_b q ≠ rq_b r).
    { intros E. apply Nb. apply list_elem_of_fmap. by exists q. }
    set_solver.
Qed.

Lemma virtio_disk_intr_run s A C P st :
  vd_locked s = false → rok s A → used_ok s C → P ++ C ≡ₚ busy s A →
  wp (virtio_disk_intr st) (λ _ s', vd_locked s' = false ∧ rok s' A ∧ used_ok s' [] ∧ P ≡ₚ busy s' A) s.
Proof.
  intros Hlk HA HC HP. unfold virtio_disk_intr. wp_run. apply wp_acquire; [done|]. wp_run.
  assert (length C ≤ 8)%nat as Hl.
  { apply Permutation_length in HP. rewrite length_app in HP. pose proof (busy_length s A).
    pose proof (few_requests s A HA). lia. }
  eapply wp_mono.
  - eapply (wp_loop_turns (λ k _ s, vd_locked s = true ∧ rok s A ∧ ∃ C, length C = k ∧ used_ok s C ∧ P ++ C ≡ₚ busy s A)
      (length C) (λ _ s', vd_locked s' = true ∧ rok s' A ∧ used_ok s' [] ∧ P ≡ₚ busy s' A)).
    + unfold NUM. lia.
    + split; [done|]. split; [exact HA|]. exists C. done.
    + intros k [] s1 (Hk1 & HA1 & C1 & <- & HC1 & HP1). eapply wp_mono; [by eapply intr_turn_run|]. cbv beta.
      intros [[]|[]] s2 (_ & Hk2 & H2).
      * destruct H2 as (h & C' & -> & HA2 & HC2 & HP2). exists (length C'). split; [cbn; lia|].
        split; [congruence|]. split; [done|]. by exists C'.
      * destruct H2 as [-> ->]. rewrite app_nil_r in HP1. done.
  - intros [] s1 (Hk1 & HA1 & HC1 & HP1). apply wp_release; [done|]. done.
Qed.

(** *** Finishing a request *)

Lemma rw_finish_run s r A :
  vd_locked s = false → rok s (r :: A) →
  wp (rw_finish (rq_b r) (rq0 r)) (λ ok s', vd_locked s' = false ∧ used_same s s' ∧ bdisk s' = bdisk s ∧
    if ok : bool then rq_b r ∉ bdisk s ∧ rok s' A ∧ (∀ j, 0 ≤ j → j ≠ rq0 r → info_at s' j = info_at s j)
    else rok s' (r :: A) ∧ info s' = info s) s.
Proof.
  intros Hlk HA. pose proof HA as (L1 & L2 & L3 & N & F & Nb & Fr & Ch). unfold rw_finish, put_info. wp_run.
  apply wp_acquire; [done|]. wp_run. cbn [bdisk set_vlocked]. case_bool_decide as Hb.
  { wp_run. apply wp_release; [done|]. by wp_run. }
  apply Forall_cons_1 in Ch as [(D0 & D1 & D2 & Ho & Hi) Ch]. cbn in N, F, Fr.
  pose proof F as (R0 & (R1 & (R2 & F')%Forall_cons_1)%Forall_cons_1)%Forall_cons_1.
  wp_run. eapply wp_mono.
  { eapply free_chain_run; [exact Fr|exact N|done|done|done|exact D0|exact D1|exact D2|try done..].
    by destruct (rq_write r). }
  cbv beta. intros [] s1 [Hf (l & m & -> & Hl & Hd)]. wp_run. apply wp_release; [done|]. wp_run.
  assert (∀ j, 0 ≤ j → j ≠ rq0 r → info_at (set_info (<[Z.to_nat (rq0 r) := (0, snd (info_at s (rq0 r)))]> (info s)) s) j
    = info_at s j) as Hinfo.
  { intros j Hj Hne. unfold info_at. cbn. by rewrite list_lookup_insert_ne by lia. }
  split; [done|]. split; [done|]. split; [done|]. split; [done|]. split; [|exact Hinfo].
  apply list.NoDup_cons in N as [N0 N]. apply list.NoDup_cons in N as [N1 N]. apply list.NoDup_cons in N as [N2 N].
  cbn in Nb. apply list.NoDup_cons in Nb as [_ Nb]. split_and!; try done; [cbn; by rewrite Hl|cbn; by rewrite length_insert|].
  apply Forall_forall. intros q Hq%list_elem_of_In. rewrite Forall_forall in Ch.
  assert (∀ j, j ∈ idxs q → 0 ≤ j ∧ j ∈ A ≫= idxs) as Hj.
  { intros j Hjq. assert (j ∈ A ≫= idxs) as HjA by (apply list_elem_of_bind; eauto). split; [|done].
    rewrite Forall_forall in F'. apply (F' j). by apply list_elem_of_In. }
  apply (chain_frame s); [by apply Ch, list_elem_of_In|intros j Hjq; apply Hd; by apply Hj|done|].
  assert (rq0 q ∈ A ≫= idxs) as Hq0 by by apply head_idx.
  apply (f_equal fst (Hinfo (rq0 q) ltac:(apply Hj; unfold idxs; set_solver) ltac:(
    intros E; apply N0; rewrite E in Hq0; set_solver))).
Qed.

(** *** Every event keeps the invariant *)

(** Each event keeps the invariant. *)
Lemma rw_start_inv b n w y : vok y → wp (run_vev ops_addr status_addr (EStart b n w)) (λ _, vok) y.
Proof.
  intros (A & C & Hlk & HA & HC & Ha & HP). unfold run_vev, inv_. wp_run.
  assert (∀ h, h ∈ C → h ∈ busy (vs y) A) as HCb by (intros h Hh; rewrite <-HP; set_solver).
  case_decide as Hb; [wp_run; by exists A, C|]. wp_run. apply wp_zoom. eapply wp_mono.
  { apply (rw_start_run _ A); [done|done|]. intros H. apply Hb. rewrite Ha.
    apply list_elem_of_fmap in H as (r & -> & Hr). apply list_elem_of_fmap. exists (rq_b r, rq0 r).
    split; [done|]. apply list_elem_of_fmap. by exists r. }
  cbv beta. intros [h|] s' (Hk & Hu & H); wp_run.
  - destruct H as (i1 & i2 & HA' & Hbd & Hi). exists (mkRq b n w h i1 i2 :: A), C. cbn.
    split; [done|]. split; [done|]. split; [|split].
    + apply (used_ok_frame (vs y)); [done|done|]. intros x Hx. apply Hi.
      apply HCb, busy_idx in Hx as (r & Hr & -> & _). by apply head_idx.
    + rewrite Ha. by rewrite Permutation_app_comm.
    + rewrite busy_cons, decide_True by (cbn; rewrite Hbd; set_solver). cbn.
      rewrite (busy_ext (vs y)), <-HP; [rewrite <-app_assoc; symmetry; apply Permutation_middle|].
      intros r Hr. rewrite Hbd. assert (rq_b r ≠ b); [|set_solver].
      destruct HA' as (_ & _ & _ & _ & _ & Nb & _). cbn in Nb. apply list.NoDup_cons in Nb as [Nb _].
      intros <-. apply Nb. apply list_elem_of_fmap. by exists r.
  - destruct H as (HA' & Hi & Hbd). exists A, C. cbn. split_and!; try done.
    + apply (used_ok_frame (vs y)); [done|done|]. intros x _. unfold info_at. by rewrite Hi.
    + rewrite HP. unfold busy. by rewrite Hbd.
Qed.

Lemma device_inv k y : vok y → wp (run_vev ops_addr status_addr (EDevice k)) (λ _, vok) y.
Proof.
  intros (A & C & Hlk & HA & HC & Ha & HP). unfold run_vev, inv_. wp_run.
  assert (∀ h, h ∈ C → h ∈ busy (vs y) A) as HCb by (intros h Hh; rewrite <-HP; set_solver).
  destruct (pend y !! k) as [h|] eqn:Ek; wp_run; [|by exists A, C].
  exists A, (C ++ [h]). cbn. pose proof HA as (_ & _ & Li & _ & F & _).
  assert (pend y ≡ₚ h :: delete k (pend y)) as Pk by by apply delete_Permutation.
  assert (h ∈ busy (vs y) A) as Hh by (rewrite <-HP, Pk; set_solver).
  split; [done|]. split; [|split; [|split]].
  - apply (reqs_ok_info (vs y)); try done; [cbn; by rewrite length_insert|]. intros r _. apply device_info.
  - apply busy_idx in Hh as (r & Hr%head_idx & -> & _). apply used_ok_device; [done| |done|].
    + pose proof (Permutation_length HP) as E. rewrite length_app, Pk in E. cbn in E.
      pose proof (busy_length (vs y) A). pose proof (few_requests _ _ HA). lia.
    + rewrite Forall_forall in F. apply F. by apply list_elem_of_In.
  - done.
  - change (busy (device_complete h (vs y)) A) with (busy (vs y) A). rewrite <-HP.
    rewrite (Permutation_app_tail C Pk), app_assoc, Permutation_app_comm. done.
Qed.

Lemma intr_inv st y : vok y → wp (run_vev ops_addr status_addr (EIntr st)) (λ _, vok) y.
Proof.
  intros (A & C & Hlk & HA & HC & Ha & HP). unfold run_vev, inv_. wp_run.
  assert (∀ h, h ∈ C → h ∈ busy (vs y) A) as HCb by (intros h Hh; rewrite <-HP; set_solver).
  apply wp_zoom. eapply wp_mono; [by eapply virtio_disk_intr_run|]. cbv beta.
  intros [] s' (Hk & HA' & HC' & HP'). exists A, []. cbn. rewrite app_nil_r. done.
Qed.

Lemma wake_inv k y : vok y → wp (run_vev ops_addr status_addr (EWake k)) (λ _, vok) y.
Proof.
  intros (A & C & Hlk & HA & HC & Ha & HP). unfold run_vev, inv_. wp_run.
  assert (∀ h, h ∈ C → h ∈ busy (vs y) A) as HCb by (intros h Hh; rewrite <-HP; set_solver).
  destruct (acts y !! k) as [[b h]|] eqn:Ek; [|wp_run; by exists A, C].
  pose proof (Permutation_trans (symmetry Ha) (delete_Permutation _ _ _ Ek)) as Pk.
  assert ((b, h) ∈ (λ r, (rq_b r, rq0 r)) <$> A) as (r & Er & Hr)%list_elem_of_fmap by (rewrite Pk; set_solver).
  injection Er as -> ->. apply elem_of_Permutation in Hr as [A' EA]. apply (reqs_ok_perm _ _ _ EA) in HA.
  rewrite EA in Pk, Ha. rewrite (busy_perm _ _ _ EA) in HP. cbn in Pk. apply Permutation_cons_inv in Pk.
  wp_run. apply wp_zoom. eapply wp_mono; [by apply rw_finish_run|]. cbv beta. intros [] s' (Hk & Hu & Hbd & H); wp_run.
  - destruct H as (Hnb & HA' & Hi). rewrite busy_cons, decide_False in HP by done. exists A', C. cbn.
    split; [done|]. split; [done|]. split; [|split; [done|rewrite HP; apply reflexive_eq; symmetry; apply busy_ext; by rewrite Hbd]].
    apply (used_ok_frame (vs y)); [done|done|]. intros x Hx.
    assert (x ∈ busy (vs y) A') as (q & Hq & -> & _)%busy_idx by (rewrite <-HP; set_solver).
    destruct HA as (_ & _ & _ & N & F & _). cbn in N, F. apply list.NoDup_cons in N as [N0 _].
    apply head_idx in Hq. apply Hi; [|intros E; apply N0; rewrite <-E; set_solver].
    rewrite Forall_forall in F. apply (F (rq0 q)). apply list_elem_of_In. set_solver.
  - destruct H as [HA' Hi]. exists (r :: A'), C. cbn. split_and!; try done.
    + apply (used_ok_frame (vs y)); [done|done|]. intros x _. unfold info_at. by rewrite Hi.
    + rewrite HP. unfold busy. by rewrite Hbd.
Qed.

Lemma run_vevs_inv es y : vok y → wp (run_vevs ops_addr status_addr es) (λ _, vok) y.
Proof.
  revert y. induction es as [|e es IH]; intros y Hy; [done|]. cbn [run_vevs].
  apply (wp_seq _ _ (λ _, vok)); [|intros [] y' Hy'; by apply IH].
  destruct e; auto using rw_start_inv, device_inv, intr_inv, wake_inv.
Qed.

End safety.

(** *** The driver *)

Lemma virtio_disk_init_run ops_addr status_addr features max pages :
  NUM ≤ max →
  wp (virtio_disk_init 1953655158 1 2 1431127377 features max pages)
    (λ _ s, vinv ops_addr status_addr (mkVS s [] [])) disk0.
Proof.
  intros Hm. unfold virtio_disk_init. cbn [Z.eqb negb orb Pos.eqb]. wp_run.
  rewrite (proj2 (Z.eqb_neq _ _)), (proj2 (Z.ltb_ge _ _)) by (unfold NUM in *; lia).
  wp_run. unfold wp. cbn. exists [], []. cbn. split; [done|]. split; [|split; [|done]].
  - split_and!; try done; try constructor; try done. intros i Hi. rewrite bool_decide_true by apply not_elem_of_nil.
    unfold free_at. cbn. destruct (lookup_lt_is_Some_2 (replicate 8 true) (Z.to_nat i)) as [b Hb]; [cbn; lia|].
    change (default false (replicate 8 true !! Z.to_nat i) = true). rewrite Hb.
    apply lookup_replicate in Hb as [-> _]. done.
  - split_and!; done.
Qed.


