(* ===== verification/Proc.v ===== *)
(** * Processes: kernel/proc.c

    The process table with its locks, the CPU that runs the code, the memory of
    [Kalloc] and the layer of open files.  A process that gives up the CPU
    ([sched]) ends its piece of code with the state the scheduler leaves behind;
    where it continues is its saved context, and [scheduler_turn] resumes it
    there.  So a schedule is a sequence of pieces of code.

    [struct proc *] is 0 for the null pointer and [i + 1] for [&proc[i]].  What
    fork and exit need of open files and of the current directory is the
    interface [FileLayer], with its laws in [FileLayerOk]. *)

From stdpp Require Import base gmap list strings numbers.
From S2P Require Import UPrintf KPrintf.
From S2P Require Import Prelude Machine Riscv KString Kalloc Vm Spinlock.

Definition ROOTDEV : Z := 1.

(** ** The interface to open files *)

(** Open files and inodes are named by their addresses. *)
Class FileLayer (F : Type) := {
  fl_filedup : Z → M F Z;
  fl_fileclose : Z → M F unit;
  fl_idup : Z → M F Z;
  fl_begin_op : M F unit;
  fl_iput : Z → M F unit;
  fl_end_op : M F unit;
  fl_root : M F Z;          (* namei of the root directory *)
  fl_fsinit : Z → M F unit;
}.

(** The invariant [fl_inv] counts the references: [fs] to open files, [ds] to
    inodes; the counters are [int]s, so there is a bound on them, well above
    NPROC * NOFILE.  Giving up the current directory is a transaction of its own. *)
Class FileLayerOk (F : Type) `{FileLayer F} := {
  fl_inv : F → list Z → list Z → Prop;
  fl_inv_perm : ∀ f fs ds fs' ds', fl_inv f fs ds → fs ≡ₚ fs' → ds ≡ₚ ds' → fl_inv f fs' ds';
  fl_filedup_ok : ∀ f x fs ds, x ∈ fs → (length fs < 2048)%nat → fl_inv f fs ds →
    wp (fl_filedup x) (λ r f', r = x ∧ fl_inv f' (x :: fs) ds) f;
  fl_fileclose_ok : ∀ f x fs ds, fl_inv f (x :: fs) ds → wp (fl_fileclose x) (λ _ f', fl_inv f' fs ds) f;
  fl_idup_ok : ∀ f x fs ds, x ∈ ds → (length ds < 2048)%nat → fl_inv f fs ds →
    wp (fl_idup x) (λ r f', r = x ∧ fl_inv f' fs (x :: ds)) f;
  fl_iput_ok : ∀ f x fs ds, fl_inv f fs (x :: ds) →
    wp (fl_begin_op ;; fl_iput x ;; fl_end_op) (λ _ f', fl_inv f' fs ds) f;
}.

(** ** Data *)

Inductive procstate := UNUSED | USED | SLEEPING | RUNNABLE | RUNNING | ZOMBIE.
#[global] Instance procstate_eq_dec : EqDecision procstate.
Proof. solve_decision. Defined.

(** The lock given to [sleep]: [wait_lock], or a lock of another component. *)
Inductive lockid := LWait | LOther (a : Z).

(** The saved context of a process: where it gave up the CPU, with the local
    [intena] of [sched]. *)
Inductive context :=
| AtForkret
| InSleep (lk : lockid) (intena : bool)
| InYield (intena : bool)
| InExit.

Record proc := mkProc {
  p_locked : bool;        (* p->lock *)
  p_state : procstate;
  p_chan : Z;             (* if non-zero, sleeping on chan *)
  p_killed : Z;
  p_xstate : Z;
  p_pid : Z;
  p_parent : Z;
  p_kstack : Z;
  p_sz : Z;
  p_pagetable : Z;
  p_trapframe : Z;
  p_context : context;
  p_ofile : list Z;
  p_cwd : Z;
  p_name : list Z;
}.

Definition set_p_locked (x : bool) (p : proc) : proc :=
  mkProc x (p_state p) (p_chan p) (p_killed p) (p_xstate p) (p_pid p) (p_parent p) (p_kstack p) (p_sz p) (p_pagetable p) (p_trapframe p) (p_context p) (p_ofile p) (p_cwd p) (p_name p).
Definition set_p_state (x : procstate) (p : proc) : proc :=
  mkProc (p_locked p) x (p_chan p) (p_killed p) (p_xstate p) (p_pid p) (p_parent p) (p_kstack p) (p_sz p) (p_pagetable p) (p_trapframe p) (p_context p) (p_ofile p) (p_cwd p) (p_name p).
Definition set_p_chan (x : Z) (p : proc) : proc :=
  mkProc (p_locked p) (p_state p) x (p_killed p) (p_xstate p) (p_pid p) (p_parent p) (p_kstack p) (p_sz p) (p_pagetable p) (p_trapframe p) (p_context p) (p_ofile p) (p_cwd p) (p_name p).
Definition set_p_killed (x : Z) (p : proc) : proc :=
  mkProc (p_locked p) (p_state p) (p_chan p) x (p_xstate p) (p_pid p) (p_parent p) (p_kstack p) (p_sz p) (p_pagetable p) (p_trapframe p) (p_context p) (p_ofile p) (p_cwd p) (p_name p).
Definition set_p_xstate (x : Z) (p : proc) : proc :=
  mkProc (p_locked p) (p_state p) (p_chan p) (p_killed p) x (p_pid p) (p_parent p) (p_kstack p) (p_sz p) (p_pagetable p) (p_trapframe p) (p_context p) (p_ofile p) (p_cwd p) (p_name p).
Definition set_p_pid (x : Z) (p : proc) : proc :=
  mkProc (p_locked p) (p_state p) (p_chan p) (p_killed p) (p_xstate p) x (p_parent p) (p_kstack p) (p_sz p) (p_pagetable p) (p_trapframe p) (p_context p) (p_ofile p) (p_cwd p) (p_name p).
Definition set_p_parent (x : Z) (p : proc) : proc :=
  mkProc (p_locked p) (p_state p) (p_chan p) (p_killed p) (p_xstate p) (p_pid p) x (p_kstack p) (p_sz p) (p_pagetable p) (p_trapframe p) (p_context p) (p_ofile p) (p_cwd p) (p_name p).
Definition set_p_kstack (x : Z) (p : proc) : proc :=
  mkProc (p_locked p) (p_state p) (p_chan p) (p_killed p) (p_xstate p) (p_pid p) (p_parent p) x (p_sz p) (p_pagetable p) (p_trapframe p) (p_context p) (p_ofile p) (p_cwd p) (p_name p).
Definition set_p_sz (x : Z) (p : proc) : proc :=
  mkProc (p_locked p) (p_state p) (p_chan p) (p_killed p) (p_xstate p) (p_pid p) (p_parent p) (p_kstack p) x (p_pagetable p) (p_trapframe p) (p_context p) (p_ofile p) (p_cwd p) (p_name p).
Definition set_p_pagetable (x : Z) (p : proc) : proc :=
  mkProc (p_locked p) (p_state p) (p_chan p) (p_killed p) (p_xstate p) (p_pid p) (p_parent p) (p_kstack p) (p_sz p) x (p_trapframe p) (p_context p) (p_ofile p) (p_cwd p) (p_name p).
Definition set_p_trapframe (x : Z) (p : proc) : proc :=
  mkProc (p_locked p) (p_state p) (p_chan p) (p_killed p) (p_xstate p) (p_pid p) (p_parent p) (p_kstack p) (p_sz p) (p_pagetable p) x (p_context p) (p_ofile p) (p_cwd p) (p_name p).
Definition set_p_context (x : context) (p : proc) : proc :=
  mkProc (p_locked p) (p_state p) (p_chan p) (p_killed p) (p_xstate p) (p_pid p) (p_parent p) (p_kstack p) (p_sz p) (p_pagetable p) (p_trapframe p) x (p_ofile p) (p_cwd p) (p_name p).
Definition set_p_ofile (x : list Z) (p : proc) : proc :=
  mkProc (p_locked p) (p_state p) (p_chan p) (p_killed p) (p_xstate p) (p_pid p) (p_parent p) (p_kstack p) (p_sz p) (p_pagetable p) (p_trapframe p) (p_context p) x (p_cwd p) (p_name p).
Definition set_p_cwd (x : Z) (p : proc) : proc :=
  mkProc (p_locked p) (p_state p) (p_chan p) (p_killed p) (p_xstate p) (p_pid p) (p_parent p) (p_kstack p) (p_sz p) (p_pagetable p) (p_trapframe p) (p_context p) (p_ofile p) x (p_name p).
Definition set_p_name (x : list Z) (p : proc) : proc :=
  mkProc (p_locked p) (p_state p) (p_chan p) (p_killed p) (p_xstate p) (p_pid p) (p_parent p) (p_kstack p) (p_sz p) (p_pagetable p) (p_trapframe p) (p_context p) (p_ofile p) (p_cwd p) x.

(** A slot of the table as the kernel starts: all zero. *)
Definition proc0 : proc :=
  mkProc false UNUSED 0 0 0 0 0 0 0 0 0 InExit (replicate 16 0) 0 (replicate 16 0).

(** Addresses the linker chooses in the kernel's data: [initcode], and the
    field [xstate] of each process. *)
Class ProcLayout := { initcode_at : Z; xstate_at : nat → Z }.

Section proc.
Context `{Layout} `{ProcLayout} {F : Type} `{FileLayer F}.

Record pst := mkP {
  procs : list proc;       (* proc[NPROC] *)
  initproc : Z;
  nextpid : Z;
  pid_locked : bool;       (* pid_lock *)
  wait_locked : bool;      (* wait_lock *)
  olocks : gset Z;         (* the locks of other components that are held *)
  c_proc : Z;              (* mycpu()->proc *)
  c_cpu : cpu;             (* the rest of mycpu(), and the interrupt flag *)
  first : bool;            (* the static variable of forkret *)
  km : kst;
  fl : F;
}.

Definition set_procs (x : list proc) (s : pst) : pst :=
  mkP x (initproc s) (nextpid s) (pid_locked s) (wait_locked s) (olocks s) (c_proc s) (c_cpu s) (first s) (km s) (fl s).
Definition set_initproc (x : Z) (s : pst) : pst :=
  mkP (procs s) x (nextpid s) (pid_locked s) (wait_locked s) (olocks s) (c_proc s) (c_cpu s) (first s) (km s) (fl s).
Definition set_nextpid (x : Z) (s : pst) : pst :=
  mkP (procs s) (initproc s) x (pid_locked s) (wait_locked s) (olocks s) (c_proc s) (c_cpu s) (first s) (km s) (fl s).
Definition set_pid_locked (x : bool) (s : pst) : pst :=
  mkP (procs s) (initproc s) (nextpid s) x (wait_locked s) (olocks s) (c_proc s) (c_cpu s) (first s) (km s) (fl s).
Definition set_wait_locked (x : bool) (s : pst) : pst :=
  mkP (procs s) (initproc s) (nextpid s) (pid_locked s) x (olocks s) (c_proc s) (c_cpu s) (first s) (km s) (fl s).
Definition set_olocks (x : gset Z) (s : pst) : pst :=
  mkP (procs s) (initproc s) (nextpid s) (pid_locked s) (wait_locked s) x (c_proc s) (c_cpu s) (first s) (km s) (fl s).
Definition set_c_proc (x : Z) (s : pst) : pst :=
  mkP (procs s) (initproc s) (nextpid s) (pid_locked s) (wait_locked s) (olocks s) x (c_cpu s) (first s) (km s) (fl s).
Definition set_c_cpu (x : cpu) (s : pst) : pst :=
  mkP (procs s) (initproc s) (nextpid s) (pid_locked s) (wait_locked s) (olocks s) (c_proc s) x (first s) (km s) (fl s).
Definition set_first (x : bool) (s : pst) : pst :=
  mkP (procs s) (initproc s) (nextpid s) (pid_locked s) (wait_locked s) (olocks s) (c_proc s) (c_cpu s) x (km s) (fl s).
Definition set_km (x : kst) (s : pst) : pst :=
  mkP (procs s) (initproc s) (nextpid s) (pid_locked s) (wait_locked s) (olocks s) (c_proc s) (c_cpu s) (first s) x (fl s).
Definition set_fl (x : F) (s : pst) : pst :=
  mkP (procs s) (initproc s) (nextpid s) (pid_locked s) (wait_locked s) (olocks s) (c_proc s) (c_cpu s) (first s) (km s) x.

Definition ink {A} (m : M kst A) : M pst A := zoom km set_km m.
Definition infl {A} (m : M F A) : M pst A := zoom fl set_fl m.

(** ** Access to the table *)

Definition pptr (i : nat) : Z := Z.of_nat i + 1.
Definition pslot (p : Z) : nat := Z.to_nat (p - 1).
Definition proc_at (s : pst) (i : nat) : proc := default proc0 (procs s !! i).
Definition upd (i : nat) (f : proc → proc) (s : pst) : pst := set_procs (alter f i (procs s)) s.
Definition set_proc (i : nat) (f : proc → proc) : M pst unit := modify (upd i f).
Definition get_proc (i : nat) : M pst proc := gets (λ s, proc_at s i).

(** ** Locks, with the interrupt state of the CPU *)

Definition intr_push : M pst unit := modify (λ s, set_c_cpu (push_off (c_cpu s)) s).
Definition intr_pop : M pst unit :=
  s <- get ;;
  match pop_off (c_cpu s) with
  | inl c => modify (set_c_cpu c)
  | inr msg => panic msg
  end.
Definition spin_acquire (locked : pst → bool) (set : bool → pst → pst) : M pst unit :=
  intr_push ;; acquire locked set.
Definition spin_release (locked : pst → bool) (set : bool → pst → pst) : M pst unit :=
  release locked set ;; intr_pop.

Definition lock_proc (i : nat) : M pst unit :=
  spin_acquire (λ s, p_locked (proc_at s i)) (λ b, upd i (set_p_locked b)).
Definition unlock_proc (i : nat) : M pst unit :=
  spin_release (λ s, p_locked (proc_at s i)) (λ b, upd i (set_p_locked b)).
Definition lock_wait : M pst unit := spin_acquire wait_locked set_wait_locked.
Definition unlock_wait : M pst unit := spin_release wait_locked set_wait_locked.
Definition other_locked (a : Z) (s : pst) : bool := bool_decide (a ∈ olocks s).
Definition set_other_locked (a : Z) (b : bool) (s : pst) : pst :=
  set_olocks (if b then {[a]} ∪ olocks s else olocks s ∖ {[a]}) s.
Definition lock_lk (lk : lockid) : M pst unit :=
  match lk with
  | LWait => lock_wait
  | LOther a => spin_acquire (other_locked a) (set_other_locked a)
  end.
Definition unlock_lk (lk : lockid) : M pst unit :=
  match lk with
  | LWait => unlock_wait
  | LOther a => spin_release (other_locked a) (set_other_locked a)
  end.

(** ** Operations *)

Definition procinit : M pst unit :=
  modify (set_pid_locked false) ;;
  modify (set_wait_locked false) ;;
  for_loop (Z.to_nat NPROC) 0 (λ i,
    set_proc (Z.to_nat i) (λ p, set_p_kstack (KSTACK i) (set_p_locked false p))).

Definition myproc : M pst Z := intr_push ;; p <- gets c_proc ;; intr_pop ;; ret p.

Definition allocpid : M pst Z :=
  spin_acquire pid_locked set_pid_locked ;;
  pid <- gets nextpid ;;
  modify (set_nextpid (i32 (pid + 1))) ;;
  spin_release pid_locked set_pid_locked ;;
  ret pid.

(** [proc_pagetable] of a process with the trapframe page [tf]. *)
Definition proc_pagetable (tf : Z) : M kst Z :=
  pagetable <- uvmcreate ;;
  if pagetable =? 0 then ret 0
  else
    r <- mappages pagetable TRAMPOLINE PGSIZE trampoline (Z.lor PTE_R PTE_X) ;;
    if r <? 0 then uvmfree pagetable 0 ;; ret 0
    else
      r <- mappages pagetable TRAPFRAME PGSIZE tf (Z.lor PTE_R PTE_W) ;;
      if r <? 0 then
        uvmunmap pagetable TRAMPOLINE 1 false ;;
        uvmfree pagetable 0 ;;
        ret 0
      else ret pagetable.

Definition proc_freepagetable (pagetable sz : Z) : M kst unit :=
  uvmunmap pagetable TRAMPOLINE 1 false ;;
  uvmunmap pagetable TRAPFRAME 1 false ;;
  uvmfree pagetable sz.

Definition freeproc (i : nat) : M pst unit :=
  p <- get_proc i ;;
  (if truthy (p_trapframe p) then ink (kfree (p_trapframe p)) else ret tt) ;;
  set_proc i (set_p_trapframe 0) ;;
  (if truthy (p_pagetable p) then ink (proc_freepagetable (p_pagetable p) (p_sz p)) else ret tt) ;;
  set_proc i (set_p_pagetable 0) ;;
  set_proc i (set_p_sz 0) ;;
  set_proc i (set_p_pid 0) ;;
  set_proc i (set_p_parent 0) ;;
  set_proc i (λ p, set_p_name (<[0%nat := 0]> (p_name p)) p) ;;
  set_proc i (set_p_chan 0) ;;
  set_proc i (set_p_killed 0) ;;
  set_proc i (set_p_xstate 0) ;;
  set_proc i (set_p_state UNUSED).

(** The search of [allocproc]: the slot of an UNUSED process, locked. *)
Definition find_unused : M pst (option nat) :=
  loop (S (Z.to_nat NPROC))
    (λ i : nat,
      if (Z.to_nat NPROC <=? i)%nat then ret (inr None)
      else
        lock_proc i ;;
        p <- get_proc i ;;
        if decide (p_state p = UNUSED) then ret (inr (Some i))
        else unlock_proc i ;; ret (inl (S i))) 0%nat.

Definition allocproc : M pst (option nat) :=
  r <- find_unused ;;
  match r with
  | None => ret None
  | Some i =>
      pid <- allocpid ;;
      set_proc i (set_p_pid pid) ;;
      set_proc i (set_p_state USED) ;;
      tf <- ink kalloc ;;
      set_proc i (set_p_trapframe tf) ;;
      if tf =? 0 then freeproc i ;; unlock_proc i ;; ret None
      else
        pt <- ink (proc_pagetable tf) ;;
        set_proc i (set_p_pagetable pt) ;;
        if pt =? 0 then freeproc i ;; unlock_proc i ;; ret None
        else
          set_proc i (set_p_context AtForkret) ;;
          ret (Some i)
  end.

(** [safestrcpy] into a [char] array of 16. *)
Fixpoint name_prefix (n : nat) (l : list Z) : list Z :=
  match n, l with
  | S n', c :: l' => if c =? 0 then [] else c :: name_prefix n' l'
  | _, _ => []
  end.
Definition copy_name (dst src : list Z) : list Z :=
  let t := name_prefix 15 src in
  t ++ 0 :: drop (S (length t)) dst.

Definition TF_epc : Z := 24.
Definition TF_sp : Z := 48.
Definition TF_a0 : Z := 112.
Definition TF_size : Z := 288.

Definition userinit : M pst unit :=
  r <- allocproc ;;
  match r with
  | None => undefined   (* p is null *)
  | Some i =>
      modify (set_initproc (pptr i)) ;;
      p <- get_proc i ;;
      (* one user page with init's instructions and data *)
      ink (uvminit (p_pagetable p) initcode_at 52) ;;
      set_proc i (set_p_sz PGSIZE) ;;
      ink (kstore64 (p_trapframe p + TF_epc) 0) ;;
      ink (kstore64 (p_trapframe p + TF_sp) PGSIZE) ;;
      set_proc i (λ p, set_p_name (copy_name (p_name p) [105; 110; 105; 116; 99; 111; 100; 101; 0]) p) ;;
      d <- infl fl_root ;;
      set_proc i (set_p_cwd d) ;;
      set_proc i (set_p_state RUNNABLE) ;;
      unlock_proc i
  end.

(** Grow or shrink user memory by [n] bytes; [sz] is a [uint]. *)
Definition growproc (n : Z) : M pst Z :=
  me <- myproc ;;
  p <- get_proc (pslot me) ;;
  let sz := u32 (p_sz p) in
  if 0 <? n then
    r <- ink (uvmalloc (p_pagetable p) sz (u32 (sz + n))) ;;
    let sz := u32 r in
    if sz =? 0 then ret (-1) else set_proc (pslot me) (set_p_sz sz) ;; ret 0
  else if n <? 0 then
    r <- ink (uvmdealloc (p_pagetable p) sz (u32 (sz + n))) ;;
    set_proc (pslot me) (set_p_sz (u32 r)) ;; ret 0
  else set_proc (pslot me) (set_p_sz sz) ;; ret 0.

(** The loop of [fork] over the open files. *)
Definition fork_files (i np : nat) : M pst unit :=
  for_loop (Z.to_nat NOFILE) 0 (λ fd,
    p <- get_proc i ;;
    let f := default 0 (p_ofile p !! Z.to_nat fd) in
    if truthy f then
      f' <- infl (fl_filedup f) ;;
      set_proc np (λ q, set_p_ofile (<[Z.to_nat fd := f']> (p_ofile q)) q)
    else ret tt).

Definition fork : M pst Z :=
  me <- myproc ;;
  let i := pslot me in
  r <- allocproc ;;
  match r with
  | None => ret (-1)
  | Some np =>
      p <- get_proc i ;;
      q <- get_proc np ;;
      r <- ink (uvmcopy (p_pagetable p) (p_pagetable q) (p_sz p)) ;;
      if r <? 0 then freeproc np ;; unlock_proc np ;; ret (-1)
      else
        set_proc np (set_p_sz (p_sz p)) ;;
        (* copy saved user registers. *)
        ink (kmemmove (p_trapframe q) (p_trapframe p) TF_size) ;;
        (* cause fork to return 0 in the child. *)
        ink (kstore64 (p_trapframe q + TF_a0) 0) ;;
        fork_files i np ;;
        d <- infl (fl_idup (p_cwd p)) ;;
        set_proc np (set_p_cwd d) ;;
        set_proc np (λ q, set_p_name (copy_name (p_name q) (p_name p)) q) ;;
        q <- get_proc np ;;
        let pid := p_pid q in
        unlock_proc np ;;
        lock_wait ;;
        set_proc np (set_p_parent me) ;;
        unlock_wait ;;
        lock_proc np ;;
        set_proc np (set_p_state RUNNABLE) ;;
        unlock_proc np ;;
        ret pid
  end.

(** Wake up all processes sleeping on [chan]. *)
Definition wakeup (chan : Z) : M pst unit :=
  for_loop (Z.to_nat NPROC) 0 (λ k,
    let i := Z.to_nat k in
    me <- myproc ;;
    if negb (pptr i =? me) then
      lock_proc i ;;
      p <- get_proc i ;;
      (if bool_decide (p_state p = SLEEPING) && (p_chan p =? chan) then set_proc i (set_p_state RUNNABLE)
       else ret tt) ;;
      unlock_proc i
    else ret tt).

(** Pass [me]'s abandoned children to init. *)
Definition reparent (me : Z) : M pst unit :=
  for_loop (Z.to_nat NPROC) 0 (λ k,
    let i := Z.to_nat k in
    p <- get_proc i ;;
    if p_parent p =? me then
      ip <- gets initproc ;;
      set_proc i (set_p_parent ip) ;;
      wakeup ip
    else ret tt).

(** [sched]: its checks, then the switch to the scheduler, which clears
    [c->proc] and releases the lock of the process.  [ctx] is where the process
    will continue, given the [intena] that it saves. *)
Definition sched (ctx : bool → context) : M pst unit :=
  me <- myproc ;;
  let i := pslot me in
  p <- get_proc i ;;
  if negb (p_locked p) then panic "sched p->lock"
  else
    c <- gets c_cpu ;;
    if negb (c_noff c =? 1) then panic "sched locks"
    else if decide (p_state p = RUNNING) then panic "sched running"
    else if c_intr c then panic "sched interruptible"
    else
      set_proc i (set_p_context (ctx (c_intena c))) ;;
      modify (set_c_proc 0) ;;
      unlock_proc i.

(** The loop of [exit] over the open files. *)
Definition exit_files (i : nat) : M pst unit :=
  for_loop (Z.to_nat NOFILE) 0 (λ fd,
    p <- get_proc i ;;
    let f := default 0 (p_ofile p !! Z.to_nat fd) in
    if truthy f then
      infl (fl_fileclose f) ;;
      set_proc i (λ p, set_p_ofile (<[Z.to_nat fd := 0]> (p_ofile p)) p)
    else ret tt).

(** The current process exits; the scheduler never resumes it. *)
Definition exit (status : Z) : M pst unit :=
  me <- myproc ;;
  let i := pslot me in
  ip <- gets initproc ;;
  if me =? ip then panic "init exiting"
  else
    exit_files i ;;
    p <- get_proc i ;;
    infl (fl_begin_op ;; fl_iput (p_cwd p) ;; fl_end_op) ;;
    set_proc i (set_p_cwd 0) ;;
    lock_wait ;;
    reparent me ;;
    p <- get_proc i ;;
    wakeup (p_parent p) ;;
    lock_proc i ;;
    set_proc i (set_p_xstate status) ;;
    set_proc i (set_p_state ZOMBIE) ;;
    unlock_wait ;;
    sched (λ _, InExit).

(** [sleep] up to the switch, and after the process is resumed. *)
Definition sleep (chan : Z) (lk : lockid) : M pst unit :=
  me <- myproc ;;
  let i := pslot me in
  lock_proc i ;;
  unlock_lk lk ;;
  set_proc i (set_p_chan chan) ;;
  set_proc i (set_p_state SLEEPING) ;;
  sched (InSleep lk).

(** The table scan of [wait], with the local [havekids]: the result, or whether
    there are children. *)
Definition wait_turn (me addr : Z) (l : nat * bool) : M pst (nat * bool + (Z + bool)) :=
  let '(i, havekids) := l in
  if (Z.to_nat NPROC <=? i)%nat then ret (inr (inr havekids))
  else
    np <- get_proc i ;;
    if p_parent np =? me then
      (* make sure the child isn't still in exit() or swtch(). *)
      lock_proc i ;;
      np <- get_proc i ;;
      if decide (p_state np = ZOMBIE) then
        let pid := p_pid np in
        p <- get_proc (pslot me) ;;
        r <- (if negb (addr =? 0) then
                ink (modify (λ k, set_mm (store32 (mm k) (xstate_at i) (p_xstate np)) k) ;;
                     copyout (p_pagetable p) addr (xstate_at i) 4)
              else ret 0) ;;
        if r <? 0 then
          unlock_proc i ;; unlock_wait ;; ret (inr (inl (-1)))
        else
          freeproc i ;; unlock_proc i ;; unlock_wait ;; ret (inr (inl pid))
      else unlock_proc i ;; ret (inl (S i, true))
    else ret (inl (S i, havekids)).

(** [wait] from a point where it holds [wait_lock]; [None] when it sleeps. *)
Definition wait_scan (addr : Z) : M pst (option Z) :=
  me <- myproc ;;
  r <- loop (S (Z.to_nat NPROC)) (wait_turn me addr) (0%nat, false) ;;
  match r with
  | inl pid => ret (Some pid)
  | inr havekids =>
      p <- get_proc (pslot me) ;;
      if negb havekids || truthy (p_killed p) then unlock_wait ;; ret (Some (-1))
      else sleep me LWait ;; ret None
  end.
Definition wait (addr : Z) : M pst (option Z) := lock_wait ;; wait_scan addr.

(** A fork child's very first scheduling; [usertrapret] follows. *)
Definition forkret : M pst unit :=
  me <- myproc ;;
  unlock_proc (pslot me) ;;
  b <- gets first ;;
  if b : bool then modify (set_first false) ;; infl (fl_fsinit ROOTDEV) else ret tt.

Definition set_intena (b : bool) : M pst unit :=
  modify (λ s, set_c_cpu (mkCpu (c_intr (c_cpu s)) (c_noff (c_cpu s)) b) s).

(** What a process does when the scheduler switches to it. *)
Definition resume (i : nat) (ctx : context) : M pst unit :=
  match ctx with
  | AtForkret => forkret
  | InSleep lk b =>
      set_intena b ;;
      set_proc i (set_p_chan 0) ;;
      unlock_proc i ;;
      lock_lk lk
  | InYield b => set_intena b ;; unlock_proc i
  | InExit => panic "zombie exit"
  end.

(** A turn of the inner loop of [scheduler]: process [i], if it is RUNNABLE, is
    switched to. *)
Definition scheduler_turn (i : nat) : M pst unit :=
  lock_proc i ;;
  p <- get_proc i ;;
  if decide (p_state p = RUNNABLE) then
    set_proc i (set_p_state RUNNING) ;;
    modify (set_c_proc (pptr i)) ;;
    resume i (p_context p)
  else unlock_proc i.

(** Give up the CPU for one scheduling round, up to the switch. *)
Definition yield : M pst unit :=
  me <- myproc ;;
  let i := pslot me in
  lock_proc i ;;
  set_proc i (set_p_state RUNNABLE) ;;
  sched InYield.

(** Kill the process with the given pid. *)
Definition kill (pid : Z) : M pst Z :=
  loop (S (Z.to_nat NPROC))
    (λ i : nat,
      if (Z.to_nat NPROC <=? i)%nat then ret (inr (-1))
      else
        lock_proc i ;;
        p <- get_proc i ;;
        if p_pid p =? pid then
          set_proc i (set_p_killed 1) ;;
          (if decide (p_state p = SLEEPING) then set_proc i (set_p_state RUNNABLE) else ret tt) ;;
          unlock_proc i ;;
          ret (inr 0)
        else unlock_proc i ;; ret (inl (S i))) 0%nat.

(** Copy to or from either a user address or a kernel address. *)
Definition either_copyout (user_dst : bool) (dst src len : Z) : M pst Z :=
  me <- myproc ;;
  p <- get_proc (pslot me) ;;
  if user_dst then ink (copyout (p_pagetable p) dst src len)
  else ink (kmemmove dst src len) ;; ret 0.
Definition either_copyin (dst : Z) (user_src : bool) (src len : Z) : M pst Z :=
  me <- myproc ;;
  p <- get_proc (pslot me) ;;
  if user_src then ink (copyin (p_pagetable p) dst src len)
  else ink (kmemmove dst src len) ;; ret 0.

End proc.

Arguments pst : clear implicits.

(** ** The process listing *)

Definition bytes (s : string) : list Z := (λ a, Z.of_nat (Ascii.nat_of_ascii a)) <$> String.list_ascii_of_string s.
(** The table [states], without an entry for USED. *)
Definition state_name (st : procstate) : list Z :=
  match st with
  | UNUSED => bytes "unused"
  | SLEEPING => bytes "sleep "
  | RUNNABLE => bytes "runble"
  | RUNNING => bytes "run   "
  | ZOMBIE => bytes "zombie"
  | USED => bytes "???"
  end.
Definition procdump (ps : list proc) : M KPrintf.prst unit :=
  KPrintf.printf (Some (bytes (String (Ascii.ascii_of_nat 10) ""))) [] ;;
  foldr (λ p k,
    (if decide (p_state p = UNUSED) then ret tt
     else
       KPrintf.printf (Some (bytes "%d %s %s"))
         [UPrintf.VNum (p_pid p); UPrintf.VStr (Some (state_name (p_state p))); UPrintf.VStr (Some (name_prefix 16 (p_name p)))] ;;
       KPrintf.printf (Some (bytes (String (Ascii.ascii_of_nat 10) ""))) []) ;; k) (ret tt) ps.
