(* ===== verification/Exec.v ===== *)
(** * Running a program: kernel/exec.c and kernel/elf.h

    [exec] builds a new address space from a file and replaces that of the current
    process.  What it needs of the file system besides [FileLayer] is the interface
    [ProgFiles]; the memory is that of [Proc].  The path is the characters of the
    string; the strings of [argv] are in the memory of the kernel, and so is the
    array [ustack], at an address on the kernel stack. *)

From stdpp Require Import base gmap list strings numbers.
From S2P Require Import Prelude Machine Riscv KString Kalloc Vm Block Spinlock Proc.

Definition MAXARG : Z := 32.

(** ** kernel/elf.h *)

Definition ELF_MAGIC : Z := 1179403647.
Definition ELF_PROG_LOAD : Z := 1.

Record elfhdr := mkElf {
  e_magic : Z;
  e_elf : list Z;
  e_type : Z;
  e_machine : Z;
  e_version : Z;
  e_entry : Z;
  e_phoff : Z;
  e_shoff : Z;
  e_flags : Z;
  e_ehsize : Z;
  e_phentsize : Z;
  e_phnum : Z;
  e_shentsize : Z;
  e_shnum : Z;
  e_shstrndx : Z;
}.
Record proghdr := mkPh {
  ph_type : Z;
  ph_flags : Z;
  ph_off : Z;
  ph_vaddr : Z;
  ph_paddr : Z;
  ph_filesz : Z;
  ph_memsz : Z;
  ph_align : Z;
}.
Definition sizeof_elfhdr : Z := 64.
Definition sizeof_proghdr : Z := 56.

(** The field of [n] bytes at [off], little endian. *)
Definition field (off n : nat) (l : list Z) : Z := le_val (take n (drop off l)).
Definition elf_of (l : list Z) : elfhdr :=
  mkElf (field 0 4 l) (take 12 (drop 4 l)) (field 16 2 l) (field 18 2 l) (field 20 4 l) (field 24 8 l)
        (field 32 8 l) (field 40 8 l) (field 48 4 l) (field 52 2 l) (field 54 2 l) (field 56 2 l)
        (field 58 2 l) (field 60 2 l) (field 62 2 l).
Definition ph_of (l : list Z) : proghdr :=
  mkPh (field 0 4 l) (field 4 4 l) (field 8 8 l) (field 16 8 l) (field 24 8 l) (field 32 8 l) (field 40 8 l) (field 48 8 l).

(** ** What exec uses of the file system *)

(** [pf_readi ip off n]: the bytes that [readi] copies to kernel memory. *)
Class ProgFiles (F : Type) := {
  pf_namei : list Z → M F Z;
  pf_ilock : Z → M F unit;
  pf_readi : Z → Z → Z → M F (list Z);
  pf_iunlockput : Z → M F unit;
}.

(** ** kernel/exec.c *)

Definition TF_a1 : Z := 120.

(** The bytes [l] go to memory at [a]. *)
Fixpoint poke (l : list Z) (a : Z) (m : mem) : mem :=
  match l with [] => m | b :: l' => poke l' (a + 1) (store8 m a b) end.
Definition kpoke (l : list Z) (a : Z) : M kst unit := λ s, OK tt (set_mm (poke l a (mm s)) s).

Section exec.
Context `{Layout} `{ProcLayout} {F : Type} `{FileLayer F} `{ProgFiles F}.
Notation pst := (pst F).
(** Where [ustack] is. *)
Context (ustack : Z).

(** [readi] to the kernel address [dst]. *)
Definition kreadi (ip dst off n : Z) : M pst Z :=
  l <- infl (pf_readi ip off n) ;;
  ink (kpoke l dst) ;;
  ret (Z.of_nat (length l)).

Definition loadseg_turn (pagetable va ip offset sz i : Z) : M pst (Z + Z) :=
  if i <? sz then
    pa <- ink (walkaddr pagetable (u64 (va + i))) ;;
    if pa =? 0 then panic "loadseg: address should exist"
    else
      let n := if u32 (sz - i) <? PGSIZE then u32 (sz - i) else PGSIZE in
      r <- kreadi ip pa (u32 (offset + i)) n ;;
      if negb (r =? n) then ret (inr (-1)) else ret (inl (u32 (i + PGSIZE)))
  else ret (inr 0).
Definition loadseg (pagetable va ip offset sz : Z) : M pst Z :=
  loop (S (S (Z.to_nat (sz / PGSIZE)))) (loadseg_turn pagetable va ip offset sz) 0.

(** [bad:] of [exec]; [ip] is 0 once the file is closed. *)
Definition exec_bad (pagetable sz ip : Z) : M pst Z :=
  (if truthy pagetable then ink (proc_freepagetable pagetable sz) else ret tt) ;;
  (if truthy ip then infl (pf_iunlockput ip ;; fl_end_op) else ret tt) ;;
  ret (-1).

(** A turn of the loop over the program headers, with the locals [i], [off] and
    [sz]; at its end, whether to go on, and [sz]. *)
Definition load_turn (pagetable ip phnum : Z) (l : Z * Z * Z) : M pst (Z * Z * Z + bool * Z) :=
  let '(i, off, sz) := l in
  if i <? phnum then
    b <- infl (pf_readi ip (u32 off) sizeof_proghdr) ;;
    if negb (Z.of_nat (length b) =? sizeof_proghdr) then ret (inr (false, sz))
    else
      let ph := ph_of b in
      if negb (ph_type ph =? ELF_PROG_LOAD) then ret (inl (i + 1, i32 (off + sizeof_proghdr), sz))
      else if ph_memsz ph <? ph_filesz ph then ret (inr (false, sz))
      else if u64 (ph_vaddr ph + ph_memsz ph) <? ph_vaddr ph then ret (inr (false, sz))
      else
        sz1 <- ink (uvmalloc pagetable sz (u64 (ph_vaddr ph + ph_memsz ph))) ;;
        if sz1 =? 0 then ret (inr (false, sz))
        else if negb (ph_vaddr ph mod PGSIZE =? 0) then ret (inr (false, sz1))
        else
          r <- loadseg pagetable (ph_vaddr ph) ip (u32 (ph_off ph)) (u32 (ph_filesz ph)) ;;
          if r <? 0 then ret (inr (false, sz1))
          else ret (inl (i + 1, i32 (off + sizeof_proghdr), sz1))
  else ret (inr (true, sz)).
Definition load_segments (pagetable ip : Z) (elf : elfhdr) : M pst (bool * Z) :=
  loop (S (Z.to_nat (e_phnum elf))) (load_turn pagetable ip (e_phnum elf)) (0, i32 (e_phoff elf), 0).

(** The arguments are strings of at most a page. *)
Definition kstrlen (a : Z) : M kst Z := zoom mm set_mm (strlen (S (Z.to_nat PGSIZE)) a).

(** A turn of the loop over the arguments, with the locals [argc] and [sp]; at its
    end both, or [None] for [goto bad]. *)
Definition push_turn (pagetable stackbase : Z) (argv : list Z) (l : Z * Z) : M pst (Z * Z + option (Z * Z)) :=
  let '(argc, sp) := l in
  match argv !! Z.to_nat argc with
  | None => undefined
  | Some a =>
      if truthy a then
        if MAXARG <=? argc then ret (inr None)
        else
          n <- ink (kstrlen a) ;;
          let sp := u64 (sp - (n + 1)) in
          let sp := u64 (sp - sp mod 16) in
          if sp <? stackbase then ret (inr None)
          else
            n <- ink (kstrlen a) ;;
            r <- ink (copyout pagetable sp a (n + 1)) ;;
            if r <? 0 then ret (inr None)
            else
              ink (kstore64 (ustack + 8 * argc) sp) ;;
              ret (inl (argc + 1, sp))
      else ret (inr (Some (argc, sp)))
  end.
(** The strings, then the array of pointers to them. *)
Definition push_args (pagetable sz : Z) (argv : list Z) : M pst (option (Z * Z)) :=
  let stackbase := u64 (sz - PGSIZE) in
  r <- loop (S (S (Z.to_nat MAXARG))) (push_turn pagetable stackbase argv) (0, sz) ;;
  match r with
  | None => ret None
  | Some (argc, sp) =>
      if MAXARG <=? argc then undefined
      else
        ink (kstore64 (ustack + 8 * argc) 0) ;;
        let sp := u64 (sp - (argc + 1) * 8) in
        let sp := u64 (sp - sp mod 16) in
        if sp <? stackbase then ret None
        else
          r <- ink (copyout pagetable sp ustack ((argc + 1) * 8)) ;;
          if r <? 0 then ret None else ret (Some (argc, sp))
  end.

(** What follows the last slash. *)
Fixpoint last_part (last s : list Z) : list Z :=
  match s with [] => last | c :: s' => if c =? 47 then last_part s' s' else last_part last s' end.

(** From [p->trapframe->a1 = sp] on. *)
Definition exec_commit (i : nat) (path : list Z) (pagetable sz entry sp argc oldsz : Z) : M pst Z :=
  p <- get_proc i ;;
  ink (kstore64 (p_trapframe p + TF_a1) sp) ;;
  set_proc i (λ p, set_p_name (copy_name (p_name p) (last_part path path ++ [0])) p) ;;
  let oldpagetable := p_pagetable p in
  set_proc i (set_p_pagetable pagetable) ;;
  set_proc i (set_p_sz sz) ;;
  ink (kstore64 (p_trapframe p + TF_epc) entry) ;;
  ink (kstore64 (p_trapframe p + TF_sp) sp) ;;
  ink (proc_freepagetable oldpagetable oldsz) ;;
  ret (i32 argc).

(** With the segments loaded and the file closed: the stack. *)
Definition exec_stack (path argv : list Z) (pagetable sz entry : Z) : M pst Z :=
  me <- myproc ;;
  p <- get_proc (pslot me) ;;
  let oldsz := p_sz p in
  let sz := PGROUNDUP sz in
  sz1 <- ink (uvmalloc pagetable sz (u64 (sz + 2 * PGSIZE))) ;;
  if sz1 =? 0 then exec_bad pagetable sz 0
  else
    let sz := sz1 in
    ink (uvmclear pagetable (u64 (sz - 2 * PGSIZE))) ;;
    r <- push_args pagetable sz argv ;;
    match r with
    | None => exec_bad pagetable sz 0
    | Some (argc, sp) => exec_commit (pslot me) path pagetable sz entry sp argc oldsz
    end.

Definition exec (path argv : list Z) : M pst Z :=
  me <- myproc ;;
  infl fl_begin_op ;;
  ip <- infl (pf_namei path) ;;
  if ip =? 0 then infl fl_end_op ;; ret (-1)
  else
    infl (pf_ilock ip) ;;
    b <- infl (pf_readi ip 0 sizeof_elfhdr) ;;
    if negb (Z.of_nat (length b) =? sizeof_elfhdr) then exec_bad 0 0 ip
    else
      let elf := elf_of b in
      if negb (e_magic elf =? ELF_MAGIC) then exec_bad 0 0 ip
      else
        p <- get_proc (pslot me) ;;
        pagetable <- ink (proc_pagetable (p_trapframe p)) ;;
        if pagetable =? 0 then exec_bad 0 0 ip
        else
          '(go, sz) <- load_segments pagetable ip elf ;;
          if negb (go : bool) then exec_bad pagetable sz ip
          else
            infl (pf_iunlockput ip ;; fl_end_op) ;;
            exec_stack path argv pagetable sz (e_entry elf).

End exec.
