(* ===== verification/Syscall.v ===== *)
(** * System calls of processes: kernel/syscall.c and kernel/sysproc.c

    Fetching arguments from the trapframe and from user memory, the calls of
    sysproc.c, [sys_exec], and the dispatch of [syscall].  A call that gives up
    the CPU ends its piece of code (see [Proc]) with [None]; it continues when the
    scheduler resumes the process.  The other calls of sysfile.c are in [SysFile];
    here they are the parameter [filecalls].  What [printf] writes to the console
    is not part of the state. *)

From stdpp Require Import base gmap list strings numbers.
From S2P Require Import Prelude Machine Riscv KString Kalloc Vm Block Spinlock Proc Exec.

(** kernel/syscall.h; the numbers of the other calls belong to [filecalls]. *)
Definition SYS_fork : Z := 1.
Definition SYS_exit : Z := 2.
Definition SYS_wait : Z := 3.
Definition SYS_kill : Z := 6.
Definition SYS_exec : Z := 7.
Definition SYS_getpid : Z := 11.
Definition SYS_sbrk : Z := 12.
Definition SYS_sleep : Z := 13.
Definition SYS_uptime : Z := 14.

Definition TF_a7 : Z := 168.

(** Addresses of locals on the kernel stack: [path] and [uarg] of [sys_exec], and
    [ustack] of [exec]; and of [tickslock] and [ticks] in the data of the kernel. *)
Class CallLayout := { path_at : Z; uarg_at : Z; ustack_at : Z; tickslock_at : Z; ticks_at : Z }.

Section syscall.
Context `{Layout} `{ProcLayout} {F : Type} `{FileLayer F} `{ProgFiles F} `{CallLayout}.
Notation pst := (pst F).

(** ** Arguments *)

(** Fetch the uint64 at [addr] of the current process into the kernel's [ip]. *)
Definition fetchaddr (addr ip : Z) : M pst Z :=
  me <- myproc ;;
  p <- get_proc (pslot me) ;;
  if (p_sz p <=? addr) || (p_sz p <? u64 (addr + 8)) then ret (-1)
  else
    r <- ink (copyin (p_pagetable p) ip addr 8) ;;
    if negb (r =? 0) then ret (-1) else ret 0.

(** Fetch the string at [addr] of the current process into [buf]: its length. *)
Definition fetchstr (addr buf max : Z) : M pst Z :=
  me <- myproc ;;
  p <- get_proc (pslot me) ;;
  err <- ink (copyinstr (p_pagetable p) buf addr max) ;;
  if err <? 0 then ret err else ink (kstrlen buf).

Definition argraw (n : Z) : M pst Z :=
  me <- myproc ;;
  p <- get_proc (pslot me) ;;
  if (0 <=? n) && (n <=? 5) then ink (kload64 (p_trapframe p + TF_a0 + 8 * n)) else panic "argraw".
Definition argint (n : Z) : M pst Z := x <- argraw n ;; ret (i32 x).
Definition argaddr (n : Z) : M pst Z := argraw n.
Definition argstr (n buf max : Z) : M pst Z := addr <- argaddr n ;; fetchstr addr buf max.

(** ** kernel/sysproc.c *)

Definition sys_exit : M pst (option Z) := n <- argint 0 ;; exit n ;; ret None.
Definition sys_getpid : M pst (option Z) := me <- myproc ;; p <- get_proc (pslot me) ;; ret (Some (p_pid p)).
Definition sys_fork : M pst (option Z) := r <- fork ;; ret (Some r).
Definition sys_wait : M pst (option Z) := p <- argaddr 0 ;; wait p.
Definition sys_sbrk : M pst (option Z) :=
  n <- argint 0 ;;
  me <- myproc ;;
  p <- get_proc (pslot me) ;;
  let addr := i32 (p_sz p) in
  r <- growproc n ;;
  if r <? 0 then ret (Some (-1)) else ret (Some addr).
Definition sys_kill : M pst (option Z) := pid <- argint 0 ;; r <- kill pid ;; ret (Some r).

(** ** sys_exec *)

(** The array [argv] of the kernel, with the pages that hold the strings. *)
Definition argv_turn (uargv : Z) (l : Z * list Z) : M pst (Z * list Z + bool * list Z) :=
  let '(i, argv) := l in
  if MAXARG <=? i then ret (inr (false, argv))
  else
    r <- fetchaddr (u64 (uargv + 8 * i)) uarg_at ;;
    if r <? 0 then ret (inr (false, argv))
    else
      uarg <- ink (kload64 uarg_at) ;;
      if uarg =? 0 then ret (inr (true, <[Z.to_nat i := 0]> argv))
      else
        a <- ink kalloc ;;
        let argv := <[Z.to_nat i := a]> argv in
        if a =? 0 then ret (inr (false, argv))
        else
          r <- fetchstr uarg a PGSIZE ;;
          if r <? 0 then ret (inr (false, argv)) else ret (inl (i + 1, argv)).
(** Free the strings, up to the null pointer. *)
Definition argv_free (argv : list Z) : M pst unit :=
  loop (S (Z.to_nat MAXARG))
    (λ i : Z,
      let a := default 0 (argv !! Z.to_nat i) in
      if (i <? MAXARG) && truthy a then ink (kfree a) ;; ret (inl (i + 1)) else ret (inr tt)) 0.
(** The characters of the string at [a]. *)
Definition kstring (a : Z) : M pst (list Z) :=
  n <- ink (kstrlen a) ;;
  gets (λ s, load_bytes (Z.to_nat n) (mm (km s)) a).
Definition sys_exec : M pst (option Z) :=
  r <- argstr 0 path_at MAXPATH ;;
  if r <? 0 then ret (Some (-1))
  else
    uargv <- argaddr 1 ;;
    '(go, argv) <- loop (S (S (Z.to_nat MAXARG))) (argv_turn uargv) (0, replicate (Z.to_nat MAXARG) 0) ;;
    if go : bool then
      path <- kstring path_at ;;
      r <- exec ustack_at path argv ;;
      argv_free argv ;;
      ret (Some r)
    else argv_free argv ;; ret (Some (-1)).

(** ** The clock *)

(** The kernel with its count of clock ticks, a [uint]. *)
Record kern := mkKern { kp : pst; ticks : Z }.
Definition set_kp (x : pst) (s : kern) : kern := mkKern x (ticks s).
Definition set_ticks (x : Z) (s : kern) : kern := mkKern (kp s) x.
Definition inp {A} (m : M pst A) : M kern A := zoom kp set_kp m.

(** [sys_sleep] from the test of its loop on, with [tickslock] held. *)
Definition sleep_loop (n ticks0 : Z) : M kern (option Z) :=
  t <- gets ticks ;;
  if u32 (t - ticks0) <? u32 n then
    me <- inp myproc ;;
    p <- inp (get_proc (pslot me)) ;;
    if truthy (p_killed p) then inp (unlock_lk (LOther tickslock_at)) ;; ret (Some (-1))
    else inp (sleep ticks_at (LOther tickslock_at)) ;; ret None
  else inp (unlock_lk (LOther tickslock_at)) ;; ret (Some 0).
Definition sys_sleep : M kern (option Z) :=
  n <- inp (argint 0) ;;
  inp (lock_lk (LOther tickslock_at)) ;;
  ticks0 <- gets ticks ;;
  sleep_loop n ticks0.
Definition sys_uptime : M kern (option Z) :=
  inp (lock_lk (LOther tickslock_at)) ;;
  xticks <- gets ticks ;;
  inp (unlock_lk (LOther tickslock_at)) ;;
  ret (Some xticks).

(** ** The dispatch *)

Context (filecalls : Z → option (M kern (option Z))).

Definition syscalls (num : Z) : option (M kern (option Z)) :=
  if num =? SYS_fork then Some (inp sys_fork)
  else if num =? SYS_exit then Some (inp sys_exit)
  else if num =? SYS_wait then Some (inp sys_wait)
  else if num =? SYS_kill then Some (inp sys_kill)
  else if num =? SYS_exec then Some (inp sys_exec)
  else if num =? SYS_getpid then Some (inp sys_getpid)
  else if num =? SYS_sbrk then Some (inp sys_sbrk)
  else if num =? SYS_sleep then Some sys_sleep
  else if num =? SYS_uptime then Some sys_uptime
  else filecalls num.

(** [p->trapframe->a0 = v] *)
Definition set_a0 (v : Z) : M kern unit :=
  me <- inp myproc ;;
  p <- inp (get_proc (pslot me)) ;;
  inp (ink (kstore64 (p_trapframe p + TF_a0) v)).

(** Whether the process still runs: a call that sleeps finishes with [set_a0]
    after the process is resumed. *)
Definition syscall : M kern bool :=
  me <- inp myproc ;;
  p <- inp (get_proc (pslot me)) ;;
  x <- inp (ink (kload64 (p_trapframe p + TF_a7))) ;;
  let num := i32 x in
  match (if (0 <? num) && (num <? 22) then syscalls num else None) with
  | Some f =>
      r <- f ;;
      match r with
      | Some v => set_a0 v ;; ret true
      | None => ret false
      end
  | None => set_a0 (-1) ;; ret true
  end.

End syscall.

Arguments kern : clear implicits.
