(* ===== verification/Trap.v ===== *)
(** * Traps: kernel/trap.c and kernel/plic.c

    The kernel of [Syscall] with the control registers of the hart it runs on and
    the interrupt controller.  The bit SIE of [sstatus] is the interrupt flag of
    the CPU, which spin locks use too.  [usertrap] and [kerneltrap] end, like the
    code in [Proc], where the process gives up the CPU.  The handlers of the
    devices are parameters; what [printf] writes is not part of the state. *)

From stdpp Require Import base gmap list strings numbers.
From S2P Require Import Prelude Machine Riscv Hart KString Kalloc Vm Block Spinlock Proc Exec Syscall.

(** kernel/memlayout.h *)
Definition UART0_IRQ : Z := 10.
Definition VIRTIO0_IRQ : Z := 1.
Definition PLIC_SENABLE (hart : Z) : Z := PLIC + 8320 + hart * 256.
Definition PLIC_SPRIORITY (hart : Z) : Z := PLIC + 2101248 + hart * 8192.
Definition PLIC_SCLAIM (hart : Z) : Z := PLIC + 2101252 + hart * 8192.

(** ** The interrupt controller *)

(** Its registers, the interrupts that wait to be claimed, and those that are
    claimed and not completed. *)
Record plic := mkPlic { pl_regs : gmap Z Z; pl_pending : list Z; pl_claimed : list Z }.

Definition is_claim (a : Z) : bool := (PLIC_SCLAIM 0 <=? a) && ((a - PLIC_SCLAIM 0) mod 8192 =? 0).

(** A load of a claim register claims the first interrupt that waits, or gives 0;
    a store completes an interrupt. *)
Definition plic_load (a : Z) : M plic Z :=
  p <- get ;;
  if is_claim a then
    match pl_pending p with
    | [] => ret 0
    | irq :: l => modify (λ p, mkPlic (pl_regs p) l (irq :: pl_claimed p)) ;; ret irq
    end
  else ret (default 0 (pl_regs p !! a)).
Definition plic_store (a v : Z) : M plic unit :=
  if is_claim a then modify (λ p, mkPlic (pl_regs p) (pl_pending p) (filter (λ irq, irq ≠ v) (pl_claimed p)))
  else modify (λ p, mkPlic (<[a := u32 v]> (pl_regs p)) (pl_pending p) (pl_claimed p)).

(** The trapframe. *)
Definition TF_kernel_satp : Z := 0.
Definition TF_kernel_sp : Z := 8.
Definition TF_kernel_trap : Z := 16.
Definition TF_kernel_hartid : Z := 32.

(** Where [kernelvec], [usertrap], [uservec] and [userret] are. *)
Class TrapLayout := { kernelvec_at : Z; usertrap_at : Z; uservec_at : Z; userret_at : Z }.

Section trap.
Context `{Layout} `{ProcLayout} {F : Type} `{FileLayer F} `{ProgFiles F} `{CallLayout} `{TrapLayout}.
Notation kern := (kern F).
Context (filecalls : Z → option (M kern (option Z))) (uartintr virtio_disk_intr : M kern unit).

Record tst := mkT { tk : kern; th : hart; tplic : plic }.
Definition set_tk (x : kern) (s : tst) : tst := mkT x (th s) (tplic s).
Definition set_th (x : hart) (s : tst) : tst := mkT (tk s) x (tplic s).
Definition set_tplic (x : plic) (s : tst) : tst := mkT (tk s) (th s) x.

(** The hart, with SIE the interrupt flag of the CPU. *)
Definition flag (s : tst) : bool := c_intr (c_cpu (kp (tk s))).
Definition set_flag (b : bool) (s : tst) : tst :=
  set_tk (set_kp (set_c_cpu (mkCpu b (c_noff (c_cpu (kp (tk s)))) (c_intena (c_cpu (kp (tk s))))) (kp (tk s))) (tk s)) s.
Definition the_hart (s : tst) : hart := set_csr MSTATUS (status [(1, flag s)] (h_csr (th s) MSTATUS)) (th s).
Definition set_the_hart (h : hart) (s : tst) : tst := set_flag (Z.testbit (h_csr h MSTATUS) 1) (set_th h s).

Definition onh {A} (m : M hart A) : M tst A := zoom the_hart set_the_hart m.
Definition onk {A} (m : M kern A) : M tst A := zoom tk set_tk m.
Definition onp {A} (m : M (pst F) A) : M tst A := onk (inp m).
Definition onplic {A} (m : M plic A) : M tst A := zoom tplic set_tplic m.
Definition cpuid : M tst Z := x <- onh r_tp ;; ret (i32 x).

(** ** kernel/plic.c *)

Definition plicinit : M tst unit :=
  (* set desired IRQ priorities non-zero (otherwise disabled). *)
  onplic (plic_store (PLIC + UART0_IRQ * 4) 1) ;;
  onplic (plic_store (PLIC + VIRTIO0_IRQ * 4) 1).
Definition plicinithart : M tst unit :=
  hart <- cpuid ;;
  (* set uart's enable bit for this hart's S-mode. *)
  onplic (plic_store (PLIC_SENABLE hart) (Z.lor (Z.shiftl 1 UART0_IRQ) (Z.shiftl 1 VIRTIO0_IRQ))) ;;
  (* set this hart's S-mode priority threshold to 0. *)
  onplic (plic_store (PLIC_SPRIORITY hart) 0).
Definition plic_claim : M tst Z := hart <- cpuid ;; irq <- onplic (plic_load (PLIC_SCLAIM hart)) ;; ret (i32 irq).
Definition plic_complete (irq : Z) : M tst unit := hart <- cpuid ;; onplic (plic_store (PLIC_SCLAIM hart) irq).

(** ** kernel/trap.c *)

Definition trapinit : M tst unit := onp (modify (set_other_locked tickslock_at false)).
Definition trapinithart : M tst unit := onh (w_stvec kernelvec_at).

Definition clockintr : M kern unit :=
  inp (lock_lk (LOther tickslock_at)) ;;
  modify (λ s, set_ticks (u32 (ticks s + 1)) s) ;;
  inp (wakeup ticks_at) ;;
  inp (unlock_lk (LOther tickslock_at)).

Definition devintr : M tst Z :=
  scause <- onh r_scause ;;
  if negb (Z.land scause 9223372036854775808 =? 0) && (Z.land scause 255 =? 9) then
    (* this is a supervisor external interrupt, via PLIC. *)
    irq <- plic_claim ;;
    (if irq =? UART0_IRQ then onk uartintr
     else if irq =? VIRTIO0_IRQ then onk virtio_disk_intr
     else ret tt) ;;
    (if truthy irq then plic_complete irq else ret tt) ;;
    ret 1
  else if scause =? 9223372036854775809 then
    (* software interrupt from a machine-mode timer interrupt *)
    id <- cpuid ;;
    (if id =? 0 then onk clockintr else ret tt) ;;
    (* acknowledge the software interrupt by clearing the SSIP bit in sip. *)
    x <- onh r_sip ;;
    onh (w_sip (Z.ldiff x 2)) ;;
    ret 2
  else ret 0.

(** Return to user space: the arguments of [userret]. *)
Definition usertrapret : M tst (Z * Z) :=
  me <- onp myproc ;;
  onh intr_off ;;
  (* send syscalls, interrupts, and exceptions to trampoline.S *)
  onh (w_stvec (TRAMPOLINE + (uservec_at - trampoline))) ;;
  p <- onp (get_proc (pslot me)) ;;
  (* set up trapframe values that uservec will need *)
  satp <- onh r_satp ;;
  onp (ink (kstore64 (p_trapframe p + TF_kernel_satp) satp)) ;;
  onp (ink (kstore64 (p_trapframe p + TF_kernel_sp) (p_kstack p + PGSIZE))) ;;
  onp (ink (kstore64 (p_trapframe p + TF_kernel_trap) usertrap_at)) ;;
  tp <- onh r_tp ;;
  onp (ink (kstore64 (p_trapframe p + TF_kernel_hartid) tp)) ;;
  (* set S Previous Privilege mode to User. *)
  x <- onh r_sstatus ;;
  let x := Z.ldiff x SSTATUS_SPP in
  let x := Z.lor x SSTATUS_SPIE in
  onh (w_sstatus x) ;;
  (* set S Exception Program Counter to the saved user pc. *)
  epc <- onp (ink (kload64 (p_trapframe p + TF_epc))) ;;
  onh (w_sepc epc) ;;
  let satp := MAKE_SATP (p_pagetable p) in
  let fn := TRAMPOLINE + (userret_at - trampoline) in
  onh (modify (set_pc fn)) ;;
  ret (TRAPFRAME, satp).

(** The end of [usertrap], with its local [which_dev]; [None] when the process
    gives up the CPU: after [yield] it continues with [usertrapret]. *)
Definition usertrap_end (which_dev : Z) : M tst (option (Z * Z)) :=
  me <- onp myproc ;;
  p <- onp (get_proc (pslot me)) ;;
  if truthy (p_killed p) then onp (exit (-1)) ;; ret None
  else if which_dev =? 2 then onp yield ;; ret None
  else r <- usertrapret ;; ret (Some r).

(** A system call that sleeps continues, after it returns, with [usertrap_end]. *)
Definition usertrap : M tst (option (Z * Z)) :=
  x <- onh r_sstatus ;;
  if negb (Z.land x SSTATUS_SPP =? 0) then panic "usertrap: not from user mode"
  else
    (* send interrupts and exceptions to kerneltrap(), since we're now in the kernel. *)
    onh (w_stvec kernelvec_at) ;;
    me <- onp myproc ;;
    p <- onp (get_proc (pslot me)) ;;
    (* save user program counter. *)
    epc <- onh r_sepc ;;
    onp (ink (kstore64 (p_trapframe p + TF_epc) epc)) ;;
    scause <- onh r_scause ;;
    if scause =? 8 then
      (* system call *)
      p <- onp (get_proc (pslot me)) ;;
      if truthy (p_killed p) then onp (exit (-1)) ;; ret None
      else
        epc <- onp (ink (kload64 (p_trapframe p + TF_epc))) ;;
        onp (ink (kstore64 (p_trapframe p + TF_epc) (epc + 4))) ;;
        onh intr_on ;;
        go <- onk (syscall filecalls) ;;
        if go : bool then usertrap_end 0 else ret None
    else
      which_dev <- devintr ;;
      (if which_dev =? 0 then onp (set_proc (pslot me) (set_p_killed 1)) else ret tt) ;;
      usertrap_end which_dev.

(** The end of [kerneltrap], with its locals. *)
Definition kerneltrap_end (sepc sstatus : Z) : M tst unit :=
  onh (w_sepc sepc) ;;
  onh (w_sstatus sstatus).

(** Whether it returns; if not, it gave up the CPU, and continues with
    [kerneltrap_end] and its locals [sepc] and [sstatus]. *)
Definition kerneltrap : M tst (option (Z * Z)) :=
  sepc <- onh r_sepc ;;
  sstatus <- onh r_sstatus ;;
  if Z.land sstatus SSTATUS_SPP =? 0 then panic "kerneltrap: not from supervisor mode"
  else
    b <- onh intr_get ;;
    if b : bool then panic "kerneltrap: interrupts enabled"
    else
      which_dev <- devintr ;;
      if which_dev =? 0 then panic "kerneltrap"
      else
        me <- onp myproc ;;
        p <- onp (get_proc (pslot me)) ;;
        (* give up the CPU if this is a timer interrupt. *)
        if (which_dev =? 2) && truthy me && bool_decide (p_state p = RUNNING) then
          onp yield ;; ret (Some (sepc, sstatus))
        else kerneltrap_end sepc sstatus ;; ret None.

End trap.

Arguments tst : clear implicits.
