(* ===== verification/ProcMem.v ===== *)
(** * The memory of processes

    The page tables that proc.c makes and frees ([proc_pagetable],
    [proc_freepagetable]), and the invariant of the memory of all processes:
    each has a trapframe page and an address space, no page belongs to two of
    them or to one of them and the free list.  [mem_ok_change] is the frame rule:
    code that touches the pages of some processes and free pages leaves the
    other processes alone. *)

From stdpp Require Import base gmap list strings numbers.
From S2P Require Import Prelude Machine Riscv KString Kalloc Vm PageTable Uvm FreeWalk UserCopy Spinlock Proc.

(** The image of a process: its page table, its size in pages, its trapframe. *)
Record img := mkImg { i_pt : Z; i_n : Z; i_tf : Z }.

Definition tramp_pte `{Layout} : Z := Z.lor (PA2PTE trampoline) (Z.lor (Z.lor PTE_R PTE_X) PTE_V).
Definition tf_pte (tf : Z) : Z := Z.lor (PA2PTE tf) (Z.lor (Z.lor PTE_R PTE_W) PTE_V).

(** The two pages at the top: the trampoline and the trapframe. *)
Definition top_ok `{Layout} (k : kst) (u : img) : Prop :=
  (∀ va, TRAPFRAME ≤ va < TRAMPOLINE → pteval 2 (mm k) (i_pt u) va = tf_pte (i_tf u)) ∧
  (∀ va, TRAMPOLINE ≤ va < MAXVA → pteval 2 (mm k) (i_pt u) va = tramp_pte) ∧
  (∀ va, MAXVA ≤ va < SV39 → has PTE_V (pteval 2 (mm k) (i_pt u) va) = false).

Definition uimage `{Layout} (k : kst) (u : img) (F : list Z) : Prop :=
  uspace k (i_pt u) (i_n u) F ∧ page_ok (i_tf u) ∧ top_ok k u.

Definition ipages (k : kst) (u : img) : list Z := i_tf u :: upages k (i_pt u) (i_n u).

(** The memory of the processes with images [U], and the free pages [F]. *)
Definition mem_ok `{Layout} (k : kst) (U : list img) (F : list Z) : Prop :=
  kmem_inv k F ∧ NoDup ((U ≫= ipages k) ++ F) ∧ Forall (λ u, uimage k u F) U.

(** The kernel's data lies below the pages of RAM. *)
Class ProcLayoutOk `{Layout} `{ProcLayout} : Prop := {
  xstate_ok : ∀ i, (i < 64)%nat → xstate_at i + 4 ≤ kend;
}.

Section procmem.
Context `{LO : LayoutOk}.

Lemma upages_aligned k pt n F : uspace k pt n F → Forall aligned (upages k pt n ++ F).
Proof.
  intros ((_ & _ & _ & HF) & _ & _ & _ & Hok & _). apply Forall_app.
  split; (eapply list.Forall_impl; [eassumption|]); intros q Hq; apply Hq.
Qed.

(** An address space whose pages are not touched. *)
Lemma uspace_other k pt n F k' F' :
  uspace k pt n F → kmem_inv k' F' → NoDup (upages k pt n ++ F') →
  (∀ q, q ∈ upages k pt n → agree (mm k) (mm k') q PGSIZE) →
  uspace k' pt n F' ∧ upages k' pt n = upages k pt n ∧
  ∀ va, pteval 2 (mm k') pt va = pteval 2 (mm k) pt va.
Proof.
  intros (_ & Hn & Hmax & _ & Hok & Hleaf & Hfree & Htop & Hio) Hk' Hnd Ha.
  assert (∀ q, q ∈ ptpages 2 (mm k) pt → agree (mm k) (mm k') q PGSIZE) as Ha'.
  { intros q Hq. apply Ha. unfold upages. apply elem_of_app. by right. }
  assert (∀ va, pteval 2 (mm k') pt va = pteval 2 (mm k) pt va) as Ev by (intros va; by apply pteval_agree).
  assert (upages k' pt n = upages k pt n) as Eu.
  { rewrite (upages_ext k k') by (intros; apply Ev). by rewrite (ptpages_agree 2 (mm k) (mm k')). }
  split; [|done]. unfold uspace. rewrite Eu. split_and!; try done.
  - intros i Hi. rewrite Ev. by apply Hleaf.
  - intros va Hva. rewrite Ev. by apply Hfree.
  - intros va Hva. rewrite Ev. by apply Htop.
  - by eapply inner_ok_agree.
Qed.

(** The frame rule: the pages of [U] stay. *)
Lemma mem_ok_agree k W U F k' W' F' :
  mem_ok k (W ++ U) F → kmem_inv k' F' →
  (∀ q, q ∈ U ≫= ipages k → agree (mm k) (mm k') q PGSIZE) →
  (W' ≫= ipages k') ++ F' ≡ₚ (W ≫= ipages k) ++ F →
  Forall (λ u, uimage k' u F') W' →
  mem_ok k' (W' ++ U) F' ∧ (U ≫= ipages k') = (U ≫= ipages k).
Proof.
  intros (Hk & Hnd & Hall) Hk' Hf HP HW'. apply Forall_app in Hall as [HW HU].
  rewrite bind_app in Hnd.
  assert (NoDup ((U ≫= ipages k) ++ (W' ≫= ipages k') ++ F')) as Hnd'.
  { rewrite HP. by rewrite app_assoc, (Permutation_app_comm (U ≫= _)). }
  assert (Forall (λ u, uimage k' u F' ∧ ipages k' u = ipages k u) U) as HU'.
  { apply Forall_forall. intros u Hu%list_elem_of_In.
    assert (∀ q, q ∈ ipages k u → q ∈ U ≫= ipages k) as Hin.
    { intros q Hq. apply list_elem_of_bind. eauto. }
    rewrite Forall_forall in HU. destruct (HU u) as (Hs & Htf & T1 & T2 & T3); [by apply list_elem_of_In|].
    pose proof Hs as (_ & _ & _ & HndU & HokU & _).
    destruct (uspace_other k (i_pt u) (i_n u) F k' F') as (Hs' & Eu & Ev); [done|done| | |].
    - apply list.NoDup_app. apply list.NoDup_app in HndU as (HndU & _ & _). split; [done|].
      split; [|apply Hk']. intros q Hq HqF. apply list.NoDup_app in Hnd' as (_ & Hd & _).
      apply (Hd q); [apply Hin; by constructor|]. apply elem_of_app. by right.
    - intros q Hq. apply Hf, Hin. by constructor.
    - split; [|unfold ipages; by rewrite Eu]. split; [done|]. split; [done|].
      split; [|split]; intros va Hva; rewrite Ev; auto. }
  assert ((U ≫= ipages k') = (U ≫= ipages k)) as EU.
  { apply bind_ext_in. intros u Hu. rewrite Forall_forall in HU'. by apply HU', list_elem_of_In. }
  split; [|done]. split; [done|]. split.
  - rewrite bind_app, EU, <-app_assoc, Permutation_app_comm, <-app_assoc, (Permutation_app_comm F'). done.
  - apply Forall_app. split; [done|]. eapply list.Forall_impl; [exact HU'|]. by intros u [? _].
Qed.

(** Pages of RAM other than those of [W] and the free ones stay. *)
Lemma mem_ok_pages k W U F k' W' F' :
  mem_ok k (W ++ U) F → kmem_inv k' F' →
  (∀ q, page_ok q → q ∉ (W ≫= ipages k) ++ F → agree (mm k) (mm k') q PGSIZE) →
  (W' ≫= ipages k') ++ F' ≡ₚ (W ≫= ipages k) ++ F →
  Forall (λ u, uimage k' u F') W' →
  mem_ok k' (W' ++ U) F' ∧ (U ≫= ipages k') = (U ≫= ipages k).
Proof.
  intros Hm Hk' Hf. apply mem_ok_agree; [done|done|]. pose proof Hm as (_ & Hnd & Hall). apply Forall_app in Hall as [_ HU].
  intros q Hq. apply Hf.
  - apply list_elem_of_bind in Hq as (u & Hq & Hu). rewrite Forall_forall in HU. destruct (HU u) as ((_ & _ & _ & _ & Hok & _) & Htf & _);
      [by apply list_elem_of_In|]. apply elem_of_cons in Hq as [->|Hq]; [done|]. rewrite Forall_forall in Hok. by apply Hok, list_elem_of_In.
  - rewrite bind_app, (Permutation_app_comm (W ≫= _)), <-app_assoc in Hnd. apply list.NoDup_app in Hnd as (_ & Hd & _). by apply Hd.
Qed.

Lemma images_aligned k W U F : mem_ok k (W ++ U) F → Forall aligned ((W ≫= ipages k) ++ F).
Proof.
  intros (Hk & _ & [HW _]%Forall_app). apply Forall_app. split.
  - apply Forall_bind. eapply list.Forall_impl; [exact HW|]. intros u (Hu & Htf & _).
    constructor; [apply Htf|]. apply upages_aligned in Hu. by apply Forall_app in Hu as [? _].
  - destruct Hk as (_ & _ & _ & HF). eapply list.Forall_impl; [exact HF|]. intros q Hq. apply Hq.
Qed.

Lemma images_aligned_elem k U F q : mem_ok k U F → q ∈ U ≫= ipages k → aligned q.
Proof.
  intros Hm Hq. pose proof (images_aligned k U [] F) as Ha. rewrite app_nil_r in Ha. specialize (Ha Hm).
  apply Forall_app in Ha as [Ha _]. rewrite Forall_forall in Ha. by apply Ha, list_elem_of_In.
Qed.

Lemma mem_ok_change k W U F k' W' F' :
  mem_ok k (W ++ U) F → kmem_inv k' F' →
  frame ((W ≫= ipages k) ++ F) (mm k) (mm k') →
  (W' ≫= ipages k') ++ F' ≡ₚ (W ≫= ipages k) ++ F →
  Forall (λ u, uimage k' u F') W' →
  mem_ok k' (W' ++ U) F' ∧ (U ≫= ipages k') = (U ≫= ipages k).
Proof.
  intros Hm Hk' Hf. eapply mem_ok_pages; [done|done|]. intros q Hq Hn.
  eapply frame_agree; [by eapply images_aligned|apply Hq|done|exact Hf].
Qed.

(** ** Making and freeing page tables *)

Lemma top_consts : TRAPFRAME = 274877898752 ∧ TRAMPOLINE = 274877902848 ∧ MAXVA = 274877906944 ∧ SV39 = 549755813888.
Proof. done. Qed.

(** Entries above the user's memory were added. *)
Lemma remapped_uspace pt k F k' F' g :
  uspace k pt 0 F → remapped pt k F k' F' g →
  (∀ va, 0 ≤ va < TRAPFRAME → g va = pteval 2 (mm k) pt va) →
  (∀ va, TRAPFRAME ≤ va < SV39 → has PTE_V (g va) = true → has PTE_U (g va) = false) →
  uspace k' pt 0 F' ∧ upages k' pt 0 ++ F' ≡ₚ upages k pt 0 ++ F ∧
  frame (upages k pt 0 ++ F) (mm k) (mm k').
Proof.
  destruct top_consts as (ET & ER & EM & ES).
  intros Hu (news & -> & Hk' & Hp & Hf & Hi & Hv) Hlow Htop.
  pose proof Hu as (HkF & Hn & Hmax & Hnd & Hok & _ & Hfree & _ & Hio). cbn in Hnd, Hok.
  assert (upages k' pt 0 ++ F' ≡ₚ upages k pt 0 ++ news ++ F') as HP.
  { unfold upages. cbn. by rewrite Hp, (Permutation_app_comm news), <-app_assoc. }
  split; [|split; [exact HP|]].
  - split; [done|]. split; [done|]. split; [done|]. split; [by rewrite HP|].
    split. { unfold upages. cbn. rewrite Hp. apply Forall_app. split; [|done].
      destruct HkF as (_ & _ & _ & HF). by apply Forall_app in HF as [? _]. }
    split; [intros i Hi'; lia|]. split; [|split; [|auto]].
    + intros va Hva. rewrite Hv, Hlow by lia. apply Hfree. lia.
    + intros va Hva. rewrite Hv by lia. by apply Htop.
  - eapply frame_mono; [|exact Hf]. intros q Hq. rewrite Hp in Hq. unfold upages.
    apply elem_of_app in Hq as [Hq|Hq]; apply elem_of_app; [right|left]; apply elem_of_app; auto.
Qed.

(** Entries above the user's memory were removed. *)
Lemma unmapped_uspace pt k n F k' g :
  uspace k pt n F → unmapped pt k F k' [] g →
  (∀ va, 0 ≤ va < TRAPFRAME → g va = pteval 2 (mm k) pt va) →
  (∀ va, TRAPFRAME ≤ va < SV39 → g va = 0 ∨ g va = pteval 2 (mm k) pt va) →
  uspace k' pt n F ∧ upages k' pt n = upages k pt n ∧ frame (upages k pt n) (mm k) (mm k').
Proof.
  destruct top_consts as (ET & ER & EM & ES).
  intros Hu ((Hk' & _) & Ep & Hf & Hi & Hv) Hlow Htop.
  pose proof Hu as (HkF & Hn & Hmax & Hnd & Hok & Hleaf & Hfree & Ht & Hio). cbn in Hk', Hf.
  assert (upages k' pt n = upages k pt n) as Eu.
  { rewrite (upages_ext k k'); [by rewrite Ep|]. intros i Hi'. rewrite Hv by pglia. apply Hlow. pglia. }
  split; [|split; [exact Eu|]].
  - unfold uspace. rewrite Eu. split_and!; try done; [| | |by apply Hi].
    + intros i Hi'. rewrite Hv, Hlow by pglia. by apply Hleaf.
    + intros va Hva. rewrite Hv, Hlow by pglia. by apply Hfree.
    + intros va Hva. rewrite Hv by lia. destruct (Htop va Hva) as [->| ->]; [done|by apply Ht].
  - eapply frame_mono; [|exact Hf]. intros q Hq. unfold upages. apply elem_of_app. by right.
Qed.

(** One page of the top of the address space is mapped. *)
Lemma map_top_run pt k F va pa fl :
  uspace k pt 0 F → (va = TRAPFRAME ∨ va = TRAMPOLINE) →
  0 ≤ pa < 2 ^ 55 → (fl = Z.lor PTE_R PTE_X ∨ fl = Z.lor PTE_R PTE_W) →
  (∀ x, va ≤ x < va + PGSIZE → has PTE_V (pteval 2 (mm k) pt x) = false) →
  wp (mappages pt va PGSIZE pa fl)
     (λ r k', ∃ F', uspace k' pt 0 F' ∧ upages k' pt 0 ++ F' ≡ₚ upages k pt 0 ++ F ∧
        frame (upages k pt 0 ++ F) (mm k) (mm k') ∧ (length F ≤ length F' + 2)%nat ∧
        (r = -1 ∧ F' = [] ∧ (∀ x, 0 ≤ x < SV39 → pteval 2 (mm k') pt x = pteval 2 (mm k) pt x) ∨
         r = 0 ∧ (∀ x, 0 ≤ x < SV39 → pteval 2 (mm k') pt x =
           if (va <=? x) && (x <? va + PGSIZE) then Z.lor (PA2PTE pa) (Z.lor fl PTE_V)
           else pteval 2 (mm k) pt x))) k.
Proof.
  destruct top_consts as (ET & ER & EM & ES). intros Hu Hva Hpa Hfl Hno.
  assert (va mod PGSIZE = 0 ∧ TRAPFRAME ≤ va ∧ va + PGSIZE ≤ MAXVA) as (Hal & Hv1 & Hv2) by pglia.
  assert ((va + PGSIZE - 1) / PGSIZE - va / PGSIZE + 1 = 1) as En by pglia.
  pose proof (uspace_pt_wf _ _ _ _ Hu) as Hwf.
  assert (has PTE_U (Z.lor (PA2PTE pa) (Z.lor fl PTE_V)) = false) as HU.
  { rewrite has_mkpte; [by destruct Hfl as [->| ->]|lia|by destruct Hfl as [->| ->]|done]. }
  eapply wp_mono; [apply (mappages_run pt va PGSIZE pa fl k F); try done|].
  - lia.
  - lia.
  - rewrite En. pglia.
  - by destruct Hfl as [->| ->].
  - rewrite En, Hal. intros x Hx. apply Hno. lia.
  - cbv beta zeta. rewrite En, Hal, Z.sub_0_r. intros r k' (n & F' & Hr & Hc & Hlen).
    assert (∀ x, 0 ≤ x < SV39 → pteval 2 (mm k') pt x = map_range (pteval 2 (mm k) pt) va n pa (Z.lor fl PTE_V) x)
      as Hv by (destruct Hr as (news & _ & _ & _ & _ & _ & Hv); exact Hv).
    assert (n = 0 ∨ n = 1) as Hn by lia.
    assert (∀ x, 0 ≤ x < SV39 → map_range (pteval 2 (mm k) pt) va n pa (Z.lor fl PTE_V) x =
      if (n =? 1) && (va <=? x) && (x <? va + PGSIZE) then Z.lor (PA2PTE pa) (Z.lor fl PTE_V)
      else pteval 2 (mm k) pt x) as Em.
    { intros x Hx. unfold map_range. destruct Hn as [->| ->]; cbn [Z.eqb andb].
      - destruct (Z.leb_spec va x), (Z.ltb_spec x (va + 0 * PGSIZE)); cbn; try done. lia.
      - rewrite Z.mul_1_l. destruct (Z.leb_spec va x), (Z.ltb_spec x (va + PGSIZE)); cbn; try done.
        by replace (pa + (x - x mod PGSIZE - va)) with pa by pglia. }
    exists F'. destruct (remapped_uspace pt k F k' F' _ Hu Hr) as (Hu' & HP & Hf).
    + intros x Hx. rewrite Em by lia. destruct (Z.leb_spec va x); [lia|]. by rewrite andb_false_r.
    + intros x Hx HV. rewrite Em in HV |- * by lia. destruct (_ && _); [done|].
      destruct Hu as (_ & _ & _ & _ & _ & _ & _ & Ht & _). by apply Ht.
    + split; [done|]. split; [done|]. split; [done|]. split; [lia|]. destruct Hc as [[-> ->]|[-> [Hn0 ->]]]; [right|left].
      * split; [done|]. intros x Hx. by rewrite Hv, Em.
      * split; [done|]. split; [done|]. intros x Hx. rewrite Hv, Em by done. by replace n with 0 by lia.
Qed.

(** One page of the top of the address space is unmapped. *)
Lemma unmap_top_run pt k n F va :
  uspace k pt n F → (va = TRAPFRAME ∨ va = TRAMPOLINE) →
  has PTE_V (pteval 2 (mm k) pt va) = true → PTE_FLAGS (pteval 2 (mm k) pt va) ≠ PTE_V →
  wp (uvmunmap pt va 1 false)
     (λ _ k', uspace k' pt n F ∧ upages k' pt n = upages k pt n ∧ frame (upages k pt n) (mm k) (mm k') ∧
        ∀ x, 0 ≤ x < SV39 → pteval 2 (mm k') pt x =
          if (va <=? x) && (x <? va + PGSIZE) then 0 else pteval 2 (mm k) pt x) k.
Proof.
  destruct top_consts as (ET & ER & EM & ES). intros Hu Hva HV Hfl.
  assert (va mod PGSIZE = 0 ∧ TRAPFRAME ≤ va ∧ va + PGSIZE ≤ MAXVA) as (Hal & Hv1 & Hv2) by pglia.
  pose proof (uspace_pt_wf _ _ _ _ Hu) as Hwf.
  eapply wp_mono; [apply (uvmunmap_run pt va 1 false k F); try done|].
  - lia.
  - intros i Hi. replace i with 0 by lia. by rewrite Z.mul_0_l, Z.add_0_r.
  - cbn. apply Hwf.
  - cbv beta zeta. intros [] k' Hun. change (reverse []) with (@nil Z) in Hun.
    assert (∀ x, unmap_range (pteval 2 (mm k) pt) va 1 x =
      if (va <=? x) && (x <? va + PGSIZE) then 0 else pteval 2 (mm k) pt x) as Em.
    { intros x. unfold unmap_range. by rewrite Z.mul_1_l. }
    destruct (unmapped_uspace pt k n F k' _ Hu Hun) as (H1 & H2 & H3).
    + intros x Hx. rewrite Em. destruct (Z.leb_spec va x); [lia|done].
    + intros x Hx. rewrite Em. destruct (_ && _); tauto.
    + split; [done|]. split; [done|]. split; [done|]. intros x Hx. rewrite <-Em. by apply Hun.
Qed.

Lemma trampoline_bound : 0 ≤ trampoline < 2 ^ 55.
Proof.
  pose proof trampoline_ok. pose proof etext_ok. pose proof kend_ok. unfold KERNBASE, PHYSTOP, KERNBASE in *. lia.
Qed.

(** [proc_pagetable] makes a page table with the two top pages, or gives every
    page back. *)
Lemma proc_pagetable_run k F tf :
  kmem_inv k F → page_ok tf →
  wp (proc_pagetable tf)
     (λ r k', ∃ F', kmem_inv k' F' ∧ frame F (mm k) (mm k') ∧
        (r = 0 ∧ F' ≡ₚ F ∧ (length F < 6)%nat ∨
         r ≠ 0 ∧ uimage k' (mkImg r 0 tf) F' ∧ upages k' r 0 ++ F' ≡ₚ F ∧ (length F ≤ length F' + 5)%nat)) k.
Proof.
  intros Hk Htf. destruct top_consts as (ET & ER & EM & ES). pose proof trampoline_bound.
  pose proof (page_ok_pos tf Htf). assert (0 ≤ tf < 2 ^ 55) as Htf2 by (destruct Htf as [_ Htf]; unfold PHYSTOP, KERNBASE in *; lia). unfold proc_pagetable.
  wp_use uvmcreate_run; [done|]. destruct F as [|p F].
  { intros r k1 [-> ->]. wp_run. exists []. split; [done|]. split; [apply frame_refl|]. left. split; [done|]. split; [done|cbn; lia]. }
  intros r k1 (-> & Hu1 & Ep1 & Ez1 & Hf1).
  assert (p ≠ 0) as Hp0. { destruct Hk as (_ & _ & _ & HF). apply Forall_cons_1 in HF as [HF _]. pose proof (page_ok_pos p HF). lia. }
  rewrite (proj2 (Z.eqb_neq p 0)) by done.
  assert (∀ k2 F2, uspace k2 p 0 F2 → upages k2 p 0 ++ F2 ≡ₚ p :: F → frame (p :: F) (mm k) (mm k2) →
    (∀ x, 0 ≤ x < SV39 → has PTE_V (pteval 2 (mm k2) p x) = false) → (length F < 5)%nat →
    wp (uvmfree p 0 ;; ret 0) (λ r k', ∃ F', kmem_inv k' F' ∧ frame (p :: F) (mm k) (mm k') ∧
        (r = 0 ∧ F' ≡ₚ p :: F ∧ (length (p :: F) < 6)%nat ∨
         r ≠ 0 ∧ uimage k' (mkImg r 0 tf) F' ∧ upages k' r 0 ++ F' ≡ₚ p :: F ∧ (length (p :: F) ≤ length F' + 5)%nat)) k2) as Hfail.
  { intros k2 F2 Hu2 HP2 Hfr2 Hno Hl5. wp_run. eapply wp_mono; [apply (uvmfree_run p k2 0 F2 0); try done; lia|].
    intros [] k3 (F3 & Hk3 & HP3 & Hf3). wp_run. exists F3. split; [done|].
    split; [eapply frame_trans; [exact Hfr2|]; eapply frame_mono; [|exact Hf3]; intros q; by rewrite HP2|].
    left. split; [done|]. split; [by rewrite HP3|cbn; lia]. }
  wp_run. eapply wp_mono; [apply (map_top_run p k1 F TRAMPOLINE); [done|by right|done|by left|]|].
  { intros x _. by rewrite Ez1. }
  intros r k2 (F2 & Hu2 & HP2 & Hf2 & Hl2 & Hr). rewrite Ep1 in HP2, Hf2. cbn in HP2, Hf2.
  assert (frame (p :: F) (mm k) (mm k2)) as Hfr2.
  { eapply frame_trans; [eapply frame_mono; [|exact Hf1]|exact Hf2]. intros q. set_solver. }
  destruct Hr as [(-> & -> & Hv2)|[-> Hv2]]; cbn [Z.ltb Z.compare].
  { apply (Hfail k2 []); try done; [|cbn in Hl2; lia]. intros x Hx. by rewrite Hv2, Ez1. }
  wp_run. eapply wp_mono; [apply (map_top_run p k2 F2 TRAPFRAME); [done|by left|done|by right|]|].
  { intros x Hx. rewrite Hv2 by pglia. destruct (Z.leb_spec TRAMPOLINE x); [pglia|]. by rewrite Ez1. }
  intros r k3 (F3 & Hu3 & HP3 & Hf3 & Hl3 & Hr).
  assert (frame (p :: F) (mm k) (mm k3)) as Hfr3.
  { eapply frame_trans; [exact Hfr2|]. eapply frame_mono; [|exact Hf3]. intros q. by rewrite HP2. }
  rewrite HP2 in HP3. destruct Hr as [(-> & -> & Hv3)|[-> Hv3]]; cbn [Z.ltb Z.compare]; wp_run.
  - assert (pteval 2 (mm k3) p TRAMPOLINE = tramp_pte) as E3.
    { rewrite Hv3, Hv2 by lia. by destruct (Z.leb_spec TRAMPOLINE TRAMPOLINE), (Z.ltb_spec TRAMPOLINE (TRAMPOLINE + PGSIZE)); try (unfold PGSIZE in *; lia). }
    eapply wp_mono; [apply (unmap_top_run p k3 0 [] TRAMPOLINE); [done|by right|..]; rewrite E3|].
    + unfold tramp_pte. rewrite has_mkpte by (done || lia). done.
    + unfold tramp_pte. rewrite mkpte_FLAGS by (done || lia). done.
    + intros [] k4 (Hu4 & Eu4 & Hf4 & Hv4). apply (Hfail k4 []); [done|by rewrite Eu4| | |cbn in Hl3; lia].
      * eapply frame_trans; [exact Hfr3|]. eapply frame_mono; [|exact Hf4]. intros q Hq. rewrite <-HP3. set_solver.
      * intros x Hx. rewrite Hv4 by done. destruct (_ && _) eqn:Ex; [done|]. rewrite Hv3, Hv2, Ex by done.
        by rewrite Ez1.
  - exists F3. split; [apply Hu3|]. split; [done|]. right. split; [done|]. split; [|split; [done|cbn; lia]].
    split; [done|]. split; [done|]. cbn [i_pt i_tf]. split; [|split]; intros va Hva; rewrite Hv3 by lia.
    + by destruct (Z.leb_spec TRAPFRAME va), (Z.ltb_spec va (TRAPFRAME + PGSIZE)); try (unfold PGSIZE in *; lia).
    + destruct (Z.ltb_spec va (TRAPFRAME + PGSIZE)); [unfold PGSIZE in *; lia|]. rewrite andb_false_r, Hv2 by lia.
      by destruct (Z.leb_spec TRAMPOLINE va), (Z.ltb_spec va (TRAMPOLINE + PGSIZE)); try (unfold PGSIZE in *; lia).
    + destruct (Z.ltb_spec va (TRAPFRAME + PGSIZE)); [unfold PGSIZE in *; lia|]. rewrite andb_false_r, Hv2 by lia.
      destruct (Z.ltb_spec va (TRAMPOLINE + PGSIZE)); [unfold PGSIZE in *; lia|]. by rewrite andb_false_r, Ez1.
Qed.

(** [proc_freepagetable] gives the pages of the address space back. *)
Lemma proc_freepagetable_run k u F sz :
  uimage k u F → i_n u = PGROUNDUP sz / PGSIZE → 0 ≤ sz ≤ TRAPFRAME →
  wp (proc_freepagetable (i_pt u) sz)
     (λ _ k', ∃ F', kmem_inv k' F' ∧ F' ≡ₚ upages k (i_pt u) (i_n u) ++ F ∧
        frame (upages k (i_pt u) (i_n u) ++ F) (mm k) (mm k')) k.
Proof.
  destruct top_consts as (ET & ER & EM & ES). pose proof trampoline_bound.
  intros (Hu & Htf & T1 & T2 & T3) En Hsz. unfold proc_freepagetable. wp_run.
  pose proof (page_ok_pos _ Htf). pose proof (page_ok_bound _ Htf).
  eapply wp_mono; [apply (unmap_top_run _ k (i_n u) F TRAMPOLINE); [done|by right|..]; rewrite T2 by lia|].
  { unfold tramp_pte. by rewrite has_mkpte by (done || lia). }
  { unfold tramp_pte. by rewrite mkpte_FLAGS by (done || lia). }
  intros [] k1 (Hu1 & Eu1 & Hf1 & Hv1). wp_run.
  assert (pteval 2 (mm k1) (i_pt u) TRAPFRAME = tf_pte (i_tf u)) as E1.
  { rewrite Hv1 by lia. rewrite (proj2 (Z.leb_gt TRAMPOLINE TRAPFRAME)) by lia. cbn. apply T1. lia. }
  eapply wp_mono; [apply (unmap_top_run _ k1 (i_n u) F TRAPFRAME); [done|by left|..]; rewrite E1|].
  { unfold tf_pte. by rewrite has_mkpte by (done || lia). }
  { unfold tf_pte. by rewrite mkpte_FLAGS by (done || lia). }
  intros [] k2 (Hu2 & Eu2 & Hf2 & Hv2). wp_run.
  eapply wp_mono; [apply (uvmfree_run _ k2 (i_n u) F sz); [done|done|done|]|].
  - intros va Hva. pose proof Hu2 as (_ & Hn0 & _ & _ & _ & _ & Hfree & _).
    destruct (decide (va < TRAPFRAME)) as [|Hge]; [apply Hfree; lia|]. rewrite Hv2 by pglia.
    destruct (Z.leb_spec TRAPFRAME va), (Z.ltb_spec va (TRAPFRAME + PGSIZE)); cbn [andb]; try done; try lia.
    rewrite Hv1 by pglia. destruct (Z.leb_spec TRAMPOLINE va), (Z.ltb_spec va (TRAMPOLINE + PGSIZE)); cbn [andb]; try done; try pglia.
    apply T3. pglia.
  - intros [] k3 (F3 & Hk3 & HP3 & Hf3). rewrite Eu2, Eu1 in HP3, Hf3. rewrite Eu1 in Hf2.
    exists F3. split; [done|]. split; [done|].
    eapply frame_trans; [eapply frame_mono; [|exact Hf1]|eapply frame_trans; [eapply frame_mono; [|exact Hf2]|exact Hf3]];
      intros q Hq; apply elem_of_app; by left.
Qed.

(** An image whose address space changed. *)
Lemma uimage_utrans k u F k' n' F' :
  uimage k u F → utrans (i_pt u) k (i_n u) F k' n' F' → uimage k' (mkImg (i_pt u) n' (i_tf u)) F'.
Proof.
  destruct top_consts as (ET & ER & EM & ES). intros (Hu & Htf & T1 & T2 & T3) (Hu' & _ & Hv & _).
  split; [done|]. split; [done|]. cbn. split; [|split]; intros va Hva; cbn; rewrite Hv by lia; auto.
Qed.

(** The memory outside an address space and the free pages stays. *)
Lemma utrans_frame pt k n F k' n' F' :
  uspace k pt n F → 0 ≤ n' → utrans pt k n F k' n' F' → frame (upages k pt n ++ F) (mm k) (mm k').
Proof.
  intros (_ & Hn & _) Hn' (_ & _ & _ & Hf). eapply frame_mono; [|exact Hf]. intros q.
  unfold upages. rewrite !elem_of_app, !phys_pages_elem. intros [(i & -> & Hi)|[Hq|Hq]]; [|tauto..].
  do 2 left. exists (n' + i). split; [do 2 f_equal|]; lia.
Qed.

(** ** All the memory: the images [U], and the pages [all] between them and the
    free list *)

Definition memx (all : list Z) (k : kst) (U : list img) : Prop :=
  ∃ Fr, mem_ok k U Fr ∧ (U ≫= ipages k) ++ Fr ≡ₚ all.

Lemma memx_perm all k U U' : memx all k U → U ≡ₚ U' → memx all k U'.
Proof.
  intros (Fr & (Hk & Hnd & Hall) & HP) E. exists Fr. rewrite E in HP, Hnd, Hall. done.
Qed.

(** The frame rule for [memx]. *)
Lemma memx_change all k W U Fr k' W' F' :
  mem_ok k (W ++ U) Fr → ((W ++ U) ≫= ipages k) ++ Fr ≡ₚ all → kmem_inv k' F' →
  frame ((W ≫= ipages k) ++ Fr) (mm k) (mm k') →
  (W' ≫= ipages k') ++ F' ≡ₚ (W ≫= ipages k) ++ Fr →
  Forall (λ u, uimage k' u F') W' →
  memx all k' (W' ++ U).
Proof.
  intros Hm Ha Hk' Hf HP HW'. destruct (mem_ok_change _ _ _ _ _ _ _ Hm Hk' Hf HP HW') as [Hm' EU].
  exists F'. split; [done|]. rewrite <-Ha, !bind_app, EU.
  rewrite <-!app_assoc, (Permutation_app_swap_app (W' ≫= _)), (Permutation_app_swap_app (W ≫= _)). by rewrite HP.
Qed.

(** The memory of a process is given back. *)
Lemma free_image_run all k u U sz :
  memx all k (u :: U) → i_n u = PGROUNDUP sz / PGSIZE → 0 ≤ sz ≤ TRAPFRAME →
  wp (kfree (i_tf u) ;; proc_freepagetable (i_pt u) sz) (λ _ k', memx all k' U) k.
Proof.
  intros (Fr & Hm & Ha) En Hsz. pose proof Hm as (Hk & Hnd & Hall).
  apply Forall_cons_1 in Hall as [(Hu & Htf & Ht) _]. cbn in Hnd.
  change (list_bind _ _ (ipages k) U) with (U ≫= ipages k) in Hnd.
  apply list.NoDup_cons in Hnd as [Hn1 Hnd]. rewrite <-app_assoc in Hnd. rewrite !not_elem_of_app in Hn1.
  destruct Hn1 as [[Hn1 _] Hn2].
  assert (NoDup (upages k (i_pt u) (i_n u) ++ Fr)) as Hnd1 by apply Hu.
  wp_run. eapply wp_mono; [by apply kfree_run|]. cbv beta. intros [] k1 [Hk1 Ho1].
  destruct (uspace_other k (i_pt u) (i_n u) Fr k1 (i_tf u :: Fr)) as (Hu1 & Eu1 & Ev1); [done|done| | |].
  - rewrite <-Permutation_middle. apply list.NoDup_cons. split; [|done]. by apply not_elem_of_app.
  - intros q Hq. pose proof Hu as (_ & _ & _ & _ & Hok & _). rewrite Forall_forall in Hok.
    eapply only_page_agree; [exact Htf|by apply Hok, list_elem_of_In|by intros E; apply Hn1; rewrite E|done].
  - eapply wp_mono; [apply (proc_freepagetable_run k1 u (i_tf u :: Fr) sz); [|done|done]|].
    + split; [done|]. split; [done|]. destruct Ht as (T1 & T2 & T3).
      split; [|split]; intros va Hva; rewrite Ev1; auto.
    + cbv beta. intros [] k2 (F2 & Hk2 & HP2 & Hf2). rewrite Eu1 in HP2, Hf2.
      apply (memx_change all k [u] U Fr k2 [] F2); [done|done|done| | |done].
      * cbn. rewrite app_nil_r. eapply frame_trans; [eapply frame_mono; [|by apply frame_only_page]|
          eapply frame_mono; [|exact Hf2]]; intros q.
        { intros ->%list_elem_of_singleton. constructor. }
        by rewrite <-Permutation_middle.
      * cbn. rewrite app_nil_r, HP2. by rewrite <-Permutation_middle.
Qed.

(** A trapframe page and a page table are allocated. *)
Lemma alloc_image_run all k U :
  memx all k U →
  wp kalloc (λ tf k1,
    tf = 0 ∧ memx all k1 U ∨
    tf ≠ 0 ∧ wp (proc_pagetable tf) (λ pt k2,
      pt = 0 ∧ wp (kfree tf) (λ _ k3, memx all k3 U) k2 ∨
      pt ≠ 0 ∧ memx all k2 (mkImg pt 0 tf :: U) ∧
      ∀ q, q ∈ U ≫= ipages k → agree (mm k) (mm k2) q PGSIZE) k1) k.
Proof.
  intros (Fr & Hm & Ha). pose proof Hm as (Hk & _ & _). eapply wp_mono; [by apply kalloc_run|]. cbv beta.
  intros tf k1 H1. destruct Fr as [|p Fr]; [destruct H1 as [-> ->]; left; split; [done|]; by exists []|].
  destruct H1 as (-> & Hk1 & Hw1). right. pose proof Hk as (_ & _ & Hnd & Hok).
  apply Forall_cons_1 in Hok as [Hp _]. apply list.NoDup_cons in Hnd as [HpF _].
  pose proof (page_ok_pos p Hp). split; [lia|].
  eapply wp_mono; [by apply (proc_pagetable_run k1 Fr p)|]. cbv beta.
  intros pt k2 (F2 & Hk2 & Hf2 & Hc).
  assert (frame (p :: Fr) (mm k) (mm k2)) as Hfr.
  { eapply frame_trans; [eapply frame_mono; [|by eapply frame_written]|eapply frame_mono; [|exact Hf2]]; intros q; set_solver. }
  destruct Hc as [(-> & HP2 & _)|(Hpt & Hi & HP2 & _)]; [left|right]; (split; [done|]).
  - eapply wp_mono; [apply (kfree_run p k2 F2); [done|done|by rewrite HP2]|]. cbv beta. intros [] k3 [Hk3 Ho3].
    apply (memx_change all k [] U (p :: Fr) k3 [] (p :: F2)); [done|done|done| |cbn; by rewrite HP2|done].
    eapply frame_trans; [exact Hfr|]. eapply frame_mono; [|by apply frame_only_page]. intros q; set_solver.
  - split.
    + apply (memx_change all k [] U (p :: Fr) k2 [mkImg pt 0 p] F2); [done|done|done|exact Hfr| |by constructor].
      cbn. rewrite app_nil_r. by rewrite HP2.
    + intros q Hq. pose proof Hm as (_ & HndU & _). apply list.NoDup_app in HndU as (_ & Hd & _).
      eapply frame_agree; [|by apply (images_aligned_elem k U (p :: Fr))|by apply Hd|exact Hfr].
      apply (images_aligned k [] U (p :: Fr) Hm).
Qed.

(** The address space of a process changes. *)
Lemma memx_utrans all k u U Fr k' n' F' :
  mem_ok k (u :: U) Fr → ((u :: U) ≫= ipages k) ++ Fr ≡ₚ all → utrans (i_pt u) k (i_n u) Fr k' n' F' →
  memx all k' (mkImg (i_pt u) n' (i_tf u) :: U).
Proof.
  intros Hm Ha Htr. pose proof Hm as (Hk & _ & Hall). apply Forall_cons_1 in Hall as [Hi _].
  pose proof Hi as (Hu & Htf & _). pose proof Htr as (Hu' & HP & _).
  apply (memx_change all k [u] U Fr k' [mkImg (i_pt u) n' (i_tf u)] F'); [done|done|apply Hu'| | |].
  - cbn. rewrite app_nil_r. eapply frame_mono; [|eapply utrans_frame; [done|apply Hu'|done]]. intros q Hq. by right.
  - cbn. rewrite !app_nil_r. by rewrite HP.
  - constructor; [|done]. by eapply uimage_utrans.
Qed.

(** The code changed only pages of [u], and not its tables, or kernel data. *)
Lemma memx_pages all k u U k' :
  memx all k (u :: U) → kmem_locked k' = kmem_locked k → freelist k' = freelist k →
  (∀ q, page_ok q → q ∉ upages k (i_pt u) (i_n u) → agree (mm k) (mm k') q PGSIZE) →
  (∀ q, q ∈ ptpages 2 (mm k) (i_pt u) → agree (mm k) (mm k') q PGSIZE) →
  memx all k' (u :: U).
Proof.
  intros (Fr & Hm & Ha) E1 E2 Hp Ht. pose proof Hm as (Hk & Hnd & Hall).
  apply Forall_cons_1 in Hall as [(Hu & Htf & T1 & T2 & T3) _]. pose proof Hu as (_ & Hn & Hmax & Hnd1 & Hok & Hleaf & Hfree & Htop & Hio).
  assert (∀ va, pteval 2 (mm k') (i_pt u) va = pteval 2 (mm k) (i_pt u) va) as Ev by (intros va; by apply pteval_agree).
  assert (upages k' (i_pt u) (i_n u) = upages k (i_pt u) (i_n u)) as Eu.
  { rewrite (upages_ext k k') by (intros; apply Ev). by rewrite (ptpages_agree 2 (mm k) (mm k')). }
  assert (kmem_inv k' Fr) as Hk'.
  { apply (kmem_inv_frame k); try done. intros q Hq. apply Hp.
    - destruct Hk as (_ & _ & _ & HF). rewrite Forall_forall in HF. by apply HF, list_elem_of_In.
    - intros Hq'. apply list.NoDup_app in Hnd1 as (_ & Hd & _). by apply (Hd q). }
  assert (ipages k' u = ipages k u) as Ei by (unfold ipages; by rewrite Eu).
  destruct (mem_ok_pages k [u] U Fr k' [u] Fr) as [Hm' EU]; [done|done| | | |].
  - intros q Hq Hn'. apply Hp; [done|]. intros Hq'. apply Hn'. cbn. rewrite app_nil_r. right. apply elem_of_app. by left.
  - cbn. by rewrite Eu.
  - constructor; [|done]. split; [|split; [done|split; [|split]; intros va Hva; rewrite Ev; auto]].
    unfold uspace. rewrite Eu. split; [done|]. do 2 (split; [done|]). split; [done|]. split; [done|].
    split; [intros i Hi; rewrite Ev; by apply Hleaf|]. split; [intros va Hva; rewrite Ev; by apply Hfree|].
    split; [intros va Hva; rewrite Ev; by apply Htop|]. by eapply inner_ok_agree.
  - exists Fr. split; [exact Hm'|]. rewrite <-Ha. cbn in *. change (list_bind _ _ (ipages ?k) U) with (U ≫= ipages k) in *.
    by rewrite Eu, EU.
Qed.

Lemma memx_kdata all k u U m' :
  memx all k (u :: U) → (∀ x, kend ≤ x → load8 m' x = load8 (mm k) x) → memx all (set_mm m' k) (u :: U).
Proof.
  intros Hm Hx. assert (∀ q, page_ok q → agree (mm k) m' q PGSIZE) as Ha.
  { intros q [_ Hq] x Hr. apply Hx. lia. }
  eapply memx_pages; [exact Hm|done|done|intros q Hq _; by apply Ha|]. intros q Hq. apply Ha.
  destruct Hm as (Fr & (_ & _ & [(Hu & _) _]%Forall_cons_1) & _). destruct Hu as (_ & _ & _ & _ & Hok & _).
  rewrite Forall_forall in Hok. apply Hok, list_elem_of_In. unfold upages. apply elem_of_app. by right.
Qed.

(** [copyout] to the memory of a process. *)
Lemma copyout_image_run all k u U dst src len :
  memx all k (u :: U) → 0 ≤ dst < 2 ^ 64 → 0 ≤ len < 2 ^ 32 → src + len ≤ kend →
  wp (copyout (i_pt u) dst src len) (λ _ k', memx all k' (u :: U)) k.
Proof.
  intros Hm Hd Hl Hs. pose proof Hm as (Fr & (_ & _ & [(Hu & _) _]%Forall_cons_1) & _).
  pose proof (uspace_umap _ _ _ _ Hu) as Hum. pose proof Hu as (_ & _ & _ & _ & Hok & _).
  assert (∀ q, q ∈ upages k (i_pt u) (i_n u) → page_ok q) as Hpg.
  { intros q Hq. rewrite Forall_forall in Hok. by apply Hok, list_elem_of_In. }
  eapply wp_mono; [apply (copyout_run (i_pt u) k (i_n u)); try done|].
  - intros q Hq. left. destruct (Hpg q Hq) as [_ ?]. lia.
  - cbv beta. intros r k' (c & m' & -> & Hc & Hcp & Hsome & _). eapply memx_pages; [exact Hm|done|done| |].
    + intros q Hq Hn x Hx. destruct Hcp as [_ Hout]. apply Hout. intros i Hi E.
      apply (uaddr_elem _ _ _ Hum) in E as (p & _ & El & -> & Hp & _); [|lia].
      apply Hn. apply list_elem_of_lookup_2 in El. destruct Hq as [Hq _].
      replace q with p by pglia. unfold upages. apply elem_of_app. by left.
    + intros q Hq. eapply ucopied_tables; [exact Hum| |exact Hcp|done]. lia.
Qed.

(** The trapframe page is written. *)
Lemma memx_tf all k u U m' :
  memx all k (u :: U) → frame [i_tf u] (mm k) m' →
  memx all (set_mm m' k) (u :: U) ∧ ∀ q, q ∈ upages k (i_pt u) (i_n u) → agree (mm k) m' q PGSIZE.
Proof.
  intros (Fr & Hm & Ha) Hf. pose proof Hm as (Hk & Hnd & Hall).
  apply Forall_cons_1 in Hall as [(Hu & Htf & T1 & T2 & T3) _]. pose proof Hu as (_ & _ & _ & Hnd1 & Hok & _).
  cbn in Hnd. apply list.NoDup_cons in Hnd as [Hn1 _]. rewrite !not_elem_of_app in Hn1. destruct Hn1 as [[Hn1 _] Hn2].
  assert (∀ q, page_ok q → q ≠ i_tf u → agree (mm k) m' q PGSIZE) as Hag.
  { intros q [Hq _] Hne. eapply frame_agree; [by constructor; [apply Htf|]|exact Hq|by intros ?%list_elem_of_singleton|exact Hf]. }
  assert (∀ l q, Forall page_ok l → i_tf u ∉ l → q ∈ l → agree (mm k) m' q PGSIZE) as Hl.
  { intros l q Hl Hn Hq. apply Hag; [rewrite Forall_forall in Hl; by apply Hl, list_elem_of_In|]. by intros ->. }
  assert (kmem_inv (set_mm m' k) Fr) as Hk'.
  { apply (kmem_inv_frame k); try done. intros q Hq. eapply Hl; [|exact Hn2|exact Hq]. by destruct Hk as (_ & _ & _ & ?). }
  assert (∀ q, q ∈ upages k (i_pt u) (i_n u) → agree (mm k) m' q PGSIZE) as Hup.
  { intros q Hq. by eapply (Hl (upages k (i_pt u) (i_n u))). }
  split; [|done].
  destruct (uspace_other k (i_pt u) (i_n u) Fr (set_mm m' k) Fr) as (Hu' & Eu & Ev); [done|done|done|done|].
  apply (memx_change all k [u] U Fr (set_mm m' k) [u] Fr); [done|done|done| | |].
  - eapply frame_mono; [|exact Hf]. intros q ->%list_elem_of_singleton. cbn. constructor.
  - cbn. by rewrite Eu.
  - constructor; [|done]. split; [done|]. split; [done|]. split; [|split]; intros va Hva; rewrite Ev; auto.
Qed.

(** [uvmcopy] from one process to another. *)
Lemma copy_image_run all k u v U sz :
  memx all k (u :: v :: U) → i_n u = 0 → i_n v = PGROUNDUP sz / PGSIZE → 0 ≤ sz < 4294967296 →
  wp (uvmcopy (i_pt v) (i_pt u) sz) (λ r k',
    r = 0 ∧ memx all k' (mkImg (i_pt u) (i_n v) (i_tf u) :: v :: U) ∧
      (∀ i, 0 ≤ i < i_n v → page_copied k (i_pt v) k' (i_pt u) (i * PGSIZE)) ∧ agree (mm k) (mm k') (i_tf v) PGSIZE ∨
    r = -1 ∧ memx all k' (u :: v :: U)) k.
Proof.
  intros Hm En Ev Hsz. assert (TRAPFRAME = 274877898752) as ET by done.
  pose proof Hm as (Fr & Hok & HP). pose proof Hok as (Hk & Hnd & Hall).
  apply Forall_cons_1 in Hall as [(Hu & Htu & _) Hall]. apply Forall_cons_1 in Hall as [(Hv & Htv & _) _].
  assert (NoDup (upages k (i_pt v) (i_n v) ++ upages k (i_pt u) 0 ++ Fr)) as Hnd2.
  { rewrite En in Hu. cbn in Hnd. apply list.NoDup_cons in Hnd as [_ Hnd].
    rewrite En, <-!app_assoc in Hnd. cbn in Hnd. rewrite <-Permutation_middle in Hnd. apply list.NoDup_cons in Hnd as [_ Hnd].
    rewrite <-app_assoc in Hnd. rewrite (Permutation_app_swap_app (upages k (i_pt v) _)).
    eapply sublist_NoDup; [exact Hnd|]. apply sublist_app; [done|]. apply sublist_app; [done|]. by apply sublist_inserts_l. }
  eapply wp_mono; [apply (uvmcopy_run (i_pt v) (i_pt u) k (i_n v) Fr sz); try done; [by rewrite <-En|lia]|]. cbv beta.
  assert (i_tf v ∉ upages k (i_pt u) (i_n u) ++ Fr) as Htn.
  { cbn in Hnd. rewrite <-!app_assoc in Hnd. cbn in Hnd. apply list.NoDup_cons in Hnd as [_ Hnd].
    rewrite <-Permutation_middle in Hnd. apply list.NoDup_cons in Hnd as [Hn _].
    rewrite !not_elem_of_app in Hn. rewrite not_elem_of_app.
    by destruct Hn as [Hn [_ Hn']]. }
  assert (∀ k' n' F', utrans (i_pt u) k 0 Fr k' n' F' →
    memx all k' (mkImg (i_pt u) n' (i_tf u) :: v :: U) ∧ agree (mm k) (mm k') (i_tf v) PGSIZE) as Hst.
  { intros k' n' F' Ht. rewrite <-En in Ht. split; [by eapply (memx_utrans all k u (v :: U))|].
    eapply frame_agree; [exact (upages_aligned _ _ _ _ Hu)|apply Htv|exact Htn|].
    eapply utrans_frame; [done| |done]. destruct Ht as ((_ & ? & _) & _). done. }
  intros r k' (F' & [(-> & Ht & Hc)|(-> & Ht)]); [left|right]; (split; [done|]); destruct (Hst k' _ F' Ht) as [H1 H2]; [done|].
  destruct u. cbn in *. by subst.
Qed.

(** Agreement on the pages of an address space is agreement on its contents. *)
Lemma upages_same k k' pt n i :
  (∀ q, q ∈ upages k pt n → agree (mm k) (mm k') q PGSIZE) → 0 ≤ i < n →
  let e := pteval 2 (mm k) pt (i * PGSIZE) in
  pteval 2 (mm k') pt (i * PGSIZE) = e ∧ ∀ x, 0 ≤ x < PGSIZE → load8 (mm k') (PTE2PA e + x) = load8 (mm k) (PTE2PA e + x).
Proof.
  intros Ha Hi. split.
  - apply pteval_agree. intros q Hq. apply Ha. apply elem_of_app. by right.
  - intros x Hx. apply (Ha (PTE2PA (pteval 2 (mm k) pt (i * PGSIZE)))); [|lia]. apply elem_of_app. left.
    apply list_elem_of_fmap. exists i. split; [done|]. apply elem_of_seqZ. lia.
Qed.

Lemma page_copied_same k0 k0' old k k' new n i :
  (∀ q, q ∈ upages k0 old n → agree (mm k0) (mm k0') q PGSIZE) → (∀ q, q ∈ upages k new n → agree (mm k) (mm k') q PGSIZE) →
  0 ≤ i < n → page_copied k0' old k new (i * PGSIZE) → page_copied k0 old k' new (i * PGSIZE).
Proof.
  intros Ho Hn Hi [Hf Hl]. destruct (upages_same _ _ _ _ _ Ho Hi) as [E1 L1], (upages_same _ _ _ _ _ Hn Hi) as [E2 L2].
  unfold page_copied. rewrite E1 in Hf, Hl. rewrite E2. split; [done|]. intros x Hx. rewrite L2, Hl, L1; done.
Qed.

(** What [fork] does to memory: image [u] is a copy of image [v], but for [a0]. *)
Definition forked_mem (k k' : kst) (u v : img) : Prop :=
  (∀ i, 0 ≤ i < i_n v → page_copied k (i_pt v) k' (i_pt u) (i * PGSIZE)) ∧
  (∀ x, 0 ≤ x < TF_size → x < TF_a0 ∨ TF_a0 + 8 ≤ x → load8 (mm k') (i_tf u + x) = load8 (mm k) (i_tf v + x)) ∧
  load64 (mm k') (i_tf u + TF_a0) = 0.

Lemma fork_tf_run all k k1 u v U :
  memx all k1 (u :: v :: U) → i_n u = i_n v →
  (∀ i, 0 ≤ i < i_n v → page_copied k (i_pt v) k1 (i_pt u) (i * PGSIZE)) → agree (mm k) (mm k1) (i_tf v) PGSIZE →
  wp (kmemmove (i_tf u) (i_tf v) TF_size) (λ _ k2, memx all k2 (u :: v :: U) ∧
    wp (kstore64 (i_tf u + TF_a0) 0) (λ _ k3, memx all k3 (u :: v :: U) ∧ forked_mem k k3 u v) k2) k1.
Proof.
  intros Hm En Hc Ha. eapply wp_mono; [by apply kmemmove_run|]. cbv beta. intros _ k2 (m2 & _ & -> & Hw).
  assert (PGSIZE = 4096) as EP by done. unfold forked_mem, TF_size, TF_a0 in *.
  destruct (memx_tf all k1 u (v :: U) m2 Hm) as [Hm2 A2].
  { intros x Hx. specialize (Hx (i_tf u) (list_elem_of_here _ _)). rewrite Hw. destruct (_ && _) eqn:E; [|done]. bool_to_prop. lia. }
  split; [done|]. apply wp_kstore64. cbn [mm set_mm].
  destruct (memx_tf all (set_mm m2 k1) u (v :: U) (store64 m2 (i_tf u + 112) 0) Hm2) as [Hm3 A3].
  { apply (frame_store64 m2 (i_tf u) 14). lia. }
  split; [done|]. split; [|split].
  - intros i Hi. apply (page_copied_same k k (i_pt v) (set_mm m2 k1) _ (i_pt u) (i_n v)); [done| |done|].
    { rewrite <-En. exact A3. }
    apply (page_copied_same k k (i_pt v) k1 _ (i_pt u) (i_n v)); [done| |done|auto]. rewrite <-En. exact A2.
  - intros x Hx Hn. cbn. rewrite load8_store64_out, Hw by lia. rewrite (proj2 (Z.leb_le _ _)), (proj2 (Z.ltb_lt _ _)) by lia. cbn.
    replace (i_tf v + (i_tf u + x - i_tf u)) with (i_tf v + x) by lia. apply Ha. lia.
  - cbn. by rewrite load64_store64.
Qed.

End procmem.
