(* ===== verification/Trampoline.v ===== *)
(** * Into the kernel and back: what trampoline.S does

    [uservec] saves the registers of the user in the trapframe, through the page
    table of the user, and goes to [usertrap] on the kernel's page table;
    [userret] loads them again. *)

From stdpp Require Import base gmap list strings numbers.
From S2P Require Import Prelude Machine Riscv Hart KString Kalloc Vm PageTable Asm AsmSpec Uvm FreeWalk UserCopy Spinlock Proc ProcMem.

(** Where the registers are in [struct trapframe]. *)
Definition uregs : list (reg * Z) :=
  [(RA, 40); (SP, 48); (GP, 56); (TP, 64); (T0, 72); (T1, 80); (T2, 88); (S0, 96); (S1, 104); (A1, 120); (A2, 128); (A3, 136);
   (A4, 144); (A5, 152); (A6, 160); (A7, 168); (S2, 176); (S3, 184); (S4, 192); (S5, 200); (S6, 208); (S7, 216); (S8, 224); (S9, 232);
   (S10, 240); (S11, 248); (T3, 256); (T4, 264); (T5, 272); (T6, 280)].
Definition frame_regs : list (reg * Z) := (A0, 112) :: uregs.

Lemma userret_eq : userret = Csrw SATP A1 :: SfenceVma :: loads A0 [(T0, 112)] ++ Csrw SSCRATCH T0 :: loads A0 uregs ++ [Csrrw A0 SSCRATCH A0; Sret].
Proof. reflexivity. Qed.

Definition tf_win (tf : Z) : window := mkWin TRAPFRAME tf PGSIZE.

(** ** The mapping of the trapframe *)

Section mapping.
Context `{LO : LayoutOk}.

Lemma MAKE_SATP_mode pt : 0 ≤ pt < 2 ^ 56 → Z.shiftr (MAKE_SATP pt) 60 = 8.
Proof.
  intros H0. unfold MAKE_SATP, SATP_SV39. rewrite Z.shiftr_lor, Z.shiftr_shiftl_l by lia. rewrite Z.shiftr_shiftr by lia.
  rewrite (Z.shiftr_div_pow2 pt) by lia. rewrite Z.div_small by lia. done.
Qed.
Lemma MAKE_SATP_root pt : 0 ≤ pt < 2 ^ 56 → pt mod PGSIZE = 0 → satp_root (MAKE_SATP pt) = pt.
Proof.
  intros H0 Hal. unfold MAKE_SATP, SATP_SV39, satp_root. rewrite Z.land_lor_distr_l, !Z.land_ones by lia.
  change (Z.shiftl 8 60 mod 2 ^ 44) with 0. rewrite Z.lor_0_l, Z.shiftr_div_pow2, Z.shiftl_mul_pow2 by lia.
  rewrite Z.mod_small by (change (2 ^ 12) with 4096; zlia). change (2 ^ 12) with PGSIZE. pglia.
Qed.
Lemma MAKE_SATP_range pt : 0 ≤ pt < 2 ^ 56 → 0 ≤ MAKE_SATP pt < 18446744073709551616.
Proof.
  intros H0. assert (0 ≤ MAKE_SATP pt) as H1.
  { unfold MAKE_SATP. apply Z.lor_nonneg. split; [done|]. apply Z.shiftr_nonneg. lia. }
  split; [done|]. pose proof (MAKE_SATP_mode pt H0) as E. rewrite Z.shiftr_div_pow2 in E by lia. change (2 ^ 60) with 1152921504606846976 in E. zlia.
Qed.

Lemma trapframe_mapped k u Fr h :
  uimage k u Fr → i_tf u ∉ ptpages 2 (mm k) (i_pt u) → h_mode h = Supervisor → h_csr h SATP = MAKE_SATP (i_pt u) →
  mapped h (mm k) [tf_win (i_tf u)].
Proof.
  intros (Hu & Htf & T1 & _) Hnin Hmode Hsatp m' w o perm Hc Hw H1 H2 H3 Hperm.
  apply list_elem_of_singleton in Hw as ->. unfold tf_win in *. cbn [w_va w_pa w_n] in *.
  pose proof Hu as (_ & _ & _ & Hnd & Hok & _).
  assert (∀ q, q ∈ ptpages 2 (mm k) (i_pt u) → page_ok q) as Hpt.
  { intros q Hq. rewrite Forall_forall in Hok. apply Hok, list_elem_of_In. unfold upages. apply elem_of_app. by right. }
  assert (page_ok (i_pt u)) as Hroot by (apply Hpt, ptpages_head).
  assert (∀ q, page_ok q → 0 ≤ q < 2 ^ 56 ∧ q mod PGSIZE = 0) as Hrange.
  { intros q [Hq1 Hq2]. pose proof etext_ok. unfold PHYSTOP, KERNBASE in *. split; [lia|done]. }
  assert (TRAPFRAME = 274877898752) as ET by done.
  rewrite u64_small by pglia. unfold access. cbn [m_hart m_mem]. rewrite (proj2 (Z.eqb_eq _ _)) by pglia.
  destruct (Hrange _ Hroot) as [Hr1 Hr2], (Hrange _ Htf) as [Ht1 Ht2].
  unfold translate. rewrite Hmode, Hsatp, MAKE_SATP_mode, MAKE_SATP_root by done. 
  rewrite (bool_decide_false (Supervisor = Machine)) by done. cbn [orb Z.eqb Pos.eqb].
  assert (pteval 2 m' (i_pt u) (TRAPFRAME + o) = tf_pte (i_tf u)) as ->.
  { rewrite (pteval_agree 2 (mm k)); [apply T1; unfold TRAPFRAME in *; pglia|]. intros q Hq x Hx. apply Hc. intros w ->%list_elem_of_singleton. cbn [w_pa w_n].
    destruct (pages_disjoint q (i_tf u)); [by apply Hpt|done|by intros ->|lia|lia]. }
  unfold tf_pte. assert (0 ≤ Z.lor (Z.lor PTE_R PTE_W) PTE_V < 1024) as Hfl by done.
  rewrite mkpte_PA by done. rewrite !has_mkpte by (done || by destruct Hperm as [->| ->]).
  rewrite (proj2 (Z.leb_le 0 _)), (proj2 (Z.ltb_lt _ MAXVA)) by (change MAXVA with 274877906944; pglia).
  replace (has perm _) with true by (by destruct Hperm as [->| ->]). cbn. f_equal. rewrite ET. pglia.
Qed.
End mapping.

(** ** uservec *)

(** The registers [R] of the user are in the trapframe. *)
Definition in_frame (tf : Z) (R : reg → Z) (m : mem) : Prop := ∀ r o, (r, o) ∈ frame_regs → load64 m (tf + o) = R r.

(** The registers that the trapframe holds. *)
Definition uoff (r : reg) : Z := default 0 (snd <$> head (filter (λ p, p.1 = r) frame_regs)).
Definition frame_at (tf : Z) (m : mem) (r : reg) : Z := load64 m (tf + uoff r).

Lemma in_frame_at tf m : in_frame tf (frame_at tf m) m.
Proof.
  assert (Forall (λ p, uoff p.1 = p.2) frame_regs) as Hall by (apply (bool_decide_unpack _); by vm_compute). rewrite Forall_forall in Hall.
  intros r o Hro. unfold frame_at. apply list_elem_of_In in Hro. pose proof (Hall _ Hro : uoff r = o) as ->. done.
Qed.
Lemma frame_at_ok tf m : regs_ok (frame_at tf m).
Proof. intros r. apply load64_range. Qed.

Lemma frame_regs_all r : ∃ o, (r, o) ∈ frame_regs.
Proof.
  assert (r ∈ frame_regs.*1) as ([r' o] & -> & Ho)%list_elem_of_fmap by (destruct r; apply (bool_decide_unpack _); by vm_compute). by exists o.
Qed.

(** The first part of [uservec]: the registers are saved. *)
Definition saved_hart (h : hart) : hart := set_reg T0 (u64 (h_reg h A0)) (set_reg A0 TRAPFRAME (set_csr SSCRATCH (h_reg h A0) h)).

Lemma uregs_range r o : (r, o) ∈ uregs → 40 ≤ o ∧ o + 8 ≤ 288 ∧ o ≠ 112 ∧ r ≠ A0.
Proof.
  intros Hro. assert (Forall (λ p, 40 ≤ p.2 ∧ p.2 + 8 ≤ 288 ∧ p.2 ≠ 112 ∧ p.1 ≠ A0) uregs) as Hall by (apply (bool_decide_unpack _); by vm_compute).
  rewrite Forall_forall in Hall. apply list_elem_of_In in Hro. exact (Hall _ Hro).
Qed.

Lemma uservec_saves cc h m tf :
  mapped h m [tf_win tf] → h_csr h SSCRATCH = TRAPFRAME → regs_ok (h_reg h) →
  ∃ m', Asm.run cc (Csrrw A0 SSCRATCH A0 :: saves A0 uregs ++ Csrr T0 SSCRATCH :: saves A0 [(T0, 112)]) (mkMach h m) = Some (mkMach (saved_hart h) m') ∧
    in_frame tf (h_reg h) m' ∧ ∀ x, x < tf + 40 ∨ tf + 288 ≤ x → load8 m' x = load8 m x.
Proof.
  intros Hm Hss HR. set (h1 := set_reg A0 TRAPFRAME (set_csr SSCRATCH (h_reg h A0) h)).
  assert (exec_instr cc (Csrrw A0 SSCRATCH A0) (mkMach h m) = Some (mkMach h1 m)) as E0 by (unfold h1; rewrite <-Hss; reflexivity).
  rewrite (run_step _ _ _ _ _ E0), run_app.
  assert (fits PGSIZE uregs) as Hf by (apply (bool_decide_unpack _); by vm_compute).
  assert (h_reg h1 A0 = TRAPFRAME) as EA by exact (u64_small TRAPFRAME ltac:(done)).
  destruct (run_saves cc [tf_win tf] (tf_win tf) A0 uregs (mkMach h1 m)) as (m1 & E1 & S1 & S1'); [by constructor|by eapply mapped_hart; [| |exact Hm]|done|done|].
  rewrite E1. cbn [mbind option_bind]. change (set_mem m1 (mkMach h1 m)) with (mkMach h1 m1).
  rewrite (run_step cc (Csrr T0 SSCRATCH) _ _ (mkMach (saved_hart h) m1)) by reflexivity.
  destruct (run_saves cc [tf_win tf] (tf_win tf) A0 [(T0, 112)] (mkMach (saved_hart h) m1)) as (m2 & E2 & S2 & S2');
    [by constructor| |done|apply (bool_decide_unpack _); by vm_compute|].
  { eapply mapped_mem; [|by eapply mapped_hart; [| |exact Hm]]. eapply (saved_change _ (tf_win tf) uregs); [by constructor|done|by split]. }
  exists m2. split; [exact E2|]. cbn [m_hart m_mem tf_win w_pa] in S1, S1', S2, S2'. split.
  - intros r o [[= -> ->]|Hro]%elem_of_cons.
    + rewrite (S2 T0 112) by constructor. change (u64 (u64 (u64 (h_reg h A0))) = h_reg h A0). rewrite !(u64_small (h_reg h A0)) by apply HR. done.
    + destruct (uregs_range r o Hro) as (_ & _ & Ho & Hr). rewrite (load64_ext m1 m2).
      * rewrite (S1 r o Hro). unfold h1. rewrite reg_set, decide_False by done. apply u64_small, HR.
      * intros x Hx. apply S2'. intros r' o' Hro'. apply list_elem_of_singleton in Hro'. injection Hro' as -> ->.
        assert (fits PGSIZE frame_regs) as Hf2 by (apply (bool_decide_unpack _); by vm_compute).
        destruct (fits_apart _ _ r o A0 112 Hf2) as [->|]; [by right|by left|done|lia].
  - intros x Hx. rewrite S2', S1'; [done| |].
    + intros r o Hro. apply uregs_range in Hro. lia.
    + intros r o Hro. apply list_elem_of_singleton in Hro. injection Hro as -> ->. lia.
Qed.

Lemma uservec_run cc h m tf :
  mapped h m [tf_win tf] → h_csr h SSCRATCH = TRAPFRAME → regs_ok (h_reg h) →
  ∃ R' C' m', Asm.run cc uservec (mkMach h m) = Some (mkMach (mkHart (h_mode h) (load64 m (tf + 16)) R' C') m') ∧
    R' SP = load64 m (tf + 8) ∧ R' TP = load64 m (tf + 32) ∧ C' SATP = load64 m tf ∧
    (∀ c, c ≠ SATP → c ≠ SSCRATCH → C' c = h_csr h c) ∧
    in_frame tf (h_reg h) m' ∧ ∀ x, x < tf + 40 ∨ tf + 288 ≤ x → load8 m' x = load8 m x.
Proof.
  intros Hm Hss HR. destruct (uservec_saves cc h m tf Hm Hss HR) as (m2 & E & Hin & Hout).
  set (l := [(SP, 8); (TP, 32); (T0, 16); (T1, 0)]).
  assert (uservec = (Csrrw A0 SSCRATCH A0 :: saves A0 uregs ++ Csrr T0 SSCRATCH :: saves A0 [(T0, 112)]) ++ loads A0 l ++ [Csrw SATP T1; SfenceVma; Jr T0]) as -> by reflexivity.
  rewrite run_app, E. cbn [mbind option_bind]. rewrite run_app.
  destruct (run_loads cc [tf_win tf] (tf_win tf) A0 l (mkMach (saved_hart h) m2)) as (R' & E3 & L1 & L2);
    [by constructor| |exact (u64_small TRAPFRAME ltac:(done))|apply (bool_decide_unpack _); by vm_compute|apply (bool_decide_unpack _); by vm_compute| |].
  { eapply mapped_mem; [|by eapply mapped_hart; [| |exact Hm]]. intros x Hx. apply Hout. specialize (Hx (tf_win tf) ltac:(by constructor)). cbn [tf_win w_pa w_n] in Hx. pglia. }
  { intros o Ho. exfalso. revert Ho. rewrite list_elem_of_In. cbn. intuition discriminate. }
  rewrite E3. cbn [mbind option_bind]. cbn [m_hart m_mem tf_win w_pa] in L1, L2.
  assert (∀ r o, In (r, o) l → R' r = load64 m (tf + o)) as HR'.
  { intros r o Hro. rewrite (L1 r o) by by apply list_elem_of_In. apply load64_ext. intros x Hx. apply Hout. left.
    destruct Hro as [[= <- <-]|[[= <- <-]|[[= <- <-]|[[= <- <-]|[]]]]]; lia. }
  exists R', (h_csr (csr_write SATP (R' T1) (saved_hart h))), m2. split; [|split_and!].
  - rewrite <-(HR' T0 16) by (cbn; tauto). reflexivity.
  - apply HR'. cbn. tauto.
  - apply HR'. cbn. tauto.
  - change (u64 (R' T1) = load64 m tf). rewrite (HR' T1 0) by (cbn; tauto). rewrite Z.add_0_r. apply u64_small, load64_range.
  - intros c H1 H2. cbn [csr_write]. rewrite csr_set, decide_False by done.
    change (h_csr (saved_hart h) c) with (h_csr (set_csr SSCRATCH (h_reg h A0) h) c). by rewrite csr_set, decide_False.
  - exact Hin.
  - exact Hout.
Qed.

(** ** userret *)

Lemma userret_run cc h m tf R :
  h_reg h A0 = TRAPFRAME → mapped (set_csr SATP (h_reg h A1) h) m [tf_win tf] → in_frame tf R m → regs_ok R →
  ∃ R' C', Asm.run cc userret (mkMach h m) = Some (mkMach (sret (mkHart (h_mode h) (h_pc h) R' C')) m) ∧
    (∀ r, R' r = R r) ∧ C' SATP = u64 (h_reg h A1) ∧ C' SSCRATCH = TRAPFRAME ∧ ∀ c, c ≠ SATP → c ≠ SSCRATCH → C' c = h_csr h c.
Proof.
  intros HA0 Hm Hin HR. rewrite userret_eq. set (h1 := set_csr SATP (h_reg h A1) h).
  rewrite (run_step cc (Csrw SATP A1) _ _ (mkMach h1 m)), (run_step cc SfenceVma _ _ (mkMach h1 m)), run_app by reflexivity.
  destruct (run_loads cc [tf_win tf] (tf_win tf) A0 [(T0, 112)] (mkMach h1 m)) as (R1 & E1 & L1 & L1');
    [by constructor|done|done|apply (bool_decide_unpack _); by vm_compute|apply (bool_decide_unpack _); by vm_compute| |].
  { intros o Ho. exfalso. revert Ho. rewrite list_elem_of_In. cbn. intuition discriminate. }
  rewrite E1. cbn [mbind option_bind]. cbn [m_hart m_mem tf_win w_pa] in *.
  assert (R1 T0 = R A0) as ET0 by (rewrite (L1 T0 112) by constructor; apply Hin; constructor).
  assert (R1 A0 = TRAPFRAME) as EA0 by (rewrite L1' by (rewrite list_elem_of_In; cbn; intuition discriminate); done).
  set (h2 := set_csr SSCRATCH (R1 T0) (mkHart (h_mode h1) (h_pc h1) R1 (h_csr h1))).
  rewrite (run_step cc (Csrw SSCRATCH T0) _ _ (mkMach h2 m)), run_app by reflexivity.
  destruct (run_loads cc [tf_win tf] (tf_win tf) A0 uregs (mkMach h2 m)) as (R2 & E2 & L2 & L2');
    [by constructor|by eapply mapped_hart; [| |exact Hm]|done|apply (bool_decide_unpack _); by vm_compute|apply (bool_decide_unpack _); by vm_compute| |].
  { intros o Ho. by apply uregs_range in Ho as (_ & _ & _ & ?). }
  rewrite E2. cbn [mbind option_bind]. cbn [m_hart m_mem tf_win w_pa] in *.
  set (h3 := mkHart (h_mode h2) (h_pc h2) R2 (h_csr h2)).
  assert (R2 A0 = TRAPFRAME) as EA2.
  { rewrite L2'; [done|]. intros ([r o] & E & Hro)%list_elem_of_fmap. cbn in E. subst. by apply uregs_range in Hro as (_ & _ & _ & ?). }
  set (h4 := set_reg A0 (R1 T0) (set_csr SSCRATCH TRAPFRAME h3)).
  assert (exec_instr cc (Csrrw A0 SSCRATCH A0) (mkMach h3 m) = Some (mkMach h4 m)) as E4.
  { change (Some (mkMach (set_reg A0 (u64 (R1 T0)) (set_csr SSCRATCH (R2 A0) h3)) m) = Some (mkMach h4 m)). rewrite EA2, ET0, (u64_small (R A0)) by apply HR.
    unfold h4. by rewrite ET0. }
  exists (h_reg h4), (h_csr h4). split; [rewrite (run_step _ _ _ _ _ E4); reflexivity|]. split_and!.
  - intros r. unfold h4. rewrite reg_set, ET0. case_decide as E; [subst; apply u64_small, HR|].
    change (R2 r = R r). destruct (frame_regs_all r) as [o Hro]. pose proof Hro as [[= -> _]|Hro']%elem_of_cons; [done|].
    rewrite (L2 r o Hro'). by apply Hin.
  - reflexivity.
  - exact (u64_small TRAPFRAME ltac:(done)).
  - intros c H1 H2. unfold h4. change (h_csr (set_csr SSCRATCH TRAPFRAME (set_csr SSCRATCH (R1 T0) (set_csr SATP (h_reg h A1) h))) c = h_csr h c).
    by rewrite !csr_set, !decide_False.
Qed.
