(* ===== verification/ExecMem.v ===== *)
(** * The address space that exec builds

    [building] describes the memory while [exec] works: a page table with its
    contents [B], byte by byte, made of pages that were free, with the rest of
    memory as it was but for the array [ustack] on the kernel stack.  One lemma
    for each operation [exec] uses. *)

From stdpp Require Import base gmap list strings numbers.
From S2P Require Import Prelude Machine Riscv KString Kalloc Vm PageTable Uvm FreeWalk UserCopy Block Spinlock Proc ProcMem Exec.

(** The user's byte at [va], if there is one. *)
Definition umem (m : mem) (pt va : Z) : option Z := load8 m <$> uaddr m pt va.

(** The bytes [l] at [va], and [B] elsewhere. *)
Definition put (va : Z) (l : list Z) (B : Z → option Z) (x : Z) : option Z :=
  if (va <=? x) && (x <? va + Z.of_nat (length l)) then l !! Z.to_nat (x - va) else B x.
(** Pages [n] to [n' - 1] are new, and zero. *)
Definition grown (n n' : Z) (B : Z → option Z) (x : Z) : option Z :=
  if (n * PGSIZE <=? x) && (x <? n' * PGSIZE) then Some 0 else B x.
(** The page at [va] is taken away. *)
Definition hidden (va : Z) (B : Z → option Z) (x : Z) : option Z :=
  if (va <=? x) && (x <? va + PGSIZE) then None else B x.

Lemma load8_poke l a m x :
  Forall (λ b, 0 ≤ b < 256) l →
  load8 (poke l a m) x = if (a <=? x) && (x <? a + Z.of_nat (length l)) then default 0 (l !! Z.to_nat (x - a)) else load8 m x.
Proof.
  intros Hl. revert a m. induction Hl as [|b l Hb Hl IH]; intros a m; cbn [poke length].
  - destruct (_ && _) eqn:E; [|done]. bool_to_prop. lia.
  - rewrite IH, load8_store8. destruct (Z.eqb_spec x a) as [->|Hne].
    + rewrite (proj2 (Z.leb_gt (a + 1) a)) by lia. cbn [andb]. ztest. cbn [andb].
      rewrite Z.sub_diag. change (u8 b = b). unfold u8. by rewrite Z.mod_small.
    + destruct (Z.leb_spec (a + 1) x), (Z.leb_spec a x); try lia; cbn [andb]; [|done].
      replace (a + Z.of_nat (S (length l))) with (a + 1 + Z.of_nat (length l)) by lia.
      destruct (_ <? _); [|done]. replace (Z.to_nat (x - a)) with (S (Z.to_nat (x - (a + 1)))) by lia. done.
Qed.

Section building.
Context `{LO : LayoutOk}.
(** The memory as [exec] starts, the free pages, the trapframe, [ustack]. *)
Context (k0 : kst) (F0 : list Z) (tf us : Z).

Definition outside (k : kst) : Prop :=
  ∀ x, (∀ q, q ∈ F0 → x < q ∨ q + PGSIZE ≤ x) → (x < us ∨ us + 256 ≤ x) → load8 (mm k) x = load8 (mm k0) x.

(** All the pages are free again. *)
Definition restored (k : kst) : Prop := ∃ Fr, kmem_inv k Fr ∧ Fr ≡ₚ F0 ∧ outside k.

Record building (pt : Z) (k : kst) (n : Z) (Fr : list Z) (B : Z → option Z) : Prop := mkBuilding {
  bd_img : uimage k (mkImg pt n tf) Fr;
  bd_pages : upages k pt n ++ Fr ≡ₚ F0;
  bd_out : outside k;
  bd_mem : ∀ va, 0 ≤ va → umem (mm k) pt va = B va;
}.

(** An address space of [n] pages takes three pages for each and five more. *)
Definition frugal (n : Z) (Fr : list Z) : Prop := Z.of_nat (length F0) ≤ Z.of_nat (length Fr) + 3 * n + 5.

Lemma bd_space pt k n Fr B : building pt k n Fr B → uspace k pt n Fr.
Proof. by intros [(Hu & _) _ _ _]. Qed.

Lemma bd_B pt k n Fr B B' : building pt k n Fr B → (∀ va, 0 ≤ va → B' va = B va) → building pt k n Fr B'.
Proof. intros [H1 H2 H3 H4] E. split; try done. intros va Hva. rewrite E by done. auto. Qed.

(** Addresses above the pages are not the user's. *)
Lemma uaddr_above k pt n Fr va : uspace k pt n Fr → n * PGSIZE ≤ va → uaddr (mm k) pt va = None.
Proof.
  intros Hu Hva. apply uspace_umap in Hu as Hm. pose proof Hu as (_ & Hn & _). destruct (uaddr (mm k) pt va) as [a|] eqn:E; [|done].
  exfalso. apply (uaddr_elem _ _ _ Hm) in E as (q & Hq & _); pglia.
Qed.

Lemma umem_above k pt n Fr va : uspace k pt n Fr → n * PGSIZE ≤ va → umem (mm k) pt va = None.
Proof. intros Hu Hva. unfold umem. by rewrite (uaddr_above k pt n Fr). Qed.

(** Entries are per page. *)
Lemma pteval_page m pt va : 0 ≤ va < SV39 → pteval 2 m pt va = pteval 2 m pt (va / PGSIZE * PGSIZE).
Proof.
  intros Hva. assert (SV39 = 549755813888) as ES by done. unfold pteval.
  rewrite (leaf_addr_PX 2 m pt va (va / PGSIZE * PGSIZE)); [done|]. apply same_page_PX; pglia.
Qed.

(** An entry that the user may use. *)
Lemma uaddr_user m pt va :
  0 ≤ va < MAXVA → PTE_FLAGS (pteval 2 m pt (va / PGSIZE * PGSIZE)) = 31 →
  uaddr m pt va = Some (PTE2PA (pteval 2 m pt (va / PGSIZE * PGSIZE)) + va mod PGSIZE).
Proof.
  intros Hva Hf. assert (MAXVA = 274877906944 ∧ SV39 = 549755813888) as [EM ES] by done.
  unfold uaddr. rewrite (pteval_page m pt va) by lia. rewrite !(has_flags _ (pteval _ _ _ _)) by done. rewrite Hf.
  by rewrite (proj2 (Z.ltb_lt _ _)) by lia.
Qed.

Lemma umem_zero k pt i va : fresh_zero k pt (i * PGSIZE) → va / PGSIZE = i → 0 ≤ va < MAXVA → umem (mm k) pt va = Some 0.
Proof.
  intros [Hf Hz] <- Hva. unfold umem. rewrite uaddr_user by done. cbn. f_equal. apply Hz. pglia.
Qed.

(** Pages that stay keep their bytes. *)
Lemma umem_utrans pt k n Fr k' n' Fr' va :
  uspace k pt n Fr → utrans pt k n Fr k' n' Fr' → 0 ≤ va < n * PGSIZE → va < n' * PGSIZE →
  umem (mm k') pt va = umem (mm k) pt va.
Proof.
  intros Hu Ht Hva Hva'. assert (TRAPFRAME = 274877898752 ∧ SV39 = 549755813888) as [ET ES] by done.
  pose proof (utrans_contents _ _ _ _ _ _ _ (va / PGSIZE) Hu Ht ltac:(pglia) ltac:(pglia)) as Hc.
  pose proof Hu as (_ & _ & Hmax & _). destruct Ht as (_ & _ & Hv & _).
  unfold umem, uaddr. rewrite Hv by pglia. rewrite (pteval_page (mm k) pt va) by pglia.
  destruct (_ && _); [|done]. cbn. f_equal. apply Hc. pglia.
Qed.

(** ** Making and growing *)

Lemma bd_start : kmem_inv k0 F0 → page_ok tf →
  wp (proc_pagetable tf) (λ pt k, pt = 0 ∧ restored k ∧ Z.of_nat (length F0) ≤ 5 ∨ pt ≠ 0 ∧ ∃ Fr, building pt k 0 Fr (λ _, None) ∧ frugal 0 Fr) k0.
Proof.
  intros Hk Htf. eapply wp_mono; [by apply (proc_pagetable_run k0 F0 tf)|]. cbv beta.
  intros pt k (Fr & Hk' & Hf & [(-> & HP & Hl)|(Hpt & Hi & HP & Hl)]); [left|right]; (split; [done|]).
  - split; [|lia]. exists Fr. split; [done|]. split; [done|]. intros x Hx _. by apply Hf.
  - exists Fr. split; [|unfold frugal; lia]. split; [done|done|intros x Hx _; by apply Hf|]. intros va Hva. destruct Hi as (Hu & _). by eapply umem_above.
Qed.

Lemma bd_utrans pt k n Fr B k' n' Fr' B' :
  building pt k n Fr B → utrans pt k n Fr k' n' Fr' → (∀ va, 0 ≤ va → umem (mm k') pt va = B' va) → building pt k' n' Fr' B'.
Proof.
  intros Hb Ht Hm. pose proof (bd_space _ _ _ _ _ Hb) as Hu. destruct Hb as [H1 H2 H3 H4].
  pose proof Ht as (Hu' & HP & _). split; [by apply (uimage_utrans k (mkImg pt n tf) Fr)|by rewrite HP| |done].
  intros x Hx Hus. rewrite <-H3 by done. assert (0 ≤ n') as Hn' by apply Hu'.
  apply (utrans_frame pt k n Fr k' n' Fr' Hu Hn' Ht). intros q Hq. apply Hx. by rewrite <-H2.
Qed.

Lemma bd_grow pt k n Fr B sz newsz :
  building pt k n Fr B → frugal n Fr → n = PGROUNDUP sz / PGSIZE → 0 ≤ sz ≤ 32768 * PGSIZE → sz ≤ newsz < 2 ^ 64 →
  wp (uvmalloc pt sz newsz) (λ r k', ∃ Fr',
    r = newsz ∧ newsz ≤ 32768 * PGSIZE ∧ frugal (PGROUNDUP newsz / PGSIZE) Fr' ∧
      building pt k' (PGROUNDUP newsz / PGSIZE) Fr' (grown n (PGROUNDUP newsz / PGSIZE) B) ∧
      (∀ i, n ≤ i < PGROUNDUP newsz / PGSIZE → PTE_FLAGS (pteval 2 (mm k') pt (i * PGSIZE)) = 31) ∨
    r = 0 ∧ building pt k' n Fr' B ∧ Z.of_nat (length F0) ≤ 3 * ((newsz + PGSIZE - 1) / PGSIZE) + 5) k.
Proof.
  intros Hb Hused En Hsz Hnew. assert (TRAPFRAME = 274877898752 ∧ MAXVA = 274877906944) as [ET EM] by done.
  pose proof (bd_space _ _ _ _ _ Hb) as Hu. pose proof Hu as (_ & Hn & _).
  destruct (PGROUNDUP_bounds sz) as [Ho1 Ho2]; [pglia|].
  eapply wp_mono; [apply (uvmalloc_run pt k n Fr sz newsz); [done|done|pglia|lia]|]. cbv beta.
  unfold frugal in *.
  intros r k' (Fr' & [(-> & Ht & Hz & Hle & Hl)|(-> & Ht & Hl)]).
  1: exists Fr'; left.
  - destruct (PGROUNDUP_bounds newsz) as [Hn1 Hn2]; [pglia|]. set (n' := PGROUNDUP newsz / PGSIZE) in *.
    assert (n ≤ n') as Hnn by (unfold n'; pglia). split; [done|]. split; [done|]. split; [lia|].
    split; [|intros i Hi; by apply Hz]. eapply bd_utrans; [exact Hb|exact Ht|]. intros va Hva. unfold grown. destruct (Z.leb_spec (n * PGSIZE) va), (Z.ltb_spec va (n' * PGSIZE)); cbn [andb].
    + apply (umem_zero k' pt (va / PGSIZE)); [apply Hz; pglia|done|]. destruct Ht as ((_ & _ & ? & _) & _). pglia.
    + rewrite <-(bd_mem _ _ _ _ _ Hb) by done. rewrite (umem_above k pt n Fr), (umem_above k' pt n' Fr'); [done|apply Ht|done|done|done].
    + rewrite <-(bd_mem _ _ _ _ _ Hb) by done. eapply umem_utrans; [exact Hu|exact Ht|lia|lia].
    + pglia.
  - exists Fr'. right. split; [done|]. split; [|lia]. eapply bd_utrans; [exact Hb|exact Ht|]. intros va Hva. rewrite <-(bd_mem _ _ _ _ _ Hb) by done.
    destruct (decide (va < n * PGSIZE)); [eapply umem_utrans; [exact Hu|exact Ht|lia|lia]|].
    rewrite (umem_above k pt n Fr), (umem_above k' pt n Fr'); [done|apply Ht|lia|done|lia].
Qed.

(** ** Writing *)

Hypothesis Hus : apart F0 us 256.

(** Bytes of the user, or of [ustack], change. *)
Lemma bd_change pt k n Fr B m' :
  building pt k n Fr B →
  (∀ x, (∀ va, 0 ≤ va → uaddr (mm k) pt va ≠ Some x) → (x < us ∨ us + 256 ≤ x) → load8 m' x = load8 (mm k) x) →
  building pt (set_mm m' k) n Fr (λ va, load8 m' <$> uaddr (mm k) pt va).
Proof.
  intros Hb Hm. pose proof (bd_space _ _ _ _ _ Hb) as Hu. pose proof (uspace_umap _ _ _ _ Hu) as Hum.
  destruct Hb as [(_ & Htf & T1 & T2 & T3) HP Ho HB].
  pose proof Hu as (Hk & Hn & Hmax & Hnd & Hok & Hleaf & Hfree & Htop & Hio).
  assert (∀ q x, q ∈ F0 → q ≤ x < q + PGSIZE → x < us ∨ us + 256 ≤ x) as Hq by (intros q x Hq Hx; destruct (Hus q Hq); lia).
  assert (∀ q, q ∈ ptpages 2 (mm k) pt → agree (mm k) m' q PGSIZE) as Hpt.
  { intros q Hq' x Hx. apply Hm; [|apply (Hq q); [|done]].
    - intros va Hva E. by apply (uaddr_not_table _ _ _ Hum va x q Hva E Hq').
    - rewrite <-HP. unfold upages. rewrite !elem_of_app. tauto. }
  destruct (umap_agree _ m' _ _ Hum Hpt) as (_ & Ea & Ep & Ev).
  assert (upages (set_mm m' k) pt n = upages k pt n) as Eu by (rewrite (upages_ext k) by (intros; apply Ev); by rewrite mm_set_mm, Ep).
  assert (∀ q, q ∈ Fr → agree (mm k) m' q PGSIZE) as HFr.
  { intros q HqF x Hx. apply Hm; [|apply (Hq q); [rewrite <-HP; apply elem_of_app; by right|done]].
    intros va Hva E. apply (uaddr_elem _ _ _ Hum) in E as (p & _ & El & -> & Hp & _); [|done].
    apply list_elem_of_lookup_2 in El. apply list.NoDup_app in Hnd as (_ & Hd & _). apply (Hd p); [apply elem_of_app; by left|].
    destruct Hk as (_ & _ & _ & HF). pose proof (Forall_elem _ _ q HF HqF) as [Hqa _]. by replace p with q by pglia. }
  split.
  - split; [|split; [done|]].
    + unfold uspace. cbn [mm set_mm i_pt i_n]. rewrite Eu. split; [by apply (kmem_inv_frame k)|]. do 4 (split; [done|]).
      split; [intros i Hi; rewrite Ev; by apply Hleaf|]. split; [intros va Hva; rewrite Ev; by apply Hfree|].
      split; [intros va Hva; rewrite Ev; by apply Htop|]. by eapply inner_ok_agree.
    + split; [|split]; intros va Hva; cbn [mm set_mm i_pt]; rewrite Ev; auto.
  - by rewrite Eu.
  - intros x Hx Hx'. cbn. rewrite <-Ho by done. apply Hm; [|done]. intros va Hva E.
    apply (uaddr_elem _ _ _ Hum) in E as (p & _ & El & -> & Hp & _); [|done]. apply list_elem_of_lookup_2 in El.
    assert (p ∈ F0) as HpF by (rewrite <-HP; unfold upages; rewrite !elem_of_app; tauto). destruct (Hx p HpF); pglia.
  - intros va Hva. unfold umem. cbn. by rewrite Ea.
Qed.

(** A store to [ustack]. *)
Lemma bd_ustack pt k n Fr B a v :
  building pt k n Fr B → us ≤ a → a + 8 ≤ us + 256 → building pt (set_mm (store64 (mm k) a v) k) n Fr B.
Proof.
  intros Hb H1 H2. eapply bd_B; [apply (bd_change pt k n Fr B); [done|]|].
  - intros x _ Hx. apply load8_store64_out. lia.
  - intros va Hva. rewrite <-(bd_mem _ _ _ _ _ Hb) by done. unfold umem. destruct (uaddr (mm k) pt va) as [x|] eqn:E; [|done].
    cbn. f_equal. symmetry. apply load8_store64_out. pose proof (bd_space _ _ _ _ _ Hb) as Hu. pose proof (uspace_umap _ _ _ _ Hu) as Hum.
    apply (uaddr_apart k pt n us 256) in E; [lia|done| |done]. intros q Hq. apply Hus. rewrite <-(bd_pages _ _ _ _ _ Hb). apply elem_of_app. by left.
Qed.

Lemma put_lookup va l B (m : mem) src x :
  l = load_bytes (length l) m src → va ≤ x < va + Z.of_nat (length l) → put va l B x = Some (load8 m (src + (x - va))).
Proof.
  intros E Hx. unfold put. rewrite (proj2 (Z.leb_le _ _)), (proj2 (Z.ltb_lt _ _)) by lia. cbn [andb].
  rewrite E, load_bytes_lookup by (rewrite ?length_load_bytes; lia). do 2 f_equal. lia.
Qed.

Lemma put_other va l B x : x < va ∨ va + Z.of_nat (length l) ≤ x → put va l B x = B x.
Proof. intros Hx. unfold put. destruct (_ && _) eqn:E; [|done]. apply andb_true_iff in E as [?%Z.leb_le ?%Z.ltb_lt]. lia. Qed.

(** [copyout] of the bytes [l], which are in memory at [src]. *)
Lemma bd_copyout pt k n Fr B dst src l :
  building pt k n Fr B → 0 ≤ dst < 2 ^ 64 → Z.of_nat (length l) < 2 ^ 32 → apart F0 src (Z.of_nat (length l)) →
  load_bytes (length l) (mm k) src = l →
  wp (copyout pt dst src (Z.of_nat (length l))) (λ r k', ∃ B', building pt k' n Fr B' ∧
    (r = 0 ∧ (∀ va, 0 ≤ va → B' va = put dst l B va) ∨ r = -1)) k.
Proof.
  intros Hb Hd Hl Hap El. pose proof (bd_space _ _ _ _ _ Hb) as Hu. pose proof (uspace_umap _ _ _ _ Hu) as Hum.
  eapply wp_mono; [apply (copyout_run pt k n); [done|done|lia|]|].
  { intros q Hq. apply Hap. rewrite <-(bd_pages _ _ _ _ _ Hb). apply elem_of_app. by left. }
  cbv beta. intros r k' (c & m' & -> & Hc & [Hin Hout] & Hsome & Hr). eexists. split.
  { apply (bd_change pt k n Fr B); [done|]. intros x Hx _. apply Hout. intros i Hi. apply Hx. lia. }
  destruct Hr as [[-> ->]|(-> & _)]; [left|by right]. split; [done|]. intros va Hva. cbv beta.
  destruct (decide (dst ≤ va < dst + Z.of_nat (length l))) as [Hr|Hr].
  - rewrite (put_lookup dst l B (mm k) src) by done. destruct (Hsome (va - dst) ltac:(lia)) as [a Ea].
    pose proof (Hin (va - dst) a ltac:(lia) Ea) as Hld. replace (dst + (va - dst)) with va in Ea by lia. rewrite Ea. cbn. by rewrite Hld.
  - rewrite put_other by lia. rewrite <-(bd_mem _ _ _ _ _ Hb) by done. unfold umem. destruct (uaddr (mm k) pt va) as [a|] eqn:Ea; [|done].
    cbn. f_equal. apply Hout. intros i Hi Ei. pose proof (uaddr_inj _ _ _ Hum (dst + i) va a ltac:(lia) Hva Ei Ea). lia.
Qed.

(** The kernel writes to the page of the user's address [va]. *)
Lemma bd_poke pt k n Fr B va pa l :
  building pt k n Fr B → 0 ≤ va → va mod PGSIZE = 0 → uaddr (mm k) pt va = Some pa →
  Z.of_nat (length l) ≤ PGSIZE → Forall (λ b, 0 ≤ b < 256) l →
  building pt (set_mm (poke l pa (mm k)) k) n Fr (put va l B).
Proof.
  intros Hb Hva Hal E Hl Hby. pose proof (bd_space _ _ _ _ _ Hb) as Hu. pose proof (uspace_umap _ _ _ _ Hu) as Hum.
  assert (∀ i, 0 ≤ i < PGSIZE → uaddr (mm k) pt (va + i) = Some (pa + i)) as Hpg.
  { intros i Hi. rewrite (uaddr_page (mm k) pt va (va + i)) by pglia. rewrite E. cbn. f_equal. lia. }
  eapply bd_B; [apply (bd_change pt k n Fr B); [done|]|].
  - intros x Hx _. rewrite load8_poke by done. destruct (_ && _) eqn:Eb; [|done]. apply andb_true_iff in Eb as [?%Z.leb_le ?%Z.ltb_lt].
    exfalso. apply (Hx (va + (x - pa)) ltac:(lia)). rewrite Hpg by lia. f_equal. lia.
  - intros x Hx. unfold put. destruct (_ && _) eqn:Eb.
    + apply andb_true_iff in Eb as [?%Z.leb_le ?%Z.ltb_lt]. replace x with (va + (x - va)) at 2 by lia. rewrite Hpg by lia. cbn.
      rewrite load8_poke by done. rewrite (proj2 (Z.leb_le _ _)), (proj2 (Z.ltb_lt _ _)) by lia. cbn [andb].
      destruct (lookup_lt_is_Some_2 l (Z.to_nat (x - va))) as [b Hlk]; [lia|]. replace (pa + (x - va) - pa) with (x - va) by lia. by rewrite Hlk.
    + rewrite <-(bd_mem _ _ _ _ _ Hb) by done. unfold umem. destruct (uaddr (mm k) pt x) as [a|] eqn:Ea; [|done]. cbn. f_equal. symmetry.
      rewrite load8_poke by done. destruct ((pa <=? a) && _) eqn:Ec; [|done]. apply andb_true_iff in Ec as [?%Z.leb_le ?%Z.ltb_lt].
      exfalso. pose proof (Hpg (a - pa) ltac:(lia)) as Ep. replace (pa + (a - pa)) with a in Ep by lia.
      pose proof (uaddr_inj _ _ _ Hum (va + (a - pa)) x a ltac:(lia) Hx Ep Ea). apply andb_false_iff in Eb as [?%Z.leb_gt|?%Z.ltb_ge]; lia.
Qed.

(** ** Giving up, and the guard page *)

Lemma bd_free pt k n Fr B sz :
  building pt k n Fr B → n = PGROUNDUP sz / PGSIZE → 0 ≤ sz ≤ TRAPFRAME →
  wp (proc_freepagetable pt sz) (λ _ k', restored k') k.
Proof.
  intros Hb En Hsz. pose proof (bd_img _ _ _ _ _ Hb) as Hi. eapply wp_mono; [by apply (proc_freepagetable_run k (mkImg pt n tf) Fr sz)|].
  cbv beta. intros _ k' (F' & Hk & HP & Hf). cbn in HP, Hf. rewrite (bd_pages _ _ _ _ _ Hb) in HP, Hf. exists F'. split; [done|]. split; [done|].
  intros x Hx Hx'. rewrite Hf by done. by apply Hb.
Qed.

Lemma clear_U e : 0 ≤ e < 18446744073709551616 → PTE_FLAGS e = 31 →
  let e' := Z.land e (u64 (Z.lnot PTE_U)) in PTE2PA e' = PTE2PA e ∧ PTE_FLAGS e' = 15 ∧ u64 e' = e'.
Proof.
  intros He Hf. cbv zeta. change (u64 (Z.lnot PTE_U)) with 18446744073709551599. split; [|split].
  - unfold PTE2PA. rewrite Z.shiftr_land. change (Z.shiftr 18446744073709551599 10) with (Z.ones 54).
    rewrite Z.land_ones by done. rewrite Z.mod_small; [done|]. rewrite Z.shiftr_div_pow2 by done. change (2 ^ 10) with 1024. zlia.
  - unfold PTE_FLAGS in *. rewrite <-Z.land_assoc, (Z.land_comm _ 1023), Z.land_assoc, Hf. done.
  - unfold u64. change 18446744073709551616 with (2 ^ 64). rewrite <-Z.land_ones by done. by rewrite <-Z.land_assoc.
Qed.

(** The page below the stack becomes inaccessible. *)
Lemma bd_clear pt k n Fr B va :
  building pt k n Fr B → 0 ≤ va < n * PGSIZE → va mod PGSIZE = 0 → PTE_FLAGS (pteval 2 (mm k) pt va) = 31 →
  wp (uvmclear pt va) (λ _ k', building pt k' n Fr (hidden va B)) k.
Proof.
  intros Hb Hva Hal Hf. assert (TRAPFRAME = 274877898752 ∧ SV39 = 549755813888 ∧ MAXVA = 274877906944) as (ET & ES & EM) by done.
  pose proof (bd_space _ _ _ _ _ Hb) as Hu. pose proof (uspace_pt_wf _ _ _ _ Hu) as Hwf.
  pose proof Hu as (Hk & Hn & Hmax & Hnd & Hok & Hleaf & Hfree & Htop & Hio).
  destruct (walk_find_valid pt va k Fr Hwf) as (r & E & Hr & El & Ee); [lia|intros E0; by rewrite E0 in Hf|].
  unfold uvmclear. apply wp_bind. eapply wp_intro; [exact E|]. rewrite (proj2 (Z.eqb_neq r 0)) by done. wp_run.
  rewrite Ee. set (e := pteval 2 (mm k) pt va) in *.
  assert (0 ≤ e < 18446744073709551616) as He by (rewrite <-Ee; apply load64_range).
  destruct (clear_U e He Hf) as (Epa & Ef & E64). cbv zeta in *. set (e' := Z.land e _) in *.
  pose proof (map_step pt k Fr r e' va Hwf ltac:(lia) Hal El E64) as (news & EF & Hk' & _ & Hfr & Hio' & Hv).
  pose proof (pteval_store 2 (mm k) pt va r e' 0 (pt_wf_NoDup _ _ _ _ Hwf) (pt_wf_aligned _ _ _ _ Hwf) El) as (Ep & _).
  cbv zeta in Ep. set (k' := set_mm _ k) in *. change (store64 (mm k) r e') with (mm k') in Ep. cbv beta in Hv.
  assert (∀ x, va ≤ x < va + PGSIZE → pteval 2 (mm k) pt x = e) as Hpg.
  { intros x Hx. rewrite (pteval_page (mm k) pt x) by pglia. unfold e. f_equal. pglia. }
  assert (∀ x, 0 ≤ x < SV39 → x < va ∨ va + PGSIZE ≤ x → pteval 2 (mm k') pt x = pteval 2 (mm k) pt x) as Hno.
  { intros x Hx Ho. rewrite Hv by done. destruct (_ && _) eqn:Eb; [|done]. apply andb_true_iff in Eb as [?%Z.leb_le ?%Z.ltb_lt]. lia. }
  assert (∀ x, 0 ≤ x < SV39 → va ≤ x < va + PGSIZE → pteval 2 (mm k') pt x = e') as Hyes.
  { intros x Hx Ho. rewrite Hv by done. by rewrite (proj2 (Z.leb_le _ _)), (proj2 (Z.ltb_lt _ _)) by lia. }
  assert (∀ x, 0 ≤ x < SV39 → PTE2PA (pteval 2 (mm k') pt x) = PTE2PA (pteval 2 (mm k) pt x)) as HPA.
  { intros x Hx. destruct (decide (va ≤ x < va + PGSIZE)); [by rewrite Hyes, Hpg|by rewrite Hno by lia]. }
  assert (upages k' pt n = upages k pt n) as Eu.
  { unfold upages. rewrite Ep. f_equal. unfold phys_pages. apply list_fmap_ext. intros j i Hi.
    apply list_elem_of_lookup_2, elem_of_seqZ in Hi. apply HPA. pglia. }
  destruct Hb as [(_ & Htf & T1 & T2 & T3) HP Ho HB]. split.
  - split; [|split; [done|]].
    + unfold uspace. cbn [i_pt i_n]. rewrite Eu. split; [done|]. do 4 (split; [done|]). split.
      { intros i Hi. destruct (decide (va ≤ i * PGSIZE < va + PGSIZE)) as [Hin|Hin].
        - rewrite Hyes by pglia. split; [|by rewrite Ef]. by rewrite (has_flags _ e'), Ef.
        - rewrite Hno by pglia. by apply Hleaf. }
      split; [intros x Hx; rewrite Hno by pglia; by apply Hfree|]. split; [intros x Hx; rewrite Hno by pglia; by apply Htop|]. by apply Hio'.
    + destruct top_consts as (_ & ER & _). split; [|split]; intros x Hx; cbn [i_pt]; rewrite Hno by pglia; auto.
  - by rewrite Eu.
  - intros x Hx Hx'. rewrite <-Ho by done. apply Hfr. intros q Hq. rewrite Ep in Hq. apply Hx. rewrite <-HP. unfold upages. rewrite !elem_of_app. tauto.
  - intros x Hx. unfold hidden. destruct (_ && _) eqn:Eb.
    + apply andb_true_iff in Eb as [?%Z.leb_le ?%Z.ltb_lt]. unfold umem, uaddr. rewrite Hyes by pglia.
      rewrite (has_flags PTE_U e'), Ef by done. by rewrite andb_false_r.
    + assert (x < va ∨ va + PGSIZE ≤ x) as Hx' by (apply andb_false_iff in Eb as [?%Z.leb_gt|?%Z.ltb_ge]; lia).
      assert (uaddr (mm k') pt x = uaddr (mm k) pt x) as Ea.
      { unfold uaddr. destruct (Z.ltb_spec x MAXVA); [|done]. by rewrite Hno by lia. }
      rewrite <-HB by done. unfold umem. rewrite Ea. destruct (uaddr (mm k) pt x) as [a|] eqn:Ex; [|done]. cbn. f_equal.
      apply Hfr. intros q Hq. rewrite Ep in Hq. pose proof (uaddr_not_table _ _ _ (uspace_umap _ _ _ _ Hu) x a q Hx Ex Hq). lia.
Qed.


(** ** The end of [exec], and all the memory *)

Context (R : list img) (oldpt oldsz : Z).
Notation u := (mkImg oldpt (PGROUNDUP oldsz / PGSIZE) tf).
Hypothesis Hm0 : mem_ok k0 (u :: R) F0.
Hypothesis Hus0 : apart ((u :: R) ≫= ipages k0) us 256.

Lemma owned_NoDup : NoDup (tf :: upages k0 oldpt (i_n u) ++ (R ≫= ipages k0) ++ F0).
Proof. destruct Hm0 as (_ & Hnd & _). cbn in Hnd. by rewrite <-app_assoc in Hnd. Qed.

Lemma owned_ok q : q ∈ (u :: R) ≫= ipages k0 → page_ok q.
Proof.
  intros Hq. destruct Hm0 as (_ & _ & Hall). apply list_elem_of_bind in Hq as (v & Hq & Hv). rewrite Forall_forall in Hall.
  destruct (Hall v) as ((_ & _ & _ & _ & Hok & _) & Htf & _); [by apply list_elem_of_In|]. apply elem_of_cons in Hq as [->|Hq]; [done|].
  rewrite Forall_forall in Hok. by apply Hok, list_elem_of_In.
Qed.

(** A page of a process does not change while the free pages are used. *)
Lemma outside_agree k q : outside k → q ∈ (u :: R) ≫= ipages k0 → agree (mm k0) (mm k) q PGSIZE.
Proof.
  intros Ho Hq x Hx. destruct (owned_ok q Hq) as [Hqa _]. apply Ho.
  - intros p Hp. destruct Hm0 as ((_ & _ & _ & HF) & Hnd & _). rewrite Forall_forall in HF. destruct (HF p) as [Hpa _]; [by apply list_elem_of_In|].
    apply list.NoDup_app in Hnd as (_ & Hd & _). assert (p ≠ q) by (intros ->; by apply (Hd q)). pglia.
  - destruct (Hus0 q Hq); lia.
Qed.

Lemma restored_mem k : restored k → ∃ Fr, mem_ok k (u :: R) Fr ∧ ((u :: R) ≫= ipages k) ++ Fr ≡ₚ ((u :: R) ≫= ipages k0) ++ F0 ∧
  ∀ q, q ∈ (u :: R) ≫= ipages k0 → agree (mm k0) (mm k) q PGSIZE.
Proof.
  intros (Fr & Hk & HP & Ho). assert (∀ q, q ∈ (u :: R) ≫= ipages k0 → agree (mm k0) (mm k) q PGSIZE) as Hag by (intros q; by apply outside_agree).
  exists Fr. destruct (mem_ok_agree k0 [] (u :: R) F0 k [] Fr Hm0 Hk Hag) as [Hm E]; [done|done|]. split; [exact Hm|]. split; [|done].
  rewrite E. by rewrite HP.
Qed.

(** The new image takes the place of the old one. *)
Definition tf_only (m m' : mem) : Prop := ∀ x, x < tf ∨ tf + PGSIZE ≤ x → load8 m' x = load8 m x.

(** After the stores to the trapframe, the old image is what it was. *)
Lemma commit_old pt k n Fr B m1 :
  building pt k n Fr B → tf_only (mm k) m1 →
  uimage (set_mm m1 k) u Fr ∧ upages (set_mm m1 k) oldpt (i_n u) = upages k0 oldpt (i_n u) ∧
  (∀ q, q ∈ F0 → page_ok q ∧ agree (mm k) m1 q PGSIZE) ∧ ∀ q, q ∈ R ≫= ipages k0 → agree (mm k0) m1 q PGSIZE.
Proof.
  intros Hb Ht. pose proof owned_NoDup as Hnd. pose proof (bd_space _ _ _ _ _ Hb) as Hun. pose proof (bd_pages _ _ _ _ _ Hb) as HPn.
  pose proof Hm0 as (Hk0 & _ & Hall). apply Forall_cons_1 in Hall as [(Hu0 & Htf & T1 & T2 & T3) _]. cbn [i_pt i_n i_tf] in *.
  apply list.NoDup_cons in Hnd as [Htfn Hnd]. rewrite !not_elem_of_app in Htfn. destruct Htfn as (Htf1 & Htf2 & Htf3).
  assert (∀ q, page_ok q → q ≠ tf → agree (mm k) m1 q PGSIZE) as Hag1.
  { intros q [Hqa _] Hne x Hx. apply Ht. destruct Htf as [Hta _]. pglia. }
  set (old := upages k0 oldpt (PGROUNDUP oldsz / PGSIZE)) in *.
  assert (∀ q, q ∈ old ++ (R ≫= ipages k0) → agree (mm k0) m1 q PGSIZE) as Hown.
  { intros q Hq. assert (q ∈ (u :: R) ≫= ipages k0) as Hq' by (cbn; apply elem_of_cons; right; rewrite elem_of_app in *; tauto).
    eapply agree_trans; [apply (outside_agree k q); [apply Hb|done]|apply Hag1; [by apply owned_ok|]]. intros ->. rewrite elem_of_app in Hq. tauto. }
  assert (∀ q, q ∈ F0 → page_ok q ∧ agree (mm k) m1 q PGSIZE) as HF0.
  { intros q Hq. assert (page_ok q) as Hok by (destruct Hk0 as (_ & _ & _ & HF); rewrite Forall_forall in HF; by apply HF, list_elem_of_In).
    split; [done|]. apply Hag1; [done|by intros ->]. }
  assert (kmem_inv (set_mm m1 k) Fr) as Hk1.
  { apply (kmem_inv_frame k); [done|done| |apply Hun]. intros q Hq. apply HF0. rewrite <-HPn. apply elem_of_app. by right. }
  destruct (uspace_other k0 oldpt (PGROUNDUP oldsz / PGSIZE) F0 (set_mm m1 k) Fr Hu0 Hk1) as (Hu1 & Eu1 & Ev1).
  { rewrite (Permutation_app_comm (R ≫= _)), app_assoc in Hnd. apply list.NoDup_app in Hnd as (Hnd & _).
    rewrite <-HPn, (Permutation_app_comm (upages k pt n)), app_assoc in Hnd. by apply list.NoDup_app in Hnd as [? _]. }
  { intros q Hq. apply Hown, elem_of_app. by left. }
  split; [|split; [exact Eu1|split; [exact HF0|intros q Hq; apply Hown, elem_of_app; by right]]].
  split; [done|]. split; [done|]. split; [|split]; intros va Hva; cbn [i_pt i_tf]; rewrite Ev1; auto.
Qed.

Lemma commit_mem pt k n Fr B m1 :
  building pt k n Fr B → tf_only (mm k) m1 → 0 ≤ oldsz ≤ TRAPFRAME →
  wp (proc_freepagetable oldpt oldsz) (λ _ k2, ∃ F2, mem_ok k2 (mkImg pt n tf :: R) F2 ∧
    ((mkImg pt n tf :: R) ≫= ipages k2) ++ F2 ≡ₚ ((u :: R) ≫= ipages k0) ++ F0 ∧
    (∀ va, 0 ≤ va → umem (mm k2) pt va = B va) ∧ agree m1 (mm k2) tf PGSIZE ∧
    ∀ q, q ∈ R ≫= ipages k0 → agree (mm k0) (mm k2) q PGSIZE) (set_mm m1 k).
Proof.
  intros Hb Ht Hsz. destruct (commit_old pt k n Fr B m1 Hb Ht) as (Hi1 & Eu1 & HF0 & HR1). cbn [i_n] in Eu1.
  pose proof owned_NoDup as Hnd. pose proof (bd_space _ _ _ _ _ Hb) as Hun. pose proof (bd_pages _ _ _ _ _ Hb) as HPn. cbn [i_n] in Hnd.
  apply list.NoDup_cons in Hnd as [Htfn Hnd]. rewrite !not_elem_of_app in Htfn. destruct Htfn as (Htf1 & Htf2 & Htf3).
  eapply wp_mono; [by apply (proc_freepagetable_run (set_mm m1 k) u Fr oldsz)|].
  cbv beta. cbn [i_pt i_n]. intros _ k2 (F2 & Hk2 & HP2 & Hf2). rewrite Eu1 in HP2, Hf2.
  assert (Forall aligned (upages k0 oldpt (PGROUNDUP oldsz / PGSIZE) ++ Fr)) as Hal by (rewrite <-Eu1; exact (upages_aligned _ _ _ _ (proj1 Hi1))).
  set (old := upages k0 oldpt (PGROUNDUP oldsz / PGSIZE)) in *. set (new := upages k pt n) in *.
  assert (∀ q, aligned q → q ∉ old ++ Fr → agree m1 (mm k2) q PGSIZE) as Hag2 by (intros q Hqa Hqn; by eapply frame_agree).
  assert (NoDup ((R ≫= ipages k0) ++ new ++ old ++ Fr)) as Hndn.
  { rewrite (Permutation_app_swap_app new old), HPn, (Permutation_app_swap_app (R ≫= _) old). done. }
  apply list.NoDup_app in Hndn as (_ & HdR & Hndn). pose proof Hndn as (_ & Hdn & _)%list.NoDup_app.
  assert (∀ q, q ∈ new → agree (mm k) (mm k2) q PGSIZE) as Hnew.
  { intros q Hq. destruct (HF0 q) as [Hqo Hq1]; [rewrite <-HPn; apply elem_of_app; by left|].
    eapply agree_trans; [exact Hq1|]. apply Hag2; [apply Hqo|by apply Hdn]. }
  destruct (uspace_other k pt n Fr k2 F2 Hun Hk2) as (Hu2 & Eu2 & Ev2); [by rewrite HP2|exact Hnew|].
  assert (uimage k2 (mkImg pt n tf) F2) as Hi2.
  { destruct (bd_img _ _ _ _ _ Hb) as (_ & Htf & N1 & N2 & N3). split; [done|]. split; [done|]. split; [|split]; intros va Hva; cbn [i_pt i_tf]; rewrite Ev2; auto. }
  assert (∀ q, q ∈ R ≫= ipages k0 → agree (mm k0) (mm k2) q PGSIZE) as HR.
  { intros q Hq. eapply agree_trans; [by apply HR1|]. apply Hag2.
    - apply (owned_ok q). cbn. apply elem_of_cons. right. apply elem_of_app. by right.
    - intros Hq'. apply (HdR q Hq). apply elem_of_app. by right. }
  assert (upages k2 pt n ++ F2 ≡ₚ old ++ F0) as HP.
  { rewrite Eu2, HP2. fold new. by rewrite (Permutation_app_swap_app new old), HPn. }
  destruct (mem_ok_agree k0 [u] R F0 k2 [mkImg pt n tf] F2 Hm0 Hk2 HR) as [Hm2 ER]; [cbn; rewrite !app_nil_r; by constructor|by constructor|].
  exists F2. split; [exact Hm2|]. split; [|split; [|split; [|done]]].
  - cbn. change (list_bind _ _ (ipages ?k) R) with (R ≫= ipages k). rewrite ER. constructor. rewrite <-!app_assoc.
    rewrite (Permutation_app_swap_app (upages k2 pt n)), (Permutation_app_swap_app (upages k0 oldpt _)). by rewrite HP.
  - intros va Hva. rewrite <-(bd_mem _ _ _ _ _ Hb) by done. unfold umem.
    assert (uaddr (mm k2) pt va = uaddr (mm k) pt va) as -> by (unfold uaddr; by rewrite Ev2).
    destruct (uaddr (mm k) pt va) as [a|] eqn:E; [|done]. cbn. f_equal. eapply (uaddr_agree _ _ _ (uspace_umap _ _ _ _ Hun)); [|exact Hva|exact E].
    intros q Hq. apply Hnew. unfold new, upages. apply elem_of_app. by left.
  - apply Hag2; [apply Hi2|]. rewrite not_elem_of_app. split; [done|]. intros Hq. apply Htf3. rewrite <-HPn. apply elem_of_app. by right.
Qed.

End building.
