(* ===== verification/ExecSpec.v ===== *)
(** * What exec promises

    The image that a program file describes, as a function of the contents of the
    file and of the arguments ([program]), and the laws of the files that [exec]
    reads ([ProgFilesOk]). *)

From stdpp Require Import base gmap list strings numbers.
From S2P Require Import Prelude Machine Riscv Kalloc Vm PageTable Uvm FreeWalk UserCopy Block Spinlock Proc ProcMem Exec ExecMem.

Definition npages (z : Z) : Z := PGROUNDUP z / PGSIZE.
Definition RAM : Z := 32768 * PGSIZE.

(** What [readi] reads of a file. *)
Definition file_bytes (data : list Z) (off n : Z) : list Z :=
  if (Z.of_nat (length data) <? off) || (u32 (off + n) <? off) then [] else rd_bytes off n data.

(** Memory by address. *)
Notation contents := (Z → option Z).

(** The segment of a program header: the size of the program, and its memory. *)
Definition segment (data : list Z) (ph : proghdr) (l : Z * contents) : option (Z * contents) :=
  let '(sz, B) := l in
  let stop := ph_vaddr ph + ph_memsz ph in
  if negb (ph_type ph =? ELF_PROG_LOAD) then Some (sz, B)
  else if (ph_filesz ph <=? ph_memsz ph) && (stop <=? RAM) && (0 <? Z.max sz stop) && (ph_vaddr ph mod PGSIZE =? 0) &&
          ((ph_filesz ph =? 0) || (u32 (ph_off ph) + ph_filesz ph <=? Z.of_nat (length data)))
  then Some (Z.max sz stop,
             put (ph_vaddr ph) (rd_bytes (u32 (ph_off ph)) (ph_filesz ph) data) (grown (npages sz) (npages (Z.max sz stop)) B))
  else None.
Fixpoint segments (data : list Z) (n : nat) (off : Z) (l : Z * contents) : option (Z * contents) :=
  match n with
  | O => Some l
  | S n' =>
      let b := file_bytes data (u32 off) sizeof_proghdr in
      if Z.of_nat (length b) =? sizeof_proghdr then
        l' ← segment data (ph_of b) l; segments data n' (i32 (off + sizeof_proghdr)) l'
      else None
  end.

(** The arguments go to the stack from [sp] down, aligned to 16 bytes, not below
    [base]: the pointers to them, the stack pointer and the memory. *)
Definition down (sp n : Z) : Z := sp - n - (sp - n) mod 16.
Fixpoint args (base : Z) (strs : list (list Z)) (sp : Z) (B : contents) : option (list Z * Z * contents) :=
  match strs with
  | [] => Some ([], sp, B)
  | s :: strs' =>
      let sp' := down sp (Z.of_nat (length s) + 1) in
      if sp' <? base then None
      else '(ptrs, sp, B) ← args base strs' sp' (put sp' (s ++ [0]) B); Some (sp' :: ptrs, sp, B)
  end.

Definition pointers (ptrs : list Z) : list Z := ptrs ≫= le_bytes 8.

(** A program ready to run. *)
Record prog := mkProg { g_entry : Z; g_sz : Z; g_sp : Z; g_argc : Z; g_mem : contents }.

Definition stack (entry sz0 : Z) (B : contents) (strs : list (list Z)) : option prog :=
  let guard := PGROUNDUP sz0 in
  let base := guard + PGSIZE in
  let sz := base + PGSIZE in
  '(ptrs, sp, B) ← args base strs sz (hidden guard (grown (npages sz0) (npages sz) B));
  let sp' := down sp ((Z.of_nat (length strs) + 1) * 8) in
  if sp' <? base then None
  else Some (mkProg entry sz sp' (Z.of_nat (length strs)) (put sp' (pointers (ptrs ++ [0])) B)).

Definition program (data : list Z) (strs : list (list Z)) : option prog :=
  let b := file_bytes data 0 sizeof_elfhdr in
  let elf := elf_of b in
  if (Z.of_nat (length b) =? sizeof_elfhdr) && (e_magic elf =? ELF_MAGIC) then
    '(sz0, B) ← segments data (Z.to_nat (e_phnum elf)) (i32 (e_phoff elf)) (0, λ _, None);
    stack (e_entry elf) sz0 B strs
  else None.

(** What [main] finds: its arguments and the array of pointers to them, which is
    at the stack pointer. *)
Definition bytes_at (B : contents) (a : Z) (l : list Z) : Prop := ∀ j x, l !! j = Some x → B (a + Z.of_nat j) = Some x.
Definition has_args (g : prog) (strs : list (list Z)) : Prop :=
  g_sp g mod 16 = 0 ∧ ∃ ptrs, length ptrs = length strs ∧ bytes_at (g_mem g) (g_sp g) (pointers (ptrs ++ [0])) ∧
    ∀ j a s, ptrs !! j = Some a → strs !! j = Some s → bytes_at (g_mem g) a (s ++ [0]).

(** [exec] may fail with [n] free pages: there is no such program, or its pages
    and tables may need more. *)
Definition may_fail (n : nat) (g : option prog) : Prop :=
  match g with None => True | Some g => Z.of_nat n ≤ 3 * npages (g_sz g) + 5 end.

(** The laws of the files: [pf_file] is the contents of the file at a path;
    [pf_ready] what a lookup needs; [pf_open] holds of an inode that is locked, in
    a transaction. *)
Class ProgFilesOk (F : Type) `{FileLayerOk F} `{ProgFiles F} := {
  pf_file : F → list Z → option (list Z);
  pf_ready : F → list Z → Prop;
  pf_open : F → Z → list Z → list Z → list Z → Prop;
  pf_data : ∀ f path data, pf_file f path = Some data → Forall (λ b, 0 ≤ b < 256) data ∧ Z.of_nat (length data) < 2 ^ 31;
  pf_namei_ok : ∀ f path fs ds, fl_inv f fs ds → pf_ready f path →
    wp (fl_begin_op ;; pf_namei path) (λ ip f1,
      match pf_file f path with
      | None => ip = 0 ∧ wp fl_end_op (λ _ f2, fl_inv f2 fs ds) f1
      | Some data => ip ≠ 0 ∧ wp (pf_ilock ip) (λ _ f2, pf_open f2 ip data fs ds) f1
      end) f;
  pf_readi_ok : ∀ f ip data fs ds off n, pf_open f ip data fs ds → 0 ≤ off < 2 ^ 32 → 0 ≤ n ≤ PGSIZE →
    wp (pf_readi ip off n) (λ l f', l = file_bytes data off n ∧ pf_open f' ip data fs ds) f;
  pf_close_ok : ∀ f ip data fs ds, pf_open f ip data fs ds →
    wp (pf_iunlockput ip ;; fl_end_op) (λ _ f', fl_inv f' fs ds) f;
}.

(** ** Lemmas *)

Lemma file_bytes_full data o n :
  0 ≤ o < 2 ^ 32 → 0 < n ≤ PGSIZE → Z.of_nat (length data) < 2 ^ 31 →
  (Z.of_nat (length (file_bytes data o n)) = n ∧ o + n ≤ Z.of_nat (length data) ∧ file_bytes data o n = rd_bytes o n data) ∨
  (Z.of_nat (length (file_bytes data o n)) ≠ n ∧ Z.of_nat (length data) < o + n ∧ Z.of_nat (length (file_bytes data o n)) ≤ n).
Proof.
  intros Ho Hn Hd. unfold file_bytes. destruct (Z.ltb_spec (Z.of_nat (length data)) o) as [|Hle]; cbn [orb].
  { right. cbn. lia. }
  rewrite u32_small by pglia. rewrite (proj2 (Z.ltb_ge _ _)) by lia.
  destruct (Z.le_gt_cases (o + n) (Z.of_nat (length data))) as [H|H].
  - left. rewrite length_rd_bytes by lia. split; [lia|]. done.
  - right. unfold rd_bytes. rewrite length_take, length_drop. lia.
Qed.

Lemma file_bytes_bytes data o n : Forall (λ b, 0 ≤ b < 256) data → Forall (λ b, 0 ≤ b < 256) (file_bytes data o n).
Proof. intros Hd. unfold file_bytes. destruct (_ || _); [done|]. by apply Forall_take, Forall_drop. Qed.

Lemma rd_bytes_app data o m n : 0 ≤ o → 0 ≤ m → 0 ≤ n → rd_bytes o (m + n) data = rd_bytes o m data ++ rd_bytes (o + m) n data.
Proof.
  intros Ho Hm Hn. unfold rd_bytes. rewrite !Z2Nat.inj_add by lia. rewrite <-drop_drop.
  by rewrite <-take_take_drop.
Qed.

Lemma put_app va l1 l2 B x : put va (l1 ++ l2) B x = put (va + Z.of_nat (length l1)) l2 (put va l1 B) x.
Proof.
  unfold put. rewrite length_app, Nat2Z.inj_add. destruct (Z.leb_spec va x), (Z.ltb_spec x (va + (Z.of_nat (length l1) + Z.of_nat (length l2)))),
    (Z.leb_spec (va + Z.of_nat (length l1)) x), (Z.ltb_spec x (va + Z.of_nat (length l1) + Z.of_nat (length l2))),
    (Z.ltb_spec x (va + Z.of_nat (length l1))); cbn [andb]; try lia; try done.
  - rewrite lookup_app_r by lia. f_equal. lia.
  - rewrite lookup_app_l by lia. done.
Qed.

Lemma put_ext va l B B' x : B x = B' x → put va l B x = put va l B' x.
Proof. intros E. unfold put. by rewrite E. Qed.

Lemma put_nil va B x : put va [] B x = B x.
Proof. apply put_other. cbn. lia. Qed.

Lemma put_some va l B x : is_Some (B x) → is_Some (put va l B x).
Proof.
  intros Hs. unfold put. destruct (_ && _) eqn:E; [|done]. apply andb_true_iff in E as [?%Z.leb_le ?%Z.ltb_lt].
  apply lookup_lt_is_Some_2. lia.
Qed.

(** The size of a program only grows. *)
Lemma segment_size data ph sz B sz' B' : segment data ph (sz, B) = Some (sz', B') → 0 ≤ sz ≤ RAM → sz ≤ sz' ≤ RAM.
Proof.
  unfold segment. intros E Hsz. destruct (negb _); [simplify_eq; lia|]. destruct (_ && _) eqn:Eb; [|done]. simplify_eq.
  rewrite !andb_true_iff in Eb. destruct Eb as [[[[_ ?%Z.leb_le] _] _] _]. lia.
Qed.

Lemma segments_size data n off sz B sz' B' : segments data n off (sz, B) = Some (sz', B') → 0 ≤ sz ≤ RAM → sz ≤ sz' ≤ RAM.
Proof.
  revert off sz B. induction n as [|n IH]; intros off sz B E Hsz; cbn [segments] in E; [simplify_eq; lia|].
  destruct (_ =? _); [|done]. destruct (segment data _ (sz, B)) as [[sz1 B1]|] eqn:Es; [|done]. cbn [mbind option_bind] in E.
  pose proof (segment_size _ _ _ _ _ _ Es Hsz). apply IH in E; lia.
Qed.

Lemma npages_mono a b : 0 ≤ a → a ≤ b → b ≤ 2 * RAM → npages a ≤ npages b.
Proof.
  intros Ha Hab Hb. unfold npages, RAM in *. destruct (PGROUNDUP_bounds a) as [A1 A2]; [pglia|].
  destruct (PGROUNDUP_bounds b) as [B1 B2]; [pglia|]. pglia.
Qed.

Lemma npages_nonneg a : 0 ≤ npages a.
Proof. unfold npages, PGROUNDUP. apply Z.div_pos; [|done]. apply Z.land_nonneg. right. by vm_compute. Qed.

Lemma npages_bounds a : 0 ≤ a ≤ 2 * RAM → npages a * PGSIZE = PGROUNDUP a ∧ a ≤ PGROUNDUP a < a + PGSIZE ∧ npages a = (a + PGSIZE - 1) / PGSIZE.
Proof. intros Ha. unfold npages, RAM in *. destruct (PGROUNDUP_bounds a) as [A1 A2]; [pglia|]. pglia. Qed.

Lemma stack_size entry sz0 B strs g : stack entry sz0 B strs = Some g → g_sz g = PGROUNDUP sz0 + 2 * PGSIZE.
Proof.
  unfold stack. destruct (args _ _ _ _) as [[[ptrs sp] B']|]; [|done]. cbn. destruct (_ <? _); [done|]. intros [= <-]. cbn. lia.
Qed.

Lemma field_range off n l : Forall (λ b, 0 ≤ b < 256) l → 0 ≤ field off n l < 256 ^ Z.of_nat n.
Proof.
  intros Hl. unfold field. assert (Forall (λ b, 0 ≤ b < 256) (take n (drop off l))) as Ht by by apply Forall_take, Forall_drop.
  pose proof (le_val_range _ Ht) as [H1 H2]. split; [done|]. eapply Z.lt_le_trans; [exact H2|].
  apply Z.pow_le_mono_r; [lia|]. rewrite length_take. lia.
Qed.

Lemma pointers_snoc ptrs p : pointers (ptrs ++ [p]) = pointers ptrs ++ le_bytes 8 p.
Proof. unfold pointers. rewrite bind_app. f_equal. Qed.

Lemma length_pointers ptrs : length (pointers ptrs) = (8 * length ptrs)%nat.
Proof. unfold pointers. induction ptrs as [|p ptrs IH]; [done|]. rewrite bind_cons, length_app, IH, length_le_bytes. cbn [length]. lia. Qed.

Lemma load_bytes_store_le n m a v : load_bytes n (store_le n m a v) a = le_bytes n v.
Proof.
  revert m a v. induction n as [|n IH]; intros m a v; [done|]. cbn [load_bytes le_bytes]. change (store_le (S n) m a v) with (store_le n (store8 m a v) (a + 1) (v / 256)). rewrite IH. f_equal.
  rewrite load8_store_le_out by lia. by rewrite load8_store8, Z.eqb_refl.
Qed.

(** ** The arguments on the stack *)

Lemma bytes_at_put va l B : bytes_at (put va l B) va l.
Proof.
  intros j x Hj. unfold put. pose proof (lookup_lt_Some _ _ _ Hj).
  rewrite (proj2 (Z.leb_le _ _)), (proj2 (Z.ltb_lt _ _)) by lia. cbn [andb]. by replace (Z.to_nat (va + Z.of_nat j - va)) with j by lia.
Qed.

Lemma bytes_at_ext B B' a l : (∀ x, a ≤ x → B' x = B x) → bytes_at B a l → bytes_at B' a l.
Proof. intros E H j x Hj. rewrite E by lia. by apply H. Qed.

Lemma down_bounds sp n : 0 ≤ n → down sp n + n ≤ sp ∧ down sp n mod 16 = 0.
Proof. intros Hn. unfold down. zlia. Qed.

(** Arguments are written from the top down. *)
Lemma args_spec base strs sp B ptrs sp' B' :
  args base strs sp B = Some (ptrs, sp', B') →
  sp' ≤ sp ∧ (∀ x, sp ≤ x → B' x = B x) ∧ length ptrs = length strs ∧
  ∀ j a s, ptrs !! j = Some a → strs !! j = Some s → sp' ≤ a ∧ bytes_at B' a (s ++ [0]).
Proof.
  revert sp B ptrs. induction strs as [|str strs IH]; intros sp B ptrs E; cbn [args] in E.
  { injection E as <- <- <-. split; [lia|]. done. }
  destruct (_ <? base); [done|]. destruct (args base strs _ _) as [[[l sp2] B2]|] eqn:E2; [|done]. cbn [mbind option_bind] in E. injection E as <- <- <-.
  apply IH in E2 as (Hsp & Hx & Hl & Hj). destruct (down_bounds sp (Z.of_nat (length str) + 1) ltac:(lia)) as [Hd _].
  set (sp1 := down sp _) in *. split; [lia|]. split; [|split; [cbn; lia|]].
  - intros x Hx'. rewrite Hx by lia. apply put_other. rewrite length_app. cbn. lia.
  - intros [|j] a s; cbn; [|apply Hj]. intros [= <-] [= <-]. split; [done|]. eapply bytes_at_ext; [exact Hx|apply bytes_at_put].
Qed.

Lemma stack_has_args entry sz0 B strs g : stack entry sz0 B strs = Some g → has_args g strs.
Proof.
  unfold stack. destruct (args _ _ _ _) as [[[ptrs sp] B']|] eqn:E; [|done]. cbn [mbind option_bind]. cbv zeta. destruct (_ <? _); [done|]. intros [= <-].
  apply args_spec in E as (_ & _ & Hl & Hj). destruct (down_bounds sp ((Z.of_nat (length strs) + 1) * 8) ltac:(lia)) as [Hd Hm].
  split; [exact Hm|]. exists ptrs. split; [done|]. split; [apply bytes_at_put|]. intros j a s Ha Hs. destruct (Hj j a s Ha Hs) as [Hle Hb].
  eapply bytes_at_ext; [|exact Hb]. intros x Hx. apply put_other. rewrite length_pointers, length_app. cbn. lia.
Qed.

Lemma program_has_args data strs g : program data strs = Some g → has_args g strs.
Proof.
  unfold program. destruct (_ && _); [|done]. destruct (segments _ _ _ _) as [[sz0 B]|]; [|done]. cbn [mbind option_bind]. apply stack_has_args.
Qed.
