(* ===== verification/ProcSpec.v ===== *)
(** * The life of processes

    [rep s d w L T]: the kernel state [s] is the table [T] (all locks free, the
    CPU idle) with [d] locks held, [wait_lock] if [w], and the locks of the
    processes [L].  The rules [rep_*] run the code on [T].  [inv] is the
    invariant of the process table, its memory and its files; every system call
    and every turn of the scheduler keeps it. *)

From stdpp Require Import base gmap list strings numbers.
From S2P Require Import Prelude Machine Riscv KString Kalloc Vm PageTable Uvm FreeWalk UserCopy Spinlock Proc ProcMem.

(** Split the conjunctions one sees. *)
Ltac splits := repeat lazymatch goal with |- _ ∧ _ => split end.

Definition cpu0 : cpu := mkCpu false 0 false.

Section rep.
Context {LY : Layout} {LO : LayoutOk} {PLY : ProcLayout} {F : Type} {FLY : FileLayer F} {FLO : FileLayerOk F}.
Notation pst := (pst F).

(** The state without its locks. *)
Definition clear (s : pst) : pst :=
  mkP (set_p_locked false <$> procs s) (initproc s) (nextpid s) false false (olocks s) (c_proc s) cpu0
    (first s) (km s) (fl s).

Definition rep (s : pst) (d : Z) (w : bool) (L : list nat) (T : pst) : Prop :=
  clear s = T ∧ length (procs s) = 64%nat ∧ cpu_ok (c_cpu s) ∧ c_noff (c_cpu s) = d ∧
  pid_locked s = false ∧ wait_locked s = w ∧
  ∀ i p, procs s !! i = Some p → p_locked p = bool_decide (i ∈ L).

Lemma rep_length s d w L T : rep s d w L T → length (procs T) = 64%nat.
Proof. intros (<- & Hl & _). cbn. by rewrite length_fmap. Qed.

Lemma rep_cpu s d w L T c' d' :
  rep s d w L T → cpu_ok c' → c_noff c' = d' → rep (set_c_cpu c' s) d' w L T.
Proof. intros (HT & Hl & _ & _ & Hp & Hw & HL) Hc Hd. by unfold rep; splits. Qed.

Lemma wp_intr_push Q s d w L T :
  rep s d w L T → (∀ s', rep s' (d + 1) w L T → Q tt s') → wp intr_push Q s.
Proof.
  intros Hs HQ. unfold intr_push. wp_run. apply HQ. pose proof Hs as (_ & _ & Hc & Hd & _).
  apply (rep_cpu s d); [done|by apply push_off_ok|cbn; lia].
Qed.

Lemma wp_intr_pop Q s d w L T :
  rep s d w L T → 0 < d → (∀ s', rep s' (d - 1) w L T → Q tt s') → wp intr_pop Q s.
Proof.
  intros Hs Hd HQ. unfold intr_pop. wp_run. pose proof Hs as (HT & Hl & Hc & Hn & H).
  destruct (pop_off_ok (c_cpu s) Hc ltac:(lia)) as (c' & E & Hc'). rewrite E. wp_run. apply HQ.
  apply (rep_cpu s d); [done|done|]. unfold pop_off in E. destruct Hc as [_ Hi]. rewrite Hi in E by lia.
  rewrite (proj2 (Z.ltb_ge _ _)) in E by lia. injection E as <-. cbn. lia.
Qed.

Lemma clear_procs s i : procs (clear s) !! i = set_p_locked false <$> procs s !! i.
Proof. cbn. by rewrite list_lookup_fmap. Qed.

(** The locks of the table. *)
Lemma rep_set_locked s d w L T i b L' :
  rep s d w L T → (∀ j, j ∈ L' ↔ (if b : bool then j = i ∨ j ∈ L else j ∈ L ∧ j ≠ i)) →
  rep (upd i (set_p_locked b) s) d w L' T.
Proof.
  intros (HT & Hl & Hc & Hn & Hp & Hw & HL) HL'. unfold rep; splits; try done.
  - rewrite <-HT. unfold clear, upd. cbn. f_equal. apply list_eq. intros j. rewrite !list_lookup_fmap.
    destruct (decide (i = j)) as [<-|Hne].
    + rewrite list_lookup_alter_eq. by destruct (procs s !! i).
    + by rewrite list_lookup_alter_ne.
  - cbn. by rewrite length_alter.
  - intros j p Hj. cbn in Hj. destruct (decide (i = j)) as [<-|Hne].
    + rewrite list_lookup_alter_eq in Hj. destruct (procs s !! i) eqn:E; [|done]. injection Hj as <-. cbn.
      symmetry. destruct b; [apply bool_decide_eq_true|apply bool_decide_eq_false]; rewrite HL'; tauto.
    + rewrite list_lookup_alter_ne in Hj by done. rewrite (HL j p Hj). apply bool_decide_ext. rewrite HL'.
      destruct b; [|naive_solver]. split; [tauto|]. intros [->|?]; [done|done].
Qed.

Lemma rep_proc_locked s d w L T i : rep s d w L T → (i < 64)%nat → p_locked (proc_at s i) = bool_decide (i ∈ L).
Proof.
  intros (_ & Hl & _ & _ & _ & _ & HL) Hi. unfold proc_at.
  destruct (lookup_lt_is_Some_2 (procs s) i) as [p Hp]; [lia|]. rewrite Hp. by apply HL.
Qed.

Lemma wp_lock_proc Q s d w L T i :
  rep s d w L T → (i < 64)%nat → i ∉ L →
  (∀ s', rep s' (d + 1) w (i :: L) T → Q tt s') → wp (lock_proc i) Q s.
Proof.
  intros Hs Hi HL HQ. unfold lock_proc, spin_acquire. wp_run. eapply wp_intr_push; [done|]. intros s1 Hs1.
  apply wp_acquire.
  - rewrite (rep_proc_locked _ _ _ _ _ _ Hs1 Hi). by apply bool_decide_eq_false.
  - apply HQ. eapply rep_set_locked; [done|]. intros j. rewrite elem_of_cons. tauto.
Qed.

Lemma wp_unlock_proc Q s d w L T i :
  rep s d w (i :: L) T → (i < 64)%nat → i ∉ L → 0 < d →
  (∀ s', rep s' (d - 1) w L T → Q tt s') → wp (unlock_proc i) Q s.
Proof.
  intros Hs Hi HL Hd HQ. unfold unlock_proc, spin_release. wp_run. apply wp_release.
  - rewrite (rep_proc_locked _ _ _ _ _ _ Hs Hi). apply bool_decide_eq_true. constructor.
  - eapply (wp_intr_pop _ _ d); [eapply (rep_set_locked _ _ _ _ _ _ false L); [done|]|done|done].
    intros j. rewrite elem_of_cons. split; [intros Hj; split; [tauto|]; by intros ->|tauto].
Qed.

Lemma wp_lock_wait Q s d L T :
  rep s d false L T → (∀ s', rep s' (d + 1) true L T → Q tt s') → wp lock_wait Q s.
Proof.
  intros Hs HQ. unfold lock_wait, spin_acquire. wp_run. eapply wp_intr_push; [done|]. intros s1 Hs1.
  apply wp_acquire; [apply Hs1|]. apply HQ. destruct Hs1 as (HT & Hl & Hc & Hn & Hp & Hw & HL). by unfold rep; splits.
Qed.

Lemma wp_unlock_wait Q s d L T :
  rep s d true L T → 0 < d → (∀ s', rep s' (d - 1) false L T → Q tt s') → wp unlock_wait Q s.
Proof.
  intros Hs Hd HQ. unfold unlock_wait, spin_release. wp_run. apply wp_release; [apply Hs|].
  eapply (wp_intr_pop _ _ d); [|done|exact HQ]. destruct Hs as (HT & Hl & Hc & Hn & Hp & Hw & HL). by unfold rep; splits.
Qed.

Lemma set_p_locked_id p : set_p_locked (p_locked p) p = p.
Proof. by destruct p. Qed.

(** An update that does not look at the lock. *)
Definition lock_blind (f : proc → proc) : Prop := ∀ b p, f (set_p_locked b p) = set_p_locked b (f p).

Lemma wp_set_proc Q s d w L T i f :
  rep s d w L T → lock_blind f →
  (∀ s', rep s' d w L (upd i f T) → Q tt s') → wp (set_proc i f) Q s.
Proof.
  intros (HT & Hl & Hc & Hn & Hp & Hw & HL) Hf HQ. unfold set_proc. wp_run. apply HQ. unfold rep; splits; try done.
  - rewrite <-HT. unfold clear, upd, set_procs. cbn. f_equal. apply list_eq. intros j. rewrite list_lookup_fmap.
    destruct (decide (i = j)) as [<-|Hne].
    + rewrite !list_lookup_alter_eq, list_lookup_fmap. destruct (procs s !! i) as [p|]; [cbn|done]. by rewrite Hf.
    + by rewrite !list_lookup_alter_ne, list_lookup_fmap.
  - cbn. by rewrite length_alter.
  - intros j p Hj. cbn in Hj. destruct (decide (i = j)) as [<-|Hne].
    + rewrite list_lookup_alter_eq in Hj. destruct (procs s !! i) as [q|] eqn:E; [|done]. injection Hj as <-.
      rewrite <-(HL i q E). rewrite <-(set_p_locked_id q) at 1. by rewrite Hf.
    + rewrite list_lookup_alter_ne in Hj by done. by apply (HL j).
Qed.

(** Reading a slot: all but the lock is the table's. *)
Lemma wp_get_proc Q s d w L T i :
  rep s d w L T → (∀ b, Q (set_p_locked b (proc_at T i)) s) → wp (get_proc i) Q s.
Proof.
  intros (<- & _) HQ. unfold get_proc. wp_run. specialize (HQ (p_locked (proc_at s i))).
  replace (set_p_locked _ _) with (proc_at s i) in HQ; [done|].
  unfold proc_at. rewrite clear_procs. destruct (procs s !! i) as [[]|]; done.
Qed.

Lemma wp_myproc Q s d w L T :
  rep s d w L T → 0 ≤ d → (∀ s', rep s' d w L T → Q (c_proc T) s') → wp myproc Q s.
Proof.
  intros Hs Hd HQ. unfold myproc. wp_run. eapply wp_intr_push; [done|]. intros s1 Hs1. wp_run.
  assert (c_proc s1 = c_proc T) as -> by (destruct Hs1 as (<- & _); done).
  eapply wp_intr_pop; [done|lia|]. intros s2 Hs2. wp_run. apply HQ. by replace d with (d + 1 - 1) by lia.
Qed.

Lemma wp_ink {A} Q (m : M kst A) s d w L T :
  rep s d w L T → wp m (λ a k, ∀ s', rep s' d w L (set_km k T) → Q a s') (km T) → wp (ink m) Q s.
Proof.
  intros Hs Hm. unfold ink. apply wp_zoom. destruct Hs as (<- & H). eapply wp_mono; [exact Hm|].
  intros a k HQ. apply HQ. split; [done|exact H].
Qed.

Lemma wp_infl {A} Q (m : M F A) s d w L T :
  rep s d w L T → wp m (λ a f, ∀ s', rep s' d w L (set_fl f T) → Q a s') (fl T) → wp (infl m) Q s.
Proof.
  intros Hs Hm. unfold infl. apply wp_zoom. destruct Hs as (<- & H). eapply wp_mono; [exact Hm|].
  intros a k HQ. apply HQ. split; [done|exact H].
Qed.

Lemma rep_init s d w L T : rep s d w L T → initproc s = initproc T.
Proof. by intros (<- & _). Qed.

Lemma rep_set_c_proc s d w L T x : rep s d w L T → rep (set_c_proc x s) d w L (set_c_proc x T).
Proof. intros (<- & Hr). split; [done|exact Hr]. Qed.

Lemma wp_allocpid Q s d w L T :
  rep s d w L T → 0 ≤ d →
  (∀ s', rep s' d w L (set_nextpid (i32 (nextpid T + 1)) T) → Q (nextpid T) s') → wp allocpid Q s.
Proof.
  intros Hs Hd HQ. unfold allocpid, spin_acquire, spin_release. wp_run. eapply wp_intr_push; [done|].
  intros s1 Hs1. apply wp_acquire; [apply Hs1|]. wp_run. apply wp_release; [done|].
  cbn. assert (nextpid s1 = nextpid T) as E by (destruct Hs1 as (<- & _); done). rewrite E.
  eapply (wp_intr_pop _ _ (d + 1) w L (set_nextpid (i32 (nextpid T + 1)) T)); [|lia|].
  - destruct Hs1 as (<- & Hl & Hc & Hn & Hp & Hw & HL). by unfold rep; splits.
  - intros s2 Hs2. wp_run. apply HQ. by replace d with (d + 1 - 1) by lia.
Qed.

(** ** The invariant *)

Definition live (p : proc) : Prop := p_state p ≠ UNUSED.
Definition alive (p : proc) : Prop := p_state p = SLEEPING ∨ p_state p = RUNNABLE ∨ p_state p = RUNNING.
#[global] Instance live_dec p : Decision (live p).
Proof. unfold live. apply _. Defined.

Definition img_of (p : proc) : img := mkImg (p_pagetable p) (PGROUNDUP (p_sz p) / PGSIZE) (p_trapframe p).
Definition image (p : proc) : list img := if decide (live p) then [img_of p] else [].
Definition refs (l : list Z) : list Z := filter (λ x, x ≠ 0) l.

(** The images of the processes, and the files and directories they hold. *)
Definition images (T : pst) : list img := procs T ≫= image.
Definition files (T : pst) : list Z := procs T ≫= λ p, refs (p_ofile p).
Definition dirs (T : pst) : list Z := procs T ≫= λ p, refs [p_cwd p].

(** [ex]: the process is in [exit] and has given up its directory. *)
Definition slot_ok (np : Z) (ex : bool) (p : proc) : Prop :=
  match p_state p with
  | UNUSED =>
      p_trapframe p = 0 ∧ p_pagetable p = 0 ∧ p_sz p = 0 ∧ p_pid p = 0 ∧ p_parent p = 0 ∧
      p_ofile p = replicate 16 0 ∧ p_cwd p = 0
  | st =>
      p_pagetable p ≠ 0 ∧ p_trapframe p ≠ 0 ∧ 0 ≤ p_sz p < 4294967296 ∧ 0 < p_pid p < np ∧ length (p_ofile p) = 16%nat ∧
      match st with
      | ZOMBIE => p_ofile p = replicate 16 0 ∧ p_cwd p = 0
      | USED => False
      | SLEEPING => p_cwd p ≠ 0 ∧ ∃ lk b, p_context p = InSleep lk b
      | _ => (ex = false → p_cwd p ≠ 0) ∧ p_context p ≠ InExit
      end
  end.

(** [x]: the process in [exit], if any; [all]: the pages of RAM. *)
Record inv (x : option nat) (all : list Z) (T : pst) : Prop := mkInv {
  inv_length : length (procs T) = 64%nat;
  inv_first : first T = false;
  inv_olocks : olocks T = ∅;
  inv_next : 0 < nextpid T < 2147483648;
  inv_slots : ∀ i p, procs T !! i = Some p → slot_ok (nextpid T) (bool_decide (x = Some i)) p;
  (* the process on the CPU is the one that is RUNNING *)
  inv_cur : ∀ i p, procs T !! i = Some p → p_state p = RUNNING ↔ c_proc T = pptr i;
  inv_cur0 : c_proc T = 0 ∨ ∃ i, c_proc T = pptr i ∧ (i < 64)%nat;
  (* processes have different pids *)
  inv_pids : ∀ i j p q, procs T !! i = Some p → procs T !! j = Some q → live p → live q →
    p_pid p = p_pid q → i = j;
  (* init lives; every other process has a parent that lives and can wait for it *)
  inv_init : ∃ i p, initproc T = pptr i ∧ procs T !! i = Some p ∧ alive p ∧ p_parent p = 0;
  inv_parent : ∀ i p, procs T !! i = Some p → live p → pptr i ≠ initproc T →
    ∃ j q, p_parent p = pptr j ∧ procs T !! j = Some q ∧ alive q;
  (* memory: no page has two owners, none is lost *)
  inv_mem : memx all (km T) (images T);
  inv_files : fl_inv (fl T) (files T) (dirs T);
}.

(** ** Changes that only wake processes up *)

(** What the invariant does not see, or allows: a sleeping process wakes up. *)
Definition pkeep (p p' : proc) : Prop :=
  (p_state p' = p_state p ∨ p_state p = SLEEPING ∧ p_state p' = RUNNABLE) ∧
  p_pid p' = p_pid p ∧ p_parent p' = p_parent p ∧ p_sz p' = p_sz p ∧ p_pagetable p' = p_pagetable p ∧
  p_trapframe p' = p_trapframe p ∧ p_context p' = p_context p ∧ p_ofile p' = p_ofile p ∧ p_cwd p' = p_cwd p.
Definition keeps (T T' : pst) : Prop := ∃ l, T' = set_procs l T ∧ Forall2 pkeep (procs T) l.

Lemma pkeep_refl p : pkeep p p.
Proof. unfold pkeep. splits; auto. Qed.
Lemma pkeep_trans p q r : pkeep p q → pkeep q r → pkeep p r.
Proof.
  unfold pkeep. intros ([E|[E E']] & H) ([G|[G G']] & K); (split; [|splits; (etrans; [apply K|apply H])]);
    rewrite ?E, ?E', ?G, ?G' in *; auto; congruence.
Qed.
Lemma keeps_refl T : keeps T T.
Proof.
  exists (procs T). split; [by destruct T|]. apply Forall2_same_length_lookup_2; [done|].
  intros i x y Hx Hy. replace y with x by congruence. apply pkeep_refl.
Qed.
Lemma keeps_trans T1 T2 T3 : keeps T1 T2 → keeps T2 T3 → keeps T1 T3.
Proof.
  intros (l & -> & H1) (l' & -> & H2). exists l'. split; [done|].
  cbn in H2. clear -H1 H2. revert l' H2. induction H1 as [|x y l1 l2 Hxy _ IH]; intros l' H2; inversion H2; subst; constructor;
    eauto using pkeep_trans.
Qed.

Lemma keeps_upd T i f : (∀ p, procs T !! i = Some p → pkeep p (f p)) → keeps T (upd i f T).
Proof.
  intros Hf. exists (alter f i (procs T)). split; [done|]. apply Forall2_same_length_lookup_2; [by rewrite length_alter|].
  intros j x y Hx Hy. destruct (decide (i = j)) as [<-|Hne].
  - rewrite list_lookup_alter_eq, Hx in Hy. injection Hy as <-. by apply Hf.
  - rewrite list_lookup_alter_ne, Hx in Hy by done. injection Hy as <-. apply pkeep_refl.
Qed.

Lemma pkeep_live p p' : pkeep p p' → (live p' ↔ live p) ∧ (alive p' ↔ alive p) ∧ image p' = image p ∧
  (p_state p' = RUNNING ↔ p_state p = RUNNING).
Proof.
  intros (Hs & _ & _ & Es & Ep & Et & _).
  assert (live p' ↔ live p) as Hl by (unfold live; destruct Hs as [->|[-> ->]]; done).
  split; [done|]. split; [unfold alive; destruct Hs as [->|[-> ->]]; intuition congruence|].
  split; [|destruct Hs as [->|[-> ->]]; done].
  unfold image, img_of. rewrite Es, Ep, Et. destruct (decide (live p)), (decide (live p')); tauto || done.
Qed.

Lemma pkeep_slot np ex p p' : pkeep p p' → slot_ok np ex p → slot_ok np ex p'.
Proof.
  intros (Es & E1 & E2 & E3 & E4 & E5 & E6 & E7 & E8). unfold slot_ok. rewrite E1, E2, E3, E4, E5, E6, E7, E8.
  destruct Es as [->|[-> ->]]; [done|]. intros (H1 & H2 & H3 & H4 & H5 & H6 & lk & b & ->). do 5 (split; [done|]). by split.
Qed.

Lemma bind_Forall2 {A B} (g : A → list B) l l' :
  Forall2 (λ x y, g y = g x) l l' → l' ≫= g = l ≫= g.
Proof. induction 1 as [|x y l l' E _ IH]; [done|]. cbn. change (list_bind _ _ g ?l) with (l ≫= g). by rewrite E, IH. Qed.

Lemma inv_keeps x all T T' : inv x all T → keeps T T' → inv x all T'.
Proof.
  intros [I1 I2 I3 I4 I5 I6 I7 I8 I9 I10 I11 I12] (l & -> & Hl).
  assert (∀ i p', l !! i = Some p' → ∃ p, procs T !! i = Some p ∧ pkeep p p') as Hb.
  { intros i p' Hi. eapply Forall2_lookup_r in Hl as (p & Hp & Hk); [|exact Hi]. eauto. }
  assert (∀ i p, procs T !! i = Some p → ∃ p', l !! i = Some p' ∧ pkeep p p') as Hf.
  { intros i p Hi. eapply Forall2_lookup_l in Hl as (p' & Hp & Hk); [|exact Hi]. eauto. }
  assert (images (set_procs l T) = images T) as EI.
  { apply bind_Forall2. eapply list.Forall2_impl; [exact Hl|]. intros p0 p1 Hk. by apply pkeep_live in Hk as (_ & _ & ? & _). }
  assert (files (set_procs l T) = files T) as EF.
  { apply bind_Forall2. eapply list.Forall2_impl; [exact Hl|]. by intros p0 p1 (_ & _ & _ & _ & _ & _ & _ & -> & _). }
  assert (dirs (set_procs l T) = dirs T) as ED.
  { apply bind_Forall2. eapply list.Forall2_impl; [exact Hl|]. by intros p0 p1 (_ & _ & _ & _ & _ & _ & _ & _ & ->). }
  constructor; rewrite ?EI, ?EF, ?ED; try done; cbn.
  - apply Forall2_length in Hl. congruence.
  - intros i p' Hi. destruct (Hb i p' Hi) as (p & Hp & Hk). eapply pkeep_slot; [done|by eapply I5].
  - intros i p' Hi. destruct (Hb i p' Hi) as (p & Hp & Hk). apply pkeep_live in Hk as (_ & _ & _ & ->). by apply I6.
  - intros i j p' q' Hi Hj Lp Lq E. destruct (Hb i p' Hi) as (p & Hp & Hkp), (Hb j q' Hj) as (q & Hq & Hkq).
    apply (I8 i j p q); [done|done|by apply (pkeep_live _ _ Hkp)|by apply (pkeep_live _ _ Hkq)|].
    destruct Hkp as (_ & <- & _), Hkq as (_ & <- & _). done.
  - destruct I9 as (i & p & E & Hp & Ha & Hz). destruct (Hf i p Hp) as (p' & Hp' & Hk). exists i, p'.
    splits; [done|done|by apply (pkeep_live _ _ Hk)|]. by destruct Hk as (_ & _ & -> & _).
  - intros i p' Hi Lp Hn. destruct (Hb i p' Hi) as (p & Hp & Hk).
    destruct (I10 i p Hp) as (j & q & E & Hq & Ha); [by apply (pkeep_live _ _ Hk)|done|].
    destruct (Hf j q Hq) as (q' & Hq' & Hkq). exists j, q'.
    splits; [by destruct Hk as (_ & _ & -> & _)|done|by apply (pkeep_live _ _ Hkq)].
Qed.

(** ** wakeup and kill *)

Lemma proc_at_lookup (T : pst) i p : procs T !! i = Some p → proc_at T i = p.
Proof. unfold proc_at. by intros ->. Qed.

Lemma wakeup_run s d w T chan :
  rep s d w [] T → 0 ≤ d →
  wp (wakeup chan) (λ _ s', ∃ T', rep s' d w [] T' ∧ keeps T T') s.
Proof.
  intros Hs Hd. unfold wakeup.
  eapply (wp_for_loop (λ _ s', ∃ T', rep s' d w [] T' ∧ keeps T T')); [by exists T; auto using keeps_refl| |done].
  intros k s1 Hk (T1 & Hs1 & Hk1). change (0 + Z.of_nat (Z.to_nat NPROC)) with 64 in Hk. cbv zeta. wp_run.
  eapply wp_myproc; [done|done|]. intros s2 Hs2. destruct (negb _); [|wp_run; eauto]. wp_run.
  eapply wp_lock_proc; [done|lia|apply not_elem_of_nil|]. intros s3 Hs3. wp_run.
  eapply wp_get_proc; [done|]. intros b. cbn [p_state p_chan set_p_locked].
  destruct (bool_decide _ && _) eqn:E; wp_run.
  - apply andb_true_iff in E as [E%bool_decide_eq_true _].
    eapply wp_set_proc; [done|done|]. intros s4 Hs4.
    eapply wp_unlock_proc; [done|lia|apply not_elem_of_nil|lia|]. intros s5 Hs5. replace (d + 1 - 1) with d in Hs5 by lia.
    eexists. split; [exact Hs5|]. eapply keeps_trans; [exact Hk1|]. apply keeps_upd. intros p Hp.
    rewrite (proc_at_lookup _ _ _ Hp) in E. unfold pkeep. cbn. splits; auto.
  - eapply wp_unlock_proc; [done|lia|apply not_elem_of_nil|lia|]. intros s5 Hs5. replace (d + 1 - 1) with d in Hs5 by lia.
    eauto.
Qed.

Lemma upd_compose i f g (T : pst) : upd i f (upd i g T) = upd i (λ p, f (g p)) T.
Proof.
  unfold upd, set_procs. cbn. f_equal. apply list_eq. intros j. destruct (decide (i = j)) as [<-|Hne].
  - rewrite !list_lookup_alter_eq. by destruct (procs T !! i).
  - by rewrite !list_lookup_alter_ne.
Qed.

(** What [kill] does to the process it finds. *)
Definition marked (p : proc) : proc :=
  let p' := set_p_killed 1 p in if decide (p_state p = SLEEPING) then set_p_state RUNNABLE p' else p'.

Definition killed_one (T : pst) (pid r : Z) (T' : pst) : Prop :=
  r = -1 ∧ T' = T ∧ (∀ j p, procs T !! j = Some p → p_pid p ≠ pid) ∨
  r = 0 ∧ ∃ i p, procs T !! i = Some p ∧ p_pid p = pid ∧ (∀ j q, (j < i)%nat → procs T !! j = Some q → p_pid q ≠ pid) ∧
    T' = upd i marked T.

Lemma kill_proc_run s d w T pid :
  rep s d w [] T → 0 ≤ d →
  wp (kill pid) (λ r s', ∃ T', rep s' d w [] T' ∧ killed_one T pid r T') s.
Proof.
  intros Hs Hd. unfold kill.
  eapply (wp_loop (λ i s', rep s' d w [] T ∧ ∀ j q, (j < i)%nat → procs T !! j = Some q → p_pid q ≠ pid) (λ i _, (64 - i)%nat));
    [change (Z.to_nat NPROC) with 64%nat; lia|split; [done|lia]|].
  intros i s1 [Hs1 Hlt]. change (Z.to_nat NPROC) with 64%nat. destruct (Nat.leb_spec 64 i).
  { wp_run. exists T. split; [done|]. left. split; [done|]. split; [done|]. intros j p Hj. apply (Hlt j); [|done].
    apply lookup_lt_Some in Hj as Hj'. rewrite (rep_length _ _ _ _ _ Hs) in Hj'. lia. }
  destruct (lookup_lt_is_Some_2 (procs T) i) as [p Hp]; [rewrite (rep_length _ _ _ _ _ Hs); lia|].
  wp_run. eapply wp_lock_proc; [done|lia|apply not_elem_of_nil|]. intros s2 Hs2. wp_run.
  eapply wp_get_proc; [done|]. intros b. rewrite (proc_at_lookup _ _ _ Hp). cbn [p_state p_pid set_p_locked].
  assert (∀ s' T', p_pid p = pid → rep s' (d + 1) w [i] T' → T' = upd i marked T →
    wp (unlock_proc i ;; ret (inr 0)) (λ (r : nat + Z) s', match r with
      | inl i' => (rep s' d w [] T ∧ ∀ j q, (j < i')%nat → procs T !! j = Some q → p_pid q ≠ pid) ∧ (64 - i' < 64 - i)%nat
      | inr r => ∃ T', rep s' d w [] T' ∧ killed_one T pid r T' end) s') as Hend.
  { intros s3 T' Ep Hs3 ->. wp_run. eapply wp_unlock_proc; [done|lia|apply not_elem_of_nil|lia|]. intros s5 Hs5.
    replace (d + 1 - 1) with d in Hs5 by lia. wp_run. eexists. split; [exact Hs5|]. right. split; [done|]. by exists i, p. }
  assert (∀ g, g p = marked p → upd i g T = upd i marked T) as Hg.
  { intros g Eg. unfold upd, set_procs. f_equal. apply list_eq. intros j. destruct (decide (i = j)) as [<-|Hn].
    - rewrite !list_lookup_alter_eq, Hp. cbn. by rewrite Eg.
    - by rewrite !list_lookup_alter_ne. }
  destruct (Z.eqb_spec (p_pid p) pid) as [Ep|Ep]; wp_run.
  - eapply wp_set_proc; [done|done|]. intros s3 Hs3. apply wp_bind. case_decide as E.
    + eapply wp_set_proc; [done|done|]. intros s4 Hs4. rewrite upd_compose in Hs4. eapply Hend; [done|exact Hs4|].
      apply Hg. unfold marked. by rewrite decide_True.
    + apply wp_ret. eapply Hend; [done|exact Hs3|]. apply Hg. unfold marked. by rewrite decide_False.
  - eapply wp_unlock_proc; [done|lia|apply not_elem_of_nil|lia|]. intros s5 Hs5. wp_run. replace (d + 1 - 1) with d in Hs5 by lia.
    split; [|lia]. split; [done|]. intros j q Hj Hq. destruct (decide (j = i)) as [->|]; [congruence|]. apply (Hlt j); [lia|done].
Qed.

Lemma killed_one_keeps T pid r T' : killed_one T pid r T' → keeps T T'.
Proof.
  intros [(_ & -> & _)|(_ & i & p & Hp & _ & _ & ->)]; [apply keeps_refl|]. apply keeps_upd. intros q Hq.
  assert (q = p) as -> by congruence. unfold marked. case_decide; unfold pkeep; splits; auto.
Qed.

(** ** Allocating and freeing a process *)

(** A freed slot. *)
Definition unuse (p : proc) : proc :=
  mkProc (p_locked p) UNUSED 0 0 0 0 0 (p_kstack p) 0 0 0 (p_context p) (p_ofile p) (p_cwd p) (<[0%nat := 0]> (p_name p)).

(** The memory [freeproc] gives back. *)
Definition free_mem (p : proc) : M kst unit :=
  (if truthy (p_trapframe p) then kfree (p_trapframe p) else ret tt) ;;
  (if truthy (p_pagetable p) then proc_freepagetable (p_pagetable p) (p_sz p) else ret tt).

Lemma rep_km s d w L T : rep s d w L T → rep s d w L (set_km (km T) T).
Proof. by destruct T. Qed.

Lemma wp_freeproc Q s d w L T i :
  rep s d w L T →
  wp (free_mem (proc_at T i)) (λ _ k, ∀ s', rep s' d w L (upd i unuse (set_km k T)) → Q tt s') (km T) →
  wp (freeproc i) Q s.
Proof.
  intros Hs Hm. unfold freeproc. wp_run. eapply wp_get_proc; [done|]. intros b.
  cbn [p_trapframe p_pagetable p_sz set_p_locked]. unfold free_mem in Hm. apply wp_bind_inv in Hm.
  apply wp_bind. assert (∀ (c : bool) (m : M kst unit) s' T' Q', rep s' d w L T' →
    wp (if c then m else ret tt) (λ a k, ∀ s2, rep s2 d w L (set_km k T') → Q' a s2) (km T') →
    wp (if c then ink m else ret tt) Q' s') as Hif.
  { intros c m s' T' Q' Hs' Hw. destruct c; [by eapply wp_ink|]. apply Hw. by apply rep_km. }
  eapply Hif; [done|]. eapply wp_mono; [exact Hm|]. cbv beta. intros [] k1 Hk1 s1 Hs1.
  wp_run. eapply wp_set_proc; [done|done|]. intros s2 Hs2. wp_run.
  eapply Hif; [done|]. eapply wp_mono; [exact Hk1|]. cbv beta. intros [] k2 Hk2 s3 Hs3. clear Hs Hs1 Hs2.
  do 9 (wp_run; eapply wp_set_proc; [eassumption|done|]; clear dependent s3; intros s3 Hs3).
  apply Hk2. rewrite !upd_compose in Hs3.
  change (set_km k2 (upd i (set_p_trapframe 0) (set_km k1 T))) with (upd i (set_p_trapframe 0) (set_km k2 T)) in Hs3.
  rewrite upd_compose in Hs3. exact Hs3.
Qed.

Lemma find_unused_run s d w T :
  rep s d w [] T → 0 ≤ d →
  wp find_unused (λ r s', match r with
    | None => rep s' d w [] T ∧ ∀ i p, procs T !! i = Some p → live p
    | Some i => rep s' (d + 1) w [i] T ∧ (i < 64)%nat ∧ p_state (proc_at T i) = UNUSED ∧
        ∀ j q, procs T !! j = Some q → (j < i)%nat → live q
    end) s.
Proof.
  intros Hs Hd. unfold find_unused.
  eapply (wp_loop (λ i s', rep s' d w [] T ∧ ∀ j p, procs T !! j = Some p → (j < i)%nat → live p) (λ i _, (64 - i)%nat));
    [change (Z.to_nat NPROC) with 64%nat; lia|split; [done|lia]|].
  intros i s1 [Hs1 Hlt]. change (Z.to_nat NPROC) with 64%nat. destruct (Nat.leb_spec 64 i).
  { wp_run. split; [done|]. intros j p Hj. apply (Hlt j); [done|]. apply lookup_lt_Some in Hj as Hj'.
    rewrite (rep_length _ _ _ _ _ Hs) in Hj'. lia. }
  wp_run. eapply wp_lock_proc; [done|lia|apply not_elem_of_nil|]. intros s2 Hs2. wp_run.
  eapply wp_get_proc; [done|]. intros b. cbn [p_state set_p_locked]. case_decide as E; wp_run; [done|].
  eapply wp_unlock_proc; [done|lia|apply not_elem_of_nil|lia|]. intros s3 Hs3. wp_run.
  replace (d + 1 - 1) with d in Hs3 by lia. split; [|lia]. split; [done|]. intros j p Hj Hji.
  destruct (decide (j = i)) as [->|]; [|apply (Hlt j); [done|lia]]. rewrite (proc_at_lookup _ _ _ Hj) in E. done.
Qed.

(** The memory [allocproc] takes: a trapframe page and a page table. *)
Definition alloc_mem : M kst (option (Z * Z)) :=
  tf <- kalloc ;;
  if tf =? 0 then ret None
  else
    pt <- proc_pagetable tf ;;
    if pt =? 0 then kfree tf ;; ret None else ret (Some (tf, pt)).

Definition fresh (pid tf pt : Z) (p : proc) : proc :=
  set_p_context AtForkret (set_p_pagetable pt (set_p_trapframe tf (set_p_state USED (set_p_pid pid p)))).

Lemma wp_allocproc Q s d w T :
  rep s d w [] T → 0 ≤ d →
  (∀ i p, procs T !! i = Some p → p_state p = UNUSED → p_trapframe p = 0 ∧ p_pagetable p = 0) →
  (∀ s', rep s' d w [] T → Q None s') →
  (∀ i p, procs T !! i = Some p → p_state p = UNUSED → (∀ j q, procs T !! j = Some q → (j < i)%nat → live q) →
     let T1 := set_nextpid (i32 (nextpid T + 1)) T in
     wp alloc_mem (λ r k, match r with
       | None => ∀ s', rep s' d w [] (upd i unuse (set_km k T1)) → Q None s'
       | Some (tf, pt) => ∀ s', rep s' (d + 1) w [i] (upd i (fresh (nextpid T) tf pt) (set_km k T1)) → Q (Some i) s'
       end) (km T)) →
  wp allocproc Q s.
Proof.
  intros Hs Hd Hz HN HS. unfold allocproc. wp_run. eapply wp_mono; [by eapply find_unused_run|]. cbv beta.
  intros [i|] s1 H; [|destruct H as [Hs1 _]; wp_run; by apply HN]. destruct H as (Hs1 & Hi & Hu & Hlt).
  destruct (lookup_lt_is_Some_2 (procs T) i) as [p Hp]; [rewrite (rep_length _ _ _ _ _ Hs); lia|].
  rewrite (proc_at_lookup _ _ _ Hp) in Hu. specialize (HS i p Hp Hu Hlt). specialize (Hz i p Hp Hu). cbv zeta in HS.
  set (T1 := set_nextpid (i32 (nextpid T + 1)) T) in *.
  wp_run. eapply wp_allocpid; [done|lia|]. intros s2 Hs2. fold T1 in Hs2. wp_run.
  eapply wp_set_proc; [done|done|]. clear s2 Hs2. intros s2 Hs2. wp_run.
  eapply wp_set_proc; [done|done|]. clear s2 Hs2. intros s2 Hs2. rewrite upd_compose in Hs2. wp_run.
  eapply wp_ink; [done|]. unfold alloc_mem in HS. apply wp_bind_inv in HS.
  change (km (upd _ _ T1)) with (km T). eapply wp_mono; [exact HS|]. cbv beta. intros tf k1 HS1 s3 Hs3.
  wp_run. eapply wp_set_proc; [done|done|]. clear s2 Hs2 s3 Hs3. intros s3 Hs3. 
  change (set_km k1 (upd i ?f T1)) with (upd i f (set_km k1 T1)) in Hs3. rewrite upd_compose in Hs3.
  assert (length (procs T) = 64%nat) as Hlen by by eapply rep_length.
  assert (∀ k f, proc_at (upd i f (set_km k T1)) i = f p) as Hat.
  { intros k f. unfold proc_at. cbn. by rewrite list_lookup_alter_eq, Hp. }
  destruct (Z.eqb_spec tf 0) as [->|Htf].
  - wp_run. eapply wp_freeproc; [done|]. rewrite Hat. unfold free_mem. cbn [p_trapframe p_pagetable set_p_trapframe set_p_state set_p_pid].
    rewrite (proj2 Hz). cbn. wp_run. intros s4 Hs4. wp_run.
    eapply wp_unlock_proc; [done|lia|apply not_elem_of_nil|lia|]. intros s5 Hs5. wp_run.
    replace (d + 1 - 1) with d in Hs5 by lia. apply HS1.
    change (set_km ?k (upd i ?f (set_km ?k T1))) with (upd i f (set_km k T1)) in Hs5. by rewrite upd_compose in Hs5.
  - wp_run. eapply wp_ink; [done|]. apply wp_bind_inv in HS1. change (km (upd _ _ (set_km k1 T1))) with k1.
    eapply wp_mono; [exact HS1|]. cbv beta. intros pt k2 HS2 s4 Hs4. wp_run.
    eapply wp_set_proc; [done|done|]. clear s3 Hs3 s4 Hs4. intros s4 Hs4.
    change (set_km k2 (upd i ?f (set_km k1 T1))) with (upd i f (set_km k2 T1)) in Hs4. rewrite upd_compose in Hs4.
    destruct (Z.eqb_spec pt 0) as [->|Hpt]; wp_run.
    + eapply wp_freeproc; [done|]. rewrite Hat. unfold free_mem.
      cbn [p_trapframe p_pagetable set_p_trapframe set_p_state set_p_pid set_p_pagetable].
      unfold truthy at 1. rewrite (proj2 (Z.eqb_neq tf 0)) by done. cbn. apply wp_bind_inv in HS2. wp_run.
      eapply wp_mono; [exact HS2|]. cbv beta. intros [] k3 HS3. wp_run. intros s5 Hs5. wp_run.
      eapply wp_unlock_proc; [done|lia|apply not_elem_of_nil|lia|]. intros s6 Hs6. wp_run.
      replace (d + 1 - 1) with d in Hs6 by lia. apply HS3.
      change (set_km ?k (upd i ?f (set_km ?k' T1))) with (upd i f (set_km k T1)) in Hs6. by rewrite upd_compose in Hs6.
    + eapply wp_set_proc; [done|done|]. intros s5 Hs5. rewrite upd_compose in Hs5. wp_run. by apply HS2.
Qed.

(** ** One process changes *)

Lemma bind_split {B} (g : proc → list B) (l : list proc) i p :
  l !! i = Some p → ∃ R, l ≫= g ≡ₚ g p ++ R ∧ ∀ f, alter f i l ≫= g ≡ₚ g (f p) ++ R.
Proof.
  revert i. induction l as [|x l IH]; intros i Hi; [done|]. destruct i as [|i]; cbn in Hi.
  - injection Hi as ->. exists (l ≫= g). by split.
  - destruct (IH i Hi) as (R & H1 & H2). exists (g x ++ R). cbn. change (list_bind _ _ g ?l) with (l ≫= g).
    split; [rewrite H1; apply Permutation_app_swap_app|]. intros f. change (list_alter f i l) with (alter f i l).
    rewrite H2. apply Permutation_app_swap_app.
Qed.

(** The slot [i] with [p] becomes [g p]; memory, files, pids and the CPU change
    with it. *)
Lemma inv_upd x x' all T i p g k f np cur :
  inv x all T → procs T !! i = Some p → nextpid T ≤ np < 2147483648 →
  (∀ j, j ≠ i → x = Some j ↔ x' = Some j) →
  slot_ok np (bool_decide (x' = Some i)) (g p) →
  (∀ j q, j ≠ i → procs T !! j = Some q → p_state q = RUNNING ↔ cur = pptr j) →
  (p_state (g p) = RUNNING ↔ cur = pptr i) → (cur = 0 ∨ ∃ j, cur = pptr j ∧ (j < 64)%nat) →
  (live (g p) → ∀ j q, j ≠ i → procs T !! j = Some q → live q → p_pid q ≠ p_pid (g p)) →
  (pptr i = initproc T → alive (g p) ∧ p_parent (g p) = 0) →
  (live (g p) → pptr i ≠ initproc T → ∃ j, p_parent (g p) = pptr j ∧
     (j = i ∧ alive (g p) ∨ ∃ q, j ≠ i ∧ procs T !! j = Some q ∧ alive q)) →
  (alive (g p) ∨ ∀ j q, j ≠ i → procs T !! j = Some q → live q → p_parent q ≠ pptr i) →
  (∀ R, images T ≡ₚ image p ++ R → memx all k (image (g p) ++ R)) →
  (∀ R D, files T ≡ₚ refs (p_ofile p) ++ R → dirs T ≡ₚ refs [p_cwd p] ++ D →
     fl_inv f (refs (p_ofile (g p)) ++ R) (refs [p_cwd (g p)] ++ D)) →
  inv x' all (upd i g (set_c_proc cur (set_fl f (set_km k (set_nextpid np T))))).
Proof.
  intros [I1 I2 I3 I4 I5 I6 I7 I8 I9 I10 I11 I12] Hp Hnp C0 C1 C2 C2' C2'' C3 C4 C5 C5' C6 C7.
  set (T' := upd _ _ _).
  assert (∀ j q', procs T' !! j = Some q' → j = i ∧ q' = g p ∨ j ≠ i ∧ procs T !! j = Some q') as Hb.
  { intros j q' Hj. cbn in Hj. destruct (decide (i = j)) as [<-|Hne].
    - rewrite list_lookup_alter_eq, Hp in Hj. injection Hj as <-. by left.
    - rewrite list_lookup_alter_ne in Hj by done. right. split; [congruence|done]. }
  assert (procs T' !! i = Some (g p)) as Hi by (cbn; by rewrite list_lookup_alter_eq, Hp).
  assert (∀ j q, j ≠ i → procs T !! j = Some q → procs T' !! j = Some q) as Ho
    by (intros j q Hne Hj; cbn; by rewrite list_lookup_alter_ne by congruence).
  constructor; try done.
  - cbn. by rewrite length_alter.
  - cbn. lia.
  - intros j q Hj. destruct (Hb j q Hj) as [[-> ->]|[Hne Hq]]; [done|]. specialize (I5 j q Hq). revert I5.
    rewrite (bool_decide_ext _ _ (C0 j Hne)). unfold slot_ok. cbn. destruct (p_state q); try done; intros (? & ? & ? & ? & ? & ?); do 3 (split; [done|]);
      (split; [lia|]); by split.
  - intros j q Hj. destruct (Hb j q Hj) as [[-> ->]|[Hne Hq]]; [done|by apply C2].
  - intros j1 j2 q1 q2 H1 H2 L1 L2 E. destruct (Hb j1 q1 H1) as [[-> ->]|[N1 Q1]], (Hb j2 q2 H2) as [[-> ->]|[N2 Q2]]; [done| | |].
    + by destruct (C3 L1 j2 q2 N2 Q2 L2).
    + by destruct (C3 L2 j1 q1 N1 Q1 L1).
    + by eapply I8.
  - destruct I9 as (j & q & E & Hj & Ha & Hz). destruct (decide (j = i)) as [->|Hne].
    + destruct (C4 (eq_sym E)) as [? ?]. by exists i, (g p).
    + exists j, q. splits; auto.
  - intros j q Hj Lq Hn. assert (∀ j' q', procs T !! j' = Some q' → alive q' → (j' = i → alive (g p)) →
      ∃ q'', procs T' !! j' = Some q'' ∧ alive q'') as Hal.
    { intros j' q' Hj' Ha' Hi'. destruct (decide (j' = i)) as [->|]; [exists (g p); auto|exists q'; auto]. }
    destruct (Hb j q Hj) as [[-> ->]|[Hne Hq]].
    + destruct (C5 Lq Hn) as (j' & E & [[-> Ha]|(q' & N' & Hq' & Ha)]); [by exists i, (g p)|]. exists j', q'. auto.
    + destruct (I10 j q Hq Lq Hn) as (j' & q' & E & Hq' & Ha). destruct (Hal j' q' Hq' Ha) as (q'' & ? & ?); [|by exists j', q''].
      intros ->. destruct C5' as [?|C5']; [done|]. by destruct (C5' j q Hne Hq Lq).
  - destruct (bind_split image _ i p Hp) as (R & E1 & E2). cbn.
    eapply memx_perm; [apply (C6 R E1)|]. symmetry. apply E2.
  - destruct (bind_split (λ p, refs (p_ofile p)) _ i p Hp) as (R & E1 & E2).
    destruct (bind_split (λ p, refs [p_cwd p]) _ i p Hp) as (D & E3 & E4).
    eapply fl_inv_perm; [apply (C7 R D E1 E3)|symmetry; apply E2|symmetry; apply E4].
Qed.

End rep.
