(* ===== verification/ProcCalls.v ===== *)
(** * System calls and scheduling keep the process table in order

    Each operation of proc.c runs from a table that satisfies the invariant of
    [ProcSpec] to one that does. *)

From stdpp Require Import base gmap list strings numbers.
From S2P Require Import Prelude Machine Riscv KString Kalloc Vm PageTable Uvm FreeWalk UserCopy Spinlock Proc ProcMem ProcSpec.

Section calls.
Context {LY : Layout} {LO : LayoutOk} {PLY : ProcLayout} {PLO : ProcLayoutOk} {F : Type} {FLY : FileLayer F} {FLO : FileLayerOk F}.
Notation pst := (pst F).

Lemma same_T (T : pst) cur : set_c_proc cur (set_fl (fl T) (set_km (km T) (set_nextpid (nextpid T) T))) = set_c_proc cur T.
Proof. by destruct T. Qed.

Lemma pptr_inj i j : pptr i = pptr j → i = j.
Proof. unfold pptr. lia. Qed.
Lemma pptr_nonzero i : pptr i ≠ 0.
Proof. unfold pptr. lia. Qed.
Lemma pslot_pptr i : pslot (pptr i) = i.
Proof. unfold pslot, pptr. lia. Qed.
#[local] Hint Resolve pptr_nonzero : core.

(** The scheduler's view of a process changes, nothing else. *)
Lemma inv_state x all T i p g cur :
  inv x all T → procs T !! i = Some p → alive p → alive (g p) → slot_ok (nextpid T) (bool_decide (x = Some i)) (g p) →
  p_pid (g p) = p_pid p → p_parent (g p) = p_parent p → img_of (g p) = img_of p →
  p_ofile (g p) = p_ofile p → p_cwd (g p) = p_cwd p →
  (∀ j q, j ≠ i → procs T !! j = Some q → p_state q = RUNNING ↔ cur = pptr j) →
  (p_state (g p) = RUNNING ↔ cur = pptr i) → (cur = 0 ∨ cur = pptr i) →
  inv x all (upd i g (set_c_proc cur T)).
Proof.
  intros Hi Hp Ap Ag Hs E1 E2 E3 E4 E5 C1 C2 C3. rewrite <-same_T.
  assert (∀ q, alive q → live q) as AL by (intros q [E|[E|E]]; unfold live; by rewrite E).
  apply (inv_upd x x all T i p); try done.
  - pose proof (inv_next _ _ _ Hi). lia.
  - destruct C3 as [->| ->]; [by left|right]. exists i. split; [done|]. rewrite <-(inv_length _ _ _ Hi). by eapply lookup_lt_Some.
  - intros _ j q Hne Hj Lq E. apply Hne. eapply (inv_pids _ _ _ Hi); [done|exact Hp|done|by apply AL|congruence].
  - intros Ei. split; [done|]. destruct (inv_init _ _ _ Hi) as (j & q & Ej & Hj & _ & Hz). rewrite E2.
    assert (j = i) as -> by (apply pptr_inj; congruence). congruence.
  - intros _ Hn. destruct (inv_parent _ _ _ Hi i p Hp (AL _ Ap) Hn) as (j & q & Ej & Hj & Aq). exists j. split; [congruence|].
    destruct (decide (j = i)) as [->|Hne]; [by left|right]. by exists q.
  - by left.
  - intros R HR. unfold image in *. rewrite E3, decide_True by by apply AL. rewrite decide_True in HR by by apply AL.
    eapply memx_perm; [apply (inv_mem _ _ _ Hi)|done].
  - intros R D HR HD. rewrite E4, E5. eapply fl_inv_perm; [apply (inv_files _ _ _ Hi)|done|done].
Qed.

(** The process on the CPU. *)
Lemma cur_proc x all T i : inv x all T → c_proc T = pptr i → ∃ p, procs T !! i = Some p ∧ p_state p = RUNNING ∧ (i < 64)%nat.
Proof.
  intros Hi Ec. destruct (inv_cur0 _ _ _ Hi) as [E|(j & E & Hj)]; [rewrite Ec in E; by apply pptr_nonzero in E|].
  assert (j = i) as -> by (apply pptr_inj; congruence).
  destruct (lookup_lt_is_Some_2 (procs T) i) as [p Hp]; [by rewrite (inv_length _ _ _ Hi)|].
  exists p. split; [done|]. split; [by apply (inv_cur _ _ _ Hi i p Hp)|done].
Qed.

Lemma cur_other x all T i : inv x all T → c_proc T = pptr i →
  ∀ j q, j ≠ i → procs T !! j = Some q → p_state q = RUNNING ↔ 0 = pptr j.
Proof.
  intros Hi Ec j q Hne Hj. rewrite (inv_cur _ _ _ Hi j q Hj), Ec. split; [by intros ?%pptr_inj|].
  intros E. symmetry in E. by apply pptr_nonzero in E.
Qed.

(** ** Giving up the CPU *)

Lemma sched_run (s T : pst) i ctx :
  rep s 1 false [i] T → c_proc T = pptr i → (i < 64)%nat → p_state (proc_at T i) ≠ RUNNING →
  wp (sched ctx) (λ _ s', ∃ b, rep s' 0 false [] (set_c_proc 0 (upd i (set_p_context (ctx b)) T))) s.
Proof.
  intros Hs Ec Hi Hr. unfold sched. wp_run. eapply wp_myproc; [done|lia|]. clear s Hs. intros s Hs. rewrite Ec, pslot_pptr.
  wp_run. unfold get_proc. wp_run. rewrite (rep_proc_locked _ _ _ _ _ _ Hs Hi). rewrite bool_decide_true by constructor.
  cbn [negb]. wp_run. pose proof Hs as (HT & _ & Hc & Hn & _). rewrite Hn. cbn [Z.eqb negb Pos.eqb].
  rewrite decide_False.
  2: { intros E. apply Hr. rewrite <-HT. unfold proc_at in *. rewrite clear_procs. destruct (procs s !! i); [|done]. done. }
  destruct Hc as [_ Hci]. rewrite Hci by lia. wp_run. eapply wp_set_proc; [done|done|]. clear HT Hn. intros s1 Hs1. wp_run.
  apply (rep_set_c_proc _ _ _ _ _ 0) in Hs1.
  eapply wp_unlock_proc; [done|done|apply not_elem_of_nil|lia|]. intros s2 Hs2. eauto.
Qed.

Lemma yield_run all s T i :
  rep s 0 false [] T → inv None all T → c_proc T = pptr i →
  wp yield (λ _ s', ∃ T', rep s' 0 false [] T' ∧ inv None all T' ∧ nextpid T' = nextpid T ∧ initproc T' = initproc T) s.
Proof.
  intros Hs Hi Ec. destruct (cur_proc _ _ _ _ Hi Ec) as (p & Hp & Ep & Hl). unfold yield. wp_run.
  eapply wp_myproc; [done|lia|]. clear s Hs. intros s Hs. rewrite Ec, pslot_pptr. wp_run.
  eapply wp_lock_proc; [done|done|apply not_elem_of_nil|]. clear s Hs. intros s Hs. wp_run.
  eapply wp_set_proc; [done|done|]. clear s Hs. intros s Hs. wp_run.
  eapply wp_mono; [eapply (sched_run s _ i); [exact Hs|done|done|]|].
  { unfold proc_at. cbn. by rewrite list_lookup_alter_eq, Hp. }
  cbv beta. intros [] s' (b & Hs'). eexists. split; [exact Hs'|]. rewrite upd_compose.
  change (set_c_proc 0 (upd i ?f T)) with (upd i f (set_c_proc 0 T)). split; [|done].
  pose proof (inv_slots _ _ _ Hi i p Hp) as So. unfold slot_ok in So. rewrite Ep in So.
  apply (inv_state None all T i p); try done.
  - right. by right.
  - right. by left.
  - destruct So as (S1 & S2 & S3 & S4 & S5 & S6 & _). unfold slot_ok. cbn. do 5 (split; [done|]). by split.
  - by eapply cur_other.
  - split; [done|]. intros E. symmetry in E. by apply pptr_nonzero in E.
  - by left.
Qed.

(** What an operation leaves: a table in order, with the same pids. *)
Definition done_ok (all : list Z) (T : pst) (s' : pst) : Prop :=
  ∃ T', rep s' 0 false [] T' ∧ inv None all T' ∧ nextpid T ≤ nextpid T' ≤ nextpid T + 1 ∧ initproc T' = initproc T.

Lemma sleep_run all (s : pst) w T T' i chan lk :
  rep s 1 w [] T → inv None all T' → c_proc T = pptr i → c_proc T' = pptr i →
  nextpid T' = nextpid T → initproc T' = initproc T →
  (∀ Q s, rep s 2 w [i] T → (∀ s', rep s' 1 false [i] T' → Q tt s') → wp (unlock_lk lk) Q s) →
  wp (sleep chan lk) (λ _ s', done_ok all T s') s.
Proof.
  intros Hs Hi Ec Ec' En Ein Hun. destruct (cur_proc _ _ _ _ Hi Ec') as (p & Hp & Ep & Hl). unfold sleep. wp_run.
  eapply wp_myproc; [done|lia|]. clear s Hs. intros s Hs. rewrite Ec, pslot_pptr. wp_run.
  eapply wp_lock_proc; [done|done|apply not_elem_of_nil|]. clear s Hs. intros s Hs. wp_run.
  apply (Hun _ s Hs). clear s Hs. intros s Hs. wp_run.
  eapply wp_set_proc; [done|done|]. clear s Hs. intros s Hs. wp_run.
  eapply wp_set_proc; [done|done|]. clear s Hs. intros s Hs. wp_run. rewrite upd_compose in Hs.
  eapply wp_mono; [eapply (sched_run s _ i); [exact Hs|done|done|]|].
  { unfold proc_at. cbn. by rewrite list_lookup_alter_eq, Hp. }
  cbv beta. intros [] s' (b & Hs'). eexists. split; [exact Hs'|]. rewrite upd_compose.
  change (set_c_proc 0 (upd i ?f T')) with (upd i f (set_c_proc 0 T')). split; [|cbn; split; [lia|done]].
  pose proof (inv_slots _ _ _ Hi i p Hp) as So. unfold slot_ok in So. rewrite Ep in So.
  destruct So as (S1 & S2 & S3 & S4 & S5 & S6 & _).
  apply (inv_state None all T' i p); try done.
  - right. by right.
  - by left.
  - unfold slot_ok. cbn. do 5 (split; [done|]). split; [by apply S6|]. by exists lk, b.
  - by eapply cur_other.
  - split; [done|]. intros E. symmetry in E. by apply pptr_nonzero in E.
  - by left.
Qed.

Lemma wp_lock_other Q (s : pst) d w L T a :
  rep s d w L T → a ∉ olocks T →
  (∀ s', rep s' (d + 1) w L (set_olocks ({[a]} ∪ olocks T) T) → Q tt s') → wp (lock_lk (LOther a)) Q s.
Proof.
  intros Hs Ha HQ. cbn. unfold spin_acquire. wp_run. eapply wp_intr_push; [done|]. intros s1 Hs1.
  assert (olocks s1 = olocks T) as E by (destruct Hs1 as (<- & _); done).
  apply wp_acquire; [unfold other_locked; rewrite E; by apply bool_decide_eq_false|]. apply HQ.
  unfold set_other_locked. rewrite E. destruct Hs1 as (<- & Hr). split; [done|exact Hr].
Qed.

Lemma wp_unlock_other Q (s : pst) d w L T a :
  rep s d w L T → a ∈ olocks T → 0 < d →
  (∀ s', rep s' (d - 1) w L (set_olocks (olocks T ∖ {[a]}) T) → Q tt s') → wp (unlock_lk (LOther a)) Q s.
Proof.
  intros Hs Ha Hd HQ. cbn. unfold spin_release. wp_run.
  assert (olocks s = olocks T) as E by (destruct Hs as (<- & _); done).
  apply wp_release; [unfold other_locked; rewrite E; by apply bool_decide_eq_true|].
  eapply wp_intr_pop; [|exact Hd|exact HQ].
  unfold set_other_locked. rewrite E. destruct Hs as (<- & Hr). split; [done|exact Hr].
Qed.

(** A process waits for a device under the device's lock [a]. *)
Lemma sleep_device_run all (s : pst) T i chan a :
  rep s 0 false [] T → inv None all T → c_proc T = pptr i →
  wp (lock_lk (LOther a) ;; sleep chan (LOther a)) (λ _ s', done_ok all T s') s.
Proof.
  intros Hs Hi Ec. pose proof (inv_olocks _ _ _ Hi) as Eo. wp_run.
  eapply wp_lock_other; [done|rewrite Eo; set_solver|]. clear s Hs. intros s Hs.
  eapply wp_mono; [eapply (sleep_run all s false _ T i); [exact Hs|done|done|done|done|done|]|done].
  intros Q s1 Hs1 HQ. eapply wp_unlock_other; [done|cbn; set_solver|lia|]. intros s2 Hs2. apply HQ.
  replace (set_olocks _ _) with T in Hs2; [exact Hs2|]. destruct T. cbn in *. subst. unfold set_olocks. cbn. f_equal. set_solver.
Qed.

(** ** Getting the CPU *)

Lemma upd_const i f (T : pst) p : procs T !! i = Some p → upd i f T = upd i (λ _, f p) T.
Proof.
  intros Hp. unfold upd. f_equal. apply list_eq. intros j. destruct (decide (i = j)) as [<-|Hne].
  - rewrite !list_lookup_alter_eq. by rewrite Hp.
  - by rewrite !list_lookup_alter_ne.
Qed.

(** A process that is switched to. *)
Definition resumed (p : proc) : proc :=
  match p_context p with
  | InSleep _ _ => set_p_chan 0 (set_p_state RUNNING p)
  | _ => set_p_state RUNNING p
  end.

(** The process [i] goes on where it was. *)
Lemma switch_run all (s : pst) T i p :
  rep s 0 false [] T → inv None all T → c_proc T = 0 → procs T !! i = Some p → p_state p = RUNNABLE →
  let T' := upd i (λ _, resumed p) (set_c_proc (pptr i) T) in
  inv None all T' ∧
  wp (scheduler_turn i) (λ _ s', match p_context p with
      | InSleep LWait _ => rep s' 1 true [] T'
      | InSleep (LOther a) _ => rep s' 1 false [] (set_olocks ({[a]} ∪ ∅) T')
      | _ => rep s' 0 false [] T'
      end) s.
Proof.
  intros Hs Hi Ec Hp Ep T'. assert (i < 64)%nat as Hl by (rewrite <-(inv_length _ _ _ Hi); by eapply lookup_lt_Some).
  pose proof (inv_slots _ _ _ Hi i p Hp) as So. unfold slot_ok in So. rewrite Ep in So.
  destruct So as (S1 & S2 & S3 & S4 & S5 & S6 & S7). split.
  { assert (∃ c, resumed p = set_p_chan c (set_p_state RUNNING p)) as [c Er].
    { unfold resumed. destruct (p_context p); [exists (p_chan p)|exists 0|exists (p_chan p)..]; by destruct p. }
    apply (inv_state None all T i p); rewrite ?Er; try done.
    - right. by left.
    - right. by right.
    - intros j q Hne Hj. rewrite (inv_cur _ _ _ Hi j q Hj), Ec. split; [intros E; by destruct (pptr_nonzero j)|by intros ?%pptr_inj].
    - by right. }
  unfold scheduler_turn. wp_run. eapply wp_lock_proc; [done|done|apply not_elem_of_nil|]. clear s Hs. intros s Hs. wp_run.
  eapply wp_get_proc; [done|]. intros b. cbn [p_state p_context set_p_locked]. rewrite (proc_at_lookup _ _ _ Hp), Ep.
  rewrite decide_True by done. wp_run. eapply wp_set_proc; [done|done|]. clear s Hs. intros s Hs. wp_run.
  apply (rep_set_c_proc _ _ _ _ _ (pptr i)) in Hs. rewrite (upd_const i _ T p Hp) in Hs.
  revert Hs. generalize (set_c_proc (pptr i) s). clear s. intros s Hs.
  unfold T', resumed. destruct (p_context p) as [|lk ie|ie|] eqn:Ectx; [| | |done]; cbn [resume].
  - unfold forkret. wp_run. eapply wp_myproc; [done|lia|]. clear s Hs. intros s Hs. cbn [c_proc set_c_proc].
    rewrite pslot_pptr. wp_run. eapply wp_unlock_proc; [done|done|apply not_elem_of_nil|lia|]. clear s Hs. intros s Hs.
    wp_run. assert (first s = false) as Ef by (rewrite <-(inv_first _ _ _ Hi); destruct Hs as (E & _); by apply (f_equal first) in E).
    rewrite Ef. wp_run. exact Hs.
  - assert (∀ s, rep s (0 + 1) false [i] (set_c_proc (pptr i) (upd i (λ _, set_p_state RUNNING p) T)) →
      rep (set_c_cpu (mkCpu (c_intr (c_cpu s)) (c_noff (c_cpu s)) ie) s) (0 + 1) false [i] (set_c_proc (pptr i) (upd i (λ _, set_p_state RUNNING p) T))) as Hset.
    { intros s1 Hs1. pose proof Hs1 as (_ & _ & Hc & Hn & _). by eapply rep_cpu. }
    unfold set_intena. wp_run. apply Hset in Hs. wp_run. eapply wp_set_proc; [exact Hs|done|]. clear s Hs Hset. intros s Hs. wp_run.
    change (set_c_proc ?c (upd i ?f T)) with (upd i f (set_c_proc c T)) in Hs. rewrite upd_compose in Hs.
    eapply wp_unlock_proc; [done|done|apply not_elem_of_nil|lia|]. clear s Hs. intros s Hs. replace (0 + 1 - 1) with 0 in Hs by lia.
    destruct lk as [|a]; cbn [lock_lk].
    + eapply wp_lock_wait; [done|]. intros s1 Hs1. exact Hs1.
    + eapply wp_lock_other; [done| |]; cbn [olocks upd set_procs set_c_proc]; rewrite (inv_olocks _ _ _ Hi); [set_solver|].
      intros s1 Hs1. exact Hs1.
  - assert (rep (set_c_cpu (mkCpu (c_intr (c_cpu s)) (c_noff (c_cpu s)) ie) s) (0 + 1) false [i] (set_c_proc (pptr i) (upd i (λ _, set_p_state RUNNING p) T))) as Hset.
    { pose proof Hs as (_ & _ & Hc & Hn & _). by eapply rep_cpu. }
    unfold set_intena. wp_run. eapply wp_unlock_proc; [exact Hset|done|apply not_elem_of_nil|lia|]. intros s1 Hs1. exact Hs1.
Qed.

(** ** Growing and shrinking *)

Lemma inv_km x all (T : pst) k : inv x all T → memx all k (images T) → inv x all (set_km k T).
Proof. intros [I1 I2 I3 I4 I5 I6 I7 I8 I9 I10 I11 I12] Hm. by constructor. Qed.

Lemma alive_live p : alive p → live p.
Proof. intros [E|[E|E]]; unfold live; by rewrite E. Qed.

(** The image of a process changes, and nothing else that the invariant sees. *)
Definition new_image (p p' : proc) : Prop :=
  p_state p' = p_state p ∧ p_pid p' = p_pid p ∧ p_parent p' = p_parent p ∧ p_trapframe p' = p_trapframe p ∧
  p_context p' = p_context p ∧ p_ofile p' = p_ofile p ∧ p_cwd p' = p_cwd p ∧ p_pagetable p' ≠ 0 ∧ 0 ≤ p_sz p' < 4294967296.

Lemma inv_image x all (T : pst) i p g k f :
  inv x all T → procs T !! i = Some p → alive p → new_image p (g p) → fl_inv f (files T) (dirs T) →
  (∀ R, images T ≡ₚ img_of p :: R → memx all k (img_of (g p) :: R)) →
  inv x all (upd i g (set_fl f (set_km k T))).
Proof.
  intros Hi Hp Ap (E1 & E2 & E3 & E4 & E5 & E6 & E7 & Hpt & Hz) Hf Hm. pose proof (alive_live _ Ap) as Lp.
  replace (set_fl f (set_km k T)) with (set_c_proc (c_proc T) (set_fl f (set_km k (set_nextpid (nextpid T) T)))) by by destruct T.
  pose proof (inv_slots _ _ _ Hi i p Hp) as So.
  assert (live (g p) ↔ live p) as El by (unfold live; by rewrite E1). assert (alive (g p) ↔ alive p) as Ea by (unfold alive; by rewrite E1).
  apply (inv_upd x x all T i p); try done.
  - pose proof (inv_next _ _ _ Hi). lia.
  - unfold slot_ok in *. rewrite E1, E2, E3, E4, E5, E6, E7. destruct Ap as [E|[E|E]]; rewrite E in *; destruct So as (_ & ? & _ & ?); by do 3 (split; [done|]).
  - intros j q _ Hj. by apply (inv_cur _ _ _ Hi).
  - rewrite E1. exact (inv_cur _ _ _ Hi i p Hp).
  - exact (inv_cur0 _ _ _ Hi).
  - rewrite E2. intros _ j q Hne Hj Lq E. apply Hne. by eapply (inv_pids _ _ _ Hi).
  - intros Ei. rewrite Ea, E3. split; [done|]. destruct (inv_init _ _ _ Hi) as (j & q & Ej & Hj & _ & Hpz).
    assert (j = i) as -> by (apply pptr_inj; congruence). congruence.
  - intros _ Hn. destruct (inv_parent _ _ _ Hi i p Hp Lp Hn) as (j & q & Ej & Hj & Aq). exists j. split; [congruence|].
    destruct (decide (j = i)) as [->|Hne]; [left; tauto|right]. by exists q.
  - left. by rewrite Ea.
  - intros R. unfold image. rewrite !decide_True by tauto. apply Hm.
  - intros R D HR HD. rewrite E6, E7. by eapply fl_inv_perm.
Qed.

(** The size of a process changes. *)
Lemma inv_resize x all (T : pst) i p z k :
  inv x all T → procs T !! i = Some p → alive p → 0 ≤ z < 4294967296 →
  (∀ R, images T ≡ₚ img_of p :: R → memx all k (img_of (set_p_sz z p) :: R)) →
  inv x all (upd i (set_p_sz z) (set_km k T)).
Proof.
  intros Hi Hp Ap Hz Hm. replace (set_km k T) with (set_fl (fl T) (set_km k T)) by by destruct T.
  apply (inv_image x all T i p); try done; [|apply (inv_files _ _ _ Hi)]. pose proof (inv_slots _ _ _ Hi i p Hp) as So.
  unfold slot_ok in So. unfold new_image. cbn. splits; try done; try lia; destruct Ap as [E|[E|E]]; rewrite E in So; apply So.
Qed.

Lemma grow_mem all k u U sz newsz :
  memx all k (u :: U) → i_n u = PGROUNDUP sz / PGSIZE → 0 ≤ sz < 4294967296 → 0 ≤ newsz < 4294967296 →
  wp (uvmalloc (i_pt u) sz newsz) (λ r k', (r = 0 ∨ r = sz) ∧ memx all k' (u :: U) ∨
    r = newsz ∧ sz ≤ newsz ∧ memx all k' (mkImg (i_pt u) (PGROUNDUP newsz / PGSIZE) (i_tf u) :: U)) k.
Proof.
  intros Hm En Hsz Hnew. assert (TRAPFRAME = 274877898752) as ET by done.
  destruct (decide (newsz < sz)) as [Hlt|Hge].
  { unfold uvmalloc. rewrite (proj2 (Z.ltb_lt _ _)) by done. wp_run. left. auto. }
  pose proof Hm as (Fr & Hok & HP). pose proof Hok as (_ & _ & Hall). apply Forall_cons_1 in Hall as [(Hu & _) _].
  destruct (PGROUNDUP_bounds newsz) as [Hb1 Hb2]; [pglia|].
  eapply wp_mono; [by apply (uvmalloc_run (i_pt u) k (i_n u) Fr sz newsz); try done; lia|]. cbv beta.
  intros r k' (F' & [(-> & Ht & _)|(-> & Ht & _)]); [right|left]; (split; [auto|]).
  - split; [lia|]. by eapply memx_utrans.
  - replace u with (mkImg (i_pt u) (i_n u) (i_tf u)) at 1 by by destruct u. by eapply memx_utrans.
Qed.

Lemma shrink_mem all k u U sz newsz :
  memx all k (u :: U) → i_n u = PGROUNDUP sz / PGSIZE → 0 ≤ sz < 4294967296 → 0 ≤ newsz →
  wp (uvmdealloc (i_pt u) sz newsz) (λ r k', r = Z.min sz newsz ∧
    memx all k' (mkImg (i_pt u) (PGROUNDUP r / PGSIZE) (i_tf u) :: U)) k.
Proof.
  intros Hm En Hsz Hnew. assert (TRAPFRAME = 274877898752) as ET by done.
  pose proof Hm as (Fr & Hok & HP). pose proof Hok as (_ & _ & Hall). apply Forall_cons_1 in Hall as [(Hu & _) _].
  eapply wp_mono; [apply (uvmdealloc_uspace (i_pt u) k (i_n u) Fr sz newsz); try done; lia|]. cbv beta.
  intros r k' (-> & F' & Ht). split; [done|]. by eapply memx_utrans.
Qed.

Lemma growproc_run all (s : pst) T i n :
  rep s 0 false [] T → inv None all T → c_proc T = pptr i → wp (growproc n) (λ _ s', done_ok all T s') s.
Proof.
  intros Hs Hi Ec. destruct (cur_proc _ _ _ _ Hi Ec) as (p & Hp & Ep & Hl).
  assert (alive p) as Ap by (right; by right). pose proof (alive_live _ Ap) as Lp.
  pose proof (inv_slots _ _ _ Hi i p Hp) as So. unfold slot_ok in So. rewrite Ep in So.
  destruct So as (S1 & S2 & S3 & S4 & S5 & S6 & S7).
  destruct (bind_split image _ i p Hp) as (R & E1 & _).
  assert (image p = [img_of p]) as Eim by (unfold image; by rewrite decide_True). rewrite Eim in E1.
  assert (memx all (km T) (img_of p :: R)) as Hm by (eapply memx_perm; [apply (inv_mem _ _ _ Hi)|exact E1]).
  assert (∀ s' k z, 0 ≤ z < 4294967296 → memx all k (img_of (set_p_sz z p) :: R) →
    rep s' 0 false [] (upd i (set_p_sz z) (set_km k T)) → done_ok all T s') as Hfin.
  { intros s' k z Hz Hk Hs'. eexists. split; [exact Hs'|]. split; [|cbn; split; [lia|done]].
    apply (inv_resize None all T i p); try done. intros R' ER'. eapply memx_perm; [exact Hk|]. constructor.
    apply (Permutation_cons_inv (a := img_of p)). by rewrite <-E1, <-ER'. }
  unfold growproc. wp_run. eapply wp_myproc; [done|lia|]. clear s Hs. intros s Hs. rewrite Ec, pslot_pptr. wp_run.
  eapply wp_get_proc; [done|]. intros b. rewrite (proc_at_lookup _ _ _ Hp). cbn [p_sz p_pagetable set_p_locked].
  rewrite (u32_small (p_sz p)) by done. destruct (Z.ltb_spec 0 n); [|destruct (Z.ltb_spec n 0)]; wp_run.
  - eapply wp_ink; [done|]. eapply wp_mono; [apply (grow_mem all _ (img_of p) R); [done|done|done|apply u32_range]|].
    cbv beta. intros r k Hr s1 Hs1. pose proof (u32_range (p_sz p + n)).
    assert (0 ≤ r < 4294967296) as Hrr by (destruct Hr as [[[->| ->] _]|[-> _]]; lia). rewrite (u32_small r) by lia.
    destruct (Z.eqb_spec r 0) as [E0|E0]; wp_run.
    + eexists. split; [exact Hs1|]. split; [|cbn; split; [lia|done]]. apply inv_km; [done|]. eapply memx_perm; [|symmetry; exact E1].
      destruct Hr as [[_ Hk]|(Er & Hle & Hk)]; [done|]. assert (p_sz p = 0) as Ez by lia. rewrite <-Er, E0, <-Ez in Hk. exact Hk.
    + eapply wp_set_proc; [done|done|]. intros s2 Hs2. wp_run. apply (Hfin s2 k r); [lia| |exact Hs2].
      destruct Hr as [[[->| ->] Hk]|(Er & _ & Hk)]; [done|exact Hk|]. rewrite Er. exact Hk.
  - eapply wp_ink; [done|]. eapply wp_mono; [apply (shrink_mem all _ (img_of p) R); [done|done|done|apply u32_range]|].
    cbv beta. intros r k [Er Hk] s1 Hs1. pose proof (u32_range (p_sz p + n)).
    wp_run. eapply wp_set_proc; [done|done|]. intros s2 Hs2. rewrite u32_small in Hs2 by lia. wp_run.
    apply (Hfin s2 k r); [lia|exact Hk|exact Hs2].
  - eapply wp_set_proc; [done|done|]. intros s2 Hs2. wp_run. apply (Hfin s2 (km T) (p_sz p)); [done|exact Hm|].
    by replace (set_km (km T) T) with T by by destruct T.
Qed.

(** ** exit *)

Lemma refs_app l l' : refs (l ++ l') = refs l ++ refs l'.
Proof. apply list.filter_app. Qed.

Lemma refs_zero n : refs (replicate n 0) = [].
Proof. induction n as [|n IH]; [done|]. unfold refs in *. cbn [replicate]. rewrite list.filter_cons, decide_False; [done|]. naive_solver. Qed.

Lemma refs_cons x l : refs (x :: l) = if decide (x = 0) then refs l else x :: refs l.
Proof. unfold refs. rewrite list.filter_cons. by destruct (decide (x = 0)), (decide (x ≠ 0)). Qed.

Lemma proc_at_upd i f (T : pst) p : procs T !! i = Some p → proc_at (upd i f T) i = f p.
Proof. intros Hp. unfold proc_at. cbn. by rewrite list_lookup_alter_eq, Hp. Qed.

Lemma exit_files_run (s : pst) T i p R D :
  rep s 0 false [] T → procs T !! i = Some p → length (p_ofile p) = 16%nat →
  fl_inv (fl T) (refs (p_ofile p) ++ R) D →
  wp (exit_files i) (λ _ s', ∃ f, rep s' 0 false [] (upd i (set_p_ofile (replicate 16 0)) (set_fl f T)) ∧ fl_inv f R D) s.
Proof.
  intros Hs Hp Hl Hf. unfold exit_files.
  eapply (wp_for_loop (λ fd s', ∃ f,
    rep s' 0 false [] (upd i (set_p_ofile (replicate (Z.to_nat fd) 0 ++ drop (Z.to_nat fd) (p_ofile p))) (set_fl f T)) ∧
    fl_inv f (refs (drop (Z.to_nat fd) (p_ofile p)) ++ R) D)).
  - exists (fl T). split; [|done]. replace (set_fl (fl T) T) with T by by destruct T.
    replace (upd i _ T) with T; [done|]. destruct T. unfold upd, set_procs. cbn in *. f_equal. apply list_eq. intros j.
    destruct (decide (i = j)) as [<-|Hne]; [|by rewrite list_lookup_alter_ne].
    rewrite list_lookup_alter_eq, Hp. cbn. f_equal. by destruct p.
  - intros fd s1 Hfd (f & Hs1 & Hf1). change (0 + Z.of_nat (Z.to_nat NOFILE)) with 16 in Hfd. cbv zeta. wp_run.
    destruct (lookup_lt_is_Some_2 (p_ofile p) (Z.to_nat fd)) as [x Hx]; [lia|].
    pose proof (drop_S _ _ _ Hx) as Ed. replace (Z.to_nat (fd + 1)) with (S (Z.to_nat fd)) by lia.
    eapply wp_get_proc; [done|]. intros b.
    rewrite (proc_at_upd i _ (set_fl f T) p Hp). cbn [p_ofile set_p_ofile set_p_locked].
    assert (default 0 ((replicate (Z.to_nat fd) 0 ++ drop (Z.to_nat fd) (p_ofile p)) !! Z.to_nat fd) = x) as ->.
    { by rewrite lookup_app_r, length_replicate, Nat.sub_diag, Ed by (rewrite length_replicate; lia). }
    rewrite Ed, refs_cons in Hf1. unfold truthy. destruct (Z.eqb_spec x 0) as [->|Hx0]; cbn [negb].
    + wp_run. rewrite decide_True in Hf1 by done. exists f. split; [|done]. rewrite Ed in Hs1.
      rewrite replicate_S_end, <-app_assoc. exact Hs1.
    + rewrite decide_False in Hf1 by done. wp_run. eapply wp_infl; [done|]. eapply wp_mono; [by apply fl_fileclose_ok|].
      cbv beta. intros [] f' Hf' s2 Hs2. eapply wp_set_proc; [done|done|]. intros s3 Hs3. exists f'. split; [|done].
      change (set_fl f' (upd i ?g (set_fl f T))) with (upd i g (set_fl f' T)) in Hs3. rewrite upd_compose in Hs3. cbn in Hs3.
      rewrite Ed, insert_app_r_alt in Hs3 by (rewrite length_replicate; lia). rewrite length_replicate, Nat.sub_diag in Hs3. cbn in Hs3.
      rewrite replicate_S_end, <-app_assoc. exact Hs3.
  - intros s1 (f & Hs1 & Hf1). exists f. change (Z.to_nat (0 + _)) with 16%nat in *.
    rewrite drop_ge in Hs1, Hf1 by lia. rewrite app_nil_r in Hs1. done.
Qed.

Lemma inv_reparent x all (T : pst) j q :
  inv x all T → procs T !! j = Some q → live q → pptr j ≠ initproc T →
  inv x all (upd j (set_p_parent (initproc T)) T).
Proof.
  intros Hi Hq Lq Hn.
  replace (upd j _ T) with (upd j (set_p_parent (initproc T))
    (set_c_proc (c_proc T) (set_fl (fl T) (set_km (km T) (set_nextpid (nextpid T) T))))) by by destruct T.
  pose proof (inv_slots _ _ _ Hi j q Hq) as So.
  destruct (inv_init _ _ _ Hi) as (i0 & p0 & E0 & Hp0 & A0 & Z0).
  assert (j ≠ i0) as Hne by (intros ->; congruence).
  apply (inv_upd x x all T j q); try done.
  - pose proof (inv_next _ _ _ Hi). lia.
  - unfold slot_ok in *. cbn. unfold live in Lq. by destruct (p_state q).
  - intros i p _ Hp. by apply (inv_cur _ _ _ Hi).
  - exact (inv_cur _ _ _ Hi j q Hq).
  - exact (inv_cur0 _ _ _ Hi).
  - intros _ i p Hij Hp Lp E. apply Hij. by eapply (inv_pids _ _ _ Hi).
  - intros _ _. exists i0. split; [done|right]. by exists p0.
  - destruct (decide (alive q)) as [|Na]; [by left|right]. intros i p Hij Hp Lp E.
    destruct (decide (pptr i = initproc T)) as [Ei|Ni].
    + assert (i = i0) as -> by (apply pptr_inj; congruence). rewrite Hp0 in Hp. injection Hp as <-. rewrite Z0 in E. by destruct (pptr_nonzero j).
    + destruct (inv_parent _ _ _ Hi i p Hp Lp Ni) as (j' & q' & E' & Hq' & Aq'). assert (j' = j) as -> by (apply pptr_inj; congruence).
      congruence.
  - intros R HR. eapply memx_perm; [apply (inv_mem _ _ _ Hi)|exact HR].
  - intros R D HR HD. eapply fl_inv_perm; [apply (inv_files _ _ _ Hi)|done|done].
Qed.

(** A process in [exit], with nothing open. *)
Definition exiting (i : nat) (T : pst) : Prop :=
  ∃ p, procs T !! i = Some p ∧ p_ofile p = replicate 16 0 ∧ p_cwd p = 0.

Lemma exiting_keeps i T T' : exiting i T → keeps T T' → exiting i T'.
Proof.
  intros (p & Hp & E1 & E2) (l & -> & Hl). eapply Forall2_lookup_l in Hl as (p' & Hp' & Hk); [|exact Hp].
  exists p'. split; [done|]. destruct Hk as (_ & _ & _ & _ & _ & _ & _ & -> & ->). done.
Qed.

Lemma reparent_run all (s : pst) T i :
  rep s 1 true [] T → inv (Some i) all T → initproc T ≠ pptr i → exiting i T →
  wp (reparent (pptr i)) (λ _ s', ∃ T', rep s' 1 true [] T' ∧ inv (Some i) all T' ∧ c_proc T' = c_proc T ∧
    initproc T' = initproc T ∧ nextpid T' = nextpid T ∧ exiting i T' ∧
    ∀ j q, procs T' !! j = Some q → p_parent q ≠ pptr i) s.
Proof.
  intros Hs Hi Hn He. unfold reparent.
  eapply (wp_for_loop (λ m s', ∃ T', rep s' 1 true [] T' ∧ inv (Some i) all T' ∧ c_proc T' = c_proc T ∧
    initproc T' = initproc T ∧ nextpid T' = nextpid T ∧ exiting i T' ∧
    ∀ j q, procs T' !! j = Some q → Z.of_nat j < m → p_parent q ≠ pptr i)).
  - exists T. splits; try done. lia.
  - intros m s1 Hm (T1 & Hs1 & Hi1 & Ec1 & Ei1 & En1 & He1 & Hlt). change (0 + Z.of_nat (Z.to_nat NPROC)) with 64 in Hm.
    cbv zeta. set (j := Z.to_nat m). wp_run. eapply wp_get_proc; [done|]. intros b. cbn [p_parent set_p_locked].
    destruct (lookup_lt_is_Some_2 (procs T1) j) as [q Hq]; [rewrite (inv_length _ _ _ Hi1); lia|].
    rewrite (proc_at_lookup _ _ _ Hq). destruct (Z.eqb_spec (p_parent q) (pptr i)) as [E|Hne].
    + wp_run. rewrite (rep_init _ _ _ _ _ Hs1). eapply wp_set_proc; [done|done|]. intros s2 Hs2.
      assert (live q) as Lq.
      { intros Eq. pose proof (inv_slots _ _ _ Hi1 j q Hq) as So. unfold slot_ok in So. rewrite Eq in So.
        destruct So as (_ & _ & _ & _ & E0 & _). rewrite E0 in E. by destruct (pptr_nonzero i). }
      assert (pptr j ≠ initproc T1) as Nj.
      { intros Ej. destruct (inv_init _ _ _ Hi1) as (i0 & p0 & E0 & Hp0 & _ & Z0).
        assert (j = i0) as E0' by (apply pptr_inj; congruence). subst i0. assert (q = p0) as -> by congruence.
        rewrite Z0 in E. by destruct (pptr_nonzero i). }
      pose proof (inv_reparent _ _ _ j q Hi1 Hq Lq Nj) as Hi2.
      eapply wp_mono; [by eapply wakeup_run|]. cbv beta. intros [] s3 (T3 & Hs3 & Hk3). exists T3.
      assert (∀ j' q', procs T3 !! j' = Some q' → ∃ p1, procs (upd j (set_p_parent (initproc T1)) T1) !! j' = Some p1 ∧ p_parent q' = p_parent p1) as Hpar.
      { intros j' q' Hq'. destruct Hk3 as (l & -> & Hl). eapply Forall2_lookup_r in Hl as (p1 & Hp1 & Hk); [|exact Hq'].
        exists p1. split; [done|]. by destruct Hk as (_ & _ & -> & _). }
      split; [done|]. split; [by eapply inv_keeps|].
      assert (c_proc T3 = c_proc T1 ∧ initproc T3 = initproc T1 ∧ nextpid T3 = nextpid T1) as (-> & -> & ->)
        by (destruct Hk3 as (l & -> & _); done).
      do 3 (split; [done|]). split.
      * eapply exiting_keeps; [|exact Hk3]. destruct He1 as (p & Hp & E1 & E2). unfold exiting. cbn.
        destruct (decide (j = i)) as [->|Hji].
        -- rewrite list_lookup_alter_eq, Hp. cbn. eexists. split; [done|]. done.
        -- rewrite list_lookup_alter_ne by done. by exists p.
      * intros j' q' Hq' Hj'. destruct (Hpar j' q' Hq') as (p1 & Hp1 & ->). cbn in Hp1.
        destruct (decide (j = j')) as [<-|Hjj].
        -- rewrite list_lookup_alter_eq, Hq in Hp1. injection Hp1 as <-. cbn. congruence.
        -- rewrite list_lookup_alter_ne in Hp1 by done. apply (Hlt j'); [done|]. unfold j in Hjj. lia.
    + wp_run. exists T1. do 6 (split; [done|]). intros j' q' Hq' Hj'.
      destruct (decide (j' = j)) as [->|]; [congruence|]. apply (Hlt j'); [done|]. unfold j in *. lia.
  - intros s1 (T1 & Hs1 & Hi1 & Ec1 & Ei1 & En1 & He1 & Hlt). exists T1. do 6 (split; [done|]). intros j q Hq.
    apply (Hlt j); [done|]. apply lookup_lt_Some in Hq. rewrite (inv_length _ _ _ Hi1) in Hq. change (0 + _) with 64. lia.
Qed.

Definition drop_files (p : proc) : proc := set_p_cwd 0 (set_p_ofile (replicate 16 0) p).

(** The process gave up its files and its directory. *)
Lemma inv_drop_files all (T : pst) i p f :
  inv None all T → procs T !! i = Some p → p_state p = RUNNING →
  (∀ R D, files T ≡ₚ refs (p_ofile p) ++ R → dirs T ≡ₚ refs [p_cwd p] ++ D → fl_inv f R D) →
  inv (Some i) all (upd i drop_files (set_fl f T)).
Proof.
  intros Hi Hp Ep Hf. assert (alive p) as Ap by (right; by right). pose proof (alive_live _ Ap) as Lp.
  replace (set_fl f T) with (set_c_proc (c_proc T) (set_fl f (set_km (km T) (set_nextpid (nextpid T) T)))) by by destruct T.
  pose proof (inv_slots _ _ _ Hi i p Hp) as So. unfold slot_ok in So. rewrite Ep in So.
  destruct So as (S1 & S2 & S3 & S4 & S5 & S6 & S7).
  apply (inv_upd None (Some i) all T i p); try done.
  - pose proof (inv_next _ _ _ Hi). lia.
  - intros j Hj. split; [done|]. intros [= ->]. done.
  - unfold slot_ok. cbn. rewrite Ep. do 5 (split; [done|]). rewrite bool_decide_true by done. by split.
  - intros j q _ Hq. by apply (inv_cur _ _ _ Hi).
  - exact (inv_cur _ _ _ Hi i p Hp).
  - exact (inv_cur0 _ _ _ Hi).
  - intros _ j q Hne Hq Lq E. apply Hne. by eapply (inv_pids _ _ _ Hi).
  - intros Ei. split; [done|]. destruct (inv_init _ _ _ Hi) as (j & q & Ej & Hj & _ & Hpz).
    assert (j = i) as -> by (apply pptr_inj; congruence). cbn. congruence.
  - intros _ Hn. destruct (inv_parent _ _ _ Hi i p Hp Lp Hn) as (j & q & Ej & Hj & Aq). exists j. split; [done|].
    destruct (decide (j = i)) as [->|Hne]; [by left|right]. by exists q.
  - by left.
  - intros R HR. eapply memx_perm; [apply (inv_mem _ _ _ Hi)|exact HR].
Qed.

(** A process without children and files becomes a zombie. *)
Lemma inv_zombie all (T : pst) i st :
  inv (Some i) all T → c_proc T = pptr i → initproc T ≠ pptr i → exiting i T →
  (∀ j q, procs T !! j = Some q → p_parent q ≠ pptr i) →
  inv None all (upd i (λ p, set_p_context InExit (set_p_state ZOMBIE (set_p_xstate st p))) (set_c_proc 0 T)).
Proof.
  intros Hi Ec Hn (p & Hp & Eof & Ecw) Hch. destruct (cur_proc _ _ _ _ Hi Ec) as (p1 & Hp1 & Ep & Hl).
  assert (p1 = p) as -> by congruence. rewrite <-same_T.
  assert (alive p) as Ap by (right; by right). pose proof (alive_live _ Ap) as Lp.
  pose proof (inv_slots _ _ _ Hi i p Hp) as So. unfold slot_ok in So. rewrite Ep in So.
  destruct So as (S1 & S2 & S3 & S4 & S5 & S6 & S7).
  apply (inv_upd (Some i) None all T i p); try done.
  - pose proof (inv_next _ _ _ Hi). lia.
  - intros j Hj. split; [|done]. intros [= ->]. done.
  - by eapply cur_other.
  - split; [done|]. intros E. symmetry in E. by apply pptr_nonzero in E.
  - by left.
  - intros _ j q Hne Hq Lq E. apply Hne. by eapply (inv_pids _ _ _ Hi).
  - intros _ _. destruct (inv_parent _ _ _ Hi i p Hp Lp) as (j & q & Ej & Hj & Aq); [congruence|]. exists j.
    split; [done|right]. exists q. split; [|done]. intros ->. by apply (Hch i p).
  - right. intros j q _ Hq _. by apply (Hch j).
  - intros R HR. unfold image in HR |- *. rewrite decide_True by done. rewrite decide_True in HR by done.
    eapply memx_perm; [apply (inv_mem _ _ _ Hi)|exact HR].
  - intros R D HR HD. eapply fl_inv_perm; [apply (inv_files _ _ _ Hi)|done|done].
Qed.

Lemma exit_run all (s : pst) T i st :
  rep s 0 false [] T → inv None all T → c_proc T = pptr i → initproc T ≠ pptr i →
  wp (exit st) (λ _ s', done_ok all T s') s.
Proof.
  intros Hs Hi Ec Hn. destruct (cur_proc _ _ _ _ Hi Ec) as (p & Hp & Ep & Hl).
  pose proof (inv_slots _ _ _ Hi i p Hp) as So. unfold slot_ok in So. rewrite Ep in So.
  destruct So as (S1 & S2 & S3 & S4 & S5 & S6 & S7). specialize (S6 eq_refl).
  destruct (bind_split (λ p, refs (p_ofile p)) _ i p Hp) as (R & HR & _).
  destruct (bind_split (λ p, refs [p_cwd p]) _ i p Hp) as (D & HD & _).
  rewrite (refs_cons (p_cwd p)), decide_False in HD by done. cbn [refs filter list_filter app] in HD.
  unfold exit. wp_run. eapply wp_myproc; [done|lia|]. clear s Hs. intros s Hs. rewrite Ec, pslot_pptr. wp_run.
  rewrite (rep_init _ _ _ _ _ Hs), (proj2 (Z.eqb_neq (pptr i) (initproc T))) by congruence. wp_run.
  eapply wp_mono; [eapply (exit_files_run s T i p R (p_cwd p :: D)); [done|done|done|]|].
  { eapply fl_inv_perm; [apply (inv_files _ _ _ Hi)|exact HR|exact HD]. }
  cbv beta. clear s Hs. intros [] s (f & Hs & Hf). wp_run. eapply wp_get_proc; [done|]. intros b.
  rewrite (proc_at_upd i _ (set_fl f T) p Hp). cbn [p_cwd set_p_ofile set_p_locked]. wp_run.
  eapply wp_infl; [done|]. cbn [fl upd set_procs set_fl]. eapply wp_mono; [by apply fl_iput_ok|]. cbv beta.
  clear s Hs. intros [] f' Hf' s Hs. wp_run. eapply wp_set_proc; [done|done|]. clear s Hs. intros s Hs.
  change (set_fl f' (upd i ?g (set_fl f T))) with (upd i g (set_fl f' T)) in Hs. rewrite upd_compose in Hs.
  change (λ p, set_p_cwd 0 (set_p_ofile (replicate 16 0) p)) with drop_files in Hs.
  assert (inv (Some i) all (upd i drop_files (set_fl f' T))) as Hi1.
  { apply (inv_drop_files all T i p); try done. intros R' D' HR' HD'.
    rewrite (refs_cons (p_cwd p)), decide_False in HD' by done. cbn [refs filter list_filter app] in HD'.
    eapply fl_inv_perm; [exact Hf'| |].
    - apply (Permutation_app_inv_l (refs (p_ofile p))). by rewrite <-HR, <-HR'.
    - apply (Permutation_cons_inv (a := p_cwd p)). by rewrite <-HD, <-HD'. }
  assert (exiting i (upd i drop_files (set_fl f' T))) as He1.
  { unfold exiting. cbn. rewrite list_lookup_alter_eq, Hp. eexists. split; [done|]. done. }
  set (T1 := upd i drop_files (set_fl f' T)) in *. wp_run.
  eapply wp_lock_wait; [done|]. clear s Hs. intros s Hs. wp_run.
  eapply wp_mono; [by eapply (reparent_run all s T1 i)|]. cbv beta. clear s Hs.
  intros [] s (T2 & Hs & Hi2 & Ec2 & Ei2 & En2 & He2 & Hch). wp_run. eapply wp_get_proc; [done|]. intros b'. wp_run.
  eapply wp_mono; [by eapply wakeup_run|]. cbv beta. clear s Hs. intros [] s (T3 & Hs & Hk3). wp_run.
  pose proof (inv_keeps _ _ _ _ Hi2 Hk3) as Hi3. pose proof (exiting_keeps _ _ _ He2 Hk3) as He3.
  assert (∀ j q, procs T3 !! j = Some q → p_parent q ≠ pptr i) as Hch3.
  { intros j q Hq. destruct Hk3 as (l & -> & HL). eapply Forall2_lookup_r in HL as (q0 & Hq0 & Hk); [|exact Hq].
    destruct Hk as (_ & _ & -> & _). by apply (Hch j). }
  assert (c_proc T3 = pptr i ∧ initproc T3 = initproc T ∧ nextpid T3 = nextpid T) as (Ec3 & Ei3 & En3).
  { destruct Hk3 as (l & -> & _). cbn. rewrite Ec2, Ei2, En2. done. }
  eapply wp_lock_proc; [done|done|apply not_elem_of_nil|]. clear s Hs. intros s Hs. wp_run.
  do 2 (eapply wp_set_proc; [eassumption|done|]; clear s Hs; intros s Hs; wp_run). rewrite upd_compose in Hs.
  eapply wp_unlock_wait; [done|lia|]. clear s Hs. intros s Hs. wp_run.
  destruct He3 as (p3 & Hp3 & Eof & Ecw).
  eapply wp_mono; [eapply (sched_run s _ i); [exact Hs|done|done|]|].
  { rewrite (proc_at_upd i _ T3 p3 Hp3). done. }
  cbv beta. intros [] s' (b2 & Hs'). eexists. split; [exact Hs'|]. rewrite upd_compose.
  change (set_c_proc 0 (upd i ?g T3)) with (upd i g (set_c_proc 0 T3)).
  split; [|cbn; split; [lia|done]]. apply inv_zombie; try done; [congruence|]. by exists p3.
Qed.

(** ** wait *)

(** A zombie is freed. *)
Lemma inv_reap all (T : pst) j z k :
  inv None all T → procs T !! j = Some z → p_state z = ZOMBIE →
  (∀ R, images T ≡ₚ img_of z :: R → memx all k R) →
  inv None all (upd j unuse (set_km k T)).
Proof.
  intros Hi Hz Ez Hm.
  replace (set_km k T) with (set_c_proc (c_proc T) (set_fl (fl T) (set_km k (set_nextpid (nextpid T) T)))) by by destruct T.
  pose proof (inv_slots _ _ _ Hi j z Hz) as So. unfold slot_ok in So. rewrite Ez in So.
  destruct So as (S1 & S2 & S3 & S4 & S5 & S6 & S7).
  assert (live z) as Lz by (unfold live; by rewrite Ez).
  assert (¬ alive z) as Nz by (intros [E|[E|E]]; congruence).
  apply (inv_upd None None all T j z); try done.
  - pose proof (inv_next _ _ _ Hi). lia.
  - intros i p _ Hp. by apply (inv_cur _ _ _ Hi).
  - cbn. rewrite <-(inv_cur _ _ _ Hi j z Hz), Ez. done.
  - exact (inv_cur0 _ _ _ Hi).
  - intros Ei. destruct Nz. destruct (inv_init _ _ _ Hi) as (i & p & E & Hp & Ap & _).
    assert (i = j) as -> by (apply pptr_inj; congruence). congruence.
  - right. intros i p _ Hp Lp E. destruct (decide (pptr i = initproc T)) as [Ei|Ni].
    + destruct (inv_init _ _ _ Hi) as (i0 & p0 & E0 & Hp0 & _ & Z0).
      assert (i0 = i) as -> by (apply pptr_inj; congruence). assert (p0 = p) as -> by congruence.
      rewrite Z0 in E. by destruct (pptr_nonzero j).
    + destruct (inv_parent _ _ _ Hi i p Hp Lp Ni) as (j' & q & E' & Hq & Aq).
      assert (j' = j) as -> by (apply pptr_inj; congruence). congruence.
  - intros R HR. unfold image in HR. rewrite decide_True in HR by done. apply (Hm R HR).
  - intros R D HR HD. eapply fl_inv_perm; [apply (inv_files _ _ _ Hi)|done|done].
Qed.

(** The memory of a process is given back. *)
Lemma free_mem_run all k p U :
  memx all k (img_of p :: U) → p_trapframe p ≠ 0 → p_pagetable p ≠ 0 → 0 ≤ p_sz p < 4294967296 →
  wp (free_mem p) (λ _ k', memx all k' U) k.
Proof.
  intros Hm Ht Hp Hsz. unfold free_mem, truthy. rewrite !(proj2 (Z.eqb_neq _ _)) by done. cbn [negb].
  apply (free_image_run all k (img_of p) U (p_sz p) Hm); [done|]. assert (TRAPFRAME = 274877898752) as ET by done. lia.
Qed.

Lemma images_at x all (T : pst) i p :
  inv x all T → procs T !! i = Some p → live p →
  ∃ R, images T ≡ₚ img_of p :: R ∧ memx all (km T) (img_of p :: R).
Proof.
  intros Hi Hp Lp. destruct (bind_split image _ i p Hp) as (R & E & _). unfold image in E at 2. rewrite decide_True in E by done.
  exists R. split; [exact E|]. eapply memx_perm; [apply (inv_mem _ _ _ Hi)|exact E].
Qed.

Lemma load8_store32_out m a v x : x < a ∨ a + 4 ≤ x → load8 (store32 m a v) x = load8 m x.
Proof. intros Hx. apply load8_store_le_out. lia. Qed.

Lemma wait_turn_run all (s : pst) T i j hk addr :
  rep s 1 true [] T → inv None all T → c_proc T = pptr i → 0 ≤ addr < 2 ^ 64 → (j < 64)%nat →
  wp (wait_turn (pptr i) addr (j, hk)) (λ r s', match r with
    | inl (j', _) => j' = S j ∧ rep s' 1 true [] T
    | inr (inl _) => done_ok all T s'
    | inr (inr _) => False
    end) s.
Proof.
  intros Hs Hi Ec Ha Hj. destruct (cur_proc _ _ _ _ Hi Ec) as (p & Hp & Ep & Hl).
  assert (live p) as Lp by (unfold live; by rewrite Ep).
  destruct (lookup_lt_is_Some_2 (procs T) j) as [z Hz]; [rewrite (inv_length _ _ _ Hi); lia|].
  unfold wait_turn. change (Z.to_nat NPROC) with 64%nat. rewrite (proj2 (Nat.leb_gt 64 j)) by done. wp_run.
  eapply wp_get_proc; [done|]. intros b. cbn [p_parent set_p_locked]. destruct (_ =? _); [|wp_run; done]. wp_run.
  eapply wp_lock_proc; [done|done|apply not_elem_of_nil|]. clear s Hs. intros s Hs. wp_run.
  eapply wp_get_proc; [done|]. clear b. intros b. rewrite (proc_at_lookup _ _ _ Hz). cbn [p_state p_pid p_xstate set_p_locked].
  case_decide as Ez; wp_run.
  2: { eapply wp_unlock_proc; [done|done|apply not_elem_of_nil|lia|]. clear s Hs. intros s Hs. wp_run. done. }
  rewrite pslot_pptr. eapply wp_get_proc; [done|]. clear b. intros b. rewrite (proc_at_lookup _ _ _ Hp). cbn [p_pagetable set_p_locked]. wp_run.
  assert (live z) as Lz by (unfold live; by rewrite Ez).
  apply (wp_mono _ (λ _ s', ∃ k, rep s' 2 true [j] (set_km k T) ∧ inv None all (set_km k T))).
  { destruct (negb (addr =? 0)); wp_run; [|exists (km T); by replace (set_km (km T) T) with T by by destruct T].
    eapply wp_ink; [done|]. wp_run.
    destruct (images_at _ _ _ i p Hi Hp Lp) as (R & ER & Hm).
    eapply wp_mono; [eapply (copyout_image_run all _ (img_of p) R addr (xstate_at j) 4); [|done|lia|by apply xstate_ok]|].
    { apply memx_kdata; [exact Hm|]. intros x Hx. apply load8_store32_out. pose proof (xstate_ok j Hj). lia. }
    cbv beta. intros r k' Hk' s1 Hs1. exists k'. split; [exact Hs1|]. apply inv_km; [done|].
    eapply memx_perm; [exact Hk'|]. by rewrite ER. }
  cbv beta. clear s Hs. intros r s (k & Hs & Hik). destruct (r <? 0); wp_run.
  - eapply wp_unlock_proc; [done|done|apply not_elem_of_nil|lia|]. clear s Hs. intros s Hs. wp_run.
    eapply wp_unlock_wait; [done|lia|]. clear s Hs. intros s Hs. wp_run.
    exists (set_km k T). split; [exact Hs|]. split; [done|]. cbn. split; [lia|done].
  - pose proof (inv_slots _ _ _ Hi j z Hz) as So. unfold slot_ok in So. rewrite Ez in So. destruct So as (S1 & S2 & S3 & _).
    destruct (images_at _ _ _ j z Hik Hz Lz) as (R & ER & Hm).
    eapply wp_freeproc; [done|]. change (proc_at (set_km k T) j) with (proc_at T j). rewrite (proc_at_lookup _ _ _ Hz).
    eapply wp_mono; [by apply (free_mem_run all k z R)|]. cbv beta. clear s Hs. intros [] k' Hk' s Hs. wp_run.
    eapply wp_unlock_proc; [done|done|apply not_elem_of_nil|lia|]. clear s Hs. intros s Hs. wp_run.
    eapply wp_unlock_wait; [done|lia|]. clear s Hs. intros s Hs. wp_run.
    eexists. split; [exact Hs|]. split; [|cbn; split; [lia|done]].
    eapply (inv_reap all (set_km k T) j z k'); try done. intros R' ER'. eapply memx_perm; [exact Hk'|].
    apply (Permutation_cons_inv (a := img_of z)). by rewrite <-ER, <-ER'.
Qed.

Lemma wait_scan_run all (s : pst) T i addr :
  rep s 1 true [] T → inv None all T → c_proc T = pptr i → 0 ≤ addr < 2 ^ 64 →
  wp (wait_scan addr) (λ _ s', done_ok all T s') s.
Proof.
  intros Hs Hi Ec Ha. unfold wait_scan. wp_run. eapply wp_myproc; [done|lia|]. clear s Hs. intros s Hs. rewrite Ec. wp_run.
  apply (wp_mono _ (λ r s', match r with inl _ => done_ok all T s' | inr _ => rep s' 1 true [] T end)).
  - eapply (wp_loop (λ '(j, _) s', rep s' 1 true [] T) (λ '(j, _) _, (64 - j)%nat));
      [change (Z.to_nat NPROC) with 64%nat; lia|done|].
    intros [j hk] s1 Hs1. destruct (decide (64 ≤ j)%nat) as [Hge|Hlt].
    + unfold wait_turn. change (Z.to_nat NPROC) with 64%nat. rewrite (proj2 (Nat.leb_le 64 j)) by done. by wp_run.
    + eapply wp_mono; [apply (wait_turn_run all s1 T i j); try done; lia|]. cbv beta.
      intros [[j' hk']|[r|r]] s2 H2; [|done|done]. destruct H2 as [-> Hs2]. split; [done|lia].
  - cbv beta. clear s Hs. intros [r|hk] s Hs; wp_run; [done|]. rewrite pslot_pptr. eapply wp_get_proc; [done|]. intros b.
    destruct (_ || _); wp_run.
    + eapply wp_unlock_wait; [done|lia|]. clear s Hs. intros s Hs. wp_run. exists T. split; [done|]. split; [done|]. split; [lia|done].
    + eapply wp_mono; [eapply (sleep_run all s true T T i); try done|cbv beta; intros [] s' H'; by wp_run].
      intros Q s1 Hs1 HQ. cbn [unlock_lk]. eapply wp_unlock_wait; [done|lia|]. intros s2 Hs2. by apply HQ.
Qed.

Lemma wait_run all (s : pst) T i addr :
  rep s 0 false [] T → inv None all T → c_proc T = pptr i → 0 ≤ addr < 2 ^ 64 →
  wp (wait addr) (λ _ s', done_ok all T s') s.
Proof.
  intros Hs Hi Ec Ha. unfold wait. wp_run. eapply wp_lock_wait; [done|]. intros s1 Hs1. by eapply wait_scan_run.
Qed.

End calls.
