(* ===== verification/ProcFork.v ===== *)
(** * fork, and the whole life of processes

    [fork_run] is the functional specification of fork with the invariant; the
    events of a running system and the theorem that every sequence of them keeps
    the process table, its memory and its files in order. *)

From stdpp Require Import base gmap list strings numbers.
From S2P Require Import Prelude Machine Riscv KString Kalloc Vm PageTable Uvm FreeWalk UserCopy Spinlock Proc ProcMem ProcSpec ProcCalls.

Section fork.
Context {LY : Layout} {LO : LayoutOk} {PLY : ProcLayout} {PLO : ProcLayoutOk} {F : Type} {FLY : FileLayer F} {FLO : FileLayerOk F}.
Notation pst := (pst F).

Lemma alloc_mem_run all k U :
  memx all k U →
  wp alloc_mem (λ r k', match r with
    | None => memx all k' U
    | Some (tf, pt) => tf ≠ 0 ∧ pt ≠ 0 ∧ memx all k' (mkImg pt 0 tf :: U) ∧
        ∀ q, q ∈ U ≫= ipages k → agree (mm k) (mm k') q PGSIZE
    end) k.
Proof.
  intros Hm. unfold alloc_mem. wp_run. eapply wp_mono; [by apply alloc_image_run|]. cbv beta.
  intros tf k1 [[-> Hk1]|[Htf Hw]]; [by wp_run|]. rewrite (proj2 (Z.eqb_neq tf 0)) by done. wp_run.
  eapply wp_mono; [exact Hw|]. cbv beta. intros pt k2 [[-> Hw2]|(Hpt & Hm2 & Ha)].
  - cbn [Z.eqb]. wp_run. eapply wp_mono; [exact Hw2|]. cbv beta. intros [] k3 Hk3. by wp_run.
  - rewrite (proj2 (Z.eqb_neq pt 0)) by done. by wp_run.
Qed.

(** The references that the processes hold. *)
Lemma length_refs l : (length (refs l) ≤ length l)%nat.
Proof. apply length_filter. Qed.
Lemma length_bind_le {A B} (f : A → list B) (l : list A) (n : nat) : (∀ x, x ∈ l → (length (f x) ≤ n)%nat) → (length (l ≫= f) ≤ length l * n)%nat.
Proof.
  induction l as [|x l IH]; intros H; [done|]. cbn [mbind list_bind]. rewrite length_app. cbn [length]. pose proof (H x (list_elem_of_here _ _)).
  specialize (IH (λ y Hy, H y (list_elem_of_further _ _ _ Hy))). cbn [mbind] in IH. lia.
Qed.
Lemma inv_counts x all (T : pst) : inv x all T → (length (files T) ≤ 1024)%nat ∧ (length (dirs T) ≤ 64)%nat.
Proof.
  intros Hi. pose proof (inv_length _ _ _ Hi) as Hl. split.
  - etrans; [apply (length_bind_le _ _ 16)|lia]. intros p [i Hp]%list_elem_of_lookup. etrans; [apply length_refs|].
    pose proof (inv_slots _ _ _ Hi i p Hp) as Hs. unfold slot_ok in Hs.
    destruct (p_state p); [destruct Hs as (_ & _ & _ & _ & _ & -> & _); done|destruct Hs as (_ & _ & _ & _ & -> & _); done..].
  - etrans; [apply (length_bind_le _ _ 1)|lia]. intros p _. apply (length_refs [p_cwd p]).
Qed.

(** The files of the parent are shared with the child. *)
Lemma fork_files_run (s : pst) d T i np p c fs D :
  rep s d false [np] T → procs T !! i = Some p → procs T !! np = Some c → i ≠ np →
  length (p_ofile p) = 16%nat → p_ofile c = replicate 16 0 →
  (∀ x, x ∈ refs (p_ofile p) → x ∈ fs) → (length fs ≤ 1024)%nat → fl_inv (fl T) fs D →
  wp (fork_files i np) (λ _ s', ∃ f,
    rep s' d false [np] (upd np (set_p_ofile (p_ofile p)) (set_fl f T)) ∧ fl_inv f (refs (p_ofile p) ++ fs) D) s.
Proof.
  intros Hs Hp Hc Hne Hl Hz Hin Hlen Hf. unfold fork_files.
  eapply (wp_for_loop (λ fd s', ∃ f,
    rep s' d false [np] (upd np (set_p_ofile (take (Z.to_nat fd) (p_ofile p) ++ drop (Z.to_nat fd) (replicate 16 0))) (set_fl f T)) ∧
    fl_inv f (refs (take (Z.to_nat fd) (p_ofile p)) ++ fs) D)).
  - exists (fl T). split; [|done]. replace (set_fl (fl T) T) with T by by destruct T.
    replace (upd np _ T) with T; [done|]. destruct T. unfold upd, set_procs. cbn in *. f_equal. apply list_eq. intros j.
    destruct (decide (np = j)) as [<-|Hnj]; [|by rewrite list_lookup_alter_ne].
    rewrite list_lookup_alter_eq, Hc. cbn. f_equal. destruct c. cbn in *. by rewrite Hz.
  - intros fd s1 Hfd (f & Hs1 & Hf1). change (0 + Z.of_nat (Z.to_nat NOFILE)) with 16 in Hfd. cbv zeta. wp_run.
    set (n := Z.to_nat fd) in *. replace (Z.to_nat (fd + 1)) with (S n) by lia.
    destruct (lookup_lt_is_Some_2 (p_ofile p) n) as [x Hx]; [lia|].
    assert (drop n (replicate 16 0) = 0 :: drop (S n) (replicate 16 0)) as Ed.
    { apply drop_S. apply lookup_replicate_2. lia. }
    eapply wp_get_proc; [done|]. intros b.
    assert (proc_at (upd np (set_p_ofile (take n (p_ofile p) ++ drop n (replicate 16 0))) (set_fl f T)) i = p) as ->.
    { apply proc_at_lookup. cbn. by rewrite list_lookup_alter_ne. }
    cbn [p_ofile set_p_locked]. rewrite Hx. cbn [default]. change (id x) with x. unfold truthy.
    rewrite (take_S_r _ _ _ Hx). destruct (Z.eqb_spec x 0) as [->|Hx0]; cbn [negb].
    + wp_run. exists f. rewrite refs_app, refs_cons, decide_True, app_nil_r by done. rewrite Ed in Hs1. rewrite <-app_assoc. done.
    + wp_run. eapply wp_infl; [done|]. eapply wp_mono; [apply (fl_filedup_ok _ x); [| |exact Hf1]|].
      { apply elem_of_app. right. apply Hin. apply list_elem_of_filter. split; [done|]. by eapply list_elem_of_lookup_2. }
      { rewrite length_app. pose proof (length_refs (take n (p_ofile p))) as Hr. rewrite length_take in Hr. lia. }
      cbv beta. intros r f' [-> Hf'] s2 Hs2. wp_run. eapply wp_set_proc; [done|done|]. intros s3 Hs3. exists f'. split.
      * change (set_fl f' (upd np ?g (set_fl f T))) with (upd np g (set_fl f' T)) in Hs3. rewrite upd_compose in Hs3.
        change (rep s3 d false [np] (upd np (set_p_ofile (<[n := x]> (take n (p_ofile p) ++ drop n (replicate 16 0)))) (set_fl f' T))) in Hs3.
        rewrite Ed, insert_app_r_alt, length_take, Nat.min_l, Nat.sub_diag in Hs3 by (rewrite ?length_take; lia). cbn [insert list_insert] in Hs3.
        rewrite <-app_assoc. exact Hs3.
      * rewrite refs_app, refs_cons, decide_False by done. eapply fl_inv_perm; [exact Hf'| |done].
        rewrite <-app_assoc. apply Permutation_middle.
  - intros s1 (f & Hs1 & Hf1). exists f. change (Z.to_nat (0 + _)) with 16%nat in *.
    rewrite take_ge in Hs1, Hf1 by lia. rewrite drop_ge, app_nil_r in Hs1 by (rewrite length_replicate; lia). done.
Qed.

(** The new process. *)
Lemma inv_fork all (T : pst) i p np c0 g f k :
  inv None all T → c_proc T = pptr i → procs T !! i = Some p → procs T !! np = Some c0 → p_state c0 = UNUSED →
  nextpid T + 1 < 2147483648 →
  (let c := g c0 in p_state c = RUNNABLE ∧ p_pid c = nextpid T ∧ p_parent c = pptr i ∧ p_pagetable c ≠ 0 ∧
    p_trapframe c ≠ 0 ∧ p_sz c = p_sz p ∧ p_context c = AtForkret ∧ p_ofile c = p_ofile p ∧ p_cwd c = p_cwd p) →
  memx all k (img_of (g c0) :: images T) →
  fl_inv f (refs (p_ofile p) ++ files T) (p_cwd p :: dirs T) →
  inv None all (upd np g (set_fl f (set_km k (set_nextpid (nextpid T + 1) T)))).
Proof.
  intros Hi Ec Hp Hc0 E0 Hnp (C1 & C2 & C3 & C4 & C5 & C6 & C7 & C8 & C9) Hm Hf.
  replace (set_fl f _) with (set_c_proc (c_proc T) (set_fl f (set_km k (set_nextpid (nextpid T + 1) T)))) by by destruct T.
  destruct (cur_proc _ _ _ _ Hi Ec) as (p1 & Hp1 & Ep & Hl). assert (p1 = p) as -> by congruence.
  pose proof (inv_slots _ _ _ Hi i p Hp) as So. unfold slot_ok in So. rewrite Ep in So.
  destruct So as (S1 & S2 & S3 & S4 & S5 & S6 & S7). specialize (S6 eq_refl).
  pose proof (inv_slots _ _ _ Hi np c0 Hc0) as Sc. unfold slot_ok in Sc. rewrite E0 in Sc. destruct Sc as (Z1 & Z2 & Z3 & Z4 & Z5 & Z6 & Z7).
  assert (¬ live c0) as N0 by (unfold live; rewrite E0; tauto).
  assert (i ≠ np) as Hne by (intros ->; congruence). pose proof (inv_next _ _ _ Hi) as Hn.
  apply (inv_upd None None all T np c0); try done; try lia.
  - unfold slot_ok. rewrite C1, C2, C6, C7, C8, C9. do 3 (split; [done|]). split; [lia|]. by do 2 (split; [done|]).
  - intros j q _ Hq. by apply (inv_cur _ _ _ Hi).
  - rewrite C1, Ec. split; [done|]. by intros ?%pptr_inj.
  - exact (inv_cur0 _ _ _ Hi).
  - intros _ j q Hj Hq Lq E. pose proof (inv_slots _ _ _ Hi j q Hq) as Sq. unfold slot_ok in Sq. unfold live in Lq.
    destruct (p_state q); try done; destruct Sq as (_ & _ & _ & Sq & _); lia.
  - intros Ei. destruct (inv_init _ _ _ Hi) as (j & q & Ej & Hj & Aq & _).
    assert (j = np) as -> by (apply pptr_inj; congruence). destruct N0. apply alive_live. congruence.
  - intros _ _. exists i. split; [done|right]. exists p. split; [done|]. split; [done|]. right; by right.
  - left. right. by left.
  - intros R HR. unfold image in HR |- *. rewrite decide_False in HR by done.
    rewrite decide_True by (unfold live; by rewrite C1). eapply memx_perm; [exact Hm|]. by rewrite HR.
  - intros R D HR HD. rewrite C8, C9, (refs_cons (p_cwd p)), decide_False by done.
    rewrite Z6, refs_zero in HR. rewrite Z7 in HD. eapply fl_inv_perm; [exact Hf|by rewrite HR|].
    rewrite HD. done.
Qed.

(** A slot that stays unused, but for the pid it took. *)
Lemma inv_unused all (T : pst) np c0 g k :
  inv None all T → procs T !! np = Some c0 → p_state c0 = UNUSED → nextpid T + 1 < 2147483648 →
  (let c := g c0 in p_state c = UNUSED ∧ p_trapframe c = 0 ∧ p_pagetable c = 0 ∧ p_sz c = 0 ∧ p_pid c = 0 ∧ p_parent c = 0 ∧
    p_ofile c = p_ofile c0 ∧ p_cwd c = p_cwd c0) →
  memx all k (images T) → inv None all (upd np g (set_km k (set_nextpid (nextpid T + 1) T))).
Proof.
  intros Hi Hc0 E0 Hnp (C1 & C2 & C3 & C4 & C5 & C6 & C7 & C8) Hm.
  replace (set_km k _) with (set_c_proc (c_proc T) (set_fl (fl T) (set_km k (set_nextpid (nextpid T + 1) T)))) by by destruct T.
  pose proof (inv_slots _ _ _ Hi np c0 Hc0) as Sc. unfold slot_ok in Sc. rewrite E0 in Sc. destruct Sc as (Z1 & Z2 & Z3 & Z4 & Z5 & Z6 & Z7).
  assert (¬ live c0) as N0 by (unfold live; rewrite E0; tauto). assert (¬ live (g c0)) as N1 by (unfold live; rewrite C1; tauto).
  pose proof (inv_next _ _ _ Hi) as Hn.
  apply (inv_upd None None all T np c0); try done; try lia.
  - unfold slot_ok. rewrite C1, C7, C8. by splits.
  - intros j q _ Hq. by apply (inv_cur _ _ _ Hi).
  - pose proof (inv_cur _ _ _ Hi np c0 Hc0) as Hcu. rewrite E0 in Hcu. by rewrite C1.
  - exact (inv_cur0 _ _ _ Hi).
  - intros Ei. destruct (inv_init _ _ _ Hi) as (j & q & Ej & Hj & Aq & _).
    assert (j = np) as -> by (apply pptr_inj; congruence). destruct N0. apply alive_live. congruence.
  - right. intros j q Hj Hq Lq Ep. destruct (decide (pptr j = initproc T)) as [Ei|Ni].
    + destruct (inv_init _ _ _ Hi) as (j' & q' & Ej & Hj' & _ & Hz). assert (j' = j) as -> by (apply pptr_inj; congruence).
      assert (q' = q) as -> by congruence. unfold pptr in *. lia.
    + destruct (inv_parent _ _ _ Hi j q Hq Lq Ni) as (j' & q' & Ej & Hj' & Aq). assert (j' = np) as -> by (apply pptr_inj; congruence).
      destruct N0. apply alive_live. congruence.
  - intros R HR. unfold image in HR |- *. rewrite decide_False in HR by done. rewrite decide_False by done. eapply memx_perm; [exact Hm|done].
  - intros R D HR HD. rewrite C7, C8. eapply fl_inv_perm; [apply (inv_files _ _ _ Hi)|done|done].
Qed.

(** The child of [p]. *)
Definition child (pid tf pt me : Z) (p c : proc) : proc :=
  set_p_state RUNNABLE (set_p_parent me (set_p_name (copy_name (p_name c) (p_name p)) (set_p_cwd (p_cwd p)
    (set_p_ofile (p_ofile p) (set_p_sz (p_sz p) (fresh pid tf pt c)))))).

(** What [fork] returns and leaves: a child that is a copy of [p], or -1. *)
Definition forked (all : list Z) (T : pst) (i : nat) (p : proc) (r : Z) (s' : pst) : Prop :=
  r = -1 ∧ (∃ T', rep s' 0 false [] T' ∧ inv None all T' ∧ nextpid T ≤ nextpid T' ≤ nextpid T + 1 ∧ initproc T' = initproc T ∧
    ∀ j q, procs T !! j = Some q → live q → procs T' !! j = Some q) ∨
  r = nextpid T ∧ ∃ np c0 tf pt T', rep s' 0 false [] T' ∧ inv None all T' ∧
    procs T !! np = Some c0 ∧ p_state c0 = UNUSED ∧ (∀ j q, procs T !! j = Some q → (j < np)%nat → live q) ∧
    (let c := child (nextpid T) tf pt (pptr i) p c0 in
     procs T' = <[np := c]> (procs T) ∧ forked_mem (km T) (km T') (img_of c) (img_of p)) ∧
    nextpid T' = nextpid T + 1 ∧ initproc T' = initproc T ∧ c_proc T' = c_proc T.

Lemma upd_unused_live np g (T : pst) c :
  procs T !! np = Some c → p_state c = UNUSED →
  ∀ j q, procs T !! j = Some q → live q → procs (upd np g T) !! j = Some q.
Proof.
  intros Hc E0 j q Hq Lq. cbn. destruct (decide (np = j)) as [<-|]; [|by rewrite list_lookup_alter_ne].
  assert (q = c) as -> by congruence. unfold live in Lq. by rewrite E0 in Lq.
Qed.

Lemma forked_mem_agree k0 k k' u v :
  forked_mem k k' u v → (∀ q, q ∈ ipages k0 v → agree (mm k0) (mm k) q PGSIZE) → forked_mem k0 k' u v.
Proof.
  intros (H1 & H2 & H3) Ha. split; [|split; [|done]].
  - intros i Hi. eapply (page_copied_same k0 k (i_pt v) k' k' (i_pt u) (i_n v)); try done; auto.
    intros q Hq. apply Ha. by apply list_elem_of_further.
  - intros x Hx Hn. rewrite H2 by done. apply (Ha (i_tf v)); [apply list_elem_of_here|]. unfold TF_size, PGSIZE in *. lia.
Qed.

Lemma upd_insert np g (T : pst) c : procs T !! np = Some c → procs (upd np g T) = <[np := g c]> (procs T).
Proof. intros Hc. unfold upd. cbn. apply list_eq. intros j. destruct (decide (np = j)) as [<-|Hne].
  - rewrite list_lookup_alter_eq, Hc, list_lookup_insert_eq by by eapply lookup_lt_Some. done.
  - by rewrite list_lookup_alter_ne, list_lookup_insert_ne. Qed.

(** The end of [fork]: the child is linked to its parent and made runnable. *)
Lemma fork_link_run (Q : Z → pst → Prop) (s : pst) T i np pid :
  rep s 1 false [np] T → (np < 64)%nat →
  (∀ s', rep s' 0 false [] (upd np (λ q, set_p_state RUNNABLE (set_p_parent i q)) T) → Q pid s') →
  wp (unlock_proc np ;; lock_wait ;; set_proc np (set_p_parent i) ;; unlock_wait ;; lock_proc np ;;
      set_proc np (set_p_state RUNNABLE) ;; unlock_proc np ;; ret pid) Q s.
Proof.
  intros Hs Hl HQ. wp_run. eapply wp_unlock_proc; [done|done|by apply not_elem_of_nil|lia|]. clear s Hs. intros s Hs.
  wp_run. eapply wp_lock_wait; [done|]. clear s Hs. intros s Hs.
  wp_run. eapply wp_set_proc; [done|done|]. clear s Hs. intros s Hs.
  wp_run. eapply wp_unlock_wait; [done|lia|]. clear s Hs. intros s Hs.
  wp_run. eapply wp_lock_proc; [done|done|by apply not_elem_of_nil|]. clear s Hs. intros s Hs.
  wp_run. eapply wp_set_proc; [done|done|]. clear s Hs. intros s Hs.
  wp_run. eapply wp_unlock_proc; [done|done|by apply not_elem_of_nil|lia|]. clear s Hs. intros s Hs.
  wp_run. apply HQ. rewrite upd_compose in Hs. exact Hs.
Qed.

(** What [fork] does once it has a slot: its two halves. *)
Definition fork_fill (i np : nat) (me : Z) (p q : proc) : M pst Z :=
  set_proc np (set_p_sz (p_sz p)) ;;
  ink (kmemmove (p_trapframe q) (p_trapframe p) TF_size) ;;
  ink (kstore64 (p_trapframe q + TF_a0) 0) ;;
  fork_files i np ;;
  d <- infl (fl_idup (p_cwd p)) ;;
  set_proc np (set_p_cwd d) ;;
  set_proc np (λ q, set_p_name (copy_name (p_name q) (p_name p)) q) ;;
  q <- get_proc np ;;
  unlock_proc np ;; lock_wait ;; set_proc np (set_p_parent me) ;; unlock_wait ;; lock_proc np ;;
  set_proc np (set_p_state RUNNABLE) ;; unlock_proc np ;; ret (p_pid q).

Definition fork_child (i np : nat) (me : Z) : M pst Z :=
  p <- get_proc i ;;
  q <- get_proc np ;;
  r <- ink (uvmcopy (p_pagetable p) (p_pagetable q) (p_sz p)) ;;
  if r <? 0 then freeproc np ;; unlock_proc np ;; ret (-1) else fork_fill i np me p q.

Lemma fork_fill_run (Q : Z → pst → Prop) all (s : pst) k T i np p c0 tf pt b b' :
  rep s 1 false [np] (upd np (fresh (nextpid T) tf pt) (set_km k (set_nextpid (nextpid T + 1) T))) →
  inv None all T → procs T !! i = Some p → p_state p = RUNNING → procs T !! np = Some c0 → p_state c0 = UNUSED →
  (let c := child (nextpid T) tf pt (pptr i) p c0 in
   wp (kmemmove tf (p_trapframe p) TF_size) (λ _ k2,
     wp (kstore64 (tf + TF_a0) 0) (λ _ k3, ∀ s' f,
       fl_inv f (refs (p_ofile p) ++ files T) (p_cwd p :: dirs T) →
       rep s' 0 false [] (upd np (child (nextpid T) tf pt (pptr i) p) (set_fl f (set_km k3 (set_nextpid (nextpid T + 1) T)))) →
       Q (nextpid T) s') k2) k) →
  wp (fork_fill i np (pptr i) (set_p_locked b p) (set_p_locked b' (fresh (nextpid T) tf pt c0))) Q s.
Proof.
  intros Hs Hi Hp Ep Hc E0 Hm. assert (i ≠ np) as Hne by (intros ->; congruence).
  assert (np < 64)%nat as Hnl by (rewrite <-(inv_length _ _ _ Hi); by eapply lookup_lt_Some).
  pose proof (inv_slots _ _ _ Hi i p Hp) as So. unfold slot_ok in So. rewrite Ep in So.
  destruct So as (_ & _ & _ & _ & S5 & S6 & _). specialize (S6 eq_refl).
  pose proof (inv_slots _ _ _ Hi np c0 Hc) as Sc. unfold slot_ok in Sc. rewrite E0 in Sc. destruct Sc as (_ & _ & _ & _ & _ & Z6 & _).
  unfold fork_fill. cbn [p_sz p_trapframe p_cwd p_name set_p_locked]. change (p_trapframe (fresh _ tf _ _)) with tf. wp_run.
  eapply wp_set_proc; [done|done|]. clear s Hs. intros s Hs. rewrite upd_compose in Hs. wp_run.
  eapply wp_ink; [done|]. eapply wp_mono; [exact Hm|]. clear Hm. cbv beta. intros _ k2 Hm s1 Hs1. clear s Hs. wp_run.
  eapply wp_ink; [done|]. eapply wp_mono; [exact Hm|]. clear Hm. cbv beta. intros _ k3 HQ s Hs. clear s1 Hs1.
  set (T1 := set_km k3 (set_nextpid (nextpid T + 1) T)). change (rep s 1 false [np] (upd np (λ q, set_p_sz (p_sz p) (fresh (nextpid T) tf pt q)) T1)) in Hs. clear k k2. wp_run.
  eapply wp_mono; [eapply (fork_files_run s 1 _ i np p _ (files T) (dirs T) Hs)|]; [by cbn; rewrite list_lookup_alter_ne| |done|done| | | | |].
  { cbn. rewrite list_lookup_alter_eq, Hc. done. }
  { exact Z6. }
  { intros x Hx. destruct (bind_split (λ p, refs (p_ofile p)) _ i p Hp) as (R & E1 & _). unfold files. rewrite E1. apply elem_of_app. by left. }
  { exact (proj1 (inv_counts _ _ _ Hi)). }
  { exact (inv_files _ _ _ Hi). }
  cbv beta. intros _ s1 (f & Hs1 & Hf). clear s Hs. wp_run.
  eapply wp_infl; [done|]. eapply wp_mono; [apply (fl_idup_ok _ (p_cwd p)); [| |exact Hf]|].
  { destruct (bind_split (λ p, refs [p_cwd p]) _ i p Hp) as (R & E1 & _). unfold dirs. rewrite E1, refs_cons, decide_False by done. constructor. }
  { pose proof (proj2 (inv_counts _ _ _ Hi)). lia. }
  cbv beta. intros r f' [-> Hf'] s Hs. clear s1 Hs1. wp_run.
  eapply wp_set_proc; [done|done|]. clear s Hs. intros s Hs. wp_run.
  eapply wp_set_proc; [done|done|]. clear s Hs. intros s Hs. wp_run.
  set (g := λ q, set_p_name (copy_name (p_name q) (p_name p)) (set_p_cwd (p_cwd p) (set_p_ofile (p_ofile p)
    (set_p_sz (p_sz p) (fresh (nextpid T) tf pt q))))).
  assert (rep s 1 false [np] (upd np g (set_fl f' T1))) as Hs2.
  { revert Hs. repeat change (set_fl ?f (upd ?n ?g ?t)) with (upd n g (set_fl f t)).
    change (set_fl f' (set_fl f T1)) with (set_fl f' T1). rewrite !upd_compose. done. }
  clear Hs. eapply wp_get_proc; [done|]. intros b2. rewrite (proc_at_upd np g _ c0) by done.
  change (p_pid (set_p_locked b2 (g c0))) with (nextpid T).
  eapply fork_link_run; [done|done|]. clear s Hs2. intros s Hs. rewrite upd_compose in Hs. by eapply HQ.
Qed.

Lemma fork_child_run all (s : pst) k T i np p c0 tf pt :
  rep s 1 false [np] (upd np (fresh (nextpid T) tf pt) (set_km k (set_nextpid (nextpid T + 1) T))) →
  inv None all T → c_proc T = pptr i → procs T !! i = Some p → p_state p = RUNNING → procs T !! np = Some c0 → p_state c0 = UNUSED →
  (∀ j q, procs T !! j = Some q → (j < np)%nat → live q) → nextpid T + 1 < 2147483648 → tf ≠ 0 → pt ≠ 0 → memx all k (mkImg pt 0 tf :: images T) →
  (∀ q, q ∈ images T ≫= ipages (km T) → agree (mm (km T)) (mm k) q PGSIZE) →
  wp (fork_child i np (pptr i)) (forked all T i p) s.
Proof.
  intros Hs Hi Ec Hp Ep Hc E0 Hlt Hnp Htf Hpt Hk Ha. assert (i ≠ np) as Hne by (intros ->; congruence).
  pose proof (inv_slots _ _ _ Hi i p Hp) as So. unfold slot_ok in So. rewrite Ep in So. destruct So as (_ & _ & S3 & _).
  pose proof (inv_slots _ _ _ Hi np c0 Hc) as Sc. unfold slot_ok in Sc. rewrite E0 in Sc.
  destruct Sc as (Z1 & Z2 & Z3 & Z4 & Z5 & Z6 & Z7).
  assert (np < 64)%nat as Hnl by (rewrite <-(inv_length _ _ _ Hi); by eapply lookup_lt_Some).
  destruct (bind_split image _ i p Hp) as (R & E1 & _).
  assert (image p = [img_of p]) as Eim by (unfold image; rewrite decide_True; [done|apply alive_live; right; by right]). rewrite Eim in E1.
  assert (memx all k (mkImg pt 0 tf :: img_of p :: R)) as Hk1 by (eapply memx_perm; [exact Hk|by constructor]).
  unfold fork_child. wp_run. eapply wp_get_proc; [done|]. intros b. rewrite (proc_at_lookup _ i p) by (cbn; by rewrite list_lookup_alter_ne).
  wp_run. eapply wp_get_proc; [done|]. intros b'. rewrite (proc_at_upd np _ _ c0) by done. wp_run.
  change (p_pagetable (set_p_locked b' _)) with pt. cbn [p_pagetable p_sz set_p_locked].
  eapply wp_ink; [done|]. eapply wp_mono; [apply (copy_image_run all _ (mkImg pt 0 tf) (img_of p) R (p_sz p) Hk1); done|]. cbv beta.
  clear s Hs. intros r k1 [(-> & Hk2 & Hcp & Htc)|[-> Hk2]] s Hs; cbn [Z.ltb Z.compare].
  - change (set_km k1 (upd np ?g (set_km k ?t))) with (upd np g (set_km k1 t)) in Hs.
    eapply fork_fill_run; try done. cbv zeta.
    eapply wp_mono; [apply (fork_tf_run all k k1 (mkImg pt (i_n (img_of p)) tf) (img_of p) R Hk2); done|].
    cbv beta. intros _ k2 [_ Hw]. eapply wp_mono; [exact Hw|]. cbv beta. intros _ k3 [Hk3 Hfm] s' f Hf Hs'.
    right. split; [done|]. exists np, c0, tf, pt. eexists. split; [exact Hs'|]. splits; try done.
    + eapply (inv_fork all T i p np c0); try done. eapply memx_perm; [exact Hk3|]. by constructor.
    + split; [by rewrite (upd_insert np _ _ c0)|]. eapply forked_mem_agree; [exact Hfm|]. intros q Hq. apply Ha. unfold images. rewrite E1.
      change (q ∈ ipages (km T) (img_of p) ++ (R ≫= ipages (km T))). apply elem_of_app. by left.
  - change (set_km k1 (upd np ?g (set_km k ?t))) with (upd np g (set_km k1 t)) in Hs.
    wp_run. eapply wp_freeproc; [exact Hs|]. rewrite (proc_at_upd np _ _ c0) by done.
    eapply wp_mono; [apply (free_mem_run all k1 _ (img_of p :: R)); [|exact Htf|exact Hpt|cbn; lia]|].
    { unfold img_of at 1. cbn [fresh p_sz p_pagetable p_trapframe set_p_context set_p_pagetable set_p_trapframe set_p_state set_p_pid].
      rewrite Z3. exact Hk2. }
    cbv beta. intros _ k2 Hk3 s1 Hs1. wp_run.
    eapply wp_unlock_proc; [done|done|by apply not_elem_of_nil|lia|]. intros s2 Hs2. wp_run. left. split; [done|].
    change (set_km k2 (upd np ?g (set_km k1 ?t))) with (upd np g (set_km k2 t)) in Hs2. rewrite upd_compose in Hs2.
    eexists. split; [exact Hs2|]. split; [|cbn; split; [lia|split; [done|]]; by apply (upd_unused_live np _ T c0)].
    apply (inv_unused all T np c0); try done. eapply memx_perm; [exact Hk3|]. by symmetry.
Qed.

Lemma fork_run all (s : pst) T i p :
  rep s 0 false [] T → inv None all T → c_proc T = pptr i → procs T !! i = Some p → nextpid T + 1 < 2147483648 →
  wp fork (forked all T i p) s.
Proof.
  intros Hs Hi Ec Hp Hnp. destruct (cur_proc _ _ _ _ Hi Ec) as (p1 & Hp1 & Ep & Hl). assert (p1 = p) as -> by congruence.
  pose proof (inv_next _ _ _ Hi) as Hn.
  unfold fork. wp_run. eapply wp_myproc; [done|lia|]. clear s Hs. intros s Hs. rewrite Ec, pslot_pptr. wp_run.
  eapply wp_allocproc; [done|lia| | |].
  { intros j q Hq Eq. pose proof (inv_slots _ _ _ Hi j q Hq) as Sq. unfold slot_ok in Sq. rewrite Eq in Sq. tauto. }
  { intros s1 Hs1. wp_run. left. split; [done|]. exists T. split; [done|]. split; [done|]. split; [lia|]. by split. }
  intros np c0 Hc0 E0 Hlt. cbv zeta. rewrite i32_small by lia. eapply wp_mono; [by apply alloc_mem_run, (inv_mem _ _ _ Hi)|]. cbv beta.
  intros [[tf pt]|] k1.
  - intros (Htf & Hpt & Hk1 & Ha) s1 Hs1. by eapply (fork_child_run all s1 k1 T i np p c0).
  - intros Hk1 s1 Hs1. wp_run. left. split; [done|]. eexists. split; [exact Hs1|].
    split; [|cbn; split; [lia|split; [done|]]; by apply (upd_unused_live np _ T c0)].
    pose proof (inv_slots _ _ _ Hi np c0 Hc0) as Sq. unfold slot_ok in Sq. rewrite E0 in Sq. apply (inv_unused all T np c0); try done.
Qed.

End fork.
