(* ===== verification/ProcLife.v ===== *)
(** * The life of processes: proc.c as a whole

    The events of a machine running processes, each a piece of code of proc.c
    between two switches, and what holds of every sequence of them.  [w] gives
    for a process asleep in [wait] the argument it was called with, a local
    variable of its kernel stack. *)

From stdpp Require Import base gmap list strings numbers.
From S2P Require Import Prelude Machine Riscv KString Kalloc Vm PageTable Uvm FreeWalk UserCopy Spinlock Proc ProcMem ProcSpec ProcCalls ProcFork.

Inductive kevent :=
| ESwitch (i : nat)        (* the scheduler's loop reaches process [i] *)
| EFork | EExit (status : Z) | EWait (addr : Z) | ESbrk (n : Z) | EYield
| EKill (pid : Z)
| ESleep (chan a : Z)      (* a driver sleeps on [chan], holding lock [a] *)
| EWakeup (chan : Z).

Section life.
Context {LY : Layout} {LO : LayoutOk} {PLY : ProcLayout} {PLO : ProcLayoutOk} {F : Type} {FLY : FileLayer F} {FLO : FileLayerOk F}.
Notation pst := (pst F).

(** The process calls; without a process on the CPU there are none. *)
Definition run_call (w : gmap nat Z) (e : kevent) (cur ip : Z) : M pst (gmap nat Z) :=
  match e with
  | EFork => fork ;; ret w
  | EExit st => if cur =? ip then ret w else exit st ;; ret w
  | EWait addr => wait addr ;; ret (<[pslot cur := addr]> w)
  | ESbrk n => growproc n ;; ret w
  | EYield => yield ;; ret w
  | ESleep chan a => lock_lk (LOther a) ;; sleep chan (LOther a) ;; ret w
  | _ => ret w
  end.

(** The resumed process goes on to the end of its call or to its next sleep. *)
Definition run_switch (w : gmap nat Z) (i : nat) : M pst (gmap nat Z) :=
  p <- get_proc i ;;
  scheduler_turn i ;;
  if decide (p_state p = RUNNABLE) then
    match p_context p with
    | InSleep LWait _ => wait_scan (default 0 (w !! i)) ;; ret w
    | InSleep (LOther a) _ => unlock_lk (LOther a) ;; ret w
    | _ => ret w
    end
  else ret w.

Definition run_event (w : gmap nat Z) (e : kevent) : M pst (gmap nat Z) :=
  cur <- gets c_proc ;;
  ip <- gets initproc ;;
  match e with
  | EKill pid => kill pid ;; ret w
  | EWakeup chan => wakeup chan ;; ret w
  | ESwitch i => if (cur =? 0) && (i <? Z.to_nat NPROC)%nat then run_switch w i else ret w
  | _ => if cur =? 0 then ret w else run_call w e cur ip
  end.

Fixpoint run_events (w : gmap nat Z) (es : list kevent) : M pst (gmap nat Z) :=
  match es with
  | [] => ret w
  | e :: es' => w' <- run_event w e ;; run_events w' es'
  end.

(** User addresses are 64-bit words. *)
Definition event_ok (e : kevent) : Prop := match e with EWait addr => 0 ≤ addr < 2 ^ 64 | _ => True end.
Definition args_ok (w : gmap nat Z) : Prop := ∀ i a, w !! i = Some a → 0 ≤ a < 2 ^ 64.

Lemma forked_done all (T : pst) i p r s' : forked all T i p r s' → done_ok all T s'.
Proof.
  intros [[_ (T' & ? & ? & ? & ? & _)]|(_ & np & c0 & tf & pt & T' & Hs & Hi & _ & _ & _ & _ & En & Ei & _)]; [by exists T'|].
  exists T'. rewrite En. split; [done|]. split; [done|]. split; [lia|done].
Qed.

Lemma keeps_done all (s : pst) T T' : inv None all T → keeps T T' → rep s 0 false [] T' → done_ok all T s.
Proof.
  intros Hi Hk Hs. exists T'. split; [done|]. split; [by eapply inv_keeps|]. destruct Hk as (l & -> & _). cbn. split; [lia|done].
Qed.

Lemma run_switch_run all (s : pst) T w i :
  rep s 0 false [] T → inv None all T → c_proc T = 0 → (i < 64)%nat → args_ok w →
  wp (run_switch w i) (λ w' s', w' = w ∧ done_ok all T s') s.
Proof.
  intros Hs Hi Ec Hl Hw. destruct (lookup_lt_is_Some_2 (procs T) i) as [p Hp]; [by rewrite (inv_length _ _ _ Hi)|].
  unfold run_switch. wp_run. eapply wp_get_proc; [done|]. intros b. rewrite (proc_at_lookup _ _ _ Hp).
  cbn [p_state p_context set_p_locked]. wp_run. destruct (decide (p_state p = RUNNABLE)) as [Er|Er].
  - destruct (switch_run all s T i p Hs Hi Ec Hp Er) as [Hi' Hsw]. eapply wp_mono; [exact Hsw|]. cbv beta. intros _ s1 Hs1.
    assert (∀ s', done_ok all (upd i (λ _, resumed p) (set_c_proc (pptr i) T)) s' → done_ok all T s') as Hd by done.
    assert (rep s1 0 false [] (upd i (λ _, resumed p) (set_c_proc (pptr i) T)) → done_ok all T s1) as Hr.
    { intros Hr. eexists. split; [exact Hr|]. split; [done|]. cbn. split; [lia|done]. }
    destruct (p_context p) as [|[|a] b'| |]; wp_run; auto.
    + eapply wp_mono; [eapply (wait_scan_run all s1 _ i); [exact Hs1|done|done|]|]; [|cbv beta; intros _ s2 Hs2; wp_run; auto].
      destruct (w !! i) eqn:E; [by eapply Hw|done].
    + eapply wp_unlock_other; [exact Hs1|cbn; set_solver|lia|]. intros s2 Hs2. wp_run. split; [done|]. eexists. split; [|split; [exact Hi'|]].
      * pose proof (inv_olocks _ _ _ Hi) as Eo. replace (set_olocks _ _) with (upd i (λ _, resumed p) (set_c_proc (pptr i) T)) in Hs2; [exact Hs2|].
        destruct T. cbn in *. subst. unfold upd, set_olocks, set_procs. cbn. f_equal. set_solver.
      * cbn. split; [lia|done].
  - unfold scheduler_turn. wp_run. eapply wp_lock_proc; [done|done|apply not_elem_of_nil|]. intros s1 Hs1. wp_run.
    eapply wp_get_proc; [done|]. intros b'. rewrite (proc_at_lookup _ _ _ Hp). cbn [p_state set_p_locked]. rewrite decide_False by done.
    eapply wp_unlock_proc; [done|done|apply not_elem_of_nil|lia|]. intros s2 Hs2. wp_run. split; [done|].
    exists T. split; [exact Hs2|]. split; [done|]. split; [lia|done].
Qed.

Lemma run_call_run all (s : pst) T w e i :
  rep s 0 false [] T → inv None all T → c_proc T = pptr i → nextpid T + 1 < 2147483648 → event_ok e → args_ok w →
  wp (run_call w e (c_proc T) (initproc T)) (λ w' s', args_ok w' ∧ done_ok all T s') s.
Proof.
  intros Hs Hi Ec Hn He Hw. assert (done_ok all T s) as Hd.
  { exists T. split; [done|]. split; [done|]. split; [lia|done]. }
  destruct (cur_proc _ _ _ _ Hi Ec) as (p & Hp & _).
  destruct e; unfold run_call; wp_run; try done.
  - eapply wp_mono; [by apply (fork_run all s T i p)|]. cbv beta. intros r s' Hf. wp_run. eauto using forked_done.
  - rewrite Ec. destruct (Z.eqb_spec (pptr i) (initproc T)); wp_run; [done|].
    eapply wp_mono; [by eapply (exit_run all s T i)|]. cbv beta. intros _ s' Hs'. by wp_run.
  - eapply wp_mono; [by eapply (wait_run all s T i)|]. cbv beta. intros _ s' Hs'. wp_run. split; [|done].
    intros j a. destruct (decide (pslot (c_proc T) = j)) as [<-|]; [by rewrite lookup_insert_eq; intros [= <-]|].
    rewrite lookup_insert_ne by done. apply Hw.
  - eapply wp_mono; [by eapply (growproc_run all s T i)|]. cbv beta. intros _ s' Hs'. by wp_run.
  - eapply wp_mono; [by eapply (yield_run all s T i)|]. cbv beta. intros _ s' (T' & Hs' & Hi' & En & Ei). wp_run. split; [done|].
    exists T'. rewrite En. split; [done|]. split; [done|]. split; [lia|done].
  - pose proof (sleep_device_run all s T i chan a Hs Hi Ec) as H. apply wp_bind_inv in H. eapply wp_mono; [exact H|]. cbv beta.
    intros _ s1 H1. wp_run. eapply wp_mono; [exact H1|]. cbv beta. intros _ s2 H2. by wp_run.
Qed.

Lemma run_event_run all (s : pst) T w e :
  rep s 0 false [] T → inv None all T → nextpid T + 1 < 2147483648 → event_ok e → args_ok w →
  wp (run_event w e) (λ w' s', args_ok w' ∧ done_ok all T s') s.
Proof.
  intros Hs Hi Hn He Hw. unfold run_event. wp_run.
  assert (c_proc s = c_proc T) as -> by (destruct Hs as (<- & _); done).
  assert (initproc s = initproc T) as -> by (destruct Hs as (<- & _); done).
  assert (done_ok all T s) as Hd by (exists T; split; [done|]; split; [done|]; split; [lia|done]).
  assert (∀ e, event_ok e → wp (if c_proc T =? 0 then ret w else run_call w e (c_proc T) (initproc T))
    (λ w' s', args_ok w' ∧ done_ok all T s') s) as Hc.
  { intros e' He'. destruct (inv_cur0 _ _ _ Hi) as [->|(i & Ec & _)]; [by wp_run|].
    assert (c_proc T ≠ 0) by (rewrite Ec; unfold pptr; lia). rewrite (proj2 (Z.eqb_neq _ _)) by done. by eapply run_call_run. }
  destruct e; auto.
  - destruct (Z.eqb_spec (c_proc T) 0) as [Ec|]; [|by wp_run]. change (Z.to_nat NPROC) with 64%nat.
    destruct (Nat.ltb_spec i 64); [|by wp_run]. eapply wp_mono; [by apply (run_switch_run all s T)|]. cbv beta. by intros w' s' [-> ?].
  - wp_run. eapply wp_mono; [by eapply kill_proc_run|]. cbv beta. intros r s' (T' & Hs' & Hk). wp_run. split; [done|].
    eapply keeps_done; [done|by eapply killed_one_keeps|done].
  - wp_run. eapply wp_mono; [by eapply wakeup_run|]. cbv beta. intros r s' (T' & Hs' & Hk). wp_run. split; [done|]. by eapply keeps_done.
Qed.

(** Any number of events, one after the other. *)
Lemma run_events_run all (s : pst) T es :
  rep s 0 false [] T → inv None all T → Forall event_ok es → nextpid T + Z.of_nat (length es) < 2147483648 →
  ∃ w' s' T', run_events ∅ es s = OK w' s' ∧ rep s' 0 false [] T' ∧ inv None all T' ∧ initproc T' = initproc T.
Proof.
  intros Hs Hi He Hn. assert (args_ok ∅) as Hw by (intros ??; by rewrite lookup_empty).
  enough (wp (run_events ∅ es) (λ _ s', ∃ T', rep s' 0 false [] T' ∧ inv None all T' ∧ initproc T' = initproc T) s) as H.
  { apply wp_run_OK in H as (w' & s' & E & T' & H). by exists w', s', T'. }
  revert s T Hs Hi Hn Hw. generalize (∅ : gmap nat Z) as w. induction He as [|e es He Hes IH]; intros w s T Hs Hi Hn Hw; cbn [run_events length] in *.
  - wp_run. by exists T.
  - wp_run. eapply wp_mono; [eapply (run_event_run all s T); [done|done|lia|done|done]|]. cbv beta.
    intros w' s' (Hw' & T' & Hs' & Hi' & Hnx & Ei). eapply wp_mono; [apply (IH w' s' T'); [done|done|lia|done]|].
    cbv beta. intros _ s2 (T2 & ? & ? & ?). exists T2. by rewrite <-Ei.
Qed.


Lemma name_prefix_copy n d src : name_prefix n (name_prefix n src ++ 0 :: d) = name_prefix n src.
Proof.
  revert src. induction n as [|n IH]; intros src; [done|]. destruct src as [|c src]; [done|]. cbn.
  destruct (Z.eqb_spec c 0) as [->|Hc]; [done|]. cbn. rewrite (proj2 (Z.eqb_neq _ _)) by done. by rewrite IH.
Qed.

(** C15. [fork] makes a copy of the running process.  It returns -1 and leaves
    every process as it was, or it returns the pid of a new RUNNABLE process in a
    slot that was unused: the child of the caller, with its size, its open files
    and directory (counted once more), its name, a copy of every page of its
    memory with the same permissions, and its saved registers but for [a0], which
    is 0.  The table stays in order in both cases. *)
Theorem fork_copies_process all (s : pst) T i p :
  rep s 0 false [] T → inv None all T → c_proc T = pptr i → procs T !! i = Some p → nextpid T + 1 < 2147483648 →
  ∃ r s' T', fork s = OK r s' ∧ rep s' 0 false [] T' ∧ inv None all T' ∧
    (r = -1 ∧ (∀ j q, procs T !! j = Some q → p_state q ≠ UNUSED → procs T' !! j = Some q) ∨
     r = nextpid T ∧ nextpid T' = r + 1 ∧ ∃ np c, p_state (proc_at T np) = UNUSED ∧ procs T' = <[np := c]> (procs T) ∧
       p_state c = RUNNABLE ∧ p_pid c = r ∧ p_parent c = c_proc T ∧ p_sz c = p_sz p ∧ p_ofile c = p_ofile p ∧ p_cwd c = p_cwd p ∧
       name_prefix 15 (p_name c) = name_prefix 15 (p_name p) ∧
       (∀ n, 0 ≤ n < PGROUNDUP (p_sz p) / PGSIZE → page_copied (km T) (p_pagetable p) (km T') (p_pagetable c) (n * PGSIZE)) ∧
       (∀ x, 0 ≤ x < TF_size → x < TF_a0 ∨ TF_a0 + 8 ≤ x →
          load8 (mm (km T')) (p_trapframe c + x) = load8 (mm (km T)) (p_trapframe p + x)) ∧
       load64 (mm (km T')) (p_trapframe c + TF_a0) = 0).
Proof.
  intros Hs Hi Ec Hp Hn. pose proof (fork_run all s T i p Hs Hi Ec Hp Hn) as H. apply wp_run_OK in H as (r & s' & E & Hf).
  exists r, s'. destruct Hf as [(-> & T' & Hs' & Hi' & _ & _ & Hk)|(-> & np & c0 & tf & pt & T' & Hs' & Hi' & Hc & E0 & _ & (Ep & Hm) & En & _)];
    exists T'; (split; [done|]); (split; [done|]); (split; [done|]).
  - left. split; [done|]. intros j q Hq Hl. by apply Hk.
  - right. split; [done|]. split; [done|]. exists np. eexists. split; [by rewrite (proc_at_lookup _ _ _ Hc)|]. split; [exact Ep|].
    do 2 (split; [done|]). split; [done|]. do 3 (split; [done|]). split; [|exact Hm]. apply name_prefix_copy.
Qed.

(** [kill] finds a process by its pid.  For a pid that is not 0 it fails if
    no process has it; otherwise it marks exactly that process and wakes it up if
    it sleeps.  Pid 0 is the pid of every unused slot: [kill] then succeeds on
    the first of them and the next process created in it is born killed. *)
Theorem kill_finds_process all (s : pst) T i :
  rep s 0 false [] T → inv None all T → c_proc T = pptr i → nextpid T + 1 < 2147483648 →
  (∀ pid, pid ≠ 0 → ∃ r s' T', kill pid s = OK r s' ∧ rep s' 0 false [] T' ∧
     (r = -1 ∧ T' = T ∧ (∀ j p, procs T !! j = Some p → live p → p_pid p ≠ pid) ∨
      r = 0 ∧ ∃ j p, procs T !! j = Some p ∧ live p ∧ p_pid p = pid ∧ T' = upd j marked T ∧
        ∀ j' q, procs T !! j' = Some q → live q → p_pid q = pid → j' = j)) ∧
  (∃ r s' T', (kill 0 ;; fork) s = OK r s' ∧ rep s' 0 false [] T' ∧
     (r = -1 ∨ ∃ np c, procs T' !! np = Some c ∧ p_pid c = r ∧ p_state c = RUNNABLE ∧ p_killed c = 1)).
Proof.
  intros Hs Hi Ec Hn.
  assert (∀ j p, procs T !! j = Some p → p_state p = UNUSED → p_pid p = 0) as Hz.
  { intros j p Hp E. pose proof (inv_slots _ _ _ Hi j p Hp) as S. unfold slot_ok in S. rewrite E in S. tauto. }
  assert (∀ j p, procs T !! j = Some p → live p → p_pid p ≠ 0) as Hnz.
  { intros j p Hp L. pose proof (inv_slots _ _ _ Hi j p Hp) as S. unfold slot_ok, live in *.
    destruct (p_state p); try done; destruct S as (_ & _ & _ & S & _); lia. }
  split.
  - intros pid Hpid. pose proof (kill_proc_run s 0 false T pid Hs ltac:(lia)) as H. apply wp_run_OK in H as (r & s' & E & T' & Hs' & Hk).
    exists r, s', T'. split; [done|]. split; [done|]. destruct Hk as [(-> & -> & Hk)|(-> & j & p & Hp & Ep & _ & ->)]; [left; eauto|].
    assert (live p) as Lp by (intros E0; specialize (Hz _ _ Hp E0); congruence).
    right. split; [done|]. exists j, p. splits; try done. intros j' q Hq Lq Eq. eapply (inv_pids _ _ _ Hi); eauto. congruence.
  - enough (wp (kill 0 ;; fork) (λ r s', ∃ T', rep s' 0 false [] T' ∧ (r = -1 ∨ ∃ np c, procs T' !! np = Some c ∧ p_pid c = r ∧
      p_state c = RUNNABLE ∧ p_killed c = 1)) s) as H by (apply wp_run_OK in H as (r & s' & ? & T' & ? & ?); eauto 10).
    wp_run. eapply wp_mono; [by apply (kill_proc_run s 0 false T 0)|]. cbv beta. intros r s1 (T1 & Hs1 & Hk).
    assert (inv None all T1) as Hi1 by (eapply inv_keeps; [done|by eapply killed_one_keeps]).
    assert (c_proc T1 = pptr i ∧ nextpid T1 = nextpid T) as [Ec1 En1] by (destruct Hk as [(_ & -> & _)|(_ & j & p & _ & _ & _ & ->)]; done).
    destruct (cur_proc _ _ _ _ Hi1 Ec1) as (p & Hp & _). eapply wp_mono; [apply (fork_run all s1 T1 i p); [done|done|done|done|lia]|]. cbv beta.
    intros r' s' [(-> & T' & Hs' & _)|(-> & np & c0 & tf & pt & T' & Hs' & _ & Hc & E0 & Hlt & (Ep & _) & _)]; [eauto|].
    exists T'. split; [done|]. right. exists np. eexists. rewrite Ep. split; [by rewrite list_lookup_insert_eq by by eapply lookup_lt_Some|].
    split; [done|]. split; [done|]. change (p_killed c0 = 1).
    destruct Hk as [(_ & -> & Hk)|(_ & j & q & Hq & Eq & Hj & ->)]; [exfalso; by eapply Hk, Hz|].
    assert (p_state q = UNUSED) as Eq0.
    { destruct (decide (p_state q = UNUSED)) as [|Lq]; [done|]. by destruct (Hnz _ _ Hq Lq). }
    assert (np = j) as ->; [|cbn in Hc; rewrite list_lookup_alter_eq, Hq in Hc; injection Hc as <-; unfold marked; by case_decide].
    cbn in Hc, Hlt. destruct (decide (np = j)) as [|Hne]; [done|]. rewrite list_lookup_alter_ne in Hc by done.
    destruct (decide (np < j)%nat) as [Hl|Hge].
    + by destruct (Hj np c0 Hl Hc (Hz _ _ Hc E0)).
    + destruct (Hlt j (marked q)); [by rewrite list_lookup_alter_eq, Hq|lia|]. unfold marked. case_decide; [congruence|done].
Qed.

End life.

(** ** A concrete machine *)

Section ex.
#[local] Existing Instances ex16_layout ex16_layout_ok.
#[local] Instance ex_proc_layout : ProcLayout := {| initcode_at := KERNBASE; xstate_at i := KERNBASE + 512 * Z.of_nat i |}.
#[local] Instance ex_proc_layout_ok : ProcLayoutOk.
Proof. split. intros i Hi. change (2147483648 + 512 * Z.of_nat i + 4 ≤ 2281635840). lia. Qed.

Section solo.
Context {F : Type} {FLY : FileLayer F} {FLO : FileLayerOk F}.
(** The layer of files, with the files [init] has open and its directory. *)
Context (f0 : F) (ofile : list Z).

(** A table with [init] only, with an empty address space. *)
Definition solo_proc (st : procstate) (pt tf : Z) : proc :=
  mkProc false st 0 0 0 1 0 0 0 pt tf AtForkret ofile 1 (replicate 16 0).
Definition solo (st : procstate) (cur pt tf : Z) (k : kst) : pst F :=
  mkP (solo_proc st pt tf :: replicate 63 proc0) 1 2 false false ∅ cur cpu0 false k f0.

Definition boot_solo (st : procstate) (cur : Z) (k : kst) : pst F :=
  match alloc_mem k with OK (Some (tf, pt)) k' => solo st cur pt tf k' | _ => solo st cur 0 0 k end.
Definition booted (k : kst) : bool := match alloc_mem k with OK (Some _) _ => true | _ => false end.

Lemma solo_lookup st cur pt tf k i p :
  procs (solo st cur pt tf k) !! i = Some p → i = 0%nat ∧ p = solo_proc st pt tf ∨ i ≠ 0%nat ∧ p = proc0.
Proof.
  destruct i as [|i]; [intros [= <-]; by left|]. intros H. right. split; [done|]. by apply lookup_replicate_1 in H as [-> _].
Qed.

Lemma solo_bind {A} (f : proc → list A) st cur pt tf k :
  f proc0 = [] → procs (solo st cur pt tf k) ≫= f = f (solo_proc st pt tf).
Proof.
  intros H0. change (f (solo_proc st pt tf) ++ (replicate 63 proc0 ≫= f) = f (solo_proc st pt tf)).
  replace (replicate 63 proc0 ≫= f) with (@nil A); [apply app_nil_r|]. generalize 63%nat as n. induction n as [|n IH]; [done|].
  cbn. by rewrite H0, <-IH.
Qed.

Context (Hlen : length ofile = 16%nat) (Hf0 : fl_inv f0 (refs ofile) [1]).

Lemma solo_inv st cur pt tf k all :
  st = RUNNABLE ∧ cur = 0 ∨ st = RUNNING ∧ cur = pptr 0 → pt ≠ 0 → tf ≠ 0 → memx all k [mkImg pt 0 tf] →
  rep (solo st cur pt tf k) 0 false [] (solo st cur pt tf k) ∧ inv None all (solo st cur pt tf k).
Proof.
  intros Hst Hpt Htf Hm. assert (alive (solo_proc st pt tf)) as Ha.
  { unfold alive. cbn. destruct Hst as [[-> _]|[-> _]]; tauto. }
  assert (¬ live proc0) as Nl by (unfold live; tauto). split.
  - split; [reflexivity|]. split; [reflexivity|]. do 4 (split; [done|]). intros i p Hp. apply solo_lookup in Hp as [[-> ->]|[_ ->]]; done.
  - constructor; try done.
    + intros i p Hp. apply solo_lookup in Hp as [[-> ->]|[_ ->]]; [|by unfold slot_ok; splits].
      destruct Hst as [[-> _]|[-> _]]; unfold slot_ok; cbn; splits; try done; lia.
    + intros i p Hp. apply solo_lookup in Hp as [[-> ->]|[Hi ->]]; cbn; [destruct Hst as [[-> ->]|[-> ->]]; done|].
      destruct Hst as [[-> ->]|[-> ->]]; split; try done; unfold pptr in *; lia.
    + cbn. destruct Hst as [[_ ->]|[_ ->]]; [by left|right; exists 0%nat; split; [done|lia]].
    + intros i j p q Hp Hq Lp Lq _. apply solo_lookup in Hp as [[-> ->]|[_ ->]], Hq as [[-> ->]|[_ ->]]; done.
    + exists 0%nat, (solo_proc st pt tf). splits; done.
    + intros i p Hp Lp Hi. apply solo_lookup in Hp as [[-> ->]|[_ ->]]; done.
    + unfold images. rewrite solo_bind by (unfold image; by rewrite decide_False). unfold image.
      rewrite decide_True by by apply alive_live. exact Hm.
    + unfold files, dirs. rewrite !solo_bind by done. exact Hf0.
Qed.

Lemma boot_solo_inv st cur k Fr :
  kmem_inv k Fr → NoDup Fr → booted k = true → st = RUNNABLE ∧ cur = 0 ∨ st = RUNNING ∧ cur = pptr 0 →
  rep (boot_solo st cur k) 0 false [] (boot_solo st cur k) ∧ inv None Fr (boot_solo st cur k).
Proof.
  intros Hk Hnd Hb Hst. assert (memx Fr k []) as Hm.
  { exists Fr. split; [|done]. split; [done|]. split; [done|constructor]. }
  pose proof (alloc_mem_run Fr k [] Hm) as H. unfold booted, boot_solo in *. unfold wp in H.
  destruct (alloc_mem k) as [[[tf pt]|] k'| | |]; try done. destruct H as (Ht & Hp & Hm' & _). by apply solo_inv.
Qed.

End solo.

(** A layer of files that counts references: the lists of those held. *)
Definition exfl : Type := list Z * list Z.
Definition ex_take (x : Z) (l : list Z) : option (list Z) :=
  (λ i, delete i.1 l) <$> list_find (eq x) l.
#[local] Instance exfl_layer : FileLayer exfl := {|
  fl_filedup x := modify (λ f, (x :: f.1, f.2)) ;; ret x;
  fl_fileclose x := f <- get ;; match ex_take x f.1 with Some l => modify (λ f, (l, f.2)) | None => panic "fileclose" end;
  fl_idup x := modify (λ f, (f.1, x :: f.2)) ;; ret x;
  fl_begin_op := ret tt;
  fl_iput x := f <- get ;; match ex_take x f.2 with Some l => modify (λ f, (f.1, l)) | None => panic "iput" end;
  fl_end_op := ret tt;
  fl_root := modify (λ f, (f.1, 1 :: f.2)) ;; ret 1;
  fl_fsinit _ := ret tt;
|}.

Lemma ex_take_perm x l l' : l ≡ₚ x :: l' → ∃ l2, ex_take x l = Some l2 ∧ l2 ≡ₚ l'.
Proof.
  intros E. unfold ex_take. destruct (list_find (eq x) l) as [[i y]|] eqn:Ef.
  - apply list_find_Some in Ef as (Hy & <- & _). eexists. split; [done|]. cbn.
    apply delete_Permutation in Hy. rewrite Hy in E. by apply Permutation_cons_inv in E.
  - apply list_find_None in Ef. rewrite Forall_forall in Ef. destruct (Ef x); [|done]. apply list_elem_of_In. rewrite E. constructor.
Qed.

#[local] Program Instance exfl_ok : FileLayerOk exfl := {| fl_inv f fs ds := f.1 ≡ₚ fs ∧ f.2 ≡ₚ ds |}.
Next Obligation. intros f fs ds fs' ds' [H1 H2] E1 E2. by rewrite <-E1, <-E2. Qed.
Next Obligation. intros f x fs ds _ _ [H1 H2]. cbn. wp_run. cbn. split; [done|]. by rewrite H1. Qed.
Next Obligation.
  intros f x fs ds [H1 H2]. cbn. wp_run. destruct (ex_take_perm _ _ _ H1) as (l & -> & Hl). by wp_run.
Qed.
Next Obligation. intros f x fs ds _ _ [H1 H2]. cbn. wp_run. cbn. split; [done|]. by rewrite H2. Qed.
Next Obligation.
  intros f x fs ds [H1 H2]. cbn. wp_run. destruct (ex_take_perm _ _ _ H2) as (l & -> & Hl). by wp_run.
Qed.

Definition ex_pages : list Z := ex_pt :: ex_pt2 :: ex_free.
Lemma ex_booted : booted ex_ram = true.
Proof. vm_compute. reflexivity. Qed.
Lemma ex_pages_NoDup : NoDup ex_pages.
Proof. apply (bool_decide_unpack _). vm_compute. exact I. Qed.

Definition ex_boot (st : procstate) (cur : Z) : pst exfl := boot_solo ([], [1]) (replicate 16 0) st cur ex_ram.
Lemma ex_boot_inv st cur : st = RUNNABLE ∧ cur = 0 ∨ st = RUNNING ∧ cur = pptr 0 → rep (ex_boot st cur) 0 false [] (ex_boot st cur) ∧ inv None ex_pages (ex_boot st cur).
Proof.
  assert (fl_inv (([], [1]) : exfl) (refs (replicate 16 0)) [1]) as Hf by (split; reflexivity). intros H.
  exact (boot_solo_inv ([], [1]) (replicate 16 0) eq_refl Hf st cur ex_ram ex_pages ex_ram_inv ex_pages_NoDup ex_booted H).
Qed.

Definition ex_events : list kevent :=
  [ESwitch 0; EFork; EWait 0; ESwitch 1; EExit 7; EWakeup 1; ESwitch 0; EFork; EKill 3; ESbrk 4096; ESleep 77 5; ESwitch 1].


(** [init], running, forks. *)
Lemma fork_copies_process_witness :
  ∃ r s' T', fork (ex_boot RUNNING 1) = OK r s' ∧ rep s' 0 false [] T' ∧ inv None ex_pages T' ∧ r = 2 ∧ nextpid T' = 3.
Proof.
  destruct (ex_boot_inv RUNNING 1) as [Hs Hi]; [by right|].
  destruct (lookup_lt_is_Some_2 (procs (ex_boot RUNNING 1)) 0) as [p Hp]; [rewrite (inv_length _ _ _ Hi); lia|].
  destruct (fork_copies_process _ _ _ 0 p Hs Hi) as (r & s' & T' & E & Hs' & Hi' & H); [vm_compute; reflexivity|exact Hp|vm_compute; reflexivity|].
  exists r, s', T'. split; [exact E|]. split; [exact Hs'|]. split; [exact Hi'|].
  assert (match fork (ex_boot RUNNING 1) with OK r _ => r | _ => 0 end = 2) as Er by (vm_compute; reflexivity).
  rewrite E in Er. destruct H as [[H _]|(_ & H & _)]; [congruence|]. split; [exact Er|]. rewrite H, Er. reflexivity.
Defined.

(** No process has pid 5; [kill 0] succeeds, and the child [init] forks next is
    killed before it runs. *)
Lemma kill_finds_process_witness :
  (∃ r s', kill 5 (ex_boot RUNNING 1) = OK r s') ∧
  ∃ r s' T', (kill 0 ;; fork) (ex_boot RUNNING 1) = OK r s' ∧ rep s' 0 false [] T' ∧
    (r = -1 ∨ ∃ np c, procs T' !! np = Some c ∧ p_pid c = r ∧ p_state c = RUNNABLE ∧ p_killed c = 1).
Proof.
  destruct (ex_boot_inv RUNNING 1) as [Hs Hi]; [by right|].
  destruct (kill_finds_process _ _ _ 0 Hs Hi) as [H1 H2]; [vm_compute; reflexivity|vm_compute; reflexivity|].
  split; [|exact H2]. destruct (H1 5) as (r & s' & _ & E & _); [discriminate|]. exists r, s'. exact E.
Defined.
End ex.
