(* ===== verification/TrapSpec.v ===== *)
(** * What traps from user space do

    The state of a trap seen as the kernel [K], the hart [h] and the interrupt
    controller ([tsr]), with the rules that run the code on it; then the way from
    user space to the kernel ([trap_in]) and back ([trap_out]). *)

From stdpp Require Import base gmap list strings numbers.
From S2P Require Import Prelude Machine Riscv Hart KString Kalloc Vm PageTable Asm AsmSpec Uvm FreeWalk UserCopy Block Spinlock Proc Exec Syscall Trap ProcMem Trampoline ProcSpec ProcCalls.

(** Harts that agree on everything. *)
Record heq (h h' : hart) : Prop := mkHeq {
  heq_mode : h_mode h = h_mode h';
  heq_pc : h_pc h = h_pc h';
  heq_reg : ∀ r, h_reg h r = h_reg h' r;
  heq_csr : ∀ c, h_csr h c = h_csr h' c;
}.
#[global] Instance heq_equiv : Equivalence heq.
Proof.
  split.
  - by intros h.
  - intros h h' [A B C D]. by split.
  - intros h1 h2 h3 [A B C D] [A' B' C' D']. split; try congruence; intros x; by rewrite ?C, ?D.
Qed.

#[global] Instance set_csr_Proper c x : Proper (heq ==> heq) (set_csr c x).
Proof. intros h h' [A B C D]. split; try done. intros c'. rewrite !csr_set. by rewrite D. Qed.
#[global] Instance csr_read_Proper c : Proper (heq ==> eq) (csr_read c).
Proof. intros h h' [A B C D]. destruct c; cbn; by rewrite ?D. Qed.
#[global] Instance csr_write_Proper c : Proper (eq ==> heq ==> heq) (csr_write c).
Proof. intros x x' -> h h' E. destruct c; cbn; rewrite ?(heq_csr _ _ E); try done; by apply set_csr_Proper. Qed.

Lemma sstatus_bits x h k :
  0 ≤ k < 64 → Z.testbit (h_csr (csr_write SSTATUS x h) MSTATUS) k = if Z.testbit SSTATUS_MASK k then Z.testbit x k else Z.testbit (h_csr h MSTATUS) k.
Proof. intros Hk. cbn [csr_write]. rewrite csr_set, decide_True by done. by rewrite u64_testbit, masked_testbit. Qed.

Lemma sstatus_read h k : Z.testbit (csr_read SSTATUS h) k = Z.testbit (h_csr h MSTATUS) k && Z.testbit SSTATUS_MASK k.
Proof. apply Z.land_spec. Qed.

(** The hart with the interrupt flag [b]. *)
Definition hflag (b : bool) (h : hart) : hart := set_csr MSTATUS (status [(1, b)] (h_csr h MSTATUS)) h.

Definition word (x : Z) : Prop := 0 ≤ x < 18446744073709551616.

Lemma word_eq x y : word x → word y → (∀ k, 0 ≤ k < 64 → Z.testbit x k = Z.testbit y k) → x = y.
Proof.
  intros Hx Hy H. apply Z.bits_inj'. intros k Hk. destruct (decide (k < 64)); [apply H; lia|].
  assert (∀ z, word z → Z.testbit z k = false) as Hz.
  { intros z [Hz1 Hz2]. destruct (decide (z = 0)) as [->|]; [apply Z.testbit_0_l|]. apply Z.bits_above_log2; [lia|].
    apply Z.log2_lt_pow2; [lia|]. eapply Z.lt_le_trans; [exact Hz2|]. change 18446744073709551616 with (2 ^ 64). apply Z.pow_le_mono_r; lia. }
  by rewrite !Hz.
Qed.

Lemma hflag_same h b : word (h_csr h MSTATUS) → Z.testbit (h_csr h MSTATUS) 1 = b → heq (hflag b h) h.
Proof.
  intros Hw Hb. split; try done. intros c. unfold hflag. rewrite csr_set. case_decide as E; [subst|done]. apply word_eq; [apply u64_range|done|].
  intros k Hk. rewrite u64_testbit, status_testbit by (lia || (repeat constructor; lia)). cbn. case_bool_decide; by subst.
Qed.

Section trapspec.
Context {LY : Layout} {LO : LayoutOk} {PLY : ProcLayout} {F : Type} {FLY : FileLayer F} {FLO : FileLayerOk F} {PF : ProgFiles F}.
Context {CLY : CallLayout} {TLY : TrapLayout}.
Notation pst := (pst F).
Notation kern := (kern F).
Notation tst := (tst F).

(** ** The parts of the state *)

Definition kflag (K : kern) : bool := c_intr (c_cpu (kp K)).
Definition set_kflag (b : bool) (K : kern) : kern :=
  set_kp (set_c_cpu (mkCpu b (c_noff (c_cpu (kp K))) (c_intena (c_cpu (kp K)))) (kp K)) K.

Definition tsr (s : tst) (K : kern) (h : hart) (pl : plic) : Prop :=
  tk s = K ∧ tplic s = pl ∧ heq (the_hart s) h ∧ word (h_csr h MSTATUS).

Lemma set_kflag_same K : set_kflag (kflag K) K = K.
Proof. by destruct K as [[? ? ? ? ? ? ? []] ?]. Qed.

Lemma tsr_flag s K h pl : tsr s K h pl → Z.testbit (h_csr h MSTATUS) 1 = kflag K.
Proof.
  intros (<- & _ & E & _). rewrite <-(heq_csr _ _ E). unfold the_hart. rewrite csr_set, decide_True by done.
  rewrite u64_testbit, status_testbit by (lia || (repeat constructor; lia)). done.
Qed.

Lemma tsr_self s : tsr s (tk s) (the_hart s) (tplic s).
Proof. split; [done|]. split; [done|]. split; [done|]. apply u64_range. Qed.

Lemma tsr_set s K h pl h' :
  tsr s K h pl → word (h_csr h' MSTATUS) → tsr (set_the_hart h' s) (set_kflag (Z.testbit (h_csr h' MSTATUS) 1) K) h' pl.
Proof.
  intros (<- & <- & _) Hw. split; [done|]. split; [done|]. split; [|done]. by apply (hflag_same h').
Qed.

Lemma tsr_heq s K h h' pl : tsr s K h pl → heq h h' → tsr s K h' pl.
Proof. intros (H1 & H2 & H3 & H4) E. split_and!; try done; [by etrans|by rewrite <-(heq_csr _ _ E)]. Qed.

Lemma wp_h_gets {A} (f : hart → A) Q s K h pl :
  tsr s K h pl → (∀ h', heq h' h → f h' = f h) → (∀ s', tsr s' K h pl → Q (f h) s') → wp (onh (gets f)) Q s.
Proof.
  intros Hs Hf HQ. unfold onh. apply wp_zoom. wp_run. pose proof Hs as (_ & _ & E & _). rewrite (Hf _ E). apply HQ.
  pose proof (tsr_set s K h pl (the_hart s) Hs (u64_range _)) as Ht. rewrite (heq_csr _ _ E), (tsr_flag _ _ _ _ Hs), set_kflag_same in Ht.
  by eapply tsr_heq.
Qed.

Lemma wp_h_modify (m : M hart unit) (g : hart → hart) Q s K h pl :
  tsr s K h pl → (∀ h', m h' = OK tt (g h')) → (∀ h', heq h' h → heq (g h') (g h)) → word (h_csr (g h) MSTATUS) →
  (∀ s', tsr s' (set_kflag (Z.testbit (h_csr (g h) MSTATUS) 1) K) (g h) pl → Q tt s') → wp (onh m) Q s.
Proof.
  intros Hs Hm Hg Hw HQ. unfold onh. apply wp_zoom. eapply wp_intro; [apply Hm|]. pose proof Hs as (_ & _ & E & _). specialize (Hg _ E). apply HQ.
  rewrite <-(heq_csr _ _ Hg) in Hw |- *. eapply tsr_heq; [|exact Hg]. by eapply tsr_set.
Qed.

(** Code of the kernel; the hart sees its interrupt flag. *)
Lemma wp_k {A} (m : M kern A) Q s K h pl :
  tsr s K h pl → wp m (λ a K', ∀ s', tsr s' K' (hflag (kflag K') h) pl → Q a s') K → wp (onk m) Q s.
Proof.
  intros (<- & <- & E & Hw) Hm. unfold onk. apply wp_zoom. eapply wp_mono; [exact Hm|]. cbv beta. intros a K' HQ. apply HQ.
  split; [done|]. split; [done|]. split; [|apply u64_range].
  assert (∀ c, c ≠ MSTATUS → h_csr (th s) c = h_csr h c) as Hc by (intros c Hc; rewrite <-(heq_csr _ _ E); unfold the_hart; by rewrite csr_set, decide_False).
  assert (∀ k, 0 ≤ k < 64 → k ≠ 1 → Z.testbit (h_csr (th s) MSTATUS) k = Z.testbit (h_csr h MSTATUS) k) as Hk.
  { intros k Hk Hn. rewrite <-(heq_csr _ _ E). unfold the_hart. rewrite csr_set, decide_True by done.
    rewrite u64_testbit, status_testbit by (lia || (repeat constructor; lia)). cbn. by rewrite bool_decide_false. }
  split; [exact (heq_mode _ _ E)|exact (heq_pc _ _ E)|exact (heq_reg _ _ E)|]. intros c. unfold the_hart, hflag. rewrite !csr_set.
  case_decide as Ec; [subst|exact (Hc c Ec)]. apply word_eq; [apply u64_range|apply u64_range|]. intros k Hr.
  rewrite !u64_testbit, !status_testbit by (lia || (repeat constructor; lia)). cbn. case_bool_decide; [done|by apply Hk].
Qed.

Lemma wp_k_same {A} (m : M kern A) Q s K h pl :
  tsr s K h pl → wp m (λ a K', kflag K' = kflag K ∧ ∀ s', tsr s' K' h pl → Q a s') K → wp (onk m) Q s.
Proof.
  intros Hs Hm. eapply wp_k; [exact Hs|]. eapply wp_mono; [exact Hm|]. cbv beta. intros a K' [E HQ] s' Hs'. apply HQ.
  eapply tsr_heq; [exact Hs'|]. pose proof Hs as (_ & _ & _ & Hw). apply hflag_same; [done|]. rewrite E. by eapply tsr_flag.
Qed.

(** ** At rest *)

(** The kernel holds no lock; its table is [T], the interrupt flag [b], the ticks [t]. *)
Definition ksr (s : tst) (T : pst) (b : bool) (t : Z) (h : hart) (pl : plic) : Prop :=
  ∃ K, tsr s K h pl ∧ rep (kp K) 0 false [] T ∧ kflag K = b ∧ ticks K = t.

Definition set_m (m : mem) (T : pst) : pst := set_km (set_mm m (km T)) T.

Lemma rep_set_m (P T : pst) m d w L : rep P d w L T → rep (set_m m P) d w L (set_m m T).
Proof. intros (<- & H). by split. Qed.

Lemma ksr_flag s T b t h pl : ksr s T b t h pl → Z.testbit (h_csr h MSTATUS) 1 = b.
Proof. intros (K & Hs & _ & <- & _). by eapply tsr_flag. Qed.

Lemma ksr_word s T b t h pl : ksr s T b t h pl → word (h_csr h MSTATUS).
Proof. by intros (K & (_ & _ & _ & ?) & _). Qed.

Lemma ksr_heq s T b t h h' pl : ksr s T b t h pl → heq h h' → ksr s T b t h' pl.
Proof. intros (K & Hs & H) E. exists K. split; [by eapply tsr_heq|done]. Qed.

Lemma wp_r_h {A} (f : hart → A) Q s T b t h pl :
  ksr s T b t h pl → (∀ h', heq h' h → f h' = f h) → (∀ s', ksr s' T b t h pl → Q (f h) s') → wp (onh (gets f)) Q s.
Proof. intros (K & Hs & H) Hf HQ. eapply wp_h_gets; [exact Hs|exact Hf|]. intros s' Hs'. apply HQ. by exists K. Qed.

Lemma wp_w_h (g : hart → hart) (m : M hart unit) Q s T b t h pl :
  ksr s T b t h pl → (∀ h', m h' = OK tt (g h')) → (∀ h', heq h' h → heq (g h') (g h)) → word (h_csr (g h) MSTATUS) →
  (∀ s', ksr s' T (Z.testbit (h_csr (g h) MSTATUS) 1) t (g h) pl → Q tt s') → wp (onh m) Q s.
Proof.
  intros (K & Hs & Hr & <- & <-) Hm Hg Hw HQ. eapply wp_h_modify; [exact Hs|exact Hm|exact Hg|exact Hw|]. intros s' Hs'. apply HQ.
  eexists. split; [exact Hs'|]. split; [|done]. cbn [kp set_kp set_kflag]. pose proof Hr as (_ & _ & Hc & Hn & _).
  apply (rep_cpu _ 0); [exact Hr| |exact Hn]. destruct Hc as [Hc1 Hc2]. split; [exact Hc1|]. cbn. rewrite Hn. lia.
Qed.

Lemma wp_myproc_flag Q (P T : pst) :
  rep P 0 false [] T → (∀ P', rep P' 0 false [] T → c_intr (c_cpu P') = c_intr (c_cpu P) → Q (c_proc T) P') → wp myproc Q P.
Proof.
  intros Hr HQ. pose proof Hr as (HT & _ & (Hc & _) & Hn & _). unfold myproc, intr_push, intr_pop. wp_run. cbn [c_cpu set_c_cpu].
  unfold push_off, pop_off. cbn [c_intr c_noff c_intena]. rewrite Hn. cbn.
  assert (∀ c, c_noff c = 0 → rep (set_c_cpu c (set_c_cpu (mkCpu false 1 (c_intr (c_cpu P))) P)) 0 false [] T) as Hc'.
  { intros c Hz. apply (rep_cpu _ 1); [apply (rep_cpu _ 0); [exact Hr| |done]| |done]; (split; cbn; [lia|done || lia]). }
  wp_run. replace (c_proc _) with (c_proc T) by (rewrite <-HT; done). apply HQ; [by apply Hc'|]. cbn. by destruct (c_intr (c_cpu P)).
Qed.

Lemma wp_p {A} (m : M pst A) Q s T b t h pl :
  ksr s T b t h pl →
  (∀ P, rep P 0 false [] T → c_intr (c_cpu P) = b →
    wp m (λ a P', ∃ T', rep P' 0 false [] T' ∧ c_intr (c_cpu P') = b ∧ ∀ s', ksr s' T' b t h pl → Q a s') P) → wp (onp m) Q s.
Proof.
  intros (K & Hs & Hr & Hb & Ht) Hm. unfold onp. eapply wp_k_same; [exact Hs|]. unfold inp. apply wp_zoom. eapply wp_mono; [by apply Hm|].
  cbv beta. intros a P' (T' & Hr' & Hb' & HQ). split; [unfold kflag in *; cbn; congruence|]. intros s' Hs'. apply HQ. by exists (set_kp P' K).
Qed.

Lemma wp_p_myproc Q s T b t h pl :
  ksr s T b t h pl → (∀ s', ksr s' T b t h pl → Q (c_proc T) s') → wp (onp myproc) Q s.
Proof.
  intros Hs HQ. eapply wp_p; [exact Hs|]. intros P Hr Hb. eapply wp_myproc_flag; [exact Hr|]. intros P' Hr' Hb'.
  exists T. split; [done|]. split; [congruence|exact HQ].
Qed.

Lemma wp_p_get_proc Q s T b t h pl i p :
  ksr s T b t h pl → procs T !! i = Some p → (∀ s', ksr s' T b t h pl → ∀ bl, Q (set_p_locked bl p) s') → wp (onp (get_proc i)) Q s.
Proof.
  intros Hs Hp HQ. eapply wp_p; [exact Hs|]. intros P Hr Hb. eapply wp_get_proc; [exact Hr|]. intros bl. exists T.
  split; [done|]. split; [done|]. intros s' Hs'. replace (proc_at T i) with p by (unfold proc_at; by rewrite Hp). by apply HQ.
Qed.

Lemma wp_p_ink {A} (m : M kst A) Q s T b t h pl :
  ksr s T b t h pl → wp m (λ a k, ∀ s', ksr s' (set_km k T) b t h pl → Q a s') (km T) → wp (onp (ink m)) Q s.
Proof.
  intros Hs Hm. eapply wp_p; [exact Hs|]. intros P Hr Hb. unfold ink. apply wp_zoom. pose proof Hr as (HT & _).
  replace (km P) with (km T) by (rewrite <-HT; done). eapply wp_mono; [exact Hm|]. cbv beta. intros a k HQ. exists (set_km k T).
  split; [|split; [done|exact HQ]]. destruct Hr as (<- & H). by split.
Qed.

Lemma wp_p_store Q s T b t h pl a v :
  ksr s T b t h pl → (∀ s', ksr s' (set_m (store64 (mm (km T)) a v) T) b t h pl → Q tt s') → wp (onp (ink (kstore64 a v))) Q s.
Proof. intros Hs HQ. eapply wp_p_ink; [exact Hs|]. wp_run. exact HQ. Qed.

Lemma wp_p_load Q s T b t h pl a :
  ksr s T b t h pl → (∀ s', ksr s' T b t h pl → Q (load64 (mm (km T)) a) s') → wp (onp (ink (kload64 a))) Q s.
Proof. intros Hs HQ. eapply wp_p_ink; [exact Hs|]. wp_run. replace (set_km (km T) T) with T by by destruct T. exact HQ. Qed.

(** ** The assembly *)

(** The code [l] of trampoline.S, on the hart and the memory of the kernel. *)
Definition asm (l : list instr) : M tst unit := λ s,
  match Asm.run (λ _ _, None) l (mkMach (the_hart s) (mm (km (kp (tk s))))) with
  | Some (mkMach h m) => OK tt (set_the_hart h (set_tk (set_kp (set_m m (kp (tk s))) (tk s)) s))
  | None => PANIC "fault"
  end.

Lemma wp_asm l Q s T b t h pl :
  ksr s T b t h pl →
  (∀ h0, heq h0 h → ∃ h' m', Asm.run (λ _ _, None) l (mkMach h0 (mm (km T))) = Some (mkMach h' m') ∧ word (h_csr h' MSTATUS) ∧
    ∀ s', ksr s' (set_m m' T) (Z.testbit (h_csr h' MSTATUS) 1) t h' pl → Q tt s') → wp (asm l) Q s.
Proof.
  intros (K & Hs & Hr & <- & <-) H. pose proof Hs as (HK & Hpl & Eh & Hw). destruct (H _ Eh) as (h' & m' & E & Hw' & HQ). subst K.
  eapply wp_intro; [|apply HQ].
  - unfold asm. replace (km (kp (tk s))) with (km T) by (destruct Hr as (<- & _); done). rewrite E. reflexivity.
  - set (K' := set_kp (set_m m' (kp (tk s))) (tk s)). exists (set_kflag (Z.testbit (h_csr h' MSTATUS) 1) K'). split.
    + apply (tsr_set _ K' h pl h'); [|exact Hw']. split; [done|]. split; [exact Hpl|]. split; [exact Eh|exact Hw].
    + split; [|done]. cbn [kp set_kp set_kflag]. pose proof Hr as (HT & Hl & [Hc1 Hc2] & Hn & H2). subst T.
      apply (rep_cpu _ 0); [by split|split; [exact Hc1|cbn; rewrite Hn; lia]|exact Hn].
Qed.

(** ** The current process *)

Definition cur (all : list Z) (T : pst) (i : nat) (p : proc) : Prop := inv None all T ∧ c_proc T = pptr i ∧ procs T !! i = Some p.

Lemma cur_split all T i p :
  cur all T i p → ∃ U, images T ≡ₚ img_of p :: U ∧ memx all (km T) (img_of p :: U).
Proof.
  intros (Hi & Hc & Hp). destruct (cur_proc _ _ _ _ Hi Hc) as (p' & Hp' & Er & _). rewrite Hp in Hp'. injection Hp' as <-.
  destruct (bind_split image _ i p Hp) as (U & E1 & _). exists U. assert (image p = [img_of p]) as Eim by (unfold image; rewrite decide_True; [done|unfold live; congruence]).
  rewrite Eim in E1. split; [exact E1|]. eapply memx_perm; [exact (inv_mem _ _ _ Hi)|exact E1].
Qed.

Lemma cur_tf all T i p m' : cur all T i p → frame [p_trapframe p] (mm (km T)) m' → cur all (set_m m' T) i p.
Proof.
  intros Hc Hf. destruct (cur_split _ _ _ _ Hc) as (U & E & Hm). destruct Hc as (Hi & Hc & Hp). split; [|done]. apply inv_km; [exact Hi|].
  destruct (memx_tf all (km T) (img_of p) U m' Hm Hf) as [Hm' _]. eapply memx_perm; [exact Hm'|symmetry; exact E].
Qed.

Lemma cur_mapped all T i p h :
  cur all T i p → h_mode h = Supervisor → h_csr h SATP = MAKE_SATP (p_pagetable p) → mapped h (mm (km T)) [tf_win (p_trapframe p)].
Proof.
  intros Hc Hm Hs. destruct (cur_split _ _ _ _ Hc) as (U & _ & Fr & (_ & Hnd & Hall) & _). apply Forall_cons_1 in Hall as [Hu _].
  apply (trapframe_mapped (km T) (img_of p) Fr h Hu); [|done|done]. cbn in Hnd. apply list.NoDup_cons in Hnd as [Hn _].
  intros Hin. apply Hn. do 2 (apply elem_of_app; left). unfold upages. apply elem_of_app. by right.
Qed.

Lemma cur_tf_ok all T i p : cur all T i p → page_ok (p_trapframe p) ∧ page_ok (p_pagetable p).
Proof.
  intros Hc. destruct (cur_split _ _ _ _ Hc) as (U & _ & Fr & (_ & _ & Hall) & _). apply Forall_cons_1 in Hall as [(Hu & Htf & _) _]. split; [exact Htf|].
  destruct Hu as (_ & _ & _ & _ & Hok & _). rewrite Forall_forall in Hok. apply Hok, list_elem_of_In. unfold upages. apply elem_of_app. right. apply ptpages_head.
Qed.

(** ** From user space to usertrap *)

Definition uservec_va : Z := TRAMPOLINE + (uservec_at - trampoline).
Definition userret_va : Z := TRAMPOLINE + (userret_at - trampoline).

(** The trap of the hardware, and [uservec], up to the jump to [usertrap]. *)
Definition trap_in (cause tval : Z) : M tst unit :=
  onh (modify (strap cause tval)) ;;
  pc <- onh (gets h_pc) ;;
  if negb (pc =? uservec_va) then panic "not at uservec"
  else
    asm uservec ;;
    pc <- onh (gets h_pc) ;;
    if negb (pc =? usertrap_at) then panic "not at usertrap" else ret tt.

(** The call of [userret] at the end of [usertrapret]; what the compiled code
    leaves in the other registers is [junk]. *)
Definition trap_out (junk : reg → Z) (args : Z * Z) : M tst unit :=
  pc <- onh (gets h_pc) ;;
  if negb (pc =? userret_va) then panic "not at userret"
  else
    onh (modify (λ h, mkHart (h_mode h) (h_pc h)
      (λ r, match r with A0 => args.1 | A1 => args.2 | TP => h_reg h TP | _ => junk r end) (h_csr h))) ;;
    asm userret.

(** The hart runs the process [p] in user space, with the registers [R]. *)
Record user_hart (h : hart) (p : proc) (R : reg → Z) (pc : Z) : Prop := mkUserHart {
  uh_mode : h_mode h = User;
  uh_pc : h_pc h = pc;
  uh_reg : ∀ r, h_reg h r = R r;
  uh_satp : h_csr h SATP = MAKE_SATP (p_pagetable p);
  uh_sscratch : h_csr h SSCRATCH = TRAPFRAME;
  uh_stvec : h_csr h STVEC = uservec_va;
  uh_regs : regs_ok R;
  uh_word : word pc;
}.

(** The hart is in the kernel, after a trap from [pc] with [cause]. *)
Record kernel_hart (h : hart) (ksatp hid pc cause : Z) : Prop := mkKernelHart {
  kh_mode : h_mode h = Supervisor;
  kh_satp : h_csr h SATP = ksatp;
  kh_tp : h_reg h TP = hid;
  kh_sepc : h_csr h SEPC = pc;
  kh_scause : h_csr h SCAUSE = u64 cause;
  kh_spp : Z.testbit (h_csr h MSTATUS) 8 = false;
}.

(** What the kernel keeps in the trapframe for itself. *)
Record kframe (m : mem) (p : proc) (ksatp hid : Z) : Prop := mkKframe {
  kf_satp : load64 m (p_trapframe p + TF_kernel_satp) = ksatp;
  kf_sp : load64 m (p_trapframe p + TF_kernel_sp) = u64 (p_kstack p + PGSIZE);
  kf_trap : load64 m (p_trapframe p + TF_kernel_trap) = usertrap_at;
  kf_hartid : load64 m (p_trapframe p + TF_kernel_hartid) = hid;
}.

#[local] Instance strap_Proper cause tval : Proper (heq ==> heq) (strap cause tval).
Proof.
  intros h h' [A B C D]. unfold strap. rewrite B, D, (D MSTATUS), A. split; try done. intros c. cbn [set_pc set_mode h_csr]. rewrite !csr_set. by rewrite D.
Qed.

Lemma trap_in_run all s T i p R pc t h pl ksatp hid cause tval :
  ksr s T true t h pl → user_hart h p R pc → cur all T i p → kframe (mm (km T)) p ksatp hid →
  wp (trap_in cause tval) (λ _ s', ∃ h' m', ksr s' (set_m m' T) false t h' pl ∧ kernel_hart h' ksatp hid pc cause ∧
    in_frame (p_trapframe p) R m' ∧
    ∀ x, x < p_trapframe p + 40 ∨ p_trapframe p + 288 ≤ x → load8 m' x = load8 (mm (km T)) x) s.
Proof.
  intros Hs Hu Hc Hk. pose proof Hu as [U1 U2 U3 U4 U5 U6 U7 U8]. unfold trap_in. wp_run.
  eapply (wp_w_h (strap cause tval)); [exact Hs|done|intros h' E; by rewrite E|apply u64_range|]. rewrite strap_mstatus by lia. cbn [bool_decide]. intros s1 Hs1.
  set (h1 := strap cause tval h) in *. wp_run.
  eapply wp_r_h; [exact Hs1|by intros h' [_ ? _ _]|]. intros s2 Hs2.
  replace (h_pc h1) with uservec_va by (symmetry; exact U6). rewrite Z.eqb_refl. cbn [negb]. wp_run.
  eapply wp_asm; [exact Hs2|]. intros h0 E0.
  destruct (uservec_run (λ _ _, None) h0 (mm (km T)) (p_trapframe p)) as (R' & C' & m' & E & Esp & Etp & Esatp & Hcsr & Hin & Hout).
  - apply (cur_mapped all T i p); [exact Hc|by rewrite (heq_mode _ _ E0)|by rewrite (heq_csr _ _ E0)].
  - by rewrite (heq_csr _ _ E0).
  - intros r. rewrite (heq_reg _ _ E0). change (0 ≤ h_reg h r < 18446744073709551616). rewrite U3. apply U7.
  - exists (mkHart (h_mode h0) (load64 (mm (km T)) (p_trapframe p + 16)) R' C'), m'. split; [exact E|].
    assert (∀ c, c ≠ SATP → c ≠ SSCRATCH → C' c = h_csr h1 c) as HC by (intros c H1 H2; by rewrite Hcsr, (heq_csr _ _ E0)).
    cbn [h_csr]. rewrite HC by done. split; [apply u64_range|]. intros s3 Hs3. unfold h1 in Hs3 at 1. rewrite strap_mstatus in Hs3 by lia. wp_run.
    eapply wp_r_h; [exact Hs3|by intros h' [_ ? _ _]|]. intros s4 Hs4. cbn [h_pc]. change (p_trapframe p + 16) with (p_trapframe p + TF_kernel_trap). rewrite (kf_trap _ _ _ _ Hk), Z.eqb_refl. cbn [negb]. wp_run.
    eexists _, m'. split; [exact Hs4|]. split; [|split].
    + split; cbn [h_mode h_csr h_reg].
      * exact (heq_mode _ _ E0).
      * rewrite Esatp, <-(kf_satp _ _ _ _ Hk). f_equal. unfold TF_kernel_satp. lia.
      * rewrite Etp. apply Hk.
      * rewrite HC by done. change (u64 (h_pc h) = pc). rewrite U2. by apply u64_small.
      * by rewrite HC.
      * rewrite HC by done. unfold h1. rewrite strap_mstatus, U1 by lia. done.
    + intros r o Hro. rewrite (Hin r o Hro), (heq_reg _ _ E0). apply U3.
    + exact Hout.
Qed.

(** ** From usertrapret to user space *)

Class TrapLayoutOk : Prop := {
  usertrap_ok : word usertrap_at;
  uservec_ok : word uservec_va;
  userret_ok : word userret_va;
}.
Context {TLO : TrapLayoutOk}.

(** The hart in the kernel, whatever trap brought it there. *)
Record kernel_mode (h : hart) (ksatp hid : Z) : Prop := mkKernelMode {
  km_mode : h_mode h = Supervisor;
  km_satp : h_csr h SATP = ksatp;
  km_tp : h_reg h TP = hid;
  km_word : word ksatp ∧ word hid;
}.

(** The hart when [userret] starts. *)
Record leaving (h : hart) (p : proc) (pc : Z) : Prop := mkLeaving {
  lv_mode : h_mode h = Supervisor;
  lv_pc : h_pc h = userret_va;
  lv_stvec : h_csr h STVEC = uservec_va;
  lv_sepc : h_csr h SEPC = pc;
  lv_spp : Z.testbit (h_csr h MSTATUS) 8 = false;
  lv_spie : Z.testbit (h_csr h MSTATUS) 5 = true;
}.

Definition kframe_mem (m : mem) (tf ksatp ksp hid : Z) : mem :=
  store64 (store64 (store64 (store64 m (tf + TF_kernel_satp) ksatp) (tf + TF_kernel_sp) ksp) (tf + TF_kernel_trap) usertrap_at) (tf + TF_kernel_hartid) hid.

Lemma kframe_mem_out m tf ksatp ksp hid x :
  x < tf ∨ tf + 40 ≤ x ∨ tf + 24 ≤ x < tf + 32 → load8 (kframe_mem m tf ksatp ksp hid) x = load8 m x.
Proof. intros Hx. unfold kframe_mem, TF_kernel_satp, TF_kernel_sp, TF_kernel_trap, TF_kernel_hartid. rewrite !load8_store64_out by lia. done. Qed.

Lemma kframe_mem_ok m p ksatp hid : word ksatp → word hid → kframe (kframe_mem m (p_trapframe p) ksatp (p_kstack p + PGSIZE) hid) p ksatp hid.
Proof.
  intros H1 H2. unfold kframe_mem. split; unfold TF_kernel_satp, TF_kernel_sp, TF_kernel_trap, TF_kernel_hartid.
  - rewrite !load64_store64_out, load64_store64 by lia. by apply u64_small.
  - rewrite !load64_store64_out, load64_store64 by lia. done.
  - rewrite !load64_store64_out, load64_store64 by lia. apply u64_small, usertrap_ok.
  - rewrite load64_store64. by apply u64_small.
Qed.

Lemma usertrapret_run all s T i p b t h pl ksatp hid :
  ksr s T b t h pl → cur all T i p → kernel_mode h ksatp hid →
  wp usertrapret (λ r s', r = (TRAPFRAME, MAKE_SATP (p_pagetable p)) ∧ ∃ h',
    ksr s' (set_m (kframe_mem (mm (km T)) (p_trapframe p) ksatp (p_kstack p + PGSIZE) hid) T) false t h' pl ∧
    leaving h' p (load64 (mm (km T)) (p_trapframe p + TF_epc))) s.
Proof.
  intros Hs Hc [K1 K2 K3 [K4 K5]]. pose proof Hc as (_ & Hcp & Hp). unfold usertrapret. wp_run. eapply wp_p_myproc; [exact Hs|]. intros s1 Hs1.
  set (h1 := csr_write SSTATUS (Z.ldiff (csr_read SSTATUS h) SSTATUS_SIE) h).
  set (h2 := csr_write STVEC uservec_va h1).
  set (h3 := csr_write SSTATUS (Z.lor (Z.ldiff (csr_read SSTATUS h2) SSTATUS_SPP) SSTATUS_SPIE) h2).
  set (m' := kframe_mem (mm (km T)) (p_trapframe p) ksatp (p_kstack p + PGSIZE) hid).
  set (epc := load64 (mm (km T)) (p_trapframe p + TF_epc)).
  set (h5 := set_pc userret_va (csr_write SEPC epc h3)).
  rewrite Hcp, pslot_pptr. wp_run.
  eapply (wp_w_h (λ h, csr_write SSTATUS (Z.ldiff (csr_read SSTATUS h) SSTATUS_SIE) h)); [exact Hs1|done|intros h' E; by rewrite E|apply u64_range|].
  fold h1. intros s2 Hs2. wp_run.
  eapply (wp_w_h (csr_write STVEC uservec_va)); [exact Hs2|done|intros h' E; by rewrite E|apply u64_range|]. fold h2. intros s3 Hs3. wp_run.
  eapply wp_p_get_proc; [exact Hs3|exact Hp|]. intros s4 Hs4 bl. wp_run.
  eapply wp_r_h; [exact Hs4|intros h' E; by rewrite E|]. intros s5 Hs5. wp_run. eapply wp_p_store; [exact Hs5|]. intros s6 Hs6. wp_run.
  eapply wp_p_store; [exact Hs6|]. intros s7 Hs7. wp_run. eapply wp_p_store; [exact Hs7|]. intros s8 Hs8. wp_run.
  eapply wp_r_h; [exact Hs8|by intros h' [_ _ ? _]|]. intros s9 Hs9. wp_run. eapply wp_p_store; [exact Hs9|]. intros s10 Hs10. wp_run.
  eapply wp_r_h; [exact Hs10|intros h' E; by rewrite E|]. intros s11 Hs11. wp_run.
  eapply (wp_w_h (csr_write SSTATUS (Z.lor (Z.ldiff (csr_read SSTATUS h2) SSTATUS_SPP) SSTATUS_SPIE))); [exact Hs11|done|intros h' E; by rewrite E|apply u64_range|].
  fold h3. intros s12 Hs12. wp_run. eapply wp_p_load; [exact Hs12|]. intros s13 Hs13. wp_run.
  assert (csr_read SATP h2 = ksatp) as Esatp by exact K2. assert (h_reg h2 TP = hid) as Etp by exact K3.
  match type of Hs13 with ksr _ ?T' _ _ _ _ => assert (T' = set_m m' T) as ET by (rewrite Esatp, Etp; reflexivity) end.
  rewrite ET in *. cbn [set_m km mm set_km set_mm] in *.
  replace (load64 m' _) with epc by (symmetry; apply load64_ext; intros x Hx; apply kframe_mem_out; cbn [p_trapframe set_p_locked] in Hx; unfold TF_epc in Hx; lia).
  eapply (wp_w_h (csr_write SEPC epc)); [exact Hs13|done|intros h' E; by rewrite E|apply u64_range|]. intros s14 Hs14. wp_run.
  eapply (wp_w_h (set_pc userret_va)); [exact Hs14|done|intros h' [A B C D]; by split|apply u64_range|]. intros s15 Hs15. wp_run.
  split; [done|]. exists h5. fold h5 in Hs15.
  assert (∀ k, 0 ≤ k < 64 → Z.testbit SSTATUS_MASK k = true → Z.testbit (h_csr h5 MSTATUS) k =
    if bool_decide (k = 5) then true else if bool_decide (k = 8) then false else if bool_decide (k = 1) then false else Z.testbit (h_csr h MSTATUS) k) as Hbits.
  { intros k Hk Hm. change (h_csr h5 MSTATUS) with (h_csr h3 MSTATUS). unfold h3. rewrite sstatus_bits, Hm, Z.lor_spec, Z.ldiff_spec, sstatus_read, Hm, andb_true_r by done.
    change (h_csr h2 MSTATUS) with (h_csr h1 MSTATUS). unfold h1. rewrite sstatus_bits, Hm, Z.ldiff_spec, sstatus_read, Hm, andb_true_r by done.
    unfold SSTATUS_SPP, SSTATUS_SPIE, SSTATUS_SIE. rewrite !testbit_shiftl1 by lia. repeat case_bool_decide; subst; try lia; by destruct (Z.testbit (h_csr h MSTATUS) _). }
  rewrite Hbits in Hs15 by done. split; [exact Hs15|]. split; [exact K1|done|exact (u64_small _ uservec_ok)| |by rewrite Hbits|by rewrite Hbits].
  change (u64 epc = epc). apply u64_small, load64_range.
Qed.

Lemma set_m_same T : set_m (mm (km T)) T = T.
Proof. by destruct T as [? ? ? ? ? ? ? ? ? [] ?]. Qed.

Lemma trap_out_run all s T i p t h pl R pc junk :
  ksr s T false t h pl → leaving h p pc → cur all T i p → in_frame (p_trapframe p) R (mm (km T)) → regs_ok R → word pc →
  wp (trap_out junk (TRAPFRAME, MAKE_SATP (p_pagetable p))) (λ _ s', ∃ h', ksr s' T true t h' pl ∧ user_hart h' p R pc) s.
Proof.
  intros Hs [V1 V2 V3 V4 V5 V6] Hc Hin HR Hpc. unfold trap_out. wp_run. eapply wp_r_h; [exact Hs|by intros h' [_ ? _ _]|]. intros s1 Hs1.
  rewrite V2, Z.eqb_refl. cbn [negb fst snd]. wp_run.
  set (g := λ h, mkHart (h_mode h) (h_pc h) (λ r, match r with A0 => TRAPFRAME | A1 => MAKE_SATP (p_pagetable p) | TP => h_reg h TP | _ => junk r end) (h_csr h)).
  eapply (wp_w_h g); [exact Hs1|done| |exact (ksr_word _ _ _ _ _ _ Hs1)|].
  { intros h' [A B C D]. split; try done. intros r. destruct r; try done. apply C. }
  intros s2 Hs2. change (h_csr (g h)) with (h_csr h) in Hs2. rewrite (ksr_flag _ _ _ _ _ _ Hs) in Hs2.
  eapply wp_asm; [exact Hs2|]. intros h0 E0. destruct (cur_tf_ok _ _ _ _ Hc) as [_ [Hpt1 Hpt2]].
  assert (0 ≤ p_pagetable p < 2 ^ 56) as Hpt by (pose proof etext_ok; unfold PHYSTOP, KERNBASE in *; lia).
  assert (u64 (h_reg h0 A1) = MAKE_SATP (p_pagetable p)) as EA1 by (rewrite (heq_reg _ _ E0); exact (u64_small _ (MAKE_SATP_range _ Hpt))).
  destruct (userret_run (λ _ _, None) h0 (mm (km T)) (p_trapframe p) R) as (R' & C' & E & HR' & Csatp & Cscr & Cother).
  - exact (heq_reg _ _ E0 A0).
  - apply (cur_mapped all T i p); [exact Hc|cbn [set_csr h_mode]; rewrite (heq_mode _ _ E0); exact V1|]. rewrite csr_set, decide_True by done. exact EA1.
  - exact Hin.
  - exact HR.
  - set (h' := sret (mkHart (h_mode h0) (h_pc h0) R' C')) in *. exists h', (mm (km T)). split; [exact E|]. split; [apply u64_range|].
    assert (∀ c, c ≠ SATP → c ≠ SSCRATCH → C' c = h_csr h c) as HC by (intros c H1 H2; rewrite Cother, (heq_csr _ _ E0) by done; done).
    intros s3 Hs3. unfold h' in Hs3 at 1. rewrite sret_mstatus in Hs3 by lia. cbn [h_csr] in Hs3. rewrite HC, V6 in Hs3 by done. rewrite set_m_same in Hs3.
    exists h'. split; [exact Hs3|]. split; try done.
    + change (h_mode h') with (if Z.testbit (C' MSTATUS) 8 then Supervisor else User). by rewrite HC, V5.
    + change (h_pc h') with (C' SEPC). by rewrite HC.
    + change (h_csr h' SATP) with (C' SATP). by rewrite Csatp.
    + change (h_csr h' STVEC) with (C' STVEC). by rewrite HC.
Qed.

(** The end of a trap: [usertrapret], [userret]. *)
Lemma leave_run all s T i p b t h pl ksatp hid R junk :
  ksr s T b t h pl → cur all T i p → kernel_mode h ksatp hid → in_frame (p_trapframe p) R (mm (km T)) → regs_ok R →
  wp (r <- usertrapret ;; trap_out junk r) (λ _ s', ∃ h' m', ksr s' (set_m m' T) true t h' pl ∧
    user_hart h' p R (load64 (mm (km T)) (p_trapframe p + TF_epc)) ∧ cur all (set_m m' T) i p ∧ kframe m' p ksatp hid ∧
    ∀ x, x < p_trapframe p ∨ p_trapframe p + 40 ≤ x → load8 m' x = load8 (mm (km T)) x) s.
Proof.
  intros Hs Hc Hk Hin HR. wp_run. eapply wp_mono; [by eapply usertrapret_run|]. cbv beta. intros r s1 (-> & h1 & Hs1 & Hl).
  set (m' := kframe_mem _ _ _ _ _) in *.
  assert (∀ x, x < p_trapframe p ∨ p_trapframe p + 40 ≤ x → load8 m' x = load8 (mm (km T)) x) as Hout by (intros x Hx; apply kframe_mem_out; lia).
  assert (cur all (set_m m' T) i p) as Hc'.
  { apply cur_tf; [exact Hc|]. intros x Hx. apply Hout. destruct (Hx (p_trapframe p)); [by constructor| |]; [lia|pglia]. }
  eapply wp_mono; [eapply (trap_out_run all s1 (set_m m' T) i p t h1 pl R _ junk Hs1 Hl Hc'); [|done|apply load64_range]|].
  - intros r o Hro. cbn [set_m km mm set_km set_mm]. rewrite <-(Hin r o Hro). apply load64_ext. intros x Hx. apply Hout.
    apply elem_of_cons in Hro as [[= -> ->]|Hro]; [|apply uregs_range in Hro]; lia.
  - cbv beta. intros _ s2 (h2 & Hs2 & Hu). exists h2, m'. split; [exact Hs2|]. split; [exact Hu|]. split; [exact Hc'|]. split; [|exact Hout].
    destruct Hk as [_ _ _ [? ?]]. by apply kframe_mem_ok.
Qed.
End trapspec.
