(* ===== verification/TrapRun.v ===== *)
(** * Traps from user space, from the user's side

    A system call and a device interrupt as the user sees them: the trap, the
    assembly of trampoline.S, [usertrap], and the way back. *)

From stdpp Require Import base gmap list strings numbers.
From S2P Require Import Prelude Machine Riscv Hart KString Kalloc Vm PageTable Asm AsmSpec Uvm FreeWalk UserCopy Block Spinlock Proc Exec Syscall Trap ProcMem Trampoline ProcSpec ProcCalls ProcLife TrapSpec.

Section traprun.
Context {LY : Layout} {LO : LayoutOk} {PLY : ProcLayout} {F : Type} {FLY : FileLayer F} {FLO : FileLayerOk F} {PF : ProgFiles F}.
Context {CLY : CallLayout} {TLY : TrapLayout} {TLO : TrapLayoutOk}.
Notation pst := (pst F).
Notation kern := (kern F).
Notation tst := (tst F).
Context (filecalls : Z → option (M kern (option Z))) (uartintr virtio_disk_intr : M kern unit).
(** What compiled code leaves in the registers. *)
Context (junk : reg → Z).

(** After [usertrap]: the jump to [userret], if the process still runs. *)
Definition back (r : option (Z * Z)) : M tst bool :=
  match r with Some args => trap_out junk args ;; ret true | None => ret false end.

(** A trap from user space: whether the hart is back in user space, or the
    process gave up the CPU. *)
Definition user_trap (cause tval : Z) : M tst bool :=
  trap_in cause tval ;;
  r <- usertrap filecalls uartintr virtio_disk_intr ;;
  back r.

(** The process [p] runs in user space with the registers [R]; the kernel is at
    rest and ready for its next trap. *)
Definition user_ready (all : list Z) (s : tst) (T : pst) (i : nat) (p : proc) (R : reg → Z) (pc t : Z) (pl : plic) (ksatp hid : Z) : Prop :=
  ∃ h, ksr s T true t h pl ∧ user_hart h p R pc ∧ cur all T i p ∧ kframe (mm (km T)) p ksatp hid ∧ word ksatp ∧ word hid.

Lemma land_shiftl x k : 0 ≤ k → (Z.land x (Z.shiftl 1 k) =? 0) = negb (Z.testbit x k).
Proof.
  intros Hk. destruct (Z.testbit x k) eqn:E.
  - apply Z.eqb_neq. intros H. apply (f_equal (λ y, Z.testbit y k)) in H. rewrite Z.land_spec, testbit_shiftl1, E, Z.testbit_0_l in H by done.
    by rewrite bool_decide_true in H.
  - apply Z.eqb_eq. apply Z.bits_inj'. intros n Hn. rewrite Z.land_spec, testbit_shiftl1, Z.testbit_0_l by done. case_bool_decide; [subst; by rewrite E|apply andb_false_r].
Qed.

(** ** The end of usertrap *)

Lemma end_run all s T i p b t h pl ksatp hid R dev :
  ksr s T b t h pl → cur all T i p → kernel_mode h ksatp hid → in_frame (p_trapframe p) R (mm (km T)) → regs_ok R → p_killed p = 0 → dev ≠ 2 →
  wp (r <- usertrap_end dev ;; back r) (λ go s', go = true ∧ ∃ m',
    user_ready all s' (set_m m' T) i p R (load64 (mm (km T)) (p_trapframe p + TF_epc)) t pl ksatp hid ∧
    ∀ x, x < p_trapframe p ∨ p_trapframe p + 40 ≤ x → load8 m' x = load8 (mm (km T)) x) s.
Proof.
  intros Hs Hc Hk Hin HR Hki Hdev. pose proof Hc as (_ & Hcp & Hp). unfold usertrap_end. wp_run.
  eapply wp_p_myproc; [exact Hs|]. intros s1 Hs1. rewrite Hcp, pslot_pptr. wp_run.
  eapply wp_p_get_proc; [exact Hs1|exact Hp|]. intros s2 Hs2 bl. cbn [p_killed set_p_locked]. rewrite Hki. cbn [truthy negb Z.eqb].
  rewrite (proj2 (Z.eqb_neq dev 2)) by done. wp_run.
  pose proof (leave_run all s2 T i p b t h pl ksatp hid R junk Hs2 Hc Hk Hin HR) as Hl. apply wp_bind_inv in Hl.
  eapply wp_mono; [exact Hl|]. cbv beta. intros r s3 Ho. wp_run. unfold back. wp_run. eapply wp_mono; [exact Ho|]. cbv beta.
  intros _ s4 (h' & m' & H1 & H2 & H3 & H4 & H5). wp_run. split; [done|]. exists m'. split; [|exact H5]. exists h'. destruct Hk as [_ _ _ [? ?]]. by split_and!.
Qed.

(** ** System calls *)

(** The call that [syscall] runs; an unknown number gives -1. *)
Definition call (num : Z) : M kern (option Z) :=
  match (if (0 <? num) && (num <? 22) then syscalls filecalls num else None) with Some f => f | None => ret (Some (-1)) end.

(** What a call leaves when it returns [v]: the process [p'] still runs. *)
Definition returns all (i : nat) (post : Z → pst → proc → Z → Prop) (r : option Z) (K : kern) : Prop :=
  ∃ v T p, r = Some v ∧ rep (kp K) 0 false [] T ∧ cur all T i p ∧ p_killed p = 0 ∧ post v T p (ticks K).

Lemma wp_inp {A} (m : M pst A) Q (K : kern) : wp m (λ a P, Q a (set_kp P K)) (kp K) → wp (inp m) Q K.
Proof. intros Hm. unfold inp. by apply wp_zoom. Qed.

Lemma set_a0_run all (K : kern) T i p v :
  rep (kp K) 0 false [] T → cur all T i p →
  wp (set_a0 v) (λ _ K', rep (kp K') 0 false [] (set_m (store64 (mm (km T)) (p_trapframe p + TF_a0) v) T) ∧ ticks K' = ticks K) K.
Proof.
  intros Hr (_ & Hcp & Hp). unfold set_a0. wp_run. apply wp_inp. eapply wp_myproc; [exact Hr|lia|]. intros P1 Hr1. rewrite Hcp, pslot_pptr. wp_run.
  apply wp_inp. eapply wp_get_proc; [exact Hr1|]. intros bl. rewrite (proc_at_lookup _ _ _ Hp). wp_run. apply wp_inp. eapply wp_ink; [exact Hr1|]. wp_run.
  intros P2 Hr2. split; [exact Hr2|done].
Qed.

Lemma syscall_run all (K : kern) T i p post :
  rep (kp K) 0 false [] T → cur all T i p →
  (∀ K', rep (kp K') 0 false [] T → ticks K' = ticks K → wp (call (i32 (load64 (mm (km T)) (p_trapframe p + TF_a7)))) (returns all i post) K') →
  wp (syscall filecalls) (λ go K', go = true ∧ ∃ v T2 p2, cur all T2 i p2 ∧ p_killed p2 = 0 ∧ post v T2 p2 (ticks K') ∧
    rep (kp K') 0 false [] (set_m (store64 (mm (km T2)) (p_trapframe p2 + TF_a0) v) T2)) K.
Proof.
  intros Hr Hc Hcall. pose proof Hc as (_ & Hcp & Hp). unfold syscall. wp_run. apply wp_inp. eapply wp_myproc; [exact Hr|lia|]. intros P1 Hr1. rewrite Hcp, pslot_pptr. wp_run.
  apply wp_inp. eapply wp_get_proc; [exact Hr1|]. intros bl. rewrite (proc_at_lookup _ _ _ Hp). wp_run. apply wp_inp. eapply wp_ink; [exact Hr1|]. wp_run.
  cbn [p_trapframe set_p_locked]. set (num := i32 _) in *. intros P2 Hr2. replace (set_km (km T) T) with T in Hr2 by by destruct T.
  specialize (Hcall (set_kp P2 (set_kp P1 (set_kp P1 K))) Hr2 eq_refl). unfold call in Hcall.
  assert (∀ v T2 p2 K2, rep (kp K2) 0 false [] T2 → cur all T2 i p2 → p_killed p2 = 0 → post v T2 p2 (ticks K2) →
    wp (set_a0 v ;; ret true) (λ go K', go = true ∧ ∃ v T2 p2, cur all T2 i p2 ∧ p_killed p2 = 0 ∧ post v T2 p2 (ticks K') ∧
      rep (kp K') 0 false [] (set_m (store64 (mm (km T2)) (p_trapframe p2 + TF_a0) v) T2)) K2) as Hend.
  { intros v T2 p2 K2 Hr3 Hc2 Hk2 Hpost. wp_run. eapply wp_mono; [by eapply set_a0_run|]. cbv beta. intros _ K3 (Hr4 & Et). wp_run. split; [done|].
    exists v, T2, p2. rewrite Et. done. }
  destruct (if (0 <? num) && (num <? 22) then syscalls filecalls num else None) as [f|].
  - wp_run. eapply wp_mono; [exact Hcall|]. cbv beta. intros r K2 (v & T2 & p2 & -> & H1 & H2 & H3 & H4). by eapply Hend.
  - destruct Hcall as (v & T2 & p2 & [= <-] & H1 & H2 & H3 & H4). exact (Hend _ _ _ _ H1 H2 H3 H4).
Qed.

(** ** The beginning of usertrap *)

(** The rest of [usertrap], once the program counter is saved. *)
Definition usertrap_rest (me : Z) : M tst (option (Z * Z)) :=
  scause <- onh r_scause ;;
  if scause =? 8 then
    p <- onp (get_proc (pslot me)) ;;
    if truthy (p_killed p) then onp (exit (-1)) ;; ret None
    else
      epc <- onp (ink (kload64 (p_trapframe p + TF_epc))) ;;
      onp (ink (kstore64 (p_trapframe p + TF_epc) (epc + 4))) ;;
      onh intr_on ;;
      go <- onk (syscall filecalls) ;;
      if go : bool then usertrap_end 0 else ret None
  else
    which_dev <- devintr uartintr virtio_disk_intr ;;
    (if which_dev =? 0 then onp (set_proc (pslot me) (set_p_killed 1)) else ret tt) ;;
    usertrap_end which_dev.

Lemma kernel_mode_csr h ksatp hid pc cause : kernel_hart h ksatp hid pc cause → word ksatp → word hid → kernel_mode h ksatp hid.
Proof. by intros [? ? ? ? ? ?]. Qed.

Lemma kernel_mode_write h ksatp hid c x : kernel_mode h ksatp hid → c ≠ SATP → kernel_mode (csr_write c x h) ksatp hid.
Proof. intros [K1 K2 K3 K4] Hc. split; destruct c; try done. Qed.

Lemma usertrap_start all Q s T i p t h pl ksatp hid pc cause :
  ksr s T false t h pl → cur all T i p → kernel_hart h ksatp hid pc cause → word ksatp → word hid →
  (∀ s' h', ksr s' (set_m (store64 (mm (km T)) (p_trapframe p + TF_epc) pc) T) false t h' pl → kernel_mode h' ksatp hid →
    h_csr h' SCAUSE = u64 cause → wp (usertrap_rest (pptr i)) Q s') →
  wp (usertrap filecalls uartintr virtio_disk_intr) Q s.
Proof.
  intros Hs (_ & Hcp & Hp) Hk W1 W2 HQ. pose proof (kernel_mode_csr _ _ _ _ _ Hk W1 W2) as Hkm. unfold usertrap. wp_run.
  eapply wp_r_h; [exact Hs|intros h' E; by rewrite E|]. intros s1 Hs1. unfold SSTATUS_SPP at 1. rewrite land_shiftl, sstatus_read, (kh_spp _ _ _ _ _ Hk) by done. cbn [andb negb]. wp_run.
  pose proof (ksr_flag _ _ _ _ _ _ Hs) as Hb.
  eapply (wp_w_h (csr_write STVEC kernelvec_at)); [exact Hs1|done|intros h' E; by rewrite E|exact (ksr_word _ _ _ _ _ _ Hs)|]. intros s2 Hs2.
  change (h_csr (csr_write STVEC kernelvec_at h) MSTATUS) with (h_csr h MSTATUS) in Hs2. rewrite Hb in Hs2. wp_run.
  eapply wp_p_myproc; [exact Hs2|]. intros s3 Hs3. rewrite Hcp, pslot_pptr. wp_run.
  eapply wp_p_get_proc; [exact Hs3|exact Hp|]. intros s4 Hs4 bl. wp_run.
  eapply wp_r_h; [exact Hs4|intros h' E; by rewrite E|]. intros s5 Hs5. wp_run. eapply wp_p_store; [exact Hs5|]. intros s6 Hs6.
  change (csr_read SEPC (csr_write STVEC kernelvec_at h)) with (h_csr h SEPC) in Hs6. rewrite (kh_sepc _ _ _ _ _ Hk) in Hs6.
  pose proof (HQ s6 (csr_write STVEC kernelvec_at h) Hs6 (kernel_mode_write _ _ _ STVEC _ Hkm ltac:(done)) (kh_scause _ _ _ _ _ Hk)) as H.
  unfold usertrap_rest in H. rewrite pslot_pptr in H. exact H.
Qed.

Lemma frame_epc all T i p v : cur all T i p → cur all (set_m (store64 (mm (km T)) (p_trapframe p + TF_epc) v) T) i p.
Proof.
  intros Hc. apply cur_tf; [exact Hc|]. intros x Hx. apply load8_store64_out. destruct (Hx (p_trapframe p)); [by constructor| |]; unfold TF_epc; [lia|pglia].
Qed.

Lemma in_frame_epc tf R m v : in_frame tf R m → in_frame tf R (store64 m (tf + TF_epc) v).
Proof.
  intros Hin r o Hro. rewrite <-(Hin r o Hro). apply load64_store64_out. unfold TF_epc.
  apply elem_of_cons in Hro as [[= -> ->]|Hro]; [|apply uregs_range in Hro]; lia.
Qed.

(** From user space to the place where [usertrap] looks at the cause. *)
Lemma enter_run all Q s T i p R pc t pl ksatp hid cause tval :
  user_ready all s T i p R pc t pl ksatp hid →
  (∀ s' h' m, ksr s' (set_m m T) false t h' pl → cur all (set_m m T) i p → kernel_mode h' ksatp hid → h_csr h' SCAUSE = u64 cause →
    in_frame (p_trapframe p) R m → load64 m (p_trapframe p + TF_epc) = pc →
    (∀ x, x < p_trapframe p ∨ p_trapframe p + PGSIZE ≤ x → load8 m x = load8 (mm (km T)) x) →
    wp (r <- usertrap_rest (pptr i) ;; back r) Q s') →
  wp (user_trap cause tval) Q s.
Proof.
  intros (h & Hs & Hu & Hc & Hk & W1 & W2) HQ. unfold user_trap. wp_run. eapply wp_mono; [by eapply trap_in_run|]. cbv beta. intros _ s1 (h1 & m1 & Hs1 & Hkh & Hin & Hout).
  assert (cur all (set_m m1 T) i p) as Hc1.
  { apply cur_tf; [exact Hc|]. intros x Hx. apply Hout. destruct (Hx (p_trapframe p)); [by constructor| |]; [lia|pglia]. }
  apply wp_bind. eapply usertrap_start; [exact Hs1|exact Hc1|exact Hkh|exact W1|exact W2|]. cbn [set_m km mm set_km set_mm]. intros s2 h2 Hs2 Hkm Hsc.
  set (m2 := store64 m1 (p_trapframe p + TF_epc) pc) in *. change (set_km _ _) with (set_m m2 T) in Hs2. apply wp_bind_inv. apply (HQ s2 h2 m2); try done.
  - exact (frame_epc all (set_m m1 T) i p pc Hc1).
  - by apply in_frame_epc.
  - unfold m2. rewrite load64_store64. apply u64_small, Hu.
  - intros x Hx. unfold m2. rewrite load8_store64_out by (unfold TF_epc; pglia). apply Hout. pglia.
Qed.

(** The process [p] returns to user space with what is in its trapframe. *)
Lemma frame_back all s T i p b t h pl ksatp hid m dev :
  ksr s (set_m m T) b t h pl → cur all T i p → kernel_mode h ksatp hid → p_killed p = 0 → dev ≠ 2 →
  (∀ x, x < p_trapframe p ∨ p_trapframe p + PGSIZE ≤ x → load8 m x = load8 (mm (km T)) x) →
  wp (r <- usertrap_end dev ;; back r) (λ go s', go = true ∧ ∃ m', user_ready all s' (set_m m' T) i p (frame_at (p_trapframe p) m)
    (load64 m (p_trapframe p + TF_epc)) t pl ksatp hid ∧ ∀ x, x < p_trapframe p ∨ p_trapframe p + PGSIZE ≤ x → load8 m' x = load8 (mm (km T)) x) s.
Proof.
  intros Hs Hc Hk Hki Hd Hout. assert (cur all (set_m m T) i p) as Hc' by (apply cur_tf; [exact Hc|]; intros x Hx; apply Hout, Hx; by constructor).
  eapply wp_mono; [exact (end_run all s _ i p _ _ _ pl ksatp hid _ dev Hs Hc' Hk (in_frame_at _ m) (frame_at_ok _ _) Hki Hd)|]. cbv beta.
  intros go s' (-> & m' & Hur & Ho). split; [done|]. exists m'. split; [exact Hur|]. intros x Hx. rewrite Ho by pglia. by apply Hout.
Qed.

Lemma syscall_trap all s T i p R pc t pl ksatp hid tval post :
  user_ready all s T i p R pc t pl ksatp hid → p_killed p = 0 →
  (∀ K m, rep (kp K) 0 false [] (set_m m T) → ticks K = t → cur all (set_m m T) i p → in_frame (p_trapframe p) R m →
    load64 m (p_trapframe p + TF_epc) = u64 (pc + 4) →
    (∀ x, x < p_trapframe p ∨ p_trapframe p + PGSIZE ≤ x → load8 m x = load8 (mm (km T)) x) →
    wp (call (i32 (R A7))) (returns all i post) K) →
  wp (user_trap 8 tval) (λ go s', go = true ∧ ∃ v T2 p2 t2, post v T2 p2 t2 ∧ p_killed p2 = 0 ∧
    ∃ m', user_ready all s' (set_m m' T2) i p2 (frame_at (p_trapframe p2) (store64 (mm (km T2)) (p_trapframe p2 + TF_a0) v))
      (load64 (mm (km T2)) (p_trapframe p2 + TF_epc)) t2 pl ksatp hid ∧
      ∀ x, x < p_trapframe p2 ∨ p_trapframe p2 + PGSIZE ≤ x → load8 m' x = load8 (mm (km T2)) x) s.
Proof.
  intros Hur Hki Hcall. eapply enter_run; [exact Hur|]. intros s2 h2 m1 Hs2 Hc1 Hkm Hsc Hin Epc Hout.
  set (m2 := store64 m1 (p_trapframe p + TF_epc) (pc + 4)). pose proof (in_frame_epc _ _ _ (pc + 4) Hin : in_frame _ _ m2) as Hin2.
  assert (cur all (set_m m2 T) i p) as Hc2 by exact (frame_epc all (set_m m1 T) i p (pc + 4) Hc1).
  assert (∀ x, x < p_trapframe p ∨ p_trapframe p + PGSIZE ≤ x → load8 m2 x = load8 (mm (km T)) x) as Hout2.
  { intros x Hx. unfold m2. rewrite load8_store64_out by (unfold TF_epc; pglia). by apply Hout. }
  unfold usertrap_rest. wp_run. eapply wp_r_h; [exact Hs2|intros h' E; by rewrite E|]. intros s3 Hs3.
  change (csr_read SCAUSE h2) with (h_csr h2 SCAUSE). rewrite Hsc, pslot_pptr. change (u64 8 =? 8) with true. cbv iota. wp_run.
  pose proof Hc1 as (_ & _ & Hp). eapply wp_p_get_proc; [exact Hs3|exact Hp|]. intros s4 Hs4 bl. cbn [p_killed p_trapframe set_p_locked]. rewrite Hki. cbn [truthy negb Z.eqb]. wp_run.
  eapply wp_p_load; [exact Hs4|]. intros s5 Hs5. cbn [set_m km mm set_km set_mm]. rewrite Epc. wp_run.
  eapply wp_p_store; [exact Hs5|]. intros s6 Hs6. change (ksr s6 (set_m m2 T) false t h2 pl) in Hs6. wp_run.
  set (h3 := csr_write SSTATUS (Z.lor (csr_read SSTATUS h2) SSTATUS_SIE) h2).
  eapply (wp_w_h (λ h, csr_write SSTATUS (Z.lor (csr_read SSTATUS h) SSTATUS_SIE) h)); [exact Hs6|done|intros h' E; by rewrite E|apply u64_range|]. fold h3.
  intros s7 (K & Hs7 & Hr & _ & Ht). wp_run. eapply wp_k; [exact Hs7|].
  eapply wp_mono; [eapply (syscall_run all K (set_m m2 T) i p post Hr Hc2)|].
  { intros K' Hr' Ht'. cbn [set_m km mm set_km set_mm]. change TF_a7 with 168. rewrite (Hin2 A7 168) by (right; rewrite list_elem_of_In; cbn; tauto).
    apply (Hcall K' m2 Hr'); [congruence|exact Hc2|exact Hin2| |exact Hout2]. unfold m2. by rewrite load64_store64. }
  cbv beta. intros go K2 (-> & v & T2 & p2 & Hcu & Hk2 & Hpost & Hr2) s8 Hs8.
  set (m3 := store64 (mm (km T2)) (p_trapframe p2 + TF_a0) v) in *.
  assert (ksr s8 (set_m m3 T2) (kflag K2) (ticks K2) (hflag (kflag K2) h3) pl) as Hs9 by (by exists K2).
  assert (kernel_mode (hflag (kflag K2) h3) ksatp hid) as Hkm3 by (destruct Hkm as [A1 A2 A3 A4]; by split).
  apply wp_bind_inv. eapply wp_mono; [eapply (frame_back all s8 T2 i p2 _ _ _ pl ksatp hid m3 0 Hs9 Hcu Hkm3 Hk2 ltac:(lia)); intros x Hx; apply load8_store64_out; unfold TF_a0; pglia|].
  cbv beta. intros go s10 (-> & m4 & Hur4 & Hout4). split; [done|]. exists v, T2, p2, (ticks K2). split; [exact Hpost|]. split; [exact Hk2|]. exists m4.
  replace (load64 m3 (p_trapframe p2 + TF_epc)) with (load64 (mm (km T2)) (p_trapframe p2 + TF_epc)) in Hur4
    by (symmetry; apply load64_store64_out; unfold TF_epc, TF_a0; lia). done.
Qed.


Lemma getpid_run (K : kern) T i p :
  rep (kp K) 0 false [] T → c_proc T = pptr i → procs T !! i = Some p →
  wp (inp sys_getpid) (λ r K', r = Some (p_pid p) ∧ rep (kp K') 0 false [] T ∧ ticks K' = ticks K) K.
Proof.
  intros Hr Hc Hp. apply wp_inp. unfold sys_getpid. wp_run. eapply wp_myproc; [exact Hr|lia|]. intros P1 Hr1. rewrite Hc, pslot_pptr. wp_run.
  eapply wp_get_proc; [exact Hr1|]. intros bl. wp_run. by rewrite (proc_at_lookup _ _ _ Hp).
Qed.

(** ** Device interrupts *)

Definition EXTERNAL : Z := 9223372036854775817.

Definition handler (irq : Z) : M kern unit :=
  if irq =? UART0_IRQ then uartintr else if irq =? VIRTIO0_IRQ then virtio_disk_intr else ret tt.

Lemma wp_plic {A} (m : M plic A) (Q : A → tst → Prop) s T b t h pl :
  ksr s T b t h pl → wp m (λ a pl', ∀ s', ksr s' T b t h pl' → Q a s') pl → wp (onplic m) Q s.
Proof.
  intros (K & (HK & Hpl & Eh & Hw) & H) Hm. unfold onplic. apply wp_zoom. rewrite Hpl. eapply wp_mono; [exact Hm|]. cbv beta. intros a pl' HQ. apply HQ.
  exists K. split; [|exact H]. by split_and!.
Qed.

Lemma filter_keeps (irq : Z) (l : list Z) : irq ∉ l → filter (λ x, x ≠ irq) l = l.
Proof.
  induction l as [|x l IH]; intros Hn; [done|]. apply not_elem_of_cons in Hn as [Hx Hn]. rewrite filter_cons_True by done. by rewrite IH.
Qed.

Lemma is_claim_at hid : 0 ≤ hid → is_claim (PLIC_SCLAIM hid) = true.
Proof.
  intros Hh. unfold is_claim, PLIC_SCLAIM. rewrite (proj2 (Z.leb_le _ _)) by lia. cbn [andb]. apply Z.eqb_eq.
  replace (_ - _) with (hid * 8192) by lia. by apply Z.mod_mul.
Qed.

Lemma wp_cpuid (Q : Z → tst → Prop) s T b t h pl hid :
  ksr s T b t h pl → h_reg h TP = hid → 0 ≤ hid < 8 → (∀ s', ksr s' T b t h pl → Q hid s') → wp cpuid Q s.
Proof.
  intros Hs Htp Hh HQ. unfold cpuid. wp_run. eapply wp_r_h; [exact Hs|by intros h' [_ _ ? _]|]. intros s1 Hs1. wp_run. rewrite Htp, i32_small by lia. by apply HQ.
Qed.

(** [devintr] serves one interrupt of a device: it claims it, runs the handler and
    completes it. *)
Lemma devintr_run s T b t h regs irq rest claimed hid (post : pst → Z → Prop) :
  ksr s T b t h (mkPlic regs (irq :: rest) claimed) → h_csr h SCAUSE = EXTERNAL → h_reg h TP = hid → 0 ≤ hid < 8 →
  0 < irq < 2147483648 → irq ∉ claimed →
  (∀ K, rep (kp K) 0 false [] T → ticks K = t → wp (handler irq) (λ _ K', ∃ T', rep (kp K') 0 false [] T' ∧ post T' (ticks K')) K) →
  wp (devintr uartintr virtio_disk_intr) (λ r s', r = 1 ∧ ∃ T' b' t', ksr s' T' b' t' (hflag b' h) (mkPlic regs rest claimed) ∧ post T' t') s.
Proof.
  intros Hs Hsc Htp Hh Hirq Hn Hh'. unfold devintr. wp_run. eapply wp_r_h; [exact Hs|intros h' E; by rewrite E|]. intros s1 Hs1.
  change (csr_read SCAUSE h) with (h_csr h SCAUSE). rewrite Hsc. change (negb (Z.land EXTERNAL 9223372036854775808 =? 0) && (Z.land EXTERNAL 255 =? 9)) with true. cbv iota. unfold plic_claim. wp_run.
  eapply wp_cpuid; [exact Hs1|exact Htp|exact Hh|]. intros s2 Hs2. wp_run. eapply wp_plic; [exact Hs2|]. unfold plic_load. wp_run. rewrite is_claim_at by lia. cbn [pl_pending]. wp_run.
  cbn [pl_regs pl_claimed]. intros s3 (K & Hs3 & Hr & _ & Ht). wp_run. rewrite i32_small by lia.
  assert (wp (onk (handler irq)) (λ _ s4, ∃ T' b' t', ksr s4 T' b' t' (hflag b' h) (mkPlic regs rest (irq :: claimed)) ∧ post T' t') s3) as Hw.
  { eapply wp_k; [exact Hs3|]. eapply wp_mono; [by apply Hh'|]. cbv beta. intros _ K' (T' & Hr' & Hp) s4 Hs4. exists T', (kflag K'), (ticks K'). split; [|exact Hp].
    exists K'. by split. }
  match goal with |- wp ?c ?Q _ => assert (wp (onk (handler irq)) Q s3) as Hgoal end.
  { eapply wp_mono; [exact Hw|]. cbv beta. intros _ s4 (T' & b' & t' & Hs4 & Hp). wp_run. unfold truthy. rewrite (proj2 (Z.eqb_neq irq 0)) by lia. cbn [negb].
    unfold plic_complete. wp_run. eapply wp_cpuid; [exact Hs4|exact Htp|exact Hh|]. intros s5 Hs5.
    eapply wp_plic; [exact Hs5|]. unfold plic_store. rewrite is_claim_at by lia. wp_run. cbn [pl_regs pl_pending pl_claimed]. intros s6 Hs6. wp_run. split; [done|].
    exists T', b', t'. split; [|exact Hp]. rewrite filter_cons_False in Hs6 by (intros H; by apply H).
    rewrite filter_keeps in Hs6 by done. exact Hs6. }
  unfold handler in Hgoal. destruct (irq =? UART0_IRQ); [exact Hgoal|]. destruct (irq =? VIRTIO0_IRQ); [exact Hgoal|].
  unfold onk in Hgoal. apply wp_ret. destruct s3. exact Hgoal.
Qed.

(** C7. An interrupt of a device is invisible to the user program that it
    interrupts: if the handler of the device leaves the trapframe of the process
    alone and does not kill it, the process goes on at the same instruction with
    the same registers.  The interrupt controller handed out the first interrupt
    that waited, and its claim is completed, so that the device can interrupt again;
    the other interrupts still wait. *)
Theorem device_interrupt_transparent all s T i p R pc t ksatp hid tval regs irq rest claimed (post : pst → Z → Prop) :
  user_ready all s T i p R pc t (mkPlic regs (irq :: rest) claimed) ksatp hid → p_killed p = 0 → 0 ≤ hid < 8 →
  0 < irq < 2147483648 → irq ∉ claimed →
  (∀ K m, rep (kp K) 0 false [] (set_m m T) → ticks K = t → cur all (set_m m T) i p → wp (handler irq) (λ _ K', ∃ T',
    rep (kp K') 0 false [] T' ∧ cur all T' i p ∧ agree m (mm (km T')) (p_trapframe p) PGSIZE ∧ post T' (ticks K')) K) →
  ∃ s' T' t' m', user_trap EXTERNAL tval s = OK true s' ∧ post T' t' ∧
    user_ready all s' (set_m m' T') i p R pc t' (mkPlic regs rest claimed) ksatp hid ∧
    ∀ x, x < p_trapframe p ∨ p_trapframe p + PGSIZE ≤ x → load8 m' x = load8 (mm (km T')) x.
Proof.
  intros Hur Hki Hh Hirq Hn Hhan.
  assert (wp (user_trap EXTERNAL tval) (λ go s', go = true ∧ ∃ T' t' m', post T' t' ∧ user_ready all s' (set_m m' T') i p R pc t' (mkPlic regs rest claimed) ksatp hid ∧
    ∀ x, x < p_trapframe p ∨ p_trapframe p + PGSIZE ≤ x → load8 m' x = load8 (mm (km T')) x) s) as Hw.
  { pose proof Hur as (h0 & _ & Hu & _). eapply enter_run; [exact Hur|]. intros s2 h2 m1 Hs2 Hc1 Hkm Hsc Hin Epc Hout.
    unfold usertrap_rest. wp_run. eapply wp_r_h; [exact Hs2|intros h' E; by rewrite E|]. intros s3 Hs3.
    change (csr_read SCAUSE h2) with (h_csr h2 SCAUSE). rewrite Hsc. change (u64 EXTERNAL =? 8) with false. cbv iota. wp_run.
    eapply wp_mono; [eapply (devintr_run s3 (set_m m1 T) false t h2 regs irq rest claimed hid
      (λ T' t', cur all T' i p ∧ agree m1 (mm (km T')) (p_trapframe p) PGSIZE ∧ post T' t')); try done; [by apply Hkm|]|].
    { intros K Hr Ht. by apply Hhan. }
    cbv beta. intros r s4 (-> & T' & b' & t' & Hs4 & Hc' & Ha & Hpost). cbn [Z.eqb]. wp_run. apply wp_bind_inv.
    assert (kernel_mode (hflag b' h2) ksatp hid) as Hkm' by (destruct Hkm as [A1 A2 A3 A4]; by split).
    assert (in_frame (p_trapframe p) R (mm (km T'))) as Hin'.
    { intros r o Hro. rewrite <-(Hin r o Hro). apply load64_ext. intros x Hx. apply Ha.
      apply elem_of_cons in Hro as [[= -> ->]|Hro]; [|apply uregs_range in Hro]; pglia. }
    eapply wp_mono; [eapply (end_run all s4 T' i p b' t' _ _ ksatp hid R 1 Hs4 Hc' Hkm' Hin' (uh_regs _ _ _ _ Hu) Hki); lia|]. cbv beta.
    intros go s5 (-> & m' & Hur' & Ho). split; [done|]. exists T', t', m'. split; [exact Hpost|]. split; [|intros x Hx; apply Ho; pglia].
    replace pc with (load64 (mm (km T')) (p_trapframe p + TF_epc)); [exact Hur'|]. rewrite <-Epc. apply load64_ext. intros x Hx. apply Ha. unfold TF_epc in Hx. pglia. }
  apply wp_run_OK in Hw as (go & s' & E & -> & T' & t' & m' & H1 & H2 & H3). by exists s', T', t', m'.
Qed.
End traprun.

(** ** init in user space *)

Section ex.
#[local] Existing Instances ex16_layout ex16_layout_ok ex_proc_layout ex_proc_layout_ok exfl_layer exfl_ok.
#[local] Instance ex_files : ProgFiles exfl := {|
  pf_namei _ := ret 0;
  pf_ilock _ := ret tt;
  pf_readi _ _ _ := ret [];
  pf_iunlockput _ := ret tt;
|}.
#[local] Instance ex_call_layout : CallLayout :=
  {| path_at := KERNBASE + 65536; uarg_at := KERNBASE + 65664; ustack_at := KERNBASE + 69632; tickslock_at := 1; ticks_at := KERNBASE + 73728 |}.
#[local] Instance ex_trap_layout : TrapLayout :=
  {| kernelvec_at := KERNBASE + 16; usertrap_at := KERNBASE + 32; uservec_at := KERNBASE + PGSIZE; userret_at := KERNBASE + PGSIZE + 144 |}.
#[local] Instance ex_trap_layout_ok : TrapLayoutOk.
Proof. split; vm_compute; split; discriminate || reflexivity. Qed.

Definition ex_p : proc := proc_at (ex_boot RUNNING 1) 0.
Definition ex_ksatp : Z := MAKE_SATP (KERNBASE + 3 * PGSIZE).
Definition ex_T : pst exfl :=
  set_m (kframe_mem (mm (km (ex_boot RUNNING 1))) (p_trapframe ex_p) ex_ksatp (p_kstack ex_p + PGSIZE) 0) (ex_boot RUNNING 1).
(** It calls [getpid]. *)
Definition ex_R (r : reg) : Z := match r with A7 => SYS_getpid | S1 => 77 | _ => 5 end.
Definition ex_uhart : hart :=
  mkHart User 4096 ex_R (λ c, match c with SATP => MAKE_SATP (p_pagetable ex_p) | SSCRATCH => TRAPFRAME | STVEC => uservec_va | MSTATUS => 34 | _ => 0 end).
Definition ex_user (pl : plic) : tst exfl := mkT (mkKern (set_c_cpu (mkCpu true 0 true) ex_T) 5) ex_uhart pl.

Lemma ex_cur : cur ex_pages ex_T 0 ex_p.
Proof.
  destruct (ex_boot_inv RUNNING 1) as [_ Hi]; [by right|]. apply cur_tf.
  - split; [exact Hi|]. split; [vm_compute; reflexivity|]. destruct (lookup_lt_is_Some_2 (procs (ex_boot RUNNING 1)) 0) as [p Hp]; [rewrite (inv_length _ _ _ Hi); lia|].
    unfold ex_p. rewrite (proc_at_lookup _ _ _ Hp). exact Hp.
  - intros x Hx. apply kframe_mem_out. destruct (Hx (p_trapframe ex_p)); [by constructor|by left|right; left; pglia].
Qed.

Lemma ex_user_ready pl : user_ready ex_pages (ex_user pl) ex_T 0 ex_p ex_R 4096 5 pl ex_ksatp 0.
Proof.
  exists (the_hart (ex_user pl)). split; [|split; [|split; [exact ex_cur|split; [|split]]]].
  - exists (tk (ex_user pl)). split; [exact (tsr_self (ex_user pl))|]. split; [|split; reflexivity].
    destruct (ex_boot_inv RUNNING 1) as [Hs _]; [by right|]. change (kp (tk (ex_user pl))) with (set_c_cpu (mkCpu true 0 true) ex_T).
    apply (rep_cpu _ 0); [|split; [cbn; lia|cbn; lia]|reflexivity]. unfold ex_T. apply rep_set_m. exact Hs.
  - split; try reflexivity.
    + intros r. destruct r; vm_compute; split; discriminate || reflexivity.
    + vm_compute. split; discriminate || reflexivity.
  - apply kframe_mem_ok; vm_compute; split; discriminate || reflexivity.
  - vm_compute. split; discriminate || reflexivity.
  - vm_compute. split; discriminate || reflexivity.
Qed.

Lemma ex_S1 : (S1, 104) ∈ uregs.
Proof. rewrite list_elem_of_In. cbn. tauto. Qed.
Lemma ex_killed : p_killed ex_p = 0.
Proof. vm_compute. reflexivity. Qed.


(** An interrupt of the UART, whose handler finds nothing to do. *)
Lemma device_interrupt_transparent_witness :
  ∃ s' T' m', user_trap (λ _, None) (ret tt) (ret tt) (λ _, 0) EXTERNAL 0 (ex_user (mkPlic ∅ [UART0_IRQ; VIRTIO0_IRQ] [])) = OK true s' ∧
    user_ready ex_pages s' (set_m m' T') 0 ex_p ex_R 4096 5 (mkPlic ∅ [VIRTIO0_IRQ] []) ex_ksatp 0.
Proof.
  destruct (device_interrupt_transparent (λ _, None) (ret tt) (ret tt) (λ _, 0) ex_pages (ex_user (mkPlic ∅ [UART0_IRQ; VIRTIO0_IRQ] [])) ex_T 0 ex_p ex_R 4096 5 ex_ksatp 0 0
    ∅ UART0_IRQ [VIRTIO0_IRQ] [] (λ _ t', t' = 5) (ex_user_ready _) ex_killed) as (s' & T' & t' & m' & E & -> & Hu & _).
  - lia.
  - unfold UART0_IRQ. lia.
  - apply not_elem_of_nil.
  - intros K m Hrep Ht Hc. apply wp_ret. exists (set_m m ex_T). split; [exact Hrep|]. split; [exact Hc|]. split; [intros x _; reflexivity|exact Ht].
  - exists s', T', m'. split; [exact E|exact Hu].
Defined.
End ex.
