(* ===== verification/ExecRun.v ===== *)
(** * exec keeps its promise

    The parts of [exec] run against [program]: the segments, the stack, the
    commit.  [exec] either fails, and the processes and their memory are as they
    were, or the process has the image that the file describes. *)

From stdpp Require Import base gmap list strings numbers.
From S2P Require Import Prelude Machine Riscv KString Kalloc Vm PageTable Uvm FreeWalk UserCopy Block Spinlock Proc ProcMem ProcSpec ProcCalls ProcFork ProcLife Exec ExecMem ExecSpec.

Section run.
Context {LY : Layout} {LO : LayoutOk} {PLY : ProcLayout} {PLO : ProcLayoutOk}.
Context {F : Type} {FLY : FileLayer F} {FLO : FileLayerOk F} {PF : ProgFiles F} {PFO : ProgFilesOk F}.
Notation pst := (pst F).

(** The table, the free pages, the trapframe, [ustack], the open file. *)
Context (T : pst) (F0 : list Z) (tf us ip : Z) (data fs ds : list Z).
Hypothesis Hus : apart F0 us 256.
Hypothesis Hbytes : Forall (λ b, 0 ≤ b < 256) data.
Hypothesis Hlen : Z.of_nat (length data) < 2 ^ 31.

(** The kernel is at rest, with the memory [k] and the files [f]. *)
Definition at_rest (s : pst) (k : kst) (f : F) : Prop := rep s 0 false [] (set_fl f (set_km k T)).
Notation bd := (building (km T) F0 tf us).

Lemma wp_mem {A} Q (m : M kst A) s k f :
  at_rest s k f → wp m (λ a k', ∀ s', at_rest s' k' f → Q a s') k → wp (ink m) Q s.
Proof. intros Hs Hm. eapply wp_ink; [exact Hs|]. exact Hm. Qed.

Lemma wp_files {A} Q (m : M F A) s k f :
  at_rest s k f → wp m (λ a f', ∀ s', at_rest s' k f' → Q a s') f → wp (infl m) Q s.
Proof. intros Hs Hm. eapply wp_infl; [exact Hs|]. exact Hm. Qed.

(** ** A segment *)

(** [readi] to the page of a user's address. *)
Lemma kreadi_run s k f pt n Fr B va pa off m :
  at_rest s k f → pf_open f ip data fs ds → bd pt k n Fr B → 0 ≤ va → va mod PGSIZE = 0 →
  uaddr (mm k) pt va = Some pa → 0 ≤ off < 2 ^ 32 → 0 < m ≤ PGSIZE →
  wp (kreadi ip pa off m) (λ r s', r = Z.of_nat (length (file_bytes data off m)) ∧ ∃ k' f',
    at_rest s' k' f' ∧ pf_open f' ip data fs ds ∧ bd pt k' n Fr (put va (file_bytes data off m) B)) s.
Proof.
  intros Hs Hf Hb Hva Hal Hpa Hoff Hm. unfold kreadi. wp_run. eapply wp_files; [exact Hs|].
  eapply wp_mono; [apply (pf_readi_ok f ip data fs ds off m); [done|done|lia]|]. cbv beta. intros l f' [-> Hf'] s1 Hs1. wp_run.
  eapply wp_mem; [exact Hs1|]. unfold kpoke. eapply wp_intro; [reflexivity|]. cbv beta. intros s2 Hs2. wp_run. split; [done|].
  eexists _, f'. split; [exact Hs2|]. split; [done|]. apply (bd_poke (km T) F0 tf us Hus pt k n Fr B va pa); try done.
  - destruct (file_bytes_full data off m Hoff ltac:(lia) Hlen) as [(E & _)|(_ & _ & E)]; lia.
  - by apply file_bytes_bytes.
Qed.

Definition readable (n : Z) (B : contents) : Prop := ∀ x, 0 ≤ x < n * PGSIZE → is_Some (B x).

Lemma loadseg_run s k f pt n Fr B va off sz :
  at_rest s k f → pf_open f ip data fs ds → bd pt k n Fr B → readable n B →
  0 ≤ va → va mod PGSIZE = 0 → 0 ≤ sz → va + sz ≤ n * PGSIZE → n * PGSIZE ≤ RAM → 0 ≤ off < 2 ^ 32 →
  wp (loadseg pt va ip off sz) (λ r s', ∃ k' f' B', at_rest s' k' f' ∧ pf_open f' ip data fs ds ∧ bd pt k' n Fr B' ∧
    (r = 0 ∧ (sz = 0 ∨ off + sz ≤ Z.of_nat (length data)) ∧ readable n B' ∧ (∀ x, B' x = put va (rd_bytes off sz data) B x) ∨
     r = -1 ∧ sz ≠ 0 ∧ Z.of_nat (length data) < off + sz)) s.
Proof.
  intros Hs Hf Hb HB Hva Hal Hsz Hn Hram Hoff. unfold loadseg, RAM in *.
  assert (∀ x, put va (rd_bytes off 0 data) B x = B x) as Hz by (intros x; apply put_nil).
  eapply (wp_loop (λ i s', ∃ k' f' B', 0 ≤ i < sz + PGSIZE ∧ i mod PGSIZE = 0 ∧ at_rest s' k' f' ∧ pf_open f' ip data fs ds ∧
      bd pt k' n Fr B' ∧ (i = 0 ∨ off + Z.min i sz ≤ Z.of_nat (length data)) ∧ readable n B' ∧
      ∀ x, B' x = put va (rd_bytes off (Z.min i sz) data) B x)
    (λ i _, Z.to_nat ((sz + PGSIZE - i) / PGSIZE))).
  - pglia.
  - exists k, f, B. split; [pglia|]. split; [done|]. do 3 (split; [done|]). split; [by left|]. split; [done|].
    intros x. rewrite Z.min_l by lia. by rewrite Hz.
  - clear s k f Hs Hf Hb. intros i s (k & f & B1 & Hi & Hia & Hs & Hf & Hb & Ho & HB1 & E1). unfold loadseg_turn.
    destruct (Z.ltb_spec i sz) as [Hlt|Hge]; wp_run.
    2: { exists k, f, B1. do 3 (split; [done|]). left. rewrite Z.min_r in Ho, E1 by lia. split; [done|]. split; [lia|]. done. }
    assert (∃ pa, uaddr (mm k) pt (va + i) = Some pa) as [pa Hpa].
    { destruct (HB1 (va + i) ltac:(lia)) as [b E]. rewrite <-(bd_mem _ _ _ _ _ _ _ _ _ Hb) in E by lia. unfold umem in E.
      destruct (uaddr (mm k) pt (va + i)) as [pa|]; [by exists pa|done]. }
    pose proof (uspace_umap _ _ _ _ (bd_space _ _ _ _ _ _ _ _ _ Hb)) as Hum.
    rewrite (u64_small (va + i)) by pglia. eapply wp_mem; [exact Hs|]. eapply wp_intro; [apply (walkaddr_run pt _ k n Hum); pglia|].
    cbv beta. intros s1 Hs1. rewrite Hpa. cbn [default from_option id].
    assert (0 < pa) as Hpos by (apply (uaddr_elem _ _ _ Hum) in Hpa as (q & _ & _ & -> & _ & Hq); pglia).
    rewrite (proj2 (Z.eqb_neq pa 0)) by lia. rewrite (u32_small (sz - i)), (u32_small (off + i)), (u32_small (i + PGSIZE)) by pglia.
    set (m := if sz - i <? PGSIZE then sz - i else PGSIZE).
    assert (0 < m ≤ PGSIZE ∧ Z.min (i + PGSIZE) sz = i + m) as [Hm Emin] by (unfold m; destruct (Z.ltb_spec (sz - i) PGSIZE); pglia).
    rewrite Z.min_l in Ho, E1 by lia. cbv zeta. wp_run.
    eapply wp_mono; [apply (kreadi_run s1 k f pt n Fr B1 (va + i) pa (off + i) m); try done; pglia|].
    cbv beta. intros r s2 (-> & k2 & f2 & Hs2 & Hf2 & Hb2).
    destruct (file_bytes_full data (off + i) m ltac:(pglia) Hm Hlen) as [(El & Hin & Efb)|(El & Hin & _)].
    + rewrite El, Z.eqb_refl. wp_run. split; [|pglia]. eexists k2, f2, _. split; [pglia|]. split; [pglia|]. do 3 (split; [done|]).
      rewrite Emin. split; [right; lia|]. rewrite Efb in *. split.
      * intros x Hx. apply put_some. by apply HB1.
      * intros x. rewrite rd_bytes_app, put_app by lia. rewrite length_rd_bytes by lia. rewrite Z2Nat.id by lia. apply put_ext, E1.
    + rewrite (proj2 (Z.eqb_neq _ _)) by done. wp_run. eexists k2, f2, _. do 3 (split; [done|]). right. split; [done|]. split; [lia|].
      unfold m in Hin. destruct (Z.ltb_spec (sz - i) PGSIZE); lia.
Qed.

(** ** The segments *)

Lemma segment_alloc pt k sz Fr B stop :
  bd pt k (npages sz) Fr B → frugal F0 (npages sz) Fr → readable (npages sz) B → 0 ≤ sz ≤ RAM → 0 ≤ stop < 2 ^ 64 →
  wp (uvmalloc pt sz stop) (λ r k', ∃ Fr',
    r = Z.max sz stop ∧ r ≤ RAM ∧ frugal F0 (npages r) Fr' ∧ bd pt k' (npages r) Fr' (grown (npages sz) (npages r) B) ∧
      readable (npages r) (grown (npages sz) (npages r) B) ∨
    r = 0 ∧ bd pt k' (npages sz) Fr' B ∧ Z.of_nat (length F0) ≤ 3 * ((Z.max sz stop + PGSIZE - 1) / PGSIZE) + 5) k.
Proof.
  intros Hb Hfr HB Hsz Hstop. pose proof (npages_bounds sz ltac:(unfold RAM in *; lia)) as (Hn1 & Hn2 & _).
  destruct (Z.ltb_spec stop sz) as [Hlt|Hge].
  - unfold uvmalloc. rewrite (proj2 (Z.ltb_lt _ _)) by done. wp_run. exists Fr. left. rewrite Z.max_l by lia.
    assert (∀ x, grown (npages sz) (npages sz) B x = B x) as Eg.
    { intros x. unfold grown. destruct (Z.leb_spec (npages sz * PGSIZE) x), (Z.ltb_spec x (npages sz * PGSIZE)); try done. lia. }
    split; [done|]. split; [lia|]. split; [done|]. split; [by eapply bd_B|]. intros x Hx. rewrite Eg. by apply HB.
  - eapply wp_mono; [apply (bd_grow (km T) F0 tf us pt k (npages sz) Fr B sz stop); [done|done|done|exact Hsz|lia]|]. cbv beta.
    intros r k' (Fr' & [(-> & Hle & Hfr' & Hb' & _)|(-> & Hb' & Hlow)]); exists Fr'; rewrite Z.max_r by lia; [left|right].
    + split; [done|]. split; [done|]. split; [done|]. split; [exact Hb'|]. intros x Hx. unfold grown. fold (npages stop).
      destruct (Z.leb_spec (npages sz * PGSIZE) x), (Z.ltb_spec x (npages stop * PGSIZE)); cbn [andb]; try (by eexists); apply HB; lia.
    + done.
Qed.

(** Why loading may fail: there is no such program, or it is too large. *)
Definition load_fails (R : option (Z * contents)) : Prop :=
  match R with None => True | Some (sz, _) => Z.of_nat (length F0) ≤ 3 * npages sz + 5 end.

Lemma low_load_fails n off sz B : 0 ≤ sz ≤ RAM → Z.of_nat (length F0) ≤ 3 * ((sz + PGSIZE - 1) / PGSIZE) + 5 →
  load_fails (segments data n off (sz, B)).
Proof.
  intros Hsz Hl. unfold load_fails. destruct (segments data n off (sz, B)) as [[sz' B']|] eqn:E; [|done].
  pose proof (segments_size _ _ _ _ _ _ _ E Hsz). pose proof (npages_mono sz sz' ltac:(lia) ltac:(lia) ltac:(lia)).
  pose proof (npages_bounds sz ltac:(lia)) as (_ & _ & En). lia.
Qed.

(** What holds after a turn of the loop over the headers. *)
Definition load_post (R : option (Z * contents)) (phnum pt i : Z) (r : Z * Z * Z + bool * Z) (s : pst) : Prop :=
  match r with
  | inl (i', off, sz) => i' = i + 1 ∧ ∃ k f Fr B, at_rest s k f ∧ pf_open f ip data fs ds ∧ bd pt k (npages sz) Fr B ∧
      frugal F0 (npages sz) Fr ∧ readable (npages sz) B ∧ 0 ≤ sz ≤ RAM ∧ R = segments data (Z.to_nat (phnum - i')) off (sz, B)
  | inr (go, sz) => ∃ k f Fr B, at_rest s k f ∧ pf_open f ip data fs ds ∧ bd pt k (npages sz) Fr B ∧ 0 ≤ sz ≤ RAM ∧
      (go = true ∧ frugal F0 (npages sz) Fr ∧ readable (npages sz) B ∧ R = Some (sz, B) ∨ go = false ∧ load_fails R)
  end.

Lemma load_turn_run R phnum pt s k f Fr B i off sz :
  at_rest s k f → pf_open f ip data fs ds → bd pt k (npages sz) Fr B → frugal F0 (npages sz) Fr → readable (npages sz) B →
  0 ≤ sz ≤ RAM → 0 ≤ i ≤ phnum → R = segments data (Z.to_nat (phnum - i)) off (sz, B) →
  wp (load_turn pt ip phnum (i, off, sz)) (load_post R phnum pt i) s.
Proof.
  intros Hs Hf Hb Hfr HB Hsz Hi ER. unfold load_turn. destruct (Z.ltb_spec i phnum) as [Hlt|Hge].
  2: { wp_run. exists k, f, Fr, B. do 4 (split; [done|]). left. replace (phnum - i) with 0 in ER by lia. done. }
  wp_run. eapply wp_files; [exact Hs|]. eapply wp_mono; [apply (pf_readi_ok f ip data fs ds); [done|apply u32_range|done]|]. cbv beta.
  clear s Hs. intros b f1 [-> Hf1] s Hs. clear f Hf. set (b := file_bytes data (u32 off) sizeof_proghdr) in *.
  replace (Z.to_nat (phnum - i)) with (S (Z.to_nat (phnum - (i + 1)))) in ER by lia. cbn [segments] in ER. fold b in ER.
  assert (Forall (λ b, 0 ≤ b < 256) b) as Hby by by apply file_bytes_bytes.
  assert (R = None → load_post R phnum pt i (inr (false, sz)) s) as Hnone.
  { intros E. exists k, f1, Fr, B. do 4 (split; [done|]). right. by rewrite E. }
  destruct (Z.of_nat (length b) =? sizeof_proghdr); cbn [negb]; [|wp_run; by apply Hnone].
  set (ph := ph_of b) in *. cbv zeta.
  assert (0 ≤ ph_vaddr ph < 2 ^ 64 ∧ 0 ≤ ph_memsz ph < 2 ^ 64 ∧ 0 ≤ ph_filesz ph < 2 ^ 64) as (Hv & Hm & Hfs).
  { unfold ph, ph_of. cbn [ph_vaddr ph_memsz ph_filesz]. split; [|split]; exact (field_range _ 8 b Hby). }
  unfold segment in ER. destruct (Z.eqb_spec (ph_type ph) ELF_PROG_LOAD) as [_|_]; cbn [negb] in *; wp_run.
  2: { split; [done|]. cbn [mbind option_bind] in ER. by exists k, f1, Fr, B. }
  destruct (Z.ltb_spec (ph_memsz ph) (ph_filesz ph)) as [H1|H1]; wp_run.
  { apply Hnone. rewrite ER. by rewrite (proj2 (Z.leb_gt _ _)). }
  rewrite (proj2 (Z.leb_le (ph_filesz ph) (ph_memsz ph))) in ER by done. cbn [andb] in ER.
  destruct (Z.ltb_spec (u64 (ph_vaddr ph + ph_memsz ph)) (ph_vaddr ph)) as [H2|H2]; wp_run.
  { apply Hnone. rewrite ER. rewrite (proj2 (Z.leb_gt _ RAM)); [done|]. unfold RAM. pglia. }
  assert (ph_vaddr ph + ph_memsz ph < 2 ^ 64) as Hstop by zlia.
  rewrite (u64_small (ph_vaddr ph + ph_memsz ph)) by lia. set (stop := ph_vaddr ph + ph_memsz ph) in *.
  eapply wp_mem; [exact Hs|]. eapply wp_mono; [apply (segment_alloc pt k sz Fr B stop); try done; lia|]. cbv beta.
  clear Hnone. intros r k1 (Fr1 & Hr) s1 Hs1.
  assert (∀ z Fr' k' B', bd pt k' (npages z) Fr' B' → at_rest s1 k' f1 → 0 ≤ z ≤ RAM → load_fails R → load_post R phnum pt i (inr (false, z)) s1) as Hbad.
  { intros z Fr' k' B' Hb' Hs' Hz E. exists k', f1, Fr', B'. do 4 (split; [done|]). by right. }
  destruct Hr as [(-> & Hle & Hfr1 & Hb1 & HB1)|(-> & Hb1 & Hlow)].
  2: { rewrite Z.eqb_refl. wp_run. apply (Hbad sz Fr1 k1 B); try done. rewrite ER. destruct (Z.leb_spec stop RAM); [|done]. cbn [andb].
       destruct (_ && _); [|done]. cbn [mbind option_bind]. apply low_load_fails; [lia|done]. }
  rewrite (proj2 (Z.leb_le stop RAM)) in ER by lia. cbn [andb] in ER.
  destruct (Z.eqb_spec (Z.max sz stop) 0) as [E0|E0].
  { wp_run. rewrite E0 in *. replace sz with 0 by lia. apply (Hbad 0 Fr1 k1 _ Hb1 Hs1 ltac:(lia)). by rewrite ER. }
  rewrite (proj2 (Z.ltb_lt 0 _)) in ER by lia. cbn [andb] in ER.
  destruct (Z.eqb_spec (ph_vaddr ph mod PGSIZE) 0) as [Hal|Hal]; cbn [negb].
  2: { wp_run. apply (Hbad _ Fr1 k1 _ Hb1 Hs1 ltac:(lia)). by rewrite ER. }
  cbn [andb] in ER. wp_run. rewrite (u32_small (ph_filesz ph)) by (unfold RAM in *; pglia).
  pose proof (npages_bounds (Z.max sz stop) ltac:(lia)) as (Hp1 & Hp2 & _).
  eapply wp_mono; [apply (loadseg_run s1 k1 f1 pt _ Fr1 _ (ph_vaddr ph) (u32 (ph_off ph)) (ph_filesz ph) Hs1 Hf1 Hb1 HB1); try lia; try apply u32_range|].
  { rewrite Hp1. unfold RAM in *. pglia. }
  cbv beta. intros r s2 (k2 & f2 & B2 & Hs2 & Hf2 & Hb2 & [(-> & Hin & HB2 & E2)|(-> & Hne & Hout)]); cbn [Z.ltb Z.compare]; wp_run.
  - split; [done|]. assert ((ph_filesz ph =? 0) || (u32 (ph_off ph) + ph_filesz ph <=? Z.of_nat (length data)) = true) as Ec.
    { apply orb_true_iff. rewrite Z.eqb_eq, Z.leb_le. done. }
    rewrite Ec in ER. cbn [mbind option_bind] in ER. eexists k2, f2, Fr1, _. split; [done|]. split; [done|].
    split; [eapply bd_B; [exact Hb2|]; intros x _; symmetry; apply E2|]. split; [done|]. split; [|by split; [lia|]].
    intros x Hx. rewrite <-E2. by apply HB2.
  - exists k2, f2, Fr1, B2. do 3 (split; [done|]). split; [lia|]. right. split; [done|].
    rewrite ER, (proj2 (Z.eqb_neq _ _)), (proj2 (Z.leb_gt _ _)) by lia. done.
Qed.

Lemma load_segments_run s k f pt Fr elf :
  at_rest s k f → pf_open f ip data fs ds → bd pt k 0 Fr (λ _, None) → frugal F0 0 Fr → 0 ≤ e_phnum elf →
  wp (load_segments pt ip elf) (λ '(go, sz) s', ∃ k f Fr B, at_rest s' k f ∧ pf_open f ip data fs ds ∧ bd pt k (npages sz) Fr B ∧
    0 ≤ sz ≤ RAM ∧
    let R := segments data (Z.to_nat (e_phnum elf)) (i32 (e_phoff elf)) (0, λ _, None) in
    (go = true ∧ frugal F0 (npages sz) Fr ∧ readable (npages sz) B ∧ R = Some (sz, B) ∨ go = false ∧ load_fails R)) s.
Proof.
  intros Hs Hf Hb Hfr Hn. cbv zeta. set (R := segments _ _ _ _). unfold load_segments.
  eapply (wp_loop (λ '(i, off, sz) s', 0 ≤ i ≤ e_phnum elf ∧ load_post R (e_phnum elf) pt (i - 1) (inl (i, off, sz)) s')
    (λ '(i, _, _) _, Z.to_nat (e_phnum elf - i))).
  - lia.
  - split; [lia|]. split; [lia|]. exists k, f, Fr, (λ _, None). do 4 (split; [done|]). split; [intros x Hx; change (npages 0) with 0 in Hx; lia|].
    split; [done|]. by rewrite Z.sub_0_r.
  - clear s k f Fr Hs Hf Hb Hfr. intros [[i off] sz] s (Hi & _ & k & f & Fr & B & Hs & Hf & Hb & Hfr & HB & Hsz & ER).
    destruct (Z.ltb_spec i (e_phnum elf)) as [Hlt|Hge].
    + eapply wp_mono; [by apply (load_turn_run R (e_phnum elf) pt s k f Fr B i off sz)|]. cbv beta.
      intros [[[i' off'] sz']|[go sz']] s' Hp; [|exact Hp]. destruct Hp as (-> & Hp). split; [|lia]. split; [lia|]. split; [lia|done].
    + unfold load_turn. rewrite (proj2 (Z.ltb_ge _ _)) by done. wp_run. exists k, f, Fr, B. do 4 (split; [done|]). left.
      replace (e_phnum elf - i) with 0 in ER by lia. done.
Qed.

(** ** The arguments *)

(** The array [argv] of [exec] for the strings [strs], which lie outside the pages
    and outside [ustack]. *)
Definition argv_ok (k : kst) (argv : list Z) (strs : list (list Z)) : Prop :=
  Z.of_nat (length strs) < MAXARG ∧
  ∃ ptrs rest, argv = ptrs ++ 0 :: rest ∧ Forall2 (λ a str, a ≠ 0 ∧ Z.of_nat (length str) < PGSIZE ∧
    Forall (λ b, 0 < b < 256) str ∧ load_bytes (S (length str)) (mm k) a = str ++ [0] ∧
    apart F0 a (Z.of_nat (length str) + 1) ∧ (a + Z.of_nat (length str) + 1 ≤ us ∨ us + 256 ≤ a)) ptrs strs.

(** The stack between [base] and [sz] stays writable. *)
Definition writable (base sz : Z) (B : contents) : Prop := ∀ x, base ≤ x < sz → is_Some (B x).

(** [copyout] to writable memory succeeds. *)
Lemma copyout_stack pt k n Fr B base sz dst src l :
  bd pt k n Fr B → writable base sz B → 0 ≤ base ≤ dst → dst + Z.of_nat (length l) ≤ sz → sz < 2 ^ 32 → apart F0 src (Z.of_nat (length l)) →
  load_bytes (length l) (mm k) src = l →
  wp (copyout pt dst src (Z.of_nat (length l))) (λ r k', r = 0 ∧ bd pt k' n Fr (put dst l B) ∧
    writable base sz (put dst l B) ∧ ∀ a m, apart F0 a m → agree (mm k) (mm k') a m) k.
Proof.
  intros Hb HB Hd Hsz Hlt Hap El. pose proof (bd_space _ _ _ _ _ _ _ _ _ Hb) as Hu. pose proof (uspace_umap _ _ _ _ Hu) as Hum.
  pose proof (bd_copyout (km T) F0 tf us Hus pt k n Fr B dst src l Hb ltac:(lia) ltac:(lia) Hap El) as W1.
  assert (apart (upages k pt n) src (Z.of_nat (length l))) as Hap'.
  { intros q Hq. apply Hap. rewrite <-(bd_pages _ _ _ _ _ _ _ _ _ Hb). apply elem_of_app. by left. }
  pose proof (copyout_run pt k n dst src (Z.of_nat (length l)) Hum ltac:(lia) ltac:(lia) Hap') as W2.
  apply wp_run_OK in W1 as (r & k' & E & B' & Hb' & Hr). unfold wp in W2. rewrite E in W2.
  destruct W2 as (c & m' & -> & Hc & [_ Hout] & Hsome & Hr2). eapply wp_intro; [exact E|].
  assert (r = 0) as ->.
  { destruct Hr2 as [[-> _]|(_ & Hc' & Hno)]; [done|]. destruct (HB (dst + c) ltac:(lia)) as [b Eb].
    rewrite <-(bd_mem _ _ _ _ _ _ _ _ _ Hb) in Eb by lia. unfold umem in Eb. by rewrite Hno in Eb. }
  split; [done|]. destruct Hr as [[_ EB]|?]; [|done]. split; [eapply bd_B; [exact Hb'|]; intros va Hva; by rewrite EB|].
  split; [intros x Hx; by apply put_some, HB|]. intros a m Ha x Hx. cbn. apply Hout. intros i Hi Ei.
  assert (apart (upages k pt n) a m) as Ha'.
  { intros q Hq. apply Ha. rewrite <-(bd_pages _ _ _ _ _ _ _ _ _ Hb). apply elem_of_app. by left. }
  by apply (uaddr_apart k pt n a m (dst + i) x) in Ei; [|done|done|lia].
Qed.

Lemma kstrlen_run k a str :
  Z.of_nat (length str) < PGSIZE → Forall (λ b, 0 < b < 256) str → load_bytes (S (length str)) (mm k) a = str ++ [0] →
  kstrlen a k = OK (Z.of_nat (length str)) k.
Proof.
  intros Hl Hs E. assert (∀ i, 0 ≤ i ≤ Z.of_nat (length str) → (str ++ [0]) !! Z.to_nat i = Some (load8 (mm k) (a + i))) as Hi.
  { intros i Hi. rewrite <-E, load_bytes_lookup by lia. do 2 f_equal. lia. }
  unfold kstrlen, zoom. rewrite (strlen_run a (Z.of_nat (length str)) (mm k)); [by destruct k| | |lia|pglia].
  - intros i Hr E0. specialize (Hi i ltac:(lia)). rewrite lookup_app_l in Hi by lia. rewrite E0 in Hi.
    pose proof (Forall_lookup_1 _ _ _ _ Hs Hi). cbv beta in *. lia.
  - specialize (Hi (Z.of_nat (length str)) ltac:(lia)). rewrite Nat2Z.id, lookup_app_r, Nat.sub_diag in Hi by lia. by injection Hi.
Qed.

Section args.
Context (pt n : Z) (Fr : list Z) (f : F) (argv : list Z) (strs : list (list Z)) (base : Z) (B0 : contents).
Hypothesis Hargv : argv_ok (km T) argv strs.
Hypothesis Hbase : PGSIZE ≤ base ∧ base + PGSIZE < 2 ^ 32.

(** With the strings before the [j]th on the stack. *)
Definition pushed (j sp : Z) (s : pst) : Prop :=
  ∃ k ptrs B, at_rest s k f ∧ bd pt k n Fr B ∧ writable base (base + PGSIZE) B ∧ Z.of_nat (length ptrs) = j ∧
    load_bytes (8 * length ptrs) (mm k) us = pointers ptrs ∧ base ≤ sp ≤ base + PGSIZE ∧
    args base strs (base + PGSIZE) B0 = '(l, sp', B') ← args base (drop (Z.to_nat j) strs) sp B; Some (ptrs ++ l, sp', B').

Lemma string_kept k B a str : bd pt k n Fr B → apart F0 a (Z.of_nat (length str) + 1) →
  a + Z.of_nat (length str) + 1 ≤ us ∨ us + 256 ≤ a → load_bytes (S (length str)) (mm (km T)) a = str ++ [0] →
  load_bytes (S (length str)) (mm k) a = str ++ [0].
Proof.
  intros Hb Ha Hu E. rewrite <-E. apply load_bytes_ext. intros x Hx. apply Hb; [|lia]. intros q Hq. destruct (Ha q Hq); lia.
Qed.

Lemma down_u64 sp m : base ≤ sp ≤ base + PGSIZE → 0 < m ≤ PGSIZE →
  u64 (u64 (sp - m) - u64 (sp - m) mod 16) = down sp m ∧ 0 ≤ down sp m ∧ down sp m + m ≤ sp.
Proof. intros Hsp Hm. unfold down. rewrite !(u64_small (sp - m)) by pglia. rewrite u64_small by pglia. pglia. Qed.

Lemma push_turn_run j sp s :
  0 ≤ j ≤ Z.of_nat (length strs) → pushed j sp s →
  wp (push_turn us pt base argv (j, sp)) (λ r s', match r with
    | inl (j', sp') => j' = j + 1 ∧ j < Z.of_nat (length strs) ∧ pushed j' sp' s'
    | inr None => args base strs (base + PGSIZE) B0 = None ∧ ∃ k B, at_rest s' k f ∧ bd pt k n Fr B
    | inr (Some (argc, sp')) => argc = Z.of_nat (length strs) ∧ pushed argc sp' s'
    end) s.
Proof.
  intros Hj Hp. destruct Hargv as (Hmax & ps & rest & Ea & Hfa). pose proof (list.Forall2_length _ _ _ Hfa) as Hl.
  unfold push_turn. destruct (decide (j = Z.of_nat (length strs))) as [->|Hne].
  { rewrite Ea, Nat2Z.id, lookup_app_r, Hl, Nat.sub_diag by lia. cbn. wp_run. done. }
  destruct (lookup_lt_is_Some_2 strs (Z.to_nat j)) as [str Hstr]; [lia|].
  destruct (Forall2_lookup_r _ _ _ _ _ Hfa Hstr) as (a & Hla & Ha0 & Hsl & Hsb & Hmem & Hap & Hau).
  rewrite Ea, lookup_app_l, Hla by lia. unfold truthy, MAXARG in *. rewrite (proj2 (Z.eqb_neq a 0)) by done. cbn [negb].
  rewrite (proj2 (Z.leb_gt 32 j)) by lia. destruct Hp as (k & ptrs & B & Hs & Hb & HB & El & Eus & Hsp & Eargs). wp_run.
  pose proof (string_kept _ _ _ _ Hb Hap Hau Hmem) as Hmem1. pose proof (kstrlen_run k a str Hsl Hsb Hmem1) as Hlen1.
  eapply wp_mem; [exact Hs|]. eapply wp_intro; [exact Hlen1|]. cbv beta. clear s Hs. intros s Hs. cbv zeta.
  destruct (down_u64 sp (Z.of_nat (length str) + 1) Hsp ltac:(lia)) as (Ed & Hd0 & Hd1). rewrite Ed.
  rewrite (drop_S strs str (Z.to_nat j) Hstr) in Eargs. cbn [args] in Eargs. set (sp' := down sp _) in *.
  destruct (Z.ltb_spec sp' base) as [Hlow|Hok]; wp_run.
  { split; [done|]. by exists k, B. }
  eapply wp_mem; [exact Hs|]. eapply wp_intro; [exact Hlen1|]. cbv beta. clear s Hs. intros s Hs. wp_run.
  eapply wp_mem; [exact Hs|]. replace (Z.of_nat (length str) + 1) with (Z.of_nat (length (str ++ [0]))) in * by (rewrite length_app; cbn; lia).
  eapply wp_mono; [apply (copyout_stack pt k n Fr B base (base + PGSIZE) sp' a (str ++ [0])); try done; [pglia|lia|pglia|]|].
  { rewrite length_app, Nat.add_1_r. exact Hmem1. }
  cbv beta. clear s Hs. intros r k1 (-> & Hb1 & HB1 & Hag) s Hs. cbn [Z.ltb Z.compare]. wp_run.
  eapply wp_mem; [exact Hs|]. wp_run. clear s Hs. intros s Hs. wp_run. split; [done|]. split; [lia|].
  eexists _, (ptrs ++ [sp']), _. split; [exact Hs|].
  split; [apply (bd_ustack (km T) F0 tf us Hus pt k1 n Fr); [exact Hb1|lia|lia]|]. split; [exact HB1|].
  split; [rewrite length_app; cbn; lia|]. split; [|split; [lia|]].
  - rewrite pointers_snoc, length_app. replace (8 * (length ptrs + length [sp']))%nat with (8 * length ptrs + 8)%nat by (cbn; lia).
    rewrite load_bytes_app. replace (us + Z.of_nat (8 * length ptrs)) with (us + 8 * j) by lia. f_equal; [|apply load_bytes_store_le].
    rewrite <-Eus. apply load_bytes_ext. intros x Hx. cbn [mm set_mm]. rewrite load8_store64_out by lia. apply (Hag us 256); [done|lia].
  - replace (Z.to_nat (j + 1)) with (S (Z.to_nat j)) by lia. rewrite Eargs.
    destruct (args base (drop (S (Z.to_nat j)) strs) sp' _) as [[[l sp''] B'']|]; [|done]. cbn. by rewrite <-app_assoc.
Qed.

(** The stack pointer and the memory with the strings and the array of pointers. *)
Definition stacked : option (Z * contents) :=
  '(ptrs, sp, B) ← args base strs (base + PGSIZE) B0;
  let sp' := down sp ((Z.of_nat (length strs) + 1) * 8) in
  if sp' <? base then None else Some (sp', put sp' (pointers (ptrs ++ [0])) B).

Lemma push_args_run s k : at_rest s k f → bd pt k n Fr B0 → writable base (base + PGSIZE) B0 →
  wp (push_args us pt (base + PGSIZE) argv) (λ r s', ∃ k B, at_rest s' k f ∧ bd pt k n Fr B ∧ match r with
    | None => stacked = None
    | Some (argc, sp) => argc = Z.of_nat (length strs) ∧ base ≤ sp ∧ stacked = Some (sp, B)
    end) s.
Proof.
  intros Hs Hb HB. pose proof Hargv as (Hmax & _). unfold MAXARG in Hmax. unfold push_args. replace (u64 (base + PGSIZE - PGSIZE)) with base by pglia.
  apply wp_bind. eapply (wp_loop (λ '(j, sp) s', 0 ≤ j ≤ Z.of_nat (length strs) ∧ pushed j sp s') (λ '(j, _) _, Z.to_nat (Z.of_nat (length strs) - j))).
  { change (Z.to_nat MAXARG) with 32%nat. lia. }
  { split; [lia|]. exists k, [], B0. do 3 (split; [done|]). split; [done|]. split; [done|]. split; [pglia|]. change (drop (Z.to_nat 0) strs) with strs.
    destruct (args base strs _ B0) as [[[l sp] B]|]; done. }
  clear s k Hs Hb HB. intros [j sp] s [Hj Hp]. eapply wp_mono; [by apply push_turn_run|]. cbv beta.
  intros [[j' sp']|[[argc sp']|]] s1 H1.
  - destruct H1 as (-> & Hlt & Hp1). split; [|lia]. split; [lia|done].
  - destruct H1 as (-> & k & ptrs & B & Hs1 & Hb1 & HB1 & El & Eus & Hsp & Eargs). rewrite Nat2Z.id, drop_all in Eargs. cbn in Eargs.
    rewrite app_nil_r in Eargs. unfold MAXARG. rewrite (proj2 (Z.leb_gt 32 _)) by lia. wp_run. eapply wp_mem; [exact Hs1|]. wp_run.
    clear s1 Hs1. intros s1 Hs1. unfold stacked. rewrite Eargs. cbn [mbind option_bind]. cbv zeta.
    destruct (down_u64 sp' ((Z.of_nat (length strs) + 1) * 8) Hsp ltac:(pglia)) as (Ed & Hd0 & Hd1). rewrite Ed.
    set (sp2 := down _ _) in *. set (k2 := set_mm _ k) in *.
    assert (bd pt k2 n Fr B) as Hb2 by (apply (bd_ustack (km T) F0 tf us Hus pt k n Fr); [done|lia|lia]).
    assert (length (pointers (ptrs ++ [0])) = (8 * S (length strs))%nat) as Elp by (rewrite length_pointers, length_app; cbn; lia).
    assert (load_bytes (length (pointers (ptrs ++ [0]))) (mm k2) us = pointers (ptrs ++ [0])) as Elb.
    { rewrite Elp, pointers_snoc. replace (8 * S (length strs))%nat with (8 * length ptrs + 8)%nat by lia. rewrite load_bytes_app.
      replace (us + Z.of_nat (8 * length ptrs)) with (us + 8 * Z.of_nat (length strs)) by lia. f_equal; [|apply load_bytes_store_le].
      rewrite <-Eus. apply load_bytes_ext. intros x Hx. cbn [mm set_mm k2]. apply load8_store64_out. lia. }
    destruct (Z.ltb_spec sp2 base) as [Hlow|Hok]; wp_run; [by exists k2, B|]. eapply wp_mem; [exact Hs1|].
    replace ((Z.of_nat (length strs) + 1) * 8) with (Z.of_nat (length (pointers (ptrs ++ [0])))) in * by lia.
    eapply wp_mono; [apply (copyout_stack pt k2 n Fr B base (base + PGSIZE) sp2 us (pointers (ptrs ++ [0]))); try done; [pglia|lia|pglia|]|].
    { intros q Hq. destruct (Hus q Hq); lia. }
    cbv beta. clear s1 Hs1. intros r k3 (-> & Hb3 & _) s1 Hs1. wp_run. eexists k3, _. split; [done|]. split; [exact Hb3|]. done.
  - destruct H1 as (E & k & B & Hs1 & Hb1). wp_run. exists k, B. do 2 (split; [done|]). unfold stacked. by rewrite E.
Qed.
End args.

(** ** Giving up *)

(** [exec] failed: the free pages and the references to files are as before. *)
Definition gave_up (s : pst) : Prop := ∃ k f, at_rest s k f ∧ restored (km T) F0 us k ∧ fl_inv f fs ds.

Lemma exec_bad_open s k f pt sz Fr B :
  at_rest s k f → pf_open f ip data fs ds → ip ≠ 0 → pt ≠ 0 → bd pt k (npages sz) Fr B → 0 ≤ sz ≤ RAM →
  wp (exec_bad pt sz ip) (λ r s', r = -1 ∧ gave_up s') s.
Proof.
  intros Hs Hf Hip Hpt Hb Hsz. unfold exec_bad, truthy. rewrite !(proj2 (Z.eqb_neq _ 0)) by done. cbn [negb]. wp_run.
  eapply wp_mem; [exact Hs|]. eapply wp_mono; [apply (bd_free (km T) F0 tf us pt k (npages sz) Fr B sz Hb); [done|unfold RAM in *; change TRAPFRAME with 274877898752; pglia]|].
  cbv beta. clear s Hs. intros _ k' Hk' s Hs. wp_run. eapply wp_files; [exact Hs|]. eapply wp_mono; [by eapply pf_close_ok|]. cbv beta.
  intros _ f' Hf' s' Hs'. wp_run. split; [done|]. by exists k', f'.
Qed.

Lemma exec_bad_closed s k f pt sz Fr B :
  at_rest s k f → fl_inv f fs ds → pt ≠ 0 → bd pt k (npages sz) Fr B → 0 ≤ sz ≤ 2 * RAM →
  wp (exec_bad pt sz 0) (λ r s', r = -1 ∧ gave_up s') s.
Proof.
  intros Hs Hf Hpt Hb Hsz. unfold exec_bad, truthy. rewrite (proj2 (Z.eqb_neq pt 0)) by done. cbn [negb Z.eqb]. wp_run.
  eapply wp_mem; [exact Hs|]. eapply wp_mono; [apply (bd_free (km T) F0 tf us pt k (npages sz) Fr B sz Hb); [done|unfold RAM in *; change TRAPFRAME with 274877898752; pglia]|].
  cbv beta. clear s Hs. intros _ k' Hk' s Hs. wp_run. split; [done|]. by exists k', f.
Qed.

(** ** The stack *)

(** What [exec] needs to commit. *)
Definition built (pt : Z) (g : prog) (s : pst) : Prop :=
  ∃ k f Fr, at_rest s k f ∧ fl_inv f fs ds ∧ bd pt k (npages (g_sz g)) Fr (g_mem g).

Lemma stack_stacked entry sz B strs :
  let base := PGROUNDUP sz + PGSIZE in
  stack entry sz B strs =
    '(sp, B') ← stacked strs base (hidden (PGROUNDUP sz) (grown (npages sz) (npages (base + PGSIZE)) B));
    Some (mkProg entry (base + PGSIZE) sp (Z.of_nat (length strs)) B').
Proof.
  cbv zeta. unfold stack, stacked. destruct (args _ _ _ _) as [[[ptrs sp] B']|]; [|done]. cbn [mbind option_bind]. cbv zeta. by destruct (_ <? _).
Qed.

Lemma exec_stack_run s k f pt sz Fr B i path argv strs entry Q :
  at_rest s k f → fl_inv f fs ds → pt ≠ 0 → bd pt k (npages sz) Fr B → frugal F0 (npages sz) Fr → 0 ≤ sz ≤ RAM →
  c_proc T = pptr i → argv_ok (km T) argv strs →
  (∀ s', gave_up s' → may_fail (length F0) (stack entry sz B strs) → Q (-1) s') →
  (∀ s' g, stack entry sz B strs = Some g → built pt g s' →
     wp (exec_commit i path pt (g_sz g) entry (g_sp g) (g_argc g) (p_sz (proc_at T i))) Q s') →
  wp (exec_stack us path argv pt sz entry) Q s.
Proof.
  intros Hs Hf Hpt Hb Hfr Hsz Ec Hargv Hfail Hgo. unfold exec_stack. wp_run. eapply wp_myproc; [exact Hs|lia|]. clear s Hs. intros s Hs.
  cbn [c_proc set_fl set_km]. rewrite Ec, pslot_pptr. wp_run. eapply wp_get_proc; [exact Hs|]. intros b. cbn [p_sz set_p_locked]. cbv zeta.
  change (proc_at (set_fl f (set_km k T)) i) with (proc_at T i).
  pose proof (npages_bounds sz ltac:(unfold RAM in *; lia)) as (Hn1 & Hn2 & _). set (guard := PGROUNDUP sz) in *.
  assert (guard ≤ RAM) as Hg by (unfold RAM in *; pglia). assert (guard mod PGSIZE = 0) as Hga by (rewrite <-Hn1; pglia).
  assert (PGROUNDUP guard = guard) as Egg by (apply PGROUNDUP_aligned; unfold RAM in *; pglia).
  assert (npages guard = npages sz) as Eng by (unfold npages; by rewrite Egg).
  rewrite (u64_small (guard + 2 * PGSIZE)) by (unfold RAM in *; pglia). set (sz1 := guard + 2 * PGSIZE).
  assert (PGROUNDUP sz1 = sz1) as Eg1 by (apply PGROUNDUP_aligned; unfold sz1, RAM in *; pglia).
  assert (npages sz1 = npages sz + 2) as En1 by (unfold npages at 1; rewrite Eg1; unfold sz1; pglia).
  wp_run. eapply wp_mem; [exact Hs|].
  eapply wp_mono; [apply (bd_grow (km T) F0 tf us pt k (npages sz) Fr B guard sz1); [done|done|done|unfold RAM in *; lia|unfold sz1, RAM in *; pglia]|].
  cbv beta. clear s Hs. intros r k1 (Fr1 & [(-> & Hle & Hfr1 & Hb1 & Hfl1)|(-> & Hb1 & Hlow)]) s Hs.
  2: { rewrite Z.eqb_refl. eapply wp_mono; [apply (exec_bad_closed s k1 f pt guard Fr1 B); [done|done|done|by rewrite Eng|unfold RAM in *; pglia]|].
       cbv beta. intros r s' [-> Hgu]. apply Hfail; [done|]. unfold may_fail. destruct (stack entry sz B strs) as [g|] eqn:Est; [|done].
       rewrite (stack_size _ _ _ _ _ Est). fold guard sz1. rewrite En1. unfold sz1 in Hlow. pglia. }
  rewrite (proj2 (Z.eqb_neq sz1 0)) by (unfold sz1; pglia). change (PGROUNDUP sz1 / PGSIZE) with (npages sz1) in *. wp_run.
  rewrite (u64_small (sz1 - 2 * PGSIZE)) by (unfold sz1, RAM in *; pglia). replace (sz1 - 2 * PGSIZE) with guard by (unfold sz1; lia).
  eapply wp_mem; [exact Hs|]. eapply wp_mono; [apply (bd_clear (km T) F0 tf us pt k1 (npages sz1) Fr1 _ guard Hb1); [|done|]|].
  { rewrite En1. pglia. }
  { rewrite <-Hn1. apply Hfl1. lia. }
  cbv beta. clear s Hs. intros _ k2 Hb2 s Hs. wp_run. pose proof (stack_stacked entry sz B strs) as Est. cbv zeta in Est. fold guard in Est.
  replace sz1 with (guard + PGSIZE + PGSIZE) in * by (unfold sz1; lia). set (base := guard + PGSIZE) in *.
  set (B2 := hidden guard _) in *. assert (PGSIZE ≤ base ∧ base + PGSIZE < 2 ^ 32) as Hbase by (unfold base, RAM in *; pglia).
  eapply wp_mono; [apply (push_args_run pt (npages (base + PGSIZE)) Fr1 f argv strs base B2 Hargv Hbase s k2 Hs Hb2)|].
  { intros x Hx. unfold B2, hidden, grown. rewrite (proj2 (Z.leb_le guard x)), (proj2 (Z.ltb_ge x (guard + PGSIZE))) by (unfold base in Hx; pglia). cbn [andb].
    rewrite (proj2 (Z.leb_le _ x)), (proj2 (Z.ltb_lt x _)); [by eexists|rewrite En1; unfold base in Hx; pglia|unfold base in Hx; pglia]. }
  cbv beta. clear s Hs. intros [[argc sp]|] s (k3 & B3 & Hs & Hb3 & H3).
  - destruct H3 as (-> & Hsp & E3). rewrite E3 in Est. cbn [mbind option_bind] in Est. apply (Hgo s _ Est). exists k3, f, Fr1. split; [exact Hs|]. split; [exact Hf|exact Hb3].
  - rewrite H3 in Est. eapply wp_mono; [apply (exec_bad_closed s k3 f pt (base + PGSIZE) Fr1 B3 Hs Hf Hpt Hb3); unfold RAM in *; pglia|].
    cbv beta. intros r s' [-> Hgu]. apply Hfail; [done|]. by rewrite Est.
Qed.
End run.

(** ** exec *)

(** The name of the process, its page table and its size change. *)
Definition exec_proc (path : list Z) (pt sz : Z) (p : proc) : proc :=
  set_p_sz sz (set_p_pagetable pt (set_p_name (copy_name (p_name p) (last_part path path ++ [0])) p)).

(** Process [p] with trapframe [tf] runs [g]: its memory is that of [g], and its
    registers are those with which a program starts. *)
Record runs (k k' : kst) (pt tf : Z) (g : prog) : Prop := mkRuns {
  rn_mem : ∀ va, 0 ≤ va → umem (mm k') pt va = g_mem g va;
  rn_epc : load64 (mm k') (tf + TF_epc) = u64 (g_entry g);
  rn_sp : load64 (mm k') (tf + TF_sp) = u64 (g_sp g);
  rn_a1 : load64 (mm k') (tf + TF_a1) = u64 (g_sp g);
  rn_rest : ∀ x, 0 ≤ x < PGSIZE → (x < TF_epc ∨ TF_epc + 8 ≤ x) → (x < TF_sp ∨ TF_sp + 8 ≤ x) → (x < TF_a1 ∨ TF_a1 + 8 ≤ x) →
    load8 (mm k') (tf + x) = load8 (mm k) (tf + x);
}.

Section exec.
Context {LY : Layout} {LO : LayoutOk} {PLY : ProcLayout} {PLO : ProcLayoutOk}.
Context {F : Type} {FLY : FileLayer F} {FLO : FileLayerOk F} {PF : ProgFiles F} {PFO : ProgFilesOk F}.
Notation pst := (pst F).

Definition pages_kept (T T' : pst) (ps : list Z) : Prop := ∀ q, q ∈ ps → agree (mm (km T)) (mm (km T')) q PGSIZE.

(** The result of [exec] by process [i], which is [p], with [n] free pages. *)
Definition exec_result (all : list Z) (T : pst) (i : nat) (p : proc) (n : nat) (path : list Z) (strs : list (list Z)) (r : Z) (s' : pst) : Prop :=
  ∃ T', rep s' 0 false [] T' ∧ inv None all T' ∧
    (r = -1 ∧ may_fail n (data ← pf_file (fl T) path; program data strs) ∧
       procs T' = procs T ∧ pages_kept T T' (images T ≫= ipages (km T)) ∨
     ∃ data g pt, pf_file (fl T) path = Some data ∧ program data strs = Some g ∧ r = g_argc g ∧ has_args g strs ∧
       procs T' = <[i := exec_proc path pt (g_sz g) p]> (procs T) ∧ runs (km T) (km T') pt (p_trapframe p) g ∧
       ∃ R, images T ≡ₚ img_of p :: R ∧ pages_kept T T' (R ≫= ipages (km T))).

Context (all : list Z) (T : pst) (i : nat) (p : proc) (R : list img) (F0 : list Z) (us : Z) (path argv : list Z) (strs : list (list Z)).
Hypothesis Hi : inv None all T.
Hypothesis Hc : c_proc T = pptr i.
Hypothesis Hp : procs T !! i = Some p.
Hypothesis HR : images T ≡ₚ img_of p :: R.
Hypothesis Hm0 : mem_ok (km T) (img_of p :: R) F0.
Hypothesis Hall : ((img_of p :: R) ≫= ipages (km T)) ++ F0 ≡ₚ all.
Hypothesis Hus : apart all us 256.

Notation result := (exec_result all T i p (length F0) path strs).

Lemma us_free : apart F0 us 256.
Proof. intros q Hq. apply Hus. rewrite <-Hall. apply elem_of_app. by right. Qed.
Lemma us_owned : apart ((img_of p :: R) ≫= ipages (km T)) us 256.
Proof. intros q Hq. apply Hus. rewrite <-Hall. apply elem_of_app. by left. Qed.

Lemma inv_kf k f : memx all k (images T) → fl_inv f (files T) (dirs T) → inv None all (set_fl f (set_km k T)).
Proof. intros Hm Hf. destruct Hi as [I1 I2 I3 I4 I5 I6 I7 I8 I9 I10 I11 I12]. by constructor. Qed.

Lemma gave_up_result s' :
  gave_up T F0 us (files T) (dirs T) s' → may_fail (length F0) (data ← pf_file (fl T) path; program data strs) → result (-1) s'.
Proof.
  intros (k & f & Hs & Hr & Hf) Hfail. destruct (restored_mem (km T) F0 (p_trapframe p) us R (p_pagetable p) (p_sz p) Hm0 us_owned k Hr) as (Fr & Hm & HP & Hag).
  exists (set_fl f (set_km k T)). split; [exact Hs|]. split.
  - apply inv_kf; [|done]. eapply memx_perm; [|symmetry; exact HR]. exists Fr. split; [exact Hm|]. by rewrite HP.
  - left. split; [done|]. split; [done|]. split; [done|]. intros q Hq. apply Hag. by rewrite <-HR.
Qed.

Lemma cur_running : p_state p = RUNNING ∧ (i < 64)%nat ∧ 0 ≤ p_sz p < 4294967296.
Proof.
  destruct (cur_proc _ _ _ _ Hi Hc) as (p' & Hp' & Er & Hl). rewrite Hp in Hp'. injection Hp' as <-. split; [done|]. split; [done|].
  pose proof (inv_slots _ _ _ Hi i p Hp) as So. unfold slot_ok in So. rewrite Er in So. apply So.
Qed.

(** The stores to the trapframe. *)
Definition start_regs (m : mem) (entry sp : Z) : mem :=
  let tf := p_trapframe p in store64 (store64 (store64 m (tf + TF_a1) sp) (tf + TF_epc) entry) (tf + TF_sp) sp.

Lemma start_regs_only m entry sp : tf_only (p_trapframe p) m (start_regs m entry sp).
Proof. intros x Hx. unfold start_regs, TF_a1, TF_epc, TF_sp. rewrite !load8_store64_out by pglia. done. Qed.

Lemma start_regs_runs k k2 pt g :
  (∀ va, 0 ≤ va → umem (mm k2) pt va = g_mem g va) → agree (mm (km T)) (mm k) (p_trapframe p) PGSIZE →
  agree (start_regs (mm k) (g_entry g) (g_sp g)) (mm k2) (p_trapframe p) PGSIZE → runs (km T) k2 pt (p_trapframe p) g.
Proof.
  intros Hm Hk Ha. assert (∀ o, 0 ≤ o ≤ PGSIZE - 8 → load64 (mm k2) (p_trapframe p + o) = load64 (start_regs (mm k) (g_entry g) (g_sp g)) (p_trapframe p + o)) as H64.
  { intros o Ho. apply load64_ext. intros x Hx. apply Ha. lia. }
  unfold start_regs, TF_a1, TF_epc, TF_sp in *. split; [exact Hm|..]; unfold TF_a1, TF_epc, TF_sp; try rewrite H64 by pglia.
  - rewrite load64_store64_out by lia. apply load64_store64.
  - apply load64_store64.
  - rewrite !load64_store64_out by lia. apply load64_store64.
  - intros x Hx H1 H2 H3. rewrite Ha by lia. rewrite !load8_store64_out by lia. apply Hk. lia.
Qed.

Lemma exec_commit_run s pt g data :
  pt ≠ 0 → pf_file (fl T) path = Some data → program data strs = Some g → 0 ≤ g_sz g < 4294967296 → i32 (g_argc g) = g_argc g →
  built T F0 (p_trapframe p) us (files T) (dirs T) pt g s →
  wp (exec_commit i path pt (g_sz g) (g_entry g) (g_sp g) (g_argc g) (p_sz (proc_at T i))) result s.
Proof.
  intros Hpt Ed Eg Hsz Hargc (k & f & Fr & Hs & Hf & Hb). destruct cur_running as (Er & Hl & Hpsz). unfold exec_commit. wp_run.
  eapply wp_get_proc; [exact Hs|]. intros b. change (proc_at (set_fl f (set_km k T)) i) with (proc_at T i).
  rewrite (proc_at_lookup _ _ _ Hp). cbn [p_trapframe p_pagetable p_sz set_p_locked]. cbv zeta. wp_run.
  eapply wp_mem; [exact Hs|]. wp_run. clear s Hs. intros s Hs. wp_run.
  eapply wp_set_proc; [exact Hs|done|]. clear s Hs. intros s Hs. wp_run.
  eapply wp_set_proc; [exact Hs|done|]. clear s Hs. intros s Hs. wp_run.
  eapply wp_set_proc; [exact Hs|done|]. clear s Hs. intros s Hs. wp_run. rewrite !upd_compose in Hs.
  eapply wp_ink; [exact Hs|]. wp_run. clear s Hs. intros s Hs. wp_run.
  eapply wp_ink; [exact Hs|]. wp_run. clear s Hs. intros s Hs. wp_run.
  eapply wp_ink; [exact Hs|].
  eapply wp_mono; [apply (commit_mem (km T) F0 (p_trapframe p) us R (p_pagetable p) (p_sz p) Hm0 us_owned pt k (npages (g_sz g)) Fr (g_mem g)
    (start_regs (mm k) (g_entry g) (g_sp g)) Hb (start_regs_only _ _ _)); change TRAPFRAME with 274877898752; lia|].
  cbv beta. clear s Hs. intros _ k2 (F2 & Hm2 & HP2 & Hmem & Htf & Hag) s Hs. wp_run. rewrite Hargc.
  set (T' := upd i (exec_proc path pt (g_sz g)) (set_fl f (set_km k2 T))). exists T'. split; [exact Hs|]. split.
  - apply (inv_image None all T i p); try done.
    + right. by right.
    + intros R' HR'. assert (R ≡ₚ R') as ER by (apply (Permutation_cons_inv (a := img_of p)); by rewrite <-HR', <-HR).
      change (img_of (exec_proc path pt (g_sz g) p)) with (mkImg pt (npages (g_sz g)) (p_trapframe p)).
      eapply memx_perm; [|by constructor; exact ER]. exists F2. split; [exact Hm2|]. rewrite <-Hall. exact HP2.
  - right. exists data, g, pt. do 3 (split; [done|]). split; [by eapply program_has_args|]. split; [|split].
    + unfold T'. cbn. apply list_eq. intros j. destruct (decide (i = j)) as [<-|Hne].
      * rewrite list_lookup_alter_eq, Hp, list_lookup_insert_eq by by eapply lookup_lt_Some. done.
      * by rewrite list_lookup_alter_ne, list_lookup_insert_ne.
    + apply (start_regs_runs k); [exact Hmem| |exact Htf].
      apply (outside_agree (km T) F0 (p_trapframe p) us R (p_pagetable p) (p_sz p) Hm0 us_owned); [apply Hb|]. cbn. constructor.
    + by exists R.
Qed.

(** From the segments on. *)
Lemma exec_load_run s k f ip data pt Fr :
  pf_file (fl T) path = Some data → ip ≠ 0 → pt ≠ 0 → argv_ok F0 us (km T) argv strs →
  let b := file_bytes data 0 sizeof_elfhdr in
  (Z.of_nat (length b) =? sizeof_elfhdr) && (e_magic (elf_of b) =? ELF_MAGIC) = true →
  at_rest T s k f → pf_open f ip data (files T) (dirs T) →
  building (km T) F0 (p_trapframe p) us pt k 0 Fr (λ _, None) → frugal F0 0 Fr →
  wp ('(go, sz) <- load_segments pt ip (elf_of b) ;;
      if negb (go : bool) then exec_bad pt sz ip
      else infl (pf_iunlockput ip ;; fl_end_op) ;; exec_stack us path argv pt sz (e_entry (elf_of b))) result s.
Proof.
  intros Ed Hip Hpt Hargv b Hb64 Hs Hf Hb Hfr. destruct (pf_data _ _ _ Ed) as [Hby Hlen].
  assert (program data strs = '(sz0, B) ← segments data (Z.to_nat (e_phnum (elf_of b))) (i32 (e_phoff (elf_of b))) (0, λ _, None);
    stack (e_entry (elf_of b)) sz0 B strs) as Ep by (unfold program; fold b; by rewrite Hb64).
  assert (0 ≤ e_phnum (elf_of b)) as Hn by apply (field_range 56 2 b), file_bytes_bytes, Hby.
  wp_run. eapply wp_mono; [apply (load_segments_run T F0 (p_trapframe p) us ip data (files T) (dirs T) us_free Hby Hlen s k f pt Fr (elf_of b) Hs Hf Hb Hfr Hn)|].
  cbv beta. clear s k f Fr Hs Hf Hb Hfr. intros [go sz] s (k & f & Fr & B & Hs & Hf & Hb & Hsz & Hgo). cbv zeta in Hgo.
  destruct Hgo as [(-> & Hfr & _ & ER)|(-> & Hbad)]; cbn [negb]; wp_run.
  - rewrite ER in Ep. cbn [mbind option_bind] in Ep. eapply wp_files; [exact Hs|]. eapply wp_mono; [by eapply pf_close_ok|]. cbv beta.
    clear s Hs. intros _ f' Hf' s Hs.
    apply (exec_stack_run T F0 (p_trapframe p) us data (files T) (dirs T) us_free s k f' pt sz Fr B i path argv strs (e_entry (elf_of b)) _ Hs Hf' Hpt Hb Hfr Hsz Hc Hargv).
    + intros s' Hgu Hmf. apply gave_up_result; [exact Hgu|]. rewrite Ed. cbn [mbind option_bind]. by rewrite Ep.
    + intros s' g Est Hbt. pose proof Est as Esz. apply stack_size in Esz. pose proof (npages_bounds sz ltac:(unfold RAM in *; lia)) as (_ & Hg & _).
      assert (g_argc g = Z.of_nat (length strs) ∧ g_entry g = e_entry (elf_of b)) as [Eac Een].
      { unfold stack in Est. destruct (args _ _ _ _) as [[[ptrs sp] B']|]; [|done]. cbn [mbind option_bind] in Est. destruct (_ <? _); [done|]. by injection Est as <-. }
      rewrite <-Een. apply (exec_commit_run s' pt g data Hpt Ed); [by rewrite Ep|unfold RAM in *; pglia| |exact Hbt].
      rewrite Eac. destruct Hargv as [Hmax _]. unfold MAXARG in Hmax. unfold i32. rewrite u32_small by lia. by rewrite (proj2 (Z.ltb_lt _ _)) by lia.
  - eapply wp_mono; [apply (exec_bad_open T F0 (p_trapframe p) us ip data (files T) (dirs T) s k f pt sz Fr B Hs Hf Hip Hpt Hb Hsz)|].
    cbv beta. intros r s' [-> Hgu]. apply gave_up_result; [done|]. rewrite Ed. cbn [mbind option_bind]. rewrite Ep. unfold load_fails in Hbad.
    destruct (segments _ _ _ _) as [[sz' B']|] eqn:Es; [|done]. cbn [mbind option_bind]. unfold may_fail. destruct (stack _ sz' B' strs) as [g|] eqn:Est; [|done].
    apply stack_size in Est. pose proof (segments_size _ _ _ _ _ _ _ Es ltac:(unfold RAM; pglia)) as Hs'.
    pose proof (npages_bounds sz' ltac:(unfold RAM in *; lia)) as (_ & Hg & _).
    pose proof (npages_mono sz' (g_sz g) ltac:(lia) ltac:(pglia) ltac:(unfold RAM in *; pglia)). lia.
Qed.

Lemma exec_run s : rep s 0 false [] T → pf_ready (fl T) path → argv_ok F0 us (km T) argv strs → wp (exec us path argv) result s.
Proof.
  intros Hs0 Hrd Hargv. assert (at_rest T s (km T) (fl T)) as Hs by (unfold at_rest; by destruct T).
  pose proof Hm0 as (Hk0 & _ & Hal). apply Forall_cons_1 in Hal as [(_ & Htf & _) _]. cbn [i_tf img_of] in Htf.
  assert (restored (km T) F0 us (km T)) as Hres by by exists F0.
  assert (∀ s' f' r, at_rest T s' (km T) f' → fl_inv f' (files T) (dirs T) → r = -1 → may_fail (length F0) (data ← pf_file (fl T) path; program data strs) → result r s') as Hend.
  { intros s' f' r Hs' Hf' -> Hmf. apply gave_up_result; [by exists (km T), f'|done]. }
  unfold exec. wp_run. eapply wp_myproc; [exact Hs|lia|]. clear s Hs0 Hs. intros s Hs. change (c_proc _) with (c_proc T). rewrite Hc, pslot_pptr. wp_run.
  pose proof (pf_namei_ok (fl T) path (files T) (dirs T) (inv_files _ _ _ Hi) Hrd) as Hn. apply wp_bind_inv in Hn.
  eapply wp_files; [exact Hs|]. eapply wp_mono; [exact Hn|]. cbv beta. clear s Hs Hn. intros _ f1 Hn s Hs. wp_run.
  eapply wp_files; [exact Hs|]. eapply wp_mono; [exact Hn|]. cbv beta. clear s Hs Hn f1. intros ip f1 Hn s Hs.
  destruct (pf_file (fl T) path) as [data|] eqn:Ed.
  2: { destruct Hn as [-> Hn]. rewrite Z.eqb_refl. wp_run. eapply wp_files; [exact Hs|]. eapply wp_mono; [exact Hn|]. cbv beta.
       intros _ f2 Hf2 s2 Hs2. wp_run. by apply (Hend s2 f2). }
  destruct Hn as [Hip Hn]. rewrite (proj2 (Z.eqb_neq ip 0)) by done. wp_run. eapply wp_files; [exact Hs|]. eapply wp_mono; [exact Hn|]. cbv beta.
  clear s Hs Hn f1. intros _ f Hf s Hs. wp_run. eapply wp_files; [exact Hs|]. eapply wp_mono; [by apply (pf_readi_ok f ip data (files T) (dirs T))|]. cbv beta.
  clear s Hs f Hf. intros b f [-> Hf] s Hs. set (b := file_bytes data 0 sizeof_elfhdr).
  assert (∀ s' k' f', at_rest T s' k' f' → restored (km T) F0 us k' → pf_open f' ip data (files T) (dirs T) → may_fail (length F0) (program data strs) →
    wp (exec_bad 0 0 ip) result s') as Hbad.
  { intros s' k' f' Hs' Hk' Hf' Hmf. unfold exec_bad, truthy. rewrite (proj2 (Z.eqb_neq ip 0)) by done. cbn [Z.eqb negb]. wp_run. eapply wp_files; [exact Hs'|].
    eapply wp_mono; [by eapply pf_close_ok|]. cbv beta. intros _ f2 Hf2 s2 Hs2. wp_run. apply gave_up_result; [by exists k', f2|]. by rewrite Ed. }
  destruct (Z.eqb_spec (Z.of_nat (length b)) sizeof_elfhdr) as [E1|E1]; cbn [negb].
  2: { apply (Hbad s (km T) f); try done. unfold program. fold b. by rewrite (proj2 (Z.eqb_neq _ _)). }
  cbv zeta. destruct (Z.eqb_spec (e_magic (elf_of b)) ELF_MAGIC) as [E2|E2]; cbn [negb].
  2: { apply (Hbad s (km T) f); try done. unfold program. fold b. rewrite (proj2 (Z.eqb_neq (e_magic _) _)) by done. by rewrite andb_false_r. }
  wp_run. eapply wp_get_proc; [exact Hs|]. intros lb. change (proc_at _ i) with (proc_at T i). rewrite (proc_at_lookup _ _ _ Hp). cbn [p_trapframe set_p_locked]. wp_run.
  eapply wp_mem; [exact Hs|]. eapply wp_mono; [apply (bd_start (km T) F0 (p_trapframe p) us Hk0 Htf)|]. cbv beta.
  clear s Hs. intros pt k Hpt s Hs. destruct Hpt as [(-> & Hr & Hlow)|(Hpt & Fr & Hb & Hfr)].
  - rewrite Z.eqb_refl. apply (Hbad s k f); try done. unfold may_fail. destruct (program data strs) as [g|] eqn:Eg; [|done].
    pose proof (npages_nonneg (g_sz g)). lia.
  - rewrite (proj2 (Z.eqb_neq pt 0)) by done. apply (exec_load_run s k f ip data pt Fr); try done.
    apply andb_true_iff. by rewrite !Z.eqb_eq.
Qed.

End exec.

(** The free list is determined. *)
Lemma chain_det `{LayoutOk} m h l l' : Forall page_ok l → Forall page_ok l' → chain m h l → chain m h l' → l = l'.
Proof.
  revert h l'. induction l as [|a l IH]; intros h [|a' l'] Hl Hl'; cbn; [done|..].
  - intros -> [E _]. apply Forall_cons_1 in Hl' as [Ha _]. apply page_ok_pos in Ha. lia.
  - intros [-> _] ->. apply Forall_cons_1 in Hl as [Ha _]. apply page_ok_pos in Ha. lia.
  - intros [-> H1] [-> H2]. apply Forall_cons_1 in Hl as [_ Hl], Hl' as [_ Hl']. f_equal. by eapply IH.
Qed.

Lemma kmem_inv_det `{LayoutOk} k l l' : kmem_inv k l → kmem_inv k l' → l = l'.
Proof. intros (_ & H1 & _ & H2) (_ & H3 & _ & H4). by eapply chain_det. Qed.

Lemma argv_ok_mono F0 all us k argv strs : (∀ q, q ∈ F0 → q ∈ all) → argv_ok all us k argv strs → argv_ok F0 us k argv strs.
Proof.
  intros Hs (Hm & ps & rest & E & Hf). split; [done|]. exists ps, rest. split; [done|]. eapply list.Forall2_impl; [exact Hf|].
  intros a str (H1 & H2 & H3 & H4 & H5 & H6). do 4 (split; [done|]). split; [|done]. intros q Hq. by apply H5, Hs.
Qed.

Section correct.
Context {LY : Layout} {LO : LayoutOk} {PLY : ProcLayout} {PLO : ProcLayoutOk}.
Context {F : Type} {FLY : FileLayer F} {FLO : FileLayerOk F} {PF : ProgFiles F} {PFO : ProgFilesOk F}.
Notation pst := (pst F).

(** C3. [exec] is all or nothing.  It returns, without a panic, with the processes,
    the memory and the references to files in order, and either
    - it fails with -1: there is no such file, or the file does not describe a
      program that fits these arguments, or the free pages are not more than three
      for each page of the program and five (with more pages it does not fail); the
      process table and every page of every process are as they were, and no page
      is lost; or
    - it returns the number of arguments, and the process has a new address space
      with, byte for byte, the memory the file and the arguments describe: segments
      with their contents and zeros after them, an inaccessible page, and a stack
      with the strings and the array of pointers, where [main] finds its arguments;
      program counter, stack pointer and a1 are set, and the other registers, all
      other processes and their pages stay. *)
Theorem exec_all_or_nothing all (s T : pst) i p Fr us path argv strs :
  rep s 0 false [] T → inv None all T → c_proc T = pptr i → procs T !! i = Some p → kmem_inv (km T) Fr →
  pf_ready (fl T) path → apart all us 256 → argv_ok all us (km T) argv strs →
  ∃ r s', exec us path argv s = OK r s' ∧ exec_result all T i p (length Fr) path strs r s'.
Proof.
  intros Hs Hi Hc Hp Hk Hrd Hus Hargv. destruct (cur_proc _ _ _ _ Hi Hc) as (p' & Hp' & Er & _). rewrite Hp in Hp'. injection Hp' as <-.
  destruct (bind_split image _ i p Hp) as (R & E1 & _). assert (image p = [img_of p]) as Eim by (unfold image; rewrite decide_True; [done|unfold live; congruence]).
  rewrite Eim in E1. destruct (memx_perm _ _ _ _ (inv_mem _ _ _ Hi) E1) as (F0 & Hm & Ha).
  assert (Fr = F0) as -> by (eapply kmem_inv_det; [exact Hk|apply Hm]).
  pose proof (exec_run all T i p R F0 us path argv strs Hi Hc Hp E1 Hm Ha Hus s Hs Hrd) as Hw.
  apply wp_run_OK, Hw. eapply argv_ok_mono; [|exact Hargv]. intros q Hq. rewrite <-Ha. apply elem_of_app. by right.
Qed.

End correct.

(** ** A concrete program *)

Section ex.
#[local] Existing Instances ex16_layout ex16_layout_ok ex_proc_layout ex_proc_layout_ok exfl_layer exfl_ok.

(** A file with one segment: four bytes at address 0, and four zeros. *)
Definition ex_elf : list Z :=
  le_bytes 4 ELF_MAGIC ++ replicate 12 0 ++ le_bytes 2 2 ++ le_bytes 2 243 ++ le_bytes 4 1 ++ le_bytes 8 0 ++ le_bytes 8 64 ++ le_bytes 8 0 ++
  le_bytes 4 0 ++ le_bytes 2 64 ++ le_bytes 2 56 ++ le_bytes 2 1 ++ replicate 6 0 ++
  le_bytes 4 1 ++ le_bytes 4 7 ++ le_bytes 8 120 ++ le_bytes 8 0 ++ le_bytes 8 0 ++ le_bytes 8 4 ++ le_bytes 8 8 ++ le_bytes 8 16 ++
  [19; 5; 160; 2].

(** It is at the path "x". *)
#[local] Instance exfl_files : ProgFiles exfl := {|
  pf_namei path := ret (if bool_decide (path = [120]) then 5 else 0);
  pf_ilock _ := ret tt;
  pf_readi _ off n := ret (file_bytes ex_elf off n);
  pf_iunlockput _ := ret tt;
|}.
#[local] Program Instance exfl_files_ok : ProgFilesOk exfl := {|
  pf_file _ path := if bool_decide (path = [120]) then Some ex_elf else None;
  pf_ready _ _ := True;
  pf_open f ip data fs ds := ip = 5 ∧ data = ex_elf ∧ fl_inv f fs ds;
|}.
Next Obligation. intros f path data E. cbn in E. case_bool_decide; [|done]. injection E as <-. split; [apply (bool_decide_unpack _); by vm_compute|by vm_compute]. Qed.
Next Obligation. intros f path fs ds Hf _. cbn. wp_run. case_bool_decide; (split; [done|]); wp_run; done. Qed.
Next Obligation. intros f ip data fs ds off n (-> & -> & Hf) _ _. cbn. wp_run. done. Qed.
Next Obligation. intros f ip data fs ds (-> & -> & Hf). cbn. wp_run. done. Qed.

(** [init] runs; the strings "x" and "hi" are in the data of the kernel. *)
Definition ex_strs : list (list Z) := [[120]; [104; 105]].
Definition ex_argv : list Z := [KERNBASE + 65536; KERNBASE + 65540; 0].
Definition ex_exec : pst exfl :=
  let T := ex_boot RUNNING 1 in set_km (set_mm (poke [120; 0; 0; 0; 104; 105; 0] (KERNBASE + 65536) (mm (km T))) (km T)) T.
Definition ex_ustack : Z := KERNBASE + 69632.

Lemma rep_set_km {F} (T : pst F) k : rep T 0 false [] T → rep (set_km k T) 0 false [] (set_km k T).
Proof. intros (E & H). split; [|exact H]. change (set_km k (clear T) = set_km k T). by rewrite E. Qed.

Lemma ex_exec_inv : rep ex_exec 0 false [] ex_exec ∧ inv None ex_pages ex_exec.
Proof.
  destruct (ex_boot_inv RUNNING 1) as [Hs Hi]; [by right|]. split; [exact (rep_set_km _ _ Hs)|]. apply (inv_km None ex_pages (ex_boot RUNNING 1) _ Hi).
  pose proof (inv_mem _ _ _ Hi) as Hm. assert (∃ u U, images (ex_boot RUNNING 1) = u :: U) as (u & U & EU).
  { eexists _, _. vm_compute. reflexivity. }
  rewrite EU in *. apply (memx_kdata ex_pages _ u U _ Hm). intros x Hx. rewrite load8_poke by (apply (bool_decide_unpack _); by vm_compute).
  rewrite (proj2 (Z.ltb_ge x _)); [rewrite andb_false_r; reflexivity|]. change kend with 2281635840 in Hx. change (KERNBASE + 65536 + 7 ≤ x). unfold KERNBASE. lia.
Qed.

Lemma ex_exec_apart a n : a + n ≤ 2281635840 → apart ex_pages a n.
Proof.
  intros Ha q Hq. left. destruct ex_ram_inv as (_ & _ & _ & Hok). rewrite Forall_forall in Hok. destruct (Hok q) as [_ Hk]; [by apply list_elem_of_In|].
  change kend with 2281635840 in Hk. lia.
Qed.

Lemma ex_argv_ok : argv_ok ex_pages ex_ustack (km ex_exec) ex_argv ex_strs.
Proof.
  split; [done|]. exists [KERNBASE + 65536; KERNBASE + 65540], []. split; [done|]. unfold ex_strs.
  constructor; [|constructor; [|constructor]]; (split; [done|]); (split; [done|]); (split; [repeat constructor|]); (split; [vm_compute; reflexivity|]);
    (split; [apply ex_exec_apart; done|left; done]).
Qed.

(** [init] runs "x" with the arguments "x" and "hi". *)
Lemma exec_all_or_nothing_witness :
  ∃ s' T' g, exec ex_ustack [120] ex_argv ex_exec = OK 2 s' ∧ rep s' 0 false [] T' ∧ inv None ex_pages T' ∧
    program ex_elf ex_strs = Some g ∧ has_args g ex_strs ∧ ∃ pt, umem (mm (km T')) pt 3 = Some 2.
Proof.
  destruct ex_exec_inv as [Hs Hi]. destruct (lookup_lt_is_Some_2 (procs ex_exec) 0) as [p Hp]; [rewrite (inv_length _ _ _ Hi); lia|].
  destruct (inv_mem _ _ _ Hi) as (Fr & (Hk & _) & _).
  assert (c_proc ex_exec = pptr 0) as Hc by (vm_compute; reflexivity).
  assert (pf_ready (fl ex_exec) [120]) as Hrd by exact I.
  destruct (exec_all_or_nothing ex_pages ex_exec ex_exec 0 p Fr ex_ustack [120] ex_argv ex_strs Hs Hi Hc Hp Hk Hrd) as (r & s' & E & T' & Hs' & Hi' & H).
  { apply ex_exec_apart. vm_compute. discriminate. }
  { exact ex_argv_ok. }
  assert (match exec ex_ustack [120] ex_argv ex_exec with OK r _ => r | _ => 0 end = 2) as Er by (vm_compute; reflexivity).
  rewrite E in Er. subst r. exists s', T'. destruct H as [[H _]|(data & g & pt & Ed & Eg & _ & Hh & _ & Hr & _)]; [discriminate H|].
  exists g. split; [exact E|]. split; [exact Hs'|]. split; [exact Hi'|]. injection Ed as <-. split; [exact Eg|]. split; [exact Hh|].
  exists pt. rewrite (rn_mem _ _ _ _ _ Hr 3) by lia.
  assert (match program ex_elf ex_strs with Some g => g_mem g 3 | None => None end = Some 2) as Em by (vm_compute; reflexivity).
  rewrite Eg in Em. exact Em.
Defined.
End ex.
