(* ===== verification/Wakeup.v ===== *)
(** * Sleep and wakeup, step by step: kernel/proc.c

    [sleep] and [wakeup] with their locks, one step per access to shared memory,
    run by a process [P] on one CPU, the scheduler, and any number of wakers on
    other CPUs.  [P] waits under the lock [lk] for a condition, in the way every
    caller of [sleep] does; a waker sets the condition under [lk] and calls
    [wakeup], of which the turn for [P] is shown; the other turns touch other
    processes.  A schedule is a list of the threads that move. *)

From stdpp Require Import base list numbers.
From S2P Require Import Prelude Proc.

(** The threads, also as owners of locks.  [Sched] is the scheduler of [P]'s CPU. *)
Inductive thread := P | Sched | Waker (i : nat).
#[global] Instance thread_eq_dec : EqDecision thread.
Proof. solve_decision. Defined.

(** Where [P] is: in its loop [acquire(lk); while(!cond) sleep(chan, lk); ...;
    release(lk)], or in [sleep]. *)
Inductive ppc :=
| PIdle        (* acquire(lk) next *)
| PTest        (* the test of the loop *)
| PUse         (* the condition held: use it *)
| PUnlock      (* release(lk), leaving the loop *)
| PLock        (* sleep: acquire(&p->lock) *)
| PRelease     (* release(lk) *)
| PChan        (* p->chan = chan *)
| PSleep       (* p->state = SLEEPING *)
| PSched       (* sched(): swtch to the scheduler *)
| POff         (* off the CPU *)
| PTidy        (* back from sched(): p->chan = 0 *)
| PRelock1     (* release(&p->lock) *)
| PRelock2.    (* acquire(lk) *)

(** Where the scheduler is with [P]. *)
Inductive spc := SLoop | SCheck | SSwitch | SRun | SBack.

(** Where a waker is. *)
Inductive wpc := WIdle | WSet | WLock | WCheck | WUnlockP | WUnlock.

Record wst := mkW {
  lk : option thread;         (* the condition lock, and who holds it *)
  plock : option thread;      (* p->lock *)
  state : procstate;          (* p->state *)
  chan : bool;                (* p->chan is the channel *)
  cond : bool;
  ppos : ppc;
  spos : spc;
  wpos : nat → wpc;
}.
Definition set_lk x s := mkW x (plock s) (state s) (chan s) (cond s) (ppos s) (spos s) (wpos s).
Definition set_plock x s := mkW (lk s) x (state s) (chan s) (cond s) (ppos s) (spos s) (wpos s).
Definition set_state x s := mkW (lk s) (plock s) x (chan s) (cond s) (ppos s) (spos s) (wpos s).
Definition set_chan x s := mkW (lk s) (plock s) (state s) x (cond s) (ppos s) (spos s) (wpos s).
Definition set_cond x s := mkW (lk s) (plock s) (state s) (chan s) x (ppos s) (spos s) (wpos s).
Definition to_p x s := mkW (lk s) (plock s) (state s) (chan s) (cond s) x (spos s) (wpos s).
Definition to_s x s := mkW (lk s) (plock s) (state s) (chan s) (cond s) (ppos s) x (wpos s).
Definition to_w i x s := mkW (lk s) (plock s) (state s) (chan s) (cond s) (ppos s) (spos s) (λ j, if decide (i = j) then x else wpos s j).

(** [acquire]: a thread that finds the lock held spins, which changes nothing. *)
Definition take_lk (t : thread) (s s' : wst) : wst := match lk s with Some _ => s | None => set_lk (Some t) s' end.
Definition take_plock (t : thread) (s s' : wst) : wst := match plock s with Some _ => s | None => set_plock (Some t) s' end.

(** A step of [P]. *)
Definition sleep_step (s : wst) : wst :=
  match ppos s with
  | PIdle => take_lk P s (to_p PTest s)
  | PTest => to_p (if cond s then PUse else PLock) s
  | PUse => set_cond false (to_p PUnlock s)
  | PUnlock => set_lk None (to_p PIdle s)
  | PLock => take_plock P s (to_p PRelease s)
  | PRelease => set_lk None (to_p PChan s)
  | PChan => set_chan true (to_p PSleep s)
  | PSleep => set_state SLEEPING (to_p PSched s)
  | PSched => set_plock (Some Sched) (to_s SBack (to_p POff s))
  | POff => s
  | PTidy => set_chan false (to_p PRelock1 s)
  | PRelock1 => set_plock None (to_p PRelock2 s)
  | PRelock2 => take_lk P s (to_p PTest s)
  end.

(** A step of the scheduler of [P]'s CPU.  [p->lock] is held by the CPU: across
    [swtch] it passes from [P] to the scheduler and back. *)
Definition sched_step (s : wst) : wst :=
  match spos s with
  | SLoop => take_plock Sched s (to_s SCheck s)
  | SCheck => match state s with RUNNABLE => set_state RUNNING (to_s SSwitch s) | _ => to_s SBack s end
  | SSwitch => set_plock (Some P) (to_p PTidy (to_s SRun s))
  | SRun => s
  | SBack => set_plock None (to_s SLoop s)
  end.

(** A step of a waker. *)
Definition wakeup_step (i : nat) (s : wst) : wst :=
  match wpos s i with
  | WIdle => take_lk (Waker i) s (to_w i WSet s)
  | WSet => set_cond true (to_w i WLock s)
  | WLock => take_plock (Waker i) s (to_w i WCheck s)
  | WCheck =>
      match state s, chan s with
      | SLEEPING, true => set_state RUNNABLE (to_w i WUnlockP s)
      | _, _ => to_w i WUnlockP s
      end
  | WUnlockP => set_plock None (to_w i WUnlock s)
  | WUnlock => set_lk None (to_w i WIdle s)
  end.

Definition thread_step (t : thread) (s : wst) : wst :=
  match t with P => sleep_step s | Sched => sched_step s | Waker i => wakeup_step i s end.
Definition schedule (ts : list thread) (s : wst) : wst := foldl (λ s t, thread_step t s) s ts.

(** [P] runs, and wants the condition. *)
Definition start : wst := mkW None None RUNNING false false PIdle SRun (λ _, WIdle).

(** ** The invariant *)

(** Who holds the locks, by position. *)
Definition p_has_lk (p : ppc) : bool := match p with PTest | PUse | PUnlock | PLock | PRelease => true | _ => false end.
Definition p_has_plock (p : ppc) : bool :=
  match p with PRelease | PChan | PSleep | PSched | PTidy | PRelock1 => true | _ => false end.
Definition s_has_plock (c : spc) : bool := match c with SCheck | SSwitch | SBack => true | _ => false end.
Definition w_has_lk (w : wpc) : bool := match w with WIdle => false | _ => true end.
Definition w_has_plock (w : wpc) : bool := match w with WCheck | WUnlockP => true | _ => false end.
(** The waker has set the condition and not yet looked at [P]. *)
Definition w_due (w : wpc) : bool := match w with WLock | WCheck => true | _ => false end.

Definition has_lk (s : wst) (t : thread) : bool :=
  match t with P => p_has_lk (ppos s) | Sched => false | Waker i => w_has_lk (wpos s i) end.
Definition has_plock (s : wst) (t : thread) : bool :=
  match t with P => p_has_plock (ppos s) | Sched => s_has_plock (spos s) | Waker i => w_has_plock (wpos s i) end.

Record winv (s : wst) : Prop := mkWinv {
  w_lk : ∀ t, has_lk s t = true ↔ lk s = Some t;
  w_plock : ∀ t, has_plock s t = true ↔ plock s = Some t;
  (* P is off the CPU or has it *)
  w_cpu : match spos s with
          | SRun => ppos s ≠ POff ∧ state s = match ppos s with PSched => SLEEPING | _ => RUNNING end
          | SSwitch => ppos s = POff ∧ state s = RUNNING
          | _ => ppos s = POff ∧ (state s = SLEEPING ∨ state s = RUNNABLE)
          end;
  w_chan : state s = SLEEPING ∨ ppos s = PSleep → chan s = true;
  (* past the test, the condition is false until a waker comes, who will look *)
  w_cond : match ppos s with
           | PLock | PRelease => cond s = false
           | PChan | PSleep => cond s = true → ∃ i, w_due (wpos s i) = true
           | _ => state s = SLEEPING → cond s = true → ∃ i, w_due (wpos s i) = true
           end;
}.

Lemma wstart_inv : winv start.
Proof. constructor; try done; [intros [| |]; done..|]. intros [?|?]; done. Qed.

(** Two owners of a lock are one. *)
Lemma lk_owner s t t' : winv s → has_lk s t = true → has_lk s t' = true → t = t'.
Proof. intros Hw H1%(w_lk s Hw) H2%(w_lk s Hw). congruence. Qed.
Lemma plock_owner s t t' : winv s → has_plock s t = true → has_plock s t' = true → t = t'.
Proof. intros Hw H1%(w_plock s Hw) H2%(w_plock s Hw). congruence. Qed.

(** The effect of a step of [t] on the ownership of a lock. *)
Lemma owner_keep (o : option thread) (h h' : thread → bool) :
  (∀ t, h t = true ↔ o = Some t) → (∀ t, h' t = h t) → ∀ t, h' t = true ↔ o = Some t.
Proof. intros H E t. by rewrite E. Qed.
Lemma owner_take (h h' : thread → bool) t0 :
  (∀ t, h t = true ↔ None = Some t) → h' t0 = true → (∀ t, t ≠ t0 → h' t = h t) → ∀ t, h' t = true ↔ Some t0 = Some t.
Proof.
  intros H E E' t. destruct (decide (t = t0)) as [->|Hne]; [tauto|]. rewrite E' by done. rewrite H. split; [done|congruence].
Qed.
Lemma owner_drop (o : option thread) (h h' : thread → bool) t0 :
  (∀ t, h t = true ↔ o = Some t) → h t0 = true → h' t0 = false → (∀ t, t ≠ t0 → h' t = h t) → ∀ t, h' t = true ↔ None = Some t.
Proof.
  intros H E E0 E' t. destruct (decide (t = t0)) as [->|Hne]; [rewrite E0; by split|]. rewrite E' by done. rewrite H.
  apply H in E. split; [congruence|done].
Qed.

Lemma owner_pass (o : option thread) (h h' : thread → bool) t0 t1 :
  (∀ t, h t = true ↔ o = Some t) → h t0 = true → h' t0 = false → h' t1 = true → (∀ t, t ≠ t0 → t ≠ t1 → h' t = h t) →
  ∀ t, h' t = true ↔ Some t1 = Some t.
Proof.
  intros H E E0 E1 E' t. destruct (decide (t = t1)) as [->|H1]; [tauto|]. destruct (decide (t = t0)) as [->|H0].
  - rewrite E0. split; [done|congruence].
  - rewrite E' by done. rewrite H. apply H in E. split; congruence.
Qed.

Ltac own_side :=
  cbn; intros; repeat match goal with t : thread |- _ => destruct t; cbn end; repeat case_decide; subst;
  try match goal with E : ?f ?i = _ |- context [?f ?i] => rewrite E end; congruence || done.
Ltac own H t0 :=
  first [ solve [eapply (owner_keep _ _ _ H); own_side]
        | solve [eapply (owner_take _ _ t0 H); own_side]
        | solve [eapply (owner_drop _ _ _ t0 H); own_side]
        | solve [eapply (owner_pass _ _ _ P Sched H); own_side]
        | solve [eapply (owner_pass _ _ _ Sched P H); own_side] ].

Lemma sleep_step_inv s : winv s → winv (sleep_step s).
Proof.
  destruct s as [l pl st ch cd pp sp wp]. intros Hw. pose proof Hw as [H1 H2 H3 H4 H5]. unfold sleep_step, take_lk, take_plock.
  destruct pp; cbn in *; try done.
  all: try (destruct sp; destruct H3 as [H3 H3']; try done; subst).
  all: repeat match goal with
    | |- context [if ?o is Some _ then _ else _] => destruct o; [done|]
    | |- context [to_p (if ?c then _ else _)] => destruct c
    end.
  all: constructor; [own H1 P|own H2 P|try done..]; cbn in *; auto; try congruence; try (intros [?|?]; try done; auto).
Qed.

Lemma sched_step_inv s : winv s → winv (sched_step s).
Proof.
  destruct s as [l pl st ch cd pp sp wp]. intros Hw. pose proof Hw as [H1 H2 H3 H4 H5]. unfold sched_step, take_plock.
  destruct sp; cbn in *; try done; destruct H3 as [-> H3]; cbn in *.
  all: repeat match goal with
    | |- context [if ?o is Some _ then _ else _] => destruct o; [done|]
    | |- context [match ?x with RUNNABLE => _ | _ => _ end] => destruct H3 as [-> | ->]
    end.
  all: constructor; [own H1 Sched|own H2 Sched|try done..]; cbn in *; auto; try congruence; try (intros [?|?]; try done; auto).
Qed.

(** What [w_cond] says, of the existence [d] of a waker that is due. *)
Definition cond_ok (p : ppc) (st : procstate) (c : bool) (d : Prop) : Prop :=
  match p with
  | PLock | PRelease => c = false
  | PChan | PSleep => c = true → d
  | _ => st = SLEEPING → c = true → d
  end.

Lemma cond_ok_due p st c d : (p_has_lk p = true → c = false) → d → cond_ok p st c d.
Proof. destruct p; cbn; auto. Qed.
Lemma cond_ok_mono p st c (d d' : Prop) : (d → d') → cond_ok p st c d → cond_ok p st c d'.
Proof. destruct p; cbn; auto. Qed.
Lemma cond_ok_awake p st st' c d d' : (p_has_plock p = false) → st' ≠ SLEEPING → cond_ok p st c d → cond_ok p st' c d'.
Proof. destruct p; cbn; try done; intros; congruence. Qed.

Lemma due_other (w : nat → wpc) i x :
  w_due (w i) = false → (∃ j, w_due (w j) = true) → ∃ j, w_due (if decide (i = j) then x else w j) = true.
Proof. intros Hi [j Hj]. exists j. case_decide; [congruence|done]. Qed.
Lemma due_self (w : nat → wpc) i x : w_due x = true → ∃ j, w_due (if decide (i = j) then x else w j) = true.
Proof. intros Hx. exists i. by rewrite decide_True. Qed.

Lemma wakeup_step_inv i s : winv s → winv (wakeup_step i s).
Proof.
  intros Hw. assert (p_has_plock (ppos s) = true → w_has_plock (wpos s i) = false) as Hx.
  { intros E. destruct (w_has_plock (wpos s i)) eqn:E'; [|done]. by assert (P = Waker i) by by eapply (plock_owner s). }
  assert (p_has_lk (ppos s) = true → w_has_lk (wpos s i) = false) as Hy.
  { intros E. destruct (w_has_lk (wpos s i)) eqn:E'; [|done]. by assert (P = Waker i) by by eapply (lk_owner s). }
  destruct s as [l pl st ch cd pp sp wp]. destruct Hw as [H1 H2 H3 H4 H5]. cbn in *.
  change (cond_ok pp st cd (∃ j, w_due (wp j) = true)) in H5. unfold wakeup_step, take_plock, take_lk.
  destruct (wp i) eqn:Ei; cbn in *; rewrite Ei.
  - destruct l; [done|]. constructor; [own H1 (Waker i)|own H2 (Waker i)|done..|].
    eapply cond_ok_mono, H5. apply (due_other wp i). by rewrite Ei.
  - constructor; [own H1 (Waker i)|own H2 (Waker i)|done..|].
    apply cond_ok_due; [intros E; by specialize (Hy E)|by apply (due_self wp i)].
  - destruct pl; [done|]. constructor; [own H1 (Waker i)|own H2 (Waker i)|done..|].
    apply cond_ok_due; [intros E; by specialize (Hy E)|by apply (due_self wp i)].
  - assert (p_has_plock pp = false) as Hp by (destruct (p_has_plock pp); [by specialize (Hx eq_refl)|done]).
    assert (st = SLEEPING ∧ ch = true ∨ st ≠ SLEEPING) as [[-> ->]|Hn].
    { destruct (decide (st = SLEEPING)); [left; auto|by right]. }
    + constructor; [own H1 (Waker i)|own H2 (Waker i)| | |]; cbn.
      * destruct sp; try (destruct H3; auto; done). destruct H3 as [? H3], pp; try done.
      * intros [?| ->]; done.
      * by eapply cond_ok_awake, H5.
    + replace (match st with SLEEPING => _ | _ => _ end) with (to_w i WUnlockP (mkW l pl st ch cd pp sp wp)) by by destruct st.
      constructor; [own H1 (Waker i)|own H2 (Waker i)|done..|]. by eapply cond_ok_awake, H5.
  - constructor; [own H1 (Waker i)|own H2 (Waker i)|done..|].
    eapply cond_ok_mono, H5. apply (due_other wp i). by rewrite Ei.
  - constructor; [own H1 (Waker i)|own H2 (Waker i)|done..|].
    eapply cond_ok_mono, H5. apply (due_other wp i). by rewrite Ei.
Qed.

Lemma schedule_inv ts s : winv s → winv (schedule ts s).
Proof.
  revert s. induction ts as [|t ts IH]; intros s Hs; [done|]. apply IH.
  destruct t; [by apply sleep_step_inv|by apply sched_step_inv|by apply wakeup_step_inv].
Qed.

(** C26. No wakeup is lost.  However the steps of [sleep], of the scheduler and of
    any number of [wakeup]s interleave, once a waker has set the condition and
    released its lock the process does not sleep, and it gets to use the
    condition: at most eight steps of the scheduler and the process take it there. *)
Theorem no_lost_wakeup ts :
  let s := schedule ts start in
  lk s = None → cond s = true →
  state s ≠ SLEEPING ∧ ∃ n, (n ≤ 8)%nat ∧ ppos (schedule (concat (replicate n [Sched; P])) s) = PUse.
Proof.
  intros s Hl Hc. pose proof (schedule_inv ts start wstart_inv) as Hw. fold s in Hw. clearbody s.
  destruct s as [l pl st ch cd pp sp wp]. cbn in Hl, Hc. subst l cd. pose proof Hw as [H1 H2 H3 H4 H5]. cbn in H3, H5.
  assert (∀ i, wp i = WIdle) as Hi.
  { intros i. pose proof (H1 (Waker i)) as E. cbn in E. destruct (wp i); [done|..]; discriminate (proj1 E eq_refl). }
  assert (¬ ∃ i, w_due (wp i) = true) as Hd by (intros [i E]; by rewrite Hi in E).
  assert (p_has_lk pp = false) as Hp by (destruct (p_has_lk pp) eqn:E; [discriminate (proj1 (H1 P) E)|done]).
  assert (pl = if p_has_plock pp then Some P else if s_has_plock sp then Some Sched else None) as ->.
  { destruct pl as [t|].
    - pose proof (proj2 (H2 t) eq_refl) as E. destruct t; cbn in E; [by rewrite E| |by rewrite Hi in E].
      rewrite E. destruct (p_has_plock pp) eqn:E'; [by apply H2|done].
    - destruct (p_has_plock pp) eqn:E'; [by apply H2|]. destruct (s_has_plock sp) eqn:E''; [by apply H2|done]. }
  clear Hw H1 H2 H4. destruct sp, pp; cbn in Hp, H3, H5; try done; try (destruct H3; done); try (by destruct Hd; apply H5).
  all: destruct H3 as [H3 H3']; try done; try (destruct H3' as [->| ->]; [by destruct Hd; apply H5|]); subst; try (by destruct Hd; apply H5).
  all: split; [discriminate|].
  all: let go n := (exists n; split; [lia|vm_compute; reflexivity]) in
    first [go 1%nat | go 2%nat | go 3%nat | go 4%nat | go 5%nat | go 6%nat | go 7%nat | go 8%nat].
Qed.

(** The process falls asleep; a waker sets the condition and wakes it up. *)
Lemma no_lost_wakeup_witness :
  let s := schedule [P; P; P; Waker 0; P; P; Waker 0; P; Waker 0; P; Waker 0; P; Sched; Waker 0; Sched; Waker 0; Waker 0; Waker 0; Sched] start in
  state s ≠ SLEEPING ∧ ∃ n, (n ≤ 8)%nat ∧ ppos (schedule (concat (replicate n [Sched; P])) s) = PUse.
Proof. apply no_lost_wakeup; vm_compute; reflexivity. Defined.
