(* ===== verification/Fs.v ===== *)
(** * The file system: kernel/fs.c

    Blocks, inodes, directories and paths over the log.  The state is the super
    block, the table of in-memory inodes with its lock, the log with the buffer
    cache, and the current directory of the calling process.  [struct inode *]
    is 0 for the null pointer and [i + 1] for [&itable.inode[i]].  On-disk
    structures are fields at their offsets in a block.

    [readi] and [writei] copy between a buffer and user memory or a kernel
    variable: the destination of [readi] is a consumer of bytes with a state of
    its own, the source of [writei] a producer of bytes, and both can fail, as
    [either_copyout] and [either_copyin] do. *)

From stdpp Require Import base gmap list strings numbers.
From S2P Require Import Prelude Block SleepLock Bio Log.

Definition ROOTDEV : Z := 1.
Definition ROOTINO : Z := 1.
Definition FSMAGIC : Z := 270544960.
Definition NDIRECT : Z := 12.
Definition NINDIRECT : Z := BSIZE / 4.
Definition MAXFILE : Z := NDIRECT + NINDIRECT.
Definition NINODE : Z := 50.
Definition DIRSIZ : Z := 14.
Definition DINODE_size : Z := 64.
Definition DIRENT_size : Z := 16.
Definition T_DIR : Z := 1.
Definition T_FILE : Z := 2.
Definition T_DEVICE : Z := 3.

(** Inodes per block, block containing inode [i], bitmap bits per block, block
    of the free map containing the bit for block [b]. *)
Definition IPB : Z := BSIZE / DINODE_size.
Definition IBLOCK (i : Z) (sb : superblock) : Z := u32 (i / IPB + sb_inodestart sb).
Definition BPB : Z := BSIZE * 8.
Definition BBLOCK (b : Z) (sb : superblock) : Z := u32 (b / BPB + sb_bmapstart sb).

(** In-memory copy of an inode. *)
Record inode := mkInode {
  i_dev : Z;
  i_inum : Z;
  i_ref : Z;
  i_lock : sleeplock;
  i_valid : bool;
  i_type : Z;        (* copy of disk inode *)
  i_major : Z;
  i_minor : Z;
  i_nlink : Z;
  i_size : Z;
  i_addrs : list Z;  (* [NDIRECT+1] *)
}.
Definition set_i_id (dev inum ref : Z) (valid : bool) (ip : inode) : inode :=
  mkInode dev inum ref (i_lock ip) valid (i_type ip) (i_major ip) (i_minor ip) (i_nlink ip) (i_size ip) (i_addrs ip).
Definition set_i_ref (ref : Z) (ip : inode) : inode :=
  mkInode (i_dev ip) (i_inum ip) ref (i_lock ip) (i_valid ip) (i_type ip) (i_major ip) (i_minor ip) (i_nlink ip) (i_size ip) (i_addrs ip).
Definition set_i_lock (lk : sleeplock) (ip : inode) : inode :=
  mkInode (i_dev ip) (i_inum ip) (i_ref ip) lk (i_valid ip) (i_type ip) (i_major ip) (i_minor ip) (i_nlink ip) (i_size ip) (i_addrs ip).
Definition set_i_valid (v : bool) (ip : inode) : inode :=
  mkInode (i_dev ip) (i_inum ip) (i_ref ip) (i_lock ip) v (i_type ip) (i_major ip) (i_minor ip) (i_nlink ip) (i_size ip) (i_addrs ip).
Definition set_i_type (x : Z) (ip : inode) : inode :=
  mkInode (i_dev ip) (i_inum ip) (i_ref ip) (i_lock ip) (i_valid ip) x (i_major ip) (i_minor ip) (i_nlink ip) (i_size ip) (i_addrs ip).
Definition set_i_copy (ty maj mnr nl sz : Z) (addrs : list Z) (ip : inode) : inode :=
  mkInode (i_dev ip) (i_inum ip) (i_ref ip) (i_lock ip) (i_valid ip) ty maj mnr nl sz addrs.
Definition set_i_size (x : Z) (ip : inode) : inode :=
  mkInode (i_dev ip) (i_inum ip) (i_ref ip) (i_lock ip) (i_valid ip) (i_type ip) (i_major ip) (i_minor ip) (i_nlink ip) x (i_addrs ip).
Definition set_i_addr (n a : Z) (ip : inode) : inode :=
  mkInode (i_dev ip) (i_inum ip) (i_ref ip) (i_lock ip) (i_valid ip) (i_type ip) (i_major ip) (i_minor ip) (i_nlink ip) (i_size ip)
    (<[Z.to_nat n := a]> (i_addrs ip)).

Definition inode0 : inode := mkInode 0 0 0 free_lock false 0 0 0 0 0 (replicate 13 0).

Record fsst := mkFs {
  sb : superblock;
  it_locked : bool;       (* itable.lock *)
  itable : list inode;    (* itable.inode[NINODE] *)
  flog : logst;
  cwd : Z;                (* myproc()->cwd *)
}.
Definition set_sb (x : superblock) (s : fsst) : fsst := mkFs x (it_locked s) (itable s) (flog s) (cwd s).
Definition set_it_locked (b : bool) (s : fsst) : fsst := mkFs (sb s) b (itable s) (flog s) (cwd s).
Definition set_itable (l : list inode) (s : fsst) : fsst := mkFs (sb s) (it_locked s) l (flog s) (cwd s).
Definition set_flog (l : logst) (s : fsst) : fsst := mkFs (sb s) (it_locked s) (itable s) l (cwd s).

(** Calls of the layers below. *)
Definition inlog {A} (m : M logst A) : M fsst A := zoom flog set_flog m.
Definition fbread (dev n : Z) : M fsst Z := inlog (inb (bread dev n)).
Definition fbrelse (b : Z) : M fsst unit := inlog (inb (brelse b)).
Definition flog_write (b : Z) : M fsst unit := inlog (log_write b).
Definition fdata (b : Z) : M fsst block := inlog (bdata b).
Definition fset (b : Z) (f : block → block) : M fsst unit := inlog (set_bdata b f).

(** Access through a pointer to an inode. *)
Definition iptr (i : nat) : Z := Z.of_nat i + 1.
Definition islot (ip : Z) : nat := Z.to_nat (ip - 1).
Definition inode_at (ip : Z) (s : fsst) : inode := default inode0 (itable s !! islot ip).
Definition iupd (ip : Z) (f : inode → inode) (s : fsst) : fsst := set_itable (alter f (islot ip) (itable s)) s.
Definition iload (ip : Z) : M fsst inode := gets (inode_at ip).
Definition istore (ip : Z) (f : inode → inode) : M fsst unit := modify (iupd ip f).

Definition itacquire := acquire it_locked set_it_locked.
Definition itrelease := release it_locked set_it_locked.
Definition fspid (s : fsst) : Z := curpid (bcache (flog s)).
Definition ilk (ip : Z) (s : fsst) : sleeplock := i_lock (inode_at ip s).
Definition set_ilk (ip : Z) (lk : sleeplock) (s : fsst) : fsst := iupd ip (set_i_lock lk) s.
Definition iacquiresleep (ip : Z) : M fsst unit := acquiresleep (ilk ip) (set_ilk ip) fspid ip.
Definition ireleasesleep (ip : Z) : M fsst unit := releasesleep (ilk ip) (set_ilk ip) ip.
Definition iholdingsleep (ip : Z) : M fsst bool := holdingsleep (ilk ip) (set_ilk ip) fspid.

(** ** Super block and blocks *)

(** [struct superblock] at the start of a block. *)
Definition sb_of (d : block) : superblock :=
  mkSB (rd32 0 d) (rd32 4 d) (rd32 8 d) (rd32 12 d) (rd32 16 d) (rd32 20 d) (rd32 24 d) (rd32 28 d).
Definition readsb (dev : Z) : M fsst unit :=
  bp <- fbread dev 1 ;;
  d <- fdata bp ;;
  modify (set_sb (sb_of d)) ;;
  fbrelse bp.

Definition fsinit (dev : Z) : M fsst unit :=
  readsb dev ;;
  x <- gets sb ;;
  if negb (sb_magic x =? FSMAGIC) then panic "invalid file system"
  else inlog (initlog dev x).

(** Zero a block. *)
Definition bzero (dev bno : Z) : M fsst unit :=
  bp <- fbread dev bno ;;
  fset bp (λ _, zero_block) ;;
  flog_write bp ;;
  fbrelse bp.

(** The bit of block [bi] of the bitmap block [d]. *)
Definition bit_mask (bi : Z) : Z := Z.shiftl 1 (bi mod 8).
Definition bit_free (bi : Z) (d : block) : bool := Z.land (rd8 (bi / 8) d) (bit_mask bi) =? 0.
Definition set_bit (bi : Z) (d : block) : block := wr8 (bi / 8) (Z.lor (rd8 (bi / 8) d) (bit_mask bi)) d.
Definition clear_bit (bi : Z) (d : block) : block := wr8 (bi / 8) (Z.land (rd8 (bi / 8) d) (Z.lnot (bit_mask bi))) d.

(** A turn of the inner loop of [balloc]; [None] when the block of the bitmap
    has no free bit. *)
Definition balloc_turn (dev b bp bi : Z) : M fsst (Z + option Z) :=
  x <- gets sb ;;
  if (bi <? BPB) && (b + bi <? sb_size x) then
    d <- fdata bp ;;
    if bit_free bi d then           (* is block free? *)
      fset bp (set_bit bi) ;;       (* mark block in use *)
      flog_write bp ;;
      fbrelse bp ;;
      bzero dev (b + bi) ;;
      ret (inr (Some (b + bi)))
    else ret (inl (bi + 1))
  else fbrelse bp ;; ret (inr None).

(** Allocate a zeroed disk block. *)
Definition balloc (dev : Z) : M fsst Z :=
  x <- gets sb ;;
  loop (Z.to_nat (sb_size x / BPB) + 2) (λ b,
    if b <? sb_size x then
      bp <- fbread dev (BBLOCK b x) ;;
      r <- loop (S (Z.to_nat BPB)) (balloc_turn dev b bp) 0 ;;
      match r with Some n => ret (inr n) | None => ret (inl (b + BPB)) end
    else panic "balloc: out of blocks") 0.

(** Free a disk block. *)
Definition bfree (dev b : Z) : M fsst unit :=
  x <- gets sb ;;
  bp <- fbread dev (BBLOCK b x) ;;
  let bi := b mod BPB in
  d <- fdata bp ;;
  if bit_free bi d then panic "freeing free block"
  else
    fset bp (clear_bit bi) ;;
    flog_write bp ;;
    fbrelse bp.

(** ** Inodes *)

Definition iinit : M fsst unit :=
  modify (set_it_locked false) ;;
  for_loop (Z.to_nat NINODE) 0 (λ i, initsleeplock (set_ilk (iptr (Z.to_nat i)))).

(** Offset of inode [inum] in its block, and the fields of [struct dinode]. *)
Definition dip_off (inum : Z) : Z := (inum mod IPB) * DINODE_size.
Definition dip_addrs (o : Z) (d : block) : list Z :=
  map (λ k, rd32 (o + 12 + 4 * Z.of_nat k) d) (seq 0 13).
Fixpoint wr_addrs (o : Z) (l : list Z) (d : block) : block :=
  match l with [] => d | a :: l' => wr_addrs (o + 4) l' (wr32 o a d) end.

(** Find the inode with number [inum]; the local variable [empty] is a slot seen
    to be free. *)
Definition iget_turn (dev inum : Z) (l : nat * Z) : M fsst (nat * Z + (Z + Z)) :=
  let '(i, empty) := l in
  if (Z.to_nat NINODE <=? i)%nat then ret (inr (inr empty))
  else
    ip <- iload (iptr i) ;;
    if (0 <? i_ref ip) && (i_dev ip =? dev) && (i_inum ip =? inum) then
      istore (iptr i) (λ ip, set_i_ref (i32 (i_ref ip + 1)) ip) ;;
      itrelease ;;
      ret (inr (inl (iptr i)))
    else ret (inl (S i, if (empty =? 0) && (i_ref ip =? 0) then iptr i else empty)).
Definition iget (dev inum : Z) : M fsst Z :=
  itacquire ;;
  r <- loop (S (Z.to_nat NINODE)) (iget_turn dev inum) (0%nat, 0) ;;
  match r with
  | inl ip => ret ip
  | inr empty =>
      (* recycle an inode entry *)
      if empty =? 0 then panic "iget: no inodes"
      else
        istore empty (set_i_id dev inum 1 false) ;;
        itrelease ;;
        ret empty
  end.

(** Allocate an inode on device [dev]. *)
Definition ialloc (dev type : Z) : M fsst Z :=
  x <- gets sb ;;
  loop (S (Z.to_nat (sb_ninodes x))) (λ inum,
    if inum <? sb_ninodes x then
      bp <- fbread dev (IBLOCK inum x) ;;
      d <- fdata bp ;;
      let o := dip_off inum in
      if i16 (rd16 o d) =? 0 then                       (* a free inode *)
        fset bp (wr_bytes o (replicate 64 0)) ;;
        fset bp (wr16 o type) ;;
        flog_write bp ;;                                (* mark it allocated on the disk *)
        fbrelse bp ;;
        ip <- iget dev inum ;;
        ret (inr ip)
      else fbrelse bp ;; ret (inl (inum + 1))
    else panic "ialloc: no inodes") 1.

(** Copy a modified in-memory inode to disk. *)
Definition iupdate (ip : Z) : M fsst unit :=
  x <- gets sb ;;
  p <- iload ip ;;
  bp <- fbread (i_dev p) (IBLOCK (i_inum p) x) ;;
  let o := dip_off (i_inum p) in
  fset bp (wr16 o (i_type p)) ;;
  fset bp (wr16 (o + 2) (i_major p)) ;;
  fset bp (wr16 (o + 4) (i_minor p)) ;;
  fset bp (wr16 (o + 6) (i_nlink p)) ;;
  fset bp (wr32 (o + 8) (i_size p)) ;;
  fset bp (wr_addrs (o + 12) (i_addrs p)) ;;
  flog_write bp ;;
  fbrelse bp.

Definition idup (ip : Z) : M fsst Z :=
  itacquire ;;
  istore ip (λ p, set_i_ref (i32 (i_ref p + 1)) p) ;;
  itrelease ;;
  ret ip.

(** Lock the given inode; reads the inode from disk if necessary. *)
Definition ilock (ip : Z) : M fsst unit :=
  p <- iload ip ;;
  if (ip =? 0) || (i_ref p <? 1) then panic "ilock"
  else
    iacquiresleep ip ;;
    p <- iload ip ;;
    if negb (i_valid p) then
      x <- gets sb ;;
      bp <- fbread (i_dev p) (IBLOCK (i_inum p) x) ;;
      d <- fdata bp ;;
      let o := dip_off (i_inum p) in
      istore ip (set_i_copy (i16 (rd16 o d)) (i16 (rd16 (o + 2) d)) (i16 (rd16 (o + 4) d)) (i16 (rd16 (o + 6) d))
                   (rd32 (o + 8) d) (dip_addrs o d)) ;;
      fbrelse bp ;;
      istore ip (set_i_valid true) ;;
      p <- iload ip ;;
      if i_type p =? 0 then panic "ilock: no type" else ret tt
    else ret tt.

Definition iunlock (ip : Z) : M fsst unit :=
  p <- iload ip ;;
  if ip =? 0 then panic "iunlock"
  else
    h <- iholdingsleep ip ;;
    if negb h || (i_ref p <? 1) then panic "iunlock" else ireleasesleep ip.

(** The disk block address of the [bn]th block in inode [ip]; allocated if there
    is none. *)
Definition addr_of (n : Z) (p : inode) : Z := default 0 (i_addrs p !! Z.to_nat n).
Definition bmap (ip bn : Z) : M fsst Z :=
  p <- iload ip ;;
  if bn <? NDIRECT then
    let addr := addr_of bn p in
    if addr =? 0 then
      addr <- balloc (i_dev p) ;; istore ip (set_i_addr bn addr) ;; ret addr
    else ret addr
  else
    let bn := bn - NDIRECT in
    if bn <? NINDIRECT then
      (* load indirect block, allocating if necessary *)
      addr <- (let addr := addr_of NDIRECT p in
               if addr =? 0 then
                 addr <- balloc (i_dev p) ;; istore ip (set_i_addr NDIRECT addr) ;; ret addr
               else ret addr) ;;
      bp <- fbread (i_dev p) addr ;;
      d <- fdata bp ;;
      let addr := rd32 (4 * bn) d in
      addr <- (if addr =? 0 then
                 addr <- balloc (i_dev p) ;;
                 fset bp (wr32 (4 * bn) addr) ;;
                 flog_write bp ;;
                 ret addr
               else ret addr) ;;
      fbrelse bp ;;
      ret addr
    else panic "bmap: out of range".

(** Truncate inode (discard contents). *)
Definition itrunc (ip : Z) : M fsst unit :=
  for_loop (Z.to_nat NDIRECT) 0 (λ i,
    p <- iload ip ;;
    if truthy (addr_of i p) then bfree (i_dev p) (addr_of i p) ;; istore ip (set_i_addr i 0) else ret tt) ;;
  p <- iload ip ;;
  (if truthy (addr_of NDIRECT p) then
     bp <- fbread (i_dev p) (addr_of NDIRECT p) ;;
     for_loop (Z.to_nat NINDIRECT) 0 (λ j,
       d <- fdata bp ;;
       if truthy (rd32 (4 * j) d) then bfree (i_dev p) (rd32 (4 * j) d) else ret tt) ;;
     fbrelse bp ;;
     bfree (i_dev p) (addr_of NDIRECT p) ;;
     istore ip (set_i_addr NDIRECT 0)
   else ret tt) ;;
  istore ip (set_i_size 0) ;;
  iupdate ip.

(** Drop a reference to an in-memory inode; the last one to an inode without
    links frees the inode and its content on disk. *)
Definition iput (ip : Z) : M fsst unit :=
  itacquire ;;
  p <- iload ip ;;
  (if (i_ref p =? 1) && i_valid p && (i_nlink p =? 0) then
     iacquiresleep ip ;;
     itrelease ;;
     itrunc ip ;;
     istore ip (set_i_type 0) ;;
     iupdate ip ;;
     istore ip (set_i_valid false) ;;
     ireleasesleep ip ;;
     itacquire
   else ret tt) ;;
  istore ip (λ p, set_i_ref (i32 (i_ref p - 1)) p) ;;
  itrelease.

Definition iunlockput (ip : Z) : M fsst unit := iunlock ip ;; iput ip.

Record stat := mkStat { st_dev : Z; st_ino : Z; st_type : Z; st_nlink : Z; st_size : Z }.
Definition stati (ip : Z) : M fsst stat :=
  p <- iload ip ;;
  ret (mkStat (i32 (i_dev p)) (i_inum p) (i_type p) (i_nlink p) (i_size p)).

(** ** Reading and writing *)

(** Read data from inode: [copy x l] hands the bytes [l] to the destination and
    tells whether that failed (-1). *)
Definition readi_turn {X} (ip : Z) (copy : X → list Z → M fsst (X * Z)) (n : Z) (l : X * Z * Z) :
    M fsst (X * Z * Z + X * Z) :=
  let '(x, tot, off) := l in
  if tot <? n then
    p <- iload ip ;;
    a <- bmap ip (off / BSIZE) ;;
    bp <- fbread (i_dev p) a ;;
    let m := Z.min (n - tot) (BSIZE - off mod BSIZE) in
    d <- fdata bp ;;
    '(x', r) <- copy x (rd_bytes (off mod BSIZE) m d) ;;
    if r =? -1 then fbrelse bp ;; ret (inr (x', -1))
    else fbrelse bp ;; ret (inl (x', tot + m, u32 (off + m)))
  else ret (inr (x, tot)).
Definition readi {X} (ip : Z) (copy : X → list Z → M fsst (X * Z)) (x : X) (off n : Z) : M fsst (X * Z) :=
  p <- iload ip ;;
  if (i_size p <? off) || (u32 (off + n) <? off) then ret (x, 0)
  else
    let n := if i_size p <? u32 (off + n) then u32 (i_size p - off) else n in
    loop (Z.to_nat (n / BSIZE) + 3) (readi_turn ip copy n) (x, 0, off).

(** Write data to inode: [src tot m] are the next [m] bytes of the source, or
    the bytes that were copied before the copy failed (-1). *)
Definition writei_turn (ip : Z) (src : Z → Z → M fsst (Z * list Z)) (n : Z) (l : Z * Z) : M fsst (Z * Z + Z * Z) :=
  let '(tot, off) := l in
  if tot <? n then
    p <- iload ip ;;
    a <- bmap ip (off / BSIZE) ;;
    bp <- fbread (i_dev p) a ;;
    let m := Z.min (n - tot) (BSIZE - off mod BSIZE) in
    '(r, bs) <- src tot m ;;
    fset bp (wr_bytes (off mod BSIZE) bs) ;;
    if r =? -1 then fbrelse bp ;; ret (inr (tot, off))
    else flog_write bp ;; fbrelse bp ;; ret (inl (tot + m, u32 (off + m)))
  else ret (inr (tot, off)).
Definition writei (ip : Z) (src : Z → Z → M fsst (Z * list Z)) (off n : Z) : M fsst Z :=
  p <- iload ip ;;
  if (i_size p <? off) || (u32 (off + n) <? off) then ret (-1)
  else if MAXFILE * BSIZE <? u32 (off + n) then ret (-1)
  else
    '(tot, off) <- loop (Z.to_nat (n / BSIZE) + 3) (writei_turn ip src n) (0, off) ;;
    p <- iload ip ;;
    (if i_size p <? off then istore ip (set_i_size off) else ret tt) ;;
    (* write the i-node back to disk even if the size didn't change *)
    iupdate ip ;;
    ret tot.

(** A kernel variable as destination and as source. *)
Definition to_var (x l : list Z) : M fsst (list Z * Z) := ret (x ++ l, 0).
Definition from_var (v : list Z) (tot m : Z) : M fsst (Z * list Z) := ret (0, rd_bytes tot m v).

(** ** Directories *)

(** [strncmp] and [strncpy] on arrays of DIRSIZ bytes, as lists. *)
Fixpoint strncmp_list (n : nat) (p q : list Z) : Z :=
  match n, p, q with
  | S n', a :: p', b :: q' => if truthy a && (a =? b) then strncmp_list n' p' q' else i32 (a - b)
  | _, _, _ => 0
  end.
Definition namecmp (s t : list Z) : Z := strncmp_list (Z.to_nat DIRSIZ) s t.
Fixpoint strncpy_list (n : nat) (t : list Z) : list Z :=
  match n with
  | O => []
  | S n' => match t with
            | c :: t' => if c =? 0 then replicate n 0 else c :: strncpy_list n' t'
            | [] => replicate n 0
            end
  end.

(** [struct dirent]. *)
Definition de_inum (de : list Z) : Z := rd16 0 de.
Definition de_name (de : list Z) : list Z := rd_bytes 2 DIRSIZ de.
Definition mk_dirent (inum : Z) (name : list Z) : list Z := le_bytes 2 inum ++ strncpy_list (Z.to_nat DIRSIZ) name.

(** Look for a directory entry in a directory: the inode (0 if none) and the
    byte offset of the entry. *)
Definition dirlookup_turn (dp : Z) (name : list Z) (off : Z) : M fsst (Z + Z * Z) :=
  p <- iload dp ;;
  if off <? i_size p then
    '(de, r) <- readi dp to_var [] off DIRENT_size ;;
    if negb (r =? DIRENT_size) then panic "dirlookup read"
    else if de_inum de =? 0 then ret (inl (u32 (off + DIRENT_size)))
    else if namecmp name (de_name de) =? 0 then
      ip <- iget (i_dev p) (de_inum de) ;;
      ret (inr (ip, off))
    else ret (inl (u32 (off + DIRENT_size)))
  else ret (inr (0, 0)).
Definition dirlookup (dp : Z) (name : list Z) : M fsst (Z * Z) :=
  p <- iload dp ;;
  if negb (i_type p =? T_DIR) then panic "dirlookup not DIR"
  else loop (Z.to_nat (i_size p / DIRENT_size) + 2) (dirlookup_turn dp name) 0.

(** Write a new directory entry [(name, inum)] into the directory [dp]. *)
Definition dirlink_turn (dp off : Z) : M fsst (Z + Z) :=
  p <- iload dp ;;
  if off <? i_size p then
    '(de, r) <- readi dp to_var [] off DIRENT_size ;;
    if negb (r =? DIRENT_size) then panic "dirlink read"
    else if de_inum de =? 0 then ret (inr off)
    else ret (inl (off + DIRENT_size))
  else ret (inr off).
Definition dirlink (dp : Z) (name : list Z) (inum : Z) : M fsst Z :=
  (* check that name is not present *)
  '(ip, _) <- dirlookup dp name ;;
  if negb (ip =? 0) then iput ip ;; ret (-1)
  else
    p <- iload dp ;;
    (* look for an empty dirent *)
    off <- loop (Z.to_nat (i_size p / DIRENT_size) + 2) (dirlink_turn dp) 0 ;;
    r <- writei dp (from_var (mk_dirent inum name)) off DIRENT_size ;;
    if negb (r =? DIRENT_size) then panic "dirlink" else ret 0.

(** ** Paths *)

(** A path is the list of its characters, without the final nul. *)
Definition SLASH : Z := 47.
Fixpoint skip_slashes (path : list Z) : list Z :=
  match path with c :: path' => if c =? SLASH then skip_slashes path' else path | [] => [] end.
Fixpoint elem_len (path : list Z) : nat :=
  match path with c :: path' => if c =? SLASH then 0%nat else S (elem_len path') | [] => 0%nat end.

(** Copy the next path element from [path] into [name]. *)
Definition skipelem (path name : list Z) : option (list Z * list Z) :=
  let path := skip_slashes path in
  match path with
  | [] => None
  | _ =>
      let len := elem_len path in
      let s := take len path in
      let name := if (Z.to_nat DIRSIZ <=? len)%nat then take (Z.to_nat DIRSIZ) s ++ drop (Z.to_nat DIRSIZ) name
                  else s ++ 0 :: drop (S len) name in
      Some (skip_slashes (drop len path), name)
  end.

(** Look up and return the inode for a path name, and the final [name]. *)
Definition namex_turn (nameiparent : bool) (l : Z * list Z * list Z) : M fsst (Z * list Z * list Z + Z * list Z) :=
  let '(ip, path, name) := l in
  match skipelem path name with
  | None => if nameiparent then iput ip ;; ret (inr (0, name)) else ret (inr (ip, name))
  | Some (path, name) =>
      ilock ip ;;
      p <- iload ip ;;
      if negb (i_type p =? T_DIR) then iunlockput ip ;; ret (inr (0, name))
      else if nameiparent && bool_decide (path = []) then
        (* stop one level early *)
        iunlock ip ;; ret (inr (ip, name))
      else
        '(next, _) <- dirlookup ip name ;;
        if next =? 0 then iunlockput ip ;; ret (inr (0, name))
        else iunlockput ip ;; ret (inl (next, path, name))
  end.
Definition namex (path : list Z) (nameiparent : bool) (name : list Z) : M fsst (Z * list Z) :=
  c <- gets cwd ;;
  ip <- (if bool_decide (head path = Some SLASH) then iget ROOTDEV ROOTINO else idup c) ;;
  loop (S (length path)) (namex_turn nameiparent) (ip, path, name).
Definition namei (path : list Z) : M fsst Z :=
  '(ip, _) <- namex path false (replicate 14 0) ;; ret ip.
Definition nameiparent (path name : list Z) : M fsst (Z * list Z) := namex path true name.
