(* ===== verification/FsTx.v ===== *)
(** * The file system's view of blocks inside a transaction

    Inside a transaction a file system operation sees the blocks [V], has logged
    the blocks [P], holds the buffers [H] and has changed at most the block [X]
    without logging it yet.  The rules of this file are all the file system needs
    of the log and the buffer cache. *)

From stdpp Require Import base gmap list strings numbers.
From S2P Require Import Prelude Block SleepLock Bio BioSpec Cache Log LogSpec Fs.

(** ** The calling process does not change *)

(** [m] keeps the view [f] of the state. *)
Definition leaves {S A B} (f : S → B) (m : M S A) : Prop :=
  ∀ s, match m s with OK _ s' => f s' = f s | _ => True end.

Section leaves.
Context {S B : Type} (f : S → B).

Lemma leaves_ret {A} (a : A) : leaves f (ret a).
Proof. done. Qed.
Lemma leaves_gets {A} (g : S → A) : leaves f (gets g).
Proof. done. Qed.
Lemma leaves_panic {A} msg : leaves f (panic (A := A) msg).
Proof. done. Qed.
Lemma leaves_sleep {A} c : leaves f (sleep_on (A := A) c).
Proof. done. Qed.
Lemma leaves_modify g : (∀ s, f (g s) = f s) → leaves f (modify g).
Proof. intros H s. apply H. Qed.
Lemma leaves_bind {A C} (m : M S A) (k : A → M S C) : leaves f m → (∀ a, leaves f (k a)) → leaves f (bind m k).
Proof.
  intros Hm Hk s. unfold bind. specialize (Hm s). destruct (m s) as [a s'| | |]; try done.
  specialize (Hk a s'). destruct (k a s'); try done. congruence.
Qed.
Lemma leaves_loop {A C} n (body : A → M S (A + C)) a : (∀ a, leaves f (body a)) → leaves f (loop n body a).
Proof.
  intros Hb. revert a. induction n as [|n IH]; intros a; [done|]. cbn. apply leaves_bind; [done|]. intros [a'|c]; [apply IH|done].
Qed.
Lemma leaves_acquire locked set : (∀ s, f (set true s) = f s) → leaves f (acquire locked set).
Proof. intros H s. unfold acquire. by destruct (locked s). Qed.
Lemma leaves_release locked set : (∀ s, f (set false s) = f s) → leaves f (release locked set).
Proof. intros H s. unfold release. by destruct (locked s). Qed.
Lemma wp_leaves {A} (m : M S A) Q s : leaves f m → wp m Q s → wp m (λ a s', Q a s' ∧ f s' = f s) s.
Proof. intros Hl Hw. specialize (Hl s). unfold wp in *. by destruct (m s). Qed.
End leaves.

Create HintDb leaves.
#[export] Hint Resolve leaves_ret leaves_gets leaves_panic leaves_sleep leaves_bind leaves_loop leaves_modify leaves_acquire leaves_release : leaves.

Ltac leaves_tac :=
  repeat first
    [ done
    | apply leaves_bind; [|intros ?]
    | apply leaves_loop; intros ?
    | apply leaves_modify; intros ?
    | apply leaves_acquire; intros ?
    | apply leaves_release; intros ?
    | match goal with |- leaves _ (if ?c then _ else _) => destruct c end
    | match goal with |- leaves _ (match ?c with _ => _ end) => destruct c end ].

Lemma leaves_bread dev n : leaves curpid (bread dev n).
Proof.
  unfold bread, bget, bget_cached, bget_recycle, bacquire, brelease, bacquiresleep, acquiresleep, virtio_disk_rw. leaves_tac.
Qed.
Lemma leaves_brelse b : leaves curpid (brelse b).
Proof. unfold brelse, bholdingsleep, breleasesleep, holdingsleep, releasesleep, bacquire, brelease. leaves_tac. Qed.
Lemma leaves_bpin b : leaves curpid (bpin b).
Proof. unfold bpin, bacquire, brelease. leaves_tac. Qed.

Definition lpid (s : logst) : Z := curpid (bcache s).
Lemma leaves_inb {A} (m : M bst A) : leaves curpid m → leaves lpid (inb m).
Proof. intros H s. unfold inb, zoom. specialize (H (bcache s)). by destruct (m (bcache s)). Qed.
Lemma leaves_log_write b : leaves lpid (log_write b).
Proof.
  unfold log_write, lacquire, lrelease, log_index, get_lh, put_lh. leaves_tac.
  apply leaves_inb, leaves_bpin.
Qed.
Lemma leaves_set_bdata b f : leaves lpid (set_bdata b f).
Proof. apply leaves_inb. by apply leaves_modify. Qed.

(** ** The transaction *)

Section tx.
Context (dev : Z) (SB : superblock) (l0 : logst).
Notation start := (sb_logstart SB).
Notation nlog := (sb_nlog SB).
Context (Hgeom : geom_ok start nlog).

(** [it]: the lock of the inode table, [I] the inode table, [c] the current
    directory; [l0]: the log when the transaction began. *)
Definition fr (s : fsst) (V : Z → block) (P : gset Z) (H : gmap Z Z) (X : option Z) (it : bool) (I : list inode) (c : Z) : Prop :=
  sb s = SB ∧ it_locked s = it ∧ itable s = I ∧ cwd s = c ∧ lframe l0 (flog s) ∧ lpid (flog s) = lpid l0 ∧
  ∃ L, list_to_set L = P ∧ lst dev start nlog (flog s) V L H ∧ ∀ n, n ∉ P → X ≠ Some n → V n = dget (disk (bcache (flog s))) n.

Definition room (P : gset Z) : Prop := Z.of_nat (size P) < Z.min 29 (nlog - 1).

Lemma fr_sb s V P H X it I c : fr s V P H X it I c → sb s = SB.
Proof. by intros [? _]. Qed.
Lemma fr_itable s V P H X it I c : fr s V P H X it I c → itable s = I.
Proof. by intros (_ & _ & ? & _). Qed.
Lemma fr_cwd s V P H X it I c : fr s V P H X it I c → cwd s = c.
Proof. by intros (_ & _ & _ & ? & _). Qed.

Lemma fr_ext s V V' P H X it I c : (∀ n, V n = V' n) → fr s V P H X it I c → fr s V' P H X it I c.
Proof.
  intros E (? & ? & ? & ? & ? & ? & L & ? & Hl & HX). do 6 (split; [done|]). exists L. split; [done|]. split; [by eapply lst_ext|].
  intros n Hn Hx. rewrite <-E. by apply HX.
Qed.

Lemma wp_inlog {A} (m : M logst A) (Q : A → fsst → Prop) s :
  wp m (λ a l, Q a (set_flog l s)) (flog s) → wp (inlog m) Q s.
Proof. intros Hm. apply wp_zoom. exact Hm. Qed.

Lemma wp_fbread Q s V P H X it I c n :
  fr s V P H X it I c → H !! n = None → n ∈ P ∨ (size P + size H < 30)%nat →
  (∀ bp s', fr s' V P (<[n := bp]> H) X it I c → Q bp s') → wp (fbread dev n) Q s.
Proof.
  intros (E1 & E2 & E3 & E4 & Hf & Hp & L & HL & Hl & HX) HH Hsz HQ. apply wp_inlog.
  eapply wp_mono; [eapply (wp_leaves lpid); [apply leaves_inb, leaves_bread|]|].
  { eapply lst_bread; [exact Hgeom|exact Hl|done|]. destruct Hsz as [Hin|Hsz]; [left; set_solver|right].
    destruct Hl as ((_ & _ & _ & _ & (Hnd & _)) & _). rewrite <-HL, size_list_to_set in Hsz by done. lia. }
  cbv beta. intros bp l [[Hl' Hf'] Hp']. apply HQ. do 4 (split; [done|]). split; [by eapply lframe_trans|]. split; [cbn; congruence|].
  exists L. split; [done|]. split; [done|]. cbn. intros m Hm Hx. rewrite (HX m Hm Hx). destruct Hf' as (-> & _). done.
Qed.

Lemma wp_fdata Q s V P H X it I c n bp :
  fr s V P H X it I c → H !! n = Some bp → (fr s V P H X it I c → Q (V n) s) → wp (fdata bp) Q s.
Proof.
  intros Hs HH HQ. pose proof Hs as (_ & _ & _ & _ & _ & _ & L & _ & Hl & _). apply wp_inlog. apply wp_bdata.
  rewrite (lst_data _ _ _ _ _ _ _ _ _ Hl HH). specialize (HQ Hs). by destruct s.
Qed.

Lemma wp_fset Q s V P H X it I c n bp f :
  fr s V P H X it I c → H !! n = Some bp → X = None ∨ X = Some n →
  (∀ s', fr s' (vset V n (f (V n))) P H (Some n) it I c → Q tt s') → wp (fset bp f) Q s.
Proof.
  intros (E1 & E2 & E3 & E4 & Hf & Hp & L & HL & Hl & HX) HH Hx HQ. apply wp_inlog.
  eapply wp_mono; [eapply (wp_leaves lpid); [apply leaves_set_bdata|]; by eapply lst_modify|].
  cbv beta. intros [] l [[Hl' Hf'] Hp']. apply HQ. do 4 (split; [done|]). split; [by eapply lframe_trans|]. split; [cbn; congruence|].
  exists L. split; [done|]. split; [done|]. cbn. intros m Hm Hmx. rewrite vset_other by congruence.
  destruct Hf' as (-> & _). apply HX; [done|]. destruct Hx as [-> | ->]; congruence.
Qed.

Lemma wp_flog_write Q s V P H X it I c n bp :
  fr s V P H X it I c → H !! n = Some bp → X = None ∨ X = Some n → home start nlog n → room P →
  (∀ s', fr s' V (P ∪ {[n]}) H None it I c → Q tt s') → wp (flog_write bp) Q s.
Proof.
  intros (E1 & E2 & E3 & E4 & Hf & Hp & L & HL & Hl & HX) HH Hx Hh Hr HQ. apply wp_inlog.
  assert (length L = size P) as El.
  { destruct Hl as ((_ & _ & _ & _ & (Hnd & _)) & _). by rewrite <-HL, size_list_to_set. }
  eapply wp_mono; [eapply (wp_leaves lpid); [apply leaves_log_write|]|].
  { eapply log_write_run; [exact Hgeom|exact Hl|done|done|]. unfold room in Hr. split; lia. }
  cbv beta. intros [] l [[Hl' Hf'] Hp']. apply HQ. do 4 (split; [done|]). split; [by eapply lframe_trans|]. split; [cbn; congruence|].
  exists (add_log L n). split; [unfold add_log; case_decide; set_solver|]. split; [done|]. cbn. intros m Hm _.
  destruct Hf' as (-> & _). apply HX; [set_solver|]. destruct Hx as [-> | ->]; set_solver.
Qed.

Lemma wp_fbrelse Q s V P H it I c n bp :
  fr s V P H None it I c → H !! n = Some bp →
  (∀ s', fr s' V P (delete n H) None it I c → Q tt s') → wp (fbrelse bp) Q s.
Proof.
  intros (E1 & E2 & E3 & E4 & Hf & Hp & L & HL & Hl & HX) HH HQ. apply wp_inlog.
  eapply wp_mono; [eapply (wp_leaves lpid); [apply leaves_inb, leaves_brelse|]|].
  { eapply lst_brelse; [exact Hl|done|]. intros Hn. apply HX; [set_solver|done]. }
  cbv beta. intros [] l [[Hl' Hf'] Hp']. apply HQ. do 4 (split; [done|]). split; [by eapply lframe_trans|]. split; [cbn; congruence|].
  exists L. split; [done|]. split; [done|]. cbn. intros m Hm Hx. rewrite (HX m Hm Hx). destruct Hf' as (-> & _). done.
Qed.

End tx.
