(* ===== verification/FsAlloc.v ===== *)
(** * The block allocator of the file system: [balloc] and [bfree] *)

From stdpp Require Import base gmap list strings numbers.
From S2P Require Import Prelude Block SleepLock Bio BioSpec Cache Log LogSpec Fs FsTx.

(** ** Bits of a bitmap block *)

Lemma land_bit x k : 0 ≤ k → (Z.land x (Z.shiftl 1 k) =? 0) = negb (Z.testbit x k).
Proof.
  intros Hk. rewrite Z.shiftl_1_l. destruct (Z.testbit x k) eqn:E; cbn.
  - apply Z.eqb_neq. intros H0. assert (Z.testbit (Z.land x (2 ^ k)) k = true) as H1.
    { by rewrite Z.land_spec, E, Z.pow2_bits_true by lia. }
    rewrite H0, Z.bits_0 in H1. done.
  - apply Z.eqb_eq. apply Z.bits_inj'. intros i Hi. rewrite Z.land_spec, Z.bits_0, Z.pow2_bits_eqb by lia.
    destruct (Z.eqb_spec k i) as [->|]; [by rewrite E|apply andb_false_r].
Qed.

Lemma byte_bits x : 0 ≤ x < 256 ↔ 0 ≤ x ∧ ∀ i, 8 ≤ i → Z.testbit x i = false.
Proof.
  split.
  - intros Hx. split; [lia|]. intros i Hi. destruct (decide (x = 0)) as [->|]; [apply Z.bits_0|].
    apply Z.bits_above_log2; [lia|]. assert (Z.log2 x < 8); [|lia]. apply Z.log2_lt_pow2; lia.
  - intros [Hx Hb]. split; [done|]. rewrite <-(Z.mod_small x (2 ^ (Z.max 8 (Z.log2 x + 1)))).
    2: { split; [done|]. destruct (decide (x = 0)) as [->|]; [apply Z.pow_pos_nonneg; lia|]. apply Z.log2_lt_pow2; lia. }
    assert (x mod 2 ^ Z.max 8 (Z.log2 x + 1) = x mod 2 ^ 8) as ->; [|by apply Z.mod_pos_bound].
    apply Z.bits_inj'. intros i Hi. destruct (decide (i < 8)).
    + rewrite !Z.mod_pow2_bits_low by lia. done.
    + rewrite (Z.mod_pow2_bits_high x 8) by lia. destruct (decide (i < Z.max 8 (Z.log2 x + 1))).
      * rewrite Z.mod_pow2_bits_low by lia. apply Hb. lia.
      * by rewrite Z.mod_pow2_bits_high by lia.
Qed.

Lemma byte_lor x k : 0 ≤ x < 256 → 0 ≤ k < 8 → 0 ≤ Z.lor x (Z.shiftl 1 k) < 256.
Proof.
  intros Hx Hk. apply byte_bits in Hx as [H0 Hb]. rewrite Z.shiftl_1_l. apply byte_bits. split.
  - apply Z.lor_nonneg. split; [done|]. apply Z.pow_nonneg. lia.
  - intros i Hi. rewrite Z.lor_spec, Hb, Z.pow2_bits_false by lia. done.
Qed.
Lemma byte_ldiff x k : 0 ≤ x < 256 → 0 ≤ k < 8 → 0 ≤ Z.land x (Z.lnot (Z.shiftl 1 k)) < 256.
Proof.
  intros Hx Hk. apply byte_bits in Hx as [H0 Hb]. apply byte_bits. split.
  - apply Z.land_nonneg. by left.
  - intros i Hi. rewrite Z.land_spec, Hb by lia. done.
Qed.

Lemma rd8_range o d : block_ok d → 0 ≤ o < 1024 → 0 ≤ rd8 o d < 256.
Proof.
  intros [Hl Hb] Ho. unfold rd8. assert (Forall (λ x, 0 ≤ x < 256) (rd_bytes o 1 d)) as Hf by by apply Forall_take, Forall_drop.
  pose proof (le_val_range _ Hf) as Hr. rewrite length_rd_bytes in Hr by lia. done.
Qed.
Lemma rd8_wr8 o v d : block_ok d → 0 ≤ o < 1024 → 0 ≤ v < 256 → rd8 o (wr8 o v d) = v.
Proof.
  intros [Hl _] Ho Hv. unfold rd8, wr8. change 1 with (Z.of_nat (length (le_bytes 1 v))).
  rewrite rd_wr_bytes by (rewrite ?length_le_bytes; lia). rewrite (le_val_le_bytes 1). by apply Z.mod_small.
Qed.
Lemma rd8_wr8_other o v d o' : block_ok d → 0 ≤ o < 1024 → 0 ≤ o' → o' ≠ o → rd8 o' (wr8 o v d) = rd8 o' d.
Proof.
  intros [Hl _] Ho Ho' Hn. unfold rd8, wr8. by rewrite rd_wr_bytes_other by (rewrite ?length_le_bytes; lia).
Qed.
Lemma block_ok_wr8 o v d : block_ok d → block_ok (wr8 o v d).
Proof. intros Hb. apply block_ok_wr_bytes; [done|apply le_bytes_range]. Qed.

Lemma bit_free_testbit bi d : bit_free bi d = negb (Z.testbit (rd8 (bi / 8) d) (bi mod 8)).
Proof. apply land_bit. by apply Z.mod_pos_bound. Qed.

Lemma bit_eq bi bi' : bi / 8 = bi' / 8 → bi mod 8 = bi' mod 8 → bi = bi'.
Proof. intros E1 E2. rewrite (Z.div_mod bi 8), (Z.div_mod bi' 8) by lia. lia. Qed.

Lemma bit_free_set bi bi' d : block_ok d → 0 ≤ bi < BPB → 0 ≤ bi' < BPB →
  bit_free bi' (set_bit bi d) = negb (bi' =? bi) && bit_free bi' d.
Proof.
  intros Hd Hb Hb'. unfold BPB, BSIZE in *. rewrite !bit_free_testbit. unfold set_bit, bit_mask.
  assert (0 ≤ bi / 8 < 1024) by zlia. assert (0 ≤ bi mod 8 < 8) by zlia. assert (0 ≤ bi' / 8) by zlia. assert (0 ≤ bi' mod 8) by zlia.
  destruct (decide (bi' / 8 = bi / 8)) as [E|Hne].
  - rewrite E, rd8_wr8; [|done|done|apply byte_lor; [by apply rd8_range|done]].
    rewrite Z.lor_spec, Z.shiftl_1_l, Z.pow2_bits_eqb by lia.
    destruct (Z.eqb_spec bi' bi) as [->|Hn]; [rewrite Z.eqb_refl; by destruct (Z.testbit _ _)|].
    rewrite (proj2 (Z.eqb_neq (bi mod 8) _)), orb_false_r; [done|]. intros Em. by apply Hn, bit_eq.
  - rewrite rd8_wr8_other by done. by destruct (Z.eqb_spec bi' bi) as [->|].
Qed.
Lemma bit_free_clear bi bi' d : block_ok d → 0 ≤ bi < BPB → 0 ≤ bi' < BPB →
  bit_free bi' (clear_bit bi d) = (bi' =? bi) || bit_free bi' d.
Proof.
  intros Hd Hb Hb'. unfold BPB, BSIZE in *. rewrite !bit_free_testbit. unfold clear_bit, bit_mask.
  assert (0 ≤ bi / 8 < 1024) by zlia. assert (0 ≤ bi mod 8 < 8) by zlia. assert (0 ≤ bi' / 8) by zlia. assert (0 ≤ bi' mod 8) by zlia.
  destruct (decide (bi' / 8 = bi / 8)) as [E|Hne].
  - rewrite E, rd8_wr8; [|done|done|apply byte_ldiff; [by apply rd8_range|done]].
    rewrite Z.land_spec, Z.lnot_spec, Z.shiftl_1_l, Z.pow2_bits_eqb by lia.
    destruct (Z.eqb_spec bi' bi) as [->|Hn]; [rewrite Z.eqb_refl; by destruct (Z.testbit _ _)|].
    rewrite (proj2 (Z.eqb_neq (bi mod 8) _)), andb_true_r; [done|]. intros Em. by apply Hn, bit_eq.
  - rewrite rd8_wr8_other by done. by destruct (Z.eqb_spec bi' bi) as [->|].
Qed.

(** ** The layout of the disk *)

Definition dstart (SB : superblock) : Z := sb_size SB - sb_nblocks SB.

(** Boot block, super block, log, inodes, bitmap, data. *)
Record fsgeo (SB : superblock) : Prop := mkGeo {
  g_log : geom_ok (sb_logstart SB) (sb_nlog SB);
  g_ino : sb_logstart SB + sb_nlog SB ≤ sb_inodestart SB;
  g_ninodes : 0 < sb_ninodes SB < 2147483648;
  g_bmap : sb_inodestart SB + sb_ninodes SB / IPB < sb_bmapstart SB;
  g_data : sb_bmapstart SB + sb_size SB / BPB < dstart SB;
  g_size : 0 < dstart SB ≤ sb_size SB ∧ sb_size SB < 2147483648;
}.

Section alloc.
Context (dev : Z) (SB : superblock) (l0 : logst) (G : fsgeo SB).
Notation fr := (fr dev SB l0).
Notation start := (sb_logstart SB).
Notation nlog := (sb_nlog SB).
Notation home := (home start nlog).
Notation room := (room SB).

Lemma BBLOCK_range b : 0 ≤ b < sb_size SB → BBLOCK b SB = b / BPB + sb_bmapstart SB ∧ sb_bmapstart SB ≤ BBLOCK b SB < dstart SB.
Proof.
  intros Hb. destruct G as [(? & ? & ?) ? ? ? ? ?]. unfold BBLOCK, IPB, BPB, BSIZE, DINODE_size in *.
  assert (0 ≤ b / 8192 ≤ sb_size SB / 8192) by (split; [zlia|by apply Z.div_le_mono; lia]).
  assert (0 ≤ sb_ninodes SB / (1024 / 64)) by (apply Z.div_pos; [lia|done]).
  change (1024 * 8) with 8192 in *. rewrite u32_small by lia. lia.
Qed.
Lemma BBLOCK_home b : 0 ≤ b < sb_size SB → home (BBLOCK b SB).
Proof.
  intros Hb. destruct (BBLOCK_range b Hb) as [_ Hr]. destruct G as [(? & ? & ?) ? ? ? ? ?].
  assert (0 ≤ sb_ninodes SB / IPB) by (apply Z.div_pos; [lia|done]). split; lia.
Qed.
Lemma data_home b : dstart SB ≤ b < sb_size SB → home b.
Proof.
  intros Hb. destruct G as [(? & ? & ?) ? ? ? ? ?].
  assert (0 ≤ sb_ninodes SB / IPB) by (apply Z.div_pos; [lia|done]). assert (0 ≤ sb_size SB / BPB) by (apply Z.div_pos; [lia|done]).
  split; lia.
Qed.

(** Block [b] is free in the bitmap. *)
Definition free (V : Z → block) (b : Z) : Prop := bit_free (b mod BPB) (V (BBLOCK b SB)) = true.
#[global] Instance free_dec V b : Decision (free V b).
Proof. unfold free. apply _. Defined.

(** Every block is a block, and only data blocks are free. *)
Definition vok (V : Z → block) : Prop :=
  (∀ n, block_ok (V n)) ∧ ∀ b, 0 ≤ b < sb_size SB → free V b → dstart SB ≤ b.

(** [V] after [b] was allocated, and after it was freed. *)
Definition mark (V : Z → block) (b : Z) : Z → block := vset V (BBLOCK b SB) (set_bit (b mod BPB) (V (BBLOCK b SB))).
Definition balloced (V : Z → block) (b : Z) : Z → block := vset (mark V b) b zero_block.
Definition bfreed (V : Z → block) (b : Z) : Z → block := vset V (BBLOCK b SB) (clear_bit (b mod BPB) (V (BBLOCK b SB))).

Lemma BPB_mod b : 0 ≤ b mod BPB < BPB.
Proof. by apply Z.mod_pos_bound. Qed.
Lemma bb_inj b b' : 0 ≤ b < sb_size SB → 0 ≤ b' < sb_size SB → BBLOCK b SB = BBLOCK b' SB → b mod BPB = b' mod BPB → b = b'.
Proof.
  intros Hb Hb' E Em. destruct (BBLOCK_range b Hb) as [E1 _], (BBLOCK_range b' Hb') as [E2 _].
  rewrite (Z.div_mod b BPB), (Z.div_mod b' BPB) by done. rewrite E1, E2 in E. assert (b / BPB = b' / BPB) as -> by lia. by rewrite Em.
Qed.

Lemma free_mark V b b' : (∀ n, block_ok (V n)) → 0 ≤ b < sb_size SB → 0 ≤ b' < sb_size SB →
  free (mark V b) b' ↔ b' ≠ b ∧ free V b'.
Proof.
  intros HV Hb Hb'. unfold free, mark. destruct (decide (BBLOCK b' SB = BBLOCK b SB)) as [E|Hne].
  - rewrite E, vset_same, bit_free_set by (auto using BPB_mod). rewrite andb_true_iff, negb_true_iff, Z.eqb_neq.
    split; (intros [H1 H2]; split; [|done]); [congruence|]. intros Em. apply H1. by apply bb_inj.
  - rewrite vset_other by done. split; [|by intros [_ ?]]. intros Hf. split; [congruence|done].
Qed.
Lemma free_bfreed V b b' : (∀ n, block_ok (V n)) → 0 ≤ b < sb_size SB → 0 ≤ b' < sb_size SB →
  free (bfreed V b) b' ↔ b' = b ∨ free V b'.
Proof.
  intros HV Hb Hb'. unfold free, bfreed. destruct (decide (BBLOCK b' SB = BBLOCK b SB)) as [E|Hne].
  - rewrite E, vset_same, bit_free_clear by (auto using BPB_mod). rewrite orb_true_iff, Z.eqb_eq.
    split; (intros [H1|H1]; [|by right]); left; [by apply bb_inj|congruence].
  - rewrite vset_other by done. split; [by right|]. intros [->|?]; done.
Qed.
(** The bitmap does not depend on data blocks. *)
Lemma free_data V b n d : 0 ≤ b < sb_size SB → dstart SB ≤ n → free (vset V n d) b ↔ free V b.
Proof. intros Hb Hn. unfold free. destruct (BBLOCK_range b Hb) as [_ ?]. rewrite vset_other by lia. done. Qed.

Lemma free_balloced V b b' : vok V → 0 ≤ b < sb_size SB → free V b → 0 ≤ b' < sb_size SB →
  free (balloced V b) b' ↔ b' ≠ b ∧ free V b'.
Proof. intros [HV Hd] Hb Hf Hb'. unfold balloced. rewrite free_data by auto. by apply free_mark. Qed.

Lemma block_ok_set bi d : block_ok d → block_ok (set_bit bi d).
Proof. apply block_ok_wr8. Qed.
Lemma block_ok_vset V n d : (∀ n, block_ok (V n)) → block_ok d → ∀ n', block_ok (vset V n d n').
Proof. intros HV Hd n'. unfold vset. by destruct (n' =? n). Qed.

Lemma vok_balloced V b : vok V → 0 ≤ b < sb_size SB → free V b → vok (balloced V b).
Proof.
  intros Hv Hb Hf. pose proof Hv as [HV Hd]. split.
  - apply block_ok_vset; [|apply block_ok_zero]. apply block_ok_vset; [done|]. by apply block_ok_set.
  - intros b' Hb' Hf'. apply free_balloced in Hf' as [_ ?]; auto.
Qed.
Lemma vok_bfreed V b : vok V → dstart SB ≤ b < sb_size SB → 0 ≤ b → vok (bfreed V b).
Proof.
  intros [HV Hd] Hb Hb0. split.
  - apply block_ok_vset; [done|]. by apply block_ok_wr8.
  - intros b' Hb' Hf'. apply free_bfreed in Hf' as [->|?]; auto; lia.
Qed.

(** ** Runs *)

Definition room2 (P : gset Z) : Prop := Z.of_nat (size P) + 1 < Z.min 29 (nlog - 1).
Lemma room2_room P : room2 P → room P.
Proof. unfold room2, FsTx.room. lia. Qed.
Lemma room2_add P n : room2 P → room (P ∪ {[n]}).
Proof.
  unfold room2, FsTx.room. intros H. assert (size (P ∪ {[n]}) ≤ size P + 1)%nat; [|lia].
  rewrite size_union_alt. etrans; [apply Nat.add_le_mono_l, (subseteq_size _ {[n]}); set_solver|]. by rewrite size_singleton.
Qed.

Lemma bzero_run Q s V P H it I c n :
  fr s V P H None it I c → H !! n = None → (size H ≤ 1)%nat → home n → room P →
  (∀ s', fr s' (vset V n zero_block) (P ∪ {[n]}) H None it I c → Q tt s') → wp (bzero dev n) Q s.
Proof.
  intros Hs HH Hsz Hn Hr HQ. unfold bzero. wp_run.
  eapply (wp_fbread dev SB l0 (g_log SB G)); [exact Hs|done|right; unfold FsTx.room in Hr; lia|]. clear s Hs. intros bp s Hs. wp_run.
  eapply wp_fset; [exact Hs|apply lookup_insert_eq|by left|]. clear s Hs. intros s Hs. wp_run.
  eapply (wp_flog_write dev SB l0 (g_log SB G)); [exact Hs|apply lookup_insert_eq|by right|done|done|]. clear s Hs. intros s Hs.
  eapply (wp_fbrelse dev SB l0 (g_log SB G)); [exact Hs|apply lookup_insert_eq|]. clear s Hs. intros s Hs. apply HQ. by rewrite delete_insert_id in Hs.
Qed.

(** The inner loop, at a block of the bitmap: the first free bit, or none. *)
Lemma balloc_scan_run Q s V P H it I c b bp :
  let bm := BBLOCK b SB in
  fr s V P (<[bm := bp]> H) None it I c → vok V → H !! bm = None → (size H ≤ 1)%nat → 0 ≤ b < sb_size SB → b mod BPB = 0 →
  (∀ b', 0 ≤ b' < sb_size SB → free V b' → H !! b' = None) → room2 P →
  (∀ b' s', b ≤ b' < b + BPB → b' < sb_size SB → free V b' →
     fr s' (balloced V b') (P ∪ {[BBLOCK b' SB]} ∪ {[b']}) H None it I c → Q (Some b') s') →
  (∀ s', (∀ b', b ≤ b' < b + BPB → b' < sb_size SB → ¬ free V b') → fr s' V P H None it I c → Q None s') →
  wp (loop (S (Z.to_nat BPB)) (balloc_turn dev b bp) 0) Q s.
Proof.
  intros bm Hs Hv HH Hsz Hb Hb0 Hfree Hr HS HN.
  assert (∀ bi, 0 ≤ bi < BPB → (b + bi) mod BPB = bi ∧ (b + bi < sb_size SB → BBLOCK (b + bi) SB = bm)) as Hbi.
  { intros bi Hbi. unfold bm, BBLOCK. change BPB with 8192 in *. split; [zlia|]. intros Hlt. do 2 f_equal. zlia. }
  eapply (wp_loop (λ bi s', 0 ≤ bi ≤ BPB ∧ fr s' V P (<[bm := bp]> H) None it I c ∧
      (∀ b', b ≤ b' < b + bi → b' < sb_size SB → ¬ free V b')) (λ bi _, Z.to_nat (BPB - bi))).
  { change BPB with 8192. lia. }
  { split; [by change BPB with 8192|]. split; [done|lia]. }
  clear s Hs. intros bi s (Hr1 & Hs & Hno). unfold balloc_turn. wp_run. rewrite (fr_sb _ _ _ _ _ _ _ _ _ _ _ Hs).
  destruct (Z.ltb_spec bi BPB) as [Hlt|Hge]; [destruct (Z.ltb_spec (b + bi) (sb_size SB)) as [Hlt2|Hge2]|]; cbn [andb].
  - destruct (Hbi bi ltac:(lia)) as [Em Eb]. specialize (Eb Hlt2).
    wp_run. eapply wp_fdata; [exact Hs|apply lookup_insert_eq|]. intros _.
    assert (free V (b + bi) ↔ bit_free bi (V bm) = true) as Hfr by (unfold free; by rewrite Em, Eb).
    destruct (bit_free bi (V bm)) eqn:E.
    + assert (free V (b + bi)) as Hf by by apply Hfr. pose proof Hv as [HV Hd]. specialize (Hd (b + bi) ltac:(lia) Hf).
      wp_run. eapply wp_fset; [exact Hs|apply lookup_insert_eq|by left|]. clear s Hs. intros s Hs. wp_run.
      eapply (wp_flog_write dev SB l0 (g_log SB G)); [exact Hs|apply lookup_insert_eq|by right|by apply BBLOCK_home|by apply room2_room|].
      clear s Hs. intros s Hs. wp_run. eapply (wp_fbrelse dev SB l0 (g_log SB G)); [exact Hs|apply lookup_insert_eq|]. clear s Hs. intros s Hs.
      rewrite delete_insert_id in Hs by done. wp_run. eapply bzero_run; [done|apply Hfree; [lia|done]|done|by apply data_home|by apply room2_add|].
      clear s Hs. intros s Hs. wp_run. apply HS; [lia|lia|done|]. unfold balloced, mark. by rewrite Em, Eb.
    + wp_run. split; [|change BPB with 8192 in *; lia]. split; [lia|]. split; [done|]. intros b' Hb' Hb2. destruct (decide (b' = b + bi)) as [->|].
      * rewrite Hfr. done.
      * apply Hno; lia.
  - wp_run. eapply (wp_fbrelse dev SB l0 (g_log SB G)); [exact Hs|apply lookup_insert_eq|]. clear s Hs. intros s Hs. rewrite delete_insert_id in Hs by done.
    wp_run. apply HN; [|done]. intros b' Hb' Hb2. apply Hno; lia.
  - wp_run. eapply (wp_fbrelse dev SB l0 (g_log SB G)); [exact Hs|apply lookup_insert_eq|]. clear s Hs. intros s Hs. rewrite delete_insert_id in Hs by done.
    wp_run. apply HN; [|done]. intros b' Hb' Hb2. apply Hno; lia.
Qed.

Lemma balloc_run Q s V P H it I c :
  fr s V P H None it I c → vok V → (∃ b, 0 ≤ b < sb_size SB ∧ free V b) → (size H ≤ 1)%nat →
  (∀ n, sb_bmapstart SB ≤ n < dstart SB → H !! n = None) → (∀ b, 0 ≤ b < sb_size SB → free V b → H !! b = None) → room2 P →
  (∀ b s', 0 ≤ b < sb_size SB → free V b → fr s' (balloced V b) (P ∪ {[BBLOCK b SB]} ∪ {[b]}) H None it I c → Q b s') →
  wp (balloc dev) Q s.
Proof.
  intros Hs Hv (bf & Hbf & Hff) Hsz Hbm Hfree Hr HQ. unfold balloc. wp_run. rewrite (fr_sb _ _ _ _ _ _ _ _ _ _ _ Hs).
  eapply (wp_loop (λ b s', 0 ≤ b ∧ b mod BPB = 0 ∧ fr s' V P H None it I c ∧
      (∀ b', 0 ≤ b' < b → b' < sb_size SB → ¬ free V b')) (λ b _, Z.to_nat (sb_size SB / BPB + 1 - b / BPB))).
  { change (0 / BPB) with 0. assert (0 ≤ sb_size SB / BPB) by (apply Z.div_pos; [lia|done]). lia. }
  { split; [lia|]. split; [done|]. split; [done|lia]. }
  clear s Hs. intros b s (Hb0 & Hbm0 & Hs & Hno).
  destruct (Z.ltb_spec b (sb_size SB)) as [Hlt|Hge]; [|exfalso; apply (Hno bf); [lia|lia|done]].
  destruct (BBLOCK_range b) as [_ Hbr]; [lia|].
  wp_run. eapply (wp_fbread dev SB l0 (g_log SB G)); [exact Hs|by apply Hbm|right; unfold room2 in Hr; lia|]. clear s Hs. intros bp s Hs. wp_run.
  eapply balloc_scan_run; [done|done|by apply Hbm|done|lia|done|done|done| |].
  - intros b' s' Hb' Hb2 Hf Hs'. wp_run. apply HQ; [lia|done|done].
  - intros s' Hn Hs'. wp_run. split.
    + split; [change BPB with 8192; lia|]. split; [change BPB with 8192 in *; zlia|]. split; [done|]. intros b' Hb' Hb2.
      destruct (decide (b' < b)); [apply Hno; lia|apply Hn; lia].
    + change BPB with 8192 in *. zlia.
Qed.

Lemma bfree_run Q s V P H it I c b :
  fr s V P H None it I c → (∀ n, sb_bmapstart SB ≤ n < dstart SB → H !! n = None) → (size H ≤ 1)%nat →
  0 ≤ b < sb_size SB → ¬ free V b → room P →
  (∀ s', fr s' (bfreed V b) (P ∪ {[BBLOCK b SB]}) H None it I c → Q tt s') → wp (bfree dev b) Q s.
Proof.
  intros Hs Hbm Hsz Hb Hf Hr HQ. destruct (BBLOCK_range b Hb) as [_ Hbr].
  unfold bfree. wp_run. rewrite (fr_sb _ _ _ _ _ _ _ _ _ _ _ Hs).
  eapply (wp_fbread dev SB l0 (g_log SB G)); [exact Hs|by apply Hbm|right; unfold FsTx.room in Hr; lia|]. clear s Hs. intros bp s Hs. wp_run.
  eapply wp_fdata; [exact Hs|apply lookup_insert_eq|]. intros _. unfold free in Hf. destruct (bit_free _ _); [done|]. wp_run.
  eapply wp_fset; [exact Hs|apply lookup_insert_eq|by left|]. clear s Hs. intros s Hs. wp_run.
  eapply (wp_flog_write dev SB l0 (g_log SB G)); [exact Hs|apply lookup_insert_eq|by right|by apply BBLOCK_home|done|]. clear s Hs. intros s Hs.
  eapply (wp_fbrelse dev SB l0 (g_log SB G)); [exact Hs|apply lookup_insert_eq|]. clear s Hs. intros s Hs. apply HQ. by rewrite delete_insert_id in Hs by by apply Hbm.
Qed.

End alloc.
