(* ===== verification/FsInode.v ===== *)
(** * Inodes: the table and the disk

    In-memory inodes and their copies on disk: [iget], [idup], [iput], [ilock],
    [iunlock], [iupdate] and [ialloc]. *)

From stdpp Require Import base gmap list strings numbers.
From S2P Require Import Prelude Block SleepLock Bio BioSpec Cache Log LogSpec Fs FsTx FsAlloc.

(** ** [struct dinode] *)

Record dinode := mkD { d_type : Z; d_major : Z; d_minor : Z; d_nlink : Z; d_size : Z; d_addrs : list Z }.
Definition dinode_of (p : inode) : dinode := mkD (i_type p) (i_major p) (i_minor p) (i_nlink p) (i_size p) (i_addrs p).

(** The inode at offset [o] of a block, and the block after [iupdate]. *)
Definition get_dinode (o : Z) (d : block) : dinode :=
  mkD (i16 (rd16 o d)) (i16 (rd16 (o + 2) d)) (i16 (rd16 (o + 4) d)) (i16 (rd16 (o + 6) d)) (rd32 (o + 8) d) (dip_addrs o d).
Definition put_dinode (o : Z) (x : dinode) (d : block) : block :=
  wr_addrs (o + 12) (d_addrs x) (wr32 (o + 8) (d_size x) (wr16 (o + 6) (d_nlink x) (wr16 (o + 4) (d_minor x)
    (wr16 (o + 2) (d_major x) (wr16 o (d_type x) d))))).

Definition short (x : Z) : Prop := -32768 ≤ x < 32768.
Definition uint (x : Z) : Prop := 0 ≤ x < 4294967296.
(** The fields have the values of their C types. *)
Definition dinode_ok (x : dinode) : Prop :=
  short (d_type x) ∧ short (d_major x) ∧ short (d_minor x) ∧ short (d_nlink x) ∧ uint (d_size x) ∧
  length (d_addrs x) = 13%nat ∧ Forall uint (d_addrs x).

Lemma i16_u16 x : short x → i16 (u16 x) = x.
Proof.
  unfold short, i16. intros Hx. assert (u16 (u16 x) = u16 x) as -> by zlia.
  destruct (Z.ltb_spec (u16 x) 32768); zlia.
Qed.

Lemma rd_wr16_other o v d o' n : 0 ≤ o → o + 2 ≤ Z.of_nat (length d) → 0 ≤ o' → 0 ≤ n → o' + n ≤ o ∨ o + 2 ≤ o' →
  rd_bytes o' n (wr16 o v d) = rd_bytes o' n d.
Proof. intros. unfold wr16. apply rd_wr_bytes_other; rewrite ?length_le_bytes; lia. Qed.
Lemma rd_wr32_other o v d o' n : 0 ≤ o → o + 4 ≤ Z.of_nat (length d) → 0 ≤ o' → 0 ≤ n → o' + n ≤ o ∨ o + 4 ≤ o' →
  rd_bytes o' n (wr32 o v d) = rd_bytes o' n d.
Proof. intros. unfold wr32. apply rd_wr_bytes_other; rewrite ?length_le_bytes; lia. Qed.

Lemma length_wr_addrs l o d : length (wr_addrs o l d) = length d.
Proof. revert o d. induction l as [|a l IH]; intros o d; [done|]. cbn [wr_addrs]. by rewrite IH, length_wr32. Qed.
Lemma block_ok_wr_addrs l o d : block_ok d → block_ok (wr_addrs o l d).
Proof. revert o d. induction l as [|a l IH]; intros o d Hd; [done|]. cbn [wr_addrs]. by apply IH, block_ok_wr32. Qed.
Lemma block_ok_wr16 o v d : block_ok d → block_ok (wr16 o v d).
Proof. intros Hb. apply block_ok_wr_bytes; [done|apply le_bytes_range]. Qed.

Lemma rd_wr_addrs_other l o d o' n : 0 ≤ o → o + 4 * Z.of_nat (length l) ≤ Z.of_nat (length d) → 0 ≤ o' → 0 ≤ n →
  o' + n ≤ o ∨ o + 4 * Z.of_nat (length l) ≤ o' → rd_bytes o' n (wr_addrs o l d) = rd_bytes o' n d.
Proof.
  revert o d. induction l as [|a l IH]; intros o d Ho Hl Ho' Hn Hd; [done|]. cbn [wr_addrs length] in *.
  rewrite IH by (rewrite ?length_wr32; lia). apply rd_wr32_other; lia.
Qed.
Lemma rd_wr_addrs l o d i a : 0 ≤ o → o + 4 * Z.of_nat (length l) ≤ Z.of_nat (length d) → l !! i = Some a → uint a →
  rd32 (o + 4 * Z.of_nat i) (wr_addrs o l d) = a.
Proof.
  revert o d i. induction l as [|b l IH]; intros o d i Ho Hl Hi Ha; [done|]. cbn [wr_addrs length] in *.
  destruct i as [|i]; cbn in Hi.
  - injection Hi as ->. rewrite Z.mul_0_r, Z.add_0_r. unfold rd32. rewrite rd_wr_addrs_other by (rewrite ?length_wr32; lia).
    fold (rd32 o (wr32 o a d)). rewrite rd32_wr32 by lia. by apply u32_small.
  - rewrite <-(IH (o + 4) (wr32 o b d) i); [f_equal; lia|lia|rewrite length_wr32; lia|done|done].
Qed.

Ltac field_lia := rewrite ?length_wr_addrs, ?length_wr32, ?length_wr16; lia.
(** Read through writes to other fields. *)
Ltac rd_other :=
  repeat first
    [ rewrite rd_wr_addrs_other by field_lia
    | rewrite rd_wr32_other by field_lia
    | rewrite rd_wr16_other by field_lia ].

Lemma put_dinode_other o x d o' n : 0 ≤ o → o + 64 ≤ Z.of_nat (length d) → length (d_addrs x) = 13%nat → 0 ≤ o' → 0 ≤ n →
  o' + n ≤ o ∨ o + 64 ≤ o' → rd_bytes o' n (put_dinode o x d) = rd_bytes o' n d.
Proof. intros. unfold put_dinode. rd_other. done. Qed.

Lemma get_put_dinode o x d : 0 ≤ o → o + 64 ≤ Z.of_nat (length d) → dinode_ok x → get_dinode o (put_dinode o x d) = x.
Proof.
  intros Ho Hl (H1 & H2 & H3 & H4 & H5 & H6 & H7). destruct x as [ty maj mnr nl sz addrs]. unfold get_dinode, put_dinode.
  cbn [d_type d_major d_minor d_nlink d_size d_addrs] in *. f_equal.
  1-4: unfold rd16; rd_other; match goal with |- i16 (le_val (rd_bytes ?o' 2 ?b)) = _ => fold (rd16 o' b) end;
    rewrite rd16_wr16 by field_lia; by apply i16_u16.
  - unfold rd32. rd_other. match goal with |- le_val (rd_bytes ?o' 4 ?b) = _ => fold (rd32 o' b) end.
    rewrite rd32_wr32 by field_lia. by apply u32_small.
  - unfold dip_addrs. apply list_eq. intros i. rewrite list_lookup_fmap. destruct (decide (i < 13)%nat) as [Hi|Hi].
    + rewrite lookup_seq_lt by done. cbn [fmap option_fmap option_map]. destruct (lookup_lt_is_Some_2 addrs i) as [a Ea]; [lia|].
      rewrite Ea. f_equal. apply rd_wr_addrs; [lia|field_lia|done|]. rewrite Forall_lookup in H7. by eapply H7.
    + rewrite lookup_seq_ge, lookup_ge_None_2 by lia. done.
Qed.
Lemma length_put_dinode o x d : length (put_dinode o x d) = length d.
Proof. unfold put_dinode. by rewrite length_wr_addrs, length_wr32, !length_wr16. Qed.
Lemma block_ok_put_dinode o x d : block_ok d → block_ok (put_dinode o x d).
Proof. intros Hd. unfold put_dinode. by apply block_ok_wr_addrs, block_ok_wr32, block_ok_wr16, block_ok_wr16, block_ok_wr16, block_ok_wr16. Qed.

Lemma get_dinode_ext o d d' : (∀ o' n, o ≤ o' → 0 ≤ n → o' + n ≤ o + 64 → rd_bytes o' n d' = rd_bytes o' n d) →
  get_dinode o d' = get_dinode o d.
Proof.
  intros E. unfold get_dinode, dip_addrs, rd16, rd32. rewrite !E by lia. f_equal. apply map_ext_in. intros k [_ Hk]%in_seq.
  rewrite E; [done|lia|lia|lia].
Qed.

Lemma rd16_range o d : block_ok d → 0 ≤ rd16 o d < 65536.
Proof.
  intros [_ Hb]. unfold rd16. assert (Forall (λ x, 0 ≤ x < 256) (rd_bytes o 2 d)) as Hf by by apply Forall_take, Forall_drop.
  pose proof (le_val_range _ Hf) as Hr. assert (Z.of_nat (length (rd_bytes o 2 d)) ≤ 2) as Hl by (unfold rd_bytes; rewrite length_take; lia).
  pose proof (Z.pow_le_mono_r 256 (Z.of_nat (length (rd_bytes o 2 d))) 2 ltac:(lia) Hl). lia.
Qed.
Lemma i16_short x : short (i16 x).
Proof. unfold short, i16. destruct (Z.ltb_spec (u16 x) 32768); zlia. Qed.
Lemma get_dinode_ok o d : block_ok d → dinode_ok (get_dinode o d).
Proof.
  intros Hd. unfold dinode_ok, get_dinode. cbn [d_type d_major d_minor d_nlink d_size d_addrs].
  do 4 (split; [apply i16_short|]). split; [by apply rd32_range|]. split; [done|].
  apply Forall_forall. intros a Ha. apply in_map_iff in Ha as (k & <- & _). by apply rd32_range.
Qed.

(** ** Rules for the inode table *)

Lemma islot_iptr k : islot (iptr k) = k.
Proof. unfold islot, iptr. lia. Qed.
Lemma iptr_nz k : (iptr k =? 0) = false.
Proof. apply Z.eqb_neq. unfold iptr. lia. Qed.

Lemma alter_insert_eq (f : inode → inode) (k : nat) (l : list inode) p : l !! k = Some p → alter f k l = <[k := f p]> l.
Proof.
  intros Hp. apply list_eq. intros j. destruct (decide (k = j)) as [<-|Hne].
  - rewrite list_lookup_alter_eq, Hp, list_lookup_insert_eq by by eapply lookup_lt_Some. done.
  - by rewrite list_lookup_alter_ne, list_lookup_insert_ne.
Qed.

Section table.
Context (dev : Z) (SB : superblock) (l0 : logst) (G : fsgeo SB).
Notation fr := (fr dev SB l0).
Notation room := (room SB).
Notation pid := (lpid l0).

Lemma wp_iload Q s V P H X it I c k p :
  fr s V P H X it I c → I !! k = Some p → Q p s → wp (iload (iptr k)) Q s.
Proof.
  intros Hs Hp HQ. unfold iload. wp_run. unfold inode_at. by rewrite islot_iptr, (fr_itable _ _ _ _ _ _ _ _ _ _ _ Hs), Hp.
Qed.
Lemma wp_istore Q s V P H X it I c k p f :
  fr s V P H X it I c → I !! k = Some p → (∀ s', fr s' V P H X it (<[k := f p]> I) c → Q tt s') → wp (istore (iptr k) f) Q s.
Proof.
  intros (E1 & E2 & E3 & E4 & Hr) Hp HQ. unfold istore. wp_run. apply HQ. unfold iupd. rewrite islot_iptr, E3, (alter_insert_eq f k I p Hp).
  do 4 (split; [done|]). exact Hr.
Qed.
Lemma wp_itacquire Q s V P H X I c :
  fr s V P H X false I c → (∀ s', fr s' V P H X true I c → Q tt s') → wp itacquire Q s.
Proof. intros (E1 & E2 & E3 & E4 & Hr) HQ. apply wp_acquire; [done|]. apply HQ. do 4 (split; [done|]). exact Hr. Qed.
Lemma wp_itrelease Q s V P H X I c :
  fr s V P H X true I c → (∀ s', fr s' V P H X false I c → Q tt s') → wp itrelease Q s.
Proof. intros (E1 & E2 & E3 & E4 & Hr) HQ. apply wp_release; [done|]. apply HQ. do 4 (split; [done|]). exact Hr. Qed.

(** The laws of the lock of an inode as a part of the state. *)
Definition has_inode (k : nat) (s : fsst) : Prop := is_Some (itable s !! k).
Lemma ilk_set k lk s : has_inode k s → ilk (iptr k) (set_ilk (iptr k) lk s) = lk.
Proof.
  intros [p Hp]. unfold ilk, set_ilk, inode_at, iupd. cbn. by rewrite islot_iptr, list_lookup_alter_eq, Hp.
Qed.
Lemma has_set_ilk k lk s : has_inode k s → has_inode k (set_ilk (iptr k) lk s).
Proof. intros [p Hp]. unfold has_inode, set_ilk, iupd. cbn. rewrite islot_iptr, list_lookup_alter_eq, Hp. eauto. Qed.
Lemma set_ilk_twice k lk lk' s : set_ilk (iptr k) lk (set_ilk (iptr k) lk' s) = set_ilk (iptr k) lk s.
Proof.
  unfold set_ilk, iupd, set_itable. cbn. f_equal. rewrite islot_iptr. apply list_eq. intros j. destruct (decide (k = j)) as [<-|Hne].
  - rewrite !list_lookup_alter_eq. by destruct (itable s !! k).
  - by rewrite !list_lookup_alter_ne.
Qed.
Lemma set_ilk_id k s : has_inode k s → set_ilk (iptr k) (ilk (iptr k) s) s = s.
Proof.
  intros [p Hp]. unfold set_ilk, ilk, inode_at, iupd, set_itable. destruct s as [s1 s2 I s4 s5]. cbn in *. f_equal.
  rewrite islot_iptr, (alter_insert_eq _ k I p Hp), Hp. cbn. rewrite list_insert_id; [done|]. by destruct p.
Qed.

Lemma fr_ilk s V P H X it I c k p : fr s V P H X it I c → I !! k = Some p → has_inode k s ∧ ilk (iptr k) s = i_lock p.
Proof.
  intros Hs Hp. unfold has_inode, ilk, inode_at. rewrite islot_iptr, (fr_itable _ _ _ _ _ _ _ _ _ _ _ Hs), Hp. eauto.
Qed.
Lemma fr_set_ilk s V P H X it I c k p lk : fr s V P H X it I c → I !! k = Some p →
  fr (set_ilk (iptr k) lk s) V P H X it (<[k := set_i_lock lk p]> I) c.
Proof.
  intros (E1 & E2 & E3 & E4 & Hr) Hp. do 2 (split; [done|]). split; [|split; [done|exact Hr]].
  unfold set_ilk, iupd. cbn. by rewrite islot_iptr, E3, (alter_insert_eq _ k I p Hp).
Qed.
Lemma fr_pid s V P H X it I c : fr s V P H X it I c → fspid s = pid.
Proof. by intros (_ & _ & _ & _ & _ & ? & _). Qed.

Lemma wp_iacquiresleep Q s V P H X it I c k p :
  fr s V P H X it I c → I !! k = Some p → i_lock p = free_lock →
  (∀ s', fr s' V P H X it (<[k := set_i_lock (mkSL false true pid) p]> I) c → Q tt s') → wp (iacquiresleep (iptr k)) Q s.
Proof.
  intros Hs Hp El HQ. destruct (fr_ilk _ _ _ _ _ _ _ _ _ _ Hs Hp) as [Hi Ek]. unfold iacquiresleep.
  eapply (acquiresleep_run _ _ _ _ (has_inode k)); eauto using ilk_set, has_set_ilk, set_ilk_twice, set_ilk_id.
  - by rewrite Ek, El.
  - by rewrite Ek, El.
  - apply HQ. rewrite (fr_pid _ _ _ _ _ _ _ _ Hs). by apply fr_set_ilk.
Qed.
Lemma wp_ireleasesleep Q s V P H X it I c k p :
  fr s V P H X it I c → I !! k = Some p → sl_lk (i_lock p) = false →
  (∀ s', fr s' V P H X it (<[k := set_i_lock free_lock p]> I) c → Q tt s') → wp (ireleasesleep (iptr k)) Q s.
Proof.
  intros Hs Hp El HQ. destruct (fr_ilk _ _ _ _ _ _ _ _ _ _ Hs Hp) as [Hi Ek]. unfold ireleasesleep.
  eapply (releasesleep_run _ _ (iptr k) (has_inode k)); eauto using ilk_set, has_set_ilk, set_ilk_twice, set_ilk_id.
  - by rewrite Ek.
  - apply HQ. by apply fr_set_ilk.
Qed.
Lemma wp_iholdingsleep Q s V P H X it I c k p :
  fr s V P H X it I c → I !! k = Some p → i_lock p = mkSL false true pid → Q true s → wp (iholdingsleep (iptr k)) Q s.
Proof.
  intros Hs Hp El HQ. destruct (fr_ilk _ _ _ _ _ _ _ _ _ _ Hs Hp) as [Hi Ek]. unfold iholdingsleep.
  eapply (holdingsleep_run _ _ _ (has_inode k)); eauto using ilk_set, has_set_ilk, set_ilk_twice, set_ilk_id.
  - by rewrite Ek, El.
  - rewrite Ek, El. cbn. by rewrite (fr_pid _ _ _ _ _ _ _ _ Hs), Z.eqb_refl.
Qed.

(** ** Inodes on disk *)

Lemma IBLOCK_range n : 0 ≤ n < sb_ninodes SB → IBLOCK n SB = n / IPB + sb_inodestart SB ∧ sb_inodestart SB ≤ IBLOCK n SB < sb_bmapstart SB.
Proof.
  intros Hn. destruct G as [(? & ? & ?) ? ? ? ? [? ?]]. unfold IBLOCK.
  assert (0 ≤ n / IPB ≤ sb_ninodes SB / IPB) by (split; [apply Z.div_pos; [lia|done]|apply Z.div_le_mono; [done|lia]]).
  assert (0 ≤ sb_size SB / BPB) by (apply Z.div_pos; [lia|done]). rewrite u32_small by lia. lia.
Qed.
Lemma IBLOCK_home n : 0 ≤ n < sb_ninodes SB → home (sb_logstart SB) (sb_nlog SB) (IBLOCK n SB).
Proof.
  intros Hn. destruct (IBLOCK_range n Hn) as [_ Hr]. destruct G as [(? & ? & ?) ? ? ? ? [? ?]].
  assert (0 ≤ sb_size SB / BPB) by (apply Z.div_pos; [lia|done]). split; lia.
Qed.
Lemma dip_off_range n : 0 ≤ dip_off n ∧ dip_off n + 64 ≤ 1024.
Proof. unfold dip_off, IPB, BSIZE, DINODE_size. change (1024 / 64) with 16. zlia. Qed.
Lemma dip_off_other n n' : 0 ≤ n < sb_ninodes SB → 0 ≤ n' < sb_ninodes SB → n ≠ n' → IBLOCK n SB = IBLOCK n' SB →
  dip_off n + 64 ≤ dip_off n' ∨ dip_off n' + 64 ≤ dip_off n.
Proof.
  intros Hn Hn' Hne E. destruct (IBLOCK_range n Hn) as [E1 _], (IBLOCK_range n' Hn') as [E2 _]. rewrite E1, E2 in E.
  unfold dip_off, IPB, BSIZE, DINODE_size in *. change (1024 / 64) with 16 in *. zlia.
Qed.

Definition dinode_at (V : Z → block) (n : Z) : dinode := get_dinode (dip_off n) (V (IBLOCK n SB)).
(** [V] after [iupdate]. *)
Definition iupdated (V : Z → block) (n : Z) (x : dinode) : Z → block :=
  vset V (IBLOCK n SB) (put_dinode (dip_off n) x (V (IBLOCK n SB))).

Lemma dinode_iupdated V n x n' : (∀ n, block_ok (V n)) → 0 ≤ n < sb_ninodes SB → 0 ≤ n' < sb_ninodes SB → dinode_ok x →
  dinode_at (iupdated V n x) n' = if decide (n' = n) then x else dinode_at V n'.
Proof.
  intros HV Hn Hn' Hx. unfold dinode_at, iupdated. destruct (dip_off_range n) as [? ?]. destruct (HV (IBLOCK n SB)) as [Hl _].
  case_decide as E.
  - subst n'. rewrite vset_same. apply get_put_dinode; [done|lia|done].
  - destruct (decide (IBLOCK n' SB = IBLOCK n SB)) as [Eb|Hb]; [|by rewrite vset_other].
    rewrite Eb, vset_same. destruct (dip_off_other n n') as [Ho|Ho]; try done; try lia.
    + apply get_dinode_ext. intros o' m Ho' Hm Hle. apply put_dinode_other; try lia. apply Hx.
    + apply get_dinode_ext. intros o' m Ho' Hm Hle. destruct (dip_off_range n') as [? ?]. apply put_dinode_other; try lia. apply Hx.
Qed.

Lemma iupdate_run Q s V P H it I c k p :
  fr s V P H None it I c → I !! k = Some p → i_dev p = dev → 0 ≤ i_inum p < sb_ninodes SB →
  H !! IBLOCK (i_inum p) SB = None → (size H ≤ 1)%nat → room P →
  (∀ s', fr s' (iupdated V (i_inum p) (dinode_of p)) (P ∪ {[IBLOCK (i_inum p) SB]}) H None it I c → Q tt s') →
  wp (iupdate (iptr k)) Q s.
Proof.
  intros Hs Hp Ed Hn HH Hsz Hr HQ. unfold iupdate. wp_run. rewrite (fr_sb _ _ _ _ _ _ _ _ _ _ _ Hs).
  eapply wp_iload; [exact Hs|done|]. wp_run. rewrite Ed.
  eapply (wp_fbread dev SB l0 (g_log SB G)); [exact Hs|done|right; unfold FsTx.room in Hr; lia|]. clear s Hs. intros bp s Hs. cbv zeta.
  set (n := IBLOCK (i_inum p) SB) in *. set (o := dip_off (i_inum p)).
  do 6 (wp_run; eapply wp_fset; [exact Hs|apply lookup_insert_eq|by (left + right)|]; clear s Hs; intros s Hs).
  wp_run. eapply (wp_flog_write dev SB l0 (g_log SB G)); [exact Hs|apply lookup_insert_eq|by right|by apply IBLOCK_home|done|]. clear s Hs. intros s Hs.
  eapply (wp_fbrelse dev SB l0 (g_log SB G)); [exact Hs|apply lookup_insert_eq|]. clear s Hs. intros s Hs. apply HQ.
  rewrite delete_insert_id in Hs by done. eapply fr_ext; [|exact Hs]. intros m. unfold iupdated. fold n o. rewrite !vset_same, !vset_vset. done.
Qed.

(** What [ilock] makes of the entry [p]. *)
Definition loaded (V : Z → block) (p : inode) : inode :=
  if i_valid p then p
  else let x := dinode_at V (i_inum p) in
       set_i_valid true (set_i_copy (d_type x) (d_major x) (d_minor x) (d_nlink x) (d_size x) (d_addrs x) p).
Definition locked (p : inode) : inode := set_i_lock (mkSL false true pid) p.
Definition unlocked (p : inode) : inode := set_i_lock free_lock p.

Lemma ilock_run Q s V P H it I c k p :
  fr s V P H None it I c → I !! k = Some p → i_dev p = dev → 0 ≤ i_inum p < sb_ninodes SB → 0 < i_ref p → i_lock p = free_lock →
  H !! IBLOCK (i_inum p) SB = None → (size P + size H < 30)%nat → i_type (loaded V p) ≠ 0 →
  (∀ s', fr s' V P H None it (<[k := locked (loaded V p)]> I) c → Q tt s') → wp (ilock (iptr k)) Q s.
Proof.
  intros Hs Hp Ed Hn Hr El HH Hsz Ht HQ. unfold ilock. wp_run. eapply wp_iload; [exact Hs|done|].
  rewrite iptr_nz, (proj2 (Z.ltb_ge _ _)) by lia. cbn [orb]. wp_run.
  assert (k < length I)%nat as Hk by by eapply lookup_lt_Some.
  eapply wp_iacquiresleep; [exact Hs|done|done|]. clear s Hs. intros s Hs. wp_run.
  eapply wp_iload; [exact Hs|by apply list_lookup_insert_eq|]. unfold loaded in *. cbn [i_valid i_dev i_inum set_i_lock].
  destruct (i_valid p) eqn:Ev; cbn [negb]; [wp_run; by apply HQ|].
  wp_run. rewrite (fr_sb _ _ _ _ _ _ _ _ _ _ _ Hs), Ed.
  eapply (wp_fbread dev SB l0 (g_log SB G)); [exact Hs|done|by right|]. clear s Hs. intros bp s Hs. wp_run.
  eapply wp_fdata; [exact Hs|apply lookup_insert_eq|]. intros _. wp_run.
  eapply wp_istore; [exact Hs|by apply list_lookup_insert_eq|]. clear s Hs. intros s Hs. wp_run.
  eapply (wp_fbrelse dev SB l0 (g_log SB G)); [exact Hs|apply lookup_insert_eq|]. clear s Hs. intros s Hs. wp_run.
  rewrite list_insert_insert_eq in Hs. rewrite delete_insert_id in Hs by done.
  eapply wp_istore; [exact Hs|by apply list_lookup_insert_eq|]. clear s Hs. intros s Hs. wp_run. rewrite list_insert_insert_eq in Hs.
  eapply wp_iload; [exact Hs|by apply list_lookup_insert_eq|].
  cbv zeta in Ht. cbn [i_type set_i_valid set_i_copy] in Ht |- *. unfold dinode_at, get_dinode in Ht. cbn [d_type] in Ht.
  rewrite (proj2 (Z.eqb_neq _ _)) by done. wp_run. apply HQ. exact Hs.
Qed.

Lemma iunlock_run Q s V P H X it I c k p :
  fr s V P H X it I c → I !! k = Some p → 0 < i_ref p → i_lock p = mkSL false true pid →
  (∀ s', fr s' V P H X it (<[k := unlocked p]> I) c → Q tt s') → wp (iunlock (iptr k)) Q s.
Proof.
  intros Hs Hp Hr El HQ. unfold iunlock. wp_run. eapply wp_iload; [exact Hs|done|]. rewrite iptr_nz. wp_run.
  eapply wp_iholdingsleep; [exact Hs|done|done|]. rewrite (proj2 (Z.ltb_ge _ _)) by lia. cbn [negb orb].
  eapply wp_ireleasesleep; [exact Hs|done|by rewrite El|done].
Qed.

Lemma idup_run Q s V P H X I c k p :
  fr s V P H X false I c → I !! k = Some p → 0 ≤ i_ref p < 2147483647 →
  (∀ s', fr s' V P H X false (<[k := set_i_ref (i_ref p + 1) p]> I) c → Q (iptr k) s') → wp (idup (iptr k)) Q s.
Proof.
  intros Hs Hp Hr HQ. unfold idup. wp_run. eapply wp_itacquire; [exact Hs|]. clear s Hs. intros s Hs. wp_run.
  eapply wp_istore; [exact Hs|done|]. clear s Hs. intros s Hs. wp_run. rewrite i32_small in Hs by lia.
  eapply wp_itrelease; [exact Hs|]. clear s Hs. intros s Hs. wp_run. by apply HQ.
Qed.

(** [iput] of an inode that stays on disk. *)
Lemma iput_keep_run Q s V P H X I c k p :
  fr s V P H X false I c → I !! k = Some p → 0 < i_ref p < 2147483648 → (i_ref p = 1 → i_valid p = true → i_nlink p ≠ 0) →
  (∀ s', fr s' V P H X false (<[k := set_i_ref (i_ref p - 1) p]> I) c → Q tt s') → wp (iput (iptr k)) Q s.
Proof.
  intros Hs Hp Hr Hk HQ. unfold iput. wp_run. eapply wp_itacquire; [exact Hs|]. clear s Hs. intros s Hs. wp_run.
  eapply wp_iload; [exact Hs|done|].
  assert ((i_ref p =? 1) && i_valid p && (i_nlink p =? 0) = false) as ->.
  { destruct (Z.eqb_spec (i_ref p) 1) as [E|]; [|done]. destruct (i_valid p); [|done]. cbn. apply Z.eqb_neq. auto. }
  wp_run. eapply wp_istore; [exact Hs|done|]. clear s Hs. intros s Hs. rewrite i32_small in Hs by lia.
  wp_run. eapply wp_itrelease; [exact Hs|]. clear s Hs. intros s Hs. by apply HQ.
Qed.

(** ** [iget] *)

(** The entry [p] is the inode [n] in use. *)
Definition hits (n : Z) (p : inode) : bool := (0 <? i_ref p) && (i_dev p =? dev) && (i_inum p =? n).

Lemma iget_scan_run (Q : Z + Z → fsst → Prop) s V P H X I c n :
  fr s V P H X true I c → length I = 50%nat → Forall (λ p, 0 ≤ i_ref p < 2147483647) I →
  (∀ k p s', I !! k = Some p → hits n p = true → (∀ j q, (j < k)%nat → I !! j = Some q → hits n q = false) →
     fr s' V P H X false (<[k := set_i_ref (i_ref p + 1) p]> I) c → Q (inl (iptr k)) s') →
  (∀ empty s', (∀ j q, I !! j = Some q → hits n q = false) → fr s' V P H X true I c →
     (empty = 0 ∧ (∀ j q, I !! j = Some q → i_ref q ≠ 0) ∨
      ∃ k p, empty = iptr k ∧ I !! k = Some p ∧ i_ref p = 0 ∧ (∀ j q, (j < k)%nat → I !! j = Some q → i_ref q ≠ 0)) → Q (inr empty) s') →
  wp (loop (S (Z.to_nat NINODE)) (iget_turn dev n) (0%nat, 0)) Q s.
Proof.
  intros Hs Hl Hrefs HS HN. change (Z.to_nat NINODE) with 50%nat.
  eapply (wp_loop (λ '(i, empty) s', (i ≤ 50)%nat ∧ fr s' V P H X true I c ∧ (∀ j q, (j < i)%nat → I !! j = Some q → hits n q = false) ∧
     (empty = 0 ∧ (∀ j q, (j < i)%nat → I !! j = Some q → i_ref q ≠ 0) ∨
      ∃ k p, empty = iptr k ∧ I !! k = Some p ∧ i_ref p = 0 ∧ (∀ j q, (j < k)%nat → I !! j = Some q → i_ref q ≠ 0)))
     (λ '(i, _) _, (50 - i)%nat)); [lia| |].
  { split; [lia|]. split; [done|]. split; [lia|]. left. split; [done|lia]. }
  clear s Hs. intros [i empty] s (Hi & Hs & Hno & He). unfold iget_turn. change (Z.to_nat NINODE) with 50%nat.
  destruct (Nat.leb_spec 50 i).
  - wp_run. assert (∀ j q, I !! j = Some q → (j < i)%nat) as Hj.
    { intros j q Hq. apply lookup_lt_Some in Hq. lia. }
    apply HN; [eauto|done|]. destruct He as [[-> He]|He]; [left; eauto|by right].
  - destruct (lookup_lt_is_Some_2 I i) as [p Hp]; [lia|]. wp_run. eapply wp_iload; [exact Hs|done|].
    change ((0 <? i_ref p) && (i_dev p =? dev) && (i_inum p =? n)) with (hits n p). destruct (hits n p) eqn:Eh.
    + wp_run. eapply wp_istore; [exact Hs|done|]. clear s Hs. intros s Hs.
      rewrite Forall_lookup in Hrefs. rewrite i32_small in Hs by (specialize (Hrefs i p Hp); lia). wp_run.
      eapply wp_itrelease; [exact Hs|]. clear s Hs. intros s Hs. wp_run. by eapply HS.
    + wp_run. split; [|lia]. split; [lia|]. split; [done|]. split.
      { intros j q Hj Hq. destruct (decide (j = i)) as [->|]; [congruence|]. apply (Hno j); [lia|done]. }
      destruct He as [[-> He]|(k & q & -> & Hk)].
      * rewrite Z.eqb_refl. cbn [andb]. destruct (Z.eqb_spec (i_ref p) 0) as [E0|E0].
        -- right. by exists i, p.
        -- left. split; [done|]. intros j q Hj Hq. destruct (decide (j = i)) as [->|]; [congruence|]. apply (He j); [lia|done].
      * rewrite iptr_nz. cbn [andb]. right. by exists k, q.
Qed.

Lemma iget_run Q s V P H X I c n :
  fr s V P H X false I c → length I = 50%nat → Forall (λ p, 0 ≤ i_ref p < 2147483647) I →
  (∃ k p, I !! k = Some p ∧ (i_ref p = 0 ∨ hits n p = true)) →
  (∀ k p s', I !! k = Some p → hits n p = true → (∀ j q, (j < k)%nat → I !! j = Some q → hits n q = false) →
     fr s' V P H X false (<[k := set_i_ref (i_ref p + 1) p]> I) c → Q (iptr k) s') →
  (∀ k p s', I !! k = Some p → i_ref p = 0 → (∀ j q, I !! j = Some q → hits n q = false) →
     fr s' V P H X false (<[k := set_i_id dev n 1 false p]> I) c → Q (iptr k) s') →
  wp (iget dev n) Q s.
Proof.
  intros Hs Hl Hrefs (k0 & p0 & Hk0 & Hor) HS HN. unfold iget. wp_run. eapply wp_itacquire; [exact Hs|]. clear s Hs. intros s Hs. wp_run.
  eapply iget_scan_run; [exact Hs|done|done| |].
  - intros k p s' Hp Hh Hlt Hs'. wp_run. by eapply HS.
  - intros empty s' Hno Hs' [[-> He]|(k & p & -> & Hp & E0 & _)].
    { exfalso. destruct Hor as [E|E]; [by apply (He k0 p0)|]. rewrite (Hno k0 p0 Hk0) in E. done. }
    rewrite iptr_nz. wp_run. eapply wp_istore; [exact Hs'|done|]. clear s' Hs'. intros s' Hs'. wp_run.
    eapply wp_itrelease; [exact Hs'|]. clear s' Hs'. intros s' Hs'. wp_run. by eapply HN.
Qed.

End table.
