(* ===== verification/FsOp.v ===== *)
(** * File system operations as transactions

    What begins and ends between [begin_op] and [end_op]: an operation whose run
    inside the transaction is known takes the disk from one state to the next,
    and a crash leaves one of the two. *)

From stdpp Require Import base gmap list strings numbers.
From S2P Require Import Prelude Block SleepLock Bio BioSpec Cache Log LogSpec Fs FsTx FsAlloc FsInode.

(** A system call of the file system. *)
Definition in_tx {A} (m : M fsst A) : M fsst A :=
  inlog begin_op ;; a <- m ;; inlog end_op ;; ret a.

Section op.
Context (dev : Z) (SB : superblock) (G : fsgeo SB).
Notation start := (sb_logstart SB).
Notation nlog := (sb_nlog SB).

(** Between transactions. *)
Definition fsq (s : fsst) (I : list inode) (c : Z) : Prop :=
  sb s = SB ∧ it_locked s = false ∧ itable s = I ∧ cwd s = c ∧ quiet dev start nlog (flog s).

(** The blocks on disk. *)
Definition dview (s : fsst) : Z → block := dget (disk (bcache (flog s))).

(** What a crash after [k] of the writes [W] leaves of a change of the disk of
    [s] to [V], whatever happens during the next boots. *)
Definition crash_safe (s : fsst) (V : Z → block) (W : list (Z * block)) : Prop :=
  ∀ pid k d, crash_loop dev SB pid (replay (disk (bcache (flog s))) (take k W)) d →
    ∃ l, boot dev SB d pid = OK tt l ∧ quiet dev start nlog l ∧
      ((∀ n, home start nlog n → dget (disk (bcache l)) n = dview s n) ∧ (k < length W)%nat ∨
       (∀ n, home start nlog n → dget (disk (bcache l)) n = V n)).

Lemma in_tx_run {A} (m : M fsst A) (Post : A → (Z → block) → list inode → Z → Prop) s I c :
  dev ≠ 0 → fsq s I c →
  (∀ s1, fr dev SB (flog s1) s1 (dview s) ∅ ∅ None false I c →
     wp m (λ a s2, ∃ V P I' c', fr dev SB (flog s1) s2 V P ∅ None false I' c' ∧ Post a V I' c') s1) →
  ∃ a s' V I' c' W, in_tx m s = OK a s' ∧ fsq s' I' c' ∧ Post a V I' c' ∧ (∀ n, home start nlog n → dview s' n = V n) ∧
    wtrace (bcache (flog s')) = wtrace (bcache (flog s)) ++ W ∧ crash_safe s V W ∧
    disk (bcache (flog s')) = replay (disk (bcache (flog s))) W ∧
    ((∀ n, block_ok (V n)) → (∀ n, block_ok (dview s n)) → ∀ n, block_ok (dview s' n)).
Proof.
  intros Hdev (E1 & E2 & E3 & E4 & Hq) Hm. pose proof (g_log SB G) as Hg.
  enough (wp (in_tx m) (λ a s', ∃ V I' c' W, fsq s' I' c' ∧ Post a V I' c' ∧ (∀ n, home start nlog n → dview s' n = V n) ∧
    wtrace (bcache (flog s')) = wtrace (bcache (flog s)) ++ W ∧ crash_safe s V W ∧
    disk (bcache (flog s')) = replay (disk (bcache (flog s))) W ∧
    ((∀ n, block_ok (V n)) → (∀ n, block_ok (dview s n)) → ∀ n, block_ok (dview s' n))) s) as H.
  { apply wp_run_OK in H as (a & s' & E & V & I' & c' & W & H). by exists a, s', V, I', c', W. }
  unfold in_tx. wp_run. apply wp_inlog. eapply wp_mono; [by apply (begin_op_run dev start nlog)|]. cbv beta.
  intros [] l (Hl & Ho & Eb). wp_run. set (s1 := set_flog l s).
  assert (fr dev SB (flog s1) s1 (dview s) ∅ ∅ None false I c) as Hs1.
  { do 4 (split; [done|]). split; [done|]. split; [done|]. exists []. split; [done|]. split; [exact Hl|].
    intros n _ _. cbn. by rewrite Eb. }
  eapply wp_mono; [by apply Hm|]. cbv beta. intros a s2 (V & P & I' & c' & Hs2 & HP). wp_run.
  pose proof Hs2 as (F1 & F2 & F3 & F4 & (Ed & Ew & Eo) & _ & L & HL & Hl2 & HX).
  assert (disk (bcache (flog s2)) = disk (bcache (flog s))) as Ed2 by (rewrite Ed; cbn; by rewrite Eb).
  assert (start ∉ P) as Hst.
  { intros Hin. rewrite <-HL in Hin. apply elem_of_list_to_set in Hin. destruct Hl2 as ((_ & _ & _ & _ & Htx) & _).
    by apply (start_not_home start nlog Hg), (tx_ok_home start nlog L). }
  apply wp_inlog. pose proof Hq as (_ & _ & _ & _ & _ & Hok & Hh).
  eapply wp_mono; [apply (end_op_run dev start nlog Hg (flog s2) V L)|].
  - exact Hl2.
  - rewrite Eo. exact Ho.
  - rewrite (HX start) by (done || congruence). rewrite Ed2. apply Hok.
  - by rewrite Ed2.
  - by rewrite Ed2.
  - cbv beta. intros [] l3 (W & Hq3 & HW & Hd3 & Hw3). wp_run. pose proof Hl2 as ((_ & _ & _ & _ & Htx) & _).
    assert (∀ n, home start nlog n → n ∉ L → V n = dget (disk (bcache (flog s))) n) as HV.
    { intros n _ Hn. rewrite <-Ed2. apply HX; [set_solver|done]. }
    rewrite Ed2 in HW, Hd3. exists V, I', c', W. split; [by do 4 (split; [done|])|]. split; [done|]. split; [|split; [|split; [|split; [done|]]]].
    + intros n Hn. unfold dview. cbn. rewrite Hd3.
      destruct (commit_atomic start nlog Hg V L _ W (length W) Hok Hh Htx HV HW) as (_ & _ & Hdone).
      rewrite firstn_all in Hdone. by apply (Hdone eq_refl).
    + cbn. rewrite Hw3, Ew. cbn. by rewrite Eb.
    + intros pid k d Hc. by eapply (commit_crash dev start nlog Hg SB (flog s) V L).
    + intros HVok Hdok n. unfold dview. cbn [flog set_flog]. rewrite Hd3. eapply commits_ok; [exact HVok|exact Hdok|exact HW].
Qed.

End op.
