(* ===== verification/FsFile.v ===== *)
(** * The contents of files: [bmap], [readi], [writei] and [itrunc] *)

From stdpp Require Import base gmap list strings numbers.
From S2P Require Import Prelude Block SleepLock Bio BioSpec Cache Log LogSpec Fs FsTx FsAlloc FsInode.

Section file.
Context (dev : Z) (SB : superblock) (l0 : logst) (G : fsgeo SB).
Notation fr := (fr dev SB l0).
Notation room := (room SB).
Notation pid := (lpid l0).
Notation free := (free SB).
Notation vok := (vok SB).
Notation balloced := (balloced SB).
Notation dstart := (dstart SB).
Notation size_of := (sb_size SB).

(** ** Free blocks *)

Definition nfree (V : Z → block) : nat := length (filter (λ b, free V b) (seqZ 0 size_of)).

Lemma nfree_some V : (0 < nfree V)%nat → ∃ b, 0 ≤ b < size_of ∧ free V b.
Proof.
  unfold nfree. destruct (filter _ _) as [|b l] eqn:E; [cbn; lia|]. intros _. exists b.
  assert (b ∈ filter (λ b, free V b) (seqZ 0 size_of)) as Hb by (rewrite E; constructor).
  apply list_elem_of_filter in Hb as [Hf Hb]. apply elem_of_seqZ in Hb. split; [lia|done].
Qed.

Lemma filter_length_remove {A} `{EqDecision A} (P Q : A → Prop) `{∀ x, Decision (P x)} `{∀ x, Decision (Q x)} (l : list A) b :
  NoDup l → (∀ x, x ∈ l → P x → x ≠ b → Q x) → (length (filter P l) ≤ length (filter Q l) + 1)%nat.
Proof.
  intros Hnd HPQ. assert (length (filter P l) ≤ length (b :: filter Q l))%nat as Hle; [|cbn in Hle; lia].
  apply submseteq_length, NoDup_submseteq; [by apply list.NoDup_filter|]. intros x [Hx Hl]%list_elem_of_filter.
  destruct (decide (x = b)) as [->|Hne]; [constructor|]. apply list_elem_of_further, list_elem_of_filter. auto.
Qed.

Lemma filter_ext_in {A} (P Q : A → Prop) `{∀ x, Decision (P x)} `{∀ x, Decision (Q x)} (l : list A) :
  (∀ x, x ∈ l → P x ↔ Q x) → filter P l = filter Q l.
Proof.
  induction l as [|x l IH]; intros E; [done|]. rewrite !list.filter_cons, IH by (intros y Hy; apply E; by constructor).
  pose proof (E x (list_elem_of_here _ _)). destruct (decide (P x)), (decide (Q x)); tauto.
Qed.
Lemma nfree_data V n d : dstart ≤ n → nfree (vset V n d) = nfree V.
Proof.
  intros Hn. unfold nfree. f_equal. apply filter_ext_in. intros x Hx%elem_of_seqZ. apply (free_data SB G); lia.
Qed.

Lemma nfree_balloced V b : vok V → 0 ≤ b < size_of → free V b → (nfree V ≤ nfree (balloced V b) + 1)%nat.
Proof.
  intros Hv Hb Hf. apply (filter_length_remove _ _ _ b); [apply NoDup_seqZ|]. intros x Hx%elem_of_seqZ Hfx Hne.
  apply (free_balloced SB G); [done|done|done|lia|done].
Qed.

(** ** The blocks of a file *)

(** Slot [i] of an inode: the block of the file with that index, and the
    indirect block as slot MAXFILE; 0 when there is none. *)
Definition bslot (V : Z → block) (p : inode) (i : Z) : Z :=
  if i <? NDIRECT then addr_of i p
  else if i =? MAXFILE then addr_of NDIRECT p
  else if addr_of NDIRECT p =? 0 then 0 else rd32 (4 * (i - NDIRECT)) (V (addr_of NDIRECT p)).

(** The slots are different allocated data blocks. *)
Record finv (V : Z → block) (p : inode) : Prop := mkFinv {
  f_len : length (i_addrs p) = 13%nat;
  f_inj : ∀ i j, 0 ≤ i ≤ MAXFILE → 0 ≤ j ≤ MAXFILE → bslot V p i = bslot V p j → bslot V p i ≠ 0 → i = j;
  f_rng : ∀ i, 0 ≤ i ≤ MAXFILE → bslot V p i ≠ 0 → dstart ≤ bslot V p i < size_of ∧ ¬ free V (bslot V p i);
}.

(** Byte [o] of the file. *)
Definition fbyte (V : Z → block) (p : inode) (o : Z) : Z :=
  if bslot V p (o / BSIZE) =? 0 then 0 else default 0 (V (bslot V p (o / BSIZE)) !! Z.to_nat (o mod BSIZE)).

(** Nothing else changed: every block that is not of the bitmap, not free and not
    of this file. *)
Definition others (V : Z → block) (p : inode) (n : Z) : Prop :=
  n < sb_bmapstart SB ∨ size_of ≤ n ∨
  (dstart ≤ n < size_of ∧ ¬ free V n ∧ ∀ i, 0 ≤ i ≤ MAXFILE → bslot V p i ≠ n).

(** A file changed: the blocks it had stay, new ones were free, nothing else was
    touched; of the fields of the inode only the addresses differ. *)
Record fmono (V : Z → block) (p : inode) (V' : Z → block) (p' : inode) : Prop := mkMono {
  fm_inv : finv V' p';
  fm_vok : vok V';
  fm_fields : ∃ l, p' = set_i_copy (i_type p) (i_major p) (i_minor p) (i_nlink p) (i_size p) l p;
  fm_slot : ∀ i, 0 ≤ i ≤ MAXFILE → bslot V p i ≠ 0 → bslot V' p' i = bslot V p i;
  fm_new : ∀ i, 0 ≤ i ≤ MAXFILE → bslot V' p' i ≠ 0 → bslot V p i = bslot V' p' i ∨ free V (bslot V' p' i);
  fm_free : ∀ b, 0 ≤ b < size_of → free V' b → free V b;
  fm_other : ∀ n, others V p n → V' n = V n;
}.

(** Blocks of zeros were added. *)
Record grown (V : Z → block) (p : inode) (V' : Z → block) (p' : inode) : Prop := mkGrown {
  gr_mono : fmono V p V' p';
  gr_data : ∀ i, 0 ≤ i < MAXFILE → bslot V' p' i ≠ 0 →
    V' (bslot V' p' i) = if bslot V p i =? 0 then zero_block else V (bslot V p i);
}.

(** The bytes from [lo] to [hi] were written, with [g]. *)
Record wrote (lo hi : Z) (g : Z → Z) (V : Z → block) (p : inode) (V' : Z → block) (p' : inode) : Prop := mkWrote {
  wr_mono : fmono V p V' p';
  wr_byte : ∀ o, 0 ≤ o < MAXFILE * BSIZE → fbyte V' p' o = if (lo <=? o) && (o <? hi) then g o else fbyte V p o;
}.

Lemma copy_self p : set_i_copy (i_type p) (i_major p) (i_minor p) (i_nlink p) (i_size p) (i_addrs p) p = p.
Proof. by destruct p. Qed.

Lemma fmono_refl V p : finv V p → vok V → fmono V p V p.
Proof.
  intros Hf Hv. constructor; try done; eauto. exists (i_addrs p). by rewrite copy_self.
Qed.

Lemma fmono_others V p V' p' n : fmono V p V' p' → others V p n → others V' p' n.
Proof.
  intros Hg [Hn|[Hn|(Hn & Hf & Hs)]]; [by left|by right; left|]. right; right. split; [done|].
  destruct (g_size SB G) as [Hds _]. assert (0 ≤ n) by (unfold FsAlloc.dstart in *; lia). split.
  - intros Hf'. apply Hf. apply (fm_free _ _ _ _ Hg); [lia|done].
  - intros i Hi E. assert (bslot V' p' i ≠ 0) as Hnz by (unfold FsAlloc.dstart in *; lia).
    destruct (fm_new _ _ _ _ Hg i Hi Hnz) as [E'|E']; [apply (Hs i Hi); congruence|apply Hf; congruence].
Qed.

Lemma fmono_trans V p V1 p1 V2 p2 : fmono V p V1 p1 → fmono V1 p1 V2 p2 → fmono V p V2 p2.
Proof.
  intros H1 H2. constructor.
  - apply H2.
  - apply H2.
  - destruct (fm_fields _ _ _ _ H1) as [l ->]. destruct (fm_fields _ _ _ _ H2) as [l' ->]. by exists l'.
  - intros i Hi Hn. pose proof (fm_slot _ _ _ _ H1 i Hi Hn) as E. rewrite <-E in Hn |- *. by apply (fm_slot _ _ _ _ H2).
  - intros i Hi Hn. destruct (fm_new _ _ _ _ H2 i Hi Hn) as [E|E].
    + rewrite <-E in Hn |- *. by apply (fm_new _ _ _ _ H1).
    + right. apply (fm_free _ _ _ _ H1); [|done]. pose proof (f_rng _ _ (fm_inv _ _ _ _ H2) i Hi Hn) as [? _].
      destruct (g_size SB G). lia.
  - intros b Hb Hf. by apply (fm_free _ _ _ _ H1), (fm_free _ _ _ _ H2).
  - intros n Hn. rewrite (fm_other _ _ _ _ H2) by (by eapply fmono_others). by apply (fm_other _ _ _ _ H1).
Qed.

Lemma fgrown_refl V p : finv V p → vok V → grown V p V p.
Proof.
  intros Hf Hv. constructor; [by apply fmono_refl|]. intros i Hi Hn. by rewrite (proj2 (Z.eqb_neq _ _)).
Qed.

Lemma fgrown_trans V p V1 p1 V2 p2 : grown V p V1 p1 → grown V1 p1 V2 p2 → grown V p V2 p2.
Proof.
  intros [H1 D1] [H2 D2]. constructor; [by eapply fmono_trans|].
  intros i Hi Hn. rewrite (D2 i Hi Hn). destruct (Z.eqb_spec (bslot V1 p1 i) 0) as [E|E]; [|by apply D1].
  destruct (Z.eqb_spec (bslot V p i) 0) as [E0|E0]; [done|]. rewrite (fm_slot _ _ _ _ H1 i) in E; [done|lia|done].
Qed.

Lemma wrote_trans lo mid hi g V p V1 p1 V2 p2 : lo ≤ mid ≤ hi →
  wrote lo mid g V p V1 p1 → wrote mid hi g V1 p1 V2 p2 → wrote lo hi g V p V2 p2.
Proof.
  intros Hm [H1 B1] [H2 B2]. constructor; [by eapply fmono_trans|]. intros o Ho. rewrite B2, B1 by done.
  destruct (Z.leb_spec mid o), (Z.ltb_spec o hi), (Z.leb_spec lo o), (Z.ltb_spec o mid); cbn; try done; lia.
Qed.

Lemma lookup_zero n : default 0 (zero_block !! n) = 0.
Proof.
  destruct (zero_block !! n) as [x|] eqn:E; [|done]. unfold zero_block in E. apply (lookup_replicate_1 1024 0) in E as [-> _]. done.
Qed.

Lemma grown_fbyte V p V' p' o : grown V p V' p' → 0 ≤ o < MAXFILE * BSIZE → fbyte V' p' o = fbyte V p o.
Proof.
  intros Hg Ho. unfold fbyte. assert (0 ≤ o / BSIZE < MAXFILE) as Hi by (unfold MAXFILE, NDIRECT, NINDIRECT, BSIZE in *; change (1024 / 4) with 256 in *; zlia).
  destruct (Z.eqb_spec (bslot V' p' (o / BSIZE)) 0) as [E|E].
  - destruct (Z.eqb_spec (bslot V p (o / BSIZE)) 0) as [E0|E0]; [done|]. rewrite (fm_slot _ _ _ _ (gr_mono _ _ _ _ Hg)) in E; [done|lia|done].
  - rewrite (gr_data _ _ _ _ Hg _ Hi E). destruct (Z.eqb_spec (bslot V p (o / BSIZE)) 0); [apply lookup_zero|done].
Qed.

(** A free block [b] became slot [i0]. *)
Lemma grown_add V p b V' p' i0 :
  finv V p → vok V → 0 ≤ b < size_of → free V b → 0 ≤ i0 ≤ MAXFILE → bslot V p i0 = 0 →
  length (i_addrs p') = 13%nat → (∃ l, p' = set_i_copy (i_type p) (i_major p) (i_minor p) (i_nlink p) (i_size p) l p) →
  bslot V' p' i0 = b → (∀ i, 0 ≤ i ≤ MAXFILE → i ≠ i0 → bslot V' p' i = bslot V p i) →
  (i0 < MAXFILE → V' b = zero_block) → (∀ i, 0 ≤ i < MAXFILE → bslot V p i ≠ 0 → V' (bslot V p i) = V (bslot V p i)) →
  (∀ b', 0 ≤ b' < size_of → free V' b' ↔ b' ≠ b ∧ free V b') → vok V' → (∀ n, others V p n → V' n = V n) →
  grown V p V' p'.
Proof.
  intros Hf Hv Hb Hfb Hi0 E0 Hl Hfi Eb Ei Hz Hd Hfr Hv' Ho. pose proof (proj2 Hv b Hb Hfb) as Hbd.
  destruct (g_size SB G) as [Hds _].
  assert (∀ i, 0 ≤ i ≤ MAXFILE → bslot V p i ≠ b) as Hne.
  { intros i Hi E. destruct (f_rng _ _ Hf i Hi) as [_ Hu]; [lia|]. rewrite E in Hu. done. }
  constructor; [constructor; try done|].
  - constructor; [done| |].
    + intros i j Hi Hj E Hn. destruct (decide (i = i0)) as [->|Ni], (decide (j = i0)) as [->|Nj]; [done| | |].
      * rewrite Eb, (Ei j Hj Nj) in E. destruct (Hne j Hj); congruence.
      * rewrite Eb, (Ei i Hi Ni) in E. destruct (Hne i Hi); congruence.
      * rewrite (Ei i Hi Ni), (Ei j Hj Nj) in E. rewrite (Ei i Hi Ni) in Hn. by apply (f_inj _ _ Hf).
    + intros i Hi Hn. destruct (decide (i = i0)) as [->|Ni].
      * rewrite Eb. split; [lia|]. rewrite Hfr by lia. tauto.
      * rewrite (Ei i Hi Ni) in *. destruct (f_rng _ _ Hf i Hi Hn) as [Hr Hu]. split; [done|]. rewrite Hfr by lia. tauto.
  - intros i Hi Hn. apply Ei; [done|]. congruence.
  - intros i Hi Hn. destruct (decide (i = i0)) as [->|Ni]; [right; congruence|left; by rewrite Ei].
  - intros b' Hb' Hf'. by apply Hfr in Hf' as [_ ?].
  - intros i Hi Hn. destruct (decide (i = i0)) as [->|Ni].
    + rewrite E0, Eb. cbn. apply Hz. lia.
    + rewrite Ei in * by (done || lia). rewrite (proj2 (Z.eqb_neq _ _)) by done. by apply Hd.
Qed.

Lemma balloced_other V b n : n ≠ b → n ≠ BBLOCK b SB → balloced V b n = V n.
Proof. intros H1 H2. unfold FsAlloc.balloced, mark. by rewrite !vset_other. Qed.

Lemma balloced_slot V p b i : finv V p → 0 ≤ b < size_of → free V b → 0 ≤ i ≤ MAXFILE → bslot V p i ≠ 0 →
  balloced V b (bslot V p i) = V (bslot V p i).
Proof.
  intros Hf Hb Hfb Hi Hn. destruct (f_rng _ _ Hf i Hi Hn) as [Hr Hu]. destruct (BBLOCK_range SB G b Hb) as [_ Hbb].
  apply balloced_other; [congruence|]. intros E. rewrite E in Hr. lia.
Qed.

Lemma balloced_others V p b n : 0 ≤ b < size_of → free V b → dstart ≤ b → others V p n → balloced V b n = V n.
Proof.
  intros Hb Hfb Hd Ho. destruct (BBLOCK_range SB G b Hb) as [_ Hbb]. destruct (g_data SB G) as [].
  assert (sb_bmapstart SB ≤ dstart). { lia. }
  destruct Ho as [Hn|[Hn|(Hn & Hf & _)]]; apply balloced_other; try lia; try congruence; intros ->; lia.
Qed.

Lemma le_val_zero n : le_val (replicate n 0) = 0.
Proof. induction n as [|n IH]; [done|]. cbn [replicate le_val]. lia. Qed.
Lemma rd32_zero o : rd32 o zero_block = 0.
Proof.
  unfold rd32, rd_bytes, zero_block. rewrite drop_replicate, take_replicate. apply le_val_zero.
Qed.

Lemma MAXF : MAXFILE = 268.
Proof. done. Qed.
Lemma bslot_ind V p : bslot V p MAXFILE = addr_of NDIRECT p.
Proof. done. Qed.
Lemma bslot_direct V p i : i < 12 → bslot V p i = addr_of i p.
Proof. intros Hi. unfold bslot, NDIRECT. by rewrite (proj2 (Z.ltb_lt i 12)). Qed.
Lemma bslot_indirect V p i : 12 ≤ i < 268 → addr_of NDIRECT p ≠ 0 → bslot V p i = rd32 (4 * (i - 12)) (V (addr_of NDIRECT p)).
Proof.
  intros Hi Hn. unfold bslot. rewrite MAXF, (proj2 (Z.eqb_neq (addr_of NDIRECT p) 0)) by done. unfold NDIRECT.
  rewrite (proj2 (Z.ltb_ge i 12)), (proj2 (Z.eqb_neq i 268)) by lia. done.
Qed.
Lemma bslot_none V p i : 12 ≤ i ≤ 268 → addr_of NDIRECT p = 0 → bslot V p i = 0.
Proof.
  intros Hi Hn. unfold bslot. rewrite Hn. unfold NDIRECT. rewrite (proj2 (Z.ltb_ge i 12)) by lia. by destruct (i =? MAXFILE).
Qed.

Lemma addr_of_set n a p m : 0 ≤ n < 13 → length (i_addrs p) = 13%nat → 0 ≤ m → addr_of m (set_i_addr n a p) = if m =? n then a else addr_of m p.
Proof.
  intros Hn Hl Hm. unfold addr_of, set_i_addr. cbn. destruct (Z.eqb_spec m n) as [->|Hne].
  - rewrite list_lookup_insert_eq by lia. done.
  - rewrite list_lookup_insert_ne by lia. done.
Qed.

(** The bitmap and a block without a direct slot or with an indirect one. *)
Lemma grown_direct V p b i :
  finv V p → vok V → 0 ≤ b < size_of → free V b → 0 ≤ i ≤ 12 → addr_of i p = 0 →
  grown V p (balloced V b) (set_i_addr i b p).
Proof.
  intros Hf Hv Hb Hfb Hi E0. pose proof (f_len _ _ Hf) as Hl. pose proof (proj2 Hv b Hb Hfb) as Hbd.
  assert (∀ m, 0 ≤ m → addr_of m (set_i_addr i b p) = if m =? i then b else addr_of m p) as Ea.
  { intros m Hm. apply addr_of_set; lia || done. }
  apply (grown_add V p b _ _ (if i =? 12 then MAXFILE else i)); try done.
  - rewrite MAXF. destruct (Z.eqb_spec i 12); lia.
  - destruct (Z.eqb_spec i 12) as [->|]; [by rewrite bslot_ind|]. by rewrite bslot_direct by lia.
  - cbn. by rewrite length_insert.
  - exists (<[Z.to_nat i := b]> (i_addrs p)). by destruct p.
  - destruct (Z.eqb_spec i 12) as [->|]; [rewrite bslot_ind|rewrite bslot_direct by lia]; rewrite Ea by (unfold NDIRECT; lia); by rewrite ?Z.eqb_refl.
  - intros j Hj Hji. rewrite MAXF in *. destruct (decide (j < 12)) as [Hj12|Hj12].
    + rewrite !bslot_direct, Ea by lia. destruct (Z.eqb_spec j i) as [->|]; [|done]. destruct (Z.eqb_spec i 12); lia.
    + destruct (Z.eqb_spec i 12) as [->|Hi12].
      * assert (j < 268) as Hjl by lia. rewrite (bslot_none V p j) by (lia || done).
        rewrite bslot_indirect by (try lia; rewrite Ea by (unfold NDIRECT; lia); unfold NDIRECT; rewrite Z.eqb_refl; destruct (g_size SB G); lia).
        rewrite Ea by (unfold NDIRECT; lia). unfold NDIRECT. rewrite Z.eqb_refl. unfold FsAlloc.balloced. rewrite vset_same.
        apply rd32_zero.
      * assert (addr_of NDIRECT (set_i_addr i b p) = addr_of NDIRECT p) as E12.
        { rewrite Ea by (unfold NDIRECT; lia). unfold NDIRECT. destruct (Z.eqb_spec 12 i); [lia|done]. }
        destruct (decide (addr_of NDIRECT p = 0)) as [En|En]; [by rewrite !bslot_none by (lia || congruence)|].
        destruct (decide (j = 268)) as [->|]; [done|]. rewrite !bslot_indirect by (lia || congruence). rewrite E12. f_equal.
        apply (balloced_slot V p b MAXFILE); try done.
  - intros _. unfold FsAlloc.balloced. by rewrite vset_same.
  - intros j Hj Hn. apply balloced_slot; try done. lia.
  - intros b' Hb'. by apply (free_balloced SB G).
  - by apply (vok_balloced SB G).
  - intros n Ho. by apply (balloced_others V p).
Qed.

Lemma grown_indirect V p b i :
  finv V p → vok V → 0 ≤ b < size_of → free V b → 12 ≤ i < 268 → addr_of NDIRECT p ≠ 0 → bslot V p i = 0 →
  let ind := addr_of NDIRECT p in
  let V' := vset (balloced V b) ind (wr32 (4 * (i - 12)) b (balloced V b ind)) in
  grown V p V' p ∧ bslot V' p i = b.
Proof.
  intros Hf Hv Hb Hfb Hi Hn E0 ind V'. pose proof (f_len _ _ Hf) as Hl. pose proof (proj2 Hv b Hb Hfb) as Hbd.
  destruct (g_size SB G) as [Hds Hsz]. pose proof (proj1 Hv) as Hok.
  destruct (f_rng _ _ Hf MAXFILE) as [Hir Hiu]; [rewrite MAXF; lia|done|]. rewrite bslot_ind in Hir, Hiu. fold ind in Hir, Hiu.
  assert (balloced V b ind = V ind) as Ei by (apply (balloced_slot V p b MAXFILE); try done; rewrite MAXF; lia).
  assert (V' ind = wr32 (4 * (i - 12)) b (V ind)) as EV by (unfold V'; by rewrite vset_same, Ei).
  destruct (Hok ind) as [Hlen _].
  assert (∀ j, 12 ≤ j < 268 → bslot V' p j = if j =? i then b else bslot V p j) as Ej.
  { intros j Hj. rewrite !bslot_indirect by done. fold ind. rewrite EV. destruct (Z.eqb_spec j i) as [->|Hne].
    - rewrite rd32_wr32 by lia. apply u32_small. lia.
    - apply rd32_wr32_other; lia. }
  assert (bslot V' p i = b) as Eb by (rewrite Ej by done; by rewrite Z.eqb_refl). split; [|done].
  assert (b ≠ ind) as Hbi by congruence.
  apply (grown_add V p b _ _ i); try done.
  - rewrite MAXF. lia.
  - exists (i_addrs p). by rewrite copy_self.
  - intros j Hj Hne. rewrite MAXF in Hj. destruct (decide (j < 12)); [by rewrite !bslot_direct|]. destruct (decide (j = 268)) as [->|]; [done|].
    rewrite Ej by lia. by rewrite (proj2 (Z.eqb_neq _ _)).
  - intros _. unfold V'. rewrite vset_other by done. unfold FsAlloc.balloced. by rewrite vset_same.
  - intros j Hj Hjn. unfold V'. rewrite vset_other; [apply balloced_slot; done || lia|].
    intros E. assert (j = MAXFILE); [|lia]. apply (f_inj _ _ Hf); [lia|rewrite MAXF; lia|done|done].
  - intros b' Hb'. unfold V'. rewrite (free_data SB G) by (done || lia). by apply (free_balloced SB G).
  - pose proof (vok_balloced SB G V b Hv Hb Hfb) as [Hok1 Hd1]. split.
    + apply block_ok_vset; [done|]. by apply block_ok_wr32.
    + intros b' Hb'. unfold V'. rewrite (free_data SB G) by (done || lia). by apply Hd1.
  - intros n Ho. unfold V'. rewrite vset_other; [by apply (balloced_others V p)|]. intros ->.
    destruct Ho as [?|[?|(_ & _ & Hs)]]; [|lia|by apply (Hs MAXFILE); [rewrite MAXF; lia|]].
    pose proof (g_data SB G). assert (0 ≤ size_of / BPB) by (apply Z.div_pos; [lia|done]). lia.
Qed.

Definition nroom (P : gset Z) (n : Z) : Prop := Z.of_nat (size P) + n ≤ Z.min 29 (sb_nlog SB - 1).
Lemma size_add (P : gset Z) n : (size (P ∪ {[n]}) ≤ size P + 1)%nat.
Proof. rewrite size_union_alt. etrans; [apply Nat.add_le_mono_l, (subseteq_size _ {[n]}); set_solver|]. by rewrite size_singleton. Qed.

(** [bmap] of a block the file has. *)
Lemma bmap_hit_run Q s V P it I c k p bn :
  fr s V P ∅ None it I c → I !! k = Some p → i_dev p = dev → (size P < 30)%nat → 0 ≤ bn < MAXFILE → bslot V p bn ≠ 0 →
  (∀ s', fr s' V P ∅ None it I c → Q (bslot V p bn) s') → wp (bmap (iptr k) bn) Q s.
Proof.
  intros Hs Hp Ed Hr Hbn Hn HQ. unfold bmap. wp_run. eapply wp_iload; [exact Hs|done|]. unfold NDIRECT at 1. destruct (Z.ltb_spec bn 12) as [Hlt|Hge].
  - rewrite bslot_direct in * by done. rewrite (proj2 (Z.eqb_neq _ _)) by done. wp_run. by apply HQ.
  - rewrite MAXF in Hbn. change NINDIRECT with 256. unfold NDIRECT at 1. rewrite (proj2 (Z.ltb_lt (bn - 12) 256)) by lia.
    destruct (decide (addr_of NDIRECT p = 0)) as [E|E]; [by rewrite bslot_none in Hn by (lia || done)|].
    rewrite (proj2 (Z.eqb_neq _ _)) by done. wp_run. rewrite Ed.
    eapply (wp_fbread dev SB l0 (g_log SB G)); [exact Hs|apply lookup_empty|right; rewrite map_size_empty; lia|]. clear s Hs. intros bp s Hs. wp_run.
    eapply wp_fdata; [exact Hs|apply lookup_insert_eq|]. intros _. rewrite bslot_indirect in Hn, HQ by (lia || done).
    change (bn - NDIRECT) with (bn - 12). rewrite (proj2 (Z.eqb_neq _ _)) by done. wp_run.
    eapply (wp_fbrelse dev SB l0 (g_log SB G)); [exact Hs|apply lookup_insert_eq|]. clear s Hs. intros s Hs. wp_run. apply HQ.
    by rewrite delete_insert_id in Hs by apply lookup_empty.
Qed.

(** The second half of [bmap]: the entry of the indirect block. *)
Definition bmap_entry (dv addr bn : Z) : M fsst Z :=
  bp <- fbread dv addr ;;
  d <- fdata bp ;;
  let addr := rd32 (4 * bn) d in
  addr <- (if addr =? 0 then
             addr <- balloc dv ;; fset bp (wr32 (4 * bn) addr) ;; flog_write bp ;; ret addr
           else ret addr) ;;
  fbrelse bp ;;
  ret addr.

Lemma bmap_entry_run Q s V P it I c p i :
  fr s V P ∅ None it I c → finv V p → vok V → 12 ≤ i < 268 → addr_of NDIRECT p ≠ 0 → bslot V p i = 0 → (0 < nfree V)%nat → nroom P 3 →
  (∀ s' V' P', fr s' V' P' ∅ None it I c → grown V p V' p → (nfree V ≤ nfree V' + 1)%nat → (size P' ≤ size P + 3)%nat →
     bslot V' p i ≠ 0 → Q (bslot V' p i) s') →
  wp (bmap_entry dev (addr_of NDIRECT p) (i - 12)) Q s.
Proof.
  intros Hs Hf Hv Hi Hn E0 Hnf Hr HQ. destruct (g_size SB G) as [Hds Hsz]. unfold nroom in Hr.
  destruct (f_rng _ _ Hf MAXFILE) as [Hir Hiu]; [rewrite MAXF; lia|done|]. rewrite bslot_ind in Hir, Hiu.
  set (ind := addr_of NDIRECT p) in *.
  unfold bmap_entry. wp_run. eapply (wp_fbread dev SB l0 (g_log SB G)); [exact Hs|apply lookup_empty|right; rewrite map_size_empty; lia|].
  clear s Hs. intros bp s Hs. wp_run. eapply wp_fdata; [exact Hs|apply lookup_insert_eq|]. intros _.
  rewrite bslot_indirect in E0 by done. fold ind in E0. rewrite E0. cbn [Z.eqb]. wp_run.
  eapply (balloc_run dev SB l0 G); [exact Hs|done|by apply nfree_some| | | |unfold room2; lia|].
  { rewrite insert_empty, map_size_singleton. lia. }
  { intros n Hnr. rewrite lookup_insert_ne by lia. apply lookup_empty. }
  { intros b _ Hfb. rewrite lookup_insert_ne by congruence. apply lookup_empty. }
  clear s Hs. intros b s Hb Hfb Hs. wp_run. pose proof (proj2 Hv b Hb Hfb) as Hbd.
  destruct (grown_indirect V p b i) as [Hg Eb]; try done; [by rewrite bslot_indirect|].
  eapply wp_fset; [exact Hs|apply lookup_insert_eq|by left|]. clear s Hs. intros s Hs. wp_run.
  assert (size (P ∪ {[BBLOCK b SB]} ∪ {[b]}) ≤ size P + 2)%nat as Hsz2.
  { pose proof (size_add P (BBLOCK b SB)). pose proof (size_add (P ∪ {[BBLOCK b SB]}) b). lia. }
  eapply (wp_flog_write dev SB l0 (g_log SB G)); [exact Hs|apply lookup_insert_eq|by right|by apply data_home|unfold FsTx.room; lia|].
  clear s Hs. intros s Hs. wp_run.
  eapply (wp_fbrelse dev SB l0 (g_log SB G)); [exact Hs|apply lookup_insert_eq|]. clear s Hs. intros s Hs. wp_run.
  rewrite delete_insert_id in Hs by apply lookup_empty. fold ind in Eb, Hg. rewrite <-Eb at 1. eapply HQ; [exact Hs|done| | |].
  - rewrite nfree_data by lia. by apply nfree_balloced.
  - pose proof (size_add (P ∪ {[BBLOCK b SB]} ∪ {[b]}) ind). lia.
  - rewrite Eb. lia.
Qed.

Lemma bmap_run Q s V P it I c k p bn :
  fr s V P ∅ None it I c → I !! k = Some p → i_dev p = dev → finv V p → vok V → 0 ≤ bn < MAXFILE → (bslot V p bn = 0 → (2 ≤ nfree V)%nat) → nroom P 5 →
  (∀ s' V' P' p', fr s' V' P' ∅ None it (<[k := p']> I) c → grown V p V' p' → (nfree V ≤ nfree V' + 2)%nat →
     (size P' ≤ size P + 5)%nat → bslot V' p' bn ≠ 0 → Q (bslot V' p' bn) s') →
  wp (bmap (iptr k) bn) Q s.
Proof.
  intros Hs Hp Ed Hf Hv Hbn Hnf Hr HQ. unfold nroom in Hr. destruct (g_size SB G) as [Hds Hsz].
  destruct (decide (bslot V p bn = 0)) as [E0|E0].
  2: { eapply bmap_hit_run; [exact Hs|done|done|lia|done|done|]. intros s' Hs'. apply (HQ s' V P p); [|by apply fgrown_refl|lia|lia|done].
       by rewrite list_insert_id. }
  specialize (Hnf E0). unfold bmap. wp_run. eapply wp_iload; [exact Hs|done|]. rewrite Ed. unfold NDIRECT at 1. rewrite MAXF in Hbn. destruct (Z.ltb_spec bn 12) as [Hlt|Hge].
  - rewrite bslot_direct in E0 by done. rewrite E0. cbn [Z.eqb]. wp_run.
    eapply (balloc_run dev SB l0 G); [exact Hs|done|apply nfree_some; lia|rewrite map_size_empty; lia|by intros; apply lookup_empty..|unfold room2; lia|].
    clear s Hs. intros b s Hb Hfb Hs. wp_run. pose proof (proj2 Hv b Hb Hfb) as Hbd.
    eapply wp_istore; [exact Hs|done|]. clear s Hs. intros s Hs. wp_run.
    pose proof (grown_direct V p b bn Hf Hv Hb Hfb ltac:(lia) E0) as Hg.
    assert (bslot (balloced V b) (set_i_addr bn b p) bn = b) as Eb.
    { rewrite bslot_direct, addr_of_set by (lia || apply Hf). by rewrite Z.eqb_refl. }
    rewrite <-Eb at 1. eapply HQ; [exact Hs|done| | |rewrite Eb; lia].
    + pose proof (nfree_balloced V b Hv Hb Hfb). lia.
    + pose proof (size_add P (BBLOCK b SB)). pose proof (size_add (P ∪ {[BBLOCK b SB]}) b). lia.
  - change NINDIRECT with 256. change (bn - NDIRECT) with (bn - 12). rewrite (proj2 (Z.ltb_lt (bn - 12) 256)) by lia.
    destruct (decide (addr_of NDIRECT p = 0)) as [En|En].
    + rewrite En. cbn [Z.eqb]. wp_run.
      eapply (balloc_run dev SB l0 G); [exact Hs|done|apply nfree_some; lia|rewrite map_size_empty; lia|by intros; apply lookup_empty..|unfold room2; lia|].
      clear s Hs. intros b s Hb Hfb Hs. wp_run. pose proof (proj2 Hv b Hb Hfb) as Hbd.
      eapply wp_istore; [exact Hs|done|]. clear s Hs. intros s Hs. apply wp_ret.
      pose proof (grown_direct V p b 12 Hf Hv Hb Hfb ltac:(lia) En) as Hg. change NDIRECT with 12 in Hs.
      set (p1 := set_i_addr 12 b p) in *.
      assert (addr_of NDIRECT p1 = b) as E1 by (unfold p1; rewrite addr_of_set by (unfold NDIRECT; lia || apply Hf); done).
      change (wp (bmap_entry dev b (bn - 12)) Q s). rewrite <-E1.
      pose proof (nfree_balloced V b Hv Hb Hfb) as Hnf1.
      assert (size (P ∪ {[BBLOCK b SB]} ∪ {[b]}) ≤ size P + 2)%nat as Hsz2.
      { pose proof (size_add P (BBLOCK b SB)). pose proof (size_add (P ∪ {[BBLOCK b SB]}) b). lia. }
      assert (bslot (balloced V b) p1 bn = 0) as E2.
      { rewrite bslot_indirect by (lia || (rewrite E1; lia)). rewrite E1. unfold FsAlloc.balloced. rewrite vset_same. apply rd32_zero. }
      eapply (bmap_entry_run _ s (balloced V b) _ it _ c p1 bn); [exact Hs|apply Hg|apply Hg|lia|rewrite E1; lia|done|lia|unfold nroom; lia|].
      intros s' V' P' Hs' Hg' Hn' HP' Hnz. eapply HQ; [exact Hs'|by eapply fgrown_trans|lia|lia|done].
    + rewrite (proj2 (Z.eqb_neq _ _)) by done. apply wp_bind, wp_ret. change (wp (bmap_entry dev (addr_of NDIRECT p) (bn - 12)) Q s).
      eapply (bmap_entry_run _ s V P it I c p bn); [exact Hs|done|done|lia|done|done|lia|unfold nroom; lia|].
      intros s' V' P' Hs' Hg' Hn' HP' Hnz. eapply (HQ s' V' P' p); [by rewrite list_insert_id|done|lia|lia|done].
Qed.

(** ** Reading *)

Definition fbytes (V : Z → block) (p : inode) (off n : Z) : list Z := fbyte V p <$> seqZ off n.

Lemma fbytes_app V p off n m : 0 ≤ n → 0 ≤ m → fbytes V p off (n + m) = fbytes V p off n ++ fbytes V p (off + n) m.
Proof. intros Hn Hm. unfold fbytes. by rewrite seqZ_app, fmap_app. Qed.
Lemma length_fbytes V p off n : length (fbytes V p off n) = Z.to_nat n.
Proof. unfold fbytes. by rewrite length_fmap, length_seqZ. Qed.

Lemma rd_bytes_fbytes V p off m : (∀ n, block_ok (V n)) → 0 ≤ off → 0 ≤ m ≤ BSIZE - off mod BSIZE → bslot V p (off / BSIZE) ≠ 0 →
  rd_bytes (off mod BSIZE) m (V (bslot V p (off / BSIZE))) = fbytes V p off m.
Proof.
  intros HV Ho Hm Hn. destruct (HV (bslot V p (off / BSIZE))) as [Hl _]. unfold BSIZE in *. apply list_eq. intros j.
  assert (0 ≤ off mod 1024 < 1024) by zlia.
  destruct (decide (j < Z.to_nat m)%nat) as [Hj|Hj].
  - rewrite rd_bytes_lookup by done. unfold fbytes. rewrite list_lookup_fmap, lookup_seqZ_lt by lia. cbn [fmap option_fmap option_map].
    unfold fbyte, BSIZE. assert ((off + Z.of_nat j) / 1024 = off / 1024) as -> by zlia.
    rewrite (proj2 (Z.eqb_neq _ _)) by done. 
    assert (Z.to_nat ((off + Z.of_nat j) mod 1024) = Z.to_nat (off mod 1024) + j)%nat as -> by zlia.
    destruct (_ !! _) eqn:Ex; [done|]. apply lookup_ge_None_1 in Ex. lia.
  - rewrite !lookup_ge_None_2; [done|rewrite length_fbytes; lia|]. unfold rd_bytes. rewrite length_take. lia.
Qed.

(** A file without holes. *)
Definition full (V : Z → block) (p : inode) : Prop :=
  0 ≤ i_size p ≤ MAXFILE * BSIZE ∧ ∀ i, 0 ≤ i → i * BSIZE < i_size p → bslot V p i ≠ 0.

(** The number of turns of the loops of [readi] and [writei] that are left. *)
Definition turns (off n tot : Z) : nat := if tot <? n then Z.to_nat (1 + (off + n - 1) / BSIZE - (off + tot) / BSIZE) else 0%nat.
Lemma turns_start off n : 0 ≤ off → 0 ≤ n → (turns off n 0 < Z.to_nat (n / BSIZE) + 3)%nat.
Proof. intros Ho Hn. unfold turns, BSIZE. destruct (Z.ltb_spec 0 n); zlia. Qed.
Lemma turns_next off n tot : 0 ≤ off → 0 ≤ tot < n →
  let m := Z.min (n - tot) (BSIZE - (off + tot) mod BSIZE) in
  0 < m ≤ n - tot ∧ m ≤ BSIZE - (off + tot) mod BSIZE ∧ (turns off n (tot + m) < turns off n tot)%nat.
Proof.
  intros Ho Ht m. unfold turns, m, BSIZE in *. rewrite (proj2 (Z.ltb_lt tot n)) by lia.
  assert (0 ≤ (off + tot) mod 1024 < 1024) by zlia. assert ((off + tot) / 1024 ≤ (off + n - 1) / 1024) by (apply Z.div_le_mono; lia).
  split; [lia|]. split; [lia|]. destruct (Z.ltb_spec (tot + Z.min (n - tot) (1024 - (off + tot) mod 1024)) n); [|lia].
  assert ((off + (tot + Z.min (n - tot) (1024 - (off + tot) mod 1024))) / 1024 = (off + tot) / 1024 + 1) as -> by zlia. lia.
Qed.

Lemma readi_loop_run Q s V P it I c k p off n :
  fr s V P ∅ None it I c → I !! k = Some p → i_dev p = dev → (∀ n, block_ok (V n)) → full V p → (size P < 30)%nat →
  0 ≤ off → 0 ≤ n → off + n ≤ i_size p →
  (∀ s', fr s' V P ∅ None it I c → Q (fbytes V p off n, n) s') →
  wp (loop (Z.to_nat (n / BSIZE) + 3) (readi_turn (iptr k) to_var n) ([], 0, off)) Q s.
Proof.
  intros Hs Hp Ed HV [Hsz Hfull] Hr Ho Hn Hle HQ. change (MAXFILE * BSIZE) with 274432 in Hsz.
  eapply (wp_loop (λ '(x, tot, off') s', 0 ≤ tot ≤ n ∧ off' = off + tot ∧ x = fbytes V p off tot ∧ fr s' V P ∅ None it I c)
    (λ '(_, tot, _) _, turns off n tot)); [by apply turns_start| |].
  { split; [lia|]. split; [lia|]. split; [done|done]. }
  clear s Hs. intros [[x tot] off'] s (Ht & -> & -> & Hs). unfold readi_turn.
  destruct (Z.ltb_spec tot n) as [Hlt|Hge]; [|wp_run; replace tot with n by lia; by apply HQ].
  destruct (turns_next off n tot Ho ltac:(lia)) as (Hm & Hm2 & Hdec). set (m := Z.min (n - tot) (BSIZE - (off + tot) mod BSIZE)) in *.
  assert (0 ≤ (off + tot) / BSIZE < MAXFILE) as Hb by (rewrite MAXF; unfold BSIZE; zlia).
  assert (bslot V p ((off + tot) / BSIZE) ≠ 0) as Hnz by (apply Hfull; unfold BSIZE; zlia).
  wp_run. eapply wp_iload; [exact Hs|done|]. wp_run. eapply bmap_hit_run; [exact Hs|done|done|done|done|done|].
  clear s Hs. intros s Hs. wp_run. rewrite Ed.
  eapply (wp_fbread dev SB l0 (g_log SB G)); [exact Hs|apply lookup_empty|right; rewrite map_size_empty; lia|]. clear s Hs. intros bp s Hs. wp_run.
  eapply wp_fdata; [exact Hs|apply lookup_insert_eq|]. intros _. fold m. rewrite rd_bytes_fbytes by (done || lia).
  unfold to_var at 1. wp_run. cbn [Z.eqb]. wp_run.
  eapply (wp_fbrelse dev SB l0 (g_log SB G)); [exact Hs|apply lookup_insert_eq|]. clear s Hs. intros s Hs. wp_run.
  rewrite delete_insert_id in Hs by apply lookup_empty. split; [|done]. split; [lia|]. split; [rewrite u32_small by lia; lia|].
  split; [rewrite fbytes_app by lia; done|done].
Qed.

Lemma readi_run Q s V P it I c k p off n :
  fr s V P ∅ None it I c → I !! k = Some p → i_dev p = dev → (∀ n, block_ok (V n)) → full V p → (size P < 30)%nat →
  0 ≤ off ≤ i_size p → 0 ≤ n → off + n < 4294967296 →
  (∀ s', fr s' V P ∅ None it I c → let m := Z.min n (i_size p - off) in Q (fbytes V p off m, m) s') →
  wp (readi (iptr k) to_var [] off n) Q s.
Proof.
  intros Hs Hp Ed HV Hfull Hr Ho Hn Hle HQ. pose proof Hfull as [Hsz _]. change (MAXFILE * BSIZE) with 274432 in Hsz.
  unfold readi. wp_run. eapply wp_iload; [exact Hs|done|]. rewrite (u32_small (off + n)) by lia.
  rewrite (proj2 (Z.ltb_ge (i_size p) off)), (proj2 (Z.ltb_ge (off + n) off)) by lia. cbn [orb]. cbv zeta in HQ |- *.
  destruct (Z.ltb_spec (i_size p) (off + n)).
  - rewrite u32_small by lia. eapply readi_loop_run; [exact Hs|done..|lia|lia|lia|]. intros s' Hs'.
    replace (i_size p - off) with (Z.min n (i_size p - off)) by lia. by apply HQ.
  - eapply readi_loop_run; [exact Hs|done..|lia|lia|lia|]. intros s' Hs'. replace n with (Z.min n (i_size p - off)) by lia. by apply HQ.
Qed.

(** ** Writing *)

(** [bs] at offset [off], as a function of the offset in the file. *)
Definition at_off (off : Z) (bs : list Z) (o : Z) : Z := default 0 (bs !! Z.to_nat (o - off)).

(** A block [d] of this size and the bitmap as before: the slots do not change. *)
Lemma data_write_mono V p i d : finv V p → vok V → 0 ≤ i < MAXFILE → bslot V p i ≠ 0 → block_ok d →
  let V' := vset V (bslot V p i) d in fmono V p V' p ∧ ∀ j, 0 ≤ j ≤ MAXFILE → bslot V' p j = bslot V p j.
Proof.
  intros Hf Hv Hi Hn Hd V'. destruct (f_rng _ _ Hf i ltac:(lia) Hn) as [Hr Hu]. destruct (g_size SB G) as [Hds Hsz].
  assert (∀ j, 0 ≤ j ≤ MAXFILE → bslot V' p j = bslot V p j) as Ej.
  { intros j Hj. rewrite MAXF in Hj. destruct (decide (j < 12)); [by rewrite !bslot_direct|]. destruct (decide (j = 268)) as [->|]; [done|].
    destruct (decide (addr_of NDIRECT p = 0)); [by rewrite !bslot_none by (lia || done)|]. rewrite !bslot_indirect by (lia || done). f_equal.
    unfold V'. apply vset_other. intros E. assert (MAXFILE = i); [|lia]. apply (f_inj _ _ Hf); [rewrite MAXF; lia|lia|done|done]. }
  assert (∀ b, 0 ≤ b < size_of → free V' b ↔ free V b) as Hfr by (intros b Hb; apply (free_data SB G); lia).
  split; [|done]. constructor.
  - constructor; [apply Hf| |].
    + intros j1 j2 H1 H2. rewrite !Ej by done. by apply (f_inj _ _ Hf).
    + intros j Hj. rewrite Ej by done. intros Hjn. destruct (f_rng _ _ Hf j Hj Hjn) as [? ?]. split; [done|]. rewrite Hfr by lia. done.
  - destruct Hv as [HV Hfd]. split; [by apply block_ok_vset|]. intros b Hb. rewrite Hfr by done. by apply Hfd.
  - exists (i_addrs p). by rewrite copy_self.
  - intros j Hj _. by apply Ej.
  - intros j Hj _. left. symmetry. by apply Ej.
  - intros b Hb. by rewrite Hfr.
  - intros n Ho. unfold V'. apply vset_other. intros ->. destruct Ho as [?|[?|(_ & _ & Hs)]]; [|lia|by apply (Hs i); [lia|]].
    pose proof (g_data SB G). assert (0 ≤ size_of / BPB) by (apply Z.div_pos; [lia|done]). lia.
Qed.

Lemma wrote_chunk V p off cs : finv V p → vok V → 0 ≤ off → off / BSIZE < MAXFILE → bslot V p (off / BSIZE) ≠ 0 →
  Z.of_nat (length cs) ≤ BSIZE - off mod BSIZE → Forall (λ x, 0 ≤ x < 256) cs →
  let a := bslot V p (off / BSIZE) in
  wrote off (off + Z.of_nat (length cs)) (at_off off cs) V p (vset V a (wr_bytes (off mod BSIZE) cs (V a))) p.
Proof.
  intros Hf Hv Ho Hlt Hn Hl Hcs a. destruct (proj1 Hv a) as [Hla Hba]. assert (0 ≤ off / BSIZE) by (unfold BSIZE; zlia).
  destruct (data_write_mono V p (off / BSIZE) (wr_bytes (off mod BSIZE) cs (V a)) Hf Hv ltac:(lia) Hn) as [Hm Ej]; [by apply block_ok_wr_bytes|].
  fold a in Hm, Ej. constructor; [done|]. intros o Hoo. unfold fbyte.
  assert (0 ≤ o / BSIZE < MAXFILE) as Hob by (rewrite MAXF; change (MAXFILE * BSIZE) with 274432 in Hoo; unfold BSIZE; zlia).
  rewrite Ej by lia. unfold BSIZE in *. assert (0 ≤ off mod 1024 < 1024) by zlia. assert (0 ≤ o mod 1024 < 1024) by zlia.
  destruct (decide (o / 1024 = off / 1024)) as [E|E].
  - rewrite E. fold a. rewrite (proj2 (Z.eqb_neq a 0)), vset_same by done. rewrite wr_bytes_lookup by lia.
    destruct (Z.leb_spec off o), (Z.ltb_spec o (off + Z.of_nat (length cs))); cbn [andb].
    + rewrite decide_True by zlia. unfold at_off. do 2 f_equal. zlia.
    + rewrite decide_False by zlia. done.
    + rewrite decide_False by zlia. done.
    + rewrite decide_False by zlia. done.
  - assert ((off <=? o) && (o <? off + Z.of_nat (length cs)) = false) as ->.
    { apply andb_false_iff. rewrite Z.leb_gt, Z.ltb_ge. zlia. }
    destruct (Z.eqb_spec (bslot V p (o / 1024)) 0) as [|Hz]; [done|]. rewrite vset_other; [done|]. intros E'. apply E.
    apply (f_inj _ _ Hf); [lia|lia|done|done].
Qed.

Lemma grown_wrote V p V' p' off g : grown V p V' p' → wrote off off g V p V' p'.
Proof.
  intros Hg. constructor; [apply Hg|]. intros o Ho. rewrite (grown_fbyte V p V' p' o Hg Ho).
  destruct (Z.leb_spec off o), (Z.ltb_spec o off); cbn; try done; lia.
Qed.
Lemma wrote_ext lo hi g g' V p V' p' : (∀ o, lo ≤ o < hi → g o = g' o) → wrote lo hi g V p V' p' → wrote lo hi g' V p V' p'.
Proof.
  intros E [Hm Hb]. constructor; [done|]. intros o Ho. rewrite Hb by done.
  destruct (Z.leb_spec lo o), (Z.ltb_spec o hi); cbn; try done. by apply E.
Qed.

Lemma inum_copy ty maj mnr nl sz l p : i_inum (set_i_copy ty maj mnr nl sz l p) = i_inum p ∧ i_dev (set_i_copy ty maj mnr nl sz l p) = i_dev p.
Proof. done. Qed.

(** There is room for the bytes from [off] on: enough free blocks, or the file has
    the blocks. *)
Definition has_room (V : Z → block) (p : inode) (off n : Z) : Prop :=
  (2 * turns off n 0 ≤ nfree V)%nat ∨ ∀ i, off / BSIZE ≤ i → i * BSIZE < off + n → bslot V p i ≠ 0.

Lemma writei_loop_run Q s V P it I c k p off bs :
  let n := Z.of_nat (length bs) in
  fr s V P ∅ None it I c → I !! k = Some p → i_dev p = dev → finv V p → vok V → Forall (λ x, 0 ≤ x < 256) bs →
  0 ≤ off → off + n ≤ MAXFILE * BSIZE → has_room V p off n → nroom P (6 * Z.of_nat (turns off n 0)) →
  (∀ s' V' P' p', fr s' V' P' ∅ None it (<[k := p']> I) c → wrote off (off + n) (at_off off bs) V p V' p' →
     (∀ i, off / BSIZE ≤ i → i * BSIZE < off + n → 0 < n → bslot V' p' i ≠ 0) → (size P' ≤ size P + 6 * turns off n 0)%nat →
     (nfree V ≤ nfree V' + 2 * turns off n 0)%nat → Q (n, off + n) s') →
  wp (loop (Z.to_nat (n / BSIZE) + 3) (writei_turn (iptr k) (from_var bs) n) (0, off)) Q s.
Proof.
  intros n Hs Hp Ed Hf Hv Hbs Ho Hle Hnf Hr HQ. change (MAXFILE * BSIZE) with 274432 in Hle. unfold nroom in Hr.
  assert (k < length I)%nat as Hk by by eapply lookup_lt_Some.
  eapply (wp_loop (λ '(tot, off') s', 0 ≤ tot ≤ n ∧ off' = off + tot ∧ ∃ V1 P1 p1, fr s' V1 P1 ∅ None it (<[k := p1]> I) c ∧
      wrote off (off + tot) (at_off off bs) V p V1 p1 ∧ (∀ i, off / BSIZE ≤ i → i * BSIZE < off + tot → 0 < tot → bslot V1 p1 i ≠ 0) ∧
      (nfree V + 2 * turns off n tot ≤ nfree V1 + 2 * turns off n 0)%nat ∧ (size P1 + 6 * turns off n tot ≤ size P + 6 * turns off n 0)%nat)
    (λ '(tot, _) _, turns off n tot)); [apply turns_start; lia| |].
  { split; [lia|]. split; [lia|]. exists V, P, p. split; [by rewrite list_insert_id|].
    split; [replace (off + 0) with off by lia; by apply grown_wrote, fgrown_refl|]. split; [lia|lia]. }
  clear s Hs. intros [tot off'] s (Ht & -> & V1 & P1 & p1 & Hs & Hw & Hcov & Hnf1 & HP1). unfold writei_turn.
  destruct (Z.ltb_spec tot n) as [Hlt|Hge].
  2: { wp_run. assert (tot = n) as -> by lia. eapply HQ; [exact Hs|done|done|lia|lia]. }
  destruct (turns_next off n tot Ho ltac:(lia)) as (Hm & Hm2 & Hdec). set (m := Z.min (n - tot) (BSIZE - (off + tot) mod BSIZE)) in *.
  assert (0 ≤ (off + tot) / BSIZE < MAXFILE) as Hb by (rewrite MAXF; unfold BSIZE; zlia).
  pose proof (wr_mono _ _ _ _ _ _ _ Hw) as Hmo. destruct (fm_fields _ _ _ _ Hmo) as [l1 El1].
  assert (i_dev p1 = dev) as Ed1 by by rewrite El1.
  wp_run. eapply wp_iload; [exact Hs|by apply list_lookup_insert_eq|]. wp_run.
  eapply (bmap_run _ s V1 P1 it _ c k p1); [exact Hs|by apply list_lookup_insert_eq|done|apply Hmo|apply Hmo|done| |unfold nroom; lia|].
  { intros E0. destruct Hnf as [Hnf|Hnf]; [lia|]. specialize (Hnf ((off + tot) / BSIZE) ltac:(unfold BSIZE; zlia) ltac:(unfold BSIZE; zlia)).
    rewrite (fm_slot _ _ _ _ Hmo) in E0 by (done || lia). done. }
  clear s Hs. intros s V2 P2 p2 Hs Hg Hnf2 HP2 Hnz. rewrite list_insert_insert_eq in Hs. wp_run.
  pose proof (gr_mono _ _ _ _ Hg) as Hm2'. destruct (fm_fields _ _ _ _ Hm2') as [l2 El2]. rewrite Ed1.
  eapply (wp_fbread dev SB l0 (g_log SB G)); [exact Hs|apply lookup_empty|right; rewrite map_size_empty; lia|]. clear s Hs. intros bp s Hs.
  fold m. unfold from_var at 1. wp_run. set (cs := rd_bytes tot m bs).
  assert (length cs = Z.to_nat m) as Hlc by (apply length_rd_bytes; lia).
  assert (Forall (λ x, 0 ≤ x < 256) cs) as Hcs by by apply Forall_take, Forall_drop.
  eapply wp_fset; [exact Hs|apply lookup_insert_eq|by left|]. clear s Hs. intros s Hs. cbn [Z.eqb]. wp_run.
  destruct (f_rng _ _ (fm_inv _ _ _ _ Hm2') ((off + tot) / BSIZE) ltac:(lia) Hnz) as [Hrg _].
  eapply (wp_flog_write dev SB l0 (g_log SB G)); [exact Hs|apply lookup_insert_eq|by right|by apply data_home|unfold FsTx.room; lia|].
  clear s Hs. intros s Hs. wp_run.
  eapply (wp_fbrelse dev SB l0 (g_log SB G)); [exact Hs|apply lookup_insert_eq|]. clear s Hs. intros s Hs. wp_run.
  rewrite delete_insert_id in Hs by apply lookup_empty. split; [|done]. split; [lia|]. split; [rewrite u32_small by lia; lia|].
  pose proof (wrote_chunk V2 p2 (off + tot) cs (fm_inv _ _ _ _ Hm2') (fm_vok _ _ _ _ Hm2') ltac:(lia) ltac:(lia) Hnz) as Hwc.
  cbv zeta in Hwc. rewrite Hlc, Z2Nat.id in Hwc by lia. specialize (Hwc ltac:(lia) Hcs).
  pose proof (wr_mono _ _ _ _ _ _ _ Hwc) as Hmc.
  eexists _, _, p2. split; [exact Hs|]. split; [|split; [|split]].
  - eapply (wrote_trans off (off + tot)); [lia|exact Hw|]. eapply (wrote_trans (off + tot) (off + tot)); [lia|by apply grown_wrote|].
    replace (off + (tot + m)) with (off + tot + m) by lia. eapply wrote_ext; [|exact Hwc]. intros o Hoo. unfold at_off, cs. f_equal.
    rewrite rd_bytes_lookup by lia. f_equal. lia.
  - intros i Hi1 Hi2 _. rewrite MAXF in Hb. assert (0 ≤ i ≤ MAXFILE) as Hir by (rewrite MAXF; unfold BSIZE in *; zlia).
    destruct (decide (i * BSIZE < off + tot ∧ 0 < tot)) as [[Hi3 Hi4]|Hi3].
    + pose proof (fm_slot _ _ _ _ Hm2' i Hir (Hcov i Hi1 Hi3 Hi4)) as E2. pose proof (Hcov i Hi1 Hi3 Hi4) as E1. rewrite <-E2 in E1.
      rewrite (fm_slot _ _ _ _ Hmc i Hir E1). done.
    + assert (i = (off + tot) / BSIZE) as -> by (unfold BSIZE in *; zlia). rewrite (fm_slot _ _ _ _ Hmc _ Hir Hnz). done.
  - rewrite nfree_data by lia. lia.
  - pose proof (size_add P2 (bslot V2 p2 ((off + tot) / BSIZE))). lia.
Qed.

(** Writing an inode block changes no file and no bit of the bitmap. *)
Lemma meta_free V n d b : n < sb_bmapstart SB → 0 ≤ b < size_of → free (vset V n d) b ↔ free V b.
Proof. intros Hn Hb. unfold FsAlloc.free. destruct (BBLOCK_range SB G b Hb) as [_ ?]. rewrite vset_other by lia. done. Qed.
Lemma nfree_meta V n d : n < sb_bmapstart SB → nfree (vset V n d) = nfree V.
Proof. intros Hn. unfold nfree. f_equal. apply filter_ext_in. intros x Hx%elem_of_seqZ. apply meta_free; lia. Qed.
Lemma bmap_dstart : sb_bmapstart SB ≤ dstart.
Proof. pose proof (g_data SB G). destruct (g_size SB G). assert (0 ≤ size_of / BPB) by (apply Z.div_pos; [lia|done]). lia. Qed.

Lemma meta_write V p n d : finv V p → vok V → n < sb_bmapstart SB → block_ok d →
  let V' := vset V n d in
  finv V' p ∧ vok V' ∧ (∀ i, 0 ≤ i ≤ MAXFILE → bslot V' p i = bslot V p i) ∧ ∀ o, 0 ≤ o < MAXFILE * BSIZE → fbyte V' p o = fbyte V p o.
Proof.
  intros Hf Hv Hn Hd V'. pose proof bmap_dstart as Hbd.
  assert (∀ i, 0 ≤ i ≤ MAXFILE → bslot V p i ≠ 0 → V' (bslot V p i) = V (bslot V p i)) as Ed.
  { intros i Hi Hnz. destruct (f_rng _ _ Hf i Hi Hnz) as [? _]. unfold V'. apply vset_other. lia. }
  assert (∀ i, 0 ≤ i ≤ MAXFILE → bslot V' p i = bslot V p i) as Ei.
  { intros i Hi. rewrite MAXF in Hi. destruct (decide (i < 12)); [by rewrite !bslot_direct|]. destruct (decide (i = 268)) as [->|]; [done|].
    destruct (decide (addr_of NDIRECT p = 0)); [by rewrite !bslot_none by (lia || done)|]. rewrite !bslot_indirect by (lia || done). f_equal.
    apply (Ed MAXFILE); [rewrite MAXF; lia|done]. }
  split; [|split; [|split; [done|]]].
  - constructor; [apply Hf| |].
    + intros i j Hi Hj. rewrite !Ei by done. by apply (f_inj _ _ Hf).
    + intros i Hi. rewrite Ei by done. intros Hnz. destruct (f_rng _ _ Hf i Hi Hnz) as [? ?]. split; [done|].
      destruct (g_size SB G). unfold V'. rewrite meta_free by lia. done.
  - destruct Hv as [HV Hfd]. split; [by apply block_ok_vset|]. intros b Hb. unfold V'. rewrite meta_free by done. by apply Hfd.
  - intros o Ho. unfold fbyte. change (MAXFILE * BSIZE) with 274432 in Ho.
    assert (0 ≤ o / BSIZE ≤ MAXFILE) by (rewrite MAXF; unfold BSIZE; zlia). rewrite Ei by done.
    destruct (Z.eqb_spec (bslot V p (o / BSIZE)) 0); [done|]. by rewrite Ed.
Qed.

(** What [writei] of [bs] at [off] does to the file [p]. *)
Record written (off : Z) (bs : list Z) (V : Z → block) (p : inode) (V' : Z → block) (p' : inode) : Prop := mkWritten {
  wn_inv : finv V' p';
  wn_vok : vok V';
  wn_full : full V' p';
  wn_fields : ∃ l, p' = set_i_copy (i_type p) (i_major p) (i_minor p) (i_nlink p) (Z.max (i_size p) (off + Z.of_nat (length bs))) l p;
  wn_disk : dinode_at SB V' (i_inum p) = dinode_of p';
  wn_inodes : ∀ n, 0 ≤ n < sb_ninodes SB → n ≠ i_inum p → dinode_at SB V' n = dinode_at SB V n;
  wn_byte : ∀ o, 0 ≤ o < MAXFILE * BSIZE →
    fbyte V' p' o = if (off <=? o) && (o <? off + Z.of_nat (length bs)) then at_off off bs o else fbyte V p o;
  wn_other : ∀ n, others V p n → n ≠ IBLOCK (i_inum p) SB → V' n = V n;
  wn_nfree : (nfree V ≤ nfree V' + 2 * turns off (Z.of_nat (length bs)) 0)%nat;
  wn_free : ∀ b, 0 ≤ b < size_of → free V' b → free V b;
  wn_new : ∀ i, 0 ≤ i ≤ MAXFILE → bslot V' p' i ≠ 0 → bslot V p i = bslot V' p' i ∨ free V (bslot V' p' i);
}.

Lemma dinode_ok_file V p : finv V p → short (i_type p) → short (i_major p) → short (i_minor p) → short (i_nlink p) → uint (i_size p) →
  dinode_ok (dinode_of p).
Proof.
  intros Hf H1 H2 H3 H4 H5. unfold dinode_ok, dinode_of. cbn. do 5 (split; [done|]). pose proof (f_len _ _ Hf) as Hl. split; [done|].
  destruct (g_size SB G) as [Hds Hsz].
  apply Forall_lookup. intros j a Ha. assert (j < 13)%nat as Hj by (rewrite <-Hl; by eapply lookup_lt_Some).
  assert (addr_of (Z.of_nat j) p = a) as Ea by (unfold addr_of; by rewrite Nat2Z.id, Ha).
  destruct (decide (a = 0)) as [->|Hnz]; [by unfold uint|]. set (i := if (j =? 12)%nat then MAXFILE else Z.of_nat j).
  assert (0 ≤ i ≤ MAXFILE) as Hi by (unfold i; rewrite MAXF; destruct (j =? 12)%nat; lia).
  assert (bslot V p i = a) as Es.
  { unfold i. destruct (Nat.eqb_spec j 12) as [->|]; [exact Ea|]. rewrite bslot_direct by lia. done. }
  destruct (f_rng _ _ Hf i Hi) as [Hr _]; [by rewrite Es|]. rewrite Es in Hr. unfold uint. lia.
Qed.

Lemma finv_size V p x : finv V p → finv V (set_i_size x p).
Proof. intros [H1 H2 H3]. by constructor. Qed.

Lemma writei_run Q s V P it I c k p off bs :
  let n := Z.of_nat (length bs) in
  fr s V P ∅ None it I c → I !! k = Some p → i_dev p = dev → 0 ≤ i_inum p < sb_ninodes SB → dinode_ok (dinode_of p) →
  finv V p → vok V → full V p → Forall (λ x, 0 ≤ x < 256) bs →
  0 ≤ off ≤ i_size p → off + n ≤ MAXFILE * BSIZE → has_room V p off n → nroom P (6 * Z.of_nat (turns off n 0) + 1) →
  (∀ s' V' P' p', fr s' V' P' ∅ None it (<[k := p']> I) c → written off bs V p V' p' →
     (size P' ≤ size P + 6 * turns off n 0 + 1)%nat → Q n s') →
  wp (writei (iptr k) (from_var bs) off n) Q s.
Proof.
  intros n Hs Hp Ed Hn Hdok Hf Hv Hfull Hbs Ho Hle Hnf Hr HQ. pose proof Hfull as [Hsz Hnz]. assert (MAXFILE * BSIZE = 274432) as EM by done.
  assert (k < length I)%nat as Hk by by eapply lookup_lt_Some. unfold nroom in Hr.
  unfold writei. wp_run. eapply wp_iload; [exact Hs|done|]. rewrite (u32_small (off + n)) by lia.
  rewrite (proj2 (Z.ltb_ge (i_size p) off)), (proj2 (Z.ltb_ge (off + n) off)), (proj2 (Z.ltb_ge (MAXFILE * BSIZE) (off + n))) by lia. cbn [orb]. wp_run.
  eapply (writei_loop_run _ s V P it I c k p off bs); [exact Hs|done..|lia|done|done|unfold nroom; fold n; lia|].
  clear s Hs. intros s V1 P1 p1 Hs Hw Hcov HP1 Hnf1. wp_run. fold n in Hw, Hcov, HP1, Hnf1 |- *.
  pose proof (wr_mono _ _ _ _ _ _ _ Hw) as Hmo. destruct (fm_fields _ _ _ _ Hmo) as [l1 El1].
  eapply wp_iload; [exact Hs|by apply list_lookup_insert_eq|].
  set (p2 := set_i_size (Z.max (i_size p) (off + n)) p1).
  assert (i_size p1 = i_size p ∧ i_inum p1 = i_inum p ∧ i_dev p1 = dev) as (Es & Ei & Ed1) by by rewrite El1.
  apply wp_bind. apply (wp_mono _ (λ _ s', fr s' V1 P1 ∅ None it (<[k := p2]> I) c)).
  { rewrite Es. destruct (Z.ltb_spec (i_size p) (off + n)).
    - eapply wp_istore; [exact Hs|by apply list_lookup_insert_eq|]. intros s' Hs'. rewrite list_insert_insert_eq in Hs'.
      unfold p2. by replace (Z.max (i_size p) (off + n)) with (off + n) by lia.
    - wp_run. unfold p2. replace (Z.max (i_size p) (off + n)) with (i_size p1) by lia. by destruct p1. }
  clear s Hs. intros [] s Hs. wp_run.
  assert (finv V1 p2) as Hf2 by (apply finv_size, Hmo). pose proof (fm_vok _ _ _ _ Hmo) as Hv1. change (i_inum p1) with (i_inum p2) in Ei.
  assert (dinode_ok (dinode_of p2)) as Hd2.
  { destruct Hdok as (D1 & D2 & D3 & D4 & _). eapply (dinode_ok_file V1); [done| | | | |unfold uint; cbn; lia]; unfold p2; rewrite El1; done. }
  eapply (iupdate_run dev SB l0 G); [exact Hs|by apply list_lookup_insert_eq|done|by rewrite Ei|apply lookup_empty|rewrite map_size_empty; lia|unfold FsTx.room; lia|].
  clear s Hs. intros s Hs. wp_run. rewrite Ei in Hs.
  destruct (IBLOCK_range SB G (i_inum p) Hn) as [_ HIb].
  destruct (meta_write V1 p2 (IBLOCK (i_inum p) SB) (put_dinode (dip_off (i_inum p)) (dinode_of p2) (V1 (IBLOCK (i_inum p) SB))))
    as (Hf3 & Hv3 & Eslot & Ebyte); [done|done|lia|by apply block_ok_put_dinode, Hv1|].
  eapply HQ; [exact Hs| |pose proof (size_add P1 (IBLOCK (i_inum p) SB)); lia].
  constructor; try done.
  - split; [cbn; lia|]. intros i Hi Hi2. assert (0 ≤ i ≤ MAXFILE) as Hir by (rewrite MAXF; cbn in Hi2; unfold BSIZE in *; lia).
    unfold iupdated. rewrite Eslot by done. change (bslot V1 p1 i ≠ 0). destruct (decide (i * BSIZE < i_size p)) as [Hi3|Hi3].
    + rewrite (fm_slot _ _ _ _ Hmo i Hir) by auto. auto.
    + cbn in Hi2. apply Hcov; unfold BSIZE in *; [zlia|lia|lia].
  - exists l1. unfold p2. by rewrite El1.
  - rewrite (dinode_iupdated SB G) by (done || apply Hv1). by rewrite decide_True.
  - intros m Hm Hne. rewrite (dinode_iupdated SB G) by (done || apply Hv1). rewrite decide_False by done. unfold dinode_at. f_equal.
    apply (fm_other _ _ _ _ Hmo). left. by destruct (IBLOCK_range SB G m Hm) as [_ [_ ?]].
  - intros o Hoo. unfold iupdated. rewrite Ebyte by done. by apply (wr_byte _ _ _ _ _ _ _ Hw).
  - intros m Hm Hne. unfold iupdated. rewrite vset_other by done. by apply (fm_other _ _ _ _ Hmo).
  - fold n. unfold iupdated. rewrite nfree_meta by lia. lia.
  - intros b Hb Hfr. apply (fm_free _ _ _ _ Hmo); [done|]. unfold iupdated in Hfr. by rewrite meta_free in Hfr by lia.
  - intros i Hi. unfold iupdated. rewrite Eslot by done. by apply (fm_new _ _ _ _ Hmo i Hi).
Qed.

End file.
