(* ===== verification/FsWrite.v ===== *)
(** * A write to a file is read back, and survives a crash as a whole *)

From stdpp Require Import base gmap list strings numbers.
From S2P Require Import Prelude Block SleepLock Bio BioSpec Cache Log LogSpec Fs FsTx FsAlloc FsInode FsOp FsFile.

(** ** Files on disk *)

Definition dfile (x : dinode) : inode :=
  mkInode 0 0 0 free_lock true (d_type x) (d_major x) (d_minor x) (d_nlink x) (d_size x) (d_addrs x).

Section disk.
Context (SB : superblock) (G : fsgeo SB).

(** The size and the bytes of the file with inode number [n]. *)
Definition dsize (V : Z → block) (n : Z) : Z := d_size (dinode_at SB V n).
Definition dbyte (V : Z → block) (n o : Z) : Z := fbyte V (dfile (dinode_at SB V n)) o.

Lemma bslot_addrs V p q i : i_addrs p = i_addrs q → bslot V p i = bslot V q i.
Proof. intros E. unfold bslot, addr_of. by rewrite E. Qed.
Lemma fbyte_addrs V p q o : i_addrs p = i_addrs q → fbyte V p o = fbyte V q o.
Proof. intros E. unfold fbyte. by rewrite (bslot_addrs V p q _ E). Qed.

(** Only the blocks outside the log matter. *)
Definition same_home (V V' : Z → block) : Prop := ∀ n, home (sb_logstart SB) (sb_nlog SB) n → V' n = V n.

(** The blocks of the file are the same on both disks. *)
Definition kept (V V' : Z → block) (p : inode) : Prop :=
  ∀ i, 0 ≤ i ≤ MAXFILE → bslot V p i ≠ 0 → V' (bslot V p i) = V (bslot V p i).

Lemma bslot_kept V V' p i : kept V V' p → 0 ≤ i ≤ MAXFILE → bslot V' p i = bslot V p i.
Proof.
  intros E Hi. rewrite MAXF in Hi. destruct (decide (i < 12)); [by rewrite !bslot_direct|]. destruct (decide (i = 268)) as [->|]; [done|].
  destruct (decide (addr_of NDIRECT p = 0)); [by rewrite !bslot_none by (lia || done)|]. rewrite !bslot_indirect by (lia || done). f_equal.
  apply (E MAXFILE); [rewrite MAXF; lia|done].
Qed.
Lemma fbyte_kept V V' p o : kept V V' p → 0 ≤ o < MAXFILE * BSIZE → fbyte V' p o = fbyte V p o.
Proof.
  intros E Ho. change (MAXFILE * BSIZE) with 274432 in Ho. assert (0 ≤ o / BSIZE ≤ MAXFILE) as Hi by (rewrite MAXF; unfold BSIZE; zlia).
  unfold fbyte. rewrite (bslot_kept V V' p _ E Hi). destruct (Z.eqb_spec (bslot V p (o / BSIZE)) 0) as [|Hn]; [done|].
  do 2 f_equal. by apply E.
Qed.
Lemma kept_home V V' p : finv SB V p → same_home V V' → kept V V' p.
Proof. intros Hf E i Hi Hn. apply E. destruct (f_rng _ _ _ Hf _ Hi Hn) as [? _]. by apply (data_home SB G). Qed.
Lemma dinode_home V V' n : same_home V V' → 0 ≤ n < sb_ninodes SB → dinode_at SB V' n = dinode_at SB V n.
Proof. intros E Hn. unfold dinode_at. f_equal. by apply E, (IBLOCK_home SB G). Qed.

(** The file [n] on the disk [V'] is the file [n] on the disk [V] with [bs] written at [off]. *)
Definition overwritten (off : Z) (bs : list Z) (V V' : Z → block) (n : Z) : Prop :=
  dsize V' n = Z.max (dsize V n) (off + Z.of_nat (length bs)) ∧
  ∀ o, 0 ≤ o < MAXFILE * BSIZE →
    dbyte V' n o = if (off <=? o) && (o <? off + Z.of_nat (length bs)) then at_off off bs o else dbyte V n o.
Definition same_file (V V' : Z → block) (n : Z) : Prop :=
  dsize V' n = dsize V n ∧ ∀ o, 0 ≤ o < MAXFILE * BSIZE → dbyte V' n o = dbyte V n o.

(** The in-memory inode [p] is in step with the disk and the file is sound. *)
Definition file_ok (V : Z → block) (p : inode) : Prop :=
  0 ≤ i_inum p < sb_ninodes SB ∧ dinode_at SB V (i_inum p) = dinode_of p ∧ dinode_ok (dinode_of p) ∧ finv SB V p ∧ full V p.

Lemma dbyte_file V p o : dinode_at SB V (i_inum p) = dinode_of p → dbyte V (i_inum p) o = fbyte V p o.
Proof. intros E. unfold dbyte. rewrite E. by apply fbyte_addrs. Qed.

Lemma written_disk off bs V p V' p' V'' : file_ok V p → written SB off bs V p V' p' → same_home V' V'' → overwritten off bs V V'' (i_inum p).
Proof.
  intros (Hn & Hd & _ & Hf & _) Hw E. pose proof (wn_disk _ _ _ _ _ _ _ Hw) as Hd'. destruct (wn_fields _ _ _ _ _ _ _ Hw) as [l El]. split.
  - unfold dsize. rewrite (dinode_home V' V'' _ E Hn), Hd', Hd, El. done.
  - intros o Ho. rewrite (dbyte_file V p o Hd). unfold dbyte. rewrite (dinode_home V' V'' _ E Hn), Hd'.
    rewrite (fbyte_addrs V'' _ p') by done. rewrite (fbyte_kept V' V'' p' o (kept_home _ _ _ (wn_inv _ _ _ _ _ _ _ Hw) E) Ho).
    by apply (wn_byte _ _ _ _ _ _ _ Hw).
Qed.
Lemma kept_file V p V' : file_ok V p → dinode_at SB V' (i_inum p) = dinode_at SB V (i_inum p) → kept V V' p → same_file V V' (i_inum p).
Proof.
  intros (Hn & Hd & _ & Hf & _) Ed E. split; [unfold dsize; by rewrite Ed|]. intros o Ho.
  rewrite (dbyte_file V p o Hd). unfold dbyte. rewrite Ed, Hd. rewrite (fbyte_addrs V' _ p) by done. by apply fbyte_kept.
Qed.
Lemma same_home_file V p V' : file_ok V p → same_home V V' → same_file V V' (i_inum p).
Proof. intros Hp E. pose proof Hp as (Hn & _ & _ & Hf & _). apply kept_file; [done|by apply dinode_home|by apply kept_home]. Qed.

(** Two files that share no block. *)
Definition separate (V : Z → block) (p q : inode) : Prop :=
  ∀ i j, 0 ≤ i ≤ MAXFILE → 0 ≤ j ≤ MAXFILE → bslot V q i ≠ 0 → bslot V p j ≠ bslot V q i.

Lemma written_separate off bs V p V' p' V'' q : file_ok V p → written SB off bs V p V' p' → same_home V' V'' →
  file_ok V q → i_inum q ≠ i_inum p → separate V p q → same_file V V'' (i_inum q).
Proof.
  intros (Hn & _) Hw E Hq Hne Hs. pose proof Hq as (Hnq & _ & _ & Hf & _). apply kept_file; [done| |].
  - rewrite (dinode_home V' V'' _ E Hnq). by apply (wn_inodes _ _ _ _ _ _ _ Hw).
  - intros i Hi Hz. destruct (f_rng _ _ _ Hf _ Hi Hz) as [Hr Hfr]. rewrite E by by apply (data_home SB G).
    apply (wn_other _ _ _ _ _ _ _ Hw); [right; right; eauto|].
    destruct (IBLOCK_range SB G _ Hn) as [_ ?]. pose proof (bmap_dstart SB G). lia.
Qed.

End disk.

(** What a system call that writes and then reads does, inside its transaction. *)
Definition write_read (ip : Z) (bs : list Z) (off : Z) : M fsst (Z * list Z) :=
  r <- writei ip (from_var bs) off (Z.of_nat (length bs)) ;;
  '(x, _) <- readi ip to_var [] off r ;;
  ret (r, x).

Lemma turns_small off n : 0 ≤ off → 0 ≤ n ≤ 3072 → (turns off n 0 ≤ 4)%nat.
Proof. intros Ho Hn. unfold turns, BSIZE. destruct (Z.ltb_spec 0 n); [|lia]. zlia. Qed.

(** C8. A write to a file is atomic and durable.  A transaction that writes up to
    3 * BSIZE bytes (what [filewrite] puts in one transaction) at an offset within
    a sound file, on a disk with free blocks, returns the number of bytes, reads
    back what it wrote, and leaves on disk the file with exactly these bytes
    changed; every other inode is untouched, and so is
    every file that shares no block with it.  After a crash at any of its disk
    writes, and any number of crashes while recovering, the next boot finds the
    file as before or as after the write, nothing in between. *)
Theorem file_write_atomic dev SB s I c k p off bs :
  let V := dview s in let n := Z.of_nat (length bs) in
  dev ≠ 0 → fsgeo SB → 30 ≤ sb_nlog SB → fsq dev SB s I c → vok SB V → I !! k = Some p → i_dev p = dev → file_ok SB V p →
  (8 ≤ nfree SB V)%nat → Forall (λ x, 0 ≤ x < 256) bs → n ≤ 3 * BSIZE → 0 ≤ off ≤ i_size p → off + n ≤ MAXFILE * BSIZE →
  ∃ s' p' W, in_tx (write_read (iptr k) bs off) s = OK (n, bs) s' ∧ fsq dev SB s' (<[k := p']> I) c ∧
    overwritten SB off bs V (dview s') (i_inum p) ∧
    (∀ m, 0 ≤ m < sb_ninodes SB → m ≠ i_inum p → dinode_at SB (dview s') m = dinode_at SB V m) ∧
    (∀ q, file_ok SB V q → i_inum q ≠ i_inum p → separate V p q → same_file SB V (dview s') (i_inum q)) ∧
    wtrace (bcache (flog s')) = wtrace (bcache (flog s)) ++ W ∧
    ∀ pid j d, crash_loop dev SB pid (replay (disk (bcache (flog s))) (take j W)) d →
      ∃ l, boot dev SB d pid = OK tt l ∧
        (same_file SB V (dget (disk (bcache l))) (i_inum p) ∧ (j < length W)%nat ∨
         overwritten SB off bs V (dget (disk (bcache l))) (i_inum p)).
Proof.
  intros V n Hdev G Hnl Hq Hv Hp Ed Hfile Hnf Hbs Hn Ho Hle. pose proof Hfile as (Hin & Hd & Hdok & Hf & Hfull).
  change (3 * BSIZE) with 3072 in Hn. pose proof (turns_small off n ltac:(lia) ltac:(lia)) as Ht.
  assert (k < length I)%nat as Hk by by eapply lookup_lt_Some.
  destruct (in_tx_run dev SB G (write_read (iptr k) bs off)
    (λ a V' I' c', a = (n, bs) ∧ c' = c ∧ ∃ p', I' = <[k := p']> I ∧ written SB off bs V p V' p') s I c Hdev Hq) as
    (a & s' & V' & I' & c' & W & E & Hq' & (-> & -> & p' & -> & Hw) & Hh & Hwt & Hcs & _).
  { intros s1 Hs1. unfold write_read. wp_run.
    eapply (writei_run dev SB (flog s1) G _ s1 V ∅ false I c k p off bs); [exact Hs1|done..|left; fold n; lia| |].
    { unfold nroom. fold n. rewrite size_empty. lia. }
    fold n. intros s2 V' P' p' Hs2 Hw HP'. rewrite size_empty in HP'. wp_run. destruct (wn_fields _ _ _ _ _ _ _ Hw) as [l El].
    change (MAXFILE * BSIZE) with 274432 in *. assert (i_size p' = Z.max (i_size p) (off + n)) as Esz by by rewrite El.
    eapply (readi_run dev SB (flog s1) G _ s2 V' P' false _ c k p' off n);
      [exact Hs2|by apply list_lookup_insert_eq|by rewrite El|apply (wn_vok _ _ _ _ _ _ _ Hw)|apply (wn_full _ _ _ _ _ _ _ Hw)|lia|lia|lia|lia|].
    intros s3 Hs3. cbv zeta. wp_run. exists V', P', (<[k := p']> I), c. split; [exact Hs3|]. split; [|by eauto 10]. f_equal.
    replace (Z.min n (i_size p' - off)) with n by lia. apply list_eq. intros j. unfold fbytes. rewrite list_lookup_fmap.
    destruct (decide (j < length bs)%nat) as [Hj|Hj].
    - rewrite lookup_seqZ_lt by lia. cbn [fmap option_fmap option_map]. rewrite (wn_byte _ _ _ _ _ _ _ Hw) by (change (MAXFILE * BSIZE) with 274432; lia).
      fold n. rewrite (proj2 (Z.leb_le _ _)), (proj2 (Z.ltb_lt _ _)) by lia. cbn [andb]. unfold at_off.
      replace (Z.to_nat (off + Z.of_nat j - off)) with j by lia. destruct (lookup_lt_is_Some_2 bs j Hj) as [x ->]. done.
    - rewrite lookup_seqZ_ge by lia. cbn. by rewrite lookup_ge_None_2 by lia. }
  exists s', p', W. split; [done|]. split; [done|].
  assert (same_home SB V' (dview s')) as Hsh by exact Hh. split; [by eapply written_disk|]. split; [|split; [|split; [done|]]].
  - intros m Hm Hne. rewrite (dinode_home SB G V' _ m Hsh Hm). by apply (wn_inodes _ _ _ _ _ _ _ Hw).
  - intros q Hq2 Hne Hsep. by eapply (written_separate SB G off bs V p V' p').
  - intros pid j d Hc. destruct (Hcs pid j d Hc) as (l & Hb & _ & [[Hold Hj]|Hnew]); exists l; (split; [done|]).
    + left. split; [|done]. by apply same_home_file.
    + right. by eapply written_disk.
Qed.

(** ** Examples: disks that are made of a few blocks *)

Definition block_okb (b : block) : bool := bool_decide (block_ok b).
Definition disk_okb (d : disk_t) : bool := forallb (λ x, block_okb x.2) (map_to_list d).
Lemma disk_okb_ok d n : disk_okb d = true → block_ok (dget d n).
Proof.
  intros H. unfold dget. destruct (d !! n) as [b|] eqn:E; [|apply block_ok_zero]. cbn. apply elem_of_map_to_list in E.
  unfold disk_okb in H. rewrite forallb_forall in H. specialize (H (n, b) ltac:(by apply list_elem_of_In)).
  by apply bool_decide_eq_true in H.
Qed.

(** Booting on such a disk with no transaction in the log keeps its blocks. *)
Lemma disk_boot d : disk_okb d = true → hdr (dget d 2) = [] →
  match boot 1 ex_sb d 3 with OK _ l => block_okb (dget (disk (bcache l)) 2) | _ => false end = true →
  ∃ l, boot 1 ex_sb d 3 = OK tt l ∧ quiet 1 2 30 l ∧ (∀ n, block_ok (dget (disk (bcache l)) n)) ∧
    ∀ n, n ≠ 2 → dget (disk (bcache l)) n = dget d n.
Proof.
  intros Hd Hh Hb. assert (log_ok 2 30 d) as Hok.
  { split; [apply (disk_okb_ok d 2 Hd)|]. rewrite Hh. by apply tx_ok_nil, ex_geom. }
  destruct (boot_run 1 2 30 ex_geom ex_sb d 3 ltac:(done) eq_refl eq_refl Hok) as (l & Eb & hz & Hq & _ & _ & El).
  rewrite Eb in Hb. apply bool_decide_eq_true in Hb.
  assert (∀ n, n ≠ 2 → dget (disk (bcache l)) n = dget d n) as Hn.
  { intros n Hn. rewrite El. unfold recovery_trace. rewrite Hh. cbn [home_writes app replay fold_left imap].
    apply dget_replay_other. cbn. intros ?%list_elem_of_singleton. congruence. }
  exists l. split; [exact Eb|]. split; [exact Hq|]. split; [|exact Hn]. intros n. destruct (decide (n = 2)) as [->|]; [exact Hb|].
  rewrite Hn by assumption. by apply disk_okb_ok.
Qed.

Lemma ex_geo : fsgeo ex_sb.
Proof. split; [exact ex_geom|vm_compute; intuition congruence..]. Qed.

(** Only the bitmap says which blocks are free. *)
Definition free_okb (d : disk_t) (n : nat) : bool :=
  forallb (λ b, negb (bit_free (b mod BPB) (dget d 45))) (seqZ 0 46) && (n <=? length (filter (λ b, bit_free (b mod BPB) (dget d 45) = true) (seqZ 0 1000)))%nat.
Lemma BBLOCK_ex b : 0 ≤ b < 1000 → BBLOCK b ex_sb = 45.
Proof. intros Hb. unfold BBLOCK. cbn [sb_bmapstart ex_sb]. change BPB with 8192. zlia. Qed.
Lemma free_ok d n V : free_okb d n = true → V 45 = dget d 45 → (∀ n, block_ok (V n)) → vok ex_sb V ∧ (n ≤ nfree ex_sb V)%nat.
Proof.
  intros [H1 H2]%andb_true_iff E Hok. split; [split; [done|]|].
  - change (sb_size ex_sb) with 1000. change (dstart ex_sb) with 46. intros b Hb Hf. destruct (decide (b < 46)); [|lia]. rewrite forallb_forall in H1.
    specialize (H1 b ltac:(apply list_elem_of_In, elem_of_seqZ; lia)). unfold free in Hf. rewrite BBLOCK_ex, E in Hf by lia. by rewrite Hf in H1.
  - apply Nat.leb_le in H2. eapply Nat.le_trans; [exact H2|]. unfold nfree. apply Nat.eq_le_incl. f_equal. change (sb_size ex_sb) with 1000.
    apply filter_ext_in. intros b Hb%elem_of_seqZ. unfold free. rewrite BBLOCK_ex, E by lia. done.
Qed.

(** Blocks 0 to 45 are in use, inode 5 is an empty file. *)
Definition ex_bitmap : block := [255; 255; 255; 255; 255; 63] ++ replicate 1018 0.
Definition ex_fdisk : disk_t :=
  <[45 := ex_bitmap]> (<[32 := put_dinode 320 (mkD T_FILE 0 0 1 0 (replicate 13 0)) zero_block]> ∅).
Definition ex_inode : inode := mkInode 1 5 1 free_lock true T_FILE 0 0 1 0 (replicate 13 0).
Definition ex_fsst (l : logst) : fsst := mkFs ex_sb false (ex_inode :: replicate 49 inode0) l 0.

Lemma ex_slot V i : 0 ≤ i ≤ MAXFILE → bslot V ex_inode i = 0.
Proof.
  intros Hi. rewrite MAXF in Hi. destruct (decide (i < 12)); [|apply bslot_none; [lia|reflexivity]]. rewrite bslot_direct by lia. unfold addr_of. cbn [i_addrs ex_inode].
  by rewrite lookup_replicate_2 by lia.
Qed.
Lemma ex_file_ok V : V 32 = dget ex_fdisk 32 → file_ok ex_sb V ex_inode.
Proof.
  intros E. split; [cbn; lia|]. split; [|split; [|split; [split|split]]].
  - unfold dinode_at. change (IBLOCK (i_inum ex_inode) ex_sb) with 32. rewrite E. vm_compute. reflexivity.
  - unfold dinode_ok, short, uint. cbn [dinode_of ex_inode d_type d_major d_minor d_nlink d_size d_addrs i_type i_major i_minor i_nlink i_size i_addrs].
    unfold T_FILE. do 5 (split; [lia|]). split; [reflexivity|]. apply Forall_replicate. lia.
  - done.
  - intros i j Hi _ _ Hn. by rewrite ex_slot in Hn.
  - intros i Hi Hn. by rewrite ex_slot in Hn.
  - by vm_compute.
  - cbn. intros i Hi Hlt. unfold BSIZE in Hlt. lia.
Qed.

Lemma file_write_atomic_witness :
  ∃ l s' p' W, boot 1 ex_sb ex_fdisk 3 = OK tt l ∧
    in_tx (write_read (iptr 0) [104; 105] 0) (ex_fsst l) = OK (2, [104; 105]) s' ∧ itable s' !! 0%nat = Some p' ∧
    dsize ex_sb (dview s') 5 = 2 ∧
    ∀ j d, crash_loop 1 ex_sb 5 (replay (disk (bcache l)) (take j W)) d →
      ∃ l', boot 1 ex_sb d 5 = OK tt l' ∧ (dsize ex_sb (dget (disk (bcache l'))) 5 = 0 ∨ dsize ex_sb (dget (disk (bcache l'))) 5 = 2).
Proof.
  destruct (disk_boot ex_fdisk) as (l & Eb & Hq & Hok & Hd); [vm_compute; reflexivity..|].
  destruct (free_ok ex_fdisk 8 (dget (disk (bcache l)))) as [Hv Hf]; [vm_compute; reflexivity|by apply Hd|done|].
  assert (file_ok ex_sb (dget (disk (bcache l))) ex_inode) as Hfile by by apply ex_file_ok, Hd.
  assert (dsize ex_sb (dget (disk (bcache l))) 5 = 0) as E0 by (unfold dsize; change 5 with (i_inum ex_inode); by rewrite (proj1 (proj2 Hfile))).
  destruct (file_write_atomic 1 ex_sb (ex_fsst l) (itable (ex_fsst l)) 0 0 ex_inode 0 [104; 105]) as (s' & p' & W & E & Hq' & [Hs _] & _ & _ & _ & Hc).
  - discriminate.
  - exact ex_geo.
  - cbn; lia.
  - by do 4 (split; [done|]).
  - exact Hv.
  - done.
  - done.
  - exact Hfile.
  - exact Hf.
  - repeat constructor; lia.
  - vm_compute; congruence.
  - vm_compute; intuition congruence.
  - vm_compute; congruence.
  - exists l, s', p', W. split; [exact Eb|]. split; [exact E|]. destruct Hq' as (_ & _ & Ei & _). split; [by rewrite Ei|].
    unfold dview in Hs. cbn [flog ex_fsst] in Hs. change (i_inum ex_inode) with 5 in *. rewrite E0 in Hs. split; [exact Hs|].
    intros j d Hj. destruct (Hc 5 j d Hj) as (l' & Eb' & [[[H _] _]|[H _]]); exists l'; (split; [exact Eb'|]); unfold dview in H; cbn [flog ex_fsst] in H; rewrite E0 in H; [by left|by right].
Defined.
