(* ===== verification/FsTrunc.v ===== *)
(** * Giving a file back: [itrunc], and [iput] of the last reference *)

From stdpp Require Import base gmap list strings numbers.
From S2P Require Import Prelude Block SleepLock Bio BioSpec Cache Log LogSpec Fs FsTx FsAlloc FsInode FsOp FsFile FsWrite.

Section trunc.
Context (dev : Z) (SB : superblock) (l0 : logst) (G : fsgeo SB).
Notation fr := (fr dev SB l0).
Notation pid := (lpid l0).
Notation free := (free SB).
Notation vok := (vok SB).
Notation dstart := (dstart SB).
Notation size_of := (sb_size SB).
Notation nroom := (nroom SB).

(** The blocks of the bitmap. *)
Definition nbitmap : Z := size_of / BPB + 1.
Definition bitmap_blocks : gset Z := list_to_set (seqZ (sb_bmapstart SB) nbitmap).

Lemma size_bitmap : Z.of_nat (size bitmap_blocks) = nbitmap.
Proof.
  unfold bitmap_blocks. rewrite size_list_to_set by apply NoDup_seqZ. rewrite length_seqZ. unfold nbitmap.
  destruct (g_size SB G). assert (0 ≤ size_of / BPB) by (apply Z.div_pos; [lia|done]). lia.
Qed.
Lemma in_bitmap b : 0 ≤ b < size_of → BBLOCK b SB ∈ bitmap_blocks.
Proof.
  intros Hb. apply elem_of_list_to_set, elem_of_seqZ. destruct (BBLOCK_range SB G b Hb) as [-> _]. unfold nbitmap.
  assert (0 ≤ b / BPB ≤ size_of / BPB) by (split; [by apply Z.div_pos; [lia|]|apply Z.div_le_mono; [done|lia]]). lia.
Qed.

(** From [V] to [V'] the blocks in the slots of [p] below [m] were freed, nothing else. *)
Record freed (V : Z → block) (p : inode) (m : Z) (P : gset Z) (V' : Z → block) (P' : gset Z) : Prop := mkFreed {
  fd_vok : vok V';
  fd_free : ∀ b, 0 ≤ b < size_of → free V' b ↔ free V b ∨ b ≠ 0 ∧ ∃ i, 0 ≤ i < m ∧ bslot V p i = b;
  fd_other : ∀ n, n < sb_bmapstart SB ∨ dstart ≤ n → V' n = V n;
  fd_log : P' ⊆ P ∪ bitmap_blocks;
}.

Lemma freed_zero V p P : vok V → freed V p 0 P V P.
Proof. intros Hv. split; [done| |done|set_solver]. intros b _. split; [by left|]. intros [?|(_ & i & ? & _)]; [done|lia]. Qed.

Lemma freed_room V p m P V' P' : freed V p m P V' P' → nroom P (nbitmap + 1) → room SB P'.
Proof.
  intros Hf Hr. pose proof (subseteq_size _ _ (fd_log _ _ _ _ _ _ Hf)) as Hs. rewrite size_union_alt in Hs.
  assert (size (bitmap_blocks ∖ P) ≤ size bitmap_blocks)%nat by (apply subseteq_size; set_solver).
  pose proof size_bitmap. unfold FsFile.nroom, FsTx.room in *. lia.
Qed.

Lemma freed_skip V p m P V' P' : freed V p m P V' P' → bslot V p m = 0 → freed V p (m + 1) P V' P'.
Proof.
  intros [H1 H2 H3 H4] E. split; [done| |done|done]. intros b Hb. rewrite (H2 b Hb). split; (intros [?|(Hn & i & Hi & Ei)]; [by left|right; split; [done|]]; exists i).
  - split; [lia|done].
  - split; [|done]. destruct (decide (i = m)) as [->|]; [congruence|lia].
Qed.
Lemma freed_next V p m P V' P' : finv SB V p → freed V p m P V' P' → 0 ≤ m ≤ MAXFILE → bslot V p m ≠ 0 →
  ¬ free V' (bslot V p m) ∧ freed V p (m + 1) P (bfreed SB V' (bslot V p m)) (P' ∪ {[BBLOCK (bslot V p m) SB]}).
Proof.
  intros Hf [H1 H2 H3 H4] Hm Hn. destruct (f_rng _ _ _ Hf m Hm Hn) as [Hr Hnf]. destruct (g_size SB G) as [Hd _].
  assert (0 ≤ bslot V p m < size_of) as Hb by lia. destruct (BBLOCK_range SB G _ Hb) as [_ Hbb]. split; [|split].
  - rewrite (H2 _ Hb). intros [?|(_ & i & Hi & Ei)]; [done|]. assert (i = m); [|lia]. apply (f_inj _ _ _ Hf); [lia|done|done|congruence].
  - apply (vok_bfreed SB G); [done|done|lia].
  - intros b Hb'. rewrite (free_bfreed SB G); [|apply H1|done|done]. rewrite (H2 b Hb'). split.
    + intros [->|[?|(Hn' & i & Hi & Ei)]]; [right|by left|right]; (split; [done|]); [exists m|exists i]; split; (done || lia).
    + intros [?|(Hn' & i & Hi & Ei)]; [by right; left|]. destruct (decide (i = m)) as [->|]; [by left|]. right; right. split; [done|]. exists i. split; [lia|done].
  - intros n Hn'. unfold bfreed. rewrite vset_other by lia. by apply H3.
  - pose proof (in_bitmap _ Hb). set_solver.
Qed.

(** The inode with its first [m] addresses cleared. *)
Definition cleared (m : nat) (p : inode) : inode :=
  set_i_copy (i_type p) (i_major p) (i_minor p) (i_nlink p) (i_size p) (replicate m 0 ++ drop m (i_addrs p)) p.

Lemma addr_cleared m p j : 0 ≤ j → (m ≤ Z.to_nat j)%nat → addr_of j (cleared m p) = addr_of j p.
Proof.
  intros Hj Hm. unfold addr_of. cbn [i_addrs cleared set_i_copy]. rewrite lookup_app_r by (rewrite length_replicate; lia).
  rewrite length_replicate, lookup_drop. do 2 f_equal. lia.
Qed.
Lemma cleared_next m p : (m < length (i_addrs p))%nat → set_i_addr (Z.of_nat m) 0 (cleared m p) = cleared (S m) p.
Proof.
  intros Hm. unfold set_i_addr, cleared. cbn [set_i_copy i_dev i_inum i_ref i_lock i_valid i_type i_major i_minor i_nlink i_size i_addrs]. unfold set_i_copy. f_equal. rewrite Nat2Z.id.
  rewrite insert_app_r_alt by (rewrite length_replicate; lia). rewrite length_replicate, Nat.sub_diag.
  destruct (lookup_lt_is_Some_2 _ _ Hm) as [a Ha]. rewrite (drop_S _ a) by done. cbn [insert list_insert].
  rewrite cons_middle, app_assoc. by rewrite <-replicate_S_end.
Qed.
Lemma cleared_same m p : (m < length (i_addrs p))%nat → addr_of (Z.of_nat m) p = 0 → cleared m p = cleared (S m) p.
Proof.
  intros Hm E. rewrite <-cleared_next by done. assert (replicate m 0 ++ drop m (i_addrs p) = <[m := 0]> (replicate m 0 ++ drop m (i_addrs p))) as El.
  { rewrite list_insert_id; [done|]. rewrite lookup_app_r, length_replicate by (rewrite length_replicate; lia). rewrite lookup_drop.
    replace (m + (m - m))%nat with m by lia. destruct (lookup_lt_is_Some_2 _ _ Hm) as [a Ha]. unfold addr_of in E. rewrite Nat2Z.id, Ha in E. cbn in E. congruence. }
  unfold set_i_addr, cleared, set_i_copy. cbn [i_dev i_inum i_ref i_lock i_valid i_type i_major i_minor i_nlink i_size i_addrs]. f_equal. by rewrite Nat2Z.id.
Qed.

(** The part of [itrunc] that empties the indirect block. *)
Definition free_indirect (ip dv addr : Z) : M fsst unit :=
  bp <- fbread dv addr ;;
  for_loop (Z.to_nat NINDIRECT) 0 (λ j,
    d <- fdata bp ;;
    if truthy (rd32 (4 * j) d) then bfree dv (rd32 (4 * j) d) else ret tt) ;;
  fbrelse bp ;;
  bfree dv addr ;;
  istore ip (set_i_addr NDIRECT 0).

Lemma truthyP z : reflect (z ≠ 0) (truthy z).
Proof. unfold truthy. destruct (Z.eqb_spec z 0); constructor; [by intros []|done]. Qed.

Lemma free_indirect_run Q s V P V1 P1 it I c k p q :
  fr s V1 P1 ∅ None it I c → I !! k = Some q → finv SB V p → freed V p 12 P V1 P1 → nroom P (nbitmap + 1) → addr_of NDIRECT p ≠ 0 →
  (∀ s' V' P', fr s' V' P' ∅ None it (<[k := set_i_addr NDIRECT 0 q]> I) c → freed V p (MAXFILE + 1) P V' P' → Q tt s') →
  wp (free_indirect (iptr k) dev (addr_of NDIRECT p)) Q s.
Proof.
  intros Hs Hq Hf Hfd Hr Hn HQ. set (a := addr_of NDIRECT p) in *. assert (bslot V p MAXFILE = a) as Ea by apply bslot_ind.
  destruct (f_rng _ _ _ Hf MAXFILE) as [Ha _]; [rewrite MAXF; lia|by rewrite Ea|]. rewrite Ea in Ha. destruct (g_size SB G) as [Hd _].
  pose proof (freed_room _ _ _ _ _ _ Hfd Hr) as Hr1. unfold free_indirect. wp_run.
  eapply (wp_fbread dev SB l0 (g_log SB G)); [exact Hs|done|right; unfold FsTx.room in Hr1; rewrite map_size_empty; lia|]. clear s Hs. intros bp s Hs. wp_run.
  assert (∀ n, sb_bmapstart SB ≤ n < dstart → (<[a := bp]> ∅ : gmap Z _) !! n = None) as Hbm.
  { intros n Hn'. rewrite lookup_insert_ne by lia. apply lookup_empty. }
  eapply (wp_for_loop (λ j s', ∃ V' P', fr s' V' P' (<[a := bp]> ∅) None it I c ∧ freed V p (12 + j) P V' P')).
  { exists V1, P1. by split. }
  - clear s Hs V1 P1 Hfd Hr1. intros j s Hj (V1 & P1 & Hs & Hfd). change (Z.of_nat (Z.to_nat NINDIRECT)) with 256 in Hj. wp_run.
    eapply wp_fdata; [exact Hs|apply lookup_insert_eq|]. intros _.
    assert (rd32 (4 * j) (V1 a) = bslot V p (12 + j)) as ->.
    { rewrite (fd_other _ _ _ _ _ _ Hfd) by (right; lia). rewrite bslot_indirect by (lia || done). do 2 f_equal; lia. }
    destruct (truthyP (bslot V p (12 + j))) as [Hnz|Hz].
    + destruct (freed_next _ _ _ _ _ _ Hf Hfd) as [Hnf Hfd']; [rewrite MAXF; lia|done|].
      destruct (f_rng _ _ _ Hf (12 + j)) as [Hrg _]; [rewrite MAXF; lia|done|].
      eapply (bfree_run dev SB l0 G); [exact Hs|done|rewrite insert_empty, map_size_singleton; lia|lia|done|by eapply freed_room|].
      intros s' Hs'. do 2 eexists. split; [exact Hs'|]. by rewrite Z.add_assoc.
    + apply dec_stable in Hz. wp_run. exists V1, P1. split; [done|]. rewrite Z.add_assoc. by apply freed_skip.
  - clear s Hs V1 P1 Hfd Hr1. intros s (V1 & P1 & Hs & Hfd). change (12 + (0 + Z.of_nat (Z.to_nat NINDIRECT))) with MAXFILE in Hfd. wp_run.
    eapply (wp_fbrelse dev SB l0 (g_log SB G)); [exact Hs|apply lookup_insert_eq|]. clear s Hs. intros s Hs. rewrite delete_insert_id in Hs by done.
    destruct (freed_next _ _ _ _ _ _ Hf Hfd) as [Hnf Hfd']; [rewrite MAXF; lia|by rewrite Ea|]. rewrite Ea in Hnf, Hfd'. wp_run.
    eapply (bfree_run dev SB l0 G); [exact Hs|done|rewrite map_size_empty; lia|lia|done|by eapply freed_room|].
    clear s Hs. intros s Hs. eapply wp_istore; [exact Hs|done|]. intros s' Hs'. by eapply HQ.
Qed.

(** What [itrunc] makes of the inode [p]. *)
Definition emptied (p : inode) : inode := set_i_copy (i_type p) (i_major p) (i_minor p) (i_nlink p) 0 (replicate 13 0) p.

Lemma freed_none V p P V' P' : addr_of NDIRECT p = 0 → freed V p 12 P V' P' → freed V p (MAXFILE + 1) P V' P'.
Proof.
  intros E Hf. rewrite MAXF. assert (∀ k : nat, (k ≤ 257)%nat → freed V p (12 + Z.of_nat k) P V' P') as H; [|by apply (H 257%nat)].
  induction k as [|k IH]; intros Hk; [done|]. replace (12 + Z.of_nat (S k)) with (12 + Z.of_nat k + 1) by lia.
  apply freed_skip; [apply IH; lia|]. apply bslot_none; [lia|done].
Qed.

Lemma itrunc_run Q s V P it I c k p :
  fr s V P ∅ None it I c → I !! k = Some p → i_dev p = dev → finv SB V p → vok V → 0 ≤ i_inum p < sb_ninodes SB → nroom P (nbitmap + 1) →
  (∀ s' V' P', fr s' (iupdated SB V' (i_inum p) (dinode_of (emptied p))) (P' ∪ {[IBLOCK (i_inum p) SB]}) ∅ None it (<[k := emptied p]> I) c →
     freed V p (MAXFILE + 1) P V' P' → Q tt s') →
  wp (itrunc (iptr k)) Q s.
Proof.
  intros Hs Hp Ed Hf Hv Hn Hr HQ. pose proof (f_len _ _ _ Hf) as Hl. unfold itrunc. wp_run. destruct (g_size SB G) as [Hd _].
  assert (k < length I)%nat as Hk by by eapply lookup_lt_Some.
  eapply (wp_for_loop (λ j s', ∃ V' P', fr s' V' P' ∅ None it (<[k := cleared (Z.to_nat j) p]> I) c ∧ freed V p j P V' P')).
  { exists V, P. split; [|by apply freed_zero]. rewrite list_insert_id; [done|]. rewrite Hp. f_equal. unfold cleared. cbn. by rewrite drop_0, copy_self. }
  - clear s Hs. intros j s Hj (V1 & P1 & Hs & Hfd). change (Z.of_nat (Z.to_nat NDIRECT)) with 12 in Hj. wp_run.
    eapply wp_iload; [exact Hs|by apply list_lookup_insert_eq|]. rewrite addr_cleared by lia. change (i_dev (cleared (Z.to_nat j) p)) with (i_dev p). rewrite Ed.
    assert (bslot V p j = addr_of j p) as Ej by (apply bslot_direct; lia). rewrite <-Ej.
    assert (cleared (Z.to_nat (j + 1)) p = cleared (S (Z.to_nat j)) p) as Ec by (f_equal; lia). rewrite Ec.
    destruct (truthyP (bslot V p j)) as [Hnz|Hz].
    + destruct (freed_next _ _ _ _ _ _ Hf Hfd) as [Hnf Hfd']; [rewrite MAXF; lia|done|]. destruct (f_rng _ _ _ Hf j) as [Hrg _]; [rewrite MAXF; lia|done|]. wp_run.
      eapply (bfree_run dev SB l0 G); [exact Hs|done|rewrite map_size_empty; lia|lia|done|by eapply freed_room|]. clear s Hs. intros s Hs.
      eapply wp_istore; [exact Hs|by apply list_lookup_insert_eq|]. clear s Hs. intros s Hs. rewrite list_insert_insert_eq in Hs.
      do 2 eexists. split; [|exact Hfd']. rewrite <-cleared_next by lia. by rewrite Z2Nat.id by lia.
    + apply dec_stable in Hz. wp_run. exists V1, P1. split; [|by apply freed_skip]. rewrite <-cleared_same; [done|lia|]. rewrite Z2Nat.id by lia. congruence.
  - clear s Hs. intros s (V1 & P1 & Hs & Hfd). change (0 + Z.of_nat (Z.to_nat NDIRECT)) with 12 in Hs, Hfd. change (Z.to_nat 12) with 12%nat in Hs. wp_run.
    eapply wp_iload; [exact Hs|by apply list_lookup_insert_eq|]. rewrite addr_cleared by (unfold NDIRECT; lia). change (i_dev (cleared 12 p)) with (i_dev p). rewrite Ed. wp_run.
    assert (∀ s V' P', fr s V' P' ∅ None it (<[k := cleared 13 p]> I) c → freed V p (MAXFILE + 1) P V' P' → wp (istore (iptr k) (set_i_size 0) ;; iupdate (iptr k)) Q s) as Hend.
    { clear s Hs V1 P1 Hfd. intros s V1 P1 Hs Hfd. wp_run. eapply wp_istore; [exact Hs|by apply list_lookup_insert_eq|]. clear s Hs. intros s Hs.
      rewrite list_insert_insert_eq in Hs. assert (set_i_size 0 (cleared 13 p) = emptied p) as Ee.
      { unfold cleared, emptied. rewrite drop_ge by lia. by rewrite app_nil_r. }
      rewrite Ee in Hs. eapply (iupdate_run dev SB l0 G); [exact Hs|by apply list_lookup_insert_eq|done|done|done|rewrite map_size_empty; lia|by eapply freed_room|].
      intros s' Hs'. by eapply HQ. }
    destruct (truthyP (addr_of NDIRECT p)) as [Hnz|Hz].
    + change (wp (free_indirect (iptr k) dev (addr_of NDIRECT p)) (λ _ s', wp (istore (iptr k) (set_i_size 0) ;; iupdate (iptr k)) Q s') s).
      eapply free_indirect_run; [exact Hs|by apply list_lookup_insert_eq|done|done|done|done|].
      intros s' V' P' Hs' Hfd'. rewrite list_insert_insert_eq in Hs'. change NDIRECT with (Z.of_nat 12) in Hs'. rewrite cleared_next in Hs' by lia. by eapply Hend.
    + apply dec_stable in Hz. wp_run. rewrite cleared_same in Hs by (lia || done). eapply Hend; [exact Hs|by apply freed_none].
Qed.

(** ** The last reference to an inode without links *)

Lemma finv_addrs V p q : i_addrs p = i_addrs q → finv SB V p → finv SB V q.
Proof.
  intros E [H1 H2 H3]. assert (∀ i, bslot V q i = bslot V p i) as Eb by (intros i; by apply bslot_addrs).
  split; [congruence| |]; [intros i j|intros i]; rewrite !Eb; auto.
Qed.
Lemma freed_addrs V p q m P V' P' : i_addrs p = i_addrs q → freed V p m P V' P' → freed V q m P V' P'.
Proof.
  intros E [H1 H2 H3 H4]. split; [done| |done|done]. intros b Hb. rewrite (H2 b Hb).
  by setoid_rewrite (bslot_addrs V p q _ E).
Qed.

(** The table entry afterwards. *)
Definition reclaimed (p : inode) : inode :=
  mkInode (i_dev p) (i_inum p) 0 free_lock false 0 (i_major p) (i_minor p) (i_nlink p) 0 (replicate 13 0).

Lemma iput_free_run Q s V P I c k p :
  fr s V P ∅ None false I c → I !! k = Some p → i_dev p = dev → finv SB V p → vok V → 0 ≤ i_inum p < sb_ninodes SB → nroom P (nbitmap + 2) →
  i_ref p = 1 → i_valid p = true → i_nlink p = 0 → i_lock p = free_lock →
  (∀ s' V' P', freed V p (MAXFILE + 1) P V' P' →
     fr s' (iupdated SB (iupdated SB V' (i_inum p) (dinode_of (emptied p))) (i_inum p) (dinode_of (reclaimed p)))
       (P' ∪ {[IBLOCK (i_inum p) SB]}) ∅ None false (<[k := reclaimed p]> I) c → Q tt s') →
  wp (iput (iptr k)) Q s.
Proof.
  intros Hs Hp Ed Hf Hv Hn Hr Er Ev En El HQ. assert (k < length I)%nat as Hk by by eapply lookup_lt_Some.
  unfold iput. wp_run. eapply wp_itacquire; [exact Hs|]. clear s Hs. intros s Hs. wp_run.
  eapply wp_iload; [exact Hs|done|]. rewrite Er, Ev, En. cbn [Z.eqb Pos.eqb andb]. wp_run.
  eapply wp_iacquiresleep; [exact Hs|done|done|]. clear s Hs. intros s Hs. wp_run.
  eapply wp_itrelease; [exact Hs|]. clear s Hs. intros s Hs. wp_run.
  eapply itrunc_run; [exact Hs|by apply list_lookup_insert_eq|done|by apply (finv_addrs V p)|done|done|unfold FsFile.nroom in *; lia|].
  clear s Hs. intros s V1 P1 Hs Hfd. apply (freed_addrs _ _ p) in Hfd; [|done]. rewrite list_insert_insert_eq in Hs. wp_run.
  eapply wp_istore; [exact Hs|by apply list_lookup_insert_eq|]. clear s Hs. intros s Hs. rewrite list_insert_insert_eq in Hs. wp_run.
  eapply (iupdate_run dev SB l0 G); [exact Hs|by apply list_lookup_insert_eq|done|done|done|rewrite map_size_empty; lia| |].
  { pose proof (subseteq_size _ _ (fd_log _ _ _ _ _ _ Hfd)) as Hz. rewrite size_union_alt in Hz. pose proof (size_add SB G P1 (IBLOCK (i_inum p) SB)).
    assert (size (bitmap_blocks ∖ P) ≤ size bitmap_blocks)%nat by (apply subseteq_size; set_solver).
    pose proof size_bitmap. change (i_inum (set_i_lock _ p)) with (i_inum p). unfold FsFile.nroom, FsTx.room in *. lia. }
  clear s Hs. intros s Hs. wp_run.
  eapply wp_istore; [exact Hs|by apply list_lookup_insert_eq|]. clear s Hs. intros s Hs. rewrite list_insert_insert_eq in Hs. wp_run.
  eapply wp_ireleasesleep; [exact Hs|by apply list_lookup_insert_eq|done|]. clear s Hs. intros s Hs. rewrite list_insert_insert_eq in Hs. wp_run.
  eapply wp_itacquire; [exact Hs|]. clear s Hs. intros s Hs. wp_run.
  eapply wp_istore; [exact Hs|by apply list_lookup_insert_eq|]. clear s Hs. intros s Hs. rewrite list_insert_insert_eq in Hs. wp_run.
  eapply wp_itrelease; [exact Hs|]. clear s Hs. intros s Hs. eapply HQ; [exact Hfd|].
  replace (P1 ∪ {[IBLOCK (i_inum p) SB]}) with (P1 ∪ {[IBLOCK (i_inum p) SB]} ∪ {[IBLOCK (i_inum p) SB]}) by set_solver.
  assert (reclaimed p = set_i_ref (i32 (i_ref p - 1)) (set_i_lock free_lock (set_i_valid false (set_i_type 0 (emptied p))))) as ->.
  { rewrite Er. reflexivity. }
  exact Hs.
Qed.

End trunc.

(** The disk [V'] is the disk [V] without the file [p]: its blocks and its inode
    are free. *)
Definition without (SB : superblock) (V : Z → block) (p : inode) (V' : Z → block) : Prop :=
  d_type (dinode_at SB V' (i_inum p)) = 0 ∧ dsize SB V' (i_inum p) = 0 ∧
  ∀ b, 0 ≤ b < sb_size SB → free SB V' b ↔ free SB V b ∨ b ≠ 0 ∧ ∃ i, 0 ≤ i ≤ MAXFILE ∧ bslot V p i = b.
Definition same_free (SB : superblock) (V V' : Z → block) : Prop := ∀ b, 0 ≤ b < sb_size SB → free SB V' b ↔ free SB V b.

Section reclaim.
Context (SB : superblock) (G : fsgeo SB).

Lemma home_same_free V V' : same_home SB V V' → same_free SB V V'.
Proof. intros E b Hb. unfold free. by rewrite E by by apply (BBLOCK_home SB G). Qed.

Lemma dinode_ok_none ty maj mnr nl : short ty → short maj → short mnr → short nl → dinode_ok (mkD ty maj mnr nl 0 (replicate 13 0)).
Proof. intros. do 4 (split; [done|]). split; [by vm_compute|]. split; [done|]. apply Forall_replicate. by vm_compute. Qed.

(** The disk after [iput]. *)
Definition put_back (V' : Z → block) (p : inode) : Z → block :=
  iupdated SB (iupdated SB V' (i_inum p) (dinode_of (emptied p))) (i_inum p) (dinode_of (reclaimed p)).

Lemma dinode_put_back V p n : (∀ n, block_ok (V n)) → 0 ≤ i_inum p < sb_ninodes SB → dinode_ok (dinode_of p) → 0 ≤ n < sb_ninodes SB →
  dinode_at SB (put_back V p) n = if decide (n = i_inum p) then dinode_of (reclaimed p) else dinode_at SB V n.
Proof.
  intros HV Hp (H1 & H2 & H3 & H4 & _) Hn. unfold put_back.
  rewrite (dinode_iupdated SB G); [|apply block_ok_vset; [done|by apply block_ok_put_dinode]|done|done|by apply dinode_ok_none].
  case_decide; [done|]. rewrite (dinode_iupdated SB G); [by rewrite decide_False|done|done|done|by apply dinode_ok_none].
Qed.
Lemma put_back_other V p n : n ≠ IBLOCK (i_inum p) SB → put_back V p n = V n.
Proof. intros Hn. unfold put_back, iupdated. by rewrite !vset_other. Qed.

Lemma put_back_without V p P V' P' V'' : file_ok SB V p → freed SB V p (MAXFILE + 1) P V' P' → same_home SB (put_back V' p) V'' →
  without SB V p V''.
Proof.
  intros (Hn & _ & Hd & _) Hf E. destruct (fd_vok _ _ _ _ _ _ _ Hf) as [HV _].
  assert (dinode_at SB V'' (i_inum p) = dinode_of (reclaimed p)) as Ed.
  { rewrite (dinode_home SB G _ _ _ E Hn), (dinode_put_back V' p) by done. by rewrite decide_True. }
  split; [by rewrite Ed|]. split; [unfold dsize; by rewrite Ed|]. intros b Hb. rewrite (home_same_free _ _ E b Hb).
  assert (free SB (put_back V' p) b ↔ free SB V' b) as ->.
  { unfold free. rewrite put_back_other; [done|]. destruct (BBLOCK_range SB G b Hb) as [_ ?], (IBLOCK_range SB G _ Hn) as [_ ?]. lia. }
  rewrite (fd_free _ _ _ _ _ _ _ Hf b Hb). split; (intros [?|(? & i & ? & ?)]; [by left|right; split; [done|exists i; split; [lia|done]]]).
Qed.
Lemma put_back_file V p P V' P' V'' q : file_ok SB V p → freed SB V p (MAXFILE + 1) P V' P' → same_home SB (put_back V' p) V'' →
  file_ok SB V q → i_inum q ≠ i_inum p → same_file SB V V'' (i_inum q).
Proof.
  intros (Hn & _ & Hd & _) Hf E Hq Hne. pose proof Hq as (Hnq & _ & _ & Hfq & _). destruct (fd_vok _ _ _ _ _ _ _ Hf) as [HV _].
  destruct (IBLOCK_range SB G _ Hn) as [_ ?]. pose proof (bmap_dstart SB G). apply kept_file; [done| |].
  - rewrite (dinode_home SB G _ _ _ E Hnq), (dinode_put_back V' p) by done. rewrite decide_False by done. unfold dinode_at. f_equal.
    apply (fd_other _ _ _ _ _ _ _ Hf). left. apply (IBLOCK_range SB G _ Hnq).
  - intros i Hi Hz. destruct (f_rng _ _ _ Hfq _ Hi Hz) as [Hr _]. rewrite E by by apply (data_home SB G).
    rewrite put_back_other by lia. apply (fd_other _ _ _ _ _ _ _ Hf). right; lia.
Qed.

End reclaim.

(** C9. Dropping the last reference to a file without links gives the file back:
    its table entry and its inode become free, exactly its blocks, with the
    indirect block, become free, and every other file keeps its contents.  A crash
    in between leaves the free blocks and the file as they were, or everything
    given back. *)
Theorem iput_reclaims dev SB s I c k p :
  let V := dview s in
  dev ≠ 0 → fsgeo SB → fsq dev SB s I c → vok SB V → I !! k = Some p → i_dev p = dev → file_ok SB V p →
  i_ref p = 1 → i_valid p = true → i_nlink p = 0 → i_lock p = free_lock → nbitmap SB + 2 ≤ Z.min 29 (sb_nlog SB - 1) →
  ∃ s' W, in_tx (iput (iptr k)) s = OK tt s' ∧ fsq dev SB s' (<[k := reclaimed p]> I) c ∧ without SB V p (dview s') ∧
    (∀ q, file_ok SB V q → i_inum q ≠ i_inum p → same_file SB V (dview s') (i_inum q)) ∧
    wtrace (bcache (flog s')) = wtrace (bcache (flog s)) ++ W ∧
    ∀ pid j d, crash_loop dev SB pid (replay (disk (bcache (flog s))) (take j W)) d →
      ∃ l, boot dev SB d pid = OK tt l ∧
        (same_free SB V (dget (disk (bcache l))) ∧ same_file SB V (dget (disk (bcache l))) (i_inum p) ∧ (j < length W)%nat ∨
         without SB V p (dget (disk (bcache l)))).
Proof.
  intros V Hdev G Hq Hv Hp Ed Hfile Er Ev En El Hr. pose proof Hfile as (Hin & Hd & Hdok & Hf & _).
  destruct (in_tx_run dev SB G (iput (iptr k))
    (λ _ V2 I' c', c' = c ∧ I' = <[k := reclaimed p]> I ∧ ∃ V' P P', V2 = put_back SB V' p ∧ freed SB V p (MAXFILE + 1) P V' P') s I c Hdev Hq)
    as ([] & s' & V2 & I' & c' & W & E & Hq' & (-> & -> & V' & P & P' & -> & Hfd) & Hh & Hwt & Hcs & _).
  { intros s1 Hs1. eapply (iput_free_run dev SB (flog s1) G _ s1 V ∅ I c k p); [exact Hs1|done|done|done|done|done|unfold nroom; rewrite size_empty; lia|done|done|done|done|].
    intros s2 V' P' Hfd Hs2. do 4 eexists. split; [exact Hs2|]. split; [done|]. split; [done|]. do 3 eexists. split; [done|exact Hfd]. }
  exists s', W. split; [exact E|]. split; [done|]. split; [by eapply put_back_without|]. split; [|split; [done|]].
  - intros q Hq2 Hne. by apply (put_back_file SB G V p P V' P').
  - intros pid j d Hc. destruct (Hcs pid j d Hc) as (l & Hb & _ & [[Hold Hj]|Hnew]); exists l; (split; [exact Hb|]).
    + left. split; [by apply home_same_free|]. split; [|done]. by apply same_home_file.
    + right. by eapply put_back_without.
Qed.

(** ** Example: a file of one block *)

(** Block 46 belongs to inode 5, a file that is open and has no links. *)
Definition ex_tdisk : disk_t :=
  <[45 := [255; 255; 255; 255; 255; 127] ++ replicate 1018 0]>
  (<[32 := put_dinode 320 (mkD T_FILE 0 0 0 3 (46 :: replicate 12 0)) zero_block]> ∅).
Definition ex_tinode : inode := mkInode 1 5 1 free_lock true T_FILE 0 0 0 3 (46 :: replicate 12 0).
Definition ex_tfsst (l : logst) : fsst := mkFs ex_sb false (ex_tinode :: replicate 49 inode0) l 0.

Lemma ex_tslot V i : 0 ≤ i ≤ MAXFILE → bslot V ex_tinode i = if i =? 0 then 46 else 0.
Proof.
  intros Hi. rewrite MAXF in Hi. destruct (Z.eqb_spec i 0) as [->|Hn]; [done|].
  destruct (decide (i < 12)); [|apply bslot_none; [lia|reflexivity]]. rewrite bslot_direct by lia. unfold addr_of. cbn [i_addrs ex_tinode].
  replace (Z.to_nat i) with (S (Z.to_nat (i - 1))) by lia. rewrite <-(lookup_tail (46 :: replicate 12 0)). cbn [tail]. by rewrite lookup_replicate_2 by lia.
Qed.
Lemma ex_tfile_ok V : V 32 = dget ex_tdisk 32 → V 45 = dget ex_tdisk 45 → file_ok ex_sb V ex_tinode.
Proof.
  intros E E'. split; [cbn; lia|]. split; [|split; [|split; [split|split]]].
  - unfold dinode_at. change (IBLOCK (i_inum ex_tinode) ex_sb) with 32. rewrite E. vm_compute. reflexivity.
  - unfold dinode_ok, short, uint. cbn [dinode_of ex_tinode d_type d_major d_minor d_nlink d_size d_addrs i_type i_major i_minor i_nlink i_size i_addrs].
    unfold T_FILE. do 5 (split; [lia|]). split; [reflexivity|]. constructor; [lia|]. apply Forall_replicate. lia.
  - done.
  - intros i j Hi Hj. rewrite !ex_tslot by done. destruct (Z.eqb_spec i 0), (Z.eqb_spec j 0); intros; congruence.
  - intros i Hi. rewrite ex_tslot by done. destruct (Z.eqb_spec i 0) as [_|]; [|done]. intros _. split; [by vm_compute|].
    unfold free. rewrite BBLOCK_ex by lia. rewrite E'. by vm_compute.
  - by vm_compute.
  - cbn. intros i Hi Hlt. unfold BSIZE in Hlt. rewrite ex_tslot by (rewrite MAXF; lia). by replace i with 0 by lia.
Qed.

Lemma iput_reclaims_witness :
  ∃ l s', boot 1 ex_sb ex_tdisk 3 = OK tt l ∧ in_tx (iput (iptr 0)) (ex_tfsst l) = OK tt s' ∧ free ex_sb (dview s') 46.
Proof.
  destruct (disk_boot ex_tdisk) as (l & Eb & Hq & Hok & Hd); [vm_compute; reflexivity..|].
  destruct (free_ok ex_tdisk 8 (dget (disk (bcache l)))) as [Hv _]; [vm_compute; reflexivity|by apply Hd|done|].
  destruct (iput_reclaims 1 ex_sb (ex_tfsst l) (itable (ex_tfsst l)) 0 0 ex_tinode) as (s' & W & E & _ & (_ & _ & Hf) & _).
  - discriminate.
  - exact ex_geo.
  - by do 4 (split; [done|]).
  - exact Hv.
  - done.
  - done.
  - by apply ex_tfile_ok; apply Hd.
  - done.
  - done.
  - done.
  - done.
  - by vm_compute.
  - exists l, s'. split; [exact Eb|]. split; [exact E|]. refine (proj2 (Hf 46 _) (or_intror (conj _ (ex_intro _ 0 (conj _ _))))); [vm_compute; intuition congruence|discriminate|vm_compute; intuition congruence|reflexivity].
Defined.
