(* ===== verification/FsDir.v ===== *)
(** * Directories: [dirlookup] and [dirlink]

    A directory is a list of entries of 16 bytes, of which the first two are the
    inode number, 0 in a free entry, and the others the name. *)

From stdpp Require Import base gmap list strings numbers.
From S2P Require Import Prelude Block SleepLock Bio BioSpec Cache Log LogSpec Fs FsTx FsAlloc FsInode FsOp FsFile FsWrite.

(** ** Names *)

Notation bytes := (Forall (λ x, 0 ≤ x < 256)).

Lemma strncmp_list_eq n p q : length p = n → length q = n → bytes p → bytes q → (strncmp_list n p q =? 0) = bool_decide (cstr p = cstr q).
Proof.
  revert p q. induction n as [|n IH]; intros [|a p] [|b q] Hp Hq Hbp Hbq; try done. inversion Hbp; inversion Hbq; subst. cbn [strncmp_list cstr].
  unfold truthy. destruct (Z.eqb_spec a b) as [<-|Hne].
  - destruct (Z.eqb_spec a 0) as [->|Ha]; cbn [negb andb]; [done|]. rewrite IH by (done || (cbn in *; lia)).
    apply bool_decide_ext. split; congruence.
  - rewrite andb_false_r. rewrite i32_small by lia. rewrite (proj2 (Z.eqb_neq _ _)) by lia. symmetry. apply bool_decide_false.
    destruct (Z.eqb_spec a 0), (Z.eqb_spec b 0); congruence.
Qed.

Lemma length_strncpy_list n t : length (strncpy_list n t) = n.
Proof. revert t. induction n as [|n IH]; intros [|c t]; cbn; [done..|by rewrite length_replicate|]. destruct (c =? 0); cbn; [by rewrite length_replicate|by rewrite IH]. Qed.
Lemma bytes_strncpy_list n t : bytes t → bytes (strncpy_list n t).
Proof.
  revert t. induction n as [|n IH]; intros [|c t] Ht; cbn; [constructor..|constructor; [lia|by apply Forall_replicate]|]. inversion Ht; subst.
  destruct (c =? 0); constructor; try lia; [by apply Forall_replicate|auto].
Qed.
Lemma cstr_strncpy_list n t : length t = n → cstr (strncpy_list n t) = cstr t.
Proof.
  revert t. induction n as [|n IH]; intros [|c t] Ht; cbn; try done. destruct (Z.eqb_spec c 0) as [->|Hc]; [done|].
  cbn. rewrite (proj2 (Z.eqb_neq c 0)) by done. f_equal. apply IH. by injection Ht.
Qed.

(** ** Entries *)

Lemma de_inum_mk n name : de_inum (mk_dirent n name) = n mod 65536.
Proof.
  unfold de_inum, mk_dirent, rd16, rd_bytes. change (Z.to_nat 0) with 0%nat. rewrite drop_0. rewrite (take_app_length' (le_bytes 2 n)) by done. apply (le_val_le_bytes 2).
Qed.
Lemma de_name_mk n name : de_name (mk_dirent n name) = strncpy_list 14 name.
Proof.
  unfold de_name, mk_dirent, rd_bytes. change (Z.to_nat DIRSIZ) with 14%nat. rewrite (drop_app_length' _ _ (Z.to_nat 2)) by done.
  apply take_ge. by rewrite length_strncpy_list.
Qed.

(** The first entry with the name [nm]: its inode number and offset. *)
Fixpoint dfind (nm : list Z) (off : Z) (es : list (list Z)) : option (Z * Z) :=
  match es with
  | de :: es => if negb (de_inum de =? 0) && bool_decide (nm = cstr (de_name de)) then Some (de_inum de, off) else dfind nm (off + 16) es
  | [] => None
  end.

(** The offset of the first free entry, or of the end. *)
Fixpoint dslot (off : Z) (es : list (list Z)) : Z :=
  match es with de :: es => if de_inum de =? 0 then off else dslot (off + 16) es | [] => off end.

Definition entries (V : Z → block) (p : inode) : list (list Z) := (λ j, fbytes V p (16 * j) 16) <$> seqZ 0 (i_size p / 16).

(** The directory has whole entries. *)
Definition dir_ok (V : Z → block) (p : inode) : Prop := i_type p = T_DIR ∧ i_size p mod 16 = 0 ∧ full V p.

Lemma entries_lookup V p j : 0 ≤ j < i_size p / 16 → entries V p !! Z.to_nat j = Some (fbytes V p (16 * j) 16).
Proof. intros Hj. unfold entries. rewrite list_lookup_fmap, lookup_seqZ_lt by lia. cbn. do 2 f_equal. lia. Qed.
Lemma length_entries V p : length (entries V p) = Z.to_nat (i_size p / 16).
Proof. unfold entries. by rewrite length_fmap, length_seqZ. Qed.

(** Where a new entry goes. *)
Lemma dslot_spec off es : ∃ j, (j ≤ length es)%nat ∧ dslot off es = off + 16 * Z.of_nat j ∧ ∀ de, es !! j = Some de → de_inum de = 0.
Proof.
  revert off. induction es as [|de es IH]; intros off; cbn [dslot].
  - exists 0%nat. split; [done|]. split; [lia|done].
  - destruct (Z.eqb_spec (de_inum de) 0) as [E|E].
    + exists 0%nat. split; [lia|]. split; [lia|]. cbn. by intros ? [= <-].
    + destruct (IH (off + 16)) as (j & Hj & -> & Hde). exists (S j). split; [cbn; lia|]. split; [lia|done].
Qed.

(** The entries with [e] at position [j]. *)
Definition put_entry (j : nat) (e : list Z) (es : list (list Z)) : list (list Z) := take j es ++ e :: drop (S j) es.

Lemma dfind_put_other nm off j e es : (j ≤ length es)%nat → (∀ de, es !! j = Some de → de_inum de = 0) → nm ≠ cstr (de_name e) →
  dfind nm off (put_entry j e es) = dfind nm off es.
Proof.
  revert off j. induction es as [|de es IH]; intros off [|j] Hj Hde Hn; cbn in Hj; try lia; unfold put_entry; cbn.
  - by rewrite bool_decide_false, andb_false_r.
  - rewrite bool_decide_false, andb_false_r by done. by rewrite (Hde de eq_refl), drop_0.
  - destruct (_ && _); [done|]. apply IH; [lia|done|done].
Qed.
Lemma dfind_put nm off j e es : (j ≤ length es)%nat → dfind nm off es = None → nm = cstr (de_name e) → de_inum e ≠ 0 →
  dfind nm off (put_entry j e es) = Some (de_inum e, off + 16 * Z.of_nat j).
Proof.
  intros Hj Hn -> He. revert off j Hj Hn. induction es as [|de es IH]; intros off [|j] Hj Hn; cbn in Hj; try lia; unfold put_entry; cbn.
  - rewrite (proj2 (Z.eqb_neq _ _)), bool_decide_true by done. cbn. do 2 f_equal. lia.
  - rewrite (proj2 (Z.eqb_neq _ _)), bool_decide_true by done. cbn. do 2 f_equal. lia.
  - cbn in Hn. destruct (_ && _); [done|]. unfold put_entry in IH. rewrite IH; [do 2 f_equal; lia|lia|done].
Qed.

Section dir.
Context (dev : Z) (SB : superblock) (l0 : logst) (G : fsgeo SB).
Notation fr := (fr dev SB l0).

Lemma fbytes_bytes V p off n : (∀ n, block_ok (V n)) → bytes (fbytes V p off n).
Proof.
  intros HV. apply Forall_fmap, Forall_true. intros o. cbn. unfold fbyte. destruct (_ =? 0); [lia|].
  destruct (HV (bslot V p (o / BSIZE))) as [_ Hb]. destruct (V _ !! _) as [x|] eqn:E; cbn; [|lia]. exact (Forall_lookup_1 _ _ _ _ Hb E).
Qed.

(** One entry is read. *)
Lemma dirent_read Q s V P it I c k p j :
  fr s V P ∅ None it I c → I !! k = Some p → i_dev p = dev → (∀ n, block_ok (V n)) → dir_ok V p → (size P < 30)%nat → 0 ≤ j < i_size p / 16 →
  (∀ s', fr s' V P ∅ None it I c → Q (fbytes V p (16 * j) 16, 16) s') →
  wp (readi (iptr k) to_var [] (16 * j) DIRENT_size) Q s.
Proof.
  intros Hs Hp Ed HV (Ht & Hm & Hfull) Hr Hj HQ. pose proof Hfull as [Hsz _]. change (MAXFILE * BSIZE) with 274432 in Hsz.
  assert (16 * j + 16 ≤ i_size p) by zlia. change DIRENT_size with 16.
  eapply (readi_run dev SB l0 G); [exact Hs|done..|lia|lia|lia|]. intros s' Hs'. cbv zeta. replace (Z.min 16 (i_size p - 16 * j)) with 16 by lia. by apply HQ.
Qed.

Lemma dirlookup_run Q s V P it I c k p name :
  fr s V P ∅ None it I c → I !! k = Some p → i_dev p = dev → (∀ n, block_ok (V n)) → dir_ok V p → (size P < 30)%nat →
  length name = 14%nat → bytes name →
  (dfind (cstr name) 0 (entries V p) = None → ∀ s', fr s' V P ∅ None it I c → Q (0, 0) s') →
  (∀ n off, dfind (cstr name) 0 (entries V p) = Some (n, off) → ∀ s', fr s' V P ∅ None it I c → wp (iget dev n) (λ ip, Q (ip, off)) s') →
  wp (dirlookup (iptr k) name) Q s.
Proof.
  intros Hs Hp Ed HV Hd Hr Hl Hb HN HS. pose proof Hd as (Ht & Hm & [Hsz _]). change (MAXFILE * BSIZE) with 274432 in Hsz.
  unfold dirlookup. wp_run. eapply wp_iload; [exact Hs|done|]. rewrite Ht. cbn [Z.eqb negb T_DIR].
  assert (0 ≤ i_size p / 16) as Hn0 by zlia. change DIRENT_size with 16.
  eapply (wp_loop (λ off s', ∃ j, off = 16 * j ∧ 0 ≤ j ≤ i_size p / 16 ∧ fr s' V P ∅ None it I c ∧
      dfind (cstr name) 0 (entries V p) = dfind (cstr name) (16 * j) (drop (Z.to_nat j) (entries V p)))
    (λ off _, Z.to_nat (i_size p / 16 - off / 16))); [zlia| |].
  { exists 0. split; [done|]. split; [lia|]. split; [done|done]. }
  clear s Hs. intros off s (j & -> & Hj & Hs & Hd'). unfold dirlookup_turn. wp_run. eapply wp_iload; [exact Hs|done|].
  destruct (Z.ltb_spec (16 * j) (i_size p)) as [Hlt|Hge].
  - assert (0 ≤ j < i_size p / 16) as Hj' by zlia. wp_run. eapply dirent_read; [exact Hs|done..|]. clear s Hs. intros s Hs. wp_run.
    change (16 =? DIRENT_size) with true. cbn [negb].
    rewrite (drop_S _ _ _ (entries_lookup V p j Hj')) in Hd'. cbn [dfind] in Hd'. set (de := fbytes V p (16 * j) 16) in *.
    assert (namecmp name (de_name de) =? 0 = bool_decide (cstr name = cstr (de_name de))) as En.
    { apply strncmp_list_eq; [done| |done|]; unfold de_name, rd_bytes.
      - rewrite length_take, length_drop. unfold de. by rewrite length_fbytes.
      - apply Forall_take, Forall_drop. by apply fbytes_bytes. }
    replace (16 * j + 16) with (16 * (j + 1)) in Hd' by lia. replace (S (Z.to_nat j)) with (Z.to_nat (j + 1)) in Hd' by lia.
    assert (u32 (16 * j + DIRENT_size) = 16 * (j + 1)) as -> by (change DIRENT_size with 16; rewrite u32_small by lia; lia).
    rewrite En. destruct (Z.eqb_spec (de_inum de) 0) as [E0|E0]; cbn [negb andb] in Hd'; [|destruct (bool_decide _)].
    + wp_run. split; [|zlia]. exists (j + 1). split; [done|]. split; [lia|]. by split.
    + wp_run. rewrite Ed. eapply wp_mono; [by eapply HS|]. cbv beta. intros ip s' HQ. by wp_run.
    + wp_run. split; [|zlia]. exists (j + 1). split; [done|]. split; [lia|]. by split.
  - wp_run. replace j with (i_size p / 16) in Hd' by zlia. rewrite drop_ge in Hd' by (rewrite length_entries; lia). by apply HN.
Qed.

(** What a written entry makes of the list of entries. *)
Lemma written_entries V p V' p' j e : (j ≤ length (entries V p))%nat → dir_ok V p → length e = 16%nat → 16 * Z.of_nat j + 16 ≤ MAXFILE * BSIZE →
  written SB (16 * Z.of_nat j) e V p V' p' → entries V' p' = put_entry j e (entries V p) ∧ dir_ok V' p'.
Proof.
  intros Hj (Ht & Hm & [Hsz _]) He Hle Hw. change (MAXFILE * BSIZE) with 274432 in *. rewrite length_entries in Hj. destruct (wn_fields _ _ _ _ _ _ _ Hw) as [l El].
  assert (i_size p' = Z.max (i_size p) (16 * Z.of_nat j + 16)) as Es by (rewrite El; cbn; by rewrite He).
  split; [|split; [by rewrite El|split; [rewrite Es; zlia|apply (wn_full _ _ _ _ _ _ _ Hw)]]].
  assert (∀ i, 0 ≤ i < i_size p' / 16 → fbytes V' p' (16 * i) 16 = if decide (i = Z.of_nat j) then e else fbytes V p (16 * i) 16) as Hent.
  { intros i Hi. apply list_eq. intros m. destruct (decide (m < 16)%nat) as [Hm16|Hm16].
    - assert (fbytes V' p' (16 * i) 16 !! m = Some (fbyte V' p' (16 * i + Z.of_nat m))) as ->.
      { unfold fbytes. by rewrite list_lookup_fmap, lookup_seqZ_lt by lia. }
      rewrite (wn_byte _ _ _ _ _ _ _ Hw) by (change (MAXFILE * BSIZE) with 274432; zlia). rewrite He. destruct (decide (i = Z.of_nat j)) as [->|Hne].
      + rewrite (proj2 (Z.leb_le _ _)), (proj2 (Z.ltb_lt _ _)) by lia. cbn [andb]. unfold at_off. replace (Z.to_nat _) with m by lia.
        destruct (lookup_lt_is_Some_2 e m) as [x ->]; [lia|done].
      + assert ((16 * Z.of_nat j <=? 16 * i + Z.of_nat m) && (16 * i + Z.of_nat m <? 16 * Z.of_nat j + Z.of_nat 16) = false) as ->.
        { destruct (Z.leb_spec (16 * Z.of_nat j) (16 * i + Z.of_nat m)); [|done]. apply Z.ltb_ge. lia. }
        unfold fbytes. by rewrite list_lookup_fmap, lookup_seqZ_lt by lia.
    - rewrite !lookup_ge_None_2; [done| |]; [case_decide; [lia|]|]; rewrite length_fbytes; lia. }
  apply list_eq. intros i. destruct (decide (i < length (entries V' p'))%nat) as [Hi|Hi].
  - rewrite length_entries in Hi. replace i with (Z.to_nat (Z.of_nat i)) at 1 by lia. rewrite entries_lookup by lia. rewrite Hent by lia. unfold put_entry.
    destruct (lt_eq_lt_dec i j) as [[Hlt| ->]|Hgt].
    + rewrite decide_False by lia. rewrite lookup_app_l by (rewrite length_take, length_entries; lia). rewrite lookup_take_lt by done.
      replace i with (Z.to_nat (Z.of_nat i)) at 2 by lia. rewrite entries_lookup by lia. done.
    + rewrite decide_True by done. rewrite lookup_app_r by (rewrite length_take, length_entries; lia). rewrite length_take, length_entries.
      by replace (j - _)%nat with 0%nat by lia.
    + rewrite decide_False by lia. rewrite lookup_app_r by (rewrite length_take, length_entries; lia). rewrite length_take, length_entries.
      replace (i - j `min` Z.to_nat (i_size p / 16))%nat with (S (i - S j)) by lia.
      change ((e :: drop (S j) (entries V p)) !! S (i - S j)) with (drop (S j) (entries V p) !! (i - S j)%nat). rewrite lookup_drop. replace (S j + (i - S j))%nat with (Z.to_nat (Z.of_nat i)) by lia.
      rewrite entries_lookup; [done|]. zlia.
  - rewrite !lookup_ge_None_2; [done| |lia]. unfold put_entry. rewrite length_app. cbn. rewrite length_take, length_drop. rewrite !length_entries in *. zlia.
Qed.

Lemma dirlink_scan_run (Q : Z → fsst → Prop) s V P it I c k p :
  fr s V P ∅ None it I c → I !! k = Some p → i_dev p = dev → (∀ n, block_ok (V n)) → dir_ok V p → (size P < 30)%nat →
  (∀ s', fr s' V P ∅ None it I c → Q (dslot 0 (entries V p)) s') →
  wp (loop (Z.to_nat (i_size p / DIRENT_size) + 2) (dirlink_turn (iptr k)) 0) Q s.
Proof.
  intros Hs Hp Ed HV Hd Hr HQ. pose proof Hd as (Ht & Hm & [Hsz _]). change (MAXFILE * BSIZE) with 274432 in Hsz.
  assert (0 ≤ i_size p / 16) as Hn0 by zlia. change DIRENT_size with 16.
  eapply (wp_loop (λ off s', ∃ j, off = 16 * j ∧ 0 ≤ j ≤ i_size p / 16 ∧ fr s' V P ∅ None it I c ∧
      dslot 0 (entries V p) = dslot (16 * j) (drop (Z.to_nat j) (entries V p)))
    (λ off _, Z.to_nat (i_size p / 16 - off / 16))); [zlia| |].
  { exists 0. split; [done|]. split; [lia|]. split; [done|done]. }
  clear s Hs. intros off s (j & -> & Hj & Hs & Hd'). unfold dirlink_turn. wp_run. eapply wp_iload; [exact Hs|done|].
  destruct (Z.ltb_spec (16 * j) (i_size p)) as [Hlt|Hge].
  - assert (0 ≤ j < i_size p / 16) as Hj' by zlia. wp_run. eapply dirent_read; [exact Hs|done..|]. clear s Hs. intros s Hs. wp_run.
    change (16 =? DIRENT_size) with true. cbn [negb]. rewrite (drop_S _ _ _ (entries_lookup V p j Hj')) in Hd'. cbn [dslot] in Hd'.
    destruct (Z.eqb_spec (de_inum (fbytes V p (16 * j) 16)) 0) as [E0|E0]; wp_run; [rewrite <-Hd'; by apply HQ|].
    split; [|change DIRENT_size with 16; zlia]. exists (j + 1). split; [change DIRENT_size with 16; lia|]. split; [lia|]. split; [done|]. rewrite Hd'. f_equal; [lia|]. f_equal. lia.
  - wp_run. replace j with (i_size p / 16) in Hd' by zlia. rewrite drop_ge in Hd' by (rewrite length_entries; lia). cbn [dslot] in Hd'.
    replace (16 * j) with (16 * (i_size p / 16)) by zlia. rewrite <-Hd'. by apply HQ.
Qed.

Lemma turns_entry j : (turns (16 * Z.of_nat j) 16 0 ≤ 1)%nat.
Proof. unfold turns, BSIZE. cbn [Z.ltb Z.compare]. zlia. Qed.
Lemma length_mk_dirent n name : length (mk_dirent n name) = 16%nat.
Proof. unfold mk_dirent. rewrite length_app, length_strncpy_list. done. Qed.
Lemma bytes_mk_dirent n name : bytes name → bytes (mk_dirent n name).
Proof. intros Hb. apply Forall_app. split; [apply le_bytes_range|by apply bytes_strncpy_list]. Qed.

Lemma dirlink_run Q s V P it I c k p name n :
  fr s V P ∅ None it I c → I !! k = Some p → i_dev p = dev → 0 ≤ i_inum p < sb_ninodes SB → dinode_ok (dinode_of p) → finv SB V p → vok SB V → dir_ok V p →
  length name = 14%nat → bytes name → dfind (cstr name) 0 (entries V p) = None → i_size p + 16 ≤ MAXFILE * BSIZE → (2 ≤ nfree SB V)%nat → nroom SB P 7 →
  (∀ s' V' P' p' j, fr s' V' P' ∅ None it (<[k := p']> I) c → (j ≤ length (entries V p))%nat → (∀ de, entries V p !! j = Some de → de_inum de = 0) →
     written SB (16 * Z.of_nat j) (mk_dirent n name) V p V' p' → (size P' ≤ size P + 7)%nat → Q 0 s') →
  wp (dirlink (iptr k) name n) Q s.
Proof.
  intros Hs Hp Ed Hn Hdok Hf Hv Hd Hl Hb Hnone Hsz Hnf Hr HQ. pose proof Hd as (Ht & Hm & Hfull). pose proof Hfull as [Hsz0 _].
  change (MAXFILE * BSIZE) with 274432 in Hsz0, Hsz. unfold nroom in Hr. unfold dirlink. wp_run.
  eapply dirlookup_run; [exact Hs|done|done|apply Hv|done|lia|done|done| |by rewrite Hnone]. intros _. clear s Hs. intros s Hs. wp_run. cbn [Z.eqb negb].
  wp_run. eapply wp_iload; [exact Hs|done|]. wp_run.
  eapply dirlink_scan_run; [exact Hs|done|done|apply Hv|done|lia|]. clear s Hs. intros s Hs. wp_run.
  destruct (dslot_spec 0 (entries V p)) as (j & Hj & -> & Hfree). change (0 + 16 * Z.of_nat j) with (16 * Z.of_nat j). pose proof (turns_entry j) as Htu.
  assert (16 * Z.of_nat j ≤ i_size p) as Hjs by (rewrite length_entries in Hj; zlia). change DIRENT_size with (Z.of_nat 16). rewrite <-(length_mk_dirent n name).
  eapply (writei_run dev SB l0 G); [exact Hs|done..|by apply bytes_mk_dirent|lia| | | |]; rewrite ?length_mk_dirent; change (Z.of_nat 16) with 16.
  - change (MAXFILE * BSIZE) with 274432. lia.
  - left. lia.
  - unfold nroom. lia.
  - intros s' V' P' p' Hs' Hw HP'. cbn [Z.eqb Pos.eqb negb]. wp_run. eapply (HQ s' V' P' p' j); [done..|lia].
Qed.

End dir.
