(* ===== verification/FsTable.v ===== *)
(** * The table of in-memory inodes

    What [iget], [ilock], [iunlock], [idup] and [iput] do to the table as a whole:
    how many references there are to each inode, how many entries are free, and
    that the entries agree with the disk. *)

From stdpp Require Import base gmap list strings numbers.
From S2P Require Import Prelude Block SleepLock Bio BioSpec Cache Log LogSpec Fs FsTx FsAlloc FsInode FsOp FsFile FsWrite.

Section table.
Context (dev : Z) (SB : superblock) (l0 : logst) (G : fsgeo SB).
Notation fr := (fr dev SB l0).
Notation pid := (lpid l0).
Notation hits := (hits dev).

(** The references to inode [n], and the free entries. *)
Definition weight (n : Z) (p : inode) : Z := if (i_dev p =? dev) && (i_inum p =? n) then i_ref p else 0.
Definition ref_of (I : list inode) (n : Z) : Z := foldr (λ p x, weight n p + x) 0 I.
Definition slots (I : list inode) : Z := foldr (λ p x, (if i_ref p =? 0 then 1 else 0) + x) 0 I.

Lemma foldr_insert_add {A} (w : A → Z) (I : list A) k p q : I !! k = Some p →
  foldr (λ p x, w p + x) 0 (<[k := q]> I) = foldr (λ p x, w p + x) 0 I - w p + w q.
Proof.
  revert k. induction I as [|x I IH]; intros [|k] Hk; try done; cbn in Hk.
  - injection Hk as ->. cbn. lia.
  - change (<[S k := q]> (x :: I)) with (x :: <[k := q]> I). cbn [foldr]. rewrite (IH k Hk). lia.
Qed.
Lemma ref_of_insert I k p q n : I !! k = Some p → ref_of (<[k := q]> I) n = ref_of I n - weight n p + weight n q.
Proof. apply (foldr_insert_add (weight n)). Qed.
Lemma slots_insert I k p q : I !! k = Some p →
  slots (<[k := q]> I) = slots I - (if i_ref p =? 0 then 1 else 0) + (if i_ref q =? 0 then 1 else 0).
Proof. apply (foldr_insert_add (λ p, if i_ref p =? 0 then 1 else 0)). Qed.

(** The table agrees with the disk [V], and [L] are the entries the process has
    locked. *)
Record tbl (V : Z → block) (L : list nat) (I : list inode) : Prop := mkTbl {
  t_len : length I = 50%nat;
  t_ref : ∀ k p, I !! k = Some p → 0 ≤ i_ref p;
  t_dev : ∀ k p, I !! k = Some p → 0 < i_ref p → i_dev p = dev ∧ 0 ≤ i_inum p < sb_ninodes SB;
  t_sync : ∀ k p, I !! k = Some p → 0 < i_ref p → i_valid p = true → dinode_of p = dinode_at SB V (i_inum p);
  t_uniq : ∀ j k p q, I !! j = Some p → I !! k = Some q → 0 < i_ref p → 0 < i_ref q → i_inum p = i_inum q → j = k;
  t_lock : ∀ k p, I !! k = Some p → i_lock p = if decide (k ∈ L) then mkSL false true pid else free_lock;
}.

Lemma weight_nonneg n p : 0 ≤ i_ref p → 0 ≤ weight n p.
Proof. unfold weight. destruct (_ && _); lia. Qed.
Lemma ref_of_nonneg I n : (∀ k p, I !! k = Some p → 0 ≤ i_ref p) → 0 ≤ ref_of I n.
Proof.
  induction I as [|p I IH]; intros H; cbn; [lia|]. pose proof (weight_nonneg n p (H 0%nat p eq_refl)).
  specialize (IH (λ k q, H (S k) q)). fold (ref_of I n). lia.
Qed.
Lemma ref_of_zero I n : (∀ k p, I !! k = Some p → weight n p = 0) → ref_of I n = 0.
Proof.
  induction I as [|p I IH]; intros H; cbn; [done|]. rewrite (H 0%nat p eq_refl). apply (IH (λ k q, H (S k) q)).
Qed.
Lemma ref_of_ge I k p n : (∀ k p, I !! k = Some p → 0 ≤ i_ref p) → I !! k = Some p → weight n p ≤ ref_of I n.
Proof.
  intros H Hp. pose proof (ref_of_insert I k p (set_i_ref 0 p) n Hp) as E.
  assert (weight n (set_i_ref 0 p) = 0) as Ew by (unfold weight; cbn; by destruct (_ && _)). rewrite Ew in E.
  enough (0 ≤ ref_of (<[k := set_i_ref 0 p]> I) n) by lia. apply ref_of_nonneg. intros j q Hq.
  destruct (decide (j = k)) as [->|Hne]; [|rewrite list_lookup_insert_ne in Hq by done; eauto].
  rewrite list_lookup_insert_eq in Hq by by eapply lookup_lt_Some. injection Hq as <-. cbn. lia.
Qed.

Lemma hits_spec n p : hits n p = true ↔ 0 < i_ref p ∧ i_dev p = dev ∧ i_inum p = n.
Proof. unfold FsInode.hits. rewrite !andb_true_iff, Z.ltb_lt, !Z.eqb_eq. tauto. Qed.

(** A referenced inode has one entry, which counts all references. *)
Lemma ref_of_hit V L I k p n : tbl V L I → I !! k = Some p → hits n p = true → ref_of I n = i_ref p.
Proof.
  intros Ht Hp (H1 & H2 & H3)%hits_spec. pose proof (ref_of_insert I k p (set_i_ref 0 p) n Hp) as E.
  assert (weight n (set_i_ref 0 p) = 0) as Ew by (unfold weight; cbn; by destruct (_ && _)).
  assert (weight n p = i_ref p) as Ep by (unfold weight; by rewrite H2, H3, !Z.eqb_refl). rewrite Ew, Ep in E.
  enough (ref_of (<[k := set_i_ref 0 p]> I) n = 0) by lia. apply ref_of_zero. intros j q Hq.
  destruct (decide (j = k)) as [->|Hne].
  - rewrite list_lookup_insert_eq in Hq by by eapply lookup_lt_Some. by injection Hq as <-.
  - rewrite list_lookup_insert_ne in Hq by done. unfold weight. destruct (Z.eqb_spec (i_dev q) dev), (Z.eqb_spec (i_inum q) n); cbn; try done.
    pose proof (t_ref _ _ _ Ht j q Hq). destruct (decide (i_ref q = 0)); [done|]. destruct Hne. by eapply (t_uniq _ _ _ Ht j k q p); try done; [lia|congruence].
Qed.
Lemma ref_of_miss V L I n : tbl V L I → (∀ k p, I !! k = Some p → hits n p = false) → ref_of I n = 0.
Proof.
  intros Ht H. apply ref_of_zero. intros k p Hp. specialize (H k p Hp). pose proof (t_ref _ _ _ Ht k p Hp).
  unfold weight. destruct (Z.eqb_spec (i_dev p) dev) as [E1|], (Z.eqb_spec (i_inum p) n) as [E2|]; cbn; try done.
  destruct (decide (i_ref p = 0)); [done|]. assert (hits n p = true); [|congruence]. apply hits_spec. split; [lia|done].
Qed.
Lemma slots_pos I : 0 < slots I → ∃ k p, I !! k = Some p ∧ i_ref p = 0.
Proof.
  induction I as [|p I IH]; cbn; [lia|]. fold (slots I). destruct (Z.eqb_spec (i_ref p) 0) as [E|E]; intros H.
  - exists 0%nat, p. done.
  - destruct IH as (k & q & Hq & E'); [lia|]. exists (S k), q. done.
Qed.

(** One entry changes. *)
Lemma tbl_insert V L L' I k p q : tbl V L I → I !! k = Some p → 0 ≤ i_ref q →
  (0 < i_ref q → i_dev q = dev ∧ 0 ≤ i_inum q < sb_ninodes SB ∧ (i_valid q = true → dinode_of q = dinode_at SB V (i_inum q)) ∧
     ∀ j r, I !! j = Some r → j ≠ k → 0 < i_ref r → i_inum r ≠ i_inum q) →
  i_lock q = (if decide (k ∈ L') then mkSL false true pid else free_lock) → (∀ j, j ≠ k → (j ∈ L' ↔ j ∈ L)) →
  tbl V L' (<[k := q]> I).
Proof.
  intros [H1 H2 H3 H4 H5 H6] Hp Hq0 Hq Hl HL. assert (k < length I)%nat as Hk by by eapply lookup_lt_Some.
  assert (∀ j r, <[k := q]> I !! j = Some r → j = k ∧ r = q ∨ j ≠ k ∧ I !! j = Some r) as Hlk.
  { intros j r. destruct (decide (j = k)) as [->|Hne]; [rewrite list_lookup_insert_eq by done; intros [= ->]; by left|].
    rewrite list_lookup_insert_ne by done. by right. }
  split.
  - by rewrite length_insert.
  - intros j r [[-> ->]|[_ Hr]]%Hlk; eauto.
  - intros j r [[-> ->]|[_ Hr]]%Hlk Hpos; [by destruct (Hq Hpos) as (? & ? & _)|eauto].
  - intros j r [[-> ->]|[_ Hr]]%Hlk Hpos Hv; [|eauto]. destruct (Hq Hpos) as (_ & _ & Hs & _). auto.
  - intros i j r r' [[-> ->]|[Hi Hr]]%Hlk [[-> ->]|[Hj Hr']]%Hlk Hpos Hpos' E; [done| | |by eapply H5].
    + exfalso. destruct (Hq Hpos) as (_ & _ & _ & Hu). by eapply Hu.
    + exfalso. destruct (Hq Hpos') as (_ & _ & _ & Hu). by eapply Hu.
  - intros j r [[-> ->]|[Hj Hr]]%Hlk; [done|]. rewrite (H6 j r Hr). specialize (HL j Hj). destruct (decide (j ∈ L)), (decide (j ∈ L')); try done; exfalso; tauto.
Qed.

(** Entry [k] is the inode [n] in use. *)
Definition entry (I : list inode) (k : nat) (n : Z) (v : bool) : Prop :=
  ∃ p, I !! k = Some p ∧ i_inum p = n ∧ 0 < i_ref p ∧ (v = true → i_valid p = true).

Definition one (b : bool) : Z := if b then 1 else 0.

Lemma entry_hits V L I k n v : tbl V L I → entry I k n v → ∃ p, I !! k = Some p ∧ hits n p = true ∧ (v = true → i_valid p = true) ∧ ref_of I n = i_ref p.
Proof.
  intros Ht (p & Hp & En & Hr & Hv). destruct (t_dev _ _ _ Ht k p Hp Hr) as [Hd _].
  assert (hits n p = true) as Hh by by apply hits_spec. exists p. split; [done|]. split; [done|]. split; [done|]. by eapply ref_of_hit.
Qed.
Lemma entry_ref V L I k n v : tbl V L I → entry I k n v → 0 < ref_of I n.
Proof. intros Ht He. destruct (entry_hits _ _ _ _ _ _ Ht He) as (p & _ & Hh & _ & ->). by apply hits_spec in Hh as (? & _). Qed.
Lemma weight_hits n p m : hits n p = true → weight m p = if m =? n then i_ref p else 0.
Proof. intros (_ & Hd & Hn)%hits_spec. unfold weight. rewrite Hd, Hn, Z.eqb_refl. cbn. by rewrite Z.eqb_sym. Qed.
Lemma entry_insert I k p q j m v : I !! k = Some p → i_inum q = i_inum p → (i_valid p = true → i_valid q = true) → (m = i_inum p → 0 < i_ref q) →
  entry I j m v → entry (<[k := q]> I) j m v.
Proof.
  intros Hp En Hv Hr (r & Hrl & Em & Hpos & Hval). destruct (decide (j = k)) as [->|Hne].
  - rewrite Hp in Hrl. injection Hrl as <-. exists q. split; [apply list_lookup_insert_eq; by eapply lookup_lt_Some|]. split; [congruence|]. split; [by apply Hr|auto].
  - exists r. split; [by rewrite list_lookup_insert_ne|done].
Qed.

Definition bounded (I : list inode) (b : Z) : Prop := ∀ m, ref_of I m ≤ b.

Lemma refs_bounded V L I b : tbl V L I → bounded I b → Forall (λ p, 0 ≤ i_ref p ≤ b ∨ i_ref p = 0) I.
Proof.
  intros Ht Hb. apply Forall_lookup. intros k p Hp. pose proof (t_ref _ _ _ Ht k p Hp). destruct (decide (i_ref p = 0)); [by right|]. left.
  destruct (t_dev _ _ _ Ht k p Hp) as [Hd _]; [lia|]. assert (hits (i_inum p) p = true) as Hh by (apply hits_spec; split; [lia|done]).
  pose proof (Hb (i_inum p)). rewrite (ref_of_hit V L I k p) in * by done. lia.
Qed.

Lemma t_iget Q s V P H X L I c n b :
  fr s V P H X false I c → tbl V L I → 0 ≤ n < sb_ninodes SB → bounded I b → b < 2147483647 → 0 < slots I ∨ 0 < ref_of I n →
  (∀ k I' s', fr s' V P H X false I' c → tbl V L I' → entry I' k n false → (∀ m, ref_of I' m = ref_of I m + one (m =? n)) →
     slots I' = slots I - one (ref_of I n =? 0) → (∀ j m v, entry I j m v → entry I' j m v) → Q (iptr k) s') →
  wp (iget dev n) Q s.
Proof.
  intros Hs Ht Hn Hb Hb2 Hsl HQ. eapply (iget_run dev SB l0 _ s V P H X I c n).
  - exact Hs.
  - apply (t_len _ _ _ Ht).
  - eapply Forall_impl; [|exact (refs_bounded V L I b Ht Hb)]. cbn. lia.
  - destruct Hsl as [Hsl|Hsl]; [destruct (slots_pos I Hsl) as (k & p & Hp & E); exists k, p; by auto|].
    destruct (decide (Exists (λ p, hits n p = true) I)) as [(p & Hp & Hh)%Exists_exists|Hno].
    + apply list_elem_of_In, list_elem_of_lookup in Hp as [k Hk]. exists k, p. auto.
    + exfalso. rewrite (ref_of_miss V L I n Ht) in Hsl; [lia|]. intros k p Hp. destruct (hits n p) eqn:E; [|done]. destruct Hno.
      apply Exists_exists. exists p. split; [by eapply list_elem_of_In, list_elem_of_lookup_2|done].
  - intros k p s' Hp Hh _ Hs'. pose proof Hh as (Hr & Hd & En)%hits_spec. assert (k < length I)%nat as Hk by by eapply lookup_lt_Some.
    eapply HQ; [exact Hs'| | | | |].
    + eapply tbl_insert; [done|done|cbn; lia| | |done]; [|cbn; by apply (t_lock _ _ _ Ht)]. intros _. cbn. split; [done|]. split; [lia|].
      split; [by apply (t_sync _ _ _ Ht k p Hp)|]. intros j r Hr' Hne Hpos E. destruct Hne. by eapply (t_uniq _ _ _ Ht j k r p).
    + exists (set_i_ref (i_ref p + 1) p). rewrite list_lookup_insert_eq by done. split; [done|]. split; [done|]. split; [cbn; lia|done].
    + intros m. rewrite (ref_of_insert I k p _ m Hp). unfold weight, one. cbn. rewrite Hd, En, Z.eqb_refl. cbn. rewrite (Z.eqb_sym m n). destruct (n =? m); lia.
    + rewrite (slots_insert I k p _ Hp), (ref_of_hit V L I k p n Ht Hp Hh). cbn. rewrite !(proj2 (Z.eqb_neq _ _)) by lia. cbn. lia.
    + intros j m v. apply (entry_insert I k p); [done|done|done|]. cbn. lia.
  - intros k p s' Hp E0 Hno Hs'. assert (k < length I)%nat as Hk by by eapply lookup_lt_Some. pose proof (ref_of_miss V L I n Ht Hno) as Em.
    eapply HQ; [exact Hs'| | | | |].
    + eapply tbl_insert; [done|done|cbn; lia| | |done]; [|cbn; by apply (t_lock _ _ _ Ht)]. intros _. cbn. split; [done|]. split; [lia|].
      split; [done|]. intros j r Hr' Hne Hpos E. destruct (t_dev _ _ _ Ht j r Hr' Hpos) as [Hd _].
      specialize (Hno j r Hr'). rewrite (proj2 (hits_spec n r)) in Hno; [done|]. done.
    + exists (set_i_id dev n 1 false p). rewrite list_lookup_insert_eq by done. split; [done|]. split; [done|]. split; [cbn; lia|done].
    + intros m. rewrite (ref_of_insert I k p _ m Hp). unfold weight, one. cbn. rewrite E0, Z.eqb_refl. cbn. rewrite (Z.eqb_sym m n). destruct (n =? m), (_ && _); lia.
    + rewrite (slots_insert I k p _ Hp), Em, E0. cbn. lia.
    + intros j m v (r & Hr & Hm & Hpos & Hv). exists r. rewrite list_lookup_insert_ne; [done|]. intros ->. rewrite Hp in Hr. injection Hr as <-. lia.
Qed.

Lemma t_ilock Q s V P it L I c k n b :
  fr s V P ∅ None it I c → tbl V L I → k ∉ L → entry I k n false → bounded I b → b < 2147483647 → (size P < 30)%nat → d_type (dinode_at SB V n) ≠ 0 →
  (∀ I' p s', fr s' V P ∅ None it I' c → tbl V (k :: L) I' → I' !! k = Some p → i_inum p = n → i_dev p = dev → dinode_of p = dinode_at SB V n → entry I' k n true →
     (∀ m, ref_of I' m = ref_of I m) → slots I' = slots I → (∀ j m v, entry I j m v → entry I' j m v) → Q tt s') →
  wp (ilock (iptr k)) Q s.
Proof.
  intros Hs Ht HL He Hb Hb2 Hsz Hty HQ. destruct (entry_hits _ _ _ _ _ _ Ht He) as (p & Hp & Hh & _ & _). pose proof Hh as (Hr & Hd & En)%hits_spec.
  assert (k < length I)%nat as Hk by by eapply lookup_lt_Some. destruct (t_dev _ _ _ Ht k p Hp Hr) as [_ Hn].
  set (q := locked l0 (loaded SB V p)).
  assert (i_ref q = i_ref p ∧ i_inum q = i_inum p ∧ i_dev q = i_dev p ∧ i_valid q = true ∧ dinode_of q = dinode_at SB V n) as (Q1 & Q2 & Q3 & Q4 & Q5).
  { unfold q, loaded. destruct (i_valid p) eqn:Ev.
    - do 3 (split; [done|]). split; [done|]. rewrite <-En. by apply (t_sync _ _ _ Ht k p Hp).
    - do 4 (split; [done|]). rewrite En. destruct (dinode_at SB V n); reflexivity. }
  eapply (ilock_run dev SB l0 G); [exact Hs|done|done|done|done| |done|rewrite map_size_empty; lia| |].
  { by rewrite (t_lock _ _ _ Ht k p Hp), decide_False. }
  { change (i_type (loaded SB V p)) with (d_type (dinode_of q)). by rewrite Q5. }
  intros s' Hs'. fold q in Hs'. eapply (HQ _ q); [exact Hs'| |by apply list_lookup_insert_eq|congruence|congruence|done| | | |].
  - apply (tbl_insert V L (k :: L) I k p q); [exact Ht|exact Hp|lia| |unfold q; cbn [i_lock locked set_i_lock]; by rewrite decide_True by constructor|intros j Hj; rewrite elem_of_cons; tauto].
    intros _. rewrite Q2, Q3. split; [done|]. split; [done|]. split; [congruence|]. intros j r Hr' Hne Hpos E. destruct Hne. by eapply (t_uniq _ _ _ Ht j k r p).
  - exists q. split; [by apply list_lookup_insert_eq|]. split; [congruence|]. split; [lia|done].
  - intros m. rewrite (ref_of_insert I k p q m Hp). unfold weight. rewrite Q1, Q2, Q3. lia.
  - rewrite (slots_insert I k p q Hp), Q1. lia.
  - intros j m v. apply (entry_insert I k p); [done|done|done|lia].
Qed.

Lemma t_iunlock Q s V P H X it L I c k n v :
  fr s V P H X it I c → tbl V (k :: L) I → k ∉ L → entry I k n v →
  (∀ I' s', fr s' V P H X it I' c → tbl V L I' → (∀ m, ref_of I' m = ref_of I m) → slots I' = slots I →
     (∀ j m v, entry I j m v → entry I' j m v) → Q tt s') →
  wp (iunlock (iptr k)) Q s.
Proof.
  intros Hs Ht HL He HQ. destruct (entry_hits _ _ _ _ _ _ Ht He) as (p & Hp & Hh & _ & _). pose proof Hh as (Hr & Hd & En)%hits_spec.
  assert (k < length I)%nat as Hk by by eapply lookup_lt_Some. destruct (t_dev _ _ _ Ht k p Hp Hr) as [_ Hn].
  eapply iunlock_run; [exact Hs|done|done| |].
  { rewrite (t_lock _ _ _ Ht k p Hp). by rewrite decide_True by constructor. }
  intros s' Hs'. eapply HQ; [exact Hs'| | | |].
  - eapply tbl_insert; [exact Ht|exact Hp|cbn; lia| |by rewrite decide_False|intros j Hj; rewrite elem_of_cons; tauto].
    intros _. cbn. split; [done|]. split; [done|]. split; [by apply (t_sync _ _ _ Ht k p Hp)|]. intros j r Hr' Hne Hpos E. destruct Hne. by eapply (t_uniq _ _ _ Ht j k r p).
  - intros m. rewrite (ref_of_insert I k p _ m Hp). unfold weight. cbn. lia.
  - rewrite (slots_insert I k p _ Hp). cbn. lia.
  - intros j m v'. by apply (entry_insert I k p).
Qed.

Lemma t_iput Q s V P H X L I c k n v b :
  fr s V P H X false I c → tbl V L I → entry I k n v → bounded I b → b < 2147483648 → d_nlink (dinode_at SB V n) ≠ 0 →
  (∀ I' s', fr s' V P H X false I' c → tbl V L I' → (∀ m, ref_of I' m = ref_of I m - one (m =? n)) → slots I' = slots I + one (ref_of I n =? 1) →
     (∀ j m v, entry I j m v → (m = n → 1 < ref_of I n) → entry I' j m v) → Q tt s') →
  wp (iput (iptr k)) Q s.
Proof.
  intros Hs Ht He Hb Hb2 Hnl HQ. destruct (entry_hits _ _ _ _ _ _ Ht He) as (p & Hp & Hh & _ & Er). pose proof Hh as (Hr & Hd & En)%hits_spec.
  assert (k < length I)%nat as Hk by by eapply lookup_lt_Some. pose proof (Hb n) as Hbn. rewrite Er in Hbn.
  eapply iput_keep_run; [exact Hs|done|lia| |].
  { intros _ Hv. pose proof (t_sync _ _ _ Ht k p Hp Hr Hv) as E. rewrite En in E. change (i_nlink p) with (d_nlink (dinode_of p)). by rewrite E. }
  intros s' Hs'. eapply HQ; [exact Hs'| | | |].
  - eapply tbl_insert; [exact Ht|exact Hp|cbn; lia| |cbn; by apply (t_lock _ _ _ Ht)|done].
    intros _. cbn. split; [done|]. split; [by apply (t_dev _ _ _ Ht k p)|]. split; [by apply (t_sync _ _ _ Ht k p Hp)|]. intros j r Hr' Hne Hpos E. destruct Hne. by eapply (t_uniq _ _ _ Ht j k r p).
  - intros m. rewrite (ref_of_insert I k p _ m Hp). unfold weight, one. cbn. rewrite Hd, En, Z.eqb_refl. cbn. rewrite (Z.eqb_sym m n). destruct (n =? m); lia.
  - rewrite (slots_insert I k p _ Hp), Er. cbn. rewrite (proj2 (Z.eqb_neq (i_ref p) 0)) by lia. unfold one.
    destruct (Z.eqb_spec (i_ref p - 1) 0), (Z.eqb_spec (i_ref p) 1); lia.
  - intros j m v' He' Hm. apply (entry_insert I k p); [done|done|done| |done]. cbn. intros E. rewrite Er in Hm. specialize (Hm ltac:(congruence)). lia.
Qed.

Lemma t_idup Q s V P H X L I c k n v b :
  fr s V P H X false I c → tbl V L I → entry I k n v → bounded I b → b < 2147483647 →
  (∀ I' s', fr s' V P H X false I' c → tbl V L I' → (∀ m, ref_of I' m = ref_of I m + one (m =? n)) → slots I' = slots I →
     (∀ j m v, entry I j m v → entry I' j m v) → Q (iptr k) s') →
  wp (idup (iptr k)) Q s.
Proof.
  intros Hs Ht He Hb Hb2 HQ. destruct (entry_hits _ _ _ _ _ _ Ht He) as (p & Hp & Hh & _ & Er). pose proof Hh as (Hr & Hd & En)%hits_spec.
  assert (k < length I)%nat as Hk by by eapply lookup_lt_Some. pose proof (Hb n) as Hbn. rewrite Er in Hbn.
  eapply idup_run; [exact Hs|done|lia|]. intros s' Hs'. eapply HQ; [exact Hs'| | | |].
  - eapply tbl_insert; [exact Ht|exact Hp|cbn; lia| |cbn; by apply (t_lock _ _ _ Ht)|done].
    intros _. cbn. split; [done|]. split; [by apply (t_dev _ _ _ Ht k p)|]. split; [by apply (t_sync _ _ _ Ht k p Hp)|]. intros j r Hr' Hne Hpos E. destruct Hne. by eapply (t_uniq _ _ _ Ht j k r p).
  - intros m. rewrite (ref_of_insert I k p _ m Hp). unfold weight, one. cbn. rewrite Hd, En, Z.eqb_refl. cbn. rewrite (Z.eqb_sym m n). destruct (n =? m); lia.
  - rewrite (slots_insert I k p _ Hp). cbn. rewrite !(proj2 (Z.eqb_neq _ _)) by lia. lia.
  - intros j m v'. apply (entry_insert I k p); [done|done|done|]. cbn. lia.
Qed.

End table.
