(* ===== verification/FsPath.v ===== *)
(** * Paths: [skipelem], [namex], [namei] and [nameiparent] *)

From stdpp Require Import base gmap list strings numbers.
From S2P Require Import Prelude Block SleepLock Bio BioSpec Cache Log LogSpec Fs FsTx FsAlloc FsInode FsOp FsFile FsWrite FsTrunc FsDir FsTable.

(** ** The elements of a path *)

Fixpoint split_slash (path : list Z) : list (list Z) :=
  match path with
  | [] => [[]]
  | c :: path' =>
      if c =? SLASH then [] :: split_slash path'
      else match split_slash path' with e :: es => (c :: e) :: es | [] => [[c]] end
  end.
(** The non-empty parts between slashes, cut to DIRSIZ characters. *)
Definition elems (path : list Z) : list (list Z) := take 14 <$> filter (λ e, e ≠ []) (split_slash path).

Notation chars := (Forall (λ x, 0 < x < 256)).

Lemma elems_slash path : elems (SLASH :: path) = elems path.
Proof. done. Qed.
Lemma elems_skip path : elems (skip_slashes path) = elems path.
Proof. induction path as [|c path IH]; [done|]. cbn [skip_slashes]. destruct (Z.eqb_spec c SLASH) as [->|]; [|done]. by rewrite elems_slash. Qed.
Lemma skip_head path : head (skip_slashes path) ≠ Some SLASH.
Proof. induction path as [|c path IH]; [done|]. cbn [skip_slashes]. destruct (Z.eqb_spec c SLASH) as [->|]; [done|]. cbn. congruence. Qed.
Lemma skip_suffix path : ∃ l, path = l ++ skip_slashes path.
Proof. induction path as [|c path [l IH]]; [by exists []|]. cbn [skip_slashes]. destruct (c =? SLASH); [exists (c :: l); cbn; by rewrite <-IH|by exists []]. Qed.

Lemma split_elem path : split_slash path =
  take (elem_len path) path :: match drop (elem_len path) path with [] => [] | _ :: r => split_slash r end.
Proof.
  induction path as [|c path IH]; [done|]. cbn [split_slash elem_len]. destruct (Z.eqb_spec c SLASH) as [->|Hc]; [done|]. rewrite IH. done.
Qed.
Lemma drop_elem path : drop (elem_len path) path = [] ∨ ∃ r, drop (elem_len path) path = SLASH :: r.
Proof.
  induction path as [|c path IH]; [by left|]. cbn [elem_len]. destruct (Z.eqb_spec c SLASH) as [->|Hc]; [right; by exists path|]. done.
Qed.
Lemma elems_elem path : path ≠ [] → head path ≠ Some SLASH → elems path = take 14 (take (elem_len path) path) :: elems (drop (elem_len path) path).
Proof.
  intros Hn Hh. unfold elems at 1. rewrite split_elem. assert (take (elem_len path) path ≠ []) as Ht.
  { destruct path as [|c path]; [done|]. cbn [elem_len]. cbn in Hh. by rewrite (proj2 (Z.eqb_neq c SLASH)) by congruence. }
  rewrite list.filter_cons, decide_True by done. cbn [fmap list_fmap]. f_equal. destruct (drop_elem path) as [->|[r ->]]; done.
Qed.

Lemma cstr_chars l : chars l → cstr l = l.
Proof. induction 1 as [|c l Hc Hl IH]; [done|]. cbn. by rewrite (proj2 (Z.eqb_neq c 0)), IH by lia. Qed.
Lemma cstr_nul l l' : chars l → cstr (l ++ 0 :: l') = l.
Proof. induction 1 as [|c l Hc Hl IH]; [done|]. cbn. by rewrite (proj2 (Z.eqb_neq c 0)), IH by lia. Qed.

Lemma chars_bytes l : chars l → bytes l.
Proof. apply Forall_impl. lia. Qed.

(** [skipelem] on a path without leading slashes. *)
Lemma name_elem e name : length name = 14%nat → bytes name → chars e →
  let name' := if (Z.to_nat DIRSIZ <=? length e)%nat then take (Z.to_nat DIRSIZ) e ++ drop (Z.to_nat DIRSIZ) name
               else e ++ 0 :: drop (S (length e)) name in
  cstr name' = take 14 e ∧ length name' = 14%nat ∧ bytes name'.
Proof.
  intros Hl Hb He. change (Z.to_nat DIRSIZ) with 14%nat. destruct (Nat.leb_spec 14 (length e)) as [Hle|Hlt]; cbv zeta.
  - rewrite (drop_ge name) by lia. rewrite app_nil_r. split; [apply cstr_chars; by apply Forall_take|]. split; [rewrite length_take; lia|].
    by apply Forall_take, chars_bytes.
  - split; [rewrite cstr_nul by done; by rewrite take_ge by lia|]. split; [rewrite length_app; cbn [length]; rewrite length_drop; lia|].
    apply Forall_app. split; [by apply chars_bytes|]. constructor; [lia|]. by apply Forall_drop.
Qed.

(** [skipelem] takes the first element. *)
Lemma skipelem_spec path name : length name = 14%nat → bytes name → chars path →
  match elems path with
  | [] => skipelem path name = None
  | e :: es => ∃ path' name', skipelem path name = Some (path', name') ∧ cstr name' = e ∧ length name' = 14%nat ∧ bytes name' ∧
      elems path' = es ∧ (path' = [] ↔ es = []) ∧ (length path' < length path)%nat ∧ chars path'
  end.
Proof.
  intros Hl Hb Hc. unfold skipelem. rewrite <-elems_skip. destruct (skip_suffix path) as [l El]. pose proof (skip_head path) as Hh.
  set (q := skip_slashes path) in *. assert (chars q) as Hq by (rewrite El in Hc; by apply Forall_app in Hc as [_ ?]).
  assert (length q ≤ length path)%nat as Hlen by (rewrite El, length_app; lia). clearbody q. clear El Hc.
  destruct (decide (q = [])) as [->|Hne]; [done|]. rewrite (elems_elem q) by done. set (e := take (elem_len q) q).
  assert (elem_len q = length e) as Ee.
  { unfold e. rewrite length_take. enough (elem_len q ≤ length q)%nat by lia. clear. induction q as [|c q IH]; cbn; [lia|]. destruct (c =? SLASH); lia. }
  assert (elem_len q ≠ 0%nat) as He0.
  { destruct q as [|c q]; [done|]. cbn. cbn in Hh. by rewrite (proj2 (Z.eqb_neq c SLASH)) by congruence. }
  destruct (name_elem e name Hl Hb) as (N1 & N2 & N3); [by apply Forall_take|]. rewrite <-Ee in N1, N2, N3.
  destruct (skip_suffix (drop (elem_len q) q)) as [l' El'].
  assert (chars (drop (elem_len q) q)) as Hd by by apply Forall_drop. pose proof (skip_head (drop (elem_len q) q)) as Hh'.
  exists (skip_slashes (drop (elem_len q) q)). eexists. split; [by destruct q|]. split; [exact N1|]. split; [exact N2|]. split; [exact N3|].
  rewrite elems_skip. split; [done|]. split; [|split].
  - rewrite <-(elems_skip (drop _ _)). split; [by intros ->|]. intros E. destruct (decide (skip_slashes (drop (elem_len q) q) = [])); [done|].
    by rewrite elems_elem in E.
  - assert (length (drop (elem_len q) q) = length l' + length (skip_slashes (drop (elem_len q) q)))%nat as E by (rewrite El' at 1; apply length_app).
    rewrite length_drop in E. destruct q; [done|]. cbn [length] in *. lia.
  - rewrite El' in Hd. by apply Forall_app in Hd as [_ ?].
Qed.

(** ** Resolution on the disk *)

Section resolve.
Context (SB : superblock) (V : Z → block).

Definition dtype (n : Z) : Z := d_type (dinode_at SB V n).
(** The inode with the name [nm] in the directory [n]. *)
Definition ddir (n : Z) (nm : list Z) : option Z := fst <$> dfind nm 0 (entries V (dfile (dinode_at SB V n))).

(** The inode at the end of the path with the elements [es] from inode [n]. *)
Fixpoint resolve (n : Z) (es : list (list Z)) : option Z :=
  match es with
  | [] => Some n
  | e :: es => if dtype n =? T_DIR then match ddir n e with Some n' => resolve n' es | None => None end else None
  end.
(** The directory of the last element. *)
Definition resolve_parent (n : Z) (es : list (list Z)) : option Z :=
  match es with
  | [] => None
  | _ => match resolve n (removelast es) with Some d => if dtype d =? T_DIR then Some d else None | None => None end
  end.
Definition resolve_to (np : bool) : Z → list (list Z) → option Z := if np then resolve_parent else resolve.

Definition live (n : Z) : Prop := 0 ≤ n < sb_ninodes SB ∧ dtype n ≠ 0 ∧ d_nlink (dinode_at SB V n) ≠ 0.

(** Directories are sound, and what they name exists. *)
Definition dirs_ok : Prop :=
  ∀ n, 0 ≤ n < sb_ninodes SB → dtype n = T_DIR →
    dir_ok V (dfile (dinode_at SB V n)) ∧ ∀ nm n', ddir n nm = Some n' → live n'.

Lemma entries_dfile p x : dinode_of p = x → entries V p = entries V (dfile x).
Proof.
  intros <-. unfold entries. cbn [i_size dfile dinode_of d_size]. apply list_fmap_ext. intros i x _. unfold fbytes. apply list_fmap_ext. intros j o _. by apply fbyte_addrs.
Qed.
Lemma dir_ok_dfile p n : dinode_of p = dinode_at SB V n → dir_ok V (dfile (dinode_at SB V n)) → dir_ok V p.
Proof.
  intros <- (H1 & H2 & [H3 H4]). split; [done|]. split; [done|]. split; [done|]. intros i Hi Hlt. rewrite (bslot_addrs V p (dfile (dinode_of p))) by done. by apply H4.
Qed.

Lemma resolve_step np n e es : dtype n = T_DIR → (np = true → es ≠ []) →
  resolve_to np n (e :: es) = match ddir n e with Some n' => resolve_to np n' es | None => None end.
Proof.
  intros Ht Hnp. destruct np; cbn [resolve_to].
  - destruct es as [|e' es]; [by destruct (Hnp eq_refl)|]. unfold resolve_parent. change (removelast (e :: e' :: es)) with (e :: removelast (e' :: es)).
    cbn [resolve]. rewrite Ht, Z.eqb_refl. by destruct (ddir n e).
  - cbn [resolve]. by rewrite Ht, Z.eqb_refl.
Qed.
Lemma resolve_file np n e es : dtype n ≠ T_DIR → resolve_to np n (e :: es) = None.
Proof.
  intros Ht. destruct np; cbn [resolve_to]; [|cbn; by rewrite (proj2 (Z.eqb_neq _ _))]. unfold resolve_parent.
  destruct es as [|e' es]; [cbn; by rewrite (proj2 (Z.eqb_neq _ _))|]. change (removelast (e :: e' :: es)) with (e :: removelast (e' :: es)).
  cbn [resolve]. by rewrite (proj2 (Z.eqb_neq _ _)).
Qed.

End resolve.

(** ** [namex] *)

Section namex.
Context (dev : Z) (SB : superblock) (l0 : logst) (G : fsgeo SB).
Notation fr := (fr dev SB l0).
Notation tbl := (tbl dev SB l0).
Notation ref_of := (ref_of dev).

(** The entries in use stay where they are. *)
Definition keeps (I0 I : list inode) : Prop := ∀ j m v, entry I0 j m v → entry I j m v.

(** Compared with the table [I0] the process has one more reference, to [n]
    through entry [k]; or no more. *)
Definition hold (V : Z → block) (L : list nat) (I0 I : list inode) (k : nat) (n : Z) : Prop :=
  tbl V L I ∧ entry I k n false ∧ (∀ m, ref_of I m = ref_of I0 m + one (m =? n)) ∧ slots I = slots I0 - one (ref_of I0 n =? 0) ∧ keeps I0 I.
Definition even (V : Z → block) (I0 I : list inode) : Prop :=
  tbl V [] I ∧ (∀ m, ref_of I m = ref_of I0 m) ∧ slots I = slots I0 ∧ keeps I0 I.

(** The result of [namex]. *)
Definition named (V : Z → block) (I0 I : list inode) (ip : Z) (r : option Z) : Prop :=
  match r with Some n => ∃ k, ip = iptr k ∧ hold V [] I0 I k n | None => ip = 0 ∧ even V I0 I end.

Context (V : Z → block) (P : gset Z) (c : Z) (I0 : list inode).
Context (Hok : ∀ n, block_ok (V n)) (HP : (size P < 30)%nat) (Hdirs : dirs_ok SB V).
Context (Hb : bounded dev I0 2147483600) (Hsl : 2 ≤ slots I0) (Hnn : ∀ m, 0 ≤ ref_of I0 m) (V0 : Z → block) (Ht0 : tbl V0 [] I0).

Lemma hold_bounded L I k n : hold V L I0 I k n → bounded dev I 2147483601.
Proof. intros (_ & _ & H & _) m. rewrite H. specialize (Hb m). unfold one. destruct (m =? n); lia. Qed.

Lemma hold_iput Q s I k n : fr s V P ∅ None false I c → hold V [] I0 I k n → live SB V n →
  (∀ I' s', fr s' V P ∅ None false I' c → even V I0 I' → Q tt s') → wp (iput (iptr k)) Q s.
Proof.
  intros Hs Hh (_ & _ & Hnl) HQ. pose proof (hold_bounded _ _ _ _ Hh) as Hb'. destruct Hh as (Ht & He & Hr & Hsn & Hk).
  eapply (t_iput dev SB l0); [exact Hs|exact Ht|exact He|exact Hb'|lia|done|]. intros I' s' Hs' Ht' Hr' Hs2 He'. eapply HQ; [exact Hs'|].
  split; [done|]. split; [intros m; rewrite Hr', Hr; lia|]. pose proof (Hnn n). split.
  - rewrite Hs2, Hsn, Hr, Z.eqb_refl. unfold one. destruct (Z.eqb_spec (ref_of I0 n) 0), (Z.eqb_spec (ref_of I0 n + 1) 1); lia.
  - intros j m v Hm. apply He'; [by apply Hk|]. intros ->. rewrite Hr, Z.eqb_refl. apply (entry_ref dev SB l0 _ _ _ _ _ _ Ht0) in Hm. cbn. lia.
Qed.

Lemma hold_iunlock Q s I k n : fr s V P ∅ None false I c → hold V [k] I0 I k n →
  (∀ I' s', fr s' V P ∅ None false I' c → hold V [] I0 I' k n → Q tt s') → wp (iunlock (iptr k)) Q s.
Proof.
  intros Hs (Ht & He & Hr & Hsn & Hk) HQ. eapply (t_iunlock dev SB l0); [exact Hs|exact Ht|set_solver|exact He|]. intros I' s' Hs' Ht' Hr' Hs2 Hent.
  eapply HQ; [exact Hs'|]. split; [done|]. split; [by apply Hent|]. split; [intros m; by rewrite Hr'|]. split; [congruence|]. intros j m v Hm. by apply Hent, Hk.
Qed.

Lemma hold_iunlockput Q s I k n : fr s V P ∅ None false I c → hold V [k] I0 I k n → live SB V n →
  (∀ I' s', fr s' V P ∅ None false I' c → even V I0 I' → Q tt s') → wp (iunlockput (iptr k)) Q s.
Proof. intros Hs Hh Hl HQ. unfold iunlockput. wp_run. eapply hold_iunlock; [exact Hs|exact Hh|]. intros I' s' Hs' Hh'. by eapply hold_iput. Qed.

Lemma hold_ilock Q s I k n : fr s V P ∅ None false I c → hold V [] I0 I k n → live SB V n →
  (∀ I' p s', fr s' V P ∅ None false I' c → hold V [k] I0 I' k n → I' !! k = Some p → i_dev p = dev → i_inum p = n → dinode_of p = dinode_at SB V n → Q tt s') →
  wp (ilock (iptr k)) Q s.
Proof.
  intros Hs Hh (_ & Hty & _) HQ. pose proof (hold_bounded _ _ _ _ Hh) as Hb'. destruct Hh as (Ht & He & Hr & Hsn & Hk).
  eapply (t_ilock dev SB l0 G); [exact Hs|exact Ht|set_solver|exact He|exact Hb'|lia|done|done|]. intros I' p s' Hs' Ht' Hp En Ed Edi He' Hr' Hs2 Hent.
  eapply (HQ I' p); [exact Hs'| |done..]. split; [done|]. split; [by destruct He' as (q & ? & ? & ? & _); exists q|]. split; [intros m; by rewrite Hr'|]. split; [congruence|]. intros j m v Hm. by apply Hent, Hk.
Qed.

(** From one directory to the next. *)
Lemma hold_next Q s I k n n' : fr s V P ∅ None false I c → hold V [k] I0 I k n → live SB V n → live SB V n' →
  (∀ I' k' s', fr s' V P ∅ None false I' c → hold V [] I0 I' k' n' → Q (iptr k') s') →
  wp (iget dev n') (λ next s', (next =? 0) = false ∧ wp (iunlockput (iptr k)) (λ _, Q next) s') s.
Proof.
  intros Hs Hh Hl Hl' HQ. pose proof (hold_bounded _ _ _ _ Hh) as Hb'. destruct Hh as (Ht & He & Hr & Hsn & Hk). pose proof Hl' as (Hn' & _).
  eapply (t_iget dev SB l0); [exact Hs|exact Ht|done|exact Hb'|lia|left; rewrite Hsn; unfold one; destruct (_ =? _); lia|].
  clear s Hs. intros k' I1 s Hs Ht1 He1 Hr1 Hs1 Hent. split; [apply iptr_nz|]. unfold iunlockput. wp_run.
  eapply (t_iunlock dev SB l0); [exact Hs|exact Ht1|set_solver|by apply Hent, He|]. clear s Hs. intros I2 s Hs Ht2 Hr2 Hs2 Hent2.
  assert (bounded dev I2 2147483602) as Hb2.
  { intros m. rewrite Hr2, Hr1. specialize (Hb' m). unfold one. destruct (m =? n'); lia. }
  destruct Hl as (_ & _ & Hnl). eapply (t_iput dev SB l0); [exact Hs|exact Ht2|by apply Hent2, Hent, He|exact Hb2|lia|done|].
  clear s Hs. intros I3 s Hs Ht3 Hr3 Hs3 Hent3. eapply HQ; [exact Hs|]. split; [done|]. pose proof (Hnn n). pose proof (Hnn n').
  assert (ref_of I2 n = ref_of I0 n + 1 + one (n =? n')) as En by (rewrite Hr2, Hr1, Hr, Z.eqb_refl; done). split; [|split; [|split]].
  - apply Hent3; [by apply Hent2|]. intros ->. rewrite En, Z.eqb_refl. cbn. lia.
  - intros m. rewrite Hr3, Hr2, Hr1, Hr. lia.
  - rewrite Hs3, Hs2, Hs1, Hsn, En, Hr. unfold one. rewrite (Z.eqb_sym n' n). destruct (Z.eqb_spec n n') as [->|].
    + destruct (Z.eqb_spec (ref_of I0 n') 0), (Z.eqb_spec (ref_of I0 n' + 1) 0), (Z.eqb_spec (ref_of I0 n' + 1 + 1) 1); lia.
    + destruct (Z.eqb_spec (ref_of I0 n) 0), (Z.eqb_spec (ref_of I0 n' + 0) 0), (Z.eqb_spec (ref_of I0 n') 0), (Z.eqb_spec (ref_of I0 n + 1 + 0) 1); lia.
  - intros j m v Hm. apply Hent3; [by apply Hent2, Hent, Hk|]. intros ->. apply (entry_ref dev SB l0 _ _ _ _ _ _ Ht0) in Hm. rewrite En. unfold one. destruct (n =? n'); lia.
Qed.

(** The loop of [namex]. *)
Definition looking (np : bool) (n0 : Z) (es0 : list (list Z)) (l : Z * list Z * list Z) (s : fsst) : Prop :=
  let '(ip, path, name) := l in
  ∃ k n I, ip = iptr k ∧ live SB V n ∧ fr s V P ∅ None false I c ∧ hold V [] I0 I k n ∧ length name = 14%nat ∧ bytes name ∧ chars path ∧
    resolve_to SB V np n0 es0 = resolve_to SB V np n (elems path) ∧ (np = true → list.last es0 = list.last (elems path)).

Lemma namex_loop_run Q s np n0 es0 ip path name :
  looking np n0 es0 (ip, path, name) s →
  (∀ I ip' name' s', fr s' V P ∅ None false I c → named V I0 I ip' (resolve_to SB V np n0 es0) →
     (np = true → ip' ≠ 0 → list.last es0 = Some (cstr name') ∧ length name' = 14%nat ∧ bytes name') → Q (ip', name') s') →
  wp (loop (S (length path)) (namex_turn np) (ip, path, name)) Q s.
Proof.
  intros Hinv HQ. eapply (wp_loop (looking np n0 es0) (λ '(_, path, _) _, length path)); [lia|exact Hinv|].
  clear s ip path name Hinv. intros [[ip path] name] s (k & n & I & -> & Hl & Hs & Hh & Hlen & Hby & Hch & Hw & Hlast). unfold namex_turn.
  pose proof (skipelem_spec path name Hlen Hby Hch) as Hsk. destruct (elems path) as [|e es] eqn:Ees.
  - rewrite Hsk. destruct np; [change (resolve_to SB V true n []) with (@None Z) in Hw|change (resolve_to SB V false n []) with (Some n) in Hw].
    + wp_run. eapply hold_iput; [exact Hs|exact Hh|done|]. clear s Hs. intros I' s Hs He. wp_run. eapply HQ; [exact Hs|rewrite Hw; by split|done].
    + wp_run. eapply HQ; [exact Hs|rewrite Hw; by exists k|done].
  - destruct Hsk as (path' & name' & -> & Hnm & Hlen' & Hby' & Hes & Hnil & Hlt & Hch'). wp_run.
    eapply hold_ilock; [exact Hs|exact Hh|done|]. clear s Hs I Hh. intros I p s Hs Hh Hp Ed En Edi. wp_run. eapply wp_iload; [exact Hs|done|].
    assert (i_type p = dtype SB V n) as Ety by (change (i_type p) with (d_type (dinode_of p)); by rewrite Edi).
    destruct (Z.eqb_spec (i_type p) T_DIR) as [Et|Et]; cbn [negb].
    + rewrite Ety in Et. destruct (np && bool_decide (path' = [])) eqn:Estop.
      * apply andb_true_iff in Estop as [-> ->%bool_decide_eq_true]. assert (es = []) as -> by tauto. wp_run.
        eapply hold_iunlock; [exact Hs|exact Hh|]. clear s Hs. intros I' s Hs Hh'. wp_run. eapply HQ; [exact Hs| |].
        -- rewrite Hw. change (resolve_to SB V true n [e]) with (if dtype SB V n =? T_DIR then Some n else None). rewrite Et. by exists k.
        -- intros _ _. rewrite Hlast by done. by rewrite Hnm.
      * assert (np = true → es ≠ []) as Hne. { intros -> ->. cbn in Estop. rewrite bool_decide_eq_false in Estop. tauto. }
        rewrite resolve_step in Hw by done. destruct (Hdirs n) as [Hd Hlive]; [apply Hl|done|].
        assert (entries V p = entries V (dfile (dinode_at SB V n)) ∧ dir_ok V p) as [Eent Hdp].
        { split; [by apply entries_dfile|by apply (dir_ok_dfile SB V p n)]. }
        wp_run. eapply (dirlookup_run dev SB l0 G); [exact Hs|done|done|done|done|done|done|done| |]; rewrite Eent, Hnm.
        -- intros Enone. clear s Hs. intros s Hs. wp_run. cbn [Z.eqb]. wp_run. eapply hold_iunlockput; [exact Hs|exact Hh|done|].
           clear s Hs. intros I' s Hs He. wp_run. eapply HQ; [exact Hs| |done]. rewrite Hw. unfold ddir. rewrite Enone. by split.
        -- intros n' off Esome. clear s Hs. intros s Hs. assert (ddir SB V n e = Some n') as Edd by (unfold ddir; by rewrite Esome).
           eapply wp_mono; [eapply (hold_next (λ next s', looking np n0 es0 (next, path', name') s')); [exact Hs|exact Hh|done|by eapply Hlive|]|].
           { intros I' k' s' Hs' Hh'. exists k', n', I'. split; [done|]. split; [by eapply Hlive|]. do 5 (split; [done|]). rewrite Hw, Edd, Hes. split; [done|].
             intros Hnp. rewrite Hlast by done. specialize (Hne Hnp). by destruct es. }
           cbv beta. intros next s' [Enx Hwp]. wp_run. rewrite Enx. wp_run. eapply wp_mono; [exact Hwp|]. cbv beta. intros [] s2 Hlk. wp_run. split; [exact Hlk|done].
    + wp_run. eapply hold_iunlockput; [exact Hs|exact Hh|done|]. clear s Hs. intros I' s Hs He. wp_run. eapply HQ; [exact Hs| |done].
      rewrite Hw, resolve_file by (by rewrite <-Ety). by split.
Qed.

Definition start_of (path : list Z) (n : Z) : Z := if bool_decide (head path = Some SLASH) then ROOTINO else n.

Lemma namex_run Q s np path name kc nc :
  fr s V P ∅ None false I0 c → tbl V [] I0 → dev = Fs.ROOTDEV → c = iptr kc → entry I0 kc nc false → live SB V nc → live SB V ROOTINO →
  length name = 14%nat → bytes name → chars path →
  (∀ I ip name' s', fr s' V P ∅ None false I c → named V I0 I ip (resolve_to SB V np (start_of path nc) (elems path)) →
     (np = true → ip ≠ 0 → list.last (elems path) = Some (cstr name') ∧ length name' = 14%nat ∧ bytes name') → Q (ip, name') s') →
  wp (namex path np name) Q s.
Proof.
  intros Hs Ht Edev Ec He Hlc Hlr Hlen Hby Hch HQ. unfold namex. wp_run. rewrite (fr_cwd _ _ _ _ _ _ _ _ _ _ _ Hs), Ec.
  unfold start_of in HQ. destruct (bool_decide (head path = Some SLASH)).
  - rewrite <-Edev. pose proof Hlr as (Hr & _). eapply (t_iget dev SB l0); [exact Hs|exact Ht|done|exact Hb|lia|left; lia|]. clear s Hs. intros k I s Hs Ht' He' Hr' Hs' Hent.
    eapply namex_loop_run; [|exact HQ]. exists k, ROOTINO, I. do 3 (split; [done|]). split; [by do 4 (split; [done|])|done].
  - eapply (t_idup dev SB l0); [exact Hs|exact Ht|exact He|exact Hb|lia|]. clear s Hs. intros I s Hs Ht' Hr' Hs' Hent.
    eapply namex_loop_run; [|exact HQ]. exists kc, nc, I. split; [done|]. split; [done|]. split; [done|]. split; [|done].
    split; [done|]. split; [by apply Hent|]. split; [done|]. split; [|done]. destruct (entry_hits dev SB l0 _ _ _ _ _ _ Ht0 He) as (p & Hp & Hh & _ & Er).
    apply hits_spec in Hh as (Hpos & _). rewrite (proj2 (Z.eqb_neq _ _)) by lia. cbn. lia.
Qed.

End namex.

Lemma tbl_unlocked dev SB l l' V I : tbl dev SB l V [] I → tbl dev SB l' V [] I.
Proof. intros [H1 H2 H3 H4 H5 H6]. by split. Qed.

(** C10. Looking up a path refines its resolution on the disk.  [namex], and so
    [namei] and [nameiparent], from the root directory or the current one, returns
    a reference to the inode that the elements of the path lead to, or to the
    directory of the last element, which it then copies to [name]; or 0 when there
    is none.  The table has one more reference, to that inode, or none; the disk is
    not changed. *)
Theorem namex_resolves SB s I kc nc path np name :
  let V := dview s in
  fsgeo SB → fsq 1 SB s I (iptr kc) → (∀ n, block_ok (V n)) → dirs_ok SB V →
  tbl 1 SB (flog s) V [] I → bounded 1 I 2147483600 → 2 ≤ slots I →
  entry I kc nc false → live SB V nc → live SB V ROOTINO →
  length name = 14%nat → Forall (λ x, 0 ≤ x < 256) name → Forall (λ x, 0 < x < 256) path →
  ∃ ip name' s' I', in_tx (namex path np name) s = OK (ip, name') s' ∧ fsq 1 SB s' I' (iptr kc) ∧
    named 1 SB (flog s') V I I' ip (resolve_to SB V np (start_of path nc) (elems path)) ∧
    (np = true → ip ≠ 0 → list.last (elems path) = Some (cstr name')) ∧
    ∀ n, home (sb_logstart SB) (sb_nlog SB) n → dview s' n = V n.
Proof.
  intros V G Hq Hok Hdirs Ht Hb Hsl He Hlc Hlr Hlen Hby Hch.
  destruct (in_tx_run 1 SB G (namex path np name)
    (λ a V' I' c', V' = V ∧ c' = iptr kc ∧ (∀ l, named 1 SB l V I I' a.1 (resolve_to SB V np (start_of path nc) (elems path))) ∧
       (np = true → a.1 ≠ 0 → list.last (elems path) = Some (cstr a.2))) s I (iptr kc) ltac:(done) Hq)
    as ([ip name'] & s' & V' & I' & c' & W & E & Hq' & (-> & -> & Hn & Hl) & Hh & _).
  { intros s1 Hs1. eapply (namex_run 1 SB (flog s1) G V ∅ (iptr kc) I) with (V0 := V); try done.
    - rewrite size_empty. lia.
    - intros m. apply ref_of_nonneg. apply (t_ref _ _ _ _ _ _ Ht).
    - by eapply tbl_unlocked.
    - by eapply tbl_unlocked.
    - intros I' ip name' s2 Hs2 Hn Hl. exists V, ∅, I', (iptr kc). split; [exact Hs2|]. split; [done|]. split; [done|]. split; [|by intros ? ?; apply Hl].
      intros l. unfold named, hold, even in *. destruct (resolve_to _ _ _ _ _); cbn in *.
      + destruct Hn as (k & -> & Ht' & Hn). exists k. split; [done|]. split; [by eapply tbl_unlocked|done].
      + destruct Hn as (-> & Ht' & Hn). split; [done|]. split; [by eapply tbl_unlocked|done]. }
  exists ip, name', s', I'. split; [exact E|]. split; [done|]. split; [apply Hn|]. split; [exact Hl|done].
Qed.

(** ** A new name *)

(** What [sys_link] and [create] do with a directory, and a lookup of the name. *)
Definition link_lookup (dp : Z) (name : list Z) (inum : Z) : M fsst (Z * Z) :=
  r <- dirlink dp name inum ;;
  '(ip, _) <- dirlookup dp name ;;
  ret (r, ip).

Lemma ddir_home SB (G : fsgeo SB) V V' p nm : same_home SB V V' → finv SB V p → 0 ≤ i_inum p < sb_ninodes SB → dinode_at SB V (i_inum p) = dinode_of p →
  0 ≤ i_size p ≤ MAXFILE * BSIZE → ddir SB V' (i_inum p) nm = fst <$> dfind nm 0 (entries V p).
Proof.
  intros E Hf Hn Hd Hsz. unfold ddir. rewrite (dinode_home SB G V V' _ E Hn), Hd. f_equal. f_equal. rewrite <-(entries_dfile V' p) by done.
  change (MAXFILE * BSIZE) with 274432 in Hsz. unfold entries, fbytes. apply list_fmap_ext. intros i j Hj%lookup_seqZ. apply list_fmap_ext. intros i' o Ho%lookup_seqZ.
  apply (fbyte_kept V V' p o (kept_home SB G _ _ _ Hf E)). change (MAXFILE * BSIZE) with 274432. zlia.
Qed.

(** The names in the directory after [dirlink]. *)
Lemma written_ents SB V p V' p' j name n : (j ≤ length (entries V p))%nat → dir_ok V p → 0 < n < 65536 → length name = 14%nat →
  written SB (16 * Z.of_nat j) (mk_dirent n name) V p V' p' → i_size p + 16 ≤ MAXFILE * BSIZE →
  (∀ de, entries V p !! j = Some de → de_inum de = 0) → dfind (cstr name) 0 (entries V p) = None →
  dir_ok V' p' ∧ dfind (cstr name) 0 (entries V' p') = Some (n, 16 * Z.of_nat j) ∧
  ∀ nm, nm ≠ cstr name → dfind nm 0 (entries V' p') = dfind nm 0 (entries V p).
Proof.
  intros Hj Hd Hn Hlen Hw Hsz Hfree Hnone. pose proof Hd as (_ & Hm & [Hsz0 _]). change (MAXFILE * BSIZE) with 274432 in *.
  destruct (written_entries SB V p V' p' j (mk_dirent n name)) as [-> Hd']; [done|done|apply length_mk_dirent| |done|].
  { change (MAXFILE * BSIZE) with 274432. rewrite length_entries in Hj. zlia. }
  assert (cstr (de_name (mk_dirent n name)) = cstr name) as Ec by (rewrite de_name_mk; by apply cstr_strncpy_list).
  assert (de_inum (mk_dirent n name) = n) as Ei by (rewrite de_inum_mk; zlia).
  split; [done|]. split.
  - rewrite dfind_put; [by rewrite Ei|done|done|by rewrite Ec|rewrite Ei; lia].
  - intros nm Hnm. apply dfind_put_other; [done|done|by rewrite Ec].
Qed.

(** The inode table after the file of entry [k] and its inode on disk changed. *)
Lemma tbl_changed dev SB l V L I k p V' p' : tbl dev SB l V L I → I !! k = Some p → 0 < i_ref p →
  i_ref p' = i_ref p → i_dev p' = i_dev p → i_inum p' = i_inum p → i_lock p' = i_lock p → dinode_at SB V' (i_inum p) = dinode_of p' →
  (∀ n, 0 ≤ n < sb_ninodes SB → n ≠ i_inum p → dinode_at SB V' n = dinode_at SB V n) →
  tbl dev SB l V' L (<[k := p']> I) ∧ (∀ m, ref_of dev (<[k := p']> I) m = ref_of dev I m) ∧ slots (<[k := p']> I) = slots I.
Proof.
  intros Ht Hp Hr E1 E2 E3 E4 Hd Ho. assert (k < length I)%nat as Hk by by eapply lookup_lt_Some.
  split; [|split].
  - assert (tbl dev SB l V' L (<[k := set_i_valid false p]> I)) as Ht'.
    { assert (tbl dev SB l V L (<[k := set_i_valid false p]> I)) as [T1 T2 T3 T4 T5 T6].
      { eapply tbl_insert; [exact Ht|exact Hp|cbn; lia| |exact (t_lock _ _ _ _ _ _ Ht k p Hp)|done]. intros _. destruct (t_dev _ _ _ _ _ _ Ht k p Hp Hr).
        split; [done|]. split; [done|]. split; [done|]. intros j r Hr' Hne Hpos E. destruct Hne. by eapply (t_uniq _ _ _ _ _ _ Ht j k r p). }
      split; [done..| |done|done]. intros j r Hj Hpos Hv. rewrite (T4 j r Hj Hpos Hv). destruct (T3 j r Hj Hpos) as [_ Hn]. symmetry.
      apply Ho; [done|]. intros E.
      assert (j = k) as ->. { eapply (T5 j k r); [done|by apply list_lookup_insert_eq|done|done|done]. }
      rewrite list_lookup_insert_eq in Hj by done. by injection Hj as <-. }
    rewrite <-(list_insert_insert_eq I k p' (set_i_valid false p)). pose proof (t_dev _ _ _ _ _ _ Ht k p Hp Hr) as [? ?].
    eapply tbl_insert; [exact Ht'|by apply list_lookup_insert_eq|lia| |rewrite E4; by apply (t_lock _ _ _ _ _ _ Ht)|done].
    intros _. rewrite E2, E3. split; [done|]. split; [done|]. split; [intros _; by symmetry|].
    intros j r Hr' Hne Hpos E. rewrite list_lookup_insert_ne in Hr' by done. destruct Hne. by eapply (t_uniq _ _ _ _ _ _ Ht j k r p).
  - intros m. rewrite (ref_of_insert dev I k p p' m Hp). unfold weight. rewrite E1, E2, E3. lia.
  - rewrite (slots_insert I k p p' Hp), E1. lia.
Qed.
Lemma tbl_written dev SB l V L I k p off bs V' p' : tbl dev SB l V L I → I !! k = Some p → 0 < i_ref p → written SB off bs V p V' p' →
  tbl dev SB l V' L (<[k := p']> I) ∧ (∀ m, ref_of dev (<[k := p']> I) m = ref_of dev I m) ∧ slots (<[k := p']> I) = slots I.
Proof.
  intros Ht Hp Hr Hw. destruct (wn_fields _ _ _ _ _ _ _ Hw) as [a Ea].
  apply (tbl_changed dev SB l V L I k p); [done|done|done|by rewrite Ea..|apply (wn_disk _ _ _ _ _ _ _ Hw)|apply (wn_inodes _ _ _ _ _ _ _ Hw)].
Qed.

Lemma crash_safe_home dev SB s V V' W : crash_safe dev SB s V W → same_home SB V V' → crash_safe dev SB s V' W.
Proof.
  intros Hc E pid j d Hd. destruct (Hc pid j d Hd) as (l & H1 & H2 & [H3|H3]); exists l; (split; [exact H1|]); (split; [done|]); [by left|right].
  intros n Hn. rewrite H3 by done. symmetry. by apply E.
Qed.

(** In the directory [d] the name [nm] leads to [n]; every other name leads where
    it did, and every other inode is what it was. *)
Definition entered (SB : superblock) (V V' : Z → block) (d : Z) (nm : list Z) (n : Z) : Prop :=
  ddir SB V' d nm = Some n ∧ (∀ nm', nm' ≠ nm → ddir SB V' d nm' = ddir SB V d nm') ∧
  (∀ m, 0 ≤ m < sb_ninodes SB → m ≠ d → dinode_at SB V' m = dinode_at SB V m).

(** The result of [link_lookup]: the entry of the inode, and the name. *)
Definition linked (dev : Z) (SB : superblock) (V : Z → block) (d : Z) (nm : list Z) (r n : Z) (c : Z) (a : Z * Z) (V' : Z → block) (I' : list inode) (c' : Z) : Prop :=
  c' = c ∧ a.1 = r ∧ (∃ k q, a.2 = iptr k ∧ I' !! k = Some q ∧ i_dev q = dev ∧ i_inum q = n ∧ 0 < i_ref q) ∧
  ∀ V2, same_home SB V' V2 → entered SB V V2 d nm n.

(** The name is in the directory: [dirlink] gives back the reference of its
    lookup, and changes nothing. *)
Lemma dirlink_present_run dev SB l0 (G : fsgeo SB) Q s V P L I c k p name n n0 off b :
  fr dev SB l0 s V P ∅ None false I c → tbl dev SB l0 V L I → I !! k = Some p → 0 < i_ref p → (∀ n, block_ok (V n)) → dir_ok V p → (size P < 30)%nat →
  bounded dev I b → b < 2147483646 → 0 < slots I → length name = 14%nat → bytes name → dfind (cstr name) 0 (entries V p) = Some (n0, off) →
  0 ≤ n0 < sb_ninodes SB → d_nlink (dinode_at SB V n0) ≠ 0 →
  (∀ I' s', fr dev SB l0 s' V P ∅ None false I' c → tbl dev SB l0 V L I' → (∀ m, ref_of dev I' m = ref_of dev I m) → slots I' = slots I → keeps I I' → Q (-1) s') →
  wp (dirlink (iptr k) name n) Q s.
Proof.
  intros Hs Ht Hp Hr Hok Hd Hz Hb Hbb Hsl Hlen Hby Ef Hin0 Hnl0 HQ. destruct (t_dev _ _ _ _ _ _ Ht k p Hp Hr) as [Ed Hin].
  unfold dirlink. wp_run. eapply (dirlookup_run dev SB l0 G); [exact Hs|done|done|done|done|done|done|done|by rewrite Ef|].
  intros n1 off1. rewrite Ef. intros [= <- <-]. clear s Hs. intros s Hs.
  eapply (t_iget dev SB l0); [exact Hs|exact Ht|done|exact Hb|lia|by left|]. clear s Hs. intros k1 I1 s Hs Ht1 He1 Hr1 Hs1 Hent1. wp_run. rewrite iptr_nz. cbn [negb]. wp_run.
  assert (bounded dev I1 (b + 1)) as Hb1 by (intros m; rewrite Hr1; specialize (Hb m); unfold one; destruct (m =? n0); lia).
  eapply (t_iput dev SB l0); [exact Hs|exact Ht1|exact He1|exact Hb1|lia|done|].
  clear s Hs. intros I2 s Hs Ht2 Hr2 Hs2 Hent2. wp_run. pose proof (ref_of_nonneg dev I n0 (t_ref _ _ _ _ _ _ Ht)). eapply HQ; [exact Hs|exact Ht2| | |].
  - intros m. rewrite Hr2, Hr1. lia.
  - rewrite Hs2, Hs1, Hr1, Z.eqb_refl. unfold one. destruct (Z.eqb_spec (ref_of dev I n0) 0), (Z.eqb_spec (ref_of dev I n0 + 1) 1); lia.
  - intros j m v Hm. apply Hent2; [by apply Hent1|]. intros ->. destruct (entry_hits dev SB l0 _ _ _ _ _ _ Ht Hm) as (q & Hq & Hh & _ & E).
    apply hits_spec in Hh as (Hpos & _). rewrite Hr1, Z.eqb_refl, E. cbn. lia.
Qed.

Section linking.
Context (dev : Z) (SB : superblock) (l0 : logst) (G : fsgeo SB) (V : Z → block) (I : list inode) (c : Z) (k : nat) (p : inode) (name : list Z) (n : Z).
Context (Hv : vok SB V) (Ht : tbl dev SB l0 V [] I) (Hb : bounded dev I 2147483600) (Hsl : 0 < slots I).
Context (Hp : I !! k = Some p) (Hr : 0 < i_ref p) (Hvd : i_valid p = true) (Hf : finv SB V p) (Hd : dir_ok V p) (Hlen : length name = 14%nat) (Hby : bytes name).

Lemma link_ddir V2 nm : same_home SB V V2 → ddir SB V2 (i_inum p) nm = fst <$> dfind nm 0 (entries V p).
Proof.
  intros E. destruct (t_dev _ _ _ _ _ _ Ht k p Hp Hr) as [_ Hin]. pose proof Hd as (_ & _ & [Hsz _]). apply (ddir_home SB G); [done..| |done].
  symmetry. exact (t_sync _ _ _ _ _ _ Ht k p Hp Hr Hvd).
Qed.

Lemma link_new_run s : fr dev SB l0 s V ∅ ∅ None false I c → 8 < sb_nlog SB → i_size p + 16 ≤ MAXFILE * BSIZE → (2 ≤ nfree SB V)%nat →
  0 < n < Z.min 65536 (sb_ninodes SB) → ddir SB V (i_inum p) (cstr name) = None →
  wp (link_lookup (iptr k) name n) (λ a s', ∃ V' P I' c', fr dev SB l0 s' V' P ∅ None false I' c' ∧ linked dev SB V (i_inum p) (cstr name) 0 n c a V' I' c') s.
Proof.
  intros Hs Hnl Hsz Hnf Hn Hnone. rewrite link_ddir in Hnone by (by intros ? ?).
  assert (dfind (cstr name) 0 (entries V p) = None) as Hnone' by by destruct (dfind _ _ _).
  destruct (t_dev _ _ _ _ _ _ Ht k p Hp Hr) as [Ed Hin]. pose proof (t_sync _ _ _ _ _ _ Ht k p Hp Hr Hvd) as Esync. pose proof Hd as (_ & _ & [Hsz0 _]).
  assert (dinode_ok (dinode_of p)) as Hdok by (rewrite Esync; apply get_dinode_ok, Hv).
  unfold link_lookup. wp_run. eapply (dirlink_run dev SB l0 G _ s V ∅ false I c k p name n); [exact Hs|done..|unfold nroom; rewrite size_empty; lia|].
  clear s Hs. intros s V' P' p' j Hs Hj Hfree Hw HP'. rewrite size_empty in HP'. wp_run.
  destruct (written_ents SB V p V' p' j name n Hj Hd ltac:(lia) Hlen Hw) as (Hd' & Hnew & Hother); [done|done|done|].
  destruct (tbl_written _ _ _ _ _ _ _ _ _ _ _ _ Ht Hp Hr Hw) as (Ht' & Href & Hsl'). destruct (wn_fields _ _ _ _ _ _ _ Hw) as [a Ea].
  eapply (dirlookup_run dev SB l0 G); [exact Hs|apply list_lookup_insert_eq; by eapply lookup_lt_Some|by rewrite Ea|apply (wn_vok _ _ _ _ _ _ _ Hw)|done|lia|done|done|by rewrite Hnew|].
  intros n' off. rewrite Hnew. intros [= <- <-]. clear s Hs. intros s Hs. eapply (t_iget dev SB l0); [exact Hs|exact Ht'|lia|intros m; rewrite Href; by apply Hb|lia|left; lia|].
  intros k' I' s' Hs' Ht4 (q & Hq1 & Hq2 & Hq3 & _) _ _ _. wp_run. exists V', P', I', c. split; [exact Hs'|]. split; [done|]. split; [done|].
  split; [exists k', q; by destruct (t_dev _ _ _ _ _ _ Ht4 k' q Hq1 Hq3)|]. intros V2 Hsh. assert (i_inum p' = i_inum p) as En' by by rewrite Ea.
  assert (∀ nm, ddir SB V2 (i_inum p) nm = fst <$> dfind nm 0 (entries V' p')) as Enew.
  { intros nm. rewrite <-En'. apply (ddir_home SB G); [exact Hsh|apply (wn_inv _ _ _ _ _ _ _ Hw)|by rewrite En'|rewrite En'; apply (wn_disk _ _ _ _ _ _ _ Hw)|].
    apply (wn_full _ _ _ _ _ _ _ Hw). }
  split; [by rewrite Enew, Hnew|]. split; [intros nm Hnm; rewrite Enew, Hother by done; symmetry; by apply link_ddir|].
  intros m Hm Hne. rewrite (dinode_home SB G V' _ m Hsh Hm). by apply (wn_inodes _ _ _ _ _ _ _ Hw).
Qed.

Lemma link_present_run s n0 : fr dev SB l0 s V ∅ ∅ None false I c → ddir SB V (i_inum p) (cstr name) = Some n0 → live SB V n0 →
  wp (link_lookup (iptr k) name n) (λ a s', ∃ V' P I' c', fr dev SB l0 s' V' P ∅ None false I' c' ∧ linked dev SB V (i_inum p) (cstr name) (-1) n0 c a V' I' c') s.
Proof.
  intros Hs Hn0 (Hin0 & _ & Hnl0). pose proof Hn0 as Hfind. rewrite link_ddir in Hfind by (by intros ? ?).
  destruct (dfind (cstr name) 0 (entries V p)) as [[n1 off0]|] eqn:Ef; [|done]. injection Hfind as ->.
  destruct (t_dev _ _ _ _ _ _ Ht k p Hp Hr) as [Ed Hin]. pose proof (t_sync _ _ _ _ _ _ Ht k p Hp Hr Hvd) as Esync.
  assert (size (∅ : gset Z) < 30)%nat as Hz by (rewrite size_empty; lia).
  assert (entry I k (i_inum p) true) as Hent by by exists p.
  unfold link_lookup. wp_run. eapply (dirlink_present_run dev SB l0 G); [exact Hs|exact Ht|done|done|apply Hv|done|done|exact Hb|lia|done|done|done|exact Ef|done|done|].
  clear s Hs. intros I2 s Hs Ht2 Eref Eslots Hkeep. wp_run.
  destruct (Hkeep k (i_inum p) true Hent) as (p2 & Hp2 & En2 & Hpos2 & Hv2).
  specialize (Hv2 eq_refl). destruct (t_dev _ _ _ _ _ _ Ht2 k p2 Hp2 Hpos2) as [Ed2 _].
  assert (dinode_of p2 = dinode_of p) as Edi by (rewrite (t_sync _ _ _ _ _ _ Ht2 k p2 Hp2 Hpos2 Hv2), En2; by symmetry).
  assert (entries V p2 = entries V p ∧ dir_ok V p2) as [Eent Hdp].
  { split; [rewrite (entries_dfile V p2 _ eq_refl), (entries_dfile V p _ eq_refl); by rewrite Edi|]. destruct Hd as (D1 & D2 & [D3 D4]).
    assert (i_type p2 = i_type p ∧ i_size p2 = i_size p ∧ i_addrs p2 = i_addrs p) as (E1 & E2 & E3) by (unfold dinode_of in Edi; by injection Edi).
    split; [by rewrite E1|]. split; [by rewrite E2|]. split; [by rewrite E2|]. intros i. rewrite E2, (bslot_addrs V p2 p) by done. apply D4. }
  eapply (dirlookup_run dev SB l0 G); [exact Hs|exact Hp2|done|apply Hv|done|done|done|done|by rewrite Eent, Ef|].
  intros n1 off. rewrite Eent, Ef. intros [= <- <-]. clear s Hs. intros s Hs.
  eapply (t_iget dev SB l0); [exact Hs|exact Ht2|done|intros m; rewrite Eref; by apply Hb|lia|left; lia|]. clear s Hs. intros k' I3 s Hs Ht3 (q & Hq1 & Hq2 & Hq3 & _) _ _ _. wp_run.
  exists V, ∅, I3, c. split; [exact Hs|]. split; [done|]. split; [done|]. split; [exists k', q; by destruct (t_dev _ _ _ _ _ _ Ht3 k' q Hq1 Hq3)|].
  intros V2 Hsh. split; [rewrite link_ddir by done; by rewrite Ef|]. split; [intros nm _; by rewrite !link_ddir by (done || by intros ? ?)|].
  intros m Hm _. by apply (dinode_home SB G V).
Qed.

End linking.

(** A name that is linked is found, and nothing else changes in the
    directory.  [dirlink] of a name that is not in a sound directory returns 0 and
    the name leads to the linked inode; of a name that is there it returns -1 and
    the name leads where it did.  [dirlookup] then returns an entry of the inode
    table for that inode; on disk every other name leads where it did, and every
    other inode is untouched.  A crash leaves the disk before, or with the name. *)
Theorem dirlink_found dev SB s I c k p name n :
  let V := dview s in let old := ddir SB V (i_inum p) (cstr name) in
  dev ≠ 0 → fsgeo SB → 8 < sb_nlog SB → fsq dev SB s I c → vok SB V → tbl dev SB (flog s) V [] I → bounded dev I 2147483600 → 0 < slots I →
  I !! k = Some p → 0 < i_ref p → i_valid p = true → finv SB V p → dir_ok V p → i_size p + 16 ≤ MAXFILE * BSIZE → (2 ≤ nfree SB V)%nat →
  length name = 14%nat → Forall (λ x, 0 ≤ x < 256) name → (∀ n0, old = Some n0 → live SB V n0) → 0 < n < Z.min 65536 (sb_ninodes SB) →
  ∃ s' I' k' q W, in_tx (link_lookup (iptr k) name n) s = OK (if old then -1 else 0, iptr k') s' ∧ fsq dev SB s' I' c ∧
    I' !! k' = Some q ∧ i_dev q = dev ∧ i_inum q = default n old ∧ 0 < i_ref q ∧
    entered SB V (dview s') (i_inum p) (cstr name) (default n old) ∧
    wtrace (bcache (flog s')) = wtrace (bcache (flog s)) ++ W ∧ crash_safe dev SB s (dview s') W.
Proof.
  intros V old Hdev G Hnl Hq Hv Ht Hb Hsl Hp Hr Hvd Hf Hd Hsz Hnf Hlen Hby Hlive Hn.
  destruct (in_tx_run dev SB G (link_lookup (iptr k) name n) (linked dev SB V (i_inum p) (cstr name) (if old then -1 else 0) (default n old) c) s I c Hdev Hq)
    as ([r ip] & s' & V' & I' & c' & W & E & Hq' & (-> & Er & (k' & q & Eip & Hq1 & Hq2 & Hq3 & Hq4) & Hen) & Hh & Hwt & Hcs & _).
  { intros s1 Hs1. apply (tbl_unlocked _ _ _ (flog s1)) in Ht. destruct old as [n0|] eqn:Eold; [eapply link_present_run|eapply link_new_run]; eauto. }
  cbn in Er, Eip. subst r ip. exists s', I', k', q, W. do 6 (split; [done|]). split; [by apply Hen|]. split; [done|by eapply crash_safe_home].
Qed.

(** ** Example: a root directory with a file *)

(** Inode 1 is the root directory with one block, inode 5 the empty file [a] in it. *)
Definition ex_ddisk : disk_t :=
  <[46 := mk_dirent 1 [46] ++ mk_dirent 1 [46; 46] ++ mk_dirent 5 [97] ++ replicate 976 0]>
  (<[45 := [255; 255; 255; 255; 255; 127] ++ replicate 1018 0]>
  (<[32 := put_dinode 64 (mkD T_DIR 0 0 1 48 (46 :: replicate 12 0)) (put_dinode 320 (mkD T_FILE 0 0 1 0 (replicate 13 0)) zero_block)]> ∅)).
Definition ex_root : inode := mkInode 1 1 1 free_lock true T_DIR 0 0 1 48 (46 :: replicate 12 0).
Definition ex_dfsst (l : logst) : fsst := mkFs ex_sb false (ex_root :: replicate 49 inode0) l (iptr 0).

Section example.
Context (V : Z → block) (HV : ∀ n, n ≠ 2 → V n = dget ex_ddisk n).

Lemma ex_rslot V' i : 0 ≤ i ≤ MAXFILE → bslot V' ex_root i = if i =? 0 then 46 else 0.
Proof. intros Hi. rewrite (bslot_addrs V' ex_root ex_tinode) by done. by apply ex_tslot. Qed.
Lemma ex_dinode n : 0 ≤ n < 200 → dinode_at ex_sb V n = dinode_at ex_sb (dget ex_ddisk) n.
Proof.
  intros Hn. unfold dinode_at. f_equal. apply HV. unfold IBLOCK. cbn [sb_inodestart ex_sb]. change IPB with 16. rewrite u32_small by zlia. zlia.
Qed.
Lemma ex_types n : 0 ≤ n < 200 → dtype ex_sb V n = if n =? 1 then T_DIR else if n =? 5 then T_FILE else 0.
Proof.
  intros Hn. unfold dtype. rewrite ex_dinode by done.
  assert (forallb (λ n, d_type (dinode_at ex_sb (dget ex_ddisk) n) =? (if n =? 1 then T_DIR else if n =? 5 then T_FILE else 0)) (seqZ 0 200) = true) as E
    by (vm_compute; reflexivity).
  rewrite forallb_forall in E. by apply Z.eqb_eq, E, list_elem_of_In, elem_of_seqZ.
Qed.
Lemma ex_root_disk : dinode_at ex_sb V 1 = dinode_of ex_root.
Proof. rewrite ex_dinode by lia. vm_compute. reflexivity. Qed.
Lemma ex_kept : kept (dget ex_ddisk) V ex_root.
Proof. intros i Hi. rewrite ex_rslot by done. destruct (i =? 0); [|done]. intros _. by apply HV. Qed.

Lemma ex_entries : entries V ex_root = [mk_dirent 1 [46]; mk_dirent 1 [46; 46]; mk_dirent 5 [97]].
Proof.
  assert (entries V ex_root = entries (dget ex_ddisk) ex_root) as ->; [|vm_compute; reflexivity].
  unfold entries, fbytes. apply list_fmap_ext. intros i j Hj%lookup_seqZ. apply list_fmap_ext. intros i' o Ho%lookup_seqZ.
  apply fbyte_kept; [exact ex_kept|]. change (i_size ex_root / 16) with 3 in Hj. change (MAXFILE * BSIZE) with 274432. lia.
Qed.
Lemma ex_ddir nm : ddir ex_sb V 1 nm = if bool_decide (nm = [46] ∨ nm = [46; 46]) then Some 1 else if bool_decide (nm = [97]) then Some 5 else None.
Proof.
  unfold ddir. rewrite ex_root_disk, <-(entries_dfile V ex_root) by done. rewrite ex_entries. cbn [dfind].
  change (de_inum (mk_dirent 1 [46])) with 1. change (de_inum (mk_dirent 1 [46; 46])) with 1. change (de_inum (mk_dirent 5 [97])) with 5.
  change (cstr (de_name (mk_dirent 1 [46]))) with [46]. change (cstr (de_name (mk_dirent 1 [46; 46]))) with [46; 46].
  change (cstr (de_name (mk_dirent 5 [97]))) with [97]. cbn [Z.eqb negb andb]. rewrite bool_decide_or.
  destruct (bool_decide (nm = [46])), (bool_decide (nm = [46; 46])), (bool_decide (nm = [97])); done.
Qed.

Lemma ex_live n : n = 1 ∨ n = 5 → live ex_sb V n.
Proof. intros [-> | ->]; (split; [cbn; lia|]); (split; [by rewrite ex_types by lia|]); rewrite ex_dinode by lia; by vm_compute. Qed.
Lemma ex_dir_ok : dir_ok V ex_root.
Proof.
  split; [done|]. split; [done|]. split; [by vm_compute|]. cbn [i_size ex_root]. intros i Hi Hlt. unfold BSIZE in Hlt. rewrite ex_rslot by (rewrite MAXF; lia).
  by replace i with 0 by lia.
Qed.
Lemma ex_dirs_ok : dirs_ok ex_sb V.
Proof.
  intros n Hn Ht. change (sb_ninodes ex_sb) with 200 in Hn. rewrite ex_types in Ht by done.
  assert (n = 1) as ->. { destruct (Z.eqb_spec n 1); [done|]. by destruct (n =? 5). }
  split.
  - rewrite ex_root_disk. pose proof ex_dir_ok as (H1 & H2 & [H3 H4]). split; [done|]. split; [done|]. split; [done|]. exact H4.
  - intros nm n'. rewrite ex_ddir. intros E. apply ex_live. destruct (bool_decide (nm = [46] ∨ _)); [injection E as <-; auto|]. destruct (bool_decide (nm = [97])); [injection E as <-; auto|done].
Qed.
Lemma ex_lookup k p : (ex_root :: replicate 49 inode0) !! k = Some p → k = 0%nat ∧ p = ex_root ∨ p = inode0.
Proof.
  destruct k as [|k]; [intros [= <-]; by left|]. change ((ex_root :: replicate 49 inode0) !! S k) with (replicate 49 inode0 !! k). intros [-> _]%lookup_replicate. by right.
Qed.
Lemma ex_tbl l : tbl 1 ex_sb l V [] (itable (ex_dfsst l)).
Proof.
  split; cbn [itable ex_dfsst].
  - done.
  - intros k p [[_ ->]| ->]%ex_lookup; done.
  - intros k p [[_ ->]| ->]%ex_lookup; [|done]. intros _. split; [done|]. by vm_compute.
  - intros k p [[_ ->]| ->]%ex_lookup; [|done]. intros _ _. symmetry. apply ex_root_disk.
  - intros j k p q [[-> ->]| ->]%ex_lookup [[-> ->]| ->]%ex_lookup; done.
  - intros k p [[_ ->]| ->]%ex_lookup; done.
Qed.
Lemma ex_bounded l b : 1 ≤ b → bounded 1 (itable (ex_dfsst l)) b.
Proof.
  intros Hb m. unfold ref_of. cbn [itable ex_dfsst foldr]. assert (∀ n, foldr (λ p x, weight 1 m p + x) 0 (replicate n inode0) = 0) as ->.
  { induction n as [|n IH]; [done|]. cbn [replicate foldr]. rewrite IH. done. }
  unfold weight. destruct (_ && _); cbn; lia.
Qed.

Lemma ex_root_inv : finv ex_sb V ex_root.
Proof.
  split; [done| |].
  - intros i j Hi Hj. rewrite !ex_rslot by done. destruct (Z.eqb_spec i 0), (Z.eqb_spec j 0); intros; congruence.
  - intros i Hi. rewrite ex_rslot by done. destruct (Z.eqb_spec i 0) as [_|]; [|done]. intros _. split; [by vm_compute|].
    unfold free. rewrite BBLOCK_ex by lia. rewrite HV by done. by vm_compute.
Qed.

End example.

Lemma namex_resolves_witness :
  ∃ l ip name' s' I' k q, boot 1 ex_sb ex_ddisk 3 = OK tt l ∧ in_tx (namex [47; 97] false (replicate 14 0)) (ex_dfsst l) = OK (ip, name') s' ∧
    itable s' = I' ∧ ip = iptr k ∧ I' !! k = Some q ∧ i_inum q = 5.
Proof.
  destruct (disk_boot ex_ddisk) as (l & Eb & Hq & Hok & Hd); [vm_compute; reflexivity..|].
  destruct (namex_resolves ex_sb (ex_dfsst l) (itable (ex_dfsst l)) 0 1 [47; 97] false (replicate 14 0)) as (ip & name' & s' & I' & E & Hq' & Hn & _).
  - exact ex_geo.
  - by do 4 (split; [done|]).
  - exact Hok.
  - by apply ex_dirs_ok.
  - by apply ex_tbl.
  - by apply ex_bounded.
  - vm_compute. congruence.
  - exists ex_root. split; [reflexivity|]. split; [reflexivity|]. split; [reflexivity|discriminate].
  - apply ex_live; auto.
  - apply ex_live; auto.
  - done.
  - apply Forall_replicate. lia.
  - repeat constructor; lia.
  - change (start_of [47; 97] 1) with 1 in Hn. change (elems [47; 97]) with [[97]] in Hn.
    assert (resolve_to ex_sb (dview (ex_dfsst l)) false 1 [[97]] = Some 5) as Ew.
    { cbn [resolve_to resolve]. rewrite (ex_types (dview (ex_dfsst l))) by (exact Hd || lia). cbn [Z.eqb Pos.eqb]. by rewrite (ex_ddir (dview (ex_dfsst l))) by exact Hd. }
    rewrite Ew in Hn. destruct Hn as (k & -> & _ & (q & Hq1 & Hq2 & _) & _).
    exists l, (iptr k), name', s', I', k, q. split; [exact Eb|]. split; [exact E|]. split; [apply Hq'|]. split; [reflexivity|]. split; [exact Hq1|exact Hq2].
Defined.

Lemma dirlink_found_witness :
  ∃ l s' k' q, boot 1 ex_sb ex_ddisk 3 = OK tt l ∧ in_tx (link_lookup (iptr 0) (98 :: replicate 13 0) 5) (ex_dfsst l) = OK (0, iptr k') s' ∧
    itable s' !! k' = Some q ∧ i_inum q = 5 ∧ ddir ex_sb (dview s') 1 [98] = Some 5 ∧ ddir ex_sb (dview s') 1 [97] = Some 5.
Proof.
  destruct (disk_boot ex_ddisk) as (l & Eb & Hq & Hok & Hd); [vm_compute; reflexivity..|].
  destruct (free_ok ex_ddisk 8 (dget (disk (bcache l)))) as [Hv Hf]; [vm_compute; reflexivity|by apply Hd|done|].
  destruct (dirlink_found 1 ex_sb (ex_dfsst l) (itable (ex_dfsst l)) (iptr 0) 0 ex_root (98 :: replicate 13 0) 5)
    as (s' & I' & k' & q & W & E & Hq' & Hk & _ & Hn & _ & (Hnew & Hold & _) & _).
  - discriminate.
  - exact ex_geo.
  - cbn; lia.
  - by do 4 (split; [done|]).
  - exact Hv.
  - by apply ex_tbl.
  - by apply ex_bounded.
  - vm_compute. reflexivity.
  - done.
  - done.
  - done.
  - by apply ex_root_inv.
  - by apply ex_dir_ok.
  - vm_compute. congruence.
  - unfold dview. cbn [flog ex_dfsst]. lia.
  - done.
  - constructor; [lia|]. apply Forall_replicate. lia.
  - intros n0. change (i_inum ex_root) with 1. rewrite (ex_ddir (dview (ex_dfsst l))) by exact Hd. discriminate.
  - cbn. lia.
  - change (i_inum ex_root) with 1 in E, Hn, Hnew. rewrite (ex_ddir (dview (ex_dfsst l))) in E, Hn, Hnew by exact Hd.
    exists l, s', k', q. split; [exact Eb|]. split; [exact E|]. destruct Hq' as (_ & _ & Ei & _). rewrite Ei. split; [exact Hk|]. split; [exact Hn|].
    split; [exact Hnew|]. change (i_inum ex_root) with 1 in Hold. rewrite Hold by discriminate. by rewrite (ex_ddir (dview (ex_dfsst l))) by exact Hd.
Defined.
