(* ===== verification/FsSound.v ===== *)
(** * Sound files between transactions

    The blocks of the log are not part of any file: what is known of the disk a
    transaction has made is known of the disk that is there after it. *)

From stdpp Require Import base gmap list strings numbers.
From S2P Require Import Prelude Block SleepLock Bio BioSpec Cache Log LogSpec Fs FsTx FsAlloc FsInode FsOp FsFile FsWrite FsTrunc FsTable FsPath.

Section home.
Context (dev : Z) (SB : superblock) (G : fsgeo SB).

Lemma same_home_refl V : same_home SB V V.
Proof. by intros n _. Qed.
Lemma same_home_trans V1 V2 V3 : same_home SB V1 V2 → same_home SB V2 V3 → same_home SB V1 V3.
Proof. intros H1 H2 n Hn. by rewrite H2, H1. Qed.

Lemma vok_home V V' : vok SB V → same_home SB V V' → (∀ n, block_ok (V' n)) → vok SB V'.
Proof. intros [_ H] E Hok. split; [done|]. intros b Hb Hf. apply H; [done|]. by apply (home_same_free SB G V V'). Qed.
Lemma nfree_home V V' : same_home SB V V' → nfree SB V' = nfree SB V.
Proof. intros E. unfold nfree. f_equal. apply filter_ext_in. intros b Hb%elem_of_seqZ. by apply (home_same_free SB G V V'); [|lia]. Qed.
Lemma finv_home V V' p : finv SB V p → same_home SB V V' → finv SB V' p.
Proof.
  intros Hf E. pose proof (kept_home SB G V V' p Hf E) as Hk. destruct (g_size SB G). assert (∀ i, 0 ≤ i ≤ MAXFILE → bslot V' p i = bslot V p i) as Eb by (intros i Hi; by apply bslot_kept).
  split; [apply Hf| |].
  - intros i j Hi Hj. rewrite !Eb by done. by apply (f_inj _ _ _ Hf).
  - intros i Hi. rewrite Eb by done. intros Hz. destruct (f_rng _ _ _ Hf i Hi Hz) as [Hr Hn]. split; [done|].
    intros Hfr. apply Hn. apply (home_same_free SB G V V' E); [lia|done].
Qed.
Lemma full_home V V' p : finv SB V p → same_home SB V V' → full V p → full V' p.
Proof.
  intros Hf E [H1 H2]. split; [done|]. intros i Hi Hlt. change (MAXFILE * BSIZE) with 274432 in H1. unfold BSIZE in *.
  rewrite (bslot_kept V V' p i (kept_home SB G V V' p Hf E)) by (rewrite MAXF; lia). by apply H2.
Qed.
Lemma full_addrs V p q : i_addrs p = i_addrs q → i_size p = i_size q → full V p → full V q.
Proof. intros E1 E2 [H1 H2]. split; [by rewrite <-E2|]. intros i. rewrite <-E2, <-(bslot_addrs V p q i E1). apply H2. Qed.

Lemma tbl_home l l' V V' I : tbl dev SB l V [] I → same_home SB V V' → tbl dev SB l' V' [] I.
Proof.
  intros [H1 H2 H3 H4 H5 H6] E. split; [done..| |done|done]. intros k p Hp Hr Hv. rewrite (H4 k p Hp Hr Hv). symmetry.
  apply (dinode_home SB G); [done|]. by destruct (H3 k p Hp Hr).
Qed.

(** The file with inode [n] is sound on disk. *)
Definition sound (V : Z → block) (n : Z) : Prop :=
  0 ≤ n < sb_ninodes SB ∧ d_type (dinode_at SB V n) ≠ 0 ∧ finv SB V (dfile (dinode_at SB V n)) ∧ full V (dfile (dinode_at SB V n)).

Lemma sound_home V V' n : sound V n → same_home SB V V' → sound V' n.
Proof.
  intros (Hn & Ht & Hf & Hfull) E. unfold sound. rewrite (dinode_home SB G V V' n E Hn). split; [done|]. split; [done|].
  split; [by eapply finv_home|by eapply full_home].
Qed.
Lemma sound_entry V n p : sound V n → dinode_of p = dinode_at SB V n → i_inum p = n → block_ok (V (IBLOCK n SB)) → file_ok SB V p.
Proof.
  intros (Hn & _ & Hf & Hfull) E En Hb. split; [by rewrite En|]. split; [by rewrite En|]. split; [rewrite E; by apply get_dinode_ok|].
  split; [eapply (finv_addrs SB); [|exact Hf]|eapply full_addrs; [| |exact Hfull]]; by rewrite <-E.
Qed.
Lemma written_sound off bs V p V' p' n : i_inum p = n → d_type (dinode_of p) ≠ 0 → 0 ≤ n < sb_ninodes SB → written SB off bs V p V' p' → sound V' n.
Proof.
  intros En Ht Hn Hw. pose proof (wn_disk _ _ _ _ _ _ _ Hw) as Ed. rewrite En in Ed. destruct (wn_fields _ _ _ _ _ _ _ Hw) as [a Ea].
  split; [done|]. rewrite Ed. split; [by rewrite Ea|].
  split; [eapply (finv_addrs SB); [|apply (wn_inv _ _ _ _ _ _ _ Hw)]|eapply full_addrs; [| |apply (wn_full _ _ _ _ _ _ _ Hw)]]; done.
Qed.

(** What [overwritten] says depends on the file only. *)
Lemma overwritten_home off bs V V' V'' n : overwritten SB off bs V V' n → sound V' n → same_home SB V' V'' → overwritten SB off bs V V'' n.
Proof.
  intros [H1 H2] (Hn & _ & Hf & _) E. unfold overwritten, dsize, dbyte in *. rewrite (dinode_home SB G V' V'' n E Hn). split; [done|].
  intros o Ho. rewrite (fbyte_kept V' V'' _ o (kept_home SB G V' V'' _ Hf E) Ho). by apply H2.
Qed.
Lemma overwritten_nil off V n : off ≤ dsize SB V n → overwritten SB off [] V V n.
Proof. intros Ho. split; [cbn [length]; lia|]. intros o _. destruct (Z.leb_spec off o), (Z.ltb_spec o (off + Z.of_nat (length ([] : list Z)))); cbn in *; done || lia. Qed.
Lemma overwritten_app off bs1 bs2 V V1 V2 n : overwritten SB off bs1 V V1 n → overwritten SB (off + Z.of_nat (length bs1)) bs2 V1 V2 n →
  overwritten SB off (bs1 ++ bs2) V V2 n.
Proof.
  intros [H1 H2] [H3 H4]. split; [rewrite H3, H1, length_app; lia|]. intros o Ho. rewrite H4, H2 by done. rewrite length_app, Nat2Z.inj_add. unfold at_off.
  destruct (Z.leb_spec off o); cbn [andb].
  - destruct (Z.ltb_spec o (off + Z.of_nat (length bs1))).
    + rewrite (proj2 (Z.leb_gt _ _)) by lia. cbn [andb]. rewrite (proj2 (Z.ltb_lt o _)) by lia. by rewrite lookup_app_l by lia.
    + rewrite (proj2 (Z.leb_le _ _)) by lia. cbn [andb]. rewrite Z.add_assoc. destruct (o <? _); [|done]. rewrite lookup_app_r by lia. do 2 f_equal. lia.
  - rewrite (proj2 (Z.leb_gt _ _)) by lia. done.
Qed.

End home.
