(* ===== verification/FsTree.v ===== *)
(** * The tree of files on disk

    When a disk is sound: every inode has blocks of its own, which are in use; every
    directory has whole entries with different names, which lead to files that
    exist; and the link count of an inode is the number of its names. *)

From stdpp Require Import base gmap list strings numbers.
From S2P Require Import Prelude Block SleepLock Bio BioSpec Cache Log LogSpec Fs FsTx FsAlloc FsInode FsOp FsFile FsWrite FsTrunc FsDir FsTable FsPath FsSound.

(** ** Sound disks *)

Section sound_disk.
Context (SB : superblock) (G : fsgeo SB).
Notation dn V n := (dinode_at SB V n).
Notation df V n := (dfile (dinode_at SB V n)).

(** Every inode has blocks of its own, which are in use. *)
Record sound_disk (V : Z → block) : Prop := mkSound {
  sd_vok : vok SB V;
  sd_file : ∀ n, 0 ≤ n < sb_ninodes SB → finv SB V (df V n) ∧ full V (df V n);
  sd_sep : ∀ n m, 0 ≤ n < sb_ninodes SB → 0 ≤ m < sb_ninodes SB → n ≠ m → separate V (df V n) (df V m);
}.

(** File [m] is where it was, and its blocks are in use. *)
Definition stays (V V' : Z → block) (m : Z) : Prop :=
  d_addrs (dn V' m) = d_addrs (dn V m) ∧ d_size (dn V' m) = d_size (dn V m) ∧ kept V V' (df V m) ∧
  ∀ i, 0 ≤ i ≤ MAXFILE → bslot V (df V m) i ≠ 0 → ¬ free SB V' (bslot V (df V m) i).

Lemma stays_slot V V' m i : stays V V' m → 0 ≤ i ≤ MAXFILE → bslot V' (df V' m) i = bslot V (df V m) i.
Proof. intros (E & _ & Hk & _) Hi. rewrite (bslot_addrs V' _ (df V m)) by done. by apply bslot_kept. Qed.
Lemma stays_byte V V' m o : stays V V' m → 0 ≤ o < MAXFILE * BSIZE → dbyte SB V' m o = dbyte SB V m o.
Proof. intros (E & _ & Hk & _) Ho. unfold dbyte. rewrite (fbyte_addrs V' _ (df V m)) by done. by apply fbyte_kept. Qed.
Lemma stays_file V V' m : finv SB V (df V m) ∧ full V (df V m) → stays V V' m → finv SB V' (df V' m) ∧ full V' (df V' m).
Proof.
  intros [Hf Hfull] Hs. pose proof Hs as (E1 & E2 & Hk & Hu). split; [split|].
  - cbn [i_addrs dfile]. rewrite E1. apply Hf.
  - intros i j Hi Hj. rewrite !(stays_slot V V' m) by done. by apply (f_inj _ _ _ Hf).
  - intros i Hi. rewrite (stays_slot V V' m) by done. intros Hz. split; [by apply (f_rng _ _ _ Hf)|auto].
  - destruct Hfull as [F1 F2]. split; cbn [i_size dfile]; rewrite E2; [done|]. intros i Hi Hlt. change (MAXFILE * BSIZE) with 274432 in F1. cbn [i_size dfile] in F1, F2.
    rewrite (stays_slot V V' m) by (done || (rewrite MAXF; unfold BSIZE in *; lia)). by apply F2.
Qed.

(** All files but [n] stay, and new blocks of [n] were free. *)
Lemma sound_disk_but V V' n : sound_disk V → vok SB V' → (∀ m, 0 ≤ m < sb_ninodes SB → m ≠ n → stays V V' m) →
  (0 ≤ n < sb_ninodes SB → finv SB V' (df V' n) ∧ full V' (df V' n) ∧ ∀ i, 0 ≤ i ≤ MAXFILE → bslot V' (df V' n) i ≠ 0 →
     (∃ j, 0 ≤ j ≤ MAXFILE ∧ bslot V (df V n) j = bslot V' (df V' n) i) ∨ free SB V (bslot V' (df V' n) i)) →
  sound_disk V'.
Proof.
  intros [S1 S2 S3] Hv Hst Hn. split; [done|..].
  - intros m Hm. destruct (decide (m = n)) as [->|Hne]; [by destruct (Hn Hm) as (? & ? & _)|]. apply (stays_file V); [by apply S2|by apply Hst].
  - intros m1 m2 H1 H2 Hne i j Hi Hj. destruct (decide (m2 = n)) as [->|Hn2], (decide (m1 = n)) as [->|Hn1]; [done|..].
    + rewrite (stays_slot V V' m1) by (done || by apply Hst). intros Hz E. destruct (Hn H2) as (_ & _ & Hnew).
      destruct (Hnew i Hi Hz) as [(i' & Hi' & Ei)|Hf].
      * rewrite <-Ei in Hz, E. by apply (S3 m1 n H1 H2 Hne i' j Hi' Hj).
      * destruct (S2 m1 H1) as [Hf1 _]. rewrite <-E in Hz, Hf. by destruct (f_rng _ _ _ Hf1 j Hj Hz) as [_ []].
    + rewrite (stays_slot V V' m2) by (done || by apply Hst). intros Hz E. destruct (Hn H1) as (_ & _ & Hnew). rewrite <-E in Hz.
      destruct (Hnew j Hj Hz) as [(j' & Hj' & Ej)|Hf].
      * rewrite E in Hz. apply (S3 n m2 H1 H2 Hne i j' Hi Hj' Hz). congruence.
      * destruct (S2 m2 H2) as [Hf2 _]. rewrite E in Hz, Hf. by destruct (f_rng _ _ _ Hf2 i Hi Hz) as [_ []].
    + rewrite !(stays_slot V V') by (done || by apply Hst). by apply S3.
Qed.

(** Blocks and inodes outside the log are all that counts. *)
Lemma home_stays V V' m : sound_disk V → same_home SB V V' → 0 ≤ m < sb_ninodes SB → stays V V' m.
Proof.
  intros [_ S2 _] E Hm. destruct (S2 m Hm) as [Hf _]. unfold stays. rewrite (dinode_home SB G V V' m E Hm). split; [done|]. split; [done|].
  split; [by apply (kept_home SB G)|]. intros i Hi Hz. destruct (f_rng _ _ _ Hf i Hi Hz) as [Hr Hu]. destruct (g_size SB G).
  intros Hfb. apply Hu. apply (home_same_free SB G V V' E); [lia|done].
Qed.
Lemma sound_disk_home V V' : sound_disk V → same_home SB V V' → (∀ n, block_ok (V' n)) → sound_disk V'.
Proof.
  intros HS E Hok. apply (sound_disk_but V V' (-1)); [done|apply (vok_home SB G V); [apply HS|done..]| |lia].
  intros m Hm _. by apply home_stays.
Qed.

(** A file is freed. *)
Lemma bslot_empty V q i : i_addrs q = replicate 13 0 → 0 ≤ i ≤ MAXFILE → bslot V q i = 0.
Proof.
  intros E Hi. rewrite MAXF in Hi. assert (∀ j, 0 ≤ j < 13 → addr_of j q = 0) as Ha.
  { intros j Hj. unfold addr_of. rewrite E. by rewrite lookup_replicate_2 by lia. }
  destruct (decide (i < 12)); [rewrite bslot_direct by lia; apply Ha; lia|]. destruct (decide (i = 268)) as [->|]; [apply (Ha NDIRECT); by vm_compute|].
  apply bslot_none; [lia|]. apply Ha. by vm_compute.
Qed.
Lemma empty_file V q : i_addrs q = replicate 13 0 → i_size q = 0 → finv SB V q ∧ full V q.
Proof.
  intros E Es. split; [split|].
  - by rewrite E.
  - intros i j Hi Hj _ Hz. by rewrite bslot_empty in Hz.
  - intros i Hi Hz. by rewrite bslot_empty in Hz.
  - split; rewrite Es; [by vm_compute|]. unfold BSIZE. lia.
Qed.
Lemma put_back_stays V p P V' P' m : sound_disk V → file_ok SB V p → freed SB V p (MAXFILE + 1) P V' P' → 0 ≤ m < sb_ninodes SB → m ≠ i_inum p →
  dn (put_back SB V' p) m = dn V m ∧ stays V (put_back SB V' p) m.
Proof.
  intros [S1 S2 S3] Hfile Hfr Hm Hne. pose proof Hfile as (Hn & Hd & Hdok & Hf & _). destruct (IBLOCK_range SB G _ Hn) as [_ HI].
  pose proof (bmap_dstart SB G) as Hbd. destruct (S2 m Hm) as [Hfm _]. destruct (g_size SB G).
  assert (dn (put_back SB V' p) m = dn V m) as Ed.
  { rewrite (dinode_put_back SB G V' p m) by (done || apply Hfr). rewrite decide_False by done. unfold dinode_at. f_equal.
    apply (fd_other _ _ _ _ _ _ _ Hfr). left. apply (IBLOCK_range SB G _ Hm). }
  destruct (put_back_without SB G V p P V' P' (put_back SB V' p)) as (_ & _ & Efree); [done|done|by intros ? ?|].
  split; [done|]. unfold stays. rewrite Ed. split; [done|]. split; [done|]. split.
  - intros i Hi Hz. destruct (f_rng _ _ _ Hfm i Hi Hz) as [? _]. rewrite put_back_other by lia. apply (fd_other _ _ _ _ _ _ _ Hfr). right. lia.
  - intros i Hi Hz. destruct (f_rng _ _ _ Hfm i Hi Hz) as [Hr Hu]. intros Hfb. apply Efree in Hfb as [Hfb|(_ & j & Hj & E)]; [done| |lia].
    apply (S3 (i_inum p) m Hn Hm ltac:(done) i j Hi Hj Hz). rewrite <-E. apply bslot_addrs. by rewrite Hd.
Qed.
Lemma sound_put_back V p P V' P' : sound_disk V → file_ok SB V p → freed SB V p (MAXFILE + 1) P V' P' → sound_disk (put_back SB V' p).
Proof.
  intros HS Hfile Hfr. pose proof Hfile as (Hn & Hd & Hdok & Hf & _). pose proof (fd_vok _ _ _ _ _ _ _ Hfr) as Hv'.
  destruct (put_back_without SB G V p P V' P' (put_back SB V' p)) as (_ & _ & Efree); [done|done|by intros ? ?|].
  apply (sound_disk_but V _ (i_inum p)); [done| | |].
  - split; [intros b; unfold put_back, iupdated; repeat (apply block_ok_vset; [|apply block_ok_put_dinode]); apply Hv'|].
    intros b Hb Hfb. apply (Efree b Hb) in Hfb as [Hfb|(Hnz & i & Hi & <-)]; [by apply HS|]. by destruct (f_rng _ _ _ Hf i Hi Hnz) as [[? _] _].
  - intros m Hm Hne. by apply (put_back_stays V p P V' P').
  - intros _. assert (dn (put_back SB V' p) (i_inum p) = dinode_of (reclaimed p)) as ->.
    { rewrite (dinode_put_back SB G V' p) by (done || apply Hfr). by rewrite decide_True. }
    destruct (empty_file (put_back SB V' p) (dfile (dinode_of (reclaimed p)))) as [H1 H2]; [done..|]. split; [done|]. split; [done|].
    intros i Hi. by rewrite bslot_empty.
Qed.

(** A file is written. *)
Lemma written_stays V p off bs V' p' m : sound_disk V → file_ok SB V p → written SB off bs V p V' p' → 0 ≤ m < sb_ninodes SB → m ≠ i_inum p →
  dn V' m = dn V m ∧ stays V V' m.
Proof.
  intros [S1 S2 S3] Hfile Hw Hm Hne. pose proof Hfile as (Hn & Hd & _). destruct (S2 m Hm) as [Hfm _]. pose proof (wn_inodes _ _ _ _ _ _ _ Hw m Hm Hne) as Ed.
  destruct (g_size SB G). destruct (IBLOCK_range SB G _ Hn) as [_ HI]. pose proof (bmap_dstart SB G). split; [done|]. unfold stays. rewrite Ed. split; [done|]. split; [done|].
  split; intros i Hi Hz; destruct (f_rng _ _ _ Hfm i Hi Hz) as [Hr Hu].
  - apply (wn_other _ _ _ _ _ _ _ Hw); [|lia]. right; right. split; [done|]. split; [done|]. intros j Hj E.
    apply (S3 (i_inum p) m Hn Hm ltac:(done) i j Hi Hj Hz). rewrite <-E. apply bslot_addrs. by rewrite Hd.
  - intros Hfb. apply Hu. apply (wn_free _ _ _ _ _ _ _ Hw); [lia|done].
Qed.
Lemma sound_written V p off bs V' p' : sound_disk V → file_ok SB V p → written SB off bs V p V' p' → sound_disk V'.
Proof.
  intros HS Hfile Hw. pose proof Hfile as (Hn & Hd & _). apply (sound_disk_but V _ (i_inum p)); [done|apply Hw| |].
  - intros m Hm Hne. by apply (written_stays V p off bs V' p').
  - intros _. rewrite (wn_disk _ _ _ _ _ _ _ Hw).
    split; [eapply (finv_addrs SB); [|apply Hw]; done|]. split; [eapply full_addrs; [| |apply (wn_full _ _ _ _ _ _ _ Hw)]; done|].
    intros i Hi. rewrite (bslot_addrs V' (dfile (dinode_of p')) p') by done. intros Hz. destruct (wn_new _ _ _ _ _ _ _ Hw i Hi Hz) as [E|E]; [left|by right].
    exists i. split; [done|]. rewrite <-E. apply bslot_addrs. by rewrite Hd.
Qed.

(** The fields of an inode change that say nothing about its blocks. *)
Lemma iupdated_stays V n x m : sound_disk V → 0 ≤ n < sb_ninodes SB → dinode_ok x → d_addrs x = d_addrs (dn V n) → d_size x = d_size (dn V n) → 0 ≤ m < sb_ninodes SB →
  stays V (iupdated SB V n x) m.
Proof.
  intros [S1 S2 S3] Hn Hx E1 E2 Hm. destruct (S2 m Hm) as [Hfm _]. destruct (g_size SB G). destruct (IBLOCK_range SB G _ Hn) as [_ HI]. pose proof (bmap_dstart SB G).
  unfold stays. rewrite (dinode_iupdated SB G) by (done || apply S1). split; [case_decide; by subst|]. split; [case_decide; by subst|].
  split; intros i Hi Hz; destruct (f_rng _ _ _ Hfm i Hi Hz) as [Hr Hu].
  - unfold iupdated. rewrite vset_other; [done|lia].
  - unfold iupdated. rewrite (meta_free SB G) by lia. done.
Qed.
Lemma sound_iupdated V n x : sound_disk V → 0 ≤ n < sb_ninodes SB → dinode_ok x → d_addrs x = d_addrs (dn V n) → d_size x = d_size (dn V n) →
  sound_disk (iupdated SB V n x).
Proof.
  intros HS Hn Hx E1 E2. apply (sound_disk_but V _ (-1)); [done| |intros m Hm _; by apply iupdated_stays|lia]. destruct (sd_vok _ HS) as [Hok Hfr].
  destruct (IBLOCK_range SB G _ Hn) as [_ HI]. unfold iupdated. split; [apply block_ok_vset; [done|by apply block_ok_put_dinode]|].
  intros b Hb Hf. rewrite (meta_free SB G) in Hf by lia. by apply Hfr.
Qed.

Lemma sound_entry_ok V p : sound_disk V → 0 ≤ i_inum p < sb_ninodes SB → dinode_of p = dn V (i_inum p) → file_ok SB V p.
Proof.
  intros [S1 S2 _] Hn E. destruct (S2 _ Hn) as [Hf Hfull]. split; [done|]. split; [done|]. split; [rewrite E; apply get_dinode_ok, S1|].
  split; [eapply (finv_addrs SB); [|exact Hf]|eapply full_addrs; [| |exact Hfull]]; by rewrite <-E.
Qed.

End sound_disk.

(** ** Directories *)

(** The names in use. *)
Definition used (es : list (list Z)) : list (list Z) := filter (λ de, de_inum de ≠ 0) es.
Definition enames (es : list (list Z)) : list (list Z) := (λ de, cstr (de_name de)) <$> used es.

(** The entries for inode [m], without those with the name ".". *)
Definition names_inode (m : Z) (de : list Z) : Z := one ((de_inum de =? m) && negb (bool_decide (cstr (de_name de) = [46]))).
Definition tally (m : Z) (es : list (list Z)) : Z := foldr (λ de x, names_inode m de + x) 0 es.

Lemma enames_app l k : enames (l ++ k) = enames l ++ enames k.
Proof. unfold enames, used. by rewrite list.filter_app, fmap_app. Qed.
Lemma enames_cons de l : enames (de :: l) = (if decide (de_inum de ≠ 0) then [cstr (de_name de)] else []) ++ enames l.
Proof. unfold enames, used. rewrite filter_cons. by destruct (decide (de_inum de ≠ 0)). Qed.
Lemma tally_app m l k : tally m (l ++ k) = tally m l + tally m k.
Proof. unfold tally. induction l as [|de l IH]; cbn [foldr app]; [done|]. rewrite IH. lia. Qed.

Lemma put_entry_split j (es : list (list Z)) : (j ≤ length es)%nat → es = take j es ++ option_list (es !! j) ++ drop (S j) es.
Proof.
  intros Hj. destruct (es !! j) as [de|] eqn:E.
  - cbn. symmetry. by apply take_drop_middle.
  - apply lookup_ge_None in E. cbn. by rewrite take_ge, drop_ge, app_nil_r by lia.
Qed.

Lemma dfind_enames nm off es : dfind nm off es = None ↔ nm ∉ enames es.
Proof.
  revert off. induction es as [|de es IH]; intros off; [split; [by intros _ ?%elem_of_nil|done]|]. rewrite enames_cons. cbn [dfind].
  destruct (Z.eqb_spec (de_inum de) 0) as [E|E]; cbn [negb andb]; [rewrite decide_False by tauto; apply IH|]. rewrite decide_True by done.
  case_bool_decide as En; [split; [done|]; intros H; destruct H; set_solver|]. rewrite IH. set_solver.
Qed.
Lemma dfind_lookup nm off es n o : dfind nm off es = Some (n, o) → ∃ j de, es !! j = Some de ∧ o = off + 16 * Z.of_nat j ∧ de_inum de = n ∧ n ≠ 0 ∧ cstr (de_name de) = nm.
Proof.
  revert off. induction es as [|de es IH]; intros off; [done|]. cbn [dfind]. destruct (Z.eqb_spec (de_inum de) 0) as [E|E]; cbn [negb andb].
  - intros (j & de' & H1 & H2 & H3)%IH. exists (S j), de'. split; [done|]. split; [lia|done].
  - case_bool_decide as En.
    + intros [= <- <-]. exists 0%nat, de. split; [done|]. split; [lia|done].
    + intros (j & de' & H1 & H2 & H3)%IH. exists (S j), de'. split; [done|]. split; [lia|done].
Qed.

(** A new entry with a new name. *)
Lemma enter_names j e es : (j ≤ length es)%nat → (∀ de, es !! j = Some de → de_inum de = 0) → de_inum e ≠ 0 → NoDup (enames es) → cstr (de_name e) ∉ enames es →
  NoDup (enames (put_entry j e es)).
Proof.
  intros Hj Hfree He Hn Hnew. unfold put_entry. rewrite (put_entry_split j es Hj) in Hn, Hnew. rewrite !enames_app in Hn, Hnew. rewrite enames_app, enames_cons, decide_True by done.
  assert (enames (option_list (es !! j)) = []) as E.
  { destruct (es !! j) as [de|]; [|done]. change (option_list (Some de)) with [de]. rewrite enames_cons, decide_False; [done|]. rewrite (Hfree de eq_refl). tauto. }
  rewrite E in Hn, Hnew. cbn [app] in *. rewrite <-Permutation_middle. constructor; done.
Qed.
Lemma enter_tally m j e es : (j ≤ length es)%nat → (∀ de, es !! j = Some de → de_inum de = 0) → m ≠ 0 →
  tally m (put_entry j e es) = tally m es + names_inode m e.
Proof.
  intros Hj Hfree Hm. unfold put_entry. rewrite (put_entry_split j es Hj) at 3. rewrite !tally_app.
  assert (tally m (option_list (es !! j)) = 0) as ->.
  { destruct (es !! j) as [de|]; [|done]. cbn. unfold names_inode. rewrite (Hfree de eq_refl), (proj2 (Z.eqb_neq 0 m)) by done. done. }
  change (tally m (e :: drop (S j) es)) with (names_inode m e + tally m (drop (S j) es)). lia.
Qed.

(** ** The tree *)

Section tree.
Context (SB : superblock) (G : fsgeo SB).
Notation dn V n := (dinode_at SB V n).
Notation df V n := (dfile (dinode_at SB V n)).
Notation range n := (0 ≤ n < sb_ninodes SB).

Definition dents (V : Z → block) (n : Z) : list (list Z) := entries V (df V n).
Definition names (V : Z → block) (m : Z) : Z :=
  foldr (λ d x, (if dtype SB V d =? T_DIR then tally m (dents V d) else 0) + x) 0 (seqZ 0 (sb_ninodes SB)).

Record tree (V : Z → block) : Prop := mkTree {
  tr_sound : sound_disk SB V;
  tr_dirs : dirs_ok SB V;
  tr_uniq : ∀ d, range d → dtype SB V d = T_DIR → NoDup (enames (dents V d));
  tr_dot : ∀ d, range d → dtype SB V d = T_DIR → ddir SB V d [46] = Some d;
}.
(** The link count of an inode is the number of its names. *)
Definition counted (V : Z → block) : Prop := ∀ n, 0 < n < sb_ninodes SB → dtype SB V n ≠ 0 → d_nlink (dn V n) = names V n.

(** What paths see is the same. *)
Definition alike (V V' : Z → block) : Prop := ∀ m, range m → dtype SB V' m = dtype SB V m ∧ dents V' m = dents V m.

Lemma stays_dents V V' m : sound_disk SB V → range m → stays SB V V' m → dents V' m = dents V m.
Proof.
  intros HS Hm Hst. pose proof Hst as (_ & E & _). destruct (sd_file _ _ HS m Hm) as [_ [Hsz _]]. cbn [i_size dfile] in Hsz.
  unfold dents, entries. cbn [i_size dfile]. rewrite E. apply list_fmap_ext. intros i j Hj%lookup_seqZ. apply list_fmap_ext. intros i' o Ho%lookup_seqZ.
  apply (stays_byte SB V V' m o Hst). zlia.
Qed.
Lemma ddir_dents V V' d d' nm : dents V' d' = dents V d → ddir SB V' d' nm = ddir SB V d nm.
Proof. intros E. unfold ddir. by fold (dents V' d') (dents V d); rewrite E. Qed.
Lemma dir_ok_dfile' V p n : dn V n = dinode_of p → dir_ok V p → dir_ok V (df V n).
Proof.
  intros -> (H1 & H2 & [H3 H4]). split; [done|]. split; [done|]. split; [done|]. intros i Hi Hlt. rewrite (bslot_addrs V _ p) by done. by apply H4.
Qed.
Lemma names_alike V V' m : alike V V' → names V' m = names V m.
Proof.
  intros H. unfold names. assert (∀ l, (∀ d, d ∈ l → range d) → foldr (λ d x, (if dtype SB V' d =? T_DIR then tally m (dents V' d) else 0) + x) 0 l =
    foldr (λ d x, (if dtype SB V d =? T_DIR then tally m (dents V d) else 0) + x) 0 l) as Hl; [|apply Hl; intros d; rewrite elem_of_seqZ; lia].
  induction l as [|d l IH]; intros Hr; cbn [foldr]; [done|]. destruct (H d (Hr d (list_elem_of_here _ _))) as [-> ->]. rewrite IH; [done|].
  intros d' Hd'. apply Hr. by constructor.
Qed.
Lemma resolve_alike V V' n es : alike V V' → dirs_ok SB V → range n → resolve SB V' n es = resolve SB V n es.
Proof.
  intros H Hd. revert n. induction es as [|e es IH]; intros n Hn; cbn [resolve]; [done|]. destruct (H n Hn) as [-> E].
  destruct (Z.eqb_spec (dtype SB V n) T_DIR) as [Ht|]; [|done]. rewrite (ddir_dents V V' n n e E). destruct (ddir SB V n e) as [n'|] eqn:En; [|done].
  apply IH. destruct (Hd n Hn Ht) as [_ Hl]. by destruct (Hl e n' En).
Qed.
Lemma resolve_range V n es r : dirs_ok SB V → range n → resolve SB V n es = Some r → range r.
Proof.
  intros Hd. revert n. induction es as [|e es IH]; intros n Hn; cbn [resolve]; [by intros [= <-]|].
  destruct (Z.eqb_spec (dtype SB V n) T_DIR) as [Ht|]; [|done]. destruct (ddir SB V n e) as [n'|] eqn:En; [|done].
  apply IH. destruct (Hd n Hn Ht) as [_ Hl]. by destruct (Hl e n' En).
Qed.
Lemma resolve_live V np n es r : dirs_ok SB V → live SB V n → resolve_to SB V np n es = Some r → live SB V r.
Proof.
  intros Hd. assert (∀ es n r, live SB V n → resolve SB V n es = Some r → live SB V r) as Hr.
  { clear n es r. induction es as [|e es IH]; intros n r Hn; cbn [resolve]; [by intros [= <-]|].
    destruct (Z.eqb_spec (dtype SB V n) T_DIR) as [Ht|]; [|done]. destruct (ddir SB V n e) as [n'|] eqn:En; [|done].
    apply IH. destruct (Hd n (proj1 Hn) Ht) as [_ Hl]. by apply (Hl e). }
  destruct np; [|by apply Hr]. cbn [resolve_to]. unfold resolve_parent. intros Hn. destruct es as [|e es]; [done|].
  destruct (resolve SB V n _) as [d|] eqn:E; [|done]. destruct (_ =? _); [|done]. intros [= <-]. by eapply Hr.
Qed.
Lemma resolve_nonzero V n es r : n ≠ 0 → resolve SB V n es = Some r → r ≠ 0.
Proof.
  revert n. induction es as [|e es IH]; intros n Hn; cbn [resolve]; [by intros [= <-]|]. destruct (_ =? _); [|done].
  destruct (ddir SB V n e) as [n'|] eqn:En; [|done]. apply IH. unfold ddir in En. destruct (dfind e 0 _) as [[x o]|] eqn:Ef; [|done].
  apply dfind_lookup in Ef as (_ & _ & _ & _ & _ & Hx & _). cbn in En. congruence.
Qed.
Lemma resolve_to_alike V V' np n es : alike V V' → dirs_ok SB V → range n → resolve_to SB V' np n es = resolve_to SB V np n es.
Proof.
  intros H Hd Hn. destruct np; [|by apply resolve_alike]. cbn [resolve_to]. unfold resolve_parent. destruct es as [|e es]; [done|].
  rewrite (resolve_alike V V') by done. destruct (resolve SB V n _) as [r|] eqn:E; [|done]. apply resolve_range in E; [|done..].
  by destruct (H r E) as [-> _].
Qed.

(** Nothing changes but link counts, of which none becomes 0. *)
Lemma tree_relinked V V' : tree V → sound_disk SB V' → (∀ m, range m → dtype SB V' m = dtype SB V m ∧ stays SB V V' m ∧ (d_nlink (dn V m) ≠ 0 → d_nlink (dn V' m) ≠ 0)) →
  tree V' ∧ alike V V'.
Proof.
  intros [T1 T2 T3 T4] HS H. assert (alike V V') as Ha.
  { intros m Hm. destruct (H m Hm) as (E & Hst & _). split; [done|]. by apply stays_dents. }
  split; [|done]. assert (∀ m, live SB V m → live SB V' m) as Hlive.
  { intros m (Hm & Ht & Hnl). destruct (H m Hm) as (E & _ & Hl). split; [done|]. split; [by rewrite E|auto]. }
  split; [done|..].
  - intros d Hd Ht. destruct (Ha d Hd) as [E1 E2]. rewrite E1 in Ht. destruct (T2 d Hd Ht) as [Hok Hn]. split.
    + destruct (H d Hd) as (_ & Hst & _). destruct (stays_file SB V V' d (sd_file _ _ T1 d Hd) Hst) as [_ Hfull]. destruct Hok as (H1 & H2 & _).
      split; [change (dtype SB V' d = T_DIR); congruence|]. split; [|done]. destruct Hst as (_ & Es & _). cbn [i_size dfile]. by rewrite Es.
    + intros nm n'. rewrite (ddir_dents V V' d d nm E2). intros E. by apply Hlive, (Hn nm).
  - intros d Hd Ht. destruct (Ha d Hd) as [E1 E2]. rewrite E2. apply T3; [done|congruence].
  - intros d Hd Ht. destruct (Ha d Hd) as [E1 E2]. rewrite (ddir_dents V V' d d _ E2). apply T4; [done|congruence].
Qed.

Definition set_d_nlink (x : Z) (d : dinode) : dinode := mkD (d_type d) (d_major d) (d_minor d) x (d_size d) (d_addrs d).

(** The link count of [n] becomes [x], and nothing else changes. *)
Record relinked (V V' : Z → block) (n x : Z) : Prop := mkRelinked {
  rl_sound : sound_disk SB V';
  rl_inode : ∀ m, range m → dn V' m = if decide (m = n) then set_d_nlink x (dn V m) else dn V m;
  rl_stays : ∀ m, range m → stays SB V V' m;
  rl_nfree : nfree SB V' = nfree SB V;
}.
Lemma relinked_iupdated V n x : sound_disk SB V → range n → short x → relinked V (iupdated SB V n (set_d_nlink x (dn V n))) n x.
Proof.
  intros HS Hn Hx. pose proof (proj1 (sd_vok _ _ HS)) as Hok. destruct (get_dinode_ok (dip_off n) (V (IBLOCK n SB)) (Hok _)) as (D1 & D2 & D3 & D4 & D5).
  assert (dinode_ok (set_d_nlink x (dn V n))) as Hd by by do 4 (split; [done|]). destruct (IBLOCK_range SB G n Hn) as [_ HI]. split.
  - by apply (sound_iupdated SB G).
  - intros m Hm. rewrite (dinode_iupdated SB G) by done. case_decide; by subst.
  - intros m Hm. by apply (iupdated_stays SB G).
  - unfold iupdated. apply (nfree_meta SB G). lia.
Qed.
Lemma tree_relink V V' n x : tree V → relinked V V' n x → (d_nlink (dn V n) ≠ 0 → x ≠ 0) → tree V' ∧ alike V V'.
Proof.
  intros HT [R1 R2 R3 _] Hx. apply tree_relinked; [done|done|]. intros m Hm. unfold dtype. rewrite R2 by done. split; [by case_decide|]. split; [auto|].
  case_decide as E; [subst m; exact Hx|done].
Qed.

(** Nothing changed that is not in the log. *)
Definition unchanged (V V' : Z → block) : Prop := ∀ m, range m → dn V' m = dn V m ∧ stays SB V V' m.
Lemma stays_trans V V1 V2 m : stays SB V V1 m → stays SB V1 V2 m → stays SB V V2 m.
Proof.
  intros H1 H2. pose proof H1 as (A1 & S1 & K1 & F1). pose proof H2 as (A2 & S2 & K2 & F2). split; [congruence|]. split; [congruence|].
  split; intros i Hi Hz; rewrite <-(stays_slot SB V V1 m i H1 Hi) in Hz |- *.
  - rewrite K2 by done. rewrite (stays_slot SB V V1 m i H1 Hi) in Hz |- *. by apply K1.
  - by apply F2.
Qed.
Lemma relinked_back V V1 V2 n x : range n → relinked V V1 n x → relinked V1 V2 n (d_nlink (dn V n)) → unchanged V V2.
Proof.
  intros Hn [_ R2 R3 _] [_ R2' R3' _] m Hm. split; [|by eapply stays_trans; auto]. rewrite R2' by done. rewrite R2 by done.
  case_decide as E; [subst m; by destruct (dn V n)|done].
Qed.

Lemma unchanged_alike V V' : sound_disk SB V → unchanged V V' → alike V V'.
Proof. intros HS H m Hm. destruct (H m Hm) as [E Hst]. unfold dtype. rewrite E. split; [done|]. by apply stays_dents. Qed.
Lemma unchanged_home V V' : sound_disk SB V → same_home SB V V' → unchanged V V'.
Proof. intros HS E m Hm. split; [by apply (dinode_home SB G)|by apply (home_stays SB G)]. Qed.
Lemma unchanged_trans V V1 V2 : unchanged V V1 → unchanged V1 V2 → unchanged V V2.
Proof. intros H1 H2 m Hm. destruct (H1 m Hm) as [E1 S1], (H2 m Hm) as [E2 S2]. split; [congruence|by eapply stays_trans]. Qed.
Lemma tree_home V V' : tree V → same_home SB V V' → (∀ n, block_ok (V' n)) → tree V'.
Proof.
  intros HT E Hok. destruct (tree_relinked V V' HT) as [HT' _]; [by apply (sound_disk_home SB G V V'); [apply HT|..]| |done].
  intros m Hm. destruct (unchanged_home V V' (tr_sound _ HT) E m Hm) as [Ed Hst]. unfold dtype. by rewrite Ed.
Qed.
Lemma counted_alike V V' : counted V → alike V V' → (∀ m, range m → d_nlink (dn V' m) = d_nlink (dn V m)) → counted V'.
Proof.
  intros Hc Ha Hn n Hr Ht. rewrite (names_alike V V') by done. rewrite Hn by lia. apply Hc; [done|]. by rewrite <-(proj1 (Ha n ltac:(lia))).
Qed.

(** One directory changes. *)
Lemma names_change V V' d m : range d → dtype SB V d = T_DIR → (∀ k, range k → dtype SB V' k = dtype SB V k) → (∀ k, range k → k ≠ d → dents V' k = dents V k) →
  names V' m = names V m + (tally m (dents V' d) - tally m (dents V d)).
Proof.
  intros Hd Ht H1 H2. unfold names.
  set (f W := λ k, if dtype SB W k =? T_DIR then tally m (dents W k) else 0).
  assert (∀ l, NoDup l → (∀ k, k ∈ l → range k) → foldr (λ k x, f V' k + x) 0 l = foldr (λ k x, f V k + x) 0 l + (if decide (d ∈ l) then f V' d - f V d else 0)) as Hl.
  { induction l as [|k l IH]; intros Hnd Hr; [rewrite decide_False by apply not_elem_of_nil; done|]. cbn [foldr]. apply list.NoDup_cons in Hnd as [Hk Hnd].
    rewrite IH by (done || (intros; apply Hr; by constructor)). destruct (decide (k = d)) as [->|Hne].
    - rewrite (decide_True (P := d ∈ d :: l)) by constructor. rewrite decide_False by done. lia.
    - assert (f V' k = f V k) as -> by (unfold f; rewrite H1, H2 by (done || (apply Hr; constructor)); done).
      destruct (decide (d ∈ l)); [rewrite decide_True by by constructor|rewrite decide_False by set_solver]; lia. }
  fold (f V) (f V'). change (foldr (λ k x, f V' k + x) 0 (seqZ 0 (sb_ninodes SB)) = foldr (λ k x, f V k + x) 0 (seqZ 0 (sb_ninodes SB)) + (tally m (dents V' d) - tally m (dents V d))).
  rewrite Hl; [|apply NoDup_seqZ|intros k; rewrite elem_of_seqZ; lia]. rewrite decide_True by (apply elem_of_seqZ; lia).
  unfold f. rewrite (H1 d Hd), Ht, Z.eqb_refl. done.
Qed.

(** A new name for [n] in the directory of [p]. *)
Lemma tree_entered V p V' p' j name n : tree V → file_ok SB V p → i_type p = T_DIR → (j ≤ length (entries V p))%nat → (∀ de, entries V p !! j = Some de → de_inum de = 0) →
  written SB (16 * Z.of_nat j) (mk_dirent n name) V p V' p' → i_size p + 16 ≤ MAXFILE * BSIZE → length name = 14%nat → 0 < n < 65536 → live SB V n →
  dfind (cstr name) 0 (entries V p) = None →
  tree V' ∧ (∀ m, range m → dtype SB V' m = dtype SB V m ∧ d_nlink (dn V' m) = d_nlink (dn V m)) ∧
  (∀ m, m ≠ 0 → names V' m = names V m + one (m =? n)) ∧
  ddir SB V' (i_inum p) (cstr name) = Some n ∧ (∀ nm, nm ≠ cstr name → ddir SB V' (i_inum p) nm = ddir SB V (i_inum p) nm) ∧
  ∀ m, range m → m ≠ i_inum p → stays SB V V' m.
Proof.
  intros [T1 T2 T3 T4] Hfile Hty Hj Hfree Hw Hsz Hlen Hn Hlive Hnone. pose proof Hfile as (Hin & Hd & _). set (d := i_inum p) in *.
  assert (dents V d = entries V p) as Eold by (unfold dents; symmetry; by apply entries_dfile). assert (dtype SB V d = T_DIR) as Htd by (unfold dtype; by rewrite Hd).
  destruct (T2 d Hin Htd) as [Hok0 _]. assert (dir_ok V p) as Hok by by apply (dir_ok_dfile SB V p d).
  destruct (written_ents SB V p V' p' j name n Hj Hok Hn Hlen Hw Hsz Hfree Hnone) as (Hok' & Hnew & Hother).
  destruct (written_entries SB V p V' p' j (mk_dirent n name)) as [Eent _]; [done|done|apply length_mk_dirent|rewrite length_entries in Hj; destruct Hok as (_ & ? & [? _]); change (MAXFILE * BSIZE) with 274432 in *; zlia|done|].
  pose proof (wn_disk _ _ _ _ _ _ _ Hw) as Hd'. fold d in Hd'. destruct (wn_fields _ _ _ _ _ _ _ Hw) as [l El].
  assert (dents V' d = entries V' p') as Edd by (unfold dents; symmetry; by apply entries_dfile).
  assert (∀ m, range m → m ≠ d → dn V' m = dn V m ∧ stays SB V V' m) as Hst by (intros m Hm Hne; by eapply (written_stays SB G V p _ _ V' p')).
  assert (∀ m, range m → dtype SB V' m = dtype SB V m ∧ d_nlink (dn V' m) = d_nlink (dn V m)) as Hsame.
  { intros m Hm. unfold dtype. destruct (decide (m = d)) as [->|Hne]; [rewrite Hd', Hd, El; done|]. by destruct (Hst m Hm Hne) as [-> _]. }
  assert (∀ m, range m → m ≠ d → dents V' m = dents V m) as Eother by (intros m Hm Hne; apply stays_dents; [done|done|by apply Hst]).
  assert (∀ m, live SB V m → live SB V' m) as Hl by (intros m (Hm & H1 & H2); destruct (Hsame m Hm) as [E1 E2]; split; [done|]; by rewrite E1, E2).
  assert (ddir SB V' d (cstr name) = Some n) as Ennew by (unfold ddir; fold (dents V' d); by rewrite Edd, Hnew).
  assert (∀ nm, nm ≠ cstr name → ddir SB V' d nm = ddir SB V d nm) as Enother by (intros nm Hne; unfold ddir; fold (dents V' d) (dents V d); by rewrite Edd, Eold, Hother).
  assert (de_inum (mk_dirent n name) = n) as Ei by (rewrite de_inum_mk; zlia).
  assert (cstr (de_name (mk_dirent n name)) = cstr name) as Ec by (rewrite de_name_mk; by apply cstr_strncpy_list).
  assert (cstr name ≠ [46]) as Hndot.
  { intros E. pose proof (T4 d Hin Htd) as Hdot. unfold ddir in Hdot. fold (dents V d) in Hdot. by rewrite Eold, <-E, Hnone in Hdot. }
  split; [|split; [done|split; [|split; [done|split; [done|intros m Hm Hne; by apply Hst]]]]].
  - split; [by eapply (sound_written SB G V p _ _ V' p')|..].
    + intros m Hm Ht. rewrite (proj1 (Hsame m Hm)) in Ht. destruct (decide (m = d)) as [->|Hne].
      * split; [by apply (dir_ok_dfile' V' p' d)|]. intros nm n'. destruct (decide (nm = cstr name)) as [->|Hnm]; [rewrite Ennew; intros [= <-]; by apply Hl|].
        rewrite Enother by done. intros E. destruct (T2 d Hm Ht) as [_ Hln]. by eapply Hl, Hln.
      * destruct (T2 m Hm Ht) as [Ho Hln]. destruct (Hst m Hm Hne) as [E Hs]. split.
        -- destruct (stays_file SB V V' m (sd_file _ _ T1 m Hm) Hs) as [_ Hfull]. destruct Ho as (O1 & O2 & _). rewrite E in Hfull |- *. by split.
        -- intros nm n'. rewrite (ddir_dents V V' m m nm (Eother m Hm Hne)). intros En. by eapply Hl, Hln.
    + intros m Hm Ht. rewrite (proj1 (Hsame m Hm)) in Ht. destruct (decide (m = d)) as [->|Hne]; [|rewrite Eother by done; by apply T3].
      rewrite Edd, Eent. apply enter_names; [done|done|rewrite Ei; lia|rewrite <-Eold; by apply T3|]. rewrite Ec. by apply (dfind_enames _ 0).
    + intros m Hm Ht. rewrite (proj1 (Hsame m Hm)) in Ht. destruct (decide (m = d)) as [->|Hne]; [rewrite Enother by done; by apply T4|].
      rewrite (ddir_dents V V' m m _ (Eother m Hm Hne)). by apply T4.
  - intros m Hm. rewrite (names_change V V' d m Hin Htd) by (done || (intros k Hk; by apply Hsame)). rewrite Edd, Eent, Eold, enter_tally by done.
    unfold names_inode. rewrite Ei, Ec, bool_decide_false by done. cbn [negb]. rewrite andb_true_r, (Z.eqb_sym n m). lia.
Qed.

End tree.

(** ** Example: the root directory with a file *)

Section ex_sound.
Context (V : Z → block) (HV : ∀ n, n ≠ 2 → V n = dget ex_ddisk n).

Lemma ex_empty n : 0 ≤ n < 200 → n ≠ 1 → i_addrs (dfile (dinode_at ex_sb V n)) = replicate 13 0 ∧ d_size (dinode_at ex_sb V n) = 0.
Proof.
  intros Hn Hne. cbn [i_addrs dfile]. rewrite (ex_dinode V HV n Hn).
  assert (forallb (λ n, (n =? 1) || bool_decide (d_addrs (dinode_at ex_sb (dget ex_ddisk) n) = replicate 13 0 ∧ d_size (dinode_at ex_sb (dget ex_ddisk) n) = 0)) (seqZ 0 200) = true) as E
    by (vm_compute; reflexivity).
  rewrite forallb_forall in E. specialize (E n ltac:(apply list_elem_of_In, elem_of_seqZ; lia)). rewrite (proj2 (Z.eqb_neq n 1) Hne) in E. by apply bool_decide_eq_true in E.
Qed.
Lemma ex_sound_disk : vok ex_sb V → sound_disk ex_sb V.
Proof.
  intros Hv. pose proof (ex_root_disk V HV) as Er. split; [done|..].
  - intros n Hn. change (sb_ninodes ex_sb) with 200 in Hn. destruct (decide (n = 1)) as [->|Hne].
    + rewrite Er. split; [eapply (finv_addrs ex_sb); [|apply (ex_root_inv V HV)]; reflexivity|].
      destruct (ex_dir_ok V) as (_ & _ & Hf). eapply full_addrs; [| |exact Hf]; reflexivity.
    + destruct (ex_empty n Hn Hne) as [Ea Es]. by apply empty_file.
  - intros n m Hn Hm Hne i j Hi Hj Hz. change (sb_ninodes ex_sb) with 200 in *. destruct (decide (m = 1)) as [->|Hm1].
    + destruct (ex_empty n Hn Hne) as [Ea _]. rewrite (bslot_empty V _ j Ea Hj). congruence.
    + destruct (ex_empty m Hm Hm1) as [Ea _]. by rewrite (bslot_empty V _ i Ea Hi) in Hz.
Qed.

Lemma ex_dents : dents ex_sb V 1 = [mk_dirent 1 [46]; mk_dirent 1 [46; 46]; mk_dirent 5 [97]].
Proof. unfold dents. rewrite (ex_root_disk V HV), <-(entries_dfile V ex_root) by done. apply (ex_entries V HV). Qed.
Lemma ex_tree : vok ex_sb V → tree ex_sb V.
Proof.
  intros Hv. split; [by apply ex_sound_disk|by apply ex_dirs_ok|..].
  - intros d Hd Ht. change (sb_ninodes ex_sb) with 200 in Hd. rewrite (ex_types V HV d Hd) in Ht. destruct (Z.eqb_spec d 1) as [->|]; [|by destruct (d =? 5)].
    rewrite ex_dents. apply (bool_decide_unpack _). by vm_compute.
  - intros d Hd Ht. change (sb_ninodes ex_sb) with 200 in Hd. rewrite (ex_types V HV d Hd) in Ht. destruct (Z.eqb_spec d 1) as [->|]; [|by destruct (d =? 5)].
    by rewrite (ex_ddir V HV).
Qed.
Lemma ex_counted : counted ex_sb V.
Proof.
  intros n Hn Ht. change (sb_ninodes ex_sb) with 200 in Hn. rewrite (ex_types V HV n) in Ht by lia.
  assert (names ex_sb V n = tally n (dents ex_sb V 1)) as ->.
  { unfold names. change (sb_ninodes ex_sb) with 200.
    assert (∀ l, (∀ d, d ∈ l → 0 ≤ d < 200 ∧ d ≠ 1) → foldr (λ d x, (if dtype ex_sb V d =? T_DIR then tally n (dents ex_sb V d) else 0) + x) 0 l = 0) as Hl.
    { induction l as [|d l IH]; intros Hd; cbn [foldr]; [done|]. destruct (Hd d (list_elem_of_here _ _)) as [Hr Hne]. rewrite IH by (intros d' Hd'; apply Hd; by constructor).
      rewrite (ex_types V HV d Hr), (proj2 (Z.eqb_neq d 1) Hne). by destruct (d =? 5). }
    change (seqZ 0 200) with ([0; 1] ++ seqZ 2 198). cbn [app foldr]. rewrite Hl by (intros d; rewrite elem_of_seqZ; lia).
    rewrite (ex_types V HV 0), (ex_types V HV 1) by lia. cbn [Z.eqb Pos.eqb T_DIR]. lia. }
  rewrite ex_dents, (ex_dinode V HV) by lia.
  destruct (Z.eqb_spec n 1) as [->|]; [by vm_compute|]. destruct (Z.eqb_spec n 5) as [->|]; [by vm_compute|done].
Qed.
Lemma ex_nlink n : live ex_sb V n → 0 < d_nlink (dinode_at ex_sb V n) < 32767.
Proof.
  intros (Hn & Ht & _). change (sb_ninodes ex_sb) with 200 in Hn. rewrite (ex_types V HV n Hn) in Ht. rewrite (ex_dinode V HV) by done.
  destruct (Z.eqb_spec n 1) as [->|]; [by vm_compute|]. destruct (Z.eqb_spec n 5) as [->|]; [by vm_compute|done].
Qed.
Lemma ex_dsize d : 0 ≤ d < 200 → dtype ex_sb V d = T_DIR → d_size (dinode_at ex_sb V d) + 16 ≤ MAXFILE * BSIZE.
Proof.
  intros Hd Ht. rewrite (ex_types V HV d Hd) in Ht. destruct (Z.eqb_spec d 1) as [->|]; [|by destruct (d =? 5)]. rewrite (ex_root_disk V HV). by vm_compute.
Qed.
End ex_sound.
