(* ===== verification/File.v ===== *)
(** * Open files: kernel/file.c

    The table of open files over the file system of [Fs] and the pipes of [Pipe].
    The state has what the calls use of the calling process: its memory, its table
    of descriptors, the arguments of the system call and whether it was killed.
    [struct file *] is 0 for the null pointer and [i + 1] for [&ftable.file[i]].
    A pipe is named by its page; the allocator of pages is a stack, as the theorem
    about [Kalloc] shows.  The functions of the devices are a parameter. *)

From stdpp Require Import base gmap list strings numbers.
From S2P Require Import Prelude Block Log Fs Pipe.

Definition NFILE : Z := 100.
Definition NDEV : Z := 10.

Inductive ftype := FD_NONE | FD_PIPE | FD_INODE | FD_DEVICE.
#[global] Instance ftype_eq_dec : EqDecision ftype.
Proof. solve_decision. Defined.

Record file := mkFile {
  f_type : ftype;
  f_ref : Z;          (* reference count *)
  f_readable : bool;
  f_writable : bool;
  f_pipe : Z;         (* FD_PIPE *)
  f_ip : Z;           (* FD_INODE and FD_DEVICE *)
  f_off : Z;          (* FD_INODE *)
  f_major : Z;        (* FD_DEVICE *)
}.
Definition file0 : file := mkFile FD_NONE 0 false false 0 0 0 0.
Definition set_f_ref (n : Z) (f : file) : file :=
  mkFile (f_type f) n (f_readable f) (f_writable f) (f_pipe f) (f_ip f) (f_off f) (f_major f).
Definition set_f_type (t : ftype) (f : file) : file :=
  mkFile t (f_ref f) (f_readable f) (f_writable f) (f_pipe f) (f_ip f) (f_off f) (f_major f).
Definition set_f_off (o : Z) (f : file) : file :=
  mkFile (f_type f) (f_ref f) (f_readable f) (f_writable f) (f_pipe f) (f_ip f) o (f_major f).
Definition set_f_major (m : Z) (f : file) : file :=
  mkFile (f_type f) (f_ref f) (f_readable f) (f_writable f) (f_pipe f) (f_ip f) (f_off f) m.
Definition set_f_ip (ip : Z) (f : file) : file :=
  mkFile (f_type f) (f_ref f) (f_readable f) (f_writable f) (f_pipe f) ip (f_off f) (f_major f).
Definition set_f_mode (r w : bool) (f : file) : file :=
  mkFile (f_type f) (f_ref f) r w (f_pipe f) (f_ip f) (f_off f) (f_major f).
Definition set_f_pipe (pi : Z) (f : file) : file :=
  mkFile (f_type f) (f_ref f) (f_readable f) (f_writable f) pi (f_ip f) (f_off f) (f_major f).

(** What the calls see of the calling process: the bytes of its memory that are
    mapped, its size, [ofile], the registers with the arguments, [killed]. *)
Record caller := mkCaller {
  c_mem : gmap Z Z;
  c_sz : Z;
  c_ofile : list Z;
  c_args : list Z;
  c_killed : bool;
}.

Record filest := mkFl {
  ft_locked : bool;       (* ftable.lock *)
  ftable : list file;     (* ftable.file[NFILE] *)
  fs : fsst;
  pipes : gmap Z pipe;    (* the pipes, at their pages *)
  pages : list Z;         (* the free pages of the kernel *)
  me : caller;
}.
Definition set_ft_locked (b : bool) (s : filest) : filest := mkFl b (ftable s) (fs s) (pipes s) (pages s) (me s).
Definition set_ftable (l : list file) (s : filest) : filest := mkFl (ft_locked s) l (fs s) (pipes s) (pages s) (me s).
Definition set_fs (x : fsst) (s : filest) : filest := mkFl (ft_locked s) (ftable s) x (pipes s) (pages s) (me s).
Definition set_pipes (x : gmap Z pipe) (s : filest) : filest := mkFl (ft_locked s) (ftable s) (fs s) x (pages s) (me s).
Definition set_pages (l : list Z) (s : filest) : filest := mkFl (ft_locked s) (ftable s) (fs s) (pipes s) l (me s).
Definition set_me (c : caller) (s : filest) : filest := mkFl (ft_locked s) (ftable s) (fs s) (pipes s) (pages s) c.

Definition set_c_mem (m : gmap Z Z) (c : caller) : caller := mkCaller m (c_sz c) (c_ofile c) (c_args c) (c_killed c).
Definition set_c_ofile (l : list Z) (c : caller) : caller := mkCaller (c_mem c) (c_sz c) l (c_args c) (c_killed c).

(** Access through a pointer to a file. *)
Definition fptr (i : nat) : Z := Z.of_nat i + 1.
Definition fslot (f : Z) : nat := Z.to_nat (f - 1).
Definition file_at (f : Z) (s : filest) : file := default file0 (ftable s !! fslot f).
Definition fload (f : Z) : M filest file := gets (file_at f).
Definition fstore (f : Z) (g : file → file) : M filest unit := modify (λ s, set_ftable (alter g (fslot f) (ftable s)) s).

Definition ftacquire := acquire ft_locked set_ft_locked.
Definition ftrelease := release ft_locked set_ft_locked.

(** Calls of the file system, of a pipe, of the allocator of pages. *)
Definition infs {A} (m : M fsst A) : M filest A := zoom fs set_fs m.
Definition pipe_at (pi : Z) (s : filest) : pipe := default (pipeinit []) (pipes s !! pi).
Definition set_pipe_at (pi : Z) (p : pipe) (s : filest) : filest := set_pipes (<[pi := p]> (pipes s)) s.
Definition inpipe {A} (pi : Z) (m : M pipe A) : M filest A := zoom (pipe_at pi) (set_pipe_at pi) m.
Definition kfree_page (pi : Z) : M filest unit := modify (λ s, set_pages (pi :: pages s) s).
Definition kalloc_page : M filest Z :=
  l <- gets pages ;;
  match l with [] => ret 0 | p :: l' => modify (set_pages l') ;; ret p end.

(** [copyin] and [copyout] on the memory of the process: memory is mapped page
    by page, and the pages before the first one that is not are copied. *)
Fixpoint uread (n : nat) (a : Z) (m : gmap Z Z) : list Z :=
  match n with
  | O => []
  | S n' => match m !! a with Some b => b :: uread n' (a + 1) m | None => [] end
  end.
Fixpoint uwrite (l : list Z) (a : Z) (m : gmap Z Z) : gmap Z Z * Z :=
  match l with
  | [] => (m, 0)
  | b :: l' => match m !! a with Some _ => uwrite l' (a + 1) (<[a := b]> m) | None => (m, -1) end
  end.
Definition ucopyin (m : gmap Z Z) (a n : Z) : Z * list Z :=
  let l := uread (Z.to_nat n) a m in (if Z.of_nat (length l) =? n then 0 else -1, l).
Definition ucopyout (a : Z) (l : list Z) : M filest Z :=
  s <- get ;;
  let '(m, r) := uwrite l a (c_mem (me s)) in
  modify (set_me (set_c_mem m (me s))) ;;
  ret r.

(** ** kernel/file.c *)

Section file.
(** [devsw[i].read] and [devsw[i].write]. *)
Context (dev_read dev_write : Z → option (Z → Z → M filest Z)).
(** What is on the kernel stack where [struct stat] has no field. *)
Context (padding : list Z).

Definition fileinit : M filest unit := modify (set_ft_locked false).

Definition filealloc_turn (i : Z) : M filest (Z + Z) :=
  if i <? NFILE then
    f <- fload (i + 1) ;;
    if f_ref f =? 0 then fstore (i + 1) (set_f_ref 1) ;; ftrelease ;; ret (inr (i + 1))
    else ret (inl (i + 1))
  else ftrelease ;; ret (inr 0).
Definition filealloc : M filest Z :=
  ftacquire ;;
  loop (S (Z.to_nat NFILE)) filealloc_turn 0.

Definition filedup (f : Z) : M filest Z :=
  ftacquire ;;
  x <- fload f ;;
  if f_ref x <? 1 then panic "filedup"
  else
    fstore f (set_f_ref (i32 (f_ref x + 1))) ;;
    ftrelease ;;
    ret f.

(** [pipeclose(pi, writable)] with its [kfree]. *)
Definition fpipeclose (pi : Z) (writable : bool) : M filest unit :=
  b <- inpipe pi (pipeclose writable) ;;
  if (b : bool) then kfree_page pi else ret tt.

Definition fileclose (f : Z) : M filest unit :=
  ftacquire ;;
  x <- fload f ;;
  if f_ref x <? 1 then panic "fileclose"
  else
    fstore f (set_f_ref (f_ref x - 1)) ;;
    if 0 <? f_ref x - 1 then ftrelease
    else
      ff <- fload f ;;
      fstore f (set_f_ref 0) ;;
      fstore f (set_f_type FD_NONE) ;;
      ftrelease ;;
      match f_type ff with
      | FD_PIPE => fpipeclose (f_pipe ff) (f_writable ff)
      | FD_INODE | FD_DEVICE => infs (inlog begin_op ;; iput (f_ip ff) ;; inlog end_op)
      | FD_NONE => ret tt
      end.

(** [struct stat] in memory; the compiler puts 4 bytes of padding before the
    size, which keep what was on the kernel stack. *)
Definition stat_bytes (st : stat) : list Z :=
  le_bytes 4 (st_dev st) ++ le_bytes 4 (st_ino st) ++ le_bytes 2 (st_type st) ++ le_bytes 2 (st_nlink st) ++ padding ++ le_bytes 8 (st_size st).
Definition filestat (f addr : Z) : M filest Z :=
  x <- fload f ;;
  match f_type x with
  | FD_INODE | FD_DEVICE =>
      st <- infs (ilock (f_ip x) ;; st <- stati (f_ip x) ;; iunlock (f_ip x) ;; ret st) ;;
      r <- ucopyout addr (stat_bytes st) ;;
      if r <? 0 then ret (-1) else ret 0
  | _ => ret (-1)
  end.

(** The destination of [readi] in user memory: the memory and the address. *)
Definition to_user (x : gmap Z Z * Z) (l : list Z) : M fsst (gmap Z Z * Z * Z) :=
  let '(m, r) := uwrite l x.2 x.1 in ret (m, x.2 + Z.of_nat (length l), r).
(** The source of [writei] in user memory. *)
Definition from_user (m : gmap Z Z) (addr tot n : Z) : M fsst (Z * list Z) := ret (ucopyin m (addr + tot) n).

(** A call that sleeps gives up the CPU. *)
Definition awake {A} (chan : Z) (p : piece) (k : Z → M filest A) : M filest A :=
  match p with Done r => k r | Sleep _ => sleep_on chan end.

(** [piperead] and [pipewrite] on the memory of the process. *)
Definition fpiperead (pi addr n : Z) : M filest Z :=
  c <- gets me ;;
  '(p, out) <- inpipe pi (piperead (c_killed c) (λ a _, bool_decide (is_Some (c_mem c !! a))) addr n) ;;
  ucopyout addr out ;;
  awake NREAD p ret.
Definition fpipewrite (pi addr n : Z) : M filest Z :=
  c <- gets me ;;
  p <- inpipe pi (pipewrite (c_killed c) (λ a, c_mem c !! a) addr n 0) ;;
  awake NWRITE p ret.

Definition device (table : Z → option (Z → Z → M filest Z)) (major addr n : Z) : M filest Z :=
  if (major <? 0) || (NDEV <=? major) then ret (-1)
  else match table major with None => ret (-1) | Some call => call addr n end.

Definition fileread (f addr n : Z) : M filest Z :=
  x <- fload f ;;
  if negb (f_readable x) then ret (-1)
  else
    match f_type x with
    | FD_PIPE => fpiperead (f_pipe x) addr n
    | FD_DEVICE => device dev_read (f_major x) addr n
    | FD_INODE =>
        infs (ilock (f_ip x)) ;;
        c <- gets me ;;
        '(m, _, r) <- infs (readi (f_ip x) to_user (c_mem c, addr) (f_off x) (u32 n)) ;;
        modify (set_me (set_c_mem m c)) ;;
        (if 0 <? r then fstore f (λ x, set_f_off (u32 (f_off x + r)) x) else ret tt) ;;
        infs (iunlock (f_ip x)) ;;
        ret r
    | FD_NONE => panic "fileread"
    end.

(** What one transaction of [filewrite] may write. *)
Definition max_write : Z := (MAXOPBLOCKS - 1 - 1 - 2) / 2 * BSIZE.

Definition filewrite_turn (f addr n i : Z) : M filest (Z + Z) :=
  if i <? n then
    x <- fload f ;;
    c <- gets me ;;
    let n1 := Z.min (n - i) max_write in
    infs (inlog begin_op) ;;
    infs (ilock (f_ip x)) ;;
    r <- infs (writei (f_ip x) (from_user (c_mem c) (addr + i)) (f_off x) n1) ;;
    (if 0 <? r then fstore f (λ x, set_f_off (u32 (f_off x + r)) x) else ret tt) ;;
    infs (iunlock (f_ip x)) ;;
    infs (inlog end_op) ;;
    if negb (r =? n1) then ret (inr i) (* error from writei *)
    else ret (inl (i + r))
  else ret (inr i).

Definition filewrite (f addr n : Z) : M filest Z :=
  x <- fload f ;;
  if negb (f_writable x) then ret (-1)
  else
    match f_type x with
    | FD_PIPE => fpipewrite (f_pipe x) addr n
    | FD_DEVICE => device dev_write (f_major x) addr n
    | FD_INODE =>
        i <- loop (S (Z.to_nat n)) (filewrite_turn f addr n) 0 ;;
        ret (if i =? n then n else -1)
    | FD_NONE => panic "filewrite"
    end.

(** ** [pipealloc] of kernel/pipe.c *)

Definition pipealloc_bad (pi f0 f1 : Z) : M filest (option (Z * Z)) :=
  (if truthy pi then kfree_page pi else ret tt) ;;
  (if truthy f0 then fileclose f0 else ret tt) ;;
  (if truthy f1 then fileclose f1 else ret tt) ;;
  ret None.
Definition pipealloc : M filest (option (Z * Z)) :=
  f0 <- filealloc ;;
  if f0 =? 0 then pipealloc_bad 0 0 0
  else
    f1 <- filealloc ;;
    if f1 =? 0 then pipealloc_bad 0 f0 0
    else
      pi <- kalloc_page ;;
      if pi =? 0 then pipealloc_bad 0 f0 f1
      else
        modify (set_pipe_at pi (pipeinit (replicate (Z.to_nat PIPESIZE) 5))) ;;
        fstore f0 (λ f, set_f_pipe pi (set_f_mode true false (set_f_type FD_PIPE f))) ;;
        fstore f1 (λ f, set_f_pipe pi (set_f_mode false true (set_f_type FD_PIPE f))) ;;
        ret (Some (f0, f1)).

End file.
