(* ===== verification/FileWrite.v ===== *)
(** * Writing to an open file

    [filewrite] writes a long buffer in several transactions.  When it returns,
    the file on disk has all the bytes; when the machine crashes before, the file
    has the bytes of the transactions that were committed, in their order. *)

From stdpp Require Import base gmap list strings numbers.
From S2P Require Import Prelude Block SleepLock Bio BioSpec Cache Log LogSpec Fs FsTx FsAlloc FsInode FsOp FsFile FsWrite FsTrunc FsDir FsTable FsPath FsSound Pipe File.

(** ** Loops and sources of bytes *)

Lemma loop_ext {S A B} (I : A → Prop) (f g : A → M S (A + B)) fuel a s :
  (∀ a s, I a → f a s = g a s ∧ ∀ a' s', f a s = OK (inl a') s' → I a') → I a → loop fuel f a s = loop fuel g a s.
Proof.
  intros H. revert a s. induction fuel as [|fuel IH]; intros a s Ha; [done|]. cbn [loop]. unfold bind. destruct (H a s Ha) as [E HI]. rewrite <-E.
  destruct (f a s) as [[a'|b] s'| | |]; try done. apply IH. by eapply HI.
Qed.

(** [writei] asks its source for bytes within the length only. *)
Lemma writei_src ip src src' off n s : 0 ≤ off → (∀ tot m x, 0 ≤ tot → 0 ≤ m → tot + m ≤ n → src tot m x = src' tot m x) →
  writei ip src off n s = writei ip src' off n s.
Proof.
  intros Ho H. unfold writei, bind, iload, gets. destruct ((i_size (inode_at ip s) <? off) || (u32 (off + n) <? off)); [done|].
  destruct (MAXFILE * BSIZE <? u32 (off + n)); [done|].
  rewrite (loop_ext (λ l, 0 ≤ l.1 ∧ 0 ≤ l.2) (writei_turn ip src n) (writei_turn ip src' n)); [done| |done]. clear s. intros [tot off'] s [Ht Ho']. cbn [fst snd] in *.
  unfold writei_turn, bind, iload, gets. destruct (Z.ltb_spec tot n) as [Hlt|]; [|by split; [|intros ? ? [= <- <-]]].
  set (m := Z.min (n - tot) (BSIZE - off' mod BSIZE)). assert (0 ≤ m ∧ tot + m ≤ n) as [Hm1 Hm2] by (unfold m, BSIZE; zlia).
  destruct (bmap ip (off' / BSIZE) s) as [a s1| | |]; [|done..]. destruct (fbread (i_dev (inode_at ip s)) a s1) as [bp s2| | |]; [|done..].
  rewrite <-(H tot m s2) by done. split; [done|]. intros [tot' o'] s'. destruct (src tot m s2) as [[r bs] s3| | |]; [|done..].
  destruct (fset bp _ s3) as [[] s4| | |]; [|done..]. destruct (r =? -1); [destruct (fbrelse bp s4) as [[] ?| | |]; done|].
  destruct (flog_write bp s4) as [[] s5| | |]; [|done..]. destruct (fbrelse bp s5) as [[] s6| | |]; [|done..].
  intros [= <- <- _]. cbn. pose proof (u32_range (off' + m)). lia.
Qed.

Lemma uread_lookup n a m l : uread n a m = l → length l = n → ∀ i, (i < n)%nat → m !! (a + Z.of_nat i) = l !! i.
Proof.
  revert a l. induction n as [|n IH]; intros a l El Hl i Hi; [lia|]. cbn [uread] in El. destruct (m !! a) as [b|] eqn:Ea; [|subst; done].
  subst l. cbn in Hl. destruct i as [|i]; [replace (a + Z.of_nat 0) with a by lia; done|]. transitivity (m !! (a + 1 + Z.of_nat i)); [f_equal; lia|]. apply (IH (a + 1) _ eq_refl); lia.
Qed.
Lemma lookup_uread n a m l : length l = n → (∀ i, (i < n)%nat → m !! (a + Z.of_nat i) = l !! i) → uread n a m = l.
Proof.
  revert a l. induction n as [|n IH]; intros a l Hl H; [by destruct l|]. destruct l as [|b l]; [done|]. cbn [uread]. pose proof (H 0%nat ltac:(lia)) as H0.
  rewrite Z.add_0_r in H0. rewrite H0. cbn. f_equal. apply IH; [by injection Hl|]. intros i Hi. transitivity (m !! (a + Z.of_nat (S i))); [f_equal; lia|]. apply (H (S i)). lia.
Qed.
(** A piece of a buffer in user memory. *)
Lemma uread_piece a m bs i k : uread (length bs) a m = bs → (i + k ≤ length bs)%nat → uread k (a + Z.of_nat i) m = take k (drop i bs).
Proof.
  intros E Hk. apply lookup_uread; [rewrite length_take, length_drop; lia|]. intros j Hj. rewrite lookup_take_lt, lookup_drop by lia.
  rewrite <-(uread_lookup _ a m bs E eq_refl (i + j)) by lia. f_equal. lia.
Qed.
Lemma from_user_var m a bs tot n x : uread (length bs) a m = bs → 0 ≤ tot → 0 ≤ n → tot + n ≤ Z.of_nat (length bs) → from_user m a tot n x = from_var bs tot n x.
Proof.
  intros E Ht Hn Hle. unfold from_user, from_var, ucopyin, ret. replace tot with (Z.of_nat (Z.to_nat tot)) at 1 2 by lia.
  rewrite (uread_piece a m bs) by (done || lia). rewrite length_take, length_drop, (proj2 (Z.eqb_eq _ _)) by lia. done.
Qed.

(** ** One transaction *)

Definition write_body (ip : Z) (src : Z → Z → M fsst (Z * list Z)) (off n : Z) : M fsst Z :=
  ilock ip ;; r <- writei ip src off n ;; iunlock ip ;; ret r.

(** The turn of the loop of [filewrite]. *)
Lemma filewrite_turn_eq s f addr n i r x :
  let n1 := Z.min (n - i) max_write in let F := file_at f s in
  i < n → in_tx (write_body (f_ip F) (from_user (c_mem (me s)) (addr + i)) (f_off F) n1) (fs s) = OK r x →
  filewrite_turn f addr n i s = OK (if negb (r =? n1) then inr i else inl (i + r))
    (set_fs x (if 0 <? r then set_ftable (alter (λ x, set_f_off (u32 (f_off x + r)) x) (fslot f) (ftable s)) s else s)).
Proof.
  intros n1 F Hi E. unfold filewrite_turn. rewrite (proj2 (Z.ltb_lt _ _) Hi). unfold in_tx, write_body in E. unfold bind, fload, gets, fstore, modify, infs, zoom, ret in *. fold F n1.
  destruct (inlog begin_op (fs s)) as [[] y1| | |]; [|done..]. cbn [fs set_fs]. destruct (ilock (f_ip F) y1) as [[] y2| | |]; [|done..]. cbn [fs set_fs].
  destruct (writei _ _ _ _ y2) as [r' y3| | |]; [|done..]. destruct (iunlock (f_ip F) y3) as [[] y4| | |] eqn:E4; [|done..].
  destruct (inlog end_op y4) as [[] y5| | |] eqn:E5; [|done..]. injection E as -> ->.
  destruct (0 <? r); cbn [fs set_fs set_ftable]; rewrite E4; cbn [fs set_fs set_ftable]; rewrite E5; by destruct (negb (r =? n1)).
Qed.

Section write.
Context (dev : Z) (SB : superblock) (G : fsgeo SB) (Hdev : dev ≠ 0) (Hnl : 30 ≤ sb_nlog SB) (c : Z) (k : nat) (num : Z).

(** Between transactions: the table entry [k] is the file [num], which is sound. *)
Definition open_on (s : fsst) (I : list inode) : Prop :=
  fsq dev SB s I c ∧ vok SB (dview s) ∧ tbl dev SB (flog s) (dview s) [] I ∧ bounded dev I 2147483600 ∧ entry I k num false ∧ sound SB (dview s) num.

(** What one transaction writes. *)
Definition wrote_tx (off : Z) (bs : list Z) (s s' : fsst) (W : list (Z * block)) : Prop :=
  overwritten SB off bs (dview s) (dview s') num ∧
  (∀ m, 0 ≤ m < sb_ninodes SB → m ≠ num → dinode_at SB (dview s') m = dinode_at SB (dview s) m) ∧
  (nfree SB (dview s) ≤ nfree SB (dview s') + 8)%nat ∧
  wtrace (bcache (flog s')) = wtrace (bcache (flog s)) ++ W ∧ disk (bcache (flog s')) = replay (disk (bcache (flog s))) W ∧
  crash_safe dev SB s (dview s') W.

Lemma write_body_run s1 V I off bs :
  let n := Z.of_nat (length bs) in
  fr dev SB (flog s1) s1 V ∅ ∅ None false I c → vok SB V → tbl dev SB (flog s1) V [] I → bounded dev I 2147483600 → entry I k num false → sound SB V num →
  (8 ≤ nfree SB V)%nat → bytes bs → n ≤ 3072 → 0 ≤ off ≤ dsize SB V num → off + n ≤ MAXFILE * BSIZE →
  wp (write_body (iptr k) (from_var bs) off n)
     (λ a s2, ∃ V' P I' c', fr dev SB (flog s1) s2 V' P ∅ None false I' c' ∧ a = n ∧ c' = c ∧
        ∃ p p', i_inum p = num ∧ file_ok SB V p ∧ i_type p ≠ 0 ∧ written SB off bs V p V' p' ∧
          tbl dev SB (flog s1) V' [] I' ∧ bounded dev I' 2147483600 ∧ entry I' k num false) s1.
Proof.
  intros n Hs Hv Ht Hb He Hsd Hnf Hbs Hn Ho Hle. pose proof Hsd as (Hnum & Hty & _). pose proof (turns_small off n ltac:(lia) ltac:(lia)) as Htu.
  assert (size (∅ : gset Z) = 0%nat) as Hz by apply size_empty. remember (flog s1) as l0 eqn:El0. clear El0.
  unfold write_body. wp_run. eapply (t_ilock dev SB l0 G); [exact Hs|exact Ht|set_solver|exact He|exact Hb|lia|lia|done|].
  clear s1 Hs. intros I1 p s Hs Ht1 Hp En Ed Edi He1 Hr1 _ _. wp_run.
  pose proof (sound_entry SB V num p Hsd Edi En (proj1 Hv _)) as Hfile. pose proof Hfile as (Hin & _ & Hdok & Hf & Hfull).
  assert (i_size p = dsize SB V num) as Esz by (unfold dsize; by rewrite <-Edi).
  eapply (writei_run dev SB l0 G _ s V ∅ false I1 c k p off bs); [exact Hs|done..|lia|done|left; fold n; lia|unfold nroom; fold n; lia|].
  clear s Hs. intros s V' P' p' Hs Hw HP'. fold n. wp_run. pose proof He1 as (p0 & Hp0 & _ & Hr0 & Hv0). rewrite Hp in Hp0. injection Hp0 as <-.
  destruct (tbl_written dev SB l0 V [k] I1 k p off bs V' p' Ht1 Hp Hr0 Hw) as (Ht2 & Hr2 & _).
  assert (entry (<[k := p']> I1) k num false) as He2.
  { destruct (wn_fields _ _ _ _ _ _ _ Hw) as [a Ea]. exists p'. split; [apply list_lookup_insert_eq; by eapply lookup_lt_Some|]. rewrite Ea. cbn. done. }
  eapply (t_iunlock dev SB l0); [exact Hs|exact Ht2|set_solver|exact He2|]. clear s Hs. intros I3 s Hs Ht3 Hr3 _ Hent. wp_run.
  exists V', P', I3, c. split; [exact Hs|]. split; [done|]. split; [done|]. exists p, p'. split; [done|]. split; [done|].
  split; [change (i_type p) with (d_type (dinode_of p)); by rewrite Edi|]. split; [done|]. split; [done|]. split; [|by apply Hent].
  intros m. rewrite Hr3, Hr2, Hr1. apply Hb.
Qed.

Lemma write_tx s I off bs :
  let n := Z.of_nat (length bs) in
  open_on s I → (8 ≤ nfree SB (dview s))%nat → bytes bs → n ≤ 3072 → 0 ≤ off ≤ dsize SB (dview s) num → off + n ≤ MAXFILE * BSIZE →
  ∃ s' I' W, in_tx (write_body (iptr k) (from_var bs) off n) s = OK n s' ∧ open_on s' I' ∧ wrote_tx off bs s s' W.
Proof.
  intros n (Hq & Hv & Ht & Hb & He & Hsd) Hnf Hbs Hn Ho Hle. set (V := dview s) in *.
  destruct (in_tx_run dev SB G (write_body (iptr k) (from_var bs) off n)
    (λ a V' I' c', a = n ∧ c' = c ∧ ∃ p p', i_inum p = num ∧ file_ok SB V p ∧ i_type p ≠ 0 ∧ written SB off bs V p V' p' ∧
       (∀ l, tbl dev SB l V' [] I') ∧ bounded dev I' 2147483600 ∧ entry I' k num false) s I c Hdev Hq)
    as (a & s' & V' & I' & c' & W & E & Hq' & (-> & -> & p & p' & En & Hfile & Hty & Hw & Ht' & Hb' & He') & Hh & Hwt & Hcs & Hdk & Hok).
  { intros s1 Hs1. eapply wp_mono; [apply (write_body_run s1 V I off bs); try done; by eapply tbl_unlocked|]. cbv beta.
    intros a s2 (V' & P & I' & c' & Hs2 & -> & -> & p & p' & H1 & H2 & H3 & H4 & H5 & H6 & H7).
    exists V', P, I', c. split; [exact Hs2|]. split; [done|]. split; [done|]. exists p, p'. do 4 (split; [done|]). split; [intros l; by eapply tbl_unlocked|]. done. }
  pose proof Hsd as (Hnum & _). assert (same_home SB V' (dview s')) as Hsh by exact Hh.
  assert (sound SB V' num) as Hsd' by (eapply (written_sound SB off bs V p V' p'); done).
  exists s', I', W. split; [exact E|]. split.
  - split; [done|]. split; [apply (vok_home SB G V'); [apply (wn_vok _ _ _ _ _ _ _ Hw)|done|]; apply Hok; [apply (wn_vok _ _ _ _ _ _ _ Hw)|apply Hv]|].
    split; [by apply (tbl_home dev SB G (flog s) _ V')|]. split; [done|]. split; [done|]. by apply (sound_home SB G V').
  - split; [rewrite <-En; by eapply (written_disk SB G off bs V p V' p')|]. split; [|split; [|split; [done|split; [done|by eapply crash_safe_home]]]].
    + intros m Hm Hne. rewrite (dinode_home SB G V' _ m Hsh Hm). apply (wn_inodes _ _ _ _ _ _ _ Hw); [done|by rewrite En].
    + rewrite (nfree_home SB G V' _ Hsh). pose proof (wn_nfree _ _ _ _ _ _ _ Hw) as H. fold n in H. pose proof (turns_small off n ltac:(lia) ltac:(lia)).
    fold V. lia.
Qed.

Lemma write_body_src ip src src' off n s : 0 ≤ off → (∀ tot m x, 0 ≤ tot → 0 ≤ m → tot + m ≤ n → src tot m x = src' tot m x) →
  in_tx (write_body ip src off n) s = in_tx (write_body ip src' off n) s.
Proof.
  intros Ho H. unfold in_tx, write_body, bind. destruct (inlog begin_op s) as [[] s1| | |]; [|done..]. destruct (ilock ip s1) as [[] s2| | |]; [|done..].
  by rewrite (writei_src ip src src' off n s2 Ho H).
Qed.

(** ** Several transactions *)

Context (s0 : fsst) (off : Z) (bs : list Z) (Hbs : bytes bs) (Ho : 0 ≤ off ≤ dsize SB (dview s0) num) (Hle : off + Z.of_nat (length bs) ≤ MAXFILE * BSIZE).
Notation n := (Z.of_nat (length bs)).

(** What a crash after [j] of the writes [W] leaves: the bytes of the first
    transactions. *)
Definition durable (i : nat) (W : list (Z * block)) : Prop :=
  ∀ pid j d, crash_loop dev SB pid (replay (disk (bcache (flog s0))) (take j W)) d →
    ∃ l m, boot dev SB d pid = OK tt l ∧ ((m < i)%nat ∧ Z.of_nat m mod max_write = 0 ∧ (j < length W)%nat ∨ m = i) ∧
      overwritten SB off (take m bs) (dview s0) (dget (disk (bcache l))) num.

(** After [i] bytes. *)
Definition written_upto (i : nat) (s : fsst) (W : list (Z * block)) : Prop :=
  overwritten SB off (take i bs) (dview s0) (dview s) num ∧
  (∀ m, 0 ≤ m < sb_ninodes SB → m ≠ num → dinode_at SB (dview s) m = dinode_at SB (dview s0) m) ∧
  wtrace (bcache (flog s)) = wtrace (bcache (flog s0)) ++ W ∧ disk (bcache (flog s)) = replay (disk (bcache (flog s0))) W ∧
  durable i W.

Lemma written_upto_nil I : open_on s0 I → written_upto 0 s0 [].
Proof.
  intros (Hq & _ & _ & _ & _ & Hsd). assert (overwritten SB off [] (dview s0) (dview s0) num) as H0 by (apply overwritten_nil; lia).
  split; [done|]. split; [done|]. split; [by rewrite app_nil_r|]. split; [done|].
  intros pid j d Hc. destruct Hq as (_ & _ & _ & _ & Hq).
  destruct (commit_crash dev (sb_logstart SB) (sb_nlog SB) (g_log SB G) SB (flog s0) (dview s0) [] [] pid j d) as (l & Hb & _ & H);
    [done..|by apply tx_ok_nil, (g_log SB G)|done|by left|done|].
  exists l, 0%nat. split; [exact Hb|]. split; [by right|]. apply (overwritten_home SB G _ _ _ (dview s0)); [exact H0|done|]. by destruct H as [[H _]|H].
Qed.

Lemma written_upto_step i k' s I s' I' W W' : open_on s I → open_on s' I' → written_upto i s W → Z.of_nat i mod max_write = 0 → (0 < k')%nat →
  (i + k' ≤ length bs)%nat → wrote_tx (off + Z.of_nat i) (take k' (drop i bs)) s s' W' → written_upto (i + k') s' (W ++ W').
Proof.
  intros Hs Hs' (H1 & H2 & H3 & H4 & H5) Hmod Hk Hle' (T1 & T2 & _ & T4 & T5 & T6). pose proof Hs as (_ & _ & _ & _ & _ & Hsd). pose proof Hs' as (_ & _ & _ & _ & _ & Hsd').
  assert (overwritten SB off (take (i + k') bs) (dview s0) (dview s') num) as Hnew.
  { rewrite <-(take_take_drop bs i k'). eapply overwritten_app; [exact H1|]. assert (length (take i bs) = i) as -> by (rewrite length_take; lia). exact T1. }
  split; [done|]. split; [intros m Hm Hne; by rewrite T2, H2|]. split; [by rewrite T4, H3, app_assoc|]. split; [by rewrite T5, H4, replay_app|].
  intros pid j d Hc. rewrite length_app. destruct (decide (j < length W)%nat) as [Hj|Hj].
  - rewrite take_app_le in Hc by lia. destruct (H5 pid j d Hc) as (l & m & Hb & Hm & Hov). exists l, m. split; [exact Hb|]. split; [|exact Hov].
    left. destruct Hm as [(? & ? & ?)| ->]; (split; [lia|]); (split; [done|lia]).
  - rewrite take_app_ge, replay_app, <-H4 in Hc by lia. destruct (T6 pid _ d Hc) as (l & Hb & _ & [[Hold Hj']|Hn]).
    + exists l, i. split; [exact Hb|]. split; [left; split; [lia|]; split; [done|lia]|]. by apply (overwritten_home SB G _ _ _ (dview s)).
    + exists l, (i + k')%nat. split; [exact Hb|]. split; [by right|]. by apply (overwritten_home SB G _ _ _ (dview s')).
Qed.

(** The loop of [filewrite]. *)
Context (t0 : filest) (idx : nat) (F : file) (addr : Z).
Context (Ht0 : fs t0 = s0) (HF : ftable t0 !! idx = Some F) (Hip : f_ip F = iptr k) (Hoff : f_off F = off) (Hmem : uread (length bs) addr (c_mem (me t0)) = bs).
Context (Hspace : 8 * (n / max_write + 1) ≤ Z.of_nat (nfree SB (dview s0))).

Definition after (i : Z) (x : fsst) : filest := set_fs x (set_ftable (<[idx := set_f_off (off + i) F]> (ftable t0)) t0).

Definition writing (i : Z) (t : filest) : Prop :=
  ∃ x I W, 0 ≤ i ≤ n ∧ (i = n ∨ i mod max_write = 0) ∧ t = after i x ∧ open_on x I ∧ written_upto (Z.to_nat i) x W ∧
    Z.of_nat (nfree SB (dview s0)) ≤ Z.of_nat (nfree SB (dview x)) + 8 * ((i + max_write - 1) / max_write).

Lemma file_at_after i x : file_at (fptr idx) (after i x) = set_f_off (off + i) F.
Proof.
  unfold file_at, fslot, fptr. replace (Z.to_nat (Z.of_nat idx + 1 - 1)) with idx by lia. cbn [ftable after set_fs set_ftable].
  rewrite list_lookup_insert_eq by by eapply lookup_lt_Some. done.
Qed.
Lemma alter_after i x r y : 0 ≤ off + i + r < 4294967296 →
  set_fs y (set_ftable (alter (λ x, set_f_off (u32 (f_off x + r)) x) (fslot (fptr idx)) (ftable (after i x))) (after i x)) = after (i + r) y.
Proof.
  intros H. unfold after, set_fs, set_ftable. cbn [ft_locked ftable fs pipes pages me]. f_equal. unfold fslot, fptr. replace (Z.to_nat (Z.of_nat idx + 1 - 1)) with idx by lia.
  apply list_eq. intros j. assert (idx < length (ftable t0))%nat by by eapply lookup_lt_Some. destruct (decide (j = idx)) as [->|Hne].
  - rewrite list_lookup_alter_eq, !list_lookup_insert_eq by done. cbn. f_equal. unfold set_f_off. cbn. f_equal. rewrite u32_small by lia. lia.
  - by rewrite list_lookup_alter_ne, !list_lookup_insert_ne by done.
Qed.

Lemma writing_turn i t : writing i t → i < n → ∃ i' t', filewrite_turn (fptr idx) addr n i t = OK (inl i') t' ∧ writing i' t' ∧ i < i'.
Proof.
  intros (x & I & W & Hi & Hmod & -> & Hop & Hup & Hnf) Hlt. assert (max_write = 3072) as EM by done. change (MAXFILE * BSIZE) with 274432 in Hle.
  assert (i mod max_write = 0) as Hm by (destruct Hmod; [lia|done]). set (n1 := Z.min (n - i) max_write). set (bs' := take (Z.to_nat n1) (drop (Z.to_nat i) bs)).
  assert (Z.of_nat (length bs') = n1) as Hl' by (unfold bs'; rewrite length_take, length_drop; lia).
  assert (8 ≤ nfree SB (dview x))%nat as Hnf8.
  { rewrite EM in *. assert ((i + 3072 - 1) / 3072 ≤ n / 3072) by zlia. lia. }
  assert (bytes bs') as Hb' by by apply Forall_take, Forall_drop.
  pose proof Hup as (Hov & _). assert (dsize SB (dview x) num = Z.max (dsize SB (dview s0) num) (off + i)) as Esz.
  { destruct Hov as [-> _]. rewrite length_take. lia. }
  destruct (write_tx x I (off + i) bs' Hop Hnf8 Hb') as (x' & I' & W' & E & Hop' & Hw); [lia|lia|change (MAXFILE * BSIZE) with 274432; lia|]. rewrite Hl' in E.
  assert (in_tx (write_body (f_ip (file_at (fptr idx) (after i x))) (from_user (c_mem (me (after i x))) (addr + i)) (f_off (file_at (fptr idx) (after i x))) n1) (fs (after i x)) = OK n1 x') as E'.
  { rewrite file_at_after. cbn [f_ip f_off set_f_off]. rewrite Hip. change (fs (after i x)) with x. change (c_mem (me (after i x))) with (c_mem (me t0)). rewrite <-E.
    apply write_body_src; [lia|]. intros tot m y H1 H2 H3. apply from_user_var; [|done|done|lia]. replace (length bs') with (Z.to_nat n1) by lia.
    replace i with (Z.of_nat (Z.to_nat i)) at 1 by lia. apply uread_piece; [done|lia]. }
  exists (i + n1). eexists. split; [|split].
  - rewrite (filewrite_turn_eq _ _ _ _ _ _ _ Hlt E'). fold n1. rewrite Z.eqb_refl. cbn [negb]. rewrite (proj2 (Z.ltb_lt 0 n1)) by lia. rewrite alter_after by lia. done.
  - exists x', I', (W ++ W'). split; [lia|]. split; [rewrite EM in *; zlia|]. split; [done|]. split; [done|]. split.
    + rewrite Z2Nat.inj_add by lia. apply (written_upto_step _ _ x I x' I' W W'); [done..|by rewrite Z2Nat.id by lia|lia|lia|]. rewrite Z2Nat.id by lia. exact Hw.
    + destruct Hw as (_ & _ & Hw & _). rewrite EM in *. assert ((i + n1 + 3072 - 1) / 3072 = (i + 3072 - 1) / 3072 + 1) as -> by zlia. lia.
  - lia.
Qed.

End write.


(** ** Example: a file that takes two transactions *)

Definition ex_user : caller := mkCaller (list_to_map ((λ a, (a, a mod 256)) <$> seqZ 4096 4000)) 8192 (replicate 16 0) (replicate 6 0) false.
Definition ex_filest (l : logst) : filest :=
  mkFl false (mkFile FD_INODE 1 true true 0 (iptr 0) 0 0 :: replicate 99 file0) (ex_fsst l) ∅ [] ex_user.
Definition ex_bytes : list Z := (λ a, a mod 256) <$> seqZ 4096 4000.

Lemma ex_table k p : (ex_inode :: replicate 49 inode0) !! k = Some p → k = 0%nat ∧ p = ex_inode ∨ p = inode0.
Proof.
  destruct k as [|k]; [intros [= <-]; by left|]. change ((ex_inode :: replicate 49 inode0) !! S k) with (replicate 49 inode0 !! k). intros [-> _]%lookup_replicate. by right.
Qed.
Lemma ex_open l : quiet 1 2 30 l → vok ex_sb (dget (disk (bcache l))) → file_ok ex_sb (dget (disk (bcache l))) ex_inode →
  open_on 1 ex_sb 0 0 5 (ex_fsst l) (itable (ex_fsst l)).
Proof.
  intros Hq Hv Hfile. pose proof Hfile as (Hin & Hd & _ & Hf & Hfull). split; [by do 4 (split; [done|])|]. split; [done|]. split; [split|split; [|split; [|split; [|split]]]].
  - done.
  - intros k p [[_ ->]| ->]%ex_table; done.
  - intros k p [[_ ->]| ->]%ex_table; [|done]. intros _. split; [done|]. by vm_compute.
  - intros k p [[_ ->]| ->]%ex_table; [|done]. intros _ _. by symmetry.
  - intros j k p q [[-> ->]| ->]%ex_table [[-> ->]| ->]%ex_table; done.
  - intros k p [[_ ->]| ->]%ex_table; done.
  - intros m. unfold ref_of. cbn [itable ex_fsst foldr]. assert (∀ n, foldr (λ p x, weight 1 m p + x) 0 (replicate n inode0) = 0) as ->.
    { induction n as [|n IH]; [done|]. cbn [replicate foldr]. rewrite IH. done. }
    unfold weight. destruct (_ && _); cbn; lia.
  - exists ex_inode. split; [reflexivity|]. split; [reflexivity|]. split; [reflexivity|discriminate].
  - exact Hin.
  - change 5 with (i_inum ex_inode). change (dview (ex_fsst l)) with (dget (disk (bcache l))). rewrite Hd. discriminate.
  - change 5 with (i_inum ex_inode). change (dview (ex_fsst l)) with (dget (disk (bcache l))). rewrite Hd.
    split; [eapply (finv_addrs ex_sb); [|exact Hf]|eapply full_addrs; [| |exact Hfull]]; reflexivity.
Qed.

