(* ===== verification/FileLayer.v ===== *)
(** * Open files and inodes are counted

    The invariant of the tables of open files and of in-memory inodes: every
    reference is counted once, the entries agree with the disk, and the files on
    disk are sound.  [filedup], [fileclose], [idup] and a transaction with [iput]
    keep it, also when the last reference to a file without links goes away and
    the file is freed. *)

From stdpp Require Import base gmap list strings numbers.
From S2P Require Import Prelude Block SleepLock Bio BioSpec Cache Log LogSpec Fs FsTx FsAlloc FsInode FsOp FsFile FsWrite FsTrunc FsDir FsTable FsPath FsSound FsTree Pipe File.

(** ** Counted inodes *)

Section inodes.
Context (dev : Z) (SB : superblock) (G : fsgeo SB) (Hdev : dev ≠ 0) (Hroom : nbitmap SB + 2 ≤ Z.min 29 (sb_nlog SB - 1)).

(** Entry [k] of the inode table has [c k] references. *)
Definition fs_counts (x : fsst) (c : nat → Z) : Prop :=
  fsq dev SB x (itable x) (cwd x) ∧ sound_disk SB (dview x) ∧ tbl dev SB (flog x) (dview x) [] (itable x) ∧
  ∀ k p, itable x !! k = Some p → i_ref p = c k.

Definition bump (c : nat → Z) (k : nat) (d : Z) : nat → Z := λ j, if decide (j = k) then c j + d else c j.

Lemma counts_insert (I : list inode) c k p q d : (∀ k p, I !! k = Some p → i_ref p = c k) → I !! k = Some p → i_ref q = i_ref p + d →
  ∀ j r, <[k := q]> I !! j = Some r → i_ref r = bump c k d j.
Proof.
  intros H Hp Eq j r Hr. unfold bump. case_decide as E.
  - subst j. rewrite list_lookup_insert_eq in Hr by by eapply lookup_lt_Some. injection Hr as <-. rewrite Eq. by rewrite (H k p Hp).
  - rewrite list_lookup_insert_ne in Hr by done. by apply H.
Qed.

(** One reference more or less, nothing else. *)
Lemma tbl_ref l V I k p d : tbl dev SB l V [] I → I !! k = Some p → 0 < i_ref p → 0 ≤ i_ref p + d → tbl dev SB l V [] (<[k := set_i_ref (i_ref p + d) p]> I).
Proof.
  intros Ht Hp Hr Hd. pose proof (t_dev _ _ _ _ _ _ Ht k p Hp Hr) as [? ?]. eapply tbl_insert; [exact Ht|exact Hp|done| |exact (t_lock _ _ _ _ _ _ Ht k p Hp)|done].
  cbn. intros _. split; [done|]. split; [done|]. split; [intros Hv; by apply (t_sync _ _ _ _ _ _ Ht k p)|].
  intros j r Hj Hne Hpos E. destruct Hne. by eapply (t_uniq _ _ _ _ _ _ Ht j k r p).
Qed.

Lemma idup_counts x c k : fs_counts x c → (k < 50)%nat → 0 < c k < 2147483647 → wp (idup (iptr k)) (λ r x', r = iptr k ∧ fs_counts x' (bump c k 1)) x.
Proof.
  intros ((E1 & E2 & _ & _ & Hq) & Hs & Ht & Hc) Hk Hb. destruct (lookup_lt_is_Some_2 (itable x) k) as [p Hp]; [by rewrite (t_len _ _ _ _ _ _ Ht)|].
  pose proof (Hc k p Hp) as Ep. unfold idup. wp_run. apply wp_acquire; [done|]. unfold istore. wp_run. apply wp_release; [done|]. wp_run. split; [done|].
  unfold iupd. cbn [itable set_it_locked set_itable]. rewrite islot_iptr, (alter_insert_eq _ k _ p Hp), i32_small by lia.
  split; [by do 4 (split; [done|])|]. split; [done|]. cbn [itable set_it_locked set_itable flog]. split; [apply (tbl_ref _ _ _ _ p 1); [done|done|lia|lia]|].
  by eapply counts_insert.
Qed.

Lemma tbl_put_back l l' V I k p P V' P' : tbl dev SB l V [] I → I !! k = Some p → 0 < i_ref p → file_ok SB V p → freed SB V p (MAXFILE + 1) P V' P' →
  tbl dev SB l' (put_back SB V' p) [] (<[k := reclaimed p]> I).
Proof.
  intros Ht Hp Hr (Hn & Hd & Hdok & _) Hfr. destruct (tbl_unlocked _ _ _ l' _ _ Ht) as [T1 T2 T3 T4 T5 T6]. assert (k < length I)%nat as Hk by by eapply lookup_lt_Some.
  assert (∀ j r, <[k := reclaimed p]> I !! j = Some r → j = k ∧ r = reclaimed p ∨ j ≠ k ∧ I !! j = Some r) as Hlk.
  { intros j r. destruct (decide (j = k)) as [->|Hne]; [rewrite list_lookup_insert_eq by done; intros [= <-]; by left|]. rewrite list_lookup_insert_ne by done. by right. }
  split.
  - by rewrite length_insert.
  - intros j r [[-> ->]|[_ Hj]]%Hlk; [done|eauto].
  - intros j r [[-> ->]|[_ Hj]]%Hlk Hpos; [cbn in Hpos; lia|eauto].
  - intros j r [[-> ->]|[Hne Hj]]%Hlk Hpos Hv; [done|]. rewrite (T4 j r Hj Hpos Hv). destruct (T3 j r Hj Hpos) as [_ Hm].
    rewrite (dinode_put_back SB G V' p (i_inum r)) by (done || apply Hfr). rewrite decide_False; [|intros E; destruct Hne; exact (T5 j k r p Hj Hp Hpos Hr E)].
    unfold dinode_at. f_equal. symmetry. apply (fd_other _ _ _ _ _ _ _ Hfr). left. apply (IBLOCK_range SB G _ Hm).
  - intros i j q r [[-> ->]|[_ Hi]]%Hlk [[-> ->]|[_ Hj]]%Hlk Hpos Hpos' E; [done|cbn in Hpos; lia|cbn in Hpos'; lia|by eapply (T5 i j q r)].
  - intros j r [[-> ->]|[_ Hj]]%Hlk; [done|eauto].
Qed.

Lemma iput_counts x c k : fs_counts x c → (k < 50)%nat → 0 < c k < 2147483648 →
  wp (inlog begin_op ;; iput (iptr k) ;; inlog end_op) (λ _ x', fs_counts x' (bump c k (-1))) x.
Proof.
  intros (Hq & Hs & Ht & Hc) Hk Hb. destruct (lookup_lt_is_Some_2 (itable x) k) as [p Hp]; [by rewrite (t_len _ _ _ _ _ _ Ht)|]. pose proof (Hc k p Hp) as Ep.
  destruct (t_dev _ _ _ _ _ _ Ht k p Hp ltac:(lia)) as [Ed Hn].
  destruct (in_tx_run dev SB G (iput (iptr k)) (λ _ V' I' c', c' = cwd x ∧ sound_disk SB V' ∧ (∀ l, tbl dev SB l V' [] I') ∧ ∀ j r, I' !! j = Some r → i_ref r = bump c k (-1) j)
    x (itable x) (cwd x) Hdev Hq) as ([] & x' & V' & I' & c' & W & E & Hq' & (-> & Hs' & Ht' & Hc') & Hh & _ & _ & _ & Hok).
  { intros s1 Hs1. destruct (decide (i_ref p = 1 ∧ i_valid p = true ∧ i_nlink p = 0)) as [(Er & Ev & En)|Hkeep].
    - pose proof (t_sync _ _ _ _ _ _ Ht k p Hp ltac:(lia) Ev) as Edi. destruct (sd_file _ _ Hs (i_inum p) Hn) as [Hf Hfull].
      assert (file_ok SB (dview x) p) as Hfile.
      { split; [done|]. split; [done|]. split; [rewrite Edi; apply get_dinode_ok, (sd_vok _ _ Hs)|].
        split; [eapply (finv_addrs SB); [|exact Hf]|eapply full_addrs; [| |exact Hfull]]; by rewrite <-Edi. }
      eapply (iput_free_run dev SB (flog s1) G _ s1 (dview x) ∅ _ _ k p); [exact Hs1|done|done|apply Hfile|apply Hs|done|unfold nroom; rewrite size_empty; lia|done|done|done| |].
      { exact (t_lock _ _ _ _ _ _ Ht k p Hp). }
      intros s2 V' P' Hfr Hs2. exists (put_back SB V' p), (P' ∪ {[IBLOCK (i_inum p) SB]}), (<[k := reclaimed p]> (itable x)), (cwd x). split; [exact Hs2|]. split; [done|].
      split; [by eapply (sound_put_back SB G)|]. split; [|eapply counts_insert; [done|done|cbn; lia]]. intros l. eapply tbl_put_back; [exact Ht|done|lia|done|exact Hfr].
    - eapply (iput_keep_run dev SB (flog s1) _ s1); [exact Hs1|done|lia|tauto|]. intros s2 Hs2.
      exists (dview x), ∅, (<[k := set_i_ref (i_ref p - 1) p]> (itable x)), (cwd x). split; [exact Hs2|]. split; [done|]. split; [done|].
      split; [intros l; apply (tbl_ref l _ _ k p (-1)); [by eapply tbl_unlocked|done|lia|lia]|]. eapply counts_insert; [done|done|]. cbn. lia. }
  assert ((inlog begin_op ;; iput (iptr k) ;; inlog end_op) x = OK tt x') as E'.
  { unfold in_tx, bind in *. destruct (inlog begin_op x) as [[] x1| | |]; [|done..]. destruct (iput (iptr k) x1) as [[] x2| | |]; [|done..].
    destruct (inlog end_op x2) as [[] x3| | |]; [|done..]. by injection E as <-. }
  eapply wp_intro; [exact E'|]. pose proof Hq' as (_ & _ & EI & Ec & _).
  assert (sound_disk SB (dview x')) as Hs2 by (apply (sound_disk_home SB G V'); [done|exact Hh|apply Hok; [apply Hs'|apply Hs]]).
  split; [by rewrite EI, Ec|]. split; [done|]. rewrite EI. split; [|done]. by apply (tbl_home dev SB G (flog x) _ V').
Qed.
End inodes.

(** ** Counted files *)

Definition cnt (x : Z) (l : list Z) : Z := Z.of_nat (count_occ Z.eq_dec l x).
Lemma cnt_cons x y l : cnt x (y :: l) = (if decide (x = y) then 1 else 0) + cnt x l.
Proof. unfold cnt. destruct (decide (x = y)) as [->|Hne]; [rewrite count_occ_cons_eq by done; lia|rewrite count_occ_cons_neq by congruence; lia]. Qed.
Lemma cnt_perm x l l' : l ≡ₚ l' → cnt x l = cnt x l'.
Proof. intros E. unfold cnt. f_equal. by apply Permutation_count_occ. Qed.
Lemma cnt_bound x l : 0 ≤ cnt x l ≤ Z.of_nat (length l).
Proof. unfold cnt. pose proof (count_occ_bound Z.eq_dec x l). lia. Qed.
Lemma cnt_pos x l : x ∈ l → 0 < cnt x l.
Proof. intros H. unfold cnt. assert (count_occ Z.eq_dec l x > 0)%nat; [|lia]. by apply count_occ_In, list_elem_of_In. Qed.

(** The file holds a reference to the inode of entry [k]. *)
Definition on_inode (t : ftype) : bool := match t with FD_INODE | FD_DEVICE => true | _ => false end.
Definition held (k : nat) (F : file) : Z := if (0 <? f_ref F) && on_inode (f_type F) && (f_ip F =? iptr k) then 1 else 0.
Definition held_by (k : nat) (l : list file) : Z := foldr (λ F x, held k F + x) 0 l.

Lemma held_by_insert k l i F F' : l !! i = Some F → held_by k (<[i := F']> l) = held_by k l - held k F + held k F'.
Proof. apply (foldr_insert_add (held k)). Qed.
Lemma held_by_bound k l : 0 ≤ held_by k l ≤ Z.of_nat (length l).
Proof. induction l as [|F l IH]; [done|]. unfold held_by in *. cbn [foldr length]. unfold held at 1 3. destruct (_ && _); lia. Qed.

Section files.
Context (dev : Z) (SB : superblock) (G : fsgeo SB) (Hdev : dev ≠ 0) (Hroom : nbitmap SB + 2 ≤ Z.min 29 (sb_nlog SB - 1)).

(** [fl] are the references to open files, [ds] those to inodes from elsewhere. *)
Record file_tbl (t : filest) (fl ds : list Z) : Prop := mkFileTbl {
  fc_lock : ft_locked t = false;
  fc_len : length (ftable t) = 100%nat;
  fc_files : ∀ x, x ∈ fl → ∃ i, x = fptr i ∧ (i < 100)%nat;
  fc_ref : ∀ i F, ftable t !! i = Some F → f_ref F = cnt (fptr i) fl;
  fc_none : ∀ i F, ftable t !! i = Some F → f_ref F = 0 → f_type F = FD_NONE;
  fc_ips : ∀ i F, ftable t !! i = Some F → on_inode (f_type F) = true → ∃ k, f_ip F = iptr k ∧ (k < 50)%nat;
  fc_dirs : ∀ x, x ∈ ds → ∃ k, x = iptr k ∧ (k < 50)%nat;
  fc_pipes : ∀ pi, pi_locked (pipe_at pi t) = false;
}.
Definition inode_refs (t : filest) (ds : list Z) (k : nat) : Z := cnt (iptr k) ds + held_by k (ftable t).
Definition file_counts (t : filest) (fl ds : list Z) : Prop := file_tbl t fl ds ∧ fs_counts dev SB (fs t) (inode_refs t ds).

Lemma fs_counts_ext x c c' : (∀ k, (k < 50)%nat → c k = c' k) → fs_counts dev SB x c → fs_counts dev SB x c'.
Proof.
  intros E (H1 & H2 & H3 & H4). split; [done|]. split; [done|]. split; [done|]. intros k p Hp. rewrite (H4 k p Hp). apply E.
  rewrite <-(t_len _ _ _ _ _ _ H3). by eapply lookup_lt_Some.
Qed.

Lemma file_counts_perm t fl ds fl' ds' : file_counts t fl ds → fl ≡ₚ fl' → ds ≡ₚ ds' → file_counts t fl' ds'.
Proof.
  intros [[H1 H2 H3 H4 H5 H6 H7 H8] H9] E1 E2. split; [split; try done|].
  - intros x Hx. apply H3. by rewrite E1.
  - intros i F HF. rewrite <-(cnt_perm _ _ _ E1). by apply H4.
  - intros x Hx. apply H7. by rewrite E2.
  - eapply fs_counts_ext; [|exact H9]. intros k _. unfold inode_refs. by rewrite (cnt_perm _ _ _ E2).
Qed.

Lemma fslot_fptr i : fslot (fptr i) = i.
Proof. unfold fslot, fptr. lia. Qed.
Lemma fptr_inj i j : fptr i = fptr j → i = j.
Proof. unfold fptr. lia. Qed.
Lemma wp_fload Q t i F : ftable t !! i = Some F → Q F t → wp (fload (fptr i)) Q t.
Proof. intros HF HQ. unfold fload. wp_run. unfold file_at. by rewrite fslot_fptr, HF. Qed.
Lemma wp_fstore Q t i F g : ftable t !! i = Some F → Q tt (set_ftable (<[i := g F]> (ftable t)) t) → wp (fstore (fptr i) g) Q t.
Proof.
  intros HF HQ. unfold fstore. wp_run. rewrite fslot_fptr. assert (alter g i (ftable t) = <[i := g F]> (ftable t)) as ->; [|done].
  apply list_eq. intros j. assert (i < length (ftable t))%nat by by eapply lookup_lt_Some. destruct (decide (j = i)) as [->|Hne].
  - by rewrite list_lookup_alter_eq, HF, list_lookup_insert_eq.
  - by rewrite list_lookup_alter_ne, list_lookup_insert_ne.
Qed.
Lemma unlocked_table t l : ft_locked t = false → set_ft_locked false (set_ftable l (set_ft_locked true t)) = set_ftable l t.
Proof. destruct t. cbn. by intros ->. Qed.

(** Entry [i] changes. *)
Lemma file_tbl_insert t fl ds fl' i F F' :
  file_tbl t fl ds → ftable t !! i = Some F → (∀ x, x ∈ fl' → x ∈ fl) →
  (∀ j, (j < 100)%nat → cnt (fptr j) fl' = if decide (j = i) then f_ref F' else cnt (fptr j) fl) →
  (f_ref F' = 0 → f_type F' = FD_NONE) → (on_inode (f_type F') = true → f_type F' = f_type F ∧ f_ip F' = f_ip F) →
  file_tbl (set_ftable (<[i := F']> (ftable t)) t) fl' ds.
Proof.
  intros [H1 H2 H3 H4 H5 H6 H7 H8] HF Hsub Hcnt Hn Hi.
  assert (∀ j r, <[i := F']> (ftable t) !! j = Some r → (j < 100)%nat ∧ (j = i ∧ r = F' ∨ j ≠ i ∧ ftable t !! j = Some r)) as Hlk.
  { intros j r Hr. pose proof (lookup_lt_Some _ _ _ Hr) as Hj. rewrite length_insert, H2 in Hj. split; [done|]. destruct (decide (j = i)) as [->|Hne].
    - rewrite list_lookup_insert_eq in Hr by by rewrite H2. injection Hr as <-. by left.
    - rewrite list_lookup_insert_ne in Hr by done. by right. }
  split; cbn [ft_locked ftable fs pipes set_ftable]; try done.
  - by rewrite length_insert.
  - intros x Hx. by apply H3, Hsub.
  - intros j r [Hj [[-> ->]|[Hne Hr]]]%Hlk; rewrite Hcnt by done; case_decide; done || by apply H4.
  - intros j r [Hj [[-> ->]|[Hne Hr]]]%Hlk; [done|eauto].
  - intros j r [Hj [[-> ->]|[Hne Hr]]]%Hlk; [|eauto]. intros Ho. destruct (Hi Ho) as [Et ->]. apply (H6 i F HF). by rewrite <-Et.
Qed.
Lemma inode_refs_insert t ds i F F' k : ftable t !! i = Some F →
  inode_refs (set_ftable (<[i := F']> (ftable t)) t) ds k = inode_refs t ds k - held k F + held k F'.
Proof. intros HF. unfold inode_refs. cbn [ftable set_ftable]. rewrite (held_by_insert k _ i F F' HF). lia. Qed.
Lemma file_counts_insert t fl ds fl' i F F' :
  file_counts t fl ds → ftable t !! i = Some F → file_tbl (set_ftable (<[i := F']> (ftable t)) t) fl' ds → (∀ k, held k F' = held k F) →
  file_counts (set_ftable (<[i := F']> (ftable t)) t) fl' ds.
Proof.
  intros [_ H] HF Ht Hh. split; [done|]. eapply fs_counts_ext; [|exact H]. intros k _. cbv beta. rewrite (inode_refs_insert t ds i F F' k HF), Hh. lia.
Qed.

Lemma filedup_counts t fl ds x : file_counts t fl ds → x ∈ fl → (length fl < 2048)%nat → wp (filedup x) (λ r t', r = x ∧ file_counts t' (x :: fl) ds) t.
Proof.
  intros [H Hfs] Hx Hlen. destruct (fc_files _ _ _ H x Hx) as (i & -> & Hi). destruct (lookup_lt_is_Some_2 (ftable t) i) as [F HF]; [by rewrite (fc_len _ _ _ H)|].
  pose proof (fc_ref _ _ _ H i F HF) as Er. pose proof (cnt_pos _ _ Hx). pose proof (cnt_bound (fptr i) fl).
  unfold filedup. wp_run. apply wp_acquire; [apply H|]. wp_run. eapply (wp_fload _ _ i F); [done|]. wp_run. rewrite (proj2 (Z.ltb_ge _ _)) by lia.
  wp_run. eapply (wp_fstore _ _ i F); [done|]. wp_run. apply wp_release; [done|]. wp_run. split; [done|].
  rewrite i32_small by lia. change (ftable (set_ft_locked true t)) with (ftable t). rewrite unlocked_table by apply H.
  eapply (file_counts_insert t fl ds _ i F); [done|done| |].
  - eapply (file_tbl_insert t fl ds _ i F); [done|done| | |cbn; lia|done].
    + intros x [->|?]%elem_of_cons; done.
    + intros j _. rewrite cnt_cons. case_decide as E; [apply fptr_inj in E as ->; rewrite decide_True by done; cbn; lia|]. rewrite decide_False; [lia|congruence].
  - intros k. unfold held. cbn. by rewrite !(proj2 (Z.ltb_lt 0 _)) by lia.
Qed.

(** A reference to an open file less. *)
Lemma close_tbl t fl ds i F F' : file_tbl t (fptr i :: fl) ds → ftable t !! i = Some F → f_ref F' = f_ref F - 1 → (f_ref F' = 0 → f_type F' = FD_NONE) →
  (on_inode (f_type F') = true → f_type F' = f_type F ∧ f_ip F' = f_ip F) → file_tbl (set_ftable (<[i := F']> (ftable t)) t) fl ds.
Proof.
  intros H HF Er' Hn Hi. pose proof (fc_ref _ _ _ H i F HF) as Er. eapply (file_tbl_insert t _ ds _ i F); [done|done| | |done|done].
  - intros x Hx. by constructor.
  - intros j _. rewrite cnt_cons in Er |- *. rewrite decide_True in Er by done. destruct (decide (j = i)) as [->|Hne]; [lia|].
    rewrite decide_False; [lia|]. by intros ?%fptr_inj.
Qed.

(** The end of a pipe is closed, and the page of the pipe given back with the
    other end. *)
Lemma fpipeclose_counts t fl ds pi w : file_counts t fl ds → wp (fpipeclose pi w) (λ _ t', file_counts t' fl ds) t.
Proof.
  intros [H Hfs]. unfold fpipeclose, inpipe. wp_run. apply wp_zoom. unfold pipeclose. wp_run. apply wp_acquire; [apply H|]. wp_run.
  assert (∀ p, pi_locked p = false → file_counts (set_pipe_at pi p t) fl ds) as Hp.
  { intros p Hl. destruct H as [H1 H2 H3 H4 H5 H6 H7 H8]. split; [split; try done|done].
    intros pi'. unfold pipe_at, set_pipe_at. cbn [pipes set_pipes]. destruct (decide (pi' = pi)) as [->|Hne]; [by rewrite lookup_insert_eq|].
    rewrite lookup_insert_ne by done. apply H8. }
  assert (∀ t' l, file_counts t' fl ds → file_counts (set_pages l t') fl ds) as Hl by (intros t' l [[H1 H2 H3 H4 H5 H6 H7 H8] H9]; split; [by split|done]).
  destruct w; wp_run; (apply wp_release; [done|]); wp_run; (match goal with |- context [if ?b then _ else _] => destruct b end); unfold kfree_page; wp_run.
  all: try apply Hl; by apply Hp.
Qed.
(** The last reference to an open file of an inode gives up its reference. *)
Lemma fileclose_inode t fl ds i F k : file_counts t (fptr i :: fl) ds → ftable t !! i = Some F → f_ref F = 1 → on_inode (f_type F) = true → f_ip F = iptr k → (k < 50)%nat →
  (length ds ≤ 2048)%nat →
  let t' := set_ftable (<[i := set_f_type FD_NONE (set_f_ref 0 F)]> (ftable t)) t in
  wp (infs (inlog begin_op ;; iput (iptr k) ;; inlog end_op)) (λ _ t2, file_counts t2 fl ds) t'.
Proof.
  intros [H Hfs] HF Er Ho Eip Hk Hlen t'. assert (file_tbl t' fl ds) as Ht'.
  { eapply (close_tbl t fl ds i F); [done|done|cbn; lia|done|done]. }
  assert (held k F = 1) as Eh by (unfold held; by rewrite Er, Ho, Eip, Z.eqb_refl).
  pose proof (held_by_insert k (ftable t) i F (set_f_type FD_NONE (set_f_ref 0 F)) HF) as Ehb. pose proof (held_by_bound k (<[i := set_f_type FD_NONE (set_f_ref 0 F)]> (ftable t))) as Hb.
  rewrite length_insert, (fc_len _ _ _ H) in Hb. change (held k (set_f_type FD_NONE (set_f_ref 0 F))) with 0 in Ehb. pose proof (cnt_bound (iptr k) ds).
  unfold infs. apply wp_zoom. change (fs t') with (fs t). eapply wp_mono; [apply (iput_counts dev SB G Hdev Hroom (fs t) _ k Hfs Hk)|].
  { unfold inode_refs. lia. }
  cbv beta. intros [] x Hx. destruct Ht' as [H1 H2 H3 H4 H5 H6 H7 H8]. split; [by split|]. eapply fs_counts_ext; [|exact Hx].
  intros j _. cbv beta. unfold bump. change (inode_refs (set_fs x t') ds j) with (inode_refs t' ds j). unfold t'. rewrite (inode_refs_insert t ds i F _ j HF).
  change (held j (set_f_type FD_NONE (set_f_ref 0 F))) with 0. case_decide as E; [subst j; lia|].
  enough (held j F = 0) by lia. unfold held. rewrite Eip, (proj2 (Z.eqb_neq (iptr k) (iptr j))) by (unfold iptr; lia). by rewrite andb_false_r.
Qed.

Lemma fileclose_counts t fl ds x : file_counts t (x :: fl) ds → (length ds ≤ 2048)%nat → wp (fileclose x) (λ _ t', file_counts t' fl ds) t.
Proof.
  intros Hc Hlen. pose proof Hc as [H Hfs]. destruct (fc_files _ _ _ H x (list_elem_of_here _ _)) as (i & -> & Hi).
  destruct (lookup_lt_is_Some_2 (ftable t) i) as [F HF]; [by rewrite (fc_len _ _ _ H)|]. assert (i < length (ftable t))%nat as Hil by by rewrite (fc_len _ _ _ H).
  pose proof (fc_ref _ _ _ H i F HF) as Er. rewrite cnt_cons, decide_True in Er by done. pose proof (cnt_bound (fptr i) fl).
  unfold fileclose. wp_run. apply wp_acquire; [apply H|]. wp_run. eapply (wp_fload _ _ i F); [done|]. wp_run. rewrite (proj2 (Z.ltb_ge _ _)) by lia. wp_run.
  eapply (wp_fstore _ _ i F); [done|]. change (ftable (set_ft_locked true t)) with (ftable t). destruct (Z.ltb_spec 0 (f_ref F - 1)).
  - wp_run. apply wp_release; [done|]. rewrite unlocked_table by apply H. eapply (file_counts_insert t _ ds _ i F); [done|done|apply (close_tbl t fl ds i F); try done; cbn; lia|].
    intros k. unfold held. cbn. by rewrite !(proj2 (Z.ltb_lt 0 _)) by lia.
  - assert (f_ref F = 1) as E1 by lia. rewrite E1. wp_run. eapply (wp_fload _ _ i); [by apply list_lookup_insert_eq|]. wp_run.
    eapply (wp_fstore _ _ i); [by apply list_lookup_insert_eq|]. wp_run. cbn [ftable set_ftable]. rewrite list_insert_insert_eq.
    eapply (wp_fstore _ _ i); [by apply list_lookup_insert_eq|]. wp_run. cbn [ftable set_ftable]. rewrite list_insert_insert_eq. apply wp_release; [done|].
    set (F' := set_f_type FD_NONE _). change (set_ft_locked false _) with (set_ft_locked false (set_ftable (<[i := F']> (ftable t)) (set_ft_locked true t))).
    rewrite unlocked_table by apply H. change F' with (set_f_type FD_NONE (set_f_ref 0 F)). clear F'. cbn [f_type f_pipe f_writable f_ip set_f_ref].
    assert (file_tbl (set_ftable (<[i := set_f_type FD_NONE (set_f_ref 0 F)]> (ftable t)) t) fl ds) as Ht' by (apply (close_tbl t fl ds i F); try done; cbn; lia).
    assert (on_inode (f_type F) = false → file_counts (set_ftable (<[i := set_f_type FD_NONE (set_f_ref 0 F)]> (ftable t)) t) fl ds) as Hno.
    { intros Ho. eapply (file_counts_insert t _ ds _ i F); [done|done|done|]. intros k. assert (held k F = 0) as -> by (unfold held; by rewrite Ho, andb_false_r). done. }
    assert (on_inode (f_type F) = true → ∃ k, f_ip F = iptr k ∧ (k < 50)%nat) as Hip by by apply (fc_ips _ _ _ H i F).
    destruct (f_type F) eqn:Ety.
    + wp_run. by apply Hno.
    + by apply fpipeclose_counts, Hno.
    + destruct (Hip eq_refl) as (k & Ek & Hk). rewrite Ek. apply fileclose_inode; try done. by rewrite Ety.
    + destruct (Hip eq_refl) as (k & Ek & Hk). rewrite Ek. apply fileclose_inode; try done. by rewrite Ety.
Qed.

(** References to inodes from elsewhere: the current directories. *)
Lemma dir_refs t fl ds k : file_counts t fl ds → iptr k ∈ ds → (length ds ≤ 2048)%nat → 0 < inode_refs t ds k < 2147483647.
Proof.
  intros [H _] Hk Hlen. unfold inode_refs. pose proof (cnt_pos _ _ Hk). pose proof (cnt_bound (iptr k) ds). pose proof (held_by_bound k (ftable t)) as Hb.
  rewrite (fc_len _ _ _ H) in Hb. lia.
Qed.

Lemma idup_file_counts t fl ds x : file_counts t fl ds → x ∈ ds → (length ds < 2048)%nat → wp (infs (idup x)) (λ r t', r = x ∧ file_counts t' fl (x :: ds)) t.
Proof.
  intros Hc Hx Hlen. pose proof Hc as [H Hfs]. destruct (fc_dirs _ _ _ H x Hx) as (k & -> & Hk). apply wp_zoom.
  eapply wp_mono; [apply (idup_counts dev SB (fs t) _ k Hfs Hk); eapply dir_refs; [done|done|lia]|]. cbv beta. intros r x' [-> Hx']. split; [done|].
  destruct H as [H1 H2 H3 H4 H5 H6 H7 H8]. split; [split; try done|].
  - intros y [->|Hy]%elem_of_cons; [by exists k|by apply H7].
  - eapply fs_counts_ext; [|exact Hx']. intros j _. cbv beta. unfold bump, inode_refs. cbn [ftable set_fs]. rewrite cnt_cons.
    destruct (decide (j = k)) as [->|Hne]; [rewrite decide_True by done; lia|rewrite decide_False; [lia|unfold iptr; lia]].
Qed.

Lemma iput_file_counts t fl ds x : file_counts t fl (x :: ds) → (length ds < 2048)%nat →
  wp (infs (inlog begin_op) ;; infs (iput x) ;; infs (inlog end_op)) (λ _ t', file_counts t' fl ds) t.
Proof.
  intros Hc Hlen. pose proof Hc as [H Hfs]. destruct (fc_dirs _ _ _ H x (list_elem_of_here _ _)) as (k & -> & Hk).
  assert (wp (inlog begin_op ;; iput (iptr k) ;; inlog end_op) (λ _ x', fs_counts dev SB x' (bump (inode_refs t (iptr k :: ds)) k (-1))) (fs t)) as Hw.
  { apply (iput_counts dev SB G Hdev Hroom); [done|done|]. pose proof (dir_refs t fl (iptr k :: ds) k Hc (list_elem_of_here _ _) ltac:(cbn; lia)). lia. }
  apply wp_run_OK in Hw as (r & x & E & Hx).
  assert ((infs (inlog begin_op) ;; infs (iput (iptr k)) ;; infs (inlog end_op)) t = OK r (set_fs x t)) as E'.
  { unfold infs, zoom, bind in *. destruct (inlog begin_op (fs t)) as [[] x1| | |]; [|done..]. cbn [fs set_fs]. destruct (iput (iptr k) x1) as [[] x2| | |]; [|done..].
    cbn [fs set_fs]. by rewrite E. }
  eapply wp_intro; [exact E'|]. destruct H as [H1 H2 H3 H4 H5 H6 H7 H8]. split; [split; try done|].
  - intros y Hy. apply H7. by constructor.
  - eapply fs_counts_ext; [|exact Hx]. intros j _. cbv beta. unfold bump, inode_refs. cbn [ftable set_fs]. rewrite cnt_cons.
    destruct (decide (j = k)) as [->|Hne]; [rewrite decide_True by done; lia|rewrite decide_False; [lia|unfold iptr; lia]].
Qed.

End files.
