(* ===== verification/SysFile.v ===== *)
(** * System calls on files: kernel/sysfile.c and the arguments of kernel/syscall.c

    The arguments are in the registers and in the memory of the calling process,
    which are part of the state of [File].  A system call returns the number that
    goes to register a0.  [argint] and [argaddr] return the value after their
    result, which is always 0; [fetchstr] and [argstr] return the characters after
    theirs.  Every path of a call that begins a transaction ends it right before
    its return; [in_tx] does both. *)

From stdpp Require Import base gmap list strings numbers.
From S2P Require Import Prelude Block Log Fs FsOp Pipe File.

(** ** kernel/syscall.c *)

(** [copyinstr] on the memory of the process: the bytes before the nul. *)
Fixpoint ureadstr (max : nat) (a : Z) (m : gmap Z Z) : Z * list Z :=
  match max with
  | O => (-1, [])
  | S max' =>
      match m !! a with
      | None => (-1, [])
      | Some b => if b =? 0 then (0, []) else let '(r, l) := ureadstr max' (a + 1) m in (r, b :: l)
      end
  end.

(** Fetch the uint64 at [addr] from the current process. *)
Definition fetchaddr (addr : Z) : M filest (Z * Z) :=
  c <- gets me ;;
  if (c_sz c <=? addr) || (c_sz c <? u64 (addr + 8)) then ret (-1, 0)
  else
    let '(r, l) := ucopyin (c_mem c) addr 8 in
    if negb (r =? 0) then ret (-1, 0) else ret (0, le_val l).

(** Fetch the nul-terminated string at [addr] from the current process. *)
Definition fetchstr (addr max : Z) : M filest (Z * list Z) :=
  c <- gets me ;;
  let '(err, buf) := ureadstr (Z.to_nat max) addr (c_mem c) in
  if err <? 0 then ret (err, buf) else ret (Z.of_nat (length buf), buf).

Definition argraw (n : Z) : M filest Z :=
  c <- gets me ;;
  if (0 <=? n) && (n <=? 5) then ret (default 0 (c_args c !! Z.to_nat n)) else panic "argraw".
Definition argint (n : Z) : M filest (Z * Z) := x <- argraw n ;; ret (0, i32 x).
Definition argaddr (n : Z) : M filest (Z * Z) := x <- argraw n ;; ret (0, x).
Definition argstr (n max : Z) : M filest (Z * list Z) :=
  '(r, addr) <- argaddr n ;;
  if r <? 0 then ret (-1, []) else fetchstr addr max.

(** ** Descriptors *)

Definition set_ofile (fd f : Z) : M filest unit :=
  modify (λ s, set_me (set_c_ofile (<[Z.to_nat fd := f]> (c_ofile (me s))) (me s)) s).
Definition get_ofile (fd : Z) : M filest Z := gets (λ s, default 0 (c_ofile (me s) !! Z.to_nat fd)).

(** The result, the descriptor and its open file. *)
Definition argfd (n : Z) : M filest (Z * Z * Z) :=
  '(r, fd) <- argint n ;;
  if r <? 0 then ret (-1, 0, 0)
  else if (fd <? 0) || (NOFILE <=? fd) then ret (-1, 0, 0)
  else
    f <- get_ofile fd ;;
    if f =? 0 then ret (-1, 0, 0) else ret (0, fd, f).

Definition fdalloc_turn (f fd : Z) : M filest (Z + Z) :=
  if fd <? NOFILE then
    g <- get_ofile fd ;;
    if g =? 0 then set_ofile fd f ;; ret (inr fd) else ret (inl (fd + 1))
  else ret (inr (-1)).
Definition fdalloc (f : Z) : M filest Z := loop (S (Z.to_nat NOFILE)) (fdalloc_turn f) 0.

Section sysfile.
Context (dev_read dev_write : Z → option (Z → Z → M filest Z)).
Context (padding : list Z).
(** What is in [name], an array on the stack, before [nameiparent] writes it. *)
Context (junk : list Z).

Definition sys_dup : M filest Z :=
  '(r, _, f) <- argfd 0 ;;
  if r <? 0 then ret (-1)
  else
    fd <- fdalloc f ;;
    if fd <? 0 then ret (-1)
    else filedup f ;; ret fd.

Definition sys_read : M filest Z :=
  '(r, _, f) <- argfd 0 ;;
  if r <? 0 then ret (-1)
  else
    '(r, n) <- argint 2 ;;
    if r <? 0 then ret (-1)
    else
      '(r, p) <- argaddr 1 ;;
      if r <? 0 then ret (-1) else fileread dev_read f p n.

Definition sys_write : M filest Z :=
  '(r, _, f) <- argfd 0 ;;
  if r <? 0 then ret (-1)
  else
    '(r, n) <- argint 2 ;;
    if r <? 0 then ret (-1)
    else
      '(r, p) <- argaddr 1 ;;
      if r <? 0 then ret (-1) else filewrite dev_write f p n.

Definition sys_close : M filest Z :=
  '(r, fd, f) <- argfd 0 ;;
  if r <? 0 then ret (-1)
  else
    set_ofile fd 0 ;;
    fileclose f ;;
    ret 0.

Definition sys_fstat : M filest Z :=
  '(r, _, f) <- argfd 0 ;;
  if r <? 0 then ret (-1)
  else
    '(r, st) <- argaddr 1 ;;
    if r <? 0 then ret (-1) else filestat padding f st.

(** ** Links *)

Definition set_i_nlink (x : Z) (ip : inode) : inode :=
  mkInode (i_dev ip) (i_inum ip) (i_ref ip) (i_lock ip) (i_valid ip) (i_type ip) (i_major ip) (i_minor ip) x (i_size ip) (i_addrs ip).
(** [ip->nlink += d]; the field is a short. *)
Definition add_nlink (ip d : Z) : M fsst unit := istore ip (λ p, set_i_nlink (i16 (i_nlink p + d)) p).

(** [bad:] of [sys_link]. *)
Definition link_bad (ip : Z) : M fsst Z :=
  ilock ip ;;
  add_nlink ip (-1) ;;
  iupdate ip ;;
  iunlockput ip ;;
  ret (-1).
(** [sys_link] with the result of [dirlink]. *)
Definition link_end (ip dp r : Z) : M fsst Z :=
  if r <? 0 then iunlockput dp ;; link_bad ip
  else
    iunlockput dp ;;
    iput ip ;;
    ret 0.
(** The new name for [ip]. *)
Definition link_to (ip : Z) (new : list Z) : M fsst Z :=
  '(dp, name) <- nameiparent new junk ;;
  if dp =? 0 then link_bad ip
  else
    ilock dp ;;
    d <- iload dp ;;
    p <- iload ip ;;
    r <- (if negb (i_dev d =? i_dev p) then ret (-1) else dirlink dp name (i_inum p)) ;;
    link_end ip dp r.
(** [sys_link] from [begin_op] to [end_op]. *)
Definition link_paths (old new : list Z) : M fsst Z :=
  ip <- namei old ;;
  if ip =? 0 then ret (-1)
  else
    ilock ip ;;
    p <- iload ip ;;
    if i_type p =? T_DIR then iunlockput ip ;; ret (-1)
    else
      add_nlink ip 1 ;;
      iupdate ip ;;
      iunlock ip ;;
      link_to ip new.
Definition sys_link : M filest Z :=
  '(r, old) <- argstr 0 MAXPATH ;;
  if r <? 0 then ret (-1)
  else
    '(r, new) <- argstr 1 MAXPATH ;;
    if r <? 0 then ret (-1) else infs (in_tx (link_paths old new)).

(** Is the directory [dp] empty except for "." and ".."? *)
Definition isdirempty_turn (dp off : Z) : M fsst (Z + Z) :=
  p <- iload dp ;;
  if off <? i_size p then
    '(de, r) <- readi dp to_var [] off DIRENT_size ;;
    if negb (r =? DIRENT_size) then panic "isdirempty: readi"
    else if negb (de_inum de =? 0) then ret (inr 0)
    else ret (inl (off + DIRENT_size))
  else ret (inr 1).
Definition isdirempty (dp : Z) : M fsst Z :=
  p <- iload dp ;;
  loop (Z.to_nat (i_size p / DIRENT_size) + 2) (isdirempty_turn dp) (2 * DIRENT_size).

Definition DOT : list Z := [46; 0].
Definition DOTDOT : list Z := [46; 46; 0].

(** [sys_unlink] from [begin_op] to [end_op]. *)
Definition unlink_path (path : list Z) : M fsst Z :=
  '(dp, name) <- nameiparent path junk ;;
  if dp =? 0 then ret (-1)
  else
    ilock dp ;;
    (* Cannot unlink "." or "..". *)
    if (namecmp name DOT =? 0) || (namecmp name DOTDOT =? 0) then iunlockput dp ;; ret (-1)
    else
      '(ip, off) <- dirlookup dp name ;;
      if ip =? 0 then iunlockput dp ;; ret (-1)
      else
        ilock ip ;;
        p <- iload ip ;;
        if i_nlink p <? 1 then panic "unlink: nlink < 1"
        else
          empty <- (if i_type p =? T_DIR then isdirempty ip else ret 1) ;;
          if (i_type p =? T_DIR) && (empty =? 0) then iunlockput ip ;; iunlockput dp ;; ret (-1)
          else
            r <- writei dp (from_var (replicate 16 0)) off DIRENT_size ;;
            if negb (r =? DIRENT_size) then panic "unlink: writei"
            else
              (if i_type p =? T_DIR then add_nlink dp (-1) ;; iupdate dp else ret tt) ;;
              iunlockput dp ;;
              add_nlink ip (-1) ;;
              iupdate ip ;;
              iunlockput ip ;;
              ret 0.
Definition sys_unlink : M filest Z :=
  '(r, path) <- argstr 0 MAXPATH ;;
  if r <? 0 then ret (-1) else infs (in_tx (unlink_path path)).

(** ** New files *)

Definition set_i_dev (major minor : Z) (ip : inode) : inode :=
  mkInode (i_dev ip) (i_inum ip) (i_ref ip) (i_lock ip) (i_valid ip) (i_type ip) major minor (i_nlink ip) (i_size ip) (i_addrs ip).

(** The entries "." and ".." of a new directory. *)
Definition create_dots (ip dp : Z) : M fsst unit :=
  add_nlink dp 1 ;; (* for ".." *)
  iupdate dp ;;
  (* No ip->nlink++ for ".": avoid cyclic ref count. *)
  p <- iload ip ;;
  d <- iload dp ;;
  r <- dirlink ip DOT (i_inum p) ;;
  if r <? 0 then panic "create dots"
  else
    r <- dirlink ip DOTDOT (i_inum d) ;;
    if r <? 0 then panic "create dots" else ret tt.
Definition create (path : list Z) (type major minor : Z) : M fsst Z :=
  '(dp, name) <- nameiparent path junk ;;
  if dp =? 0 then ret 0
  else
    ilock dp ;;
    '(ip, _) <- dirlookup dp name ;;
    if negb (ip =? 0) then
      iunlockput dp ;;
      ilock ip ;;
      p <- iload ip ;;
      if (type =? T_FILE) && ((i_type p =? T_FILE) || (i_type p =? T_DEVICE)) then ret ip
      else iunlockput ip ;; ret 0
    else
      d <- iload dp ;;
      ip <- ialloc (i_dev d) type ;;
      if ip =? 0 then panic "create: ialloc"
      else
        ilock ip ;;
        istore ip (set_i_dev major minor) ;;
        istore ip (set_i_nlink 1) ;;
        iupdate ip ;;
        (if type =? T_DIR then create_dots ip dp else ret tt) ;;
        p <- iload ip ;;
        r <- dirlink dp name (i_inum p) ;;
        if r <? 0 then panic "create: dirlink"
        else iunlockput dp ;; ret ip.

(** [sys_open] with the inode, locked. *)
Definition open_file (ip omode : Z) : M filest Z :=
  p <- infs (iload ip) ;;
  if (i_type p =? T_DEVICE) && ((i_major p <? 0) || (NDEV <=? i_major p)) then infs (iunlockput ip) ;; ret (-1)
  else
    f <- filealloc ;;
    fd <- (if f =? 0 then ret (-1) else fdalloc f) ;;
    if (f =? 0) || (fd <? 0) then
      (if truthy f then fileclose f else ret tt) ;;
      infs (iunlockput ip) ;;
      ret (-1)
    else
      (if i_type p =? T_DEVICE then fstore f (λ x, set_f_major (i_major p) (set_f_type FD_DEVICE x))
       else fstore f (λ x, set_f_off 0 (set_f_type FD_INODE x))) ;;
      fstore f (set_f_ip ip) ;;
      fstore f (set_f_mode (negb (truthy (Z.land omode O_WRONLY))) (truthy (Z.land omode O_WRONLY) || truthy (Z.land omode O_RDWR))) ;;
      (if truthy (Z.land omode O_TRUNC) && (i_type p =? T_FILE) then infs (itrunc ip) else ret tt) ;;
      infs (iunlock ip) ;;
      ret fd.
(** [sys_open] from [begin_op] to [end_op]. *)
Definition open_path (path : list Z) (omode : Z) : M filest Z :=
  if truthy (Z.land omode O_CREATE) then
    ip <- infs (create path T_FILE 0 0) ;;
    if ip =? 0 then ret (-1) else open_file ip omode
  else
    ip <- infs (namei path) ;;
    if ip =? 0 then ret (-1)
    else
      infs (ilock ip) ;;
      p <- infs (iload ip) ;;
      if (i_type p =? T_DIR) && negb (omode =? O_RDONLY) then infs (iunlockput ip) ;; ret (-1)
      else open_file ip omode.
Definition sys_open : M filest Z :=
  '(n, path) <- argstr 0 MAXPATH ;;
  if n <? 0 then ret (-1)
  else
    '(r, omode) <- argint 1 ;;
    if r <? 0 then ret (-1)
    else
      infs (inlog begin_op) ;;
      fd <- open_path path omode ;;
      infs (inlog end_op) ;;
      ret fd.

(** The end of [sys_mkdir] and [sys_mknod]. *)
Definition made (ip : Z) : M filest Z :=
  if ip =? 0 then infs (inlog end_op) ;; ret (-1)
  else
    infs (iunlockput ip) ;;
    infs (inlog end_op) ;;
    ret 0.
Definition sys_mkdir : M filest Z :=
  infs (inlog begin_op) ;;
  '(r, path) <- argstr 0 MAXPATH ;;
  ip <- (if r <? 0 then ret 0 else infs (create path T_DIR 0 0)) ;;
  made ip.
Definition sys_mknod : M filest Z :=
  infs (inlog begin_op) ;;
  '(r, path) <- argstr 0 MAXPATH ;;
  ip <- (if r <? 0 then ret 0
         else
           '(r, major) <- argint 1 ;;
           if r <? 0 then ret 0
           else
             '(r, minor) <- argint 2 ;;
             if r <? 0 then ret 0 else infs (create path T_DEVICE (i16 major) (i16 minor))) ;;
  made ip.

Definition sys_chdir : M filest Z :=
  infs (inlog begin_op) ;;
  '(r, path) <- argstr 0 MAXPATH ;;
  ip <- (if r <? 0 then ret 0 else infs (namei path)) ;;
  if ip =? 0 then infs (inlog end_op) ;; ret (-1)
  else
    infs (ilock ip) ;;
    p <- infs (iload ip) ;;
    if negb (i_type p =? T_DIR) then
      infs (iunlockput ip) ;;
      infs (inlog end_op) ;;
      ret (-1)
    else
      infs (iunlock ip) ;;
      c <- gets (λ s, cwd (fs s)) ;;
      infs (iput c) ;;
      infs (inlog end_op) ;;
      modify (λ s, set_fs (mkFs (sb (fs s)) (it_locked (fs s)) (itable (fs s)) (flog (fs s)) ip) s) ;;
      ret 0.

(** ** Pipes *)

(** The descriptors given so far are taken back. *)
Definition pipe_bad (fd0 fd1 rf wf : Z) : M filest Z :=
  (if 0 <=? fd0 then set_ofile fd0 0 else ret tt) ;;
  (if 0 <=? fd1 then set_ofile fd1 0 else ret tt) ;;
  fileclose rf ;;
  fileclose wf ;;
  ret (-1).
Definition sys_pipe : M filest Z :=
  '(r, fdarray) <- argaddr 0 ;;
  if r <? 0 then ret (-1)
  else
    o <- pipealloc ;;
    match o with
    | None => ret (-1)
    | Some (rf, wf) =>
        fd0 <- fdalloc rf ;;
        if fd0 <? 0 then pipe_bad (-1) (-1) rf wf
        else
          fd1 <- fdalloc wf ;;
          if fd1 <? 0 then pipe_bad fd0 (-1) rf wf
          else
            r <- ucopyout fdarray (le_bytes 4 fd0) ;;
            if r <? 0 then pipe_bad fd0 fd1 rf wf
            else
              r <- ucopyout (u64 (fdarray + 4)) (le_bytes 4 fd1) ;;
              if r <? 0 then pipe_bad fd0 fd1 rf wf else ret 0
    end.

End sysfile.
