(* ===== verification/SysLink.v ===== *)
(** * Links: [sys_link]

    The tree of files stays sound, and the link count of every inode the number of
    its names, when [sys_link] makes a name, when it fails, and when the machine
    crashes meanwhile. *)

From stdpp Require Import base gmap list strings numbers.
From S2P Require Import Prelude Block SleepLock Bio BioSpec Cache Log LogSpec Fs FsTx FsAlloc FsInode FsOp FsFile FsWrite FsTrunc FsDir FsTable FsPath FsSound FsTree Pipe File SysFile.

Section link.
Context (dev : Z) (SB : superblock) (l0 : logst) (G : fsgeo SB).
Notation fr := (fr dev SB l0).
Notation tbl := (tbl dev SB l0).
Notation ref_of := (ref_of dev).

(** The link count of a locked inode changes. *)
Lemma relink_run {A} (m : M fsst A) Q s V P L I c k p d :
  fr s V P ∅ None false I c → tbl V L I → I !! k = Some p → 0 < i_ref p → dinode_of p = dinode_at SB V (i_inum p) → sound_disk SB V → room SB P →
  (∀ s' V1 p1, fr s' V1 (P ∪ {[IBLOCK (i_inum p) SB]}) ∅ None false (<[k := p1]> I) c → p1 = set_i_nlink (i16 (i_nlink p + d)) p →
     tbl V1 L (<[k := p1]> I) → (∀ n, ref_of (<[k := p1]> I) n = ref_of I n) → slots (<[k := p1]> I) = slots I → keeps I (<[k := p1]> I) →
     relinked SB V V1 (i_inum p) (i16 (i_nlink p + d)) → wp m Q s') →
  wp (add_nlink (iptr k) d) (λ _, wp (iupdate (iptr k) ;; m) Q) s.
Proof.
  intros Hs Ht Hp Hr Hv HS Hroom HQ. destruct (t_dev _ _ _ _ _ _ Ht k p Hp Hr) as [Ed Hn]. assert (k < length I)%nat as Hk by by eapply lookup_lt_Some.
  unfold add_nlink. eapply wp_istore; [exact Hs|done|]. clear s Hs. intros s Hs. set (x := i16 (i_nlink p + d)) in *. set (p1 := set_i_nlink x p) in *. wp_run.
  eapply (iupdate_run dev SB l0 G); [exact Hs|by apply list_lookup_insert_eq|done|done|apply lookup_empty|rewrite map_size_empty; lia|done|].
  clear s Hs. intros s Hs. change (i_inum p1) with (i_inum p) in Hs.
  assert (dinode_of p1 = set_d_nlink x (dinode_at SB V (i_inum p))) as E1 by by rewrite <-Hv.
  assert (relinked SB V (iupdated SB V (i_inum p) (dinode_of p1)) (i_inum p) x) as HR by (rewrite E1; apply (relinked_iupdated SB G); [done|done|apply i16_short]).
  destruct (tbl_changed dev SB l0 V L I k p (iupdated SB V (i_inum p) (dinode_of p1)) p1) as (T1 & T2 & T3); [done..| | |].
  { rewrite (rl_inode _ _ _ _ _ HR) by done. by rewrite decide_True. }
  { intros n Hn' Hne. rewrite (rl_inode _ _ _ _ _ HR) by done. by rewrite decide_False. }
  eapply HQ; [exact Hs|done|done|done|done| |done]. intros j n v. by apply (entry_insert I k p).
Qed.

(** The link count goes back. *)
Lemma link_bad_run Q s V P I c k n b :
  fr s V P ∅ None false I c → tbl V [] I → entry I k n false → bounded dev I b → b < 2147483647 → sound_disk SB V → room SB P →
  d_type (dinode_at SB V n) ≠ 0 → i16 (d_nlink (dinode_at SB V n) - 1) ≠ 0 →
  (∀ s' V2 I', fr s' V2 (P ∪ {[IBLOCK n SB]}) ∅ None false I' c → tbl V2 [] I' → (∀ m, ref_of I' m = ref_of I m - one (m =? n)) →
     slots I' = slots I + one (ref_of I n =? 1) → (∀ j m v, entry I j m v → (m = n → 1 < ref_of I n) → entry I' j m v) →
     relinked SB V V2 n (i16 (d_nlink (dinode_at SB V n) - 1)) → Q (-1) s') →
  wp (link_bad (iptr k)) Q s.
Proof.
  intros Hs Ht He Hb Hbb HS Hroom Hty Hnl HQ. unfold link_bad. wp_run. assert (size P < 30)%nat as HP by (unfold room in Hroom; lia).
  eapply (t_ilock dev SB l0 G); [exact Hs|exact Ht|set_solver|exact He|exact Hb|done|done|done|].
  clear s Hs. intros I1 p s Hs Ht1 Hp En Ed Edi He1 Hr1 Hs1 Hk1. destruct He1 as (p' & Hp' & _ & Hr & Hv). rewrite Hp in Hp'. injection Hp' as <-. clear Hv.
  assert (i_nlink p = d_nlink (dinode_at SB V n)) as Enl by (rewrite <-Edi; done). pose proof (proj2 (t_dev _ _ _ _ _ _ Ht1 k p Hp Hr)) as Hn.
  wp_run. eapply relink_run; [exact Hs|exact Ht1|exact Hp|done|by rewrite En|done|done|]. clear s Hs. intros s V2 p1 Hs Ep1 Ht2 Hr2 Hs2 Hk2 HR.
  rewrite En in Hs, HR, Hn. change (i_nlink p + -1) with (i_nlink p - 1) in HR. rewrite Enl in HR.
  assert (entry (<[k := p1]> I1) k n false) as He2 by by apply Hk2, Hk1.
  unfold iunlockput. wp_run. eapply (t_iunlock dev SB l0); [exact Hs|exact Ht2|set_solver|exact He2|]. clear s Hs. intros I3 s Hs Ht3 Hr3 Hs3 Hk3.
  assert (∀ m, ref_of I3 m = ref_of I m) as Er by (intros m; by rewrite Hr3, Hr2, Hr1).
  eapply (t_iput dev SB l0); [exact Hs|exact Ht3|by apply Hk3|intros m; rewrite Er; apply Hb|lia| |].
  { rewrite (rl_inode _ _ _ _ _ HR) by done. by rewrite decide_True. }
  clear s Hs. intros I4 s Hs Ht4 Hr4 Hs4 Hk4. wp_run. eapply HQ; [exact Hs|exact Ht4| | | |exact HR].
  - intros m. by rewrite Hr4, Er.
  - rewrite Hs4, Er. congruence.
  - intros j m v Hm H1. apply Hk4; [by apply Hk3, Hk2, Hk1|]. by rewrite Er.
Qed.

(** [n] has the new name [nm] in the directory [d]. *)
Record linked_to (V V' : Z → block) (d : Z) (nm : list Z) (n : Z) : Prop := mkLinkedTo {
  lt_name : ddir SB V' d nm = Some n;
  lt_names : ∀ d' nm', 0 ≤ d' < sb_ninodes SB → d' ≠ d ∨ nm' ≠ nm → ddir SB V' d' nm' = ddir SB V d' nm';
  lt_inode : ∀ m, 0 ≤ m < sb_ninodes SB → dtype SB V' m = dtype SB V m ∧ d_nlink (dinode_at SB V' m) = d_nlink (dinode_at SB V m) + one (m =? n);
  lt_count : ∀ m, m ≠ 0 → names SB V' m = names SB V m + one (m =? n);
  lt_file : ∀ m, 0 ≤ m < sb_ninodes SB → m ≠ d → stays SB V V' m;
}.

Lemma linked_to_home V V1 V2 d nm n : linked_to V V1 d nm n → sound_disk SB V1 → same_home SB V1 V2 → 0 ≤ d < sb_ninodes SB → linked_to V V2 d nm n.
Proof.
  intros [H1 H2 H3 H4 H5] HS E Hd. pose proof (unchanged_home SB G V1 V2 HS E) as Hu. pose proof (unchanged_alike SB V1 V2 HS Hu) as Ha.
  assert (∀ d nm, 0 ≤ d < sb_ninodes SB → ddir SB V2 d nm = ddir SB V1 d nm) as Edd by (intros d' nm' Hd'; apply ddir_dents; by apply Ha). split.
  - by rewrite Edd.
  - intros d' nm' Hd' Hne. rewrite Edd by done. by apply H2.
  - intros m Hm. destruct (Hu m Hm) as [Em _]. rewrite Em, (proj1 (Ha m Hm)). by apply H3.
  - intros m Hm. rewrite (names_alike SB V1 V2) by done. by apply H4.
  - intros m Hm Hne. eapply stays_trans; [by apply H5|by apply Hu].
Qed.

(** ** The new name *)

(** Where the new name goes: the directory and the name, if it can be there. *)
Definition link_place (V : Z → block) (nc : Z) (new : list Z) : option (Z * list Z) :=
  d ← resolve_to SB V true (start_of new nc) (elems new); nm ← list.last (elems new);
  match ddir SB V d nm with Some _ => None | None => Some (d, nm) end.

Context (V : Z → block) (I0 : list inode) (kc : nat) (nc : Z) (junk : list Z).
Context (Hdev : dev = Fs.ROOTDEV) (HT : tree SB V) (Hnl : ∀ n, live SB V n → 0 < d_nlink (dinode_at SB V n) < 32767).
Context (Ht0 : tbl V [] I0) (Hb0 : bounded dev I0 2147483000) (Hsl0 : 4 ≤ slots I0).
Context (Hkc : entry I0 kc nc false) (Hnc : live SB V nc) (Hroot : live SB V ROOTINO) (Hn16 : sb_ninodes SB ≤ 65536).
Context (Hjunk : length junk = 14%nat) (Hjb : bytes junk).
Context (Hsize : ∀ d, 0 ≤ d < sb_ninodes SB → dtype SB V d = T_DIR → d_size (dinode_at SB V d) + 16 ≤ MAXFILE * BSIZE).
Context (Hfree : (2 ≤ nfree SB V)%nat) (Hlog : 12 < sb_nlog SB).

(** The link count went up and goes back. *)
Lemma unlinked_run Q s V1 P I k n :
  fr s V1 P ∅ None false I (iptr kc) → hold dev SB l0 V1 [] I0 I k n → live SB V n → room SB P →
  relinked SB V V1 n (i16 (d_nlink (dinode_at SB V n) + 1)) →
  (∀ s' V2 P' I', fr s' V2 P' ∅ None false I' (iptr kc) → even dev SB l0 V2 I0 I' → tree SB V2 → unchanged SB V V2 → Q (-1) s') →
  wp (link_bad (iptr k)) Q s.
Proof.
  intros Hs Hh Hlive Hroom HR HQ. pose proof (Hnl n Hlive) as Hn1. pose proof Hlive as (Hn & Hty & _). pose proof Hh as (Ht & He & Hr & Hsn & Hk).
  assert (dinode_at SB V1 n = set_d_nlink (d_nlink (dinode_at SB V n) + 1) (dinode_at SB V n)) as E1.
  { rewrite (rl_inode _ _ _ _ _ HR) by done. rewrite decide_True by done. f_equal. unfold i16, u16. destruct (Z.ltb_spec ((d_nlink (dinode_at SB V n) + 1) mod 65536) 32768); zlia. }
  assert (i16 (d_nlink (dinode_at SB V1 n) - 1) = d_nlink (dinode_at SB V n)) as E2.
  { rewrite E1. cbn [d_nlink set_d_nlink]. unfold i16, u16. destruct (Z.ltb_spec ((d_nlink (dinode_at SB V n) + 1 - 1) mod 65536) 32768); zlia. }
  assert (bounded dev I 2147483001) as Hb by (intros m; rewrite Hr; specialize (Hb0 m); unfold one; destruct (m =? n); lia).
  eapply link_bad_run; [exact Hs|exact Ht|exact He|exact Hb|lia|apply HR|done|by rewrite E1|rewrite E2; lia|].
  clear s Hs. intros s V2 I' Hs Ht' Hr' Hs' Hk' HR'. rewrite E2 in HR'. pose proof (relinked_back SB V V1 V2 n _ Hn HR HR') as Hun.
  eapply HQ; [exact Hs| | |exact Hun].
  - pose proof (ref_of_nonneg dev I0 n (t_ref _ _ _ _ _ _ Ht0)). split; [done|]. split; [intros m; rewrite Hr', Hr; lia|]. split.
    + rewrite Hs', Hsn, Hr, Z.eqb_refl. unfold one. destruct (Z.eqb_spec (ref_of I0 n) 0), (Z.eqb_spec (ref_of I0 n + 1) 1); lia.
    + intros j m v Hm. apply Hk'; [by apply Hk|]. intros ->. apply (entry_ref dev SB l0 _ _ _ _ _ _ Ht0) in Hm. rewrite Hr, Z.eqb_refl. cbn. lia.
  - destruct (tree_relinked SB V V2 HT) as [HT2 _]; [apply HR'| |done]. intros m Hm. destruct (Hun m Hm) as [E Hst]. unfold dtype. by rewrite E.
Qed.

Lemma hold_even W I I' k n : hold dev SB l0 W [] I0 I k n → even dev SB l0 W I I' → hold dev SB l0 W [] I0 I' k n.
Proof.
  intros (Ht & He & Hr & Hs & Hk) (Ht' & Hr' & Hs' & Hk'). split; [done|]. split; [by apply Hk'|]. split; [intros m; by rewrite Hr'|]. split; [congruence|].
  intros j m v Hm. by apply Hk', Hk.
Qed.

(** The reference to the inode goes, after the one to the directory. *)
Lemma hold_done Q s W P I k n : fr s W P ∅ None false I (iptr kc) → hold dev SB l0 W [] I0 I k n → d_nlink (dinode_at SB W n) ≠ 0 →
  (∀ I' s', fr s' W P ∅ None false I' (iptr kc) → even dev SB l0 W I0 I' → Q tt s') → wp (iput (iptr k)) Q s.
Proof.
  intros Hs (Ht & He & Hr & Hsn & Hk) Hnz HQ. pose proof (ref_of_nonneg dev I0 n (t_ref _ _ _ _ _ _ Ht0)).
  assert (bounded dev I 2147483001) as Hb by (intros m; rewrite Hr; specialize (Hb0 m); unfold one; destruct (m =? n); lia).
  eapply (t_iput dev SB l0); [exact Hs|exact Ht|exact He|exact Hb|lia|done|]. intros I' s' Hs' Ht' Hr' Hs2 He'. eapply HQ; [exact Hs'|].
  split; [done|]. split; [intros m; rewrite Hr', Hr; lia|]. split.
  - rewrite Hs2, Hsn, Hr, Z.eqb_refl. unfold one. destruct (Z.eqb_spec (ref_of I0 n) 0), (Z.eqb_spec (ref_of I0 n + 1) 1); lia.
  - intros j m v Hm. apply He'; [by apply Hk|]. intros ->. rewrite Hr, Z.eqb_refl. apply (entry_ref dev SB l0 _ _ _ _ _ _ Ht0) in Hm. cbn. lia.
Qed.

(** What a new entry means, with the link count that went up before. *)
Lemma linked_entered V1 V2 p p' j name n : relinked SB V V1 n (i16 (d_nlink (dinode_at SB V n) + 1)) → live SB V n → dtype SB V n ≠ T_DIR → 0 < n →
  file_ok SB V1 p → i_type p = T_DIR → (j ≤ length (entries V1 p))%nat → (∀ de, entries V1 p !! j = Some de → de_inum de = 0) →
  written SB (16 * Z.of_nat j) (mk_dirent n name) V1 p V2 p' → i_size p + 16 ≤ MAXFILE * BSIZE → length name = 14%nat →
  dfind (cstr name) 0 (entries V1 p) = None → tree SB V2 ∧ linked_to V V2 (i_inum p) (cstr name) n.
Proof.
  intros HR Hlive Hnd Hn0 Hfile Hty Hj Hfr Hw Hsz Hlen Hnone. pose proof Hlive as (Hn & Hnt & _). pose proof (Hnl n Hlive) as Hn1.
  assert (i16 (d_nlink (dinode_at SB V n) + 1) = d_nlink (dinode_at SB V n) + 1) as E16.
  { unfold i16, u16. destruct (Z.ltb_spec ((d_nlink (dinode_at SB V n) + 1) mod 65536) 32768); zlia. }
  rewrite E16 in HR. destruct (tree_relink SB V V1 n _ HT HR) as [HT1 Ha]; [lia|].
  assert (live SB V1 n) as Hl1.
  { split; [done|]. split; [by rewrite (proj1 (Ha n Hn))|]. rewrite (rl_inode _ _ _ _ _ HR) by done. rewrite decide_True by done. cbn [d_nlink set_d_nlink]. lia. }
  destruct (tree_entered SB G V1 p V2 p' j name n HT1 Hfile Hty Hj Hfr Hw Hsz Hlen ltac:(lia) Hl1 Hnone) as (HT2 & Hsame & Hcnt & Hnew & Hother & Hst).
  assert (∀ d nm, 0 ≤ d < sb_ninodes SB → ddir SB V1 d nm = ddir SB V d nm) as Ed by (intros d nm Hd; apply ddir_dents; by apply Ha).
  split; [done|]. pose proof Hfile as (Hp & _). split.
  - exact Hnew.
  - intros d' nm' Hd' Hne. rewrite <-Ed by done. destruct (decide (d' = i_inum p)) as [->|Hd]; [apply Hother; tauto|].
    apply ddir_dents, stays_dents; [apply HR|done|by apply Hst].
  - intros m Hm. destruct (Hsame m Hm) as [-> ->]. split; [by apply Ha|]. rewrite (rl_inode _ _ _ _ _ HR) by done.
    case_decide as E; [subst m; by rewrite Z.eqb_refl|]. rewrite (proj2 (Z.eqb_neq m n)) by done. cbn. lia.
  - intros m Hm. rewrite Hcnt by done. by rewrite (names_alike SB V V1).
  - intros m Hm Hne. eapply stays_trans; [by apply (rl_stays _ _ _ _ _ HR)|by apply Hst].
Qed.

(** After the call: the table as before, and the tree. *)
Definition link_done (V2 : Z → block) (n : Z) (place : option (Z * list Z)) (r : Z) : Prop :=
  tree SB V2 ∧ match place with Some (d, nm) => r = 0 ∧ linked_to V V2 d nm n | None => r = -1 ∧ unchanged SB V V2 end.

(** The inode [n] is in hand through entry [k], with its link count one up. *)
Section second.
Context (V1 : Z → block) (P : gset Z) (I : list inode) (k : nat) (n : Z).
Context (Hh : hold dev SB l0 V1 [] I0 I k n) (Hlive : live SB V n) (Hnd : dtype SB V n ≠ T_DIR) (Hn0 : 0 < n) (HP : (size P ≤ 1)%nat).
Context (HR : relinked SB V V1 n (i16 (d_nlink (dinode_at SB V n) + 1))).

Lemma second_tree : tree SB V1 ∧ alike SB V V1.
Proof.
  apply (tree_relink SB V V1 n _ HT HR). intros _. pose proof (Hnl n Hlive). unfold i16, u16.
  destruct (Z.ltb_spec ((d_nlink (dinode_at SB V n) + 1) mod 65536) 32768); zlia.
Qed.
Lemma second_live m : live SB V m → live SB V1 m.
Proof.
  intros (Hm & H1 & H2). split; [done|]. split; [by rewrite (proj1 (proj2 second_tree m Hm))|]. rewrite (rl_inode _ _ _ _ _ HR) by done. case_decide; [|done].
  pose proof (Hnl n Hlive). cbn [d_nlink set_d_nlink]. unfold i16, u16. destruct (Z.ltb_spec ((d_nlink (dinode_at SB V n) + 1) mod 65536) 32768); zlia.
Qed.
Lemma second_room : room SB P.
Proof. unfold room. lia. Qed.
Lemma second_bounded : bounded dev I 2147483600.
Proof. intros m. destruct Hh as (_ & _ & -> & _). specialize (Hb0 m). unfold one. destruct (m =? n); lia. Qed.
Lemma second_slots : 3 ≤ slots I.
Proof. destruct Hh as (_ & _ & _ & -> & _). unfold one. destruct (_ =? _); lia. Qed.
Lemma second_refs m : 0 ≤ ref_of I m.
Proof. apply ref_of_nonneg, (t_ref _ _ _ _ _ _ (proj1 Hh)). Qed.

(** The directory [d] is locked, through entry [k2]. *)
Context (I1 : list inode) (k2 : nat) (d : Z) (pd : inode) (name : list Z).
Context (Hh2 : hold dev SB l0 V1 [k2] I I1 k2 d) (Hld : live SB V d) (Htd : dtype SB V d = T_DIR) (Hlen : length name = 14%nat) (Hby : bytes name).
Context (Hpd : I1 !! k2 = Some pd) (Einum : i_inum pd = d) (Edi : dinode_of pd = dinode_at SB V1 d).

Lemma second_dir : file_ok SB V1 pd ∧ dir_ok V1 pd ∧ 0 < i_ref pd ∧ i_dev pd = dev ∧ ∀ nm, ddir SB V d nm = fst <$> dfind nm 0 (entries V1 pd).
Proof.
  destruct second_tree as [HT1 Ha]. destruct Hh2 as (Ht2 & (p & Hp & _ & Hr & _) & _). rewrite Hpd in Hp. injection Hp as <-.
  split; [apply (sound_entry_ok SB); [apply HT1|rewrite Einum; apply Hld|by rewrite Einum]|]. split; [|split; [done|split; [by apply (t_dev _ _ _ _ _ _ Ht2 k2 pd)|]]].
  - apply (dir_ok_dfile SB V1 pd d Edi). apply (tr_dirs _ _ HT1); [apply Hld|]. by rewrite (proj1 (Ha d (proj1 Hld))).
  - intros nm. rewrite (entries_dfile V1 pd _ Edi). symmetry. apply ddir_dents. by apply Ha, Hld.
Qed.

Lemma link_name_taken Q s n0 off : fr s V1 P ∅ None false I1 (iptr kc) → dfind (cstr name) 0 (entries V1 pd) = Some (n0, off) →
  (∀ s' V2 P' I', fr s' V2 P' ∅ None false I' (iptr kc) → even dev SB l0 V2 I0 I' → tree SB V2 → unchanged SB V V2 → Q (-1) s') →
  wp (dirlink (iptr k2) name n) (λ r, wp (link_end (iptr k) (iptr k2) r) Q) s.
Proof.
  intros Hs Ef HQ. destruct second_tree as [HT1 Ha]. destruct second_dir as (Hfile & Hdir & Hrd & Edev & Edd). pose proof second_bounded as Hb. pose proof second_slots as Hsl.
  pose proof Hh2 as (Ht2 & He2 & Hr2 & Hsl2 & Hk2). pose proof (proj1 Hh) as Ht.
  assert (live SB V n0) as Hl0 by (apply (proj2 (tr_dirs _ _ HT d (proj1 Hld) Htd) (cstr name)); by rewrite Edd, Ef).
  destruct (second_live n0 Hl0) as (Hn0r & _ & Hn0l).
  assert (bounded dev I1 2147483601) as Hb1 by (intros m; rewrite Hr2; specialize (Hb m); unfold one; destruct (m =? d); lia).
  eapply (dirlink_present_run dev SB l0 G); [exact Hs|exact Ht2|done|done|apply HT1|done|lia|exact Hb1|lia|rewrite Hsl2; unfold one; destruct (ref_of I d =? 0); lia|done|done|exact Ef|done|done|].
  clear s Hs. intros I3 s Hs Ht3 Hr3 Hs3 Hk3. unfold link_end. cbn [Z.ltb Z.compare]. wp_run.
  assert (hold dev SB l0 V1 [k2] I I3 k2 d) as Hh3.
  { split; [done|]. split; [by apply Hk3|]. split; [intros m; by rewrite Hr3|]. split; [congruence|]. intros j m v Hm. by apply Hk3, Hk2. }
  eapply (hold_iunlockput dev SB l0 G V1 P (iptr kc) I); [apply HT1|lia|apply HT1|done|lia|exact second_refs|exact Ht|exact Hs|exact Hh3|by apply second_live|].
  clear s Hs. intros I4 s Hs Hev. wp_run. eapply unlinked_run; [exact Hs|by eapply hold_even|done|exact second_room|done|exact HQ].
Qed.

Lemma link_name_new Q s : fr s V1 P ∅ None false I1 (iptr kc) → dfind (cstr name) 0 (entries V1 pd) = None →
  (∀ s' V2 P' I', fr s' V2 P' ∅ None false I' (iptr kc) → even dev SB l0 V2 I0 I' → tree SB V2 → linked_to V V2 d (cstr name) n → Q 0 s') →
  wp (dirlink (iptr k2) name n) (λ r, wp (link_end (iptr k) (iptr k2) r) Q) s.
Proof.
  intros Hs Ef HQ. destruct second_tree as [HT1 Ha]. destruct second_dir as (Hfile & Hdir & Hrd & Edev & Edd). pose proof second_bounded as Hb. pose proof second_slots as Hsl.
  pose proof Hh2 as (Ht2 & He2 & Hr2 & Hsl2 & Hk2). pose proof Hh as (Ht & He & Hr & Hsn & Hk). pose proof Hfile as (Hind & _ & Hdok & Hfi & _).
  assert (i_size pd + 16 ≤ MAXFILE * BSIZE) as Hszd.
  { pose proof (Hsize d (proj1 Hld) Htd) as Hs0. destruct (rl_stays _ _ _ _ _ HR d (proj1 Hld)) as (_ & Es & _). rewrite <-Es in Hs0. by rewrite <-Edi in Hs0. }
  eapply (dirlink_run dev SB l0 G); [exact Hs|done|done|done|done|done|apply HT1|done|done|done|done|done|rewrite (rl_nfree _ _ _ _ _ HR); done|unfold nroom; lia|].
  clear s Hs. intros s V2 P' pd' j Hs Hj Hfree' Hw HP'. unfold link_end. cbn [Z.ltb Z.compare]. wp_run.
  destruct (linked_entered V1 V2 pd pd' j name n HR Hlive Hnd Hn0 Hfile (proj1 Hdir) Hj Hfree' Hw Hszd Hlen Ef) as [HT2 Hlt]. rewrite Einum in Hlt.
  destruct (tbl_written _ _ _ _ _ _ _ _ _ _ _ _ Ht2 Hpd Hrd Hw) as (Ht3 & Hr3 & Hs3). destruct (wn_fields _ _ _ _ _ _ _ Hw) as [l El].
  assert (keeps I1 (<[k2 := pd']> I1)) as Hk3 by (intros i m v; apply (entry_insert I1 k2 pd); [done|by rewrite El|by rewrite El|intros _; by rewrite El]).
  assert (hold dev SB l0 V2 [k2] I (<[k2 := pd']> I1) k2 d) as Hh3.
  { split; [done|]. split; [by apply Hk3|]. split; [intros m; by rewrite Hr3|]. split; [congruence|]. intros i m v Hm. by apply Hk3, Hk2. }
  assert (∀ m, live SB V m → live SB V2 m) as Hl2.
  { intros m Hm. pose proof (Hnl m Hm). destruct Hm as (Hm & H1 & H2). destruct (lt_inode _ _ _ _ _ Hlt m Hm) as [E1 E2]. split; [done|]. rewrite E1, E2. split; [done|]. unfold one. destruct (m =? n); lia. }
  eapply (hold_iunlockput dev SB l0 G V2 P' (iptr kc) I); [apply HT2|lia|apply HT2|done|lia|exact second_refs|exact Ht|exact Hs|exact Hh3|by apply Hl2|].
  clear s Hs. intros I4 s Hs Hev. wp_run. eapply (hold_done _ s V2 P' I4 k n); [exact Hs| |by apply Hl2|].
  { destruct Hev as (Ht4 & Hr4 & Hs4 & Hk4). split; [done|]. split; [by apply Hk4|]. split; [intros m; by rewrite Hr4|]. split; [congruence|]. intros i m v Hm. by apply Hk4, Hk. }
  clear s Hs. intros I5 s Hs Hev2. wp_run. by eapply HQ.
Qed.

End second.

Lemma link_to_run Q s V1 P I k n new :
  fr s V1 P ∅ None false I (iptr kc) → hold dev SB l0 V1 [] I0 I k n → live SB V n → dtype SB V n ≠ T_DIR → 0 < n → (size P ≤ 1)%nat →
  relinked SB V V1 n (i16 (d_nlink (dinode_at SB V n) + 1)) → chars new →
  (∀ r s' V2 P' I', fr s' V2 P' ∅ None false I' (iptr kc) → even dev SB l0 V2 I0 I' → link_done V2 n (link_place V nc new) r → Q r s') →
  wp (link_to junk (iptr k) new) Q s.
Proof.
  intros Hs Hh Hlive Hnd Hn0 HP HR Hch HQ. destruct (second_tree V1 P n Hlive HP HR) as [HT1 Ha]. pose proof Hh as (Ht & He & _ & _ & Hk).
  pose proof (second_live V1 P n Hlive HP HR) as Hl1. pose proof (second_refs V1 I k n Hh) as Hnn. pose proof (second_bounded V1 P I k n Hh HP) as Hb. pose proof (second_slots V1 P I k n Hh HP) as Hsl.
  assert (live SB V (start_of new nc)) as Hstart by (unfold start_of; by case_bool_decide).
  unfold link_to, nameiparent. wp_run.
  eapply (namex_run dev SB l0 G V1 P (iptr kc) I); [apply HT1|lia|apply HT1|done|lia|done|exact Ht|exact Hs|exact Ht|done|done|by apply Hk|by apply Hl1|by apply Hl1|done|done|done|].
  clear s Hs. intros I1 dp name s Hs Hnamed Hname. rewrite (resolve_to_alike SB V V1) in Hnamed by (done || apply HT || apply Hstart). wp_run.
  destruct (resolve_to SB V true (start_of new nc) (elems new)) as [d|] eqn:Ed; cbn [named] in Hnamed.
  2: { destruct Hnamed as [-> Hev]. cbn [Z.eqb]. eapply unlinked_run; [exact Hs|by eapply hold_even|done|by apply second_room|done|].
       intros s' V2 P' I' Hs' Hev' HT2 Hun. eapply HQ; [exact Hs'|done|]. split; [done|]. unfold link_place. by rewrite Ed. }
  destruct Hnamed as (k2 & -> & Hh2). destruct (Hname eq_refl) as (Hlast & Hlen & Hby); [unfold iptr; lia|]. rewrite iptr_nz. wp_run.
  assert (live SB V d) as Hld by (eapply resolve_live; [apply HT|exact Hstart|exact Ed]).
  assert (dtype SB V d = T_DIR) as Htd.
  { cbn [resolve_to] in Ed. unfold resolve_parent in Ed. destruct (elems new); [done|]. destruct (resolve _ _ _ _) as [x|]; [|done].
    destruct (Z.eqb_spec (dtype SB V x) T_DIR); [|done]. by injection Ed as <-. }
  eapply (hold_ilock dev SB l0 G V1 P (iptr kc) I); [apply HT1|lia|apply HT1|done|lia|done|exact Ht|exact Hs|exact Hh2|by apply Hl1|].
  clear s Hs I1 Hh2. intros I1 pd s Hs Hh2 Hpd Edev Einum Edi. wp_run. eapply wp_iload; [exact Hs|done|]. wp_run.
  destruct Hh2 as (Ht2 & He2 & Hr2 & Hsl2 & Hk2). destruct (Hk2 k n false He) as (p6 & Hp6 & En6 & Hr6 & _). destruct (t_dev _ _ _ _ _ _ Ht2 k p6 Hp6 Hr6) as [Ed6 _].
  eapply wp_iload; [exact Hs|done|]. rewrite Edev, Ed6, En6, Z.eqb_refl. cbn [negb]. wp_run. assert (hold dev SB l0 V1 [k2] I I1 k2 d) as Hh2 by done.
  destruct (second_dir V1 P I n Hlive HP HR I1 k2 d pd Hh2 Hld Htd Hpd Einum Edi) as (_ & _ & _ & _ & Edd).
  assert (link_place V nc new = match ddir SB V d (cstr name) with Some _ => None | None => Some (d, cstr name) end) as Epl by (unfold link_place; rewrite Ed; cbn; by rewrite Hlast).
  destruct (dfind (cstr name) 0 (entries V1 pd)) as [[n0 off]|] eqn:Ef; rewrite Edd, Ef in Epl; cbn [fmap option_fmap option_map] in Epl; rewrite Epl in HQ.
  - eapply (link_name_taken V1 P I k n Hh Hlive HP HR I1 k2 d pd); try done. intros s' V2 P' I' Hs' Hev' HT2 Hun. eapply HQ; [exact Hs'|done|]. by split.
  - eapply (link_name_new V1 P I k n Hh Hlive Hnd Hn0 HP HR I1 k2 d pd); try done. intros s' V2 P' I' Hs' Hev' HT2 Hun. eapply HQ; [exact Hs'|done|]. by split.
Qed.

(** What the call makes of the tree: the inode of the old path, its new directory
    and its new name. *)
Definition link_target (nc : Z) (old new : list Z) : option (Z * (Z * list Z)) :=
  n ← resolve_to SB V false (start_of old nc) (elems old);
  if dtype SB V n =? T_DIR then None else place ← link_place V nc new; Some (n, place).
Definition link_effect (V2 : Z → block) (old new : list Z) (r : Z) : Prop :=
  match link_target nc old new with
  | Some (n, (d, nm)) => r = 0 ∧ linked_to V V2 d nm n
  | None => r = -1 ∧ unchanged SB V V2
  end.

Lemma unchanged_refl : unchanged SB V V.
Proof.
  intros m Hm. split; [done|]. split; [done|]. split; [done|]. split; [by intros ? ? ?|]. intros i Hi Hz.
  destruct (sd_file _ _ (tr_sound _ _ HT) m Hm) as [Hf _]. by destruct (f_rng _ _ _ Hf i Hi Hz).
Qed.

Lemma link_paths_run Q s old new :
  fr s V ∅ ∅ None false I0 (iptr kc) → 0 < nc → chars old → chars new →
  (∀ r s' V2 P' I', fr s' V2 P' ∅ None false I' (iptr kc) → even dev SB l0 V2 I0 I' → tree SB V2 → link_effect V2 old new r → Q r s') →
  wp (link_paths junk old new) Q s.
Proof.
  intros Hs Hnc0 Hold Hnew HQ. assert (size (∅ : gset Z) = 0%nat) as Hz by apply size_empty. pose proof (proj1 (sd_vok _ _ (tr_sound _ _ HT))) as Hok.
  assert (∀ m, 0 ≤ ref_of I0 m) as Hnn by (intros m; apply ref_of_nonneg, (t_ref _ _ _ _ _ _ Ht0)).
  assert (bounded dev I0 2147483600) as Hb by (intros m; specialize (Hb0 m); lia).
  assert (live SB V (start_of old nc) ∧ start_of old nc ≠ 0) as [Hstart Hst0] by (unfold start_of; case_bool_decide; split; done || lia).
  unfold link_paths, namei. wp_run. eapply (namex_run dev SB l0 G V ∅ (iptr kc) I0); [done|lia|apply HT|done|lia|done|exact Ht0|exact Hs|exact Ht0|done|done|done|done|done|done|by apply Forall_replicate|done|].
  clear s Hs. intros I1 ip name s Hs Hnamed _. wp_run.
  destruct (resolve_to SB V false (start_of old nc) (elems old)) as [n|] eqn:En; cbn [named] in Hnamed.
  2: { destruct Hnamed as [-> Hev]. cbn [Z.eqb]. wp_run. eapply HQ; [exact Hs|exact Hev|done|]. unfold link_effect, link_target. rewrite En. split; [done|apply unchanged_refl]. }
  destruct Hnamed as (k & -> & Hh). rewrite iptr_nz. wp_run. assert (live SB V n) as Hlive by (eapply resolve_live; [apply HT|exact Hstart|exact En]).
  eapply (hold_ilock dev SB l0 G V ∅ (iptr kc) I0); [done|lia|apply HT|done|lia|done|exact Ht0|exact Hs|exact Hh|done|].
  clear s Hs I1 Hh. intros I1 p s Hs Hh Hp Edev Einum Edi. wp_run. eapply wp_iload; [exact Hs|done|].
  assert (i_type p = dtype SB V n) as Ety by (unfold dtype; by rewrite <-Edi). rewrite Ety. destruct (Z.eqb_spec (dtype SB V n) T_DIR) as [Ht|Ht]; wp_run.
  - eapply (hold_iunlockput dev SB l0 G V ∅ (iptr kc) I0); [done|lia|apply HT|done|lia|done|exact Ht0|exact Hs|exact Hh|done|].
    clear s Hs. intros I2 s Hs Hev. wp_run. eapply HQ; [exact Hs|exact Hev|done|]. unfold link_effect, link_target. rewrite En. cbn [mbind option_bind]. rewrite Ht. split; [done|apply unchanged_refl].
  - pose proof Hh as (Ht1 & (p' & Hp' & _ & Hr & _) & Hr1 & Hs1 & Hk1). rewrite Hp in Hp'. injection Hp' as <-.
    eapply (relink_run _ _ s V ∅ [k] I1 (iptr kc) k p 1); [exact Hs|exact Ht1|done|done|by rewrite Einum|apply HT|unfold room; lia|].
    clear s Hs. intros s V1 p1 Hs Ep1 Ht2 Hr2 Hs2 Hk2 HR. wp_run. rewrite Einum in HR, Hs. replace (i_nlink p) with (d_nlink (dinode_at SB V n)) in HR by (by rewrite <-Edi).
    eapply (t_iunlock dev SB l0); [exact Hs|exact Ht2|set_solver|exact (Hk2 k n false (proj1 (proj2 Hh)))|]. clear s Hs. intros I3 s Hs Ht3 Hr3 Hs3 Hk3.
    eapply link_to_run; [exact Hs| |done|done|pose proof (resolve_nonzero SB V _ _ _ Hst0 En); destruct Hlive; lia| |exact HR|done|].
    + split; [done|]. split; [exact (Hk3 _ _ _ (Hk2 k n false (proj1 (proj2 Hh))))|]. split; [intros m; by rewrite Hr3, Hr2|]. split; [congruence|]. intros j m v Hm. by apply Hk3, Hk2, Hk1.
    + rewrite (left_id_L ∅ (∪)), size_singleton. lia.
    + intros r s' V2 P' I' Hs' Hev [HT2 Hres]. eapply HQ; [exact Hs'|exact Hev|done|]. unfold link_effect, link_target. rewrite En. cbn [mbind option_bind].
      rewrite (proj2 (Z.eqb_neq _ _) Ht). by destruct (link_place V nc new) as [[d nm]|].
Qed.

End link.

(** ** The system call *)

Lemma link_effect_home SB (G : fsgeo SB) V nc V1 V2 old new r : dirs_ok SB V → live SB V nc → live SB V ROOTINO → sound_disk SB V1 → same_home SB V1 V2 →
  link_effect SB V nc V1 old new r → link_effect SB V nc V2 old new r.
Proof.
  intros Hd Hnc Hroot HS E. assert (live SB V (start_of new nc)) as Hst by (unfold start_of; by case_bool_decide).
  unfold link_effect, link_target. destruct (resolve_to SB V false _ _) as [n|]; cbn [mbind option_bind].
  2: { intros [-> H]. split; [done|]. eapply unchanged_trans; [done|by apply (unchanged_home SB G)]. }
  destruct (_ =? _). { intros [-> H]. split; [done|]. eapply unchanged_trans; [done|by apply (unchanged_home SB G)]. }
  unfold link_place. destruct (resolve_to SB V true _ _) as [d|] eqn:Ed; cbn [mbind option_bind].
  2: { intros [-> H]. split; [done|]. eapply unchanged_trans; [done|by apply (unchanged_home SB G)]. }
  apply resolve_live in Ed as (Hdr & _); [|done..].
  destruct (list.last (elems new)) as [nm|]; cbn [mbind option_bind]; [destruct (ddir SB V d nm); cbn [mbind option_bind]|]; intros [-> H]; (split; [done|]).
  1, 3: eapply unchanged_trans; [done|by apply (unchanged_home SB G)].
  by eapply (linked_to_home SB G).
Qed.
Lemma link_counted SB V nc V2 old new r : sound_disk SB V → counted SB V → link_effect SB V nc V2 old new r → counted SB V2.
Proof.
  intros HS Hc. unfold link_effect. destruct (link_target _ _ _ _ _) as [[n [d nm]]|].
  - intros [_ [_ _ H3 H4 _]] m Hm Ht. destruct (H3 m ltac:(lia)) as [E1 E2]. rewrite E2, H4 by lia. rewrite E1 in Ht. by rewrite (Hc m Hm Ht).
  - intros [_ Hu]. eapply counted_alike; [done|by apply unchanged_alike|]. intros m Hm. by destruct (Hu m Hm) as [-> _].
Qed.

(** Argument [i] of the system call is the string [path]. *)
Definition string_arg (c : caller) (i : nat) (path : list Z) : Prop := ureadstr (Z.to_nat MAXPATH) (default 0 (c_args c !! i)) (c_mem c) = (0, path).

Lemma ureadstr_chars n a m path : (∀ a b, m !! a = Some b → 0 ≤ b < 256) → ureadstr n a m = (0, path) → chars path.
Proof.
  intros Hm. revert a path. induction n as [|n IH]; intros a path; cbn [ureadstr]; [done|]. destruct (m !! a) as [b|] eqn:Eb; [|done]. apply Hm in Eb.
  destruct (Z.eqb_spec b 0); [intros [= <-]; constructor|]. destruct (ureadstr n (a + 1) m) as [r l] eqn:E. intros [= -> <-]. constructor; [lia|by eapply IH].
Qed.
Lemma wp_argstr Q (t : filest) i path : (i ≤ 5)%nat → string_arg (me t) i path → Q (Z.of_nat (length path), path) t → wp (argstr (Z.of_nat i) MAXPATH) Q t.
Proof.
  intros Hi Hp HQ. unfold argstr, argaddr, argraw, fetchstr. wp_run. rewrite (proj2 (Z.leb_le 0 _)), (proj2 (Z.leb_le _ 5)) by lia. cbn [andb]. wp_run. cbn [Z.ltb Z.compare]. wp_run.
  rewrite Nat2Z.id. unfold string_arg in Hp. rewrite Hp. cbn [Z.ltb Z.compare]. by wp_run.
Qed.

(** C5. Links are atomic and keep the tree of files sound.  On a disk whose tree is
    sound and where the link count of every inode is the number of its names,
    [sys_link] with two paths makes the new name, when the old path leads to a
    file that is not a directory, and the directory of the new path exists and does
    not have the name; the file's link count goes up by one, no other name and no
    other link count changes, and no file changes but the directory.  Otherwise it
    returns -1 and changes nothing.  Afterwards the tree is sound and the counts are
    right, the references to inodes are what they were, and the process keeps its
    files and its memory.  A crash at any of its disk writes, and crashes while
    recovering, leave the tree as before or as after. *)
Theorem sys_link_tree SB junk (t : filest) I kc nc old new :
  let V := dview (fs t) in
  fsgeo SB → 12 < sb_nlog SB → sb_ninodes SB ≤ 65536 → fsq 1 SB (fs t) I (iptr kc) → tree SB V → counted SB V →
  (∀ n, live SB V n → 0 < d_nlink (dinode_at SB V n) < 32767) → tbl 1 SB (flog (fs t)) V [] I → bounded 1 I 2147483000 → 4 ≤ slots I →
  entry I kc nc false → 0 < nc → live SB V nc → live SB V ROOTINO → length junk = 14%nat → Forall (λ x, 0 ≤ x < 256) junk →
  (∀ d, 0 ≤ d < sb_ninodes SB → dtype SB V d = T_DIR → d_size (dinode_at SB V d) + 16 ≤ MAXFILE * BSIZE) → (2 ≤ nfree SB V)%nat →
  (∀ a b, c_mem (me t) !! a = Some b → 0 ≤ b < 256) → string_arg (me t) 0 old → string_arg (me t) 1 new →
  ∃ r x I' W, sys_link junk t = OK r (set_fs x t) ∧ fsq 1 SB x I' (iptr kc) ∧ (∀ m, ref_of 1 I' m = ref_of 1 I m) ∧
    tree SB (dview x) ∧ counted SB (dview x) ∧ link_effect SB V nc (dview x) old new r ∧
    wtrace (bcache (flog x)) = wtrace (bcache (flog (fs t))) ++ W ∧
    ∀ pid j d, crash_loop 1 SB pid (replay (disk (bcache (flog (fs t)))) (take j W)) d →
      ∃ l, boot 1 SB d pid = OK tt l ∧
        (unchanged SB V (dget (disk (bcache l))) ∧ (j < length W)%nat ∨ link_effect SB V nc (dget (disk (bcache l))) old new r).
Proof.
  intros V G Hlog Hn16 Hq HT Hc Hnl Ht Hb Hsl Hkc Hnc0 Hnc Hroot Hjl Hjb Hsz Hfree Hmem Ha0 Ha1.
  destruct (in_tx_run 1 SB G (link_paths junk old new)
    (λ r V2 I' c', c' = iptr kc ∧ tree SB V2 ∧ link_effect SB V nc V2 old new r ∧ ∀ m, ref_of 1 I' m = ref_of 1 I m) (fs t) I (iptr kc) ltac:(done) Hq)
    as (r & x & V2 & I' & c' & W & E & Hq' & (-> & HT2 & Heff & Href) & Hh & Hwt & Hcs & _ & Hok).
  { intros s1 Hs1. apply (tbl_unlocked _ _ _ (flog s1)) in Ht.
    eapply (link_paths_run 1 SB (flog s1) G V I kc nc junk); try done; [by eapply ureadstr_chars..|].
    intros r s' V2 P' I' Hs' (_ & Hr & _) HT2 Heff. exists V2, P', I', (iptr kc). by do 3 (split; [done|]). }
  exists r, x, I', W. split; [|split; [done|split; [done|]]].
  { assert (wp (sys_link junk) (λ r' t', r' = r ∧ t' = set_fs x t) t) as Hw; [|by apply wp_run_OK in Hw as (? & ? & -> & -> & ->)].
    unfold sys_link. wp_run. apply (wp_argstr _ t 0 old); [lia|done|]. wp_run. rewrite (proj2 (Z.ltb_ge _ _)) by lia. wp_run.
    apply (wp_argstr _ t 1 new); [lia|done|]. wp_run. rewrite (proj2 (Z.ltb_ge _ _)) by lia. unfold infs. apply wp_zoom. eapply wp_intro; [exact E|]. done. }
  assert (same_home SB V2 (dview x)) as Hsh by exact Hh.
  assert (link_effect SB V nc (dview x) old new r) as Heff' by exact (link_effect_home SB G V nc V2 _ old new r (tr_dirs _ _ HT) Hnc Hroot (tr_sound _ _ HT2) Hsh Heff).
  split; [apply (tree_home SB G V2); [done|done|apply Hok; [apply HT2|apply HT]]|]. split; [eapply link_counted; [apply HT|done|done]|]. split; [done|]. split; [done|].
  intros pid j d Hcl. destruct (Hcs pid j d Hcl) as (l & Hl & _ & [[Hv Hj]|Hv]); exists l; (split; [done|]).
  - left. split; [|done]. apply (unchanged_home SB G); [apply HT|exact Hv].
  - right. exact (link_effect_home SB G V nc V2 _ old new r (tr_dirs _ _ HT) Hnc Hroot (tr_sound _ _ HT2) Hv Heff).
Qed.

(** ** Example: a second name for the file [a] *)

(** The strings "/a" and "/b" at addresses 100 and 200. *)
Definition ex_caller : caller := mkCaller (list_to_map [(100, 47); (101, 97); (102, 0); (200, 47); (201, 98); (202, 0)]) 4096 (replicate 16 0) [100; 200; 0; 0; 0; 0] false.
Definition ex_process (l : logst) : filest := mkFl false (replicate 100 file0) (ex_dfsst l) ∅ [] ex_caller.

Lemma ex_mem a b : c_mem ex_caller !! a = Some b → 0 ≤ b < 256.
Proof.
  intros H%elem_of_list_to_map_2. assert (Forall (λ x : Z * Z, 0 ≤ x.2 < 256) [(100, 47); (101, 97); (102, 0); (200, 47); (201, 98); (202, 0)]) as Hf by (apply (bool_decide_unpack _); by vm_compute).
  rewrite Forall_forall in Hf. exact (Hf (a, b) (proj1 (list_elem_of_In _ _) H)).
Qed.

Lemma sys_link_tree_witness :
  ∃ l x, boot 1 ex_sb ex_ddisk 3 = OK tt l ∧ sys_link (replicate 14 7) (ex_process l) = OK 0 (set_fs x (ex_process l)) ∧
    tree ex_sb (dview x) ∧ ddir ex_sb (dview x) 1 [98] = Some 5 ∧ ddir ex_sb (dview x) 1 [97] = Some 5.
Proof.
  destruct (disk_boot ex_ddisk) as (l & Eb & Hq & Hok & Hd); [vm_compute; reflexivity..|].
  destruct (free_ok ex_ddisk 8 (dget (disk (bcache l)))) as [Hv Hf]; [vm_compute; reflexivity|by apply Hd|done|].
  destruct (sys_link_tree ex_sb (replicate 14 7) (ex_process l) (itable (ex_dfsst l)) 0 1 [47; 97] [47; 98]) as (r & x & I' & W & E & _ & _ & HT & _ & Heff & _).
  - exact ex_geo.
  - reflexivity.
  - discriminate.
  - by do 4 (split; [done|]).
  - by apply ex_tree.
  - by apply ex_counted.
  - by apply ex_nlink.
  - by apply ex_tbl.
  - by apply ex_bounded.
  - discriminate.
  - exists ex_root. split; [reflexivity|]. split; [reflexivity|]. split; [reflexivity|discriminate].
  - reflexivity.
  - apply ex_live; auto.
  - apply ex_live; auto.
  - reflexivity.
  - apply Forall_replicate. lia.
  - intros d Hr. by apply ex_dsize.
  - unfold dview. cbn [flog fs ex_process ex_dfsst]. lia.
  - exact ex_mem.
  - reflexivity.
  - reflexivity.
  - unfold link_effect in Heff.
    assert (link_target ex_sb (dview (ex_dfsst l)) 1 [47; 97] [47; 98] = Some (5, (1, [98]))) as Et.
    { assert (dtype ex_sb (dview (ex_dfsst l)) 1 = T_DIR ∧ dtype ex_sb (dview (ex_dfsst l)) 5 = T_FILE) as [T1 T5] 
        by (split; [exact (ex_types (dview (ex_dfsst l)) Hd 1 ltac:(lia))|exact (ex_types (dview (ex_dfsst l)) Hd 5 ltac:(lia))]).
      assert (ddir ex_sb (dview (ex_dfsst l)) 1 [97] = Some 5 ∧ ddir ex_sb (dview (ex_dfsst l)) 1 [98] = None) as [D1 D2] 
        by (split; [exact (ex_ddir (dview (ex_dfsst l)) Hd [97])|exact (ex_ddir (dview (ex_dfsst l)) Hd [98])]).
      unfold link_target, link_place. change (elems [47; 97]) with [[97]]. change (elems [47; 98]) with [[98]]. change (start_of [47; 97] 1) with 1.
      change (start_of [47; 98] 1) with 1. cbn [resolve_to resolve resolve_parent removelast]. rewrite T1, D1, Z.eqb_refl. cbn [mbind option_bind list.last].
      rewrite T5, D2. done. }
    change (fs (ex_process l)) with (ex_dfsst l) in Heff. rewrite Et in Heff. destruct Heff as [-> Hlt]. exists l, x. split; [exact Eb|]. split; [exact E|]. split; [exact HT|].
    split; [exact (lt_name _ _ _ _ _ _ Hlt)|]. rewrite (lt_names _ _ _ _ _ _ Hlt 1 [97]) by (try split; try (right; discriminate); cbn; lia).
    by rewrite (ex_ddir (dview (ex_dfsst l))) by exact Hd.
Defined.
