(* ===== verification/Kernel.v ===== *)
(** * Processes with open files

    The open files and the file system of [File] and [Fs] keep the promises of the
    interface [FileLayer] that the processes rely on.  So what was shown of
    processes for any such layer holds of the kernel with its file system, log and
    buffer cache. *)

From stdpp Require Import base gmap list strings numbers.
From S2P Require Import UPrintf KPrintf.
From S2P Require Import Prelude Machine Riscv KString Kalloc Vm Spinlock Block SleepLock Bio BioSpec Cache Log LogSpec Fs FsTx FsAlloc FsInode FsOp FsFile FsWrite FsTrunc FsDir FsTable FsPath FsSound FsTree Pipe File FileLayer.
From S2P Require Import PageTable Uvm FreeWalk UserCopy Proc ProcMem ProcSpec ProcCalls ProcFork ProcLife.

(** ** The interface *)

#[export] Instance file_layer : FileLayer filest := {|
  fl_filedup := filedup;
  fl_fileclose := fileclose;
  fl_idup ip := infs (idup ip);
  fl_begin_op := infs (inlog begin_op);
  fl_iput ip := infs (iput ip);
  fl_end_op := infs (inlog end_op);
  fl_root := infs (namei [SLASH]);
  fl_fsinit d := infs (fsinit d);
|}.

Section kernel.
Context (SB : superblock) (G : fsgeo SB) (Hroom : nbitmap SB + 2 ≤ Z.min 29 (sb_nlog SB - 1)).

#[local] Program Instance file_layer_ok : FileLayerOk filest := {|
  fl_inv t fl ds := (length fl ≤ 2048)%nat ∧ (length ds ≤ 2048)%nat ∧ file_counts 1 SB t fl ds |}.
Next Obligation.
  intros t fl ds fl' ds' (H1 & H2 & H3) E1 E2. rewrite (Permutation_length E1) in H1. rewrite (Permutation_length E2) in H2. split; [done|]. split; [done|].
  by eapply file_counts_perm.
Qed.
Next Obligation.
  intros t x fl ds Hx Hl (H1 & H2 & H3). eapply wp_mono; [by apply (filedup_counts 1 SB)|]. cbv beta. intros r t' [-> H]. cbn [length]. split; [done|]. split; [lia|]. by split.
Qed.
Next Obligation.
  intros t x fl ds (H1 & H2 & H3). cbn [length] in H1. eapply wp_mono; [by apply (fileclose_counts 1 SB G ltac:(done) Hroom)|].
  cbv beta. intros _ t' H. split; [lia|]. by split.
Qed.
Next Obligation.
  intros t x fl ds Hx Hl (H1 & H2 & H3). eapply wp_mono; [by apply (idup_file_counts 1 SB)|]. cbv beta. intros r t' [-> H]. cbn [length]. split; [done|]. split; [done|]. split; [lia|done].
Qed.
Next Obligation.
  intros t x fl ds (H1 & H2 & H3). cbn [length] in H2. eapply wp_mono; [apply (iput_file_counts 1 SB G ltac:(done) Hroom); [exact H3|lia]|].
  cbv beta. intros _ t' H. split; [done|]. split; [lia|done].
Qed.

Context `{Layout} `{!LayoutOk} `{ProcLayout} `{!ProcLayoutOk}.


End kernel.

(** ** Example: [init] with an open file *)

(** On the disk [ex_ddisk], with the root directory and the file [a], which
    [init] has open. *)
Definition ex_a : inode := mkInode 1 5 1 free_lock true T_FILE 0 0 1 0 (replicate 13 0).
Definition ex_open_fs (l : logst) : fsst := mkFs ex_sb false (ex_root :: ex_a :: replicate 48 inode0) l (iptr 0).
Definition ex_open_files (l : logst) : filest :=
  mkFl false (mkFile FD_INODE 1 true true 0 (iptr 1) 0 0 :: replicate 99 file0) (ex_open_fs l) ∅ [] (mkCaller ∅ 0 [] [] false).
Definition ex_ofile : list Z := fptr 0 :: replicate 15 0.

Lemma ex_open_lookup k p : (ex_root :: ex_a :: replicate 48 inode0) !! k = Some p → k = 0%nat ∧ p = ex_root ∨ k = 1%nat ∧ p = ex_a ∨ (1 < k)%nat ∧ p = inode0.
Proof.
  destruct k as [|[|k]]; [intros [= <-]; by left|intros [= <-]; right; by left|].
  change ((ex_root :: ex_a :: replicate 48 inode0) !! S (S k)) with (replicate 48 inode0 !! k). intros [-> _]%lookup_replicate. right; right. split; [lia|done].
Qed.
Lemma ex_file_lookup l i F : ftable (ex_open_files l) !! i = Some F → i = 0%nat ∧ F = mkFile FD_INODE 1 true true 0 (iptr 1) 0 0 ∨ i ≠ 0%nat ∧ F = file0.
Proof.
  cbn [ftable ex_open_files]. destruct i as [|i]; [intros [= <-]; by left|].
  change ((mkFile FD_INODE 1 true true 0 (iptr 1) 0 0 :: replicate 99 file0) !! S i) with (replicate 99 file0 !! i). intros [-> _]%lookup_replicate. by right.
Qed.
Lemma ex_held k l : held_by k (ftable (ex_open_files l)) = if decide (k = 1%nat) then 1 else 0.
Proof.
  assert (∀ n, held_by k (replicate n file0) = 0) as H0 by (induction n as [|n IH]; [done|]; cbn [replicate]; unfold held_by in *; cbn [foldr]; rewrite IH; done).
  cbn [ftable ex_open_files]. change (held k (mkFile FD_INODE 1 true true 0 (iptr 1) 0 0) + held_by k (replicate 99 file0) = if decide (k = 1%nat) then 1 else 0).
  rewrite H0. unfold held. cbn [f_ref f_type f_ip on_inode]. case_decide as E; [by subst k|]. rewrite (proj2 (Z.eqb_neq (iptr 1) (iptr k))) by (unfold iptr; lia). done.
Qed.
Lemma cnt_one x y : cnt x [y] = if decide (x = y) then 1 else 0.
Proof. rewrite cnt_cons. unfold cnt. cbn. lia. Qed.

Lemma ex_open_counts l : quiet 1 2 30 l → vok ex_sb (dget (disk (bcache l))) → (∀ n, n ≠ 2 → dget (disk (bcache l)) n = dget ex_ddisk n) →
  file_counts 1 ex_sb (ex_open_files l) [1] [1].
Proof.
  intros Hq Hv Hd. split.
  - split; try done.
    + intros x ->%list_elem_of_singleton. exists 0%nat. split; [done|lia].
    + intros i F [[-> ->]|[Hi ->]]%ex_file_lookup; rewrite cnt_one; [done|]. rewrite decide_False by (unfold fptr; lia). done.
    + intros i F [[-> ->]|[Hi ->]]%ex_file_lookup; done.
    + intros i F [[-> ->]|[Hi ->]]%ex_file_lookup; [|done]. intros _. exists 1%nat. split; [done|lia].
    + intros x ->%list_elem_of_singleton. exists 0%nat. split; [done|lia].
  - pose proof (ex_sound_disk _ Hd Hv) as Hs. split; [by do 4 (split; [done|])|]. split; [done|]. split; [split|].
    + done.
    + intros k p [[_ ->]|[[_ ->]|[_ ->]]]%ex_open_lookup; done.
    + intros k p [[_ ->]|[[_ ->]|[_ ->]]]%ex_open_lookup; [| |done]; intros _; (split; [done|]); by vm_compute.
    + intros k p [[_ ->]|[[_ ->]|[_ ->]]]%ex_open_lookup; [| |done]; intros _ _; symmetry; [apply (ex_root_disk _ Hd)|].
      change (dinode_at ex_sb (dget (disk (bcache l))) 5 = dinode_of ex_a). rewrite (ex_dinode _ Hd) by lia. vm_compute. reflexivity.
    + intros j k p q [[-> ->]|[[-> ->]|[_ ->]]]%ex_open_lookup [[-> ->]|[[-> ->]|[_ ->]]]%ex_open_lookup; done.
    + intros k p [[_ ->]|[[_ ->]|[_ ->]]]%ex_open_lookup; done.
    + intros k p Hp. unfold inode_refs. rewrite ex_held, cnt_one.
      apply ex_open_lookup in Hp as [[-> ->]|[[-> ->]|[Hk ->]]]; [done|done|]. rewrite !decide_False by (unfold iptr; lia). done.
Qed.

Lemma ex_room : nbitmap ex_sb + 2 ≤ Z.min 29 (sb_nlog ex_sb - 1).
Proof. vm_compute. congruence. Qed.

(** [init] forks; the child, with the same open file, exits. *)
Definition ex_steps : list kevent := [ESwitch 0; EFork; EWait 0; ESwitch 1; EExit 7; EWakeup 1; ESwitch 0; EFork].

Section ex_run.
#[local] Existing Instances ex16_layout ex16_layout_ok ex_proc_layout ex_proc_layout_ok.

End ex_run.
